(* ===== verification/_CoqProject ===== *)
-Q . S2P
Prelude.v
PyStr.v
PyFloat.v
Python.v
PyJson.v
Sha256.v
Contracts.v
FailureEvidence.v
DedupeStore.v
RetryExecutor.v
HostPolicy.v
RemoteVerifier.v
Scripts.v
IdempotencyKey.v
CapabilitySnapshot.v
Cognition.v
TurnEngine.v
TurnPhases.v
TurnSafety.v
TurnLinks.v
CapabilityResolver.v
TurnConcurrency.v
EventLog.v
Projection.v
ReplayFidelity.v
Admission.v
SnapshotAdmission.v
TaskRegistry.v
Sqlite.v
DecisionDeduper.v
SqliteDedupeStore.v
SqliteEventLog.v
ProjectionCache.v
ColocatedBundle.v
SchemaMigration.v
TableMigration.v
Reconciler.v
RecoveryPlanner.v
RunActor.v
RunActorSafety.v
RecordStores.v
Postgres.v
PgDedupeStore.v
PgEventLog.v
Heartbeat.v
FacadeAdapters.v
Facade.v
KindRegistries.v
FacadeTrace.v
FacadeSafety.v
LocalSubstrate.v
RetainingLog.v
TemporalGateway.v
LocalSafety.v
EventExport.v
CompensationRegistry.v
CircuitBreaker.v
PgStores.v
RecoveryGate.v
BranchHealth.v
KernelRuntime.v
