(* ===== verification/Prelude.v ===== *)
(** * agent-kernel: a verification library

    A model of the kernel of [agent_kernel] (src/agent_kernel/), translated from
    its Python sources, with the theorems that make it correct.

    ** The program

    A _run_ is owned by a run actor, which appends what happens to an event
    log, projects a decision state from that log, and takes decision rounds.
    A round runs one _turn_ of the turn engine: snapshot of capabilities,
    admission, dispatch policy, reservation of an idempotency key in the dedupe
    store, execution.  Failures go to the recovery gate, which plans,
    compensates or escalates.  The stores behind these ports are in memory or
    in SQLite; a reconciler compares log and dedupe store.  A registry of tasks
    with its own journal and watchdog sits beside them.

    ** How it is modelled

    Python's effects are explicit.  A method is a computation [M S A]: from a
    state it yields an [outcome], a value or an exception, and the state after;
    an exception keeps the changes made before it.  A component that shares an
    object with another runs on that part of the state with [zoom].  A
    collaborator that is injected, or that is not in the repository's own
    sources, is a parameter; where a theorem relies on it, the contract is a
    type class (or a named hypothesis), and the in-memory and SQLite
    implementations discharge the class.  A [dict] whose order is observed is
    an association list, else a finite map; [str] is restricted to code points
    below 256; [int] is unbounded, as in Python; [float] is IEEE binary64
    ([SpecFloat]); JSON-like values are [pyval].  Clocks, random jitter and
    generated ids are arguments or readings of the environment.

    ** The files, bottom up

    - [Prelude]: exceptions, [outcome], [M] with its weakest-precondition
      rules [wp] and the hint database of the same name, ordered dictionaries.
    - [PyStr], [PyFloat], [Python], [Sha256]: the parts of the standard library
      the sources call: [str] methods, [float(str)], [repr] and [math.isfinite],
      [json.dumps], [hashlib.sha256]; [PyJson]: [json.loads].
    - [Contracts]: the DTOs of kernel/contracts.py.
    - [FailureEvidence]: kernel/failure_evidence.py.
    - [DedupeStore]: kernel/dedupe_store.py; the class [DedupeStoreLaws] says that
      each operation refines a step of an abstract ledger.
    - [HostPolicy]: kernel/remote_service_policy.py and the host-kind resolution
      of turn_engine.py and minimal_runtime.py.
    - [Scripts]: the wrapper and the registry of kernel/cognitive/script_runtime.py
      and script_runtime_registry.py.
    - [RemoteVerifier]: kernel/remote_service_verifier.py.
    - [IdempotencyKey], [CapabilitySnapshot]: kernel/idempotency_key_policy.py,
      kernel/capability_snapshot.py.
    - [Cognition]: kernel/reasoning_loop.py and kernel/cognitive/context_port.py,
      output_parser.py, inference_activity.py and the shared part of
      llm_gateway.py.
    - [TurnEngine], [TurnPhases]: kernel/turn_engine.py, its data and helpers, and
      its phases and dispatcher; [TurnSafety]: the contract of each phase and of
      a whole turn; [TurnConcurrency]: any number of turns interleaved at their
      [await] points, with restarts, cancellations and other users of the store;
      [TurnLinks]: what the executor call of a turn has to do with the input.
    - [RetryExecutor]: kernel/retry_executor.py and the transient errors of
      contracts.py.
    - [EventLog], [Projection], [Admission]: the event log, the decision
      projection and its cache, the static admission gate and the executors of
      kernel/minimal_runtime.py.
    - [ReplayFidelity]: kernel/replay_fidelity.py.
    - [CapabilityResolver]: kernel/capability_snapshot_resolver.py.
    - [SnapshotAdmission]: kernel/admission/.
    - [TaskRegistry]: kernel/task_manager/.
    - [Sqlite]: connections, transactions, failing statements and other writers;
      what it means for an operation to be [atomic] or [serializable].
    - [DecisionDeduper], [SqliteDedupeStore], [SqliteEventLog], [ColocatedBundle]:
      kernel/persistence/sqlite_decision_deduper.py, sqlite_dedupe_store.py,
      sqlite_event_log.py, sqlite_colocated_bundle.py.
    - [ProjectionCache]: kernel/persistence/sqlite_projection_cache.py.
    - [RecordStores]: kernel/persistence/sqlite_turn_intent_log.py,
      sqlite_recovery_outcome_store.py, sqlite_task_view_log.py and the in-memory
      recovery outcomes of minimal_runtime.py.
    - [Postgres]: PostgreSQL transactions at READ COMMITTED among other sessions,
      and what it means for an operation to be one step of them ([linear]);
      [PgDedupeStore], [PgEventLog], [PgStores]: kernel/persistence/
      pg_dedupe_store.py, pg_event_log.py, pg_circuit_breaker_store.py and
      pg_recovery_outcome_store.py.
    - [SchemaMigration], [TableMigration]: kernel/persistence/
      event_schema_migration.py and migrations.py.
    - [Reconciler]: kernel/persistence/consistency.py and
      dispatch_outbox_reconciler.py.
    - [RecoveryPlanner]: kernel/recovery/planner.py and mode_registry.py.
    - [RunActor], [RunActorSafety]: substrate/temporal/run_actor_workflow.py and
      kernel/peer_auth.py, the definitions and what they do.
    - [Heartbeat]: runtime/heartbeat.py, runtime/health.py and
      runtime/drain_coordinator.py.
    - [FacadeAdapters]: adapters/facade/workflow_gateway_adapter.py,
      adapters/agent_core/context_adapter.py and checkpoint_adapter.py.
    - [Facade]: adapters/facade/kernel_facade.py, the platform's entry point over
      a workflow gateway; [FacadeTrace]: several facades over one event log;
      [FacadeSafety]: what one facade promises.
    - [KindRegistries]: kernel/event_registry.py, action_type_registry.py,
      failure_code_registry.py and failure_mappings.py.
    - [LocalSubstrate], [LocalSafety]: substrate/local/adaptor.py, the gateway
      that runs the actors in the process, with the dependency registry of
      run_actor_workflow.py; what it promises over any interleaving.
    - [CompensationRegistry], [CircuitBreaker], [RecoveryGate]:
      kernel/recovery/compensation_registry.py, the circuit-breaker store and
      probe, kernel/recovery/gate.py and reflection_builder.py.
    - [BranchHealth]: kernel/branch_monitor.py.
    - [RetainingLog]: the logs that release none of a set of runs, an interface.
    - [TemporalGateway]: substrate/temporal/gateway.py, activity_gateway.py and
      what adaptor.py makes of them.
    - [EventExport]: kernel/event_export.py; the exporting log is a lawful log, so
      what holds over any lawful log holds where commits are exported.
    - [KernelRuntime]: runtime/kernel_runtime.py on the local substrate, and what
      facade, gateway, actor and engine promise together.

    A definition has the name of the Python function, method, class or constant
    it translates, inside a Module of the class's name where two would collide;
    fields carry a short prefix.

    ** What the theorems show

    - Dispatch: the executor is entered at most once per idempotency key, and on
      an available store at most once per (run, action, offset), over any
      interleaving ([TurnConcurrency]); what one turn returns, raises and leaves
      in the ledger ([TurnSafety]); each dedupe store is the abstract ledger, whose
      records only move forward ([DedupeStore], [SqliteDedupeStore],
      [PgDedupeStore]); the atomic
      dispatch of the colocated bundle writes both stores or neither.  A turn
      replayed after a crash does not execute again ([ReplayFidelity]); an
      executor that retries stays within its attempts and delays
      ([RetryExecutor]); a wrapped script runs at most once, what its duplicates
      are told and which runtime it is routed to ([Scripts]).
    - The run: the cached projection is the fold of the history, well formed, and
      insensitive to the order of operational events ([Projection]), also where it
      is seeded from a stored snapshot ([ProjectionCache]); the
      logs number and return what was appended ([EventLog], [SqliteEventLog],
      [PgEventLog]), in PostgreSQL among transactions that overlap, and a stored
      payload is decoded to what was encoded ([PyJson]);
      migration ends along a shortest chain ([SchemaMigration]), and the tables
      are brought up to date once ([TableMigration]); a decision round
      is claimed once and leaves its outcome and recovery commits, a signal is
      one commit and never a turn ([RunActorSafety]).
    - Admission: what the two gates decide, that the engine's blocks are among
      admission's, the grant round trip, the rate limit in every window.
    - Recovery: the decisions of the gate, the circuit breaker over time, at most
      one execution of a compensation per key, the plan round trip, what the
      reconciler repairs and what it cannot see.
    - Tasks: the registry's invariant, the replay of its journal, the watchdog.
    - Liveness of runs: a sweep reports each overdue run once until it makes
      progress; the signal makes a stuck run ready, and only the first has an
      effect ([Heartbeat]).
    - The facade: instances that share a log converge on what it says about the
      stages, branches and gates of a run, and what becomes of them when their
      callers break the discipline of the trace ([FacadeTrace]); an instance keeps at
      most its limit of runs, forwards an approval once, and derives the review
      state from the gates ([FacadeSafety]); a checkpoint id is read back as the
      run and offset it was made of ([FacadeAdapters]).
    - The local substrate: a query returns the replay of a prefix of the run's
      history, a signal that was taken is seen by the next query, a turn key is
      executed once while its result is cached ([LocalSafety]).
    - The Temporal gateway: it acts on the server as on a map from run ids to
      workflows, and the run id it tells for a child leads to no workflow, so that
      the child stays as it was started ([TemporalGateway]).
    - The model: the actions the parsers make of an output, how often a provider
      that limits its rate is called, and a whole cycle over the deterministic
      gateway ([Cognition]).
    - Kinds and checks: which kinds the registries know and leave out, what a
      batch of failure codes answers ([KindRegistries]), which branches are
      reported ([BranchHealth]), which scenarios pass ([RemoteVerifier]).
    - Export: the trace the sink has of a run summarises a prefix of its history,
      all of it where no export waits ([EventExport]).
    - Records: what the tables of turn intents, recovery outcomes and task views
      answer after any writes ([RecordStores]).
    - The whole: the executor is entered only for an action that was resolved,
      snapshotted and admitted, in strict mode only with a declared bundle; a
      run cancelled through the facade stays aborted ([KernelRuntime]).

    ** Fuel and bounds

    Loops over lists are structural.  [SchemaMigration]'s search runs on
    2 + (number of edges) rounds and its path reconstruction on the number of
    discovered versions; [migrate_shortest] proves both enough.  In [Sha256] the
    fuel is the length of the padded message, 64 times the number of blocks; the
    decoder of [PyJson] has more fuel than the text has characters, and
    [json_loads_total] proves it enough; in
    [PyFloat] the searches of [repr] are bounded by the digits and the exponent
    range of a binary64 number.

    ** Assumptions

    Each method that the sources run under a lock, or without an [await] that
    suspends, is one step.  The clauses [except A, B:] are read as Python 3.14
    reads them.  The SQLite model assumes serialised writers, statements that
    either happen or fail, and snapshot reads.  The PostgreSQL model assumes
    that other sessions respect row locks and the advisory lock of a run, append
    to the ends of streams under numbers they drew themselves, before or after,
    and delete no dedupe record; a cancelled operation is not considered there.
    What the driver makes of a dictionary bound to a JSONB column is the type
    codec of the pool, a parameter that may refuse; the pool of the sources has
    none.  The laws of [EventLogLaws],
    [DedupeStoreLaws], [DecisionDeduperLaws] and the circuit-breaker store are
    assumed of an arbitrary store, and proved of the ones modelled.  In a
    network of facades a rebuild is one step, since the logs of the repository
    do not suspend in [load]; no signal or append is lost, and the log releases no
    run.  That the callers open a stage or branch once over all the instances,
    mark it after its opening is logged and pass no empty failure code is not
    part of a step but asked by the theorems that need it.  Over the projection snapshots the log outlives the process and other
    processes only delete rows; the record stores are used over a connection
    of their own, whose statements do not fail, except where a theorem says
    otherwise. In the local substrate a start-up task runs to its end when
    the event loop runs it, since the logs of the repository do not suspend;
    the process has one adaptor, so that the bundle that a workflow resolves
    is its gateway's; the log retains the histories of the runs in use (the class
    [RetainingLog], proved of the SQLite log, and of the in-memory one for no
    more runs than it keeps).  Of a Temporal client [TemporalClientLaws] says
    that a call that returns took one effect on the workflow of its id.  A table
    migration runs on a connection that no other writer uses.

    ** Not modelled

    Logging, metrics, tracing and observability hooks, whose results the sources
    ignore; PRAGMAs, connection pools, schema statements and closing of
    databases; the bridge that runs the PostgreSQL driver; the HTTP service, the
    Kafka exporter, the runner, session and tool adapters and the vendor
    gateways, which are I/O over third-party packages or their objects; the
    processes and threads that run scripts; the worker of the Temporal substrate
    and its embedded server; configuration values and entry points; the manifest
    and health documents of the facade and its pass-through calls to a task view
    log; the vendored Temporal SDK under external/, of which the run actor's and
    the gateway's uses are parameters; background tasks that repeat a modelled
    step. *)

From Stdlib Require Export ZArith Lia.
From stdpp Require Export base gmap strings list pretty sorting.

#[export] Set Default Goal Selector "!".

(** ** Python exceptions

    The exception classes the modelled modules raise or catch.  [OtherError]
    stands for an exception class raised by an injected collaborator.
    The two cancellation classes and [ContinueAsNewError] derive from
    [BaseException] and escape [except Exception]; the cancellations are
    separate so that [asyncio.wait_for] can tell its own deadline from a
    cancellation of the enclosing task.  [Unmodelled] marks a run that leaves
    the model. *)
Inductive exn_class :=
  | ValueError
  | TypeError
  | KeyError
  | AttributeError
  | RuntimeError
  | AssertionError
  | OverflowError
  | TimeoutError
  | DedupeStoreStateError
  | CapabilitySnapshotBuildError
  | PolicyResolutionError
  | SchemaMigrationError
  | TransientCompensationError
  | CompensationTimeoutError
  | CompensationExhaustedError
  | CancelledError
  | CancelledByDeadline
  | ContinueAsNewError
  | Unmodelled
  | OtherError (name : string).

Record exn := Exn { exn_cls : exn_class; exn_msg : string }.

#[export] Instance exn_class_eq_dec : EqDecision exn_class.
Proof. solve_decision. Defined.

(** [isinstance(e, ValueError)]: the subclasses declared in the sources. *)
Definition is_ValueError (e : exn) : bool :=
  match exn_cls e with
  | ValueError | DedupeStoreStateError | CapabilitySnapshotBuildError
  | PolicyResolutionError => true
  | _ => false
  end.

(** [isinstance(e, TimeoutError)]. *)
Definition is_TimeoutError (e : exn) : bool :=
  match exn_cls e with TimeoutError | CompensationTimeoutError => true | _ => false end.

(** [isinstance(e, Exception)]. *)
Definition is_Exception (e : exn) : bool :=
  match exn_cls e with
  | CancelledError | CancelledByDeadline | ContinueAsNewError | Unmodelled => false
  | _ => true
  end.

(** [type(e).__name__]. *)
Definition exn_name (e : exn) : string :=
  match exn_cls e with
  | ValueError => "ValueError"
  | TypeError => "TypeError"
  | KeyError => "KeyError"
  | AttributeError => "AttributeError"
  | RuntimeError => "RuntimeError"
  | AssertionError => "AssertionError"
  | OverflowError => "OverflowError"
  | TimeoutError => "TimeoutError"
  | DedupeStoreStateError => "DedupeStoreStateError"
  | CapabilitySnapshotBuildError => "CapabilitySnapshotBuildError"
  | PolicyResolutionError => "PolicyResolutionError"
  | SchemaMigrationError => "SchemaMigrationError"
  | TransientCompensationError => "TransientCompensationError"
  | CompensationTimeoutError => "CompensationTimeoutError"
  | CompensationExhaustedError => "CompensationExhaustedError"
  | CancelledError | CancelledByDeadline => "CancelledError"
  | ContinueAsNewError => "ContinueAsNewError"
  | Unmodelled => "Unmodelled"
  | OtherError n => n
  end.

(** ** Computations that may raise *)
Inductive outcome (A : Type) :=
  | Ok (a : A)
  | Raise (e : exn).
Arguments Ok {A} a.
Arguments Raise {A} e.

#[export] Instance outcome_ret : MRet outcome := λ A a, Ok a.
#[export] Instance outcome_bind : MBind outcome := λ A B f m,
  match m with Ok a => f a | Raise e => Raise e end.

Definition is_ok {A} (o : outcome A) : bool :=
  match o with Ok _ => true | Raise _ => false end.

(** ** Stateful computations that may raise

    An exception keeps the state changes made before it, as in Python. *)
Definition M (S A : Type) : Type := S → outcome A * S.

#[export] Instance M_ret {S} : MRet (M S) := λ A a s, (Ok a, s).
#[export] Instance M_bind {S} : MBind (M S) := λ A B f m s,
  match m s with
  | (Ok a, s') => f a s'
  | (Raise e, s') => (Raise e, s')
  end.

Definition raise {S A} (e : exn) : M S A := λ s, (Raise e, s).
Definition gets {S A} (f : S → A) : M S A := λ s, (Ok (f s), s).
Definition modify {S} (f : S → S) : M S unit := λ s, (Ok tt, f s).
Definition lift {S A} (o : outcome A) : M S A := λ s, (o, s).

(** [try: m  except <those satisfying p> as e: h e]. *)
Definition try_except {S A} (m : M S A) (p : exn → bool) (h : exn → M S A) : M S A :=
  λ s, match m s with
       | (Raise e, s') => if p e then h e s' else (Raise e, s')
       | r => r
       end.

(** [try: r = await m  except ...] with several clauses: what [m] did, as a
    value to dispatch on. *)
Definition reify {S A} (m : M S A) : M S (outcome A) := λ s, let '(o, s') := m s in (Ok o, s').

(** [with contextlib.suppress(Exception): m]. *)
Definition suppress {S} (m : M S unit) : M S unit :=
  try_except m is_Exception (λ _, mret tt).

(** Run [m] on one field of a larger state. *)
Definition zoom {S T A} (get : T → S) (put : S → T → T) (m : M S A) : M T A :=
  λ t, let '(o, s) := m (get t) in (o, put s t).

(** ** Reasoning about stateful computations

    [wp m Q E s]: run from [s], [m] either returns a value and state in [Q]
    or raises an exception with a state in [E].  Total by construction: a
    computation of type [M S A] always ends. *)
Definition wp {S A} (m : M S A) (Q : A → S → Prop) (E : exn → S → Prop) (s : S) : Prop :=
  match m s with
  | (Ok a, s') => Q a s'
  | (Raise e, s') => E e s'
  end.

Section wp.
Context {S : Type}.
Implicit Types s : S.

Lemma wp_ret {A} (a : A) (Q : A → S → Prop) E s : Q a s → wp (mret (M:=M S) a) Q E s.
Proof. done. Qed.

Lemma wp_bind {A B} (m : M S A) (f : A → M S B) Q E s :
  wp m (λ a s', wp (f a) Q E s') E s → wp (m ≫= f) Q E s.
Proof. unfold wp, mbind, M_bind. by destruct (m s) as [[a|e] s']. Qed.

Lemma wp_mono {A} (m : M S A) (Q Q' : A → S → Prop) (E E' : exn → S → Prop) s :
  wp m Q E s → (∀ a s', Q a s' → Q' a s') → (∀ e s', E e s' → E' e s') → wp m Q' E' s.
Proof. unfold wp. destruct (m s) as [[a|e] s']; auto. Qed.

Lemma wp_raise {A} e (Q : A → S → Prop) E s : E e s → wp (raise e) Q E s.
Proof. done. Qed.

Lemma wp_gets {A} (f : S → A) (Q : A → S → Prop) E s : Q (f s) s → wp (gets f) Q E s.
Proof. done. Qed.

Lemma wp_modify (f : S → S) (Q : unit → S → Prop) E s : Q tt (f s) → wp (modify f) Q E s.
Proof. done. Qed.

Lemma wp_lift {A} (o : outcome A) Q E s :
  (∀ a, o = Ok a → Q a s) → (∀ e, o = Raise e → E e s) → wp (lift o) Q E s.
Proof. unfold wp, lift. destruct o; auto. Qed.

Lemma wp_try_except {A} (m : M S A) (p : exn → bool) h Q E s :
  wp m Q (λ e s', if p e then wp (h e) Q E s' else E e s') s → wp (try_except m p h) Q E s.
Proof.
  unfold wp, try_except. destruct (m s) as [[a|e] s']; [done|].
  destruct (p e); auto.
Qed.

Lemma wp_suppress (m : M S unit) Q E s :
  wp m Q (λ e s', if is_Exception e then Q tt s' else E e s') s → wp (suppress m) Q E s.
Proof. intros H. apply wp_try_except. exact H. Qed.

Lemma wp_reify {A} (m : M S A) Q E s :
  wp m (λ a s', Q (Ok a) s') (λ e s', Q (Raise e) s') s → wp (reify m) Q E s.
Proof. unfold wp, reify. by destruct (m s) as [[a|e] s']. Qed.

Lemma wp_run {A} (m : M S A) Q E s o s' :
  wp m Q E s → m s = (o, s') →
  match o with Ok a => Q a s' | Raise e => E e s' end.
Proof. unfold wp. intros H Hm. rewrite Hm in H. by destruct o. Qed.

(** Inversion of a run of a sequence. *)
Lemma bind_inv {A B} (m : M S A) (f : A → M S B) s o s' :
  (m ≫= f) s = (o, s') →
  (∃ a s1, m s = (Ok a, s1) ∧ f a s1 = (o, s')) ∨
  (∃ e, m s = (Raise e, s') ∧ o = Raise e).
Proof.
  unfold mbind, M_bind. destruct (m s) as [[a|e] s1]; intros H; [left; eauto|].
  right. exists e. by simplify_eq.
Qed.
End wp.

Lemma wp_zoom {S T A} (get : T → S) (put : S → T → T) (m : M S A) Q E t :
  wp m (λ a s, Q a (put s t)) (λ e s, E e (put s t)) (get t) → wp (zoom get put m) Q E t.
Proof. unfold wp, zoom. by destruct (m (get t)) as [[a|e] s]. Qed.

(** The rules as a database: [eauto with wp], and [wp_step] for one step. *)
Create HintDb wp discriminated.
#[export] Hint Resolve wp_ret wp_bind wp_raise wp_gets wp_modify wp_suppress
  wp_try_except wp_zoom : wp.
Ltac wp_step :=
  first [ apply wp_bind | apply wp_ret | apply wp_raise | apply wp_gets
        | apply wp_modify | apply wp_suppress | apply wp_try_except | apply wp_zoom ].

(** ** Options, as the sources use them *)

(** Python's [a or b] on two optional strings: an empty string is falsy. *)
Definition str_or (a b : option string) : option string :=
  match a with
  | Some s => if decide (s = "") then b else Some s
  | None => b
  end.

Lemma str_or_nonempty a b s : a = Some s → s ≠ "" → str_or a b = Some s.
Proof. intros -> ?. simpl. by rewrite decide_False. Qed.

(** Case analysis on everything a hypothesis or the goal matches on. *)
Ltac case_all := repeat (case_match; simplify_eq/=; try done).

(** The first [Some] of [f] along a list: a [for] loop that returns early. *)
Fixpoint first_some {A B} (f : A → option B) (l : list A) : option B :=
  match l with
  | [] => None
  | x :: l' => match f x with Some b => Some b | None => first_some f l' end
  end.

Lemma first_some_None {A B} (f : A → option B) l :
  first_some f l = None ↔ ∀ x, x ∈ l → f x = None.
Proof.
  induction l as [|x l IH]; simpl; [split; [by intros _ ? ?%elem_of_nil|done]|].
  destruct (f x) eqn:Hx.
  - split; [done|]. intros H. rewrite H in Hx; [done|by left].
  - rewrite IH. split; [intros H y [->|Hy]%elem_of_cons; auto|]. intros H y Hy. apply H. by right.
Qed.

(** [o'] follows [o] at the result [b]: it is [Some b] where [o] is, and
    [None] where [o] is.  The relation passes through a search. *)
Definition follows {B} (b : B) (o o' : option B) : Prop :=
  (o = None → o' = None) ∧ (o = Some b → o' = Some b).

Lemma follows_or_else {B} (b : B) (o o' p p' : option B) :
  follows b o o' → follows b p p' →
  follows b (match o with Some x => Some x | None => p end)
            (match o' with Some x => Some x | None => p' end).
Proof.
  intros [HN HS] [PN PS]. destruct o as [x|]; split; intros H; try done.
  - simplify_eq. by rewrite HS.
  - rewrite HN by done. auto.
  - rewrite HN by done. auto.
Qed.

Lemma first_some_follows {A B} (b : B) (f g : A → option B) l :
  (∀ x, follows b (f x) (g x)) → follows b (first_some f l) (first_some g l).
Proof.
  intros Hfg. induction l as [|x l IH]; simpl; [done|]. by apply follows_or_else.
Qed.

(** [with suppress(Exception): x = m] with [x] preset to [a]. *)
Definition suppress_or {S A} (a : A) (m : M S A) : M S A :=
  try_except m is_Exception (λ _, mret a).

(** [assert x is not None] followed by uses of [x]. *)
Definition assert_some {S A} (o : option A) : M S A :=
  match o with Some a => mret a | None => raise (Exn AssertionError "") end.

(** [asyncio.wait_for(m, timeout)]: the deadline cancels [m], and that
    cancellation surfaces as [TimeoutError]. *)
Definition wait_for {S A} (has_timeout : bool) (m : M S A) : M S A :=
  if has_timeout then
    try_except m (λ e, bool_decide (exn_cls e = CancelledByDeadline))
      (λ _, raise (Exn TimeoutError ""))
  else m.

(** ** Insertion-ordered dictionaries

    A Python [dict] whose order is observed: assignment keeps the position of
    a key that is present and appends a new one. *)
Abbreviation odict V := (list (string * V)).

Section odict.
Context {V : Type}.
Implicit Types d : odict V.

Fixpoint od_get (k : string) d : option V :=
  match d with
  | [] => None
  | (k', v) :: d' => if decide (k = k') then Some v else od_get k d'
  end.

Fixpoint od_set (k : string) (v : V) d : odict V :=
  match d with
  | [] => [(k, v)]
  | (k', v') :: d' => if decide (k = k') then (k, v) :: d' else (k', v') :: od_set k v d'
  end.

Definition od_del (k : string) d : odict V := filter (λ kv, fst kv ≠ k) d.

Lemma od_get_set k k' v d :
  od_get k' (od_set k v d) = if decide (k' = k) then Some v else od_get k' d.
Proof.
  induction d as [|[k1 v1] d IH]; simpl; [done|].
  repeat (case_decide; simplify_eq/=; try done).
Qed.

Lemma od_get_del k k' d :
  od_get k' (od_del k d) = if decide (k' = k) then None else od_get k' d.
Proof.
  unfold od_del. induction d as [|[k1 v1] d IH]; simpl.
  { by case_decide. }
  rewrite filter_cons. simpl. repeat (case_decide; simplify_eq/=; try done).
Qed.

Lemma od_get_None k d : od_get k d = None ↔ k ∉ map fst d.
Proof.
  induction d as [|[k1 v1] d IH]; simpl; [set_solver|].
  rewrite not_elem_of_cons. case_decide; [naive_solver|]. rewrite IH. naive_solver.
Qed.

Lemma od_get_elem k v d : od_get k d = Some v → (k, v) ∈ d.
Proof.
  induction d as [|[k1 v1] d IH]; simpl; [done|]. case_decide; subst; [intros [= <-]; by left|].
  intros Hk. right. auto.
Qed.

Lemma od_get_elem_iff k v d : NoDup (map fst d) → od_get k d = Some v ↔ (k, v) ∈ d.
Proof.
  split; [apply od_get_elem|]. revert H. induction d as [|[k' v'] d IH]; simpl.
  { by intros _ ?%elem_of_nil. }
  intros [Hk Hnd]%NoDup_cons [[= -> ->]|Hin]%elem_of_cons; [by rewrite decide_True|].
  rewrite decide_False; [auto|]. intros ->. apply Hk, list_elem_of_fmap. by exists (k', v).
Qed.

Lemma od_set_keys k v d :
  map fst (od_set k v d) = if decide (k ∈ map fst d) then map fst d else map fst d ++ [k].
Proof.
  induction d as [|[k1 v1] d IH]; simpl; [done|].
  destruct (decide (k = k1)) as [->|Hk]; simpl.
  - by rewrite decide_True by left.
  - rewrite IH. destruct (decide (k ∈ map fst d)) as [Hd|Hd].
    + by rewrite decide_True by (by right).
    + rewrite decide_False; [done|]. by intros [?|?]%elem_of_cons.
Qed.

Lemma od_set_elem k v d kv : kv ∈ od_set k v d → kv = (k, v) ∨ kv ∈ d.
Proof.
  induction d as [|[k1 v1] d IH]; simpl; [set_solver|]. case_decide; set_solver.
Qed.

Lemma od_set_fresh k v d : od_get k d = None → od_set k v d = d ++ [(k, v)].
Proof.
  induction d as [|[k1 v1] d IH]; simpl; [done|]. case_decide; [done|]. intros Hg.
  by rewrite IH.
Qed.

Lemma od_del_keys k d : map fst (od_del k d) = filter (λ k', k' ≠ k) (map fst d).
Proof.
  unfold od_del. induction d as [|[k1 v1] d IH]; simpl; [done|].
  rewrite !filter_cons. simpl. case_decide; simpl; by rewrite IH.
Qed.
End odict.

(** The same dictionary with its values mapped. *)
Definition od_map {V V'} (f : V → V') (d : odict V) : odict V' :=
  map (λ kv, (fst kv, f (snd kv))) d.

Section od_map.
Context {V V' : Type} (f : V → V').
Implicit Types d : odict V.

Lemma od_get_map k d : od_get k (od_map f d) = f <$> od_get k d.
Proof. induction d as [|[k1 v1] d IH]; simpl; [done|]. by case_decide. Qed.

Lemma od_set_map k v d : od_map f (od_set k v d) = od_set k (f v) (od_map f d).
Proof.
  induction d as [|[k1 v1] d IH]; simpl; [done|].
  destruct (decide (k = k1)); simpl; [done|]. by rewrite IH.
Qed.

Lemma od_del_map k d : od_map f (od_del k d) = od_del k (od_map f d).
Proof.
  unfold od_del. induction d as [|[k1 v1] d IH]; simpl; [done|]. rewrite !filter_cons. simpl.
  destruct (decide (k1 ≠ k)); simpl; by rewrite IH.
Qed.

Lemma od_map_keys d : map fst (od_map f d) = map fst d.
Proof. unfold od_map. by rewrite map_map. Qed.

Lemma length_od_map d : length (od_map f d) = length d.
Proof. unfold od_map. by rewrite length_map. Qed.
End od_map.

(** ** Sorting by a key *)
Section merge_sort_map.
Context {A B : Type} (f : A → B) (R : relation A) (R' : relation B).
Context `{∀ x y, Decision (R x y), ∀ x y, Decision (R' x y)}.
Hypothesis (R_f : ∀ x y, R x y ↔ R' (f x) (f y)).

Lemma list_merge_map l1 l2 : list_merge R' (map f l1) (map f l2) = map f (list_merge R l1 l2).
Proof.
  revert l2. induction l1 as [|x1 l1 IH1]; intros l2; [by destruct l2|].
  induction l2 as [|x2 l2 IH2]; [done|]. simpl map. rewrite !list_merge_cons.
  destruct (decide (R x1 x2)) as [Hr|Hr].
  - rewrite decide_True by (by apply R_f). simpl. f_equal. apply (IH1 (x2 :: l2)).
  - rewrite decide_False by (by rewrite <- R_f). simpl. f_equal. exact IH2.
Qed.

Lemma merge_list_to_stack_map st l :
  merge_list_to_stack R' (map (option_map (map f)) st) (map f l) =
  map (option_map (map f)) (merge_list_to_stack R st l).
Proof.
  revert l. induction st as [|[l'|] st IH]; intros l; simpl; [done| |done].
  by rewrite list_merge_map, IH.
Qed.

Lemma merge_stack_map st :
  merge_stack R' (map (option_map (map f)) st) = map f (merge_stack R st).
Proof.
  induction st as [|[l|] st IH]; simpl; [done| |done]. by rewrite IH, list_merge_map.
Qed.

Lemma merge_sort_map l : merge_sort R' (map f l) = map f (merge_sort R l).
Proof.
  unfold merge_sort. change (@nil (option (list B))) with (map (option_map (map f)) []) at 1.
  generalize (@nil (option (list A))). induction l as [|x l IH]; intros st; simpl.
  - apply merge_stack_map.
  - rewrite <- IH. f_equal. apply (merge_list_to_stack_map st [x]).
Qed.
End merge_sort_map.

(** ** Suffixes *)
Lemma Forall_suffix {A} (P : A → Prop) l k : l `suffix_of` k → Forall P k → Forall P l.
Proof. intros [j ->] [_ H]%Forall_app. done. Qed.

Lemma tail_suffix {A} (l : list A) : tail l `suffix_of` l.
Proof. destruct l; [done|]. by apply suffix_cons_r. Qed.
