(* ===== verification/PyStr.v ===== *)
(** * Python strings

    A [str] is the list of its characters, restricted to code points below
    256: the [str] methods the sources call, with the Latin-1 part of
    Unicode's whitespace and case tables. *)
From S2P Require Import Prelude.
From Stdlib Require Import Ascii.

(** ** Characters and [str] methods *)

(** [str.isspace] on one character. *)
Definition py_isspace (c : ascii) : bool :=
  let n := N_of_ascii c in
  (9 <=? n)%N && (n <=? 13)%N || (28 <=? n)%N && (n <=? 32)%N || (n =? 133)%N || (n =? 160)%N.

(** [str.lower] on one character: A-Z and the accented capitals of Latin-1. *)
Definition py_lower_char (c : ascii) : ascii :=
  let n := N_of_ascii c in
  if (65 <=? n)%N && (n <=? 90)%N || (192 <=? n)%N && (n <=? 222)%N && negb (n =? 215)%N
  then ascii_of_N (n + 32) else c.

Fixpoint py_lower (s : string) : string :=
  match s with
  | "" => ""
  | String c s' => String (py_lower_char c) (py_lower s')
  end.

Fixpoint py_lstrip (s : string) : string :=
  match s with
  | "" => ""
  | String c s' => if py_isspace c then py_lstrip s' else s
  end.

Fixpoint py_rstrip (s : string) : string :=
  match s with
  | "" => ""
  | String c s' =>
      match py_rstrip s' with
      | "" => if py_isspace c then "" else String c ""
      | r => String c r
      end
  end.

Definition py_strip (s : string) : string := py_rstrip (py_lstrip s).

Definition py_startswith (s p : string) : bool := String.prefix p s.

Fixpoint string_drop (n : nat) (s : string) : string :=
  match n, s with
  | O, _ => s
  | S n', String _ s' => string_drop n' s'
  | S _, "" => ""
  end.

Fixpoint string_take (n : nat) (s : string) : string :=
  match n, s with
  | O, _ => ""
  | S n', String c s' => String c (string_take n' s')
  | S _, "" => ""
  end.

(** [s.removeprefix(p)]. *)
Definition py_removeprefix (s p : string) : string :=
  if py_startswith s p then string_drop (String.length p) s else s.

(** [c in s] and [s.split(c)[0]] for a one-character separator. *)
Fixpoint py_contains_char (c : ascii) (s : string) : bool :=
  match s with
  | "" => false
  | String d s' => if decide (d = c) then true else py_contains_char c s'
  end.

Fixpoint py_before_char (c : ascii) (s : string) : string :=
  match s with
  | "" => ""
  | String d s' => if decide (d = c) then "" else String d (py_before_char c s')
  end.

(** [needle in s]. *)
Fixpoint py_contains (needle s : string) : bool :=
  py_startswith s needle ||
  match s with "" => false | String _ s' => py_contains needle s' end.

(** ** Facts about [strip] *)

(** A string with no whitespace at either end. *)
Definition stripped (s : string) : Prop := py_strip s = s.

Lemma py_lstrip_idemp s : py_lstrip (py_lstrip s) = py_lstrip s.
Proof.
  induction s as [|c s IH]; simpl; [done|].
  destruct (py_isspace c) eqn:Hc; [done|]. simpl. by rewrite Hc.
Qed.

Lemma py_rstrip_idemp s : py_rstrip (py_rstrip s) = py_rstrip s.
Proof.
  induction s as [|c s IH]; simpl; [done|].
  destruct (py_rstrip s) as [|d r] eqn:Hr.
  - destruct (py_isspace c) eqn:Hc; [done|]. simpl. by rewrite Hc.
  - simpl in *. by rewrite IH.
Qed.

Lemma py_lstrip_rstrip s : py_lstrip s = s → py_lstrip (py_rstrip s) = py_rstrip s.
Proof.
  destruct s as [|c s]; [done|]. simpl. destruct (py_isspace c) eqn:Hc.
  - intros H. exfalso. assert (String.length (py_lstrip s) ≤ String.length s)%nat as Hl.
    { clear. induction s as [|d s IH]; simpl; [lia|]. destruct (py_isspace d); simpl; lia. }
    rewrite H in Hl. simpl in Hl. lia.
  - intros _. destruct (py_rstrip s); simpl; by rewrite Hc.
Qed.

Lemma py_strip_stripped s : stripped (py_strip s).
Proof.
  unfold stripped, py_strip.
  rewrite py_lstrip_rstrip; [apply py_rstrip_idemp | apply py_lstrip_idemp].
Qed.

(** ** [strip] and [lower] together *)
Lemma py_isspace_lower c : py_isspace (py_lower_char c) = py_isspace c.
Proof. by destruct c as [[] [] [] [] [] [] [] []]. Qed.

Lemma py_lower_char_idemp c : py_lower_char (py_lower_char c) = py_lower_char c.
Proof. by destruct c as [[] [] [] [] [] [] [] []]. Qed.

Lemma py_lower_idemp s : py_lower (py_lower s) = py_lower s.
Proof. induction s as [|c s IH]; simpl; [done|]. by rewrite py_lower_char_idemp, IH. Qed.

Lemma py_lower_lstrip s : py_lstrip (py_lower s) = py_lower (py_lstrip s).
Proof.
  induction s as [|c s IH]; simpl; [done|]. rewrite py_isspace_lower. by destruct (py_isspace c).
Qed.

Lemma py_lower_rstrip s : py_rstrip (py_lower s) = py_lower (py_rstrip s).
Proof.
  induction s as [|c s IH]; simpl; [done|]. rewrite IH, py_isspace_lower.
  destruct (py_rstrip s); simpl; [by destruct (py_isspace c)|done].
Qed.

Lemma py_lower_strip s : py_strip (py_lower s) = py_lower (py_strip s).
Proof. unfold py_strip. by rewrite py_lower_lstrip, py_lower_rstrip. Qed.

(** ** Appending *)
Lemma app_inj (p s s' : string) : p +:+ s = p +:+ s' → s = s'.
Proof. induction p as [|c p IH]; simpl; [done|]. intros [= ?]. auto. Qed.

Lemma length_str_app (s s' : string) :
  String.length (s +:+ s') = (String.length s + String.length s')%nat.
Proof. induction s as [|c s IH]; simpl; [done|]. by rewrite IH. Qed.

Lemma str_app_assoc (a b c : string) : (a +:+ b) +:+ c = a +:+ (b +:+ c).
Proof. induction a as [|x a IH]; [done|]. by apply (f_equal (String x)). Qed.

(** ** The text of a number *)
Lemma pretty_N_go_ind (P : N → string → Prop) :
  (∀ s, P 0%N s) →
  (∀ x s, (0 < x)%N → P (x / 10)%N (String (pretty_N_char (x mod 10)) s) → P x s) →
  ∀ x s, P x s.
Proof.
  intros H0 HS x. induction (N.lt_wf_0 x) as [x _ IH]; intros s.
  destruct (decide (x = 0)%N) as [->|Hx]; [apply H0|].
  apply HS; [lia|]. apply IH. apply N.div_lt; lia.
Qed.

Lemma pretty_nonneg n : (0 ≤ n)%Z → pretty n = if decide (n = 0)%Z then "0" else pretty_N_go (Z.to_N n) "".
Proof. intros Hn. destruct n; [done| |lia]. done. Qed.
