(* ===== verification/PyFloat.v ===== *)
(** * Binary64 floats

    Python's [float] as the standard library's [spec_float] at precision 53
    and maximal exponent 1024: conversion from [int], [float(str)] with
    correct rounding, [math.isfinite] and the shortest [repr]. *)
From S2P Require Import Prelude PyStr.
From Stdlib Require Import Ascii.
From Stdlib Require Export SpecFloat.

Local Open Scope Z_scope.

Definition prec64 : Z := 53.
Definition emax64 : Z := 1024.

(** [float(z)] before its overflow check: round to nearest even. *)
Definition float_of_Z (z : Z) : spec_float := binary_normalize prec64 emax64 z 0 false.

(** The double nearest to [(-1)^neg * m * 10^e]. *)
Definition float_of_decimal (neg : bool) (m e : Z) : spec_float :=
  if m <=? 0 then S754_zero neg
  else if 0 <=? e then
    binary_normalize prec64 emax64 ((if neg then Z.opp else id) (m * 10 ^ e)) 0 neg
  else
    let '(q, e', l) := SFdiv_core_binary prec64 emax64 m 0 (10 ^ (- e)) 0 in
    binary_round_aux prec64 emax64 neg q e' l.

(** [math.isfinite]. *)
Definition float_isfinite (f : spec_float) : bool :=
  match f with S754_zero _ | S754_finite _ _ _ => true | _ => false end.

Definition float_ltb (a b : spec_float) : bool := SFltb a b.

(** ** [float(str)] *)
Definition digit_of (c : ascii) : option Z :=
  let n := Z.of_N (N_of_ascii c) in
  if (48 <=? n) && (n <=? 57) then Some (n - 48) else None.

(** Read digits, with single underscores between two digits: the number read,
    how many digits it has and what follows; [None] on a misplaced underscore. *)
Fixpoint scan_digits (s : string) (acc : Z) (n : nat) (after_digit : bool)
    : option (Z * nat * string) :=
  match s with
  | "" => Some (acc, n, "")
  | String c s' =>
      match digit_of c with
      | Some d => scan_digits s' (acc * 10 + d) (S n) true
      | None =>
          if decide (c = "_"%char) then
            match after_digit, s' with
            | true, String c' _ =>
                match digit_of c' with Some _ => scan_digits s' acc n false | None => None end
            | _, _ => None
            end
          else Some (acc, n, s)
      end
  end.

Definition scan_sign (s : string) : bool * string :=
  match s with
  | String "-" s' => (true, s')
  | String "+" s' => (false, s')
  | _ => (false, s)
  end.

(** [float(raw)]; [None] where Python raises [ValueError]. *)
Definition py_float_of_str (raw : string) : option spec_float :=
  let '(neg, s) := scan_sign (py_lower (py_strip raw)) in
  if decide (s = "inf" ∨ s = "infinity") then Some (S754_infinity neg)
  else if decide (s = "nan") then Some S754_nan
  else
    '(m1, n1, r1) ← scan_digits s 0 0 false;
    '(m, n2, r2) ← match r1 with
                   | String "." r => scan_digits r m1 0 false
                   | _ => Some (m1, 0%nat, r1)
                   end;
    if (n1 + n2 =? 0)%nat then None
    else
      e ← match r2 with
          | "" => Some 0
          | String "e" r =>
              let '(eneg, r') := scan_sign r in
              '(x, n, rest) ← scan_digits r' 0 0 false;
              if (n =? 0)%nat then None
              else if decide (rest = "") then Some (if eneg : bool then - x else x) else None
          | _ => None
          end;
      Some (float_of_decimal neg m (e - Z.of_nat n2)).

(** ** [repr(float)]: the shortest decimal that reads back as the same double *)
Fixpoint decimal_point (fuel : nat) (num den : Z) (k : Z) : Z :=
  match fuel with
  | O => k
  | S fuel' =>
      if den <=? num then decimal_point fuel' num (den * 10) (k + 1)
      else if num * 10 <? den then decimal_point fuel' (num * 10) den (k - 1)
      else k
  end.

(** Candidates with [n] digits around num/den, closest first. *)
Definition candidates (n : nat) (num den k : Z) : list Z :=
  let sh := Z.of_nat n - k in
  let nu := if 0 <=? sh then num * 10 ^ sh else num in
  let de := if 0 <=? sh then den else den * 10 ^ (- sh) in
  let q := nu / de in
  if nu * 2 <=? (2 * q + 1) * de then [q; q + 1] else [q + 1; q].

Fixpoint shortest (fuel n : nat) (num den k : Z) (f : spec_float) : Z * nat :=
  let back q := SFeqb (float_of_decimal false q (k - Z.of_nat n)) f in
  match filter (λ q, back q = true) (candidates n num den k), fuel with
  | q :: _, _ => (q, n)
  | [], S fuel' => shortest fuel' (S n) num den k f
  | [], O => (0, n)
  end.

Fixpoint strip_zeros (fuel : nat) (q : Z) : Z :=
  match fuel with
  | O => q
  | S f => if (q mod 10 =? 0) && negb (q =? 0) then strip_zeros f (q / 10) else q
  end.

Fixpoint zeros (n : nat) : string := match n with O => "" | S n' => String "0" (zeros n') end.

Definition float_repr (f : spec_float) : string :=
  match f with
  | S754_zero s => (if s then "-" else "") +:+ "0.0"
  | S754_infinity s => (if s then "-" else "") +:+ "inf"
  | S754_nan => "nan"
  | S754_finite s m e =>
      let num := Z.pos m * 2 ^ Z.max e 0 in
      let den := 2 ^ Z.max (- e) 0 in
      let k := decimal_point 800 num den 0 in
      let '(q, n) := shortest 17 1 num den k (S754_finite false m e) in
      let k := if q =? 10 ^ Z.of_nat n then k + 1 else k in
      let ds := pretty (strip_zeros 20 q) in
      let len := Z.of_nat (String.length ds) in
      (if s then "-" else "") +:+
      (if (-4 <? k) && (k <=? 16) then
         if k <=? 0 then "0." +:+ zeros (Z.to_nat (- k)) +:+ ds
         else if len <=? k then ds +:+ zeros (Z.to_nat (k - len)) +:+ ".0"
         else string_take (Z.to_nat k) ds +:+ "." +:+ string_drop (Z.to_nat k) ds
       else
         let x := k - 1 in
         string_take 1 ds +:+
         (if len =? 1 then "" else "." +:+ string_drop 1 ds) +:+
         "e" +:+ (if x <? 0 then "-" else "+") +:+
         (if Z.abs x <? 10 then "0" else "") +:+ pretty (Z.abs x))
  end.

Example float_repr_tenth :
  option_map float_repr (py_float_of_str " 0.1 ") = Some "0.1".
Proof. vm_compute. reflexivity. Qed.

Example float_repr_big :
  option_map float_repr (py_float_of_str "-1_23.4560e25") = Some "-1.23456e+27".
Proof. vm_compute. reflexivity. Qed.

Example float_of_third :
  option_map float_repr (py_float_of_str "0.30000000000000004") = Some "0.30000000000000004".
Proof. vm_compute. reflexivity. Qed.
