(* ===== verification/Python.v ===== *)
(** * Python values and JSON

    The values of a JSON-like payload ([dict[str, Any]]) and what the sources
    do with them: [dict.get], truth testing, [isinstance], [str]/[repr] and
    [json.dumps]. *)
From S2P Require Export Prelude PyStr PyFloat.
From Stdlib Require Import Ascii.

(** ** Payload values *)
Inductive pyval :=
  | PNone
  | PBool (b : bool)
  | PInt (z : Z)
  | PFloat (f : spec_float)
  | PStr (s : string)
  | PList (l : list pyval)
  | PDict (d : list (string * pyval)).

Abbreviation pydict := (list (string * pyval)).

(** [d.get(k)]: [PNone] when the key is absent. *)
Fixpoint py_get (k : string) (d : pydict) : pyval :=
  match d with
  | [] => PNone
  | (k', v) :: d' => if decide (k = k') then v else py_get k d'
  end.

(** [k in d] and [d.get(k, default)]. *)
Fixpoint py_in (k : string) (d : pydict) : bool :=
  match d with
  | [] => false
  | (k', _) :: d' => if decide (k = k') then true else py_in k d'
  end.

Definition py_get_or (k : string) (d : pydict) (default : pyval) : pyval :=
  if py_in k d then py_get k d else default.

(** [d.setdefault(k, v)], as the resulting dict. *)
Definition py_setdefault (k : string) (v : pyval) (d : pydict) : pydict :=
  if py_in k d then d else d ++ [(k, v)].

(** Truth value testing. *)
Definition py_truthy (v : pyval) : bool :=
  match v with
  | PNone => false
  | PBool b => b
  | PInt z => negb (z =? 0)%Z
  | PFloat (SpecFloat.S754_zero _) => false
  | PFloat _ => true
  | PStr s => negb (bool_decide (s = ""))
  | PList l => match l with [] => false | _ => true end
  | PDict d => match d with [] => false | _ => true end
  end.

Definition is_str (v : pyval) : option string := match v with PStr s => Some s | _ => None end.
Definition is_dict (v : pyval) : option pydict := match v with PDict d => Some d | _ => None end.
Definition is_bool (v : pyval) : option bool := match v with PBool b => Some b | _ => None end.
(** [isinstance(v, int)]: [bool] is a subclass of [int]. *)
Definition is_int (v : pyval) : option Z :=
  match v with PInt z => Some z | PBool b => Some (if b then 1 else 0)%Z | _ => None end.

Definition opt_str (o : option string) : pyval :=
  match o with Some s => PStr s | None => PNone end.
Definition str_list (l : list string) : pyval := PList (map PStr l).

(** ** [str] and [repr] *)
Fixpoint string_join (sep : string) (l : list string) : string :=
  match l with
  | [] => ""
  | [x] => x
  | x :: l' => x +:+ sep +:+ string_join sep l'
  end.

Definition hex_digit (n : N) : ascii :=
  ascii_of_N (if (n <? 10)%N then 48 + n else 87 + n)%N.
Definition hex2 (n : N) : string :=
  String (hex_digit (n / 16)) (String (hex_digit (n mod 16)) "").

Definition DQ : ascii := "034"%char.
Definition SQ : ascii := "039"%char.
Definition BS : ascii := "092"%char.

(** [repr] of one character inside quotes [q]. *)
Definition repr_char (q c : ascii) : string :=
  let n := N_of_ascii c in
  if decide (c = q ∨ c = BS) then String BS (String c "")
  else if decide (c = "009"%char) then String BS "t"
  else if decide (c = "010"%char) then String BS "n"
  else if decide (c = "013"%char) then String BS "r"
  else if (n <? 32)%N || (127 <=? n)%N && (n <=? 160)%N || (n =? 173)%N
       then String BS ("x" +:+ hex2 n)
  else String c "".

Fixpoint string_flat_map (f : ascii → string) (s : string) : string :=
  match s with "" => "" | String c s' => f c +:+ string_flat_map f s' end.

Definition str_repr (s : string) : string :=
  let q := if py_contains_char SQ s && negb (py_contains_char DQ s) then DQ else SQ in
  String q (string_flat_map (repr_char q) s +:+ String q "").

Fixpoint py_repr (v : pyval) : string :=
  match v with
  | PNone => "None"
  | PBool b => if b then "True" else "False"
  | PInt z => pretty z
  | PFloat f => float_repr f
  | PStr s => str_repr s
  | PList l => "[" +:+ string_join ", " (map py_repr l) +:+ "]"
  | PDict d =>
      "{" +:+ string_join ", " (map (λ kv, str_repr (fst kv) +:+ ": " +:+ py_repr (snd kv)) d)
      +:+ "}"
  end.

Definition py_str (v : pyval) : string :=
  match v with PStr s => s | _ => py_repr v end.

(** ** [json.dumps(v, sort_keys=True, separators=(",", ":"), ensure_ascii=ea)] *)
Definition json_char (ea : bool) (c : ascii) : string :=
  let n := N_of_ascii c in
  if decide (c = DQ ∨ c = BS) then String BS (String c "")
  else if decide (c = "008"%char) then String BS "b"
  else if decide (c = "009"%char) then String BS "t"
  else if decide (c = "010"%char) then String BS "n"
  else if decide (c = "012"%char) then String BS "f"
  else if decide (c = "013"%char) then String BS "r"
  else if (n <? 32)%N || ea && (127 <=? n)%N then String BS ("u00" +:+ hex2 n)
  else String c "".

Definition json_str (ea : bool) (s : string) : string :=
  String DQ (string_flat_map (json_char ea) s +:+ String DQ "").

Definition json_float (f : spec_float) : string :=
  match f with
  | S754_nan => "NaN"
  | S754_infinity s => if s then "-Infinity" else "Infinity"
  | _ => float_repr f
  end.

Definition key_le (a b : string * string) : Prop := String.le (fst a) (fst b).
#[export] Instance key_le_dec : RelDecision key_le.
Proof. intros a b. unfold key_le. apply _. Defined.

Fixpoint json_dumps (ea : bool) (v : pyval) : string :=
  match v with
  | PNone => "null"
  | PBool b => if b then "true" else "false"
  | PInt z => pretty z
  | PFloat f => json_float f
  | PStr s => json_str ea s
  | PList l => "[" +:+ string_join "," (map (json_dumps ea) l) +:+ "]"
  | PDict d =>
      let items := map (λ kv, (fst kv, json_str ea (fst kv) +:+ ":" +:+ json_dumps ea (snd kv))) d in
      "{" +:+ string_join "," (map snd (merge_sort key_le items)) +:+ "}"
  end.

(** [s.encode("utf-8")], as bytes. *)
Fixpoint utf8_encode (s : string) : list Z :=
  match s with
  | "" => []
  | String c s' =>
      let n := Z.of_N (N_of_ascii c) in
      if (n <? 128)%Z then n :: utf8_encode s'
      else (192 + n / 64)%Z :: (128 + n mod 64)%Z :: utf8_encode s'
  end.
