(* ===== verification/PyJson.v ===== *)
(** * [json.loads]

    The decoder of the standard library on texts of Latin-1 characters: the
    scanner with its error cases.  The messages of [JSONDecodeError] and the
    recursion limit are left out; an escape outside Latin-1 leaves the model. *)
From S2P Require Export Python.
From Stdlib Require Import Ascii.

Definition JSONDecodeError : exn := Exn (OtherError "JSONDecodeError") "".
Definition beyond_latin1 : exn := Exn Unmodelled "a character beyond Latin-1".
Definition out_of_fuel : exn := Exn Unmodelled "out of fuel".
Definition int_too_long : exn :=
  Exn ValueError "Exceeds the limit (4300 digits) for integer string conversion".
Definition json_int_digits : nat := Z.to_nat 4300.

(** ** Tokens *)
Definition json_ws (c : ascii) : bool :=
  bool_decide (c = " "%char ∨ c = "009"%char ∨ c = "010"%char ∨ c = "013"%char).

Fixpoint skip_ws (s : string) : string :=
  match s with
  | String c s' => if json_ws c then skip_ws s' else s
  | "" => ""
  end.

Definition hex_value (c : ascii) : option Z :=
  let n := Z.of_N (N_of_ascii c) in
  if ((48 <=? n) && (n <=? 57))%Z then Some (n - 48)%Z
  else if ((97 <=? n) && (n <=? 102))%Z then Some (n - 87)%Z
  else if ((65 <=? n) && (n <=? 70))%Z then Some (n - 55)%Z
  else None.

Definition hex4 (a b c d : ascii) : option Z :=
  x ← hex_value a; y ← hex_value b; z ← hex_value c; w ← hex_value d;
  Some (((x * 16 + y) * 16 + z) * 16 + w)%Z.

Definition simple_escape (c : ascii) : option ascii :=
  if decide (c = DQ ∨ c = BS ∨ c = "/"%char) then Some c
  else if decide (c = "b"%char) then Some "008"%char
  else if decide (c = "f"%char) then Some "012"%char
  else if decide (c = "n"%char) then Some "010"%char
  else if decide (c = "r"%char) then Some "013"%char
  else if decide (c = "t"%char) then Some "009"%char
  else None.

Definition cons_char (c : ascii) (r : outcome (string * string)) : outcome (string * string) :=
  '(text, rest) ← r; Ok (String c text, rest).

(** After the opening quote: the text and what follows the closing one. *)
Fixpoint scan_string (s : string) : outcome (string * string) :=
  match s with
  | "" => Raise JSONDecodeError
  | String c s' =>
      if decide (c = DQ) then Ok ("", s')
      else if decide (c = BS) then
        match s' with
        | "" => Raise JSONDecodeError
        | String e s'' =>
            if decide (e = "u"%char) then
              match s'' with
              | String x (String y (String z (String w rest))) =>
                  match hex4 x y z w with
                  | Some n =>
                      if (n <? 256)%Z then cons_char (ascii_of_N (Z.to_N n)) (scan_string rest)
                      else Raise beyond_latin1
                  | None => Raise JSONDecodeError
                  end
              | _ => Raise JSONDecodeError
              end
            else
              match simple_escape e with
              | Some c' => cons_char c' (scan_string s'')
              | None => Raise JSONDecodeError
              end
        end
      else if (N_of_ascii c <? 32)%N then Raise JSONDecodeError
      else cons_char c (scan_string s')
  end.

(** The digits at the front. *)
Fixpoint take_digits (s : string) : string * string :=
  match s with
  | String c s' =>
      match digit_of c with
      | Some _ => let '(ds, rest) := take_digits s' in (String c ds, rest)
      | None => ("", s)
      end
  | "" => ("", "")
  end.

Fixpoint digits_number (s : string) (acc : Z) : Z :=
  match s with
  | "" => acc
  | String c s' => digits_number s' (acc * 10 + default 0 (digit_of c))%Z
  end.

(** A part that is there only with at least one digit. *)
Definition optional_digits (before : string) (s rest : string) : string * string :=
  match take_digits rest with
  | ("", _) => ("", s)
  | (ds, rest') => (before +:+ ds, rest')
  end.

Definition scan_frac (s : string) : string * string :=
  match s with
  | String c rest => if decide (c = "."%char) then optional_digits "." s rest else ("", s)
  | "" => ("", s)
  end.

Definition scan_exp (s : string) : string * string :=
  match s with
  | String c rest =>
      if decide (c = "e"%char ∨ c = "E"%char) then
        match rest with
        | String "-" rest' => optional_digits "e-" s rest'
        | String "+" rest' => optional_digits "e+" s rest'
        | _ => optional_digits "e" s rest
        end
      else ("", s)
  | _ => ("", s)
  end.

(** A number does not go on after a leading zero. *)
Definition scan_int (s : string) : string * string :=
  match s with
  | String c s' => if decide (c = "0"%char) then ("0", s') else take_digits s
  | "" => ("", "")
  end.

(** A number after its sign. *)
Definition scan_number (neg : bool) (s : string) : outcome (pyval * string) :=
  let '(int_part, rest) := scan_int s in
  if decide (int_part = "") then Raise JSONDecodeError
  else
    let '(frac, rest1) := scan_frac rest in
    let '(exp, rest2) := scan_exp rest1 in
    if decide (frac = "" ∧ exp = "") then
      if json_int_digits <? String.length int_part then Raise int_too_long
      else
        let z := digits_number int_part 0 in
        Ok (PInt (if neg then - z else z)%Z, rest)
    else
      match py_float_of_str ((if neg then "-" else "") +:+ int_part +:+ frac +:+ exp) with
      | Some f => Ok (PFloat f, rest2)
      | None => Raise JSONDecodeError
      end.

Definition literals : list (string * pyval) :=
  [("null", PNone); ("true", PBool true); ("false", PBool false); ("NaN", PFloat S754_nan);
   ("Infinity", PFloat (S754_infinity false)); ("-Infinity", PFloat (S754_infinity true))].

Definition scan_literal (s : string) : option (pyval * string) :=
  first_some (λ nv, if py_startswith s (fst nv)
                    then Some (snd nv, string_drop (String.length (fst nv)) s) else None) literals.

(** ** Values *)
Fixpoint scan_value (fuel : nat) (s : string) : outcome (pyval * string) :=
  match fuel with
  | O => Raise out_of_fuel
  | S fuel' =>
      match s with
      | "" => Raise JSONDecodeError
      | String c s' =>
          if decide (c = DQ) then '(text, rest) ← scan_string s'; Ok (PStr text, rest)
          else if decide (c = "["%char) then
            match skip_ws s' with
            | String "]" rest => Ok (PList [], rest)
            | s1 => scan_items fuel' s1 []
            end
          else if decide (c = "{"%char) then
            match skip_ws s' with
            | String "}" rest => Ok (PDict [], rest)
            | s1 => scan_members fuel' s1 []
            end
          else
            match scan_literal s with
            | Some vr => Ok vr
            | None => if decide (c = "-"%char) then scan_number true s' else scan_number false s
            end
      end
  end
with scan_items (fuel : nat) (s : string) (acc : list pyval) : outcome (pyval * string) :=
  match fuel with
  | O => Raise out_of_fuel
  | S fuel' =>
      '(v, s1) ← scan_value fuel' s;
      match skip_ws s1 with
      | String "," s2 => scan_items fuel' (skip_ws s2) (acc ++ [v])
      | String "]" s2 => Ok (PList (acc ++ [v]), s2)
      | _ => Raise JSONDecodeError
      end
  end
with scan_members (fuel : nat) (s : string) (acc : pydict) : outcome (pyval * string) :=
  match fuel with
  | O => Raise out_of_fuel
  | S fuel' =>
      match s with
      | String c s' =>
          if decide (c = DQ) then
            '(k, s1) ← scan_string s';
            match skip_ws s1 with
            | String ":" s2 =>
                '(v, s3) ← scan_value fuel' (skip_ws s2);
                match skip_ws s3 with
                | String "," s4 => scan_members fuel' (skip_ws s4) (od_set k v acc)
                | String "}" s4 => Ok (PDict (od_set k v acc), s4)
                | _ => Raise JSONDecodeError
                end
            | _ => Raise JSONDecodeError
            end
          else Raise JSONDecodeError
      | "" => Raise JSONDecodeError
      end
  end.

Definition json_loads (s : string) : outcome pyval :=
  let s0 := skip_ws s in
  '(v, rest) ← scan_value (2 * String.length s0 + 2) s0;
  if decide (skip_ws rest = "") then Ok v else Raise JSONDecodeError.

(** ** Examples *)
Definition dq (s : string) : string := String DQ (s +:+ String DQ "").

Example loads_values :
  json_loads (" {" +:+ dq "a" +:+ ": [1, -2.5e3, true ,null], " +:+ dq "b" +:+ ":{}, "
              +:+ dq "a" +:+ ": " +:+ dq "x\u0041\n" +:+ "} ")
  = Ok (PDict [("a", PStr ("xA" +:+ String "010" "")); ("b", PDict [])]).
Proof. vm_compute. reflexivity. Qed.

Example loads_number : json_loads "[1.50, 10, -0]" =
  Ok (PList [PFloat (float_of_decimal false 15 (-1)); PInt 10; PInt 0]).
Proof. vm_compute. reflexivity. Qed.

Example loads_errors :
  (λ s, json_loads s) <$> ["[1,]"; "01"; "{"; "nul"; ""; "1 2"; dq "\q"] =
  replicate 7 (Raise JSONDecodeError).
Proof. vm_compute. reflexivity. Qed.

(** ** The normal form of a value

    [json.loads(json.dumps(v, sort_keys=True))]: the keys of every dictionary in
    order. *)
Definition item_le (a b : string * pyval) : Prop := String.le (fst a) (fst b).
#[export] Instance item_le_dec : RelDecision item_le.
Proof. intros a b. unfold item_le. apply _. Defined.

Fixpoint sort_keys (v : pyval) : pyval :=
  match v with
  | PList l => PList (map sort_keys l)
  | PDict d => PDict (merge_sort item_le (map (λ kv, (fst kv, sort_keys (snd kv))) d))
  | _ => v
  end.

(** The scanner consumes text, and its fuel is enough. *)
Definition consumes {A} (n : nat) (r : outcome (A * string)) : Prop :=
  match r with
  | Ok (_, rest) => String.length rest < n
  | Raise e => e ≠ out_of_fuel
  end.

Lemma consumes_le {A} n m (r : outcome (A * string)) : n ≤ m → consumes n r → consumes m r.
Proof. intros Hle. destruct r as [[a rest]|e]; simpl; [lia|done]. Qed.

Lemma consumes_bind {A B} n m (r : outcome (A * string)) (f : A * string → outcome (B * string)) :
  consumes n r → (∀ a rest, String.length rest < n → consumes m (f (a, rest))) →
  consumes m (r ≫= f).
Proof. destruct r as [[a rest]|e]; simpl; auto. Qed.

Lemma length_skip_ws s : String.length (skip_ws s) ≤ String.length s.
Proof. induction s as [|c s IH]; simpl; [lia|]. destruct (json_ws c); simpl; lia. Qed.

Lemma consumes_cons_char n c r : consumes n r → consumes n (cons_char c r).
Proof. by destruct r as [[text rest]|e]. Qed.

Lemma scan_string_consumes s : consumes (String.length s) (scan_string s).
Proof.
  remember (String.length s) as n eqn:Hn. revert s Hn.
  induction (lt_wf n) as [n _ IH]. intros s ->.
  assert (∀ r, String.length r < String.length s → ∀ c,
    consumes (String.length s) (cons_char c (scan_string r))) as Hrec.
  { intros r Hr c. apply consumes_cons_char. eapply consumes_le; [|by apply IH]. lia. }
  destruct s as [|c s']; [done|]. cbn [scan_string]. case_decide; [simpl; lia|].
  case_decide.
  - destruct s' as [|e s'']; [done|]. case_decide.
    + destruct s'' as [|x [|y [|z [|w rest]]]]; try done.
      destruct (hex4 x y z w); [|done]. destruct (_ <? _)%Z; [|done]. apply Hrec. simpl. lia.
    + destruct (simple_escape e); [|done]. apply Hrec. simpl. lia.
  - destruct (_ <? _)%N; [done|]. apply Hrec. simpl. lia.
Qed.

Lemma take_digits_length s :
  String.length (take_digits s).1 + String.length (take_digits s).2 = String.length s.
Proof.
  induction s as [|c s IH]; [done|]. simpl. destruct (digit_of c); [|done].
  destruct (take_digits s) as [ds rest]. simpl in *. lia.
Qed.

Lemma optional_digits_length before s rest :
  String.length rest ≤ String.length s →
  String.length (optional_digits before s rest).2 ≤ String.length s.
Proof.
  intros Hr. unfold optional_digits. pose proof (take_digits_length rest) as Ht.
  destruct (take_digits rest) as [[|c ds] rest']; simpl in *; lia.
Qed.

Lemma scan_int_length s : (scan_int s).1 ≠ "" → String.length (scan_int s).2 < String.length s.
Proof.
  destruct s as [|c s]; [done|]. cbn [scan_int]. case_decide; [simpl; lia|].
  intros Hne. pose proof (take_digits_length (String c s)) as Ht.
  destruct (take_digits (String c s)) as [[|c' ds] rest]; simpl in *; [done|lia].
Qed.

Lemma scan_frac_length s : String.length (scan_frac s).2 ≤ String.length s.
Proof.
  unfold scan_frac. destruct s as [|c s]; [done|].
  case_decide; [|done]. apply optional_digits_length. simpl. lia.
Qed.

Lemma scan_exp_length s : String.length (scan_exp s).2 ≤ String.length s.
Proof.
  unfold scan_exp. destruct s as [|c s]; [done|]. case_decide; [|done].
  repeat case_match; subst; apply optional_digits_length; simpl; lia.
Qed.

Lemma scan_number_consumes neg s : consumes (String.length s) (scan_number neg s).
Proof.
  unfold scan_number. pose proof (scan_int_length s) as Hir.
  destruct (scan_int s) as [int_part rest]. simpl in Hir. case_decide as Hint; [done|].
  specialize (Hir Hint). pose proof (scan_frac_length rest) as Hf.
  destruct (scan_frac rest) as [frac rest1]. pose proof (scan_exp_length rest1) as He.
  destruct (scan_exp rest1) as [exp rest2]. simpl in *. case_decide.
  - destruct (_ <? _); [done|]. simpl. lia.
  - destruct (py_float_of_str _); [|done]. simpl. lia.
Qed.

Lemma length_string_drop n s : String.length (string_drop n s) = String.length s - n.
Proof. revert s. induction n as [|n IH]; intros [|c s]; simpl; try lia; apply IH. Qed.

Lemma scan_literal_length s v rest :
  s ≠ "" → scan_literal s = Some (v, rest) → String.length rest < String.length s.
Proof.
  intros Hs. assert (0 < String.length s) as Hlen by (destruct s; simpl; [done|lia]).
  unfold scan_literal, literals. cbn [first_some fst snd].
  do 6 (destruct (py_startswith s _);
    [intros Hr; apply (f_equal (λ o, String.length (snd (default (v, "") o)))) in Hr;
     cbv beta iota delta [default from_option snd id] in Hr; rewrite <- Hr, length_string_drop;
     simpl; lia|]).
  done.
Qed.

Lemma scan_total fuel :
  (∀ s, 2 * String.length s + 1 ≤ fuel → consumes (String.length s) (scan_value fuel s)) ∧
  (∀ s acc, 2 * String.length s + 2 ≤ fuel → consumes (String.length s) (scan_items fuel s acc)) ∧
  (∀ s acc, 2 * String.length s + 2 ≤ fuel → consumes (String.length s) (scan_members fuel s acc)).
Proof.
  induction fuel as [|fuel (IHv & IHi & IHm)]; [split_and!; intros; lia|].
  split_and!.
  - intros [|c s'] Hf; [done|]. cbn [scan_value].
    pose proof (length_skip_ws s') as Hws. simpl in Hf.
    case_decide.
    { eapply consumes_bind; [apply scan_string_consumes|]. simpl. intros ? ? ?. lia. }
    case_decide; [|case_decide].
    1,2: destruct (skip_ws s') as [|b s1] eqn:Hs1; simpl in Hws;
      [first [eapply consumes_le; [|apply IHi] | eapply consumes_le; [|apply IHm]]; simpl; lia|];
      repeat case_match; simpl; try lia;
      first [eapply consumes_le; [|apply IHi] | eapply consumes_le; [|apply IHm]]; simpl; lia.
    destruct (scan_literal (String c s')) as [[v rest]|] eqn:Hl.
    { simpl. by apply scan_literal_length in Hl. }
    case_decide; [|apply scan_number_consumes].
    eapply consumes_le; [|apply scan_number_consumes]. simpl. lia.
  - intros s acc Hf. cbn [scan_items]. eapply consumes_bind; [apply IHv; lia|].
    intros v s1 Hs1. pose proof (length_skip_ws s1) as Hws.
    destruct (skip_ws s1) as [|b s2]; [done|]. simpl in Hws.
    pose proof (length_skip_ws s2) as Hws2.
    repeat case_match; simpl; try done; try lia.
    eapply consumes_le; [|apply IHi]; lia.
  - intros [|c s'] acc Hf; [done|]. cbn [scan_members]. simpl in Hf. case_decide; [|done].
    eapply consumes_bind; [apply scan_string_consumes|]. intros k s1 Hs1.
    pose proof (length_skip_ws s1) as Hws1. destruct (skip_ws s1) as [|b s2]; [done|].
    simpl in Hws1. pose proof (length_skip_ws s2) as Hws2.
    repeat case_match; try done.
    all: eapply consumes_bind; [apply IHv; lia|]; intros v s3 Hs3.
    all: pose proof (length_skip_ws s3) as Hws3; destruct (skip_ws s3) as [|b' s4]; [done|].
    all: simpl in Hws3; pose proof (length_skip_ws s4) as Hws4.
    all: repeat case_match; simpl; try done; try lia.
    all: eapply consumes_le; [|apply IHm]; simpl; lia.
Qed.

(** [json.loads] ends on every text. *)
Lemma json_loads_total s : json_loads s ≠ Raise out_of_fuel.
Proof.
  unfold json_loads.
  pose proof (proj1 (scan_total (2 * String.length (skip_ws s) + 2)) (skip_ws s)) as H.
  specialize (H ltac:(lia)). destruct (scan_value _ _) as [[v rest]|e]; simpl in *.
  - by case_decide.
  - intros [= ->]. done.
Qed.

(** ** Reading back what was written *)
Lemma scan_char ea c t : scan_string (json_char ea c +:+ t) = cons_char c (scan_string t).
Proof.
  destruct c as [b0 b1 b2 b3 b4 b5 b6 b7], ea;
    destruct b0, b1, b2, b3, b4, b5, b6, b7; reflexivity.
Qed.

Lemma scan_text ea s rest :
  scan_string (string_flat_map (json_char ea) s +:+ String DQ rest) = Ok (s, rest).
Proof.
  induction s as [|c s IH]; [done|]. cbn [string_flat_map].
  rewrite str_app_assoc, scan_char, IH. done.
Qed.

(** What may follow a value inside a text, or at its end. *)
Definition delimits (s : string) : Prop :=
  match s with
  | "" => True
  | String c _ => digit_of c = None ∧ c ≠ "."%char ∧ c ≠ "e"%char ∧ c ≠ "E"%char
  end.

Lemma digit_of_char x : (x < 10)%N → digit_of (pretty_N_char x) = Some (Z.of_N x).
Proof.
  intros Hx. assert (x = 0 ∨ x = 1 ∨ x = 2 ∨ x = 3 ∨ x = 4 ∨ x = 5 ∨ x = 6 ∨ x = 7 ∨ x = 8
    ∨ x = 9)%N as H by lia. by repeat (destruct H as [->|H]; [done|]); subst.
Qed.

Fixpoint all_digits (s : string) : Prop :=
  match s with "" => True | String c s' => is_Some (digit_of c) ∧ all_digits s' end.

Lemma number_digits x s : all_digits s → all_digits (pretty_N_go x s).
Proof.
  revert x s. apply (pretty_N_go_ind (λ x s, all_digits s → all_digits (pretty_N_go x s))); [done|].
  intros x s Hx IH Hs. rewrite pretty_N_go_step by done. apply IH. split; [|done].
  rewrite digit_of_char; [by eexists|]. apply N.mod_lt. lia.
Qed.

Lemma digits_number_go x s :
  digits_number (pretty_N_go x s) 0 = digits_number s (Z.of_N x).
Proof.
  revert x s.
  apply (pretty_N_go_ind (λ x s, digits_number (pretty_N_go x s) 0 = digits_number s (Z.of_N x)));
    [done|].
  intros x s Hx IH. rewrite pretty_N_go_step by done. rewrite IH. simpl.
  rewrite digit_of_char by (apply N.mod_lt; lia). simpl. f_equal.
  rewrite N2Z.inj_div, N2Z.inj_mod. pose proof (Z.div_mod (Z.of_N x) 10 ltac:(lia)). lia.
Qed.

(** The text of a positive number starts with a digit that is not zero. *)
Lemma pretty_go_head x s :
  (0 < x)%N → ∃ c s', pretty_N_go x s = String c s' ∧ c ≠ "0"%char.
Proof.
  revert x s. apply (pretty_N_go_ind (λ x s, (0 < x)%N → ∃ c s', pretty_N_go x s = String c s' ∧
    c ≠ "0"%char)); [lia|].
  intros x s Hx IH _. rewrite pretty_N_go_step by done.
  destruct (decide (x / 10 = 0)%N) as [H0|H0]; [|by apply IH, N.neq_0_lt_0].
  pose proof (proj1 (N.div_small_iff x 10 ltac:(lia)) H0) as Hx10.
  rewrite H0, N.mod_small by done. exists (pretty_N_char x), s. split; [done|].
  assert (x = 1 ∨ x = 2 ∨ x = 3 ∨ x = 4 ∨ x = 5 ∨ x = 6 ∨ x = 7 ∨ x = 8 ∨ x = 9)%N as H by lia.
  by repeat (destruct H as [->|H]; [done|]); subst.
Qed.

Lemma take_all_digits ds rest :
  all_digits ds → delimits rest → take_digits (ds +:+ rest) = (ds, rest).
Proof.
  intros Hds Hr. induction ds as [|c ds IH]; simpl.
  - destruct rest as [|c rest]; [done|]. simpl. by destruct Hr as [-> _].
  - destruct Hds as [[d Hd] Hds]. rewrite Hd, IH by done. done.
Qed.

Lemma scan_no_frac rest : delimits rest → scan_frac rest = ("", rest).
Proof. destruct rest as [|c rest]; [done|]. intros (_ & Hc & _). simpl. by rewrite decide_False. Qed.

Lemma scan_no_exp rest : delimits rest → scan_exp rest = ("", rest).
Proof.
  destruct rest as [|c rest]; [done|]. intros (_ & _ & He & HE). unfold scan_exp.
  rewrite decide_False; [done|]. by intros [?|?].
Qed.

Lemma scan_digits_number neg ds rest :
  ds ≠ "" → all_digits ds → (∀ s, ds = String "0" s → s = "") →
  String.length ds ≤ json_int_digits → delimits rest →
  scan_number neg (ds +:+ rest) =
    Ok (PInt (if neg then - digits_number ds 0 else digits_number ds 0)%Z, rest).
Proof.
  intros Hne Hds Hz Hlen Hr. unfold scan_number.
  assert (scan_int (ds +:+ rest) = (ds, rest)) as ->.
  { pose proof (take_all_digits ds rest Hds Hr) as Ht. destruct ds as [|c ds]; [done|].
    change (String c ds +:+ rest) with (String c (ds +:+ rest)) in *. cbn [scan_int].
    case_decide as Hc; [|done]. subst. by rewrite (Hz ds eq_refl). }
  rewrite decide_False by done. rewrite scan_no_frac, scan_no_exp by done.
  rewrite decide_True by done. by rewrite (proj2 (Nat.ltb_ge _ _)).
Qed.

(** *** Numbers *)
Lemma scan_pretty neg n rest :
  (0 ≤ n)%Z → String.length (pretty n) ≤ json_int_digits → delimits rest →
  scan_number neg (pretty n +:+ rest) = Ok (PInt (if neg then - n else n)%Z, rest).
Proof.
  intros Hn Hlen Hr.
  assert (pretty n ≠ "" ∧ all_digits (pretty n) ∧ (∀ s, pretty n = String "0" s → s = "") ∧
    digits_number (pretty n) 0 = n) as (H1 & H2 & H3 & H4).
  { rewrite pretty_nonneg by done. case_decide as H0.
    - subst. split_and!; [done|split; [by eexists|done]|by intros s [= <-]|done].
    - destruct (pretty_go_head (Z.to_N n) "" ltac:(lia)) as (c & s & Hp & Hc).
      split_and!; [by rewrite Hp|by apply number_digits| |].
      + rewrite Hp. intros s' [= -> _]. done.
      + rewrite digits_number_go. simpl. lia. }
  rewrite scan_digits_number by done. by rewrite H4.
Qed.

(** The scanner on the first character of a number. *)
Lemma scan_value_digit fuel c s :
  is_Some (digit_of c) → scan_value (S fuel) (String c s) = scan_number false (String c s).
Proof.
  intros Hc. destruct c as [b0 b1 b2 b3 b4 b5 b6 b7].
  destruct b0, b1, b2, b3, b4, b5, b6, b7; try reflexivity; by destruct Hc.
Qed.

Lemma scan_value_minus fuel c s :
  is_Some (digit_of c) →
  scan_value (S fuel) (String "-" (String c s)) = scan_number true (String c s).
Proof.
  intros Hc. destruct c as [b0 b1 b2 b3 b4 b5 b6 b7].
  destruct b0, b1, b2, b3, b4, b5, b6, b7; try reflexivity; by destruct Hc.
Qed.

Lemma pretty_head n : (0 ≤ n)%Z → ∃ c s, pretty n = String c s ∧ is_Some (digit_of c).
Proof.
  intros Hn. rewrite pretty_nonneg by done. case_decide; [by eexists _, _; split; [|eexists]|].
  destruct (pretty_go_head (Z.to_N n) "" ltac:(lia)) as (c & s & Hp & _).
  exists c, s. split; [done|].
  pose proof (number_digits (Z.to_N n) "" I) as Hd. rewrite Hp in Hd. apply Hd.
Qed.

Lemma pretty_negative n : (n < 0)%Z → pretty n = "-" +:+ pretty (- n)%Z.
Proof. by destruct n. Qed.

Lemma scan_int_text fuel z rest :
  String.length (pretty (Z.abs z)) ≤ json_int_digits → delimits rest →
  scan_value (S fuel) (pretty z +:+ rest) = Ok (PInt z, rest).
Proof.
  intros Hlen Hr. destruct (decide (0 ≤ z)%Z) as [Hz|Hz].
  - rewrite Z.abs_eq in Hlen by done.
    destruct (pretty_head z Hz) as (c & s & Hp & Hc).
    pose proof (scan_pretty false z rest Hz Hlen Hr) as Hs. rewrite Hp in *.
    change (String c s +:+ rest) with (String c (s +:+ rest)) in *. by rewrite scan_value_digit.
  - rewrite Z.abs_neq in Hlen by lia. rewrite pretty_negative by lia.
    destruct (pretty_head (- z)%Z ltac:(lia)) as (c & s & Hp & Hc).
    pose proof (scan_pretty true (- z)%Z rest ltac:(lia) Hlen Hr) as Hs. rewrite Hp in *.
    change (("-" +:+ String c s) +:+ rest) with (String "-" (String c (s +:+ rest))).
    change (String c s +:+ rest) with (String c (s +:+ rest)) in Hs.
    rewrite scan_value_minus, Hs by done. by rewrite Z.opp_involutive.
Qed.

(** *** Values *)

(** No float, no number longer than the decoder reads, no key twice. *)
Fixpoint json_plain (v : pyval) : bool :=
  match v with
  | PFloat _ => false
  | PInt z => String.length (pretty (Z.abs z)) <=? json_int_digits
  | PList l => forallb json_plain l
  | PDict d => bool_decide (NoDup (map fst d)) && forallb (λ kv, json_plain (snd kv)) d
  | _ => true
  end.

Section pyval_ind.
Variable P : pyval → Prop.
Hypothesis (HNone : P PNone) (HBool : ∀ b, P (PBool b)) (HInt : ∀ z, P (PInt z))
  (HFloat : ∀ f, P (PFloat f)) (HStr : ∀ s, P (PStr s))
  (HList : ∀ l, Forall P l → P (PList l))
  (HDict : ∀ d, Forall (λ kv, P (snd kv)) d → P (PDict d)).

Fixpoint pyval_ind' (v : pyval) : P v :=
  match v with
  | PNone => HNone
  | PBool b => HBool b
  | PInt z => HInt z
  | PFloat f => HFloat f
  | PStr s => HStr s
  | PList l =>
      HList l ((fix go l : Forall P l :=
        match l with [] => Forall_nil_2 P | x :: l' => Forall_cons_2 P x l' (pyval_ind' x) (go l') end) l)
  | PDict d =>
      HDict d ((fix go d : Forall (λ kv, P (snd kv)) d :=
        match d with
        | [] => Forall_nil_2 _
        | kv :: d' => Forall_cons_2 _ kv d' (pyval_ind' (snd kv)) (go d')
        end) d)
  end.
End pyval_ind.

(** What a value's text starts with. *)
Definition opens (s : string) : Prop :=
  match s with
  | "" => False
  | String c _ => json_ws c = false ∧ c ≠ "]"%char ∧ c ≠ "}"%char
  end.

Lemma digit_opens c s : is_Some (digit_of c) → opens (String c s).
Proof.
  intros Hc. destruct c as [b0 b1 b2 b3 b4 b5 b6 b7].
  destruct b0, b1, b2, b3, b4, b5, b6, b7; try (by destruct Hc); by split_and!.
Qed.

Lemma dumps_opens ea v rest : json_plain v = true → opens (json_dumps ea v +:+ rest).
Proof.
  destruct v as [|b|z|f|s|l|d]; intros Hp; try (by destruct b); try done; try by split_and!.
  simpl. destruct (decide (0 ≤ z)%Z) as [Hz|Hz].
  - destruct (pretty_head z Hz) as (c & s & -> & Hc). by apply digit_opens.
  - rewrite pretty_negative by lia. by split_and!.
Qed.

Lemma skip_opens s : opens s → skip_ws s = s.
Proof. destruct s as [|c s]; [done|]. intros [Hc _]. simpl. by rewrite Hc. Qed.

Definition reads_back (ea : bool) (v : pyval) : Prop :=
  json_plain v = true → ∀ fuel rest, delimits rest →
  2 * String.length (json_dumps ea v +:+ rest) + 1 ≤ fuel →
  scan_value fuel (json_dumps ea v +:+ rest) = Ok (sort_keys v, rest).

Lemma delimits_char c s :
  c = ","%char ∨ c = "]"%char ∨ c = "}"%char → delimits (String c s).
Proof. by intros [-> |[-> | ->]]. Qed.

Lemma join_cons sep x y l : string_join sep (x :: y :: l) = x +:+ sep +:+ string_join sep (y :: l).
Proof. done. Qed.

(** After the item at the front of what is left. *)
Lemma scan_items_step ea fuel v rest acc :
  reads_back ea v → json_plain v = true → delimits rest →
  2 * String.length (json_dumps ea v +:+ rest) + 2 ≤ fuel →
  scan_items fuel (json_dumps ea v +:+ rest) acc =
  match skip_ws rest with
  | String "," s2 => scan_items (pred fuel) (skip_ws s2) (acc ++ [sort_keys v])
  | String "]" s2 => Ok (PList (acc ++ [sort_keys v]), s2)
  | _ => Raise JSONDecodeError
  end.
Proof.
  intros Hv Hp Hr Hf. destruct fuel as [|fuel]; [lia|]. cbn [scan_items pred].
  rewrite Hv by first [done | lia]. done.
Qed.

Lemma scan_items_dumps ea l : l ≠ [] → Forall (reads_back ea) l → forallb json_plain l = true →
  ∀ fuel rest acc,
  2 * String.length (string_join "," (map (json_dumps ea) l) +:+ String "]" rest) + 2 ≤ fuel →
  scan_items fuel (string_join "," (map (json_dumps ea) l) +:+ String "]" rest) acc =
  Ok (PList (acc ++ map sort_keys l), rest).
Proof.
  intros Hne HP Hplain. induction l as [|v l IH]; [done|]. intros fuel rest acc Hf.
  apply Forall_cons in HP as [Hv HP]. simpl in Hplain. apply andb_prop in Hplain as [Hpv Hpl].
  destruct l as [|w l].
  - cbn [map string_join] in *. rewrite scan_items_step by first [done | by apply delimits_char; auto].
    done.
  - change (map (json_dumps ea) (v :: w :: l)) with
      (json_dumps ea v :: json_dumps ea w :: map (json_dumps ea) l) in *.
    rewrite join_cons, !str_app_assoc in *.
    change (json_dumps ea w :: map (json_dumps ea) l) with (map (json_dumps ea) (w :: l)) in *.
    set (tail := string_join "," (map (json_dumps ea) (w :: l)) +:+ String "]" rest) in *.
    change ("," +:+ tail) with (String "," tail) in *.
    rewrite scan_items_step by first [done | by apply delimits_char; auto].
    cbn [skip_ws json_ws]. simpl (json_ws ",").
    assert (skip_ws tail = tail) as Ht.
    { apply skip_opens. unfold tail. destruct l as [|x l].
      - cbn [map string_join]. apply dumps_opens. simpl in Hpl. by apply andb_prop in Hpl as [? _].
      - cbn [map]. rewrite join_cons, str_app_assoc. apply dumps_opens. simpl in Hpl.
        by apply andb_prop in Hpl as [? _]. }
    simpl. rewrite Ht. unfold tail. rewrite IH; [|done..|].
    + by rewrite <- app_assoc.
    + fold tail. rewrite length_str_app in Hf. simpl in Hf. lia.
Qed.

Definition member_text (ea : bool) (kv : string * pyval) : string :=
  json_str ea (fst kv) +:+ ":" +:+ json_dumps ea (snd kv).

Lemma member_text_app ea kv rest :
  member_text ea kv +:+ rest =
  String DQ (string_flat_map (json_char ea) (fst kv) +:+ String DQ
    (String ":" (json_dumps ea (snd kv) +:+ rest))).
Proof.
  unfold member_text, json_str. rewrite !str_app_assoc.
  etrans; [exact (f_equal (String DQ) (str_app_assoc _ _ _))|]. done.
Qed.

Lemma scan_members_step ea fuel kv rest acc :
  reads_back ea (snd kv) → json_plain (snd kv) = true → delimits rest →
  2 * String.length (member_text ea kv +:+ rest) + 2 ≤ fuel →
  scan_members fuel (member_text ea kv +:+ rest) acc =
  match skip_ws rest with
  | String "," s2 => scan_members (pred fuel) (skip_ws s2) (od_set (fst kv) (sort_keys (snd kv)) acc)
  | String "}" s2 => Ok (PDict (od_set (fst kv) (sort_keys (snd kv)) acc), s2)
  | _ => Raise JSONDecodeError
  end.
Proof.
  intros Hv Hp Hr Hf. rewrite member_text_app in *. destruct fuel as [|fuel]; [lia|].
  cbn [scan_members pred]. rewrite decide_True by done. rewrite scan_text. simpl.
  rewrite (skip_opens (json_dumps ea (snd kv) +:+ rest)) by by apply dumps_opens.
  rewrite Hv; [done..|]. simpl in Hf. rewrite length_str_app in Hf. simpl in Hf. lia.
Qed.

Lemma member_text_opens ea kv rest : opens (member_text ea kv +:+ rest).
Proof. rewrite member_text_app. by split_and!. Qed.

Definition sort_item (kv : string * pyval) : string * pyval := (fst kv, sort_keys (snd kv)).

Lemma scan_members_dumps ea d :
  d ≠ [] → Forall (λ kv, reads_back ea (snd kv)) d →
  forallb (λ kv, json_plain (snd kv)) d = true →
  ∀ fuel rest acc, NoDup (map fst (acc ++ d)) →
  2 * String.length (string_join "," (map (member_text ea) d) +:+ String "}" rest) + 2 ≤ fuel →
  scan_members fuel (string_join "," (map (member_text ea) d) +:+ String "}" rest)
    (map sort_item acc) = Ok (PDict (map sort_item (acc ++ d)), rest).
Proof.
  intros Hne HP Hplain. induction d as [|kv d IH]; [done|]. intros fuel rest acc Hnd Hf.
  apply Forall_cons in HP as [Hv HP]. simpl in Hplain. apply andb_prop in Hplain as [Hpv Hpd].
  assert (od_set (fst kv) (sort_keys (snd kv)) (map sort_item acc) = map sort_item (acc ++ [kv]))
    as Hset.
  { rewrite od_set_fresh; [by rewrite map_app|]. apply od_get_None. rewrite map_map.
    rewrite map_app in Hnd. apply NoDup_app in Hnd as (_ & Hnd & _).
    intros Hin. by apply (Hnd _ Hin); left. }
  destruct d as [|kv' d].
  - cbn [map string_join] in *.
    rewrite scan_members_step by first [done | by apply delimits_char; auto]. simpl.
    by rewrite Hset.
  - change (map (member_text ea) (kv :: kv' :: d)) with
      (member_text ea kv :: member_text ea kv' :: map (member_text ea) d) in *.
    rewrite join_cons, !str_app_assoc in *.
    change (member_text ea kv' :: map (member_text ea) d) with (map (member_text ea) (kv' :: d)) in *.
    set (tail := string_join "," (map (member_text ea) (kv' :: d)) +:+ String "}" rest) in *.
    change ("," +:+ tail) with (String "," tail) in *.
    rewrite scan_members_step by first [done | by apply delimits_char; auto].
    assert (skip_ws tail = tail) as Ht.
    { apply skip_opens. unfold tail. destruct d as [|x d].
      - cbn [map string_join]. apply member_text_opens.
      - cbn [map]. rewrite join_cons, str_app_assoc. apply member_text_opens. }
    simpl. rewrite Ht, Hset. unfold tail.
    replace (acc ++ kv :: kv' :: d) with ((acc ++ [kv]) ++ kv' :: d) in * by
      (by rewrite <- app_assoc).
    apply IH; [done..|]. fold tail. rewrite length_str_app in Hf. simpl in Hf. lia.
Qed.

(** [json.dumps] writes the members in the order of [sort_keys]. *)
Lemma dumps_dict ea d :
  json_dumps ea (PDict d) =
  "{" +:+ string_join "," (map (member_text ea) (merge_sort item_le d)) +:+ "}".
Proof.
  cbn [json_dumps]. do 2 f_equal.
  rewrite (merge_sort_map (λ kv, (fst kv, member_text ea kv)) item_le key_le) by done.
  by rewrite map_map.
Qed.

Lemma sort_keys_dict d : sort_keys (PDict d) = PDict (map sort_item (merge_sort item_le d)).
Proof. cbn [sort_keys]. f_equal. by apply (merge_sort_map sort_item item_le item_le). Qed.

Lemma forallb_perm {A} (p : A → bool) l l' : l ≡ₚ l' → forallb p l = forallb p l'.
Proof.
  induction 1 as [|x l1 l2 _ IH|x y l|l1 l2 l3 _ IH1 _ IH2]; simpl; [done|by rewrite IH| |congruence].
  by destruct (p x), (p y).
Qed.

(** A match on a closing bracket that the text does not start with. *)
Lemma not_square {A} c s (f g : string → A) :
  c ≠ "]"%char →
  match String c s with String "]" rest => f rest | s1 => g s1 end = g (String c s).
Proof.
  intros Hc. destruct c as [b0 b1 b2 b3 b4 b5 b6 b7].
  by destruct b0, b1, b2, b3, b4, b5, b6, b7.
Qed.

Lemma not_curly {A} c s (f g : string → A) :
  c ≠ "}"%char →
  match String c s with String "}" rest => f rest | s1 => g s1 end = g (String c s).
Proof.
  intros Hc. destruct c as [b0 b1 b2 b3 b4 b5 b6 b7].
  by destruct b0, b1, b2, b3, b4, b5, b6, b7.
Qed.

Lemma scan_dumps ea v : reads_back ea v.
Proof.
  induction v as [|b|z|f|s|l HP|d HP] using pyval_ind'; intros Hp fuel rest Hr Hf;
    (destruct fuel as [|fuel]; [lia|]).
  - by destruct rest.
  - by destruct b, rest.
  - apply scan_int_text; [|done]. by apply Nat.leb_le.
  - done.
  - cbn [json_dumps]. unfold json_str.
    change (String DQ (string_flat_map (json_char ea) s +:+ String DQ "") +:+ rest) with
      (String DQ ((string_flat_map (json_char ea) s +:+ String DQ "") +:+ rest)).
    rewrite str_app_assoc. cbn [scan_value]. rewrite decide_True by done.
    change (String DQ "" +:+ rest) with (String DQ rest). by rewrite scan_text.
  - cbn [json_dumps] in *. rewrite !str_app_assoc in *.
    set (tail := string_join "," (map (json_dumps ea) l) +:+ ("]" +:+ rest)) in *.
    change ("[" +:+ tail) with (String "[" tail) in *. cbn [scan_value].
    rewrite decide_False, decide_True by done. destruct l as [|x l]; [done|].
    simpl in Hp. assert (opens tail) as Ho.
    { apply andb_prop in Hp as [Hpx _]. unfold tail. destruct l as [|y l].
      - cbn [map string_join]. by apply dumps_opens.
      - cbn [map]. rewrite join_cons, str_app_assoc. by apply dumps_opens. }
    rewrite (skip_opens tail Ho).
    pose proof (scan_items_dumps ea (x :: l) ltac:(done) HP Hp fuel rest []) as Hitems.
    change (String "]" rest) with ("]" +:+ rest) in Hitems. fold tail in Hitems.
    simpl in Hf. etrans; [|apply Hitems; lia]. clearbody tail.
    destruct tail as [|c tail']; [done|]. destruct Ho as (_ & Hc & _).
    exact (not_square c tail' (λ r, Ok (PList [], r)) (λ s1, scan_items fuel s1 []) Hc).
  - rewrite sort_keys_dict. rewrite dumps_dict in *. rewrite !str_app_assoc in *.
    cbn [json_plain] in Hp. apply andb_prop in Hp as [Hnd%bool_decide_eq_true Hp].
    pose proof (merge_sort_Permutation item_le d) as Hperm.
    rewrite <- (forallb_perm _ _ _ Hperm) in Hp.
    assert (Forall (λ kv, reads_back ea (snd kv)) (merge_sort item_le d)) as HP'
      by (by rewrite Hperm).
    assert (NoDup (map fst ([] ++ merge_sort item_le d))) as Hnd'
      by (simpl; fold (fmap (M:=list) (@fst string pyval)); by rewrite Hperm).
    clear HP Hnd Hperm. revert Hp HP' Hnd' Hf. generalize (merge_sort item_le d). clear d.
    intros d Hp HP Hnd Hf.
    set (tail := string_join "," (map (member_text ea) d) +:+ ("}" +:+ rest)) in *.
    change ("{" +:+ tail) with (String "{" tail) in *. cbn [scan_value].
    rewrite !decide_False, decide_True by done. destruct d as [|x d]; [done|].
    assert (opens tail) as Ho.
    { unfold tail. destruct d as [|y d].
      - cbn [map string_join]. apply member_text_opens.
      - cbn [map]. rewrite join_cons, str_app_assoc. apply member_text_opens. }
    rewrite (skip_opens tail Ho).
    pose proof (scan_members_dumps ea (x :: d) ltac:(done) HP Hp fuel rest [] Hnd) as Hmembers.
    change (String "}" rest) with ("}" +:+ rest) in Hmembers. fold tail in Hmembers.
    simpl in Hf. etrans; [|apply Hmembers; lia]. clearbody tail.
    destruct tail as [|c tail']; [done|]. destruct Ho as (_ & _ & Hc).
    exact (not_curly c tail' (λ r, Ok (PDict [], r)) (λ s1, scan_members fuel s1 []) Hc).
Qed.

(** What [json.dumps] wrote of a plain value, [json.loads] reads as that value
    with the keys of its dictionaries in order. *)
Lemma json_round_trip ea v :
  json_plain v = true → json_loads (json_dumps ea v) = Ok (sort_keys v).
Proof.
  intros Hp. unfold json_loads.
  assert (opens (json_dumps ea v +:+ "")) as Ho by by apply dumps_opens.
  assert (json_dumps ea v +:+ "" = json_dumps ea v) as Happ.
  { generalize (json_dumps ea v). intros s. induction s as [|c s IH]; [done|].
    by apply (f_equal (String c)). }
  pose proof (scan_dumps ea v Hp (2 * String.length (json_dumps ea v) + 2) "" I) as Hs.
  rewrite Happ in *. rewrite (skip_opens _ Ho), Hs by lia. done.
Qed.
