(* ===== verification/Sha256.v ===== *)
(** * SHA-256

    [hashlib.sha256(data).hexdigest()] of the standard library, on 32-bit
    words kept as [Z] in [0, 2^32). *)
From S2P Require Import Python.
From Stdlib Require Import Ascii.

Local Open Scope Z_scope.

Definition w32 (x : Z) : Z := x mod 2 ^ 32.
Definition add32 (x y : Z) : Z := w32 (x + y).
Definition rotr (n x : Z) : Z := Z.lor (Z.shiftr x n) (w32 (Z.shiftl x (32 - n))).

(** The first 32 bits of the fractional part of the [r]-th root of [p]. *)
Fixpoint iroot_search (bits : nat) (r p lo : Z) : Z :=
  match bits with
  | O => lo
  | S b =>
      let c := lo + 2 ^ Z.of_nat b in
      iroot_search b r p (if c ^ r <=? p then c else lo)
  end.
Definition root_word (r p : Z) : Z := w32 (iroot_search 40 r (p * 2 ^ (32 * r)) 0).

Definition is_prime (n : Z) : bool :=
  forallb (λ d, negb (n mod Z.of_nat d =? 0)) (seq 2 (Z.to_nat n - 2)).
Definition primes (bound : nat) : list Z :=
  List.filter is_prime (map Z.of_nat (seq 2 bound)).

Definition sha_k : list Z := Eval vm_compute in map (root_word 3) (take 64 (primes 311)).
Definition sha_h0 : list Z := Eval vm_compute in map (root_word 2) (take 8 (primes 20)).

Fixpoint be_bytes (n : nat) (x : Z) : list Z :=
  match n with O => [] | S n' => be_bytes n' (x / 256) ++ [x mod 256] end.

(** Padding to a whole number of 64-byte blocks. *)
Definition sha_pad (m : list Z) : list Z :=
  let len := Z.of_nat (length m) in
  let k := (55 - len) mod 64 in
  m ++ [128] ++ replicate (Z.to_nat k) 0 ++ be_bytes 8 (8 * len).

Fixpoint words_of (l : list Z) : list Z :=
  match l with
  | a :: b :: c :: d :: l' => (((a * 256 + b) * 256 + c) * 256 + d) :: words_of l'
  | _ => []
  end.

(** The message schedule, most recent word first. *)
Fixpoint schedule (n : nat) (w : list Z) : list Z :=
  match n with
  | O => w
  | S n' =>
      let w' := schedule n' w in
      let at_ i := nth i w' 0 in
      let s0 := Z.lxor (rotr 7 (at_ 14%nat)) (Z.lxor (rotr 18 (at_ 14%nat)) (Z.shiftr (at_ 14%nat) 3)) in
      let s1 := Z.lxor (rotr 17 (at_ 1%nat)) (Z.lxor (rotr 19 (at_ 1%nat)) (Z.shiftr (at_ 1%nat) 10)) in
      add32 (add32 s1 (at_ 6%nat)) (add32 s0 (at_ 15%nat)) :: w'
  end.

Definition sha_round (st : list Z) (kw : Z * Z) : list Z :=
  match st with
  | [a; b; c; d; e; f; g; h] =>
      let s1 := Z.lxor (rotr 6 e) (Z.lxor (rotr 11 e) (rotr 25 e)) in
      let ch := Z.lxor (Z.land e f) (Z.land (2 ^ 32 - 1 - e) g) in
      let t1 := w32 (h + s1 + ch + fst kw + snd kw) in
      let s0 := Z.lxor (rotr 2 a) (Z.lxor (rotr 13 a) (rotr 22 a)) in
      let maj := Z.lxor (Z.land a b) (Z.lxor (Z.land a c) (Z.land b c)) in
      [add32 t1 (add32 s0 maj); a; b; c; add32 d t1; e; f; g]
  | _ => st
  end.

Definition sha_block (h : list Z) (block : list Z) : list Z :=
  let w := rev (schedule 48 (rev (words_of block))) in
  zip_with add32 h (fold_left sha_round (combine sha_k w) h).

Fixpoint sha_blocks (fuel : nat) (h m : list Z) : list Z :=
  match fuel with
  | O => h
  | S n => match m with [] => h | _ => sha_blocks n (sha_block h (take 64 m)) (drop 64 m) end
  end.

Definition hex_of_byte (b : Z) : string := hex2 (Z.to_N b).

Definition sha256_hex (m : list Z) : string :=
  let p := sha_pad m in
  string_join "" (map hex_of_byte (mjoin (map (be_bytes 4) (sha_blocks (length p) sha_h0 p)))).

Example sha256_abc :
  sha256_hex (utf8_encode "abc")
  = "ba7816bf8f01cfea414140de5dae2223b00361a396177a9cb410ff61f20015ad".
Proof. vm_compute. reflexivity. Qed.
