(* ===== verification/Contracts.v ===== *)
(** * Contracts

    The DTOs of [agent_kernel/kernel/contracts.py] the other components pass
    around.  A [Literal] becomes an inductive type when the code only stores
    and compares it; it stays a [string] when the code also treats it as open
    text (event types, recovery modes, reason codes). *)
From S2P Require Export Python.

(** ** Literals *)
Inductive RunLifecycleState :=
  | created | ready | dispatching | waiting_result | waiting_external
  | recovering | completed | failed | aborted.

#[export] Instance RunLifecycleState_eq_dec : EqDecision RunLifecycleState.
Proof. solve_decision. Defined.

(** A member as a [str]. *)
Definition lifecycle_value (s : RunLifecycleState) : string :=
  match s with
  | created => "created"
  | ready => "ready"
  | dispatching => "dispatching"
  | waiting_result => "waiting_result"
  | waiting_external => "waiting_external"
  | recovering => "recovering"
  | completed => "completed"
  | failed => "failed"
  | aborted => "aborted"
  end.

Inductive EffectClass :=
  | READ_ONLY | IDEMPOTENT_WRITE | COMPENSATABLE_WRITE | IRREVERSIBLE_WRITE.

#[export] Instance EffectClass_eq_dec : EqDecision EffectClass.
Proof. solve_decision. Defined.

(** A [StrEnum] member used as a [str]. *)
Definition effect_class_str (e : EffectClass) : string :=
  match e with
  | READ_ONLY => "read_only"
  | IDEMPOTENT_WRITE => "idempotent_write"
  | COMPENSATABLE_WRITE => "compensatable_write"
  | IRREVERSIBLE_WRITE => "irreversible_write"
  end.

Inductive ExternalIdempotencyLevel := guaranteed | best_effort | unknown_level.

#[export] Instance ExternalIdempotencyLevel_eq_dec : EqDecision ExternalIdempotencyLevel.
Proof. solve_decision. Defined.

(** The literals of [dedupe_store.HostKind] and [SandboxGrant.host_kind]. *)
Inductive HostKind :=
  | local_process | local_cli | cli_process | in_process_python | remote_service.

#[export] Instance HostKind_eq_dec : EqDecision HostKind.
Proof. solve_decision. Defined.

Definition host_kind_str (h : HostKind) : string :=
  match h with
  | local_process => "local_process"
  | local_cli => "local_cli"
  | cli_process => "cli_process"
  | in_process_python => "in_process_python"
  | remote_service => "remote_service"
  end.

Inductive PeerRetryModel :=
  | retry_unknown | at_most_once | at_least_once | exactly_once_claimed.
Inductive DefaultRetryPolicy := no_auto_retry | bounded_retry.

#[export] Instance DefaultRetryPolicy_eq_dec : EqDecision DefaultRetryPolicy.
Proof. solve_decision. Defined.

(** ** Runtime events and commits *)
Inductive EventAuthority := authoritative_fact | derived_replayable | derived_diagnostic.

#[export] Instance EventAuthority_eq_dec : EqDecision EventAuthority.
Proof. solve_decision. Defined.

Record RuntimeEvent := {
  ev_run_id : string;
  ev_event_id : string;
  ev_commit_offset : Z;
  ev_event_type : string;
  ev_event_class : string;
  ev_event_authority : EventAuthority;
  ev_ordering_key : string;
  ev_wake_policy : string;
  ev_created_at : string;
  ev_idempotency_key : option string;
  ev_payload_ref : option string;
  ev_payload_json : option pydict;
  ev_schema_version : string
}.

Record Action := {
  act_action_id : string;
  act_run_id : string;
  act_action_type : string;
  act_effect_class : EffectClass;
  act_external_idempotency_level : option ExternalIdempotencyLevel;
  act_interaction_target : option string;
  act_input_ref : option string;
  act_input_json : option pydict;
  act_policy_tags : list string;
  act_timeout_ms : option Z;
  act_side_effect_class : option string
}.

Record ActionCommit := {
  cm_run_id : string;
  cm_commit_id : string;
  cm_events : list RuntimeEvent;
  cm_created_at : string;
  cm_action : option Action;
  cm_caused_by : option string
}.

(** ** Projection, admission, execution *)
Record RunPolicyVersions := {
  route_policy_version : option string;
  acceptance_policy_version : option string;
  memory_policy_version : option string;
  skill_policy_version : option string;
  evaluation_policy_version : option string;
  task_view_policy_version : option string;
  pinned_at : string
}.

(** [asdict], and the constructor on a dict read from JSON. *)
Definition policy_versions_dict (v : RunPolicyVersions) : pydict :=
  [ ("route_policy_version", opt_str (route_policy_version v));
    ("acceptance_policy_version", opt_str (acceptance_policy_version v));
    ("memory_policy_version", opt_str (memory_policy_version v));
    ("skill_policy_version", opt_str (skill_policy_version v));
    ("evaluation_policy_version", opt_str (evaluation_policy_version v));
    ("task_view_policy_version", opt_str (task_view_policy_version v));
    ("pinned_at", PStr (pinned_at v)) ].

(** A value of another type than a field's is outside the model. *)
Definition of_type {A} (o : option A) : outcome A :=
  match o with Some a => Ok a | None => Raise (Exn Unmodelled "a field of another type") end.

Definition as_opt_str (v : pyval) : option (option string) :=
  match v with PNone => Some None | PStr s => Some (Some s) | _ => None end.

(** [RunPolicyVersions( **pv )]. *)
Definition policy_versions_of (pv : pydict) : outcome RunPolicyVersions :=
  let field k := of_type (as_opt_str (py_get k pv)) in
  if forallb (λ k, bool_decide (k ∈ map fst (policy_versions_dict (Build_RunPolicyVersions
       None None None None None None "")))) (map fst pv) then
    route ← field "route_policy_version";
    acceptance ← field "acceptance_policy_version";
    memory ← field "memory_policy_version";
    skill ← field "skill_policy_version";
    evaluation ← field "evaluation_policy_version";
    task_view ← field "task_view_policy_version";
    pinned ← of_type (is_str (py_get_or "pinned_at" pv (PStr "")));
    Ok {| route_policy_version := route; acceptance_policy_version := acceptance;
          memory_policy_version := memory; skill_policy_version := skill;
          evaluation_policy_version := evaluation; task_view_policy_version := task_view;
          pinned_at := pinned |}
  else Raise (Exn TypeError "unexpected keyword argument").

Record RunProjection := {
  pj_run_id : string;
  pj_lifecycle_state : RunLifecycleState;
  pj_projected_offset : Z;
  pj_waiting_external : bool;
  pj_ready_for_dispatch : bool;
  pj_current_action_id : option string;
  pj_recovery_mode : option string;
  pj_recovery_reason : option string;
  pj_active_child_runs : list string;
  pj_policy_versions : option RunPolicyVersions;
  pj_task_contract_ref : option string
}.

Inductive ReasonCode :=
  | reason_ok | permission_denied | quota_exceeded | policy_denied
  | dependency_not_ready | stale_policy | idempotency_contract_insufficient.

Record SandboxGrant := {
  sg_grant_ref : string;
  sg_host_kind : HostKind;
  sg_sandbox_profile_ref : option string;
  sg_allowed_mounts : list string;
  sg_denied_mounts : list string;
  sg_network_policy : string;
  sg_allowed_hosts : list string
}.

Record AdmissionResult := {
  ar_admitted : bool;
  ar_reason_code : ReasonCode;
  ar_expires_at : option string;
  ar_grant_ref : option string;
  ar_policy_snapshot_ref : option string;
  ar_sandbox_grant : option SandboxGrant;
  ar_idempotency_envelope : option pydict
}.

Record RemoteServiceIdempotencyContract := {
  accepts_dispatch_idempotency_key : bool;
  returns_stable_ack : bool;
  peer_retry_model : PeerRetryModel;
  default_retry_policy : DefaultRetryPolicy
}.

Record ExecutionContext := {
  ec_run_id : string;
  ec_action_id : string;
  ec_causation_id : option string;
  ec_correlation_id : option string;
  ec_lineage_id : option string;
  ec_capability_snapshot_ref : option string;
  ec_capability_snapshot_hash : option string;
  ec_context_binding_ref : option string;
  ec_grant_ref : option string;
  ec_policy_snapshot_ref : option string;
  ec_rule_bundle_hash : option string;
  ec_declarative_bundle_digest : option pydict;
  ec_timeout_ms : option Z;
  ec_budget_ref : option string;
  ec_trace_context : option string
}.

(** ** Failure evidence *)
Inductive FailureEvidenceSource :=
  | src_external_ack_ref | src_evidence_ref | src_local_inference | src_none.

#[export] Instance FailureEvidenceSource_eq_dec : EqDecision FailureEvidenceSource.
Proof. solve_decision. Defined.

Record FailureEnvelope := {
  fe_run_id : string;
  fe_action_id : option string;
  fe_failed_stage : string;
  fe_failed_component : string;
  fe_failure_code : string;
  fe_failure_class : string;
  fe_evidence_ref : option string;
  fe_external_ack_ref : option string;
  fe_local_inference : option string;
  fe_evidence_priority_source : FailureEvidenceSource;
  fe_evidence_priority_ref : option string;
  fe_retryability : string;
  fe_compensation_hint : option string;
  fe_human_escalation_hint : option string;
  fe_trace_failure_code : option string
}.
