(* ===== verification/FailureEvidence.v ===== *)
(** * Failure evidence precedence ([kernel/failure_evidence.py]) *)
From S2P Require Import Contracts.

Record FailureEvidenceResolution := {
  fr_source : FailureEvidenceSource;
  fr_evidence_ref : option string
}.

Definition _normalize_optional_ref (value : option string) : option string :=
  match value with
  | None => None
  | Some v =>
      let normalized_value := py_strip v in
      if decide (normalized_value = "") then None else Some normalized_value
  end.

Definition resolve_failure_evidence (envelope : FailureEnvelope) : FailureEvidenceResolution :=
  match _normalize_optional_ref (fe_external_ack_ref envelope) with
  | Some external_ack_ref =>
      {| fr_source := src_external_ack_ref; fr_evidence_ref := Some external_ack_ref |}
  | None =>
      match _normalize_optional_ref (fe_evidence_ref envelope) with
      | Some evidence_ref =>
          {| fr_source := src_evidence_ref; fr_evidence_ref := Some evidence_ref |}
      | None =>
          match _normalize_optional_ref (fe_local_inference envelope) with
          | Some local_inference =>
              {| fr_source := src_local_inference; fr_evidence_ref := Some local_inference |}
          | None => {| fr_source := src_none; fr_evidence_ref := None |}
          end
      end
  end.

(** [dataclasses.replace] on the two resolution fields. *)
Definition apply_failure_evidence_priority (envelope : FailureEnvelope) : FailureEnvelope :=
  let resolution := resolve_failure_evidence envelope in
  {| fe_run_id := fe_run_id envelope;
     fe_action_id := fe_action_id envelope;
     fe_failed_stage := fe_failed_stage envelope;
     fe_failed_component := fe_failed_component envelope;
     fe_failure_code := fe_failure_code envelope;
     fe_failure_class := fe_failure_class envelope;
     fe_evidence_ref := fe_evidence_ref envelope;
     fe_external_ack_ref := fe_external_ack_ref envelope;
     fe_local_inference := fe_local_inference envelope;
     fe_evidence_priority_source := fr_source resolution;
     fe_evidence_priority_ref := fr_evidence_ref resolution;
     fe_retryability := fe_retryability envelope;
     fe_compensation_hint := fe_compensation_hint envelope;
     fe_human_escalation_hint := fe_human_escalation_hint envelope;
     fe_trace_failure_code := fe_trace_failure_code envelope |}.
