(* ===== verification/DedupeStore.v ===== *)
(** * The dispatch dedupe store ([kernel/dedupe_store.py])

    The idempotency ledger in front of the executor: its records, the port the
    turn engine and the compensation registry program against
    ([DedupeStorePort], with the contract [DedupeStoreLaws]) and the in-memory
    implementation. *)
From S2P Require Export Contracts.

(** ** Data *)
Inductive DedupeState := reserved | dispatched | acknowledged | succeeded | unknown_effect.

#[export] Instance DedupeState_eq_dec : EqDecision DedupeState.
Proof. solve_decision. Defined.

Definition dedupe_state_str (st : DedupeState) : string :=
  match st with
  | reserved => "reserved"
  | dispatched => "dispatched"
  | acknowledged => "acknowledged"
  | succeeded => "succeeded"
  | unknown_effect => "unknown_effect"
  end.

Record IdempotencyEnvelope := {
  env_dispatch_idempotency_key : string;
  env_operation_fingerprint : string;
  env_attempt_seq : Z;
  env_effect_scope : string;
  env_capability_snapshot_hash : string;
  env_host_kind : HostKind;
  env_peer_operation_id : option string;
  env_policy_snapshot_ref : option string;
  env_rule_bundle_hash : option string
}.

Record DedupeRecord := {
  rec_dispatch_idempotency_key : string;
  rec_operation_fingerprint : string;
  rec_attempt_seq : Z;
  rec_state : DedupeState;
  rec_peer_operation_id : option string;
  rec_external_ack_ref : option string
}.

Inductive ReservationReason := duplicate | reason_reserved | accepted_reason.

Record DedupeReservation := {
  accepted : bool;
  reason : ReservationReason;
  existing_record : option DedupeRecord
}.

Definition duplicate_reservation (existing : DedupeRecord) : DedupeReservation :=
  {| accepted := false; reason := duplicate; existing_record := Some existing |}.
Definition accepted_reservation : DedupeReservation :=
  {| accepted := true; reason := accepted_reason; existing_record := None |}.

(** ** The port *)
Class DedupeStorePort (S : Type) := {
  ds_reserve : IdempotencyEnvelope → M S DedupeReservation;
  ds_mark_dispatched : string → option string → M S unit;
  ds_mark_acknowledged : string → option string → M S unit;
  ds_mark_succeeded : string → option string → M S unit;
  ds_mark_unknown_effect : string → M S unit;
  ds_reserve_and_dispatch : IdempotencyEnvelope → option string → M S DedupeReservation;
  ds_get : string → M S (option DedupeRecord);
  ds_count_by_run : string → M S Z
}.

(** ** The abstract ledger

    What the port promises, as operations on a finite map of records.  A
    transition is legal from the listed states only; it never touches another
    key, and never removes one. *)
Definition new_record (e : IdempotencyEnvelope) (st : DedupeState) (peer : option string)
    : DedupeRecord :=
  {| rec_dispatch_idempotency_key := env_dispatch_idempotency_key e;
     rec_operation_fingerprint := env_operation_fingerprint e;
     rec_attempt_seq := env_attempt_seq e;
     rec_state := st;
     rec_peer_operation_id := peer;
     rec_external_ack_ref := None |}.

(** The target of each marking and the states it may come from. *)
Definition legal_sources (target : DedupeState) : list DedupeState :=
  match target with
  | reserved => []
  | dispatched => [reserved; dispatched]
  | acknowledged => [dispatched; acknowledged]
  | succeeded => [acknowledged; succeeded]
  | unknown_effect => [dispatched; unknown_effect]
  end.

Definition marked (r : DedupeRecord) (target : DedupeState) (peer ack : option string)
    : DedupeRecord :=
  {| rec_dispatch_idempotency_key := rec_dispatch_idempotency_key r;
     rec_operation_fingerprint := rec_operation_fingerprint r;
     rec_attempt_seq := rec_attempt_seq r;
     rec_state := target;
     rec_peer_operation_id := str_or peer (rec_peer_operation_id r);
     rec_external_ack_ref := str_or ack (rec_external_ack_ref r) |}.

Abbreviation ledger := (gmap string DedupeRecord).

Definition spec_reserve (st : DedupeState) (e : IdempotencyEnvelope) (peer : option string)
    (l : ledger) : DedupeReservation * ledger :=
  match l !! env_dispatch_idempotency_key e with
  | Some existing => (duplicate_reservation existing, l)
  | None =>
      (accepted_reservation,
       <[env_dispatch_idempotency_key e := new_record e st peer]> l)
  end.

Definition spec_mark (target : DedupeState) (k : string) (peer ack : option string)
    (l : ledger) : option ledger :=
  r ← l !! k;
  if decide (rec_state r ∈ legal_sources target)
  then Some (<[k := marked r target peer ack]> l)
  else None.

Definition spec_mark_unit target k peer ack (l : ledger) : option (unit * ledger) :=
  (λ l', (tt, l')) <$> spec_mark target k peer ack l.

(** A run of [m] from a well-formed store that either behaves as the
    specification says or raises an ordinary exception and leaves the ledger
    as it was (a busy database, a lost connection, an illegal transition). *)
Definition refines {S A} (ok : S → Prop) (view : S → ledger) (m : M S A)
    (spec : ledger → option (A * ledger)) : Prop :=
  ∀ s, ok s →
  match m s with
  | (Ok a, s') => ok s' ∧ spec (view s) = Some (a, view s')
  | (Raise e, s') => ok s' ∧ is_Exception e = true ∧ view s' = view s
  end.

(** The contract of the port: every operation refines the abstract ledger. *)
Class DedupeStoreLaws (S : Type) `{DedupeStorePort S} := {
  ds_ok : S → Prop;
  ds_view : S → ledger;
  law_reserve e :
    refines ds_ok ds_view (ds_reserve e)
      (Some ∘ spec_reserve reserved e (env_peer_operation_id e));
  law_reserve_and_dispatch e peer :
    refines ds_ok ds_view (ds_reserve_and_dispatch e peer)
      (Some ∘ spec_reserve dispatched e (str_or peer (env_peer_operation_id e)));
  law_mark_dispatched k peer :
    refines ds_ok ds_view (ds_mark_dispatched k peer) (spec_mark_unit dispatched k peer None);
  law_mark_acknowledged k ack :
    refines ds_ok ds_view (ds_mark_acknowledged k ack) (spec_mark_unit acknowledged k None ack);
  law_mark_succeeded k ack :
    refines ds_ok ds_view (ds_mark_succeeded k ack) (spec_mark_unit succeeded k None ack);
  law_mark_unknown_effect k :
    refines ds_ok ds_view (ds_mark_unknown_effect k) (spec_mark_unit unknown_effect k None None);
  law_get k : refines ds_ok ds_view (ds_get k) (λ l, Some (l !! k, l))
}.

(** A store that is always available: an operation raises only when the
    abstract ledger has no transition for it. *)
Definition total_on {S A} (ok : S → Prop) (view : S → ledger) (m : M S A)
    (spec : ledger → option (A * ledger)) : Prop :=
  ∀ s, ok s → is_Some (spec (view s)) → is_ok (m s).1 = true.

Class DedupeStoreAvailable (S : Type) `{DedupeStoreLaws S} := {
  avail_reserve e :
    total_on ds_ok ds_view (ds_reserve e)
      (Some ∘ spec_reserve reserved e (env_peer_operation_id e));
  avail_reserve_and_dispatch e peer :
    total_on ds_ok ds_view (ds_reserve_and_dispatch e peer)
      (Some ∘ spec_reserve dispatched e (str_or peer (env_peer_operation_id e)));
  avail_mark_dispatched k peer :
    total_on ds_ok ds_view (ds_mark_dispatched k peer) (spec_mark_unit dispatched k peer None);
  avail_mark_acknowledged k ack :
    total_on ds_ok ds_view (ds_mark_acknowledged k ack) (spec_mark_unit acknowledged k None ack);
  avail_mark_succeeded k ack :
    total_on ds_ok ds_view (ds_mark_succeeded k ack) (spec_mark_unit succeeded k None ack);
  avail_mark_unknown_effect k :
    total_on ds_ok ds_view (ds_mark_unknown_effect k) (spec_mark_unit unknown_effect k None None);
  avail_get k : total_on ds_ok ds_view (ds_get k) (λ l, Some (l !! k, l))
}.

(** One operation of a lawful store: the ledger's step, or an exception that
    leaves the ledger alone and, on an available store, comes only from a step
    that the ledger does not have. *)
Lemma wp_refines {S A} `{DedupeStoreLaws S} (m : M S A) spec (Q : A → S → Prop)
    (Ex : exn → S → Prop) s :
  refines ds_ok ds_view m spec → (DedupeStoreAvailable S → total_on ds_ok ds_view m spec) →
  ds_ok s →
  (∀ a s', ds_ok s' → spec (ds_view s) = Some (a, ds_view s') → Q a s') →
  (∀ e s', ds_ok s' → ds_view s' = ds_view s → is_Exception e = true →
     (DedupeStoreAvailable S → spec (ds_view s) = None) → Ex e s') →
  wp m Q Ex s.
Proof.
  intros Hm Ht Hok HQ HE. unfold wp. specialize (Hm _ Hok).
  assert (DedupeStoreAvailable S → is_Some (spec (ds_view s)) → is_ok (m s).1 = true) as Ht'.
  { intros Hav. by apply Ht. }
  destruct (m s) as [[a|e] s']; simpl in *.
  - destruct Hm. by apply HQ.
  - destruct Hm as (? & ? & ?). apply HE; [done..|].
    intros Hav. destruct (spec _) as [x|] eqn:Hs; [|done]. by discriminate Ht'.
Qed.

(** ** The in-memory store *)
Module InMemoryDedupeStore.
(** [_records_by_key]. *)
Record t := { _records_by_key : ledger }.

Definition __init__ : t := {| _records_by_key := ∅ |}.

Definition _put (k : string) (r : DedupeRecord) : M t unit :=
  modify (λ s, {| _records_by_key := <[k := r]> (_records_by_key s) |}).

Definition state_error (msg : string) : exn := Exn DedupeStoreStateError msg.

Definition cannot (from : DedupeState) (to : string) : exn :=
  state_error ("Cannot transition " +:+ dedupe_state_str from +:+ " -> " +:+ to +:+ ".").

Definition get (key : string) : M t (option DedupeRecord) :=
  gets (λ s, _records_by_key s !! key).

Definition _get_required_record (key : string) : M t DedupeRecord :=
  record ← gets (λ s, _records_by_key s !! key);
  match record with
  | None => raise (state_error ("Unknown dispatch_idempotency_key: " +:+ key +:+ "."))
  | Some r => mret r
  end.

Definition reserve (envelope : IdempotencyEnvelope) : M t DedupeReservation :=
  existing_record ← gets (λ s, _records_by_key s !! env_dispatch_idempotency_key envelope);
  match existing_record with
  | Some existing =>
      mret {| accepted := false; reason := duplicate; existing_record := Some existing |}
  | None =>
      _put (env_dispatch_idempotency_key envelope)
        {| rec_dispatch_idempotency_key := env_dispatch_idempotency_key envelope;
           rec_operation_fingerprint := env_operation_fingerprint envelope;
           rec_attempt_seq := env_attempt_seq envelope;
           rec_state := reserved;
           rec_peer_operation_id := env_peer_operation_id envelope;
           rec_external_ack_ref := None |};;
      mret {| accepted := true; reason := accepted_reason; existing_record := None |}
  end.

Definition mark_dispatched (key : string) (peer_operation_id : option string) : M t unit :=
  record ← _get_required_record key;
  if decide (rec_state record ∉ [reserved; dispatched])
  then raise (cannot (rec_state record) "dispatched")
  else _put key
    {| rec_dispatch_idempotency_key := rec_dispatch_idempotency_key record;
       rec_operation_fingerprint := rec_operation_fingerprint record;
       rec_attempt_seq := rec_attempt_seq record;
       rec_state := dispatched;
       rec_peer_operation_id := str_or peer_operation_id (rec_peer_operation_id record);
       rec_external_ack_ref := rec_external_ack_ref record |}.

Definition mark_acknowledged (key : string) (external_ack_ref : option string) : M t unit :=
  record ← _get_required_record key;
  if decide (rec_state record ∉ [dispatched; acknowledged])
  then raise (cannot (rec_state record) "acknowledged")
  else _put key
    {| rec_dispatch_idempotency_key := rec_dispatch_idempotency_key record;
       rec_operation_fingerprint := rec_operation_fingerprint record;
       rec_attempt_seq := rec_attempt_seq record;
       rec_state := acknowledged;
       rec_peer_operation_id := rec_peer_operation_id record;
       rec_external_ack_ref := str_or external_ack_ref (rec_external_ack_ref record) |}.

Definition mark_succeeded (key : string) (external_ack_ref : option string) : M t unit :=
  record ← _get_required_record key;
  if decide (rec_state record ∉ [acknowledged; succeeded])
  then raise (cannot (rec_state record) "succeeded")
  else _put key
    {| rec_dispatch_idempotency_key := rec_dispatch_idempotency_key record;
       rec_operation_fingerprint := rec_operation_fingerprint record;
       rec_attempt_seq := rec_attempt_seq record;
       rec_state := succeeded;
       rec_peer_operation_id := rec_peer_operation_id record;
       rec_external_ack_ref := str_or external_ack_ref (rec_external_ack_ref record) |}.

Definition mark_unknown_effect (key : string) : M t unit :=
  record ← _get_required_record key;
  if decide (rec_state record ∉ [dispatched; unknown_effect])
  then raise (cannot (rec_state record) "unknown_effect")
  else _put key
    {| rec_dispatch_idempotency_key := rec_dispatch_idempotency_key record;
       rec_operation_fingerprint := rec_operation_fingerprint record;
       rec_attempt_seq := rec_attempt_seq record;
       rec_state := unknown_effect;
       rec_peer_operation_id := rec_peer_operation_id record;
       rec_external_ack_ref := rec_external_ack_ref record |}.

Definition reserve_and_dispatch (envelope : IdempotencyEnvelope)
    (peer_operation_id : option string) : M t DedupeReservation :=
  existing_record ← gets (λ s, _records_by_key s !! env_dispatch_idempotency_key envelope);
  match existing_record with
  | Some existing =>
      mret {| accepted := false; reason := duplicate; existing_record := Some existing |}
  | None =>
      _put (env_dispatch_idempotency_key envelope)
        {| rec_dispatch_idempotency_key := env_dispatch_idempotency_key envelope;
           rec_operation_fingerprint := env_operation_fingerprint envelope;
           rec_attempt_seq := env_attempt_seq envelope;
           rec_state := dispatched;
           rec_peer_operation_id :=
             str_or peer_operation_id (env_peer_operation_id envelope);
           rec_external_ack_ref := None |};;
      mret {| accepted := true; reason := accepted_reason; existing_record := None |}
  end.

(** The number of keys that start with [run_id]. *)
Definition count_by_run (run_id : string) : M t Z :=
  gets (λ s, Z.of_nat (length (filter (λ key, py_startswith key run_id = true)
                                 (map fst (map_to_list (_records_by_key s)))))).

#[global] Instance port : DedupeStorePort t := {|
  ds_reserve := reserve;
  ds_mark_dispatched := mark_dispatched;
  ds_mark_acknowledged := mark_acknowledged;
  ds_mark_succeeded := mark_succeeded;
  ds_mark_unknown_effect := mark_unknown_effect;
  ds_reserve_and_dispatch := reserve_and_dispatch;
  ds_get := get;
  ds_count_by_run := count_by_run
|}.

(** *** The in-memory store meets the contract *)
Local Abbreviation refines := (refines (λ _ : t, True) _records_by_key).
Local Abbreviation total_on := (total_on (λ _ : t, True) _records_by_key).

(** Unfold an operation and its specification down to the map lookups and
    the legality tests, and split on them. *)
Ltac ledger_unfold :=
  unfold refines, total_on, spec_reserve, spec_mark_unit, spec_mark,
    reserve, reserve_and_dispatch, mark_dispatched, mark_acknowledged, mark_succeeded,
    mark_unknown_effect, get, _get_required_record, _put;
  unfold mbind, M_bind, option_bind, mret, M_ret, fmap, option_fmap, option_map, compose,
    gets, raise, modify; cbn.
Ltac ledger_cases :=
  ledger_unfold; intros; ledger_unfold;
  repeat first [ destruct (_records_by_key _ !! _); cbn in * | case_decide; cbn in * ].

Lemma refines_reserve e :
  refines (reserve e) (Some ∘ spec_reserve reserved e (env_peer_operation_id e)).
Proof. by ledger_cases. Qed.

Lemma refines_reserve_and_dispatch e peer :
  refines (reserve_and_dispatch e peer)
    (Some ∘ spec_reserve dispatched e (str_or peer (env_peer_operation_id e))).
Proof. by ledger_cases. Qed.

Lemma refines_mark_dispatched k peer :
  refines (mark_dispatched k peer) (spec_mark_unit dispatched k peer None).
Proof. ledger_cases; by naive_solver. Qed.

Lemma refines_mark_acknowledged k ack :
  refines (mark_acknowledged k ack) (spec_mark_unit acknowledged k None ack).
Proof. ledger_cases; by naive_solver. Qed.

Lemma refines_mark_succeeded k ack :
  refines (mark_succeeded k ack) (spec_mark_unit succeeded k None ack).
Proof. ledger_cases; by naive_solver. Qed.

Lemma refines_mark_unknown_effect k :
  refines (mark_unknown_effect k) (spec_mark_unit unknown_effect k None None).
Proof. ledger_cases; by naive_solver. Qed.

Lemma refines_get k : refines (get k) (λ l, Some (l !! k, l)).
Proof. by ledger_cases. Qed.

#[global] Instance laws : DedupeStoreLaws t := {|
  ds_ok := λ _, True;
  ds_view := _records_by_key;
  law_reserve := refines_reserve;
  law_reserve_and_dispatch := refines_reserve_and_dispatch;
  law_mark_dispatched := refines_mark_dispatched;
  law_mark_acknowledged := refines_mark_acknowledged;
  law_mark_succeeded := refines_mark_succeeded;
  law_mark_unknown_effect := refines_mark_unknown_effect;
  law_get := refines_get
|}.

#[global] Instance available : DedupeStoreAvailable t.
Proof.
  split; ledger_cases; try done.
  all: match goal with H : is_Some _ |- _ => by destruct H end.
Qed.
End InMemoryDedupeStore.

(** ** Histories of store operations *)
Inductive store_op :=
  | OpReserve (e : IdempotencyEnvelope)
  | OpReserveAndDispatch (e : IdempotencyEnvelope) (peer : option string)
  | OpMarkDispatched (k : string) (peer : option string)
  | OpMarkAcknowledged (k : string) (ack : option string)
  | OpMarkSucceeded (k : string) (ack : option string)
  | OpMarkUnknownEffect (k : string)
  | OpGet (k : string).

Inductive op_result :=
  | ResReservation (r : DedupeReservation)
  | ResUnit
  | ResRecord (r : option DedupeRecord).

Definition run_op {S} `{DedupeStorePort S} (op : store_op) : M S op_result :=
  match op with
  | OpReserve e => r ← ds_reserve e; mret (ResReservation r)
  | OpReserveAndDispatch e peer => r ← ds_reserve_and_dispatch e peer; mret (ResReservation r)
  | OpMarkDispatched k peer => ds_mark_dispatched k peer;; mret ResUnit
  | OpMarkAcknowledged k ack => ds_mark_acknowledged k ack;; mret ResUnit
  | OpMarkSucceeded k ack => ds_mark_succeeded k ack;; mret ResUnit
  | OpMarkUnknownEffect k => ds_mark_unknown_effect k;; mret ResUnit
  | OpGet k => r ← ds_get k; mret (ResRecord r)
  end.

(** The same operation on the abstract ledger. *)
Definition spec_op (op : store_op) (l : ledger) : option (op_result * ledger) :=
  let unit_result (o : option ledger) := (λ l', (ResUnit, l')) <$> o in
  match op with
  | OpReserve e =>
      let '(r, l') := spec_reserve reserved e (env_peer_operation_id e) l in
      Some (ResReservation r, l')
  | OpReserveAndDispatch e peer =>
      let '(r, l') := spec_reserve dispatched e (str_or peer (env_peer_operation_id e)) l in
      Some (ResReservation r, l')
  | OpMarkDispatched k peer => unit_result (spec_mark dispatched k peer None l)
  | OpMarkAcknowledged k ack => unit_result (spec_mark acknowledged k None ack l)
  | OpMarkSucceeded k ack => unit_result (spec_mark succeeded k None ack l)
  | OpMarkUnknownEffect k => unit_result (spec_mark unknown_effect k None None l)
  | OpGet k => Some (ResRecord (l !! k), l)
  end.

(** The key an operation reserved, if it did. *)
Definition accepted_key (op : store_op) (r : outcome op_result) : list string :=
  match op, r with
  | (OpReserve e | OpReserveAndDispatch e _), Ok (ResReservation res) =>
      if accepted res then [env_dispatch_idempotency_key e] else []
  | _, _ => []
  end.

(** Run a history, exceptions included; collect the keys it reserved. *)
Fixpoint run_history {S} `{DedupeStorePort S} (ops : list store_op) (s : S) : list string * S :=
  match ops with
  | [] => ([], s)
  | op :: ops' =>
      let '(r, s1) := run_op op s in
      let '(ks, s2) := run_history ops' s1 in
      (accepted_key op r ++ ks, s2)
  end.

(** The edges of the record state machine. *)
Inductive state_edge : DedupeState → DedupeState → Prop :=
  | edge_dispatch : state_edge reserved dispatched
  | edge_acknowledge : state_edge dispatched acknowledged
  | edge_unknown : state_edge dispatched unknown_effect
  | edge_succeed : state_edge acknowledged succeeded.

(** What may happen to a record: it keeps its identity and moves forward. *)
Record evolves (r r' : DedupeRecord) : Prop := {
  ev_key : rec_dispatch_idempotency_key r' = rec_dispatch_idempotency_key r;
  ev_fingerprint : rec_operation_fingerprint r' = rec_operation_fingerprint r;
  ev_attempt : rec_attempt_seq r' = rec_attempt_seq r;
  ev_state : rtc state_edge (rec_state r) (rec_state r')
}.

#[export] Instance evolves_refl : Reflexive evolves.
Proof. intros r. by split. Qed.
#[export] Instance evolves_trans : Transitive evolves.
Proof. intros r1 r2 r3 [] []. split; try congruence. by etrans. Qed.

(** Every record of [l] is still in [l'], evolved. *)
Definition ledger_le (l l' : ledger) : Prop :=
  ∀ k r, l !! k = Some r → ∃ r', l' !! k = Some r' ∧ evolves r r'.

#[export] Instance ledger_le_preorder : PreOrder ledger_le.
Proof.
  split.
  - intros l k r Hr. by exists r.
  - intros l1 l2 l3 H12 H23 k r Hr.
    destruct (H12 k r Hr) as (r2 & H2 & E12). destruct (H23 k r2 H2) as (r3 & ? & E23).
    exists r3. split; [done|]. by etrans.
Qed.

Lemma legal_source_edge st target :
  st ∈ legal_sources target → rtc state_edge st target.
Proof.
  destruct target; simpl; intros H; set_unfold in H;
    destruct_or?; subst; try done; apply rtc_once; constructor.
Qed.

Lemma spec_mark_le target k peer ack l l' :
  spec_mark target k peer ack l = Some l' → ledger_le l l'.
Proof.
  unfold spec_mark, mbind, option_bind. intros H k' r Hr.
  destruct (l !! k) as [r0|] eqn:Hk; [|done]. case_decide as Hlegal; simplify_eq.
  destruct (decide (k = k')) as [<-|Hne]; simplify_map_eq; [|by exists r].
  eexists; split; [done|]. split; try done. by apply legal_source_edge.
Qed.

Lemma spec_reserve_le st e peer l : ledger_le l (spec_reserve st e peer l).2.
Proof.
  unfold spec_reserve. destruct (l !! _) eqn:Hk; [done|].
  intros k r Hr. exists r. split; [|done]. simpl.
  rewrite lookup_insert_ne; [done|]. congruence.
Qed.

Lemma spec_op_le op l a l' : spec_op op l = Some (a, l') → ledger_le l l'.
Proof.
  destruct op; simpl; intros H.
  1,2: match type of H with context [spec_reserve ?st ?e ?p ?m] =>
         pose proof (spec_reserve_le st e p m) as Hle;
         destruct (spec_reserve st e p m); by simplify_eq/= end.
  1-4: apply fmap_Some in H as (l'' & Hm & [= -> ->]); by eapply spec_mark_le.
  by simplify_eq.
Qed.

Section history.
Context {S : Type} `{DedupeStoreLaws S}.
Implicit Types s : S.

(** Every operation of a lawful store takes the ledger's step, or raises and
    leaves the ledger alone. *)
Lemma run_op_refines op : refines ds_ok ds_view (run_op op) (spec_op op).
Proof.
  destruct op; intros s Hs; simpl; unfold mbind, M_bind, mret, M_ret;
    [ pose proof (law_reserve e s Hs) as L
    | pose proof (law_reserve_and_dispatch e peer s Hs) as L
    | pose proof (law_mark_dispatched k peer s Hs) as L
    | pose proof (law_mark_acknowledged k ack s Hs) as L
    | pose proof (law_mark_succeeded k ack s Hs) as L
    | pose proof (law_mark_unknown_effect k s Hs) as L
    | pose proof (law_get k s Hs) as L ];
    unfold compose, spec_mark_unit in L;
    (case_match; case_match; [destruct L as [? L]; simplify_eq/=|done]);
    split; try done; try (by rewrite L); try congruence.
  all: apply fmap_Some in L as (l' & -> & [= -> ->]); done.
Qed.

Lemma run_op_step op s r s' :
  ds_ok s → run_op op s = (r, s') →
  ds_ok s' ∧
  match r with
  | Ok a => spec_op op (ds_view s) = Some (a, ds_view s')
  | Raise e => is_Exception e = true ∧ ds_view s' = ds_view s
  end.
Proof.
  intros Hs Hr. pose proof (run_op_refines op s Hs) as L. rewrite Hr in L. by destruct r.
Qed.

Lemma run_op_le op s r s' :
  ds_ok s → run_op op s = (r, s') → ds_ok s' ∧ ledger_le (ds_view s) (ds_view s').
Proof.
  intros Hs Hr. destruct (run_op_step op s r s' Hs Hr) as [Hs' Hstep]. split; [done|].
  destruct r as [a|e]; [by eapply spec_op_le | by destruct Hstep as [_ ->]].
Qed.

Lemma run_history_le ops s ks s' :
  ds_ok s → run_history ops s = (ks, s') → ds_ok s' ∧ ledger_le (ds_view s) (ds_view s').
Proof.
  revert s ks s'. induction ops as [|op ops IH]; intros s ks s' Hs; simpl.
  { by intros [= <- <-]. }
  destruct (run_op op s) as [r s1] eqn:Hr. destruct (run_history ops s1) as [ks1 s2] eqn:Hh.
  intros [= <- <-]. destruct (run_op_le op s r s1 Hs Hr) as [Hs1 ?].
  destruct (IH s1 ks1 s2 Hs1 Hh). split; [done|]. by etrans.
Qed.

(** An accepted reservation was of an absent key, and leaves it present. *)
Lemma accepted_key_fresh op s r s' k :
  ds_ok s → run_op op s = (r, s') → k ∈ accepted_key op r →
  ds_view s !! k = None ∧ is_Some (ds_view s' !! k).
Proof.
  intros Hs Hr Hk. destruct (run_op_step op s r s' Hs Hr) as [_ Hstep].
  destruct op, r as [[res| |]|]; simpl in *; try by inversion Hk.
  all: destruct (accepted res) eqn:Ha; [|by inversion Hk].
  all: apply list_elem_of_singleton in Hk as ->.
  all: unfold spec_reserve in Hstep; destruct (ds_view s !! _) eqn:Hl;
    simplify_eq/=; split; [done|];
    match goal with Hv : <[_ := _]> _ = _ |- _ =>
      rewrite <- Hv, lookup_insert_eq; by eexists end.
Qed.

Lemma accepted_key_NoDup op r : NoDup (accepted_key op r).
Proof. destruct op, r as [[]|]; simpl; try case_match; repeat constructor; set_solver. Qed.
End history.

(** Over any history of a lawful store, no idempotency key is ever
    accepted twice, and a key that already had a record is never accepted. *)
Theorem dedupe_reserve_at_most_once {S} `{DedupeStoreLaws S} ops (s : S) :
  ds_ok s →
  NoDup (run_history ops s).1 ∧
  ∀ k, k ∈ (run_history ops s).1 → ds_view s !! k = None.
Proof.
  revert s. induction ops as [|op ops IH]; intros s Hs; simpl.
  { split; [constructor|]. set_solver. }
  destruct (run_op op s) as [r s1] eqn:Hr. destruct (run_op_le op s r s1 Hs Hr) as [Hs1 Hle].
  specialize (IH s1 Hs1). destruct (run_history ops s1) as [ks1 s2]; simpl in *.
  destruct IH as [Hnd Hfresh].
  assert (∀ k, k ∈ ks1 → ds_view s !! k = None) as Hold.
  { intros k Hk. apply eq_None_not_Some. intros [r0 Hr0].
    destruct (Hle k r0 Hr0) as (r1 & Hr1 & _). by rewrite (Hfresh k Hk) in Hr1. }
  split.
  - apply NoDup_app. split_and!; [apply accepted_key_NoDup | | done].
    intros k Hk Hk1. destruct (accepted_key_fresh op s r s1 k Hs Hr Hk) as [_ [? Hsome]].
    by rewrite (Hfresh k Hk1) in Hsome.
  - intros k [Hk|Hk]%elem_of_app; [|by apply Hold].
    by destruct (accepted_key_fresh op s r s1 k Hs Hr Hk).
Qed.

(** C4: each operation of the in-memory store is exactly the ledger operation:
    it returns the specified result and stores the specified ledger, and where
    the ledger has no transition (unknown key, illegal source state) it raises
    DedupeStoreStateError and leaves the store unchanged. *)
Theorem in_memory_exact op (s : InMemoryDedupeStore.t) :
  match spec_op op (InMemoryDedupeStore._records_by_key s) with
  | Some (a, l) => run_op op s = (Ok a, {| InMemoryDedupeStore._records_by_key := l |})
  | None => ∃ msg, run_op op s = (Raise (Exn DedupeStoreStateError msg), s)
  end.
Proof.
  destruct s as [l]. destruct op; simpl; unfold spec_reserve, spec_mark;
    InMemoryDedupeStore.ledger_unfold;
    (destruct (l !! _) as [r|] eqn:Hk; simpl; [try (destruct (rec_state r); simpl)|]);
    try done; eauto.
Qed.

(** A concrete store and history. *)
Definition example_envelope : IdempotencyEnvelope := {|
  env_dispatch_idempotency_key := "dispatch:run-1:a1:h";
  env_operation_fingerprint := "run-1:start:a1:0";
  env_attempt_seq := 1;
  env_effect_scope := "idempotent_write";
  env_capability_snapshot_hash := "h";
  env_host_kind := local_cli;
  env_peer_operation_id := None;
  env_policy_snapshot_ref := None;
  env_rule_bundle_hash := None |}.

Definition example_history : list store_op :=
  [ OpReserve example_envelope;
    OpMarkAcknowledged "dispatch:run-1:a1:h" None;
    OpMarkDispatched "dispatch:run-1:a1:h" (Some "peer-7");
    OpReserveAndDispatch example_envelope None;
    OpMarkUnknownEffect "dispatch:run-1:a1:h";
    OpMarkDispatched "dispatch:run-1:a1:h" None ].

Lemma dedupe_reserve_at_most_once_witness :
  (run_history example_history InMemoryDedupeStore.__init__).1 = ["dispatch:run-1:a1:h"] ∧
  NoDup (run_history example_history InMemoryDedupeStore.__init__).1.
Proof.
  split; [vm_compute; reflexivity|].
  apply (dedupe_reserve_at_most_once example_history InMemoryDedupeStore.__init__).
  exact I.
Defined.
