(* ===== verification/RetryExecutor.v ===== *)
(** * Retries of transient failures ([kernel/retry_executor.py])

    The transient errors of kernel/contracts.py and the executor that retries
    them with backoff.  The observability hook is left out. *)
From S2P Require Export Prelude.

(** ** Transient errors

    The attribute [retry_after_ms] of a rate limit is left out: only its
    constructor reads it. *)
Inductive transient_class :=
  | TransientExecutionError | ConnectionTransientError | TimeoutTransientError
  | RateLimitTransientError | ServiceOverloadTransientError.

#[export] Instance transient_class_eq_dec : EqDecision transient_class.
Proof. solve_decision. Defined.

Record transient_error := {
  tx_class : transient_class;
  tx_message : string;
  backoff_hint_ms : option Z;
  may_have_executed : bool
}.

Definition transient (cls : transient_class) (message : string) (hint : option Z) (executed : bool)
    : transient_error :=
  {| tx_class := cls; tx_message := message; backoff_hint_ms := hint; may_have_executed := executed |}.

(** The keyword arguments of a constructor, [None] where not given. *)
Record transient_kwargs := {
  kw_backoff_hint_ms : option (option Z);
  kw_may_have_executed : option bool
}.

Definition duplicate_keyword {A} (name : string) : outcome A :=
  Raise (Exn TypeError ("got multiple values for keyword argument '" +:+ name +:+ "'")).

Definition new_transient (message : string) (kw : transient_kwargs) : transient_error :=
  transient TransientExecutionError message (default None (kw_backoff_hint_ms kw))
    (default false (kw_may_have_executed kw)).

(** The subclasses that fix [may_have_executed]. *)
Definition new_with_default (cls : transient_class) (executed : bool) (message : string)
    (kw : transient_kwargs) : outcome transient_error :=
  match kw_may_have_executed kw with
  | Some _ => duplicate_keyword "may_have_executed"
  | None => Ok (transient cls message (default None (kw_backoff_hint_ms kw)) executed)
  end.

Definition new_connection_transient := new_with_default ConnectionTransientError false.
Definition new_timeout_transient := new_with_default TimeoutTransientError true.
Definition new_service_overload_transient := new_with_default ServiceOverloadTransientError false.

(** [retry_after_ms or kwargs.pop("backoff_hint_ms", None)]: the key stays in
    [kwargs] where the first operand decides. *)
Definition new_rate_limit_transient (message : string) (retry_after_ms : option Z)
    (kw : transient_kwargs) : outcome transient_error :=
  match kw_may_have_executed kw with
  | Some _ => duplicate_keyword "may_have_executed"
  | None =>
      match retry_after_ms with
      | Some ms =>
          if decide (ms ≠ 0%Z) then
            match kw_backoff_hint_ms kw with
            | Some _ => duplicate_keyword "backoff_hint_ms"
            | None => Ok (transient RateLimitTransientError message (Some ms) false)
            end
          else Ok (transient RateLimitTransientError message (default None (kw_backoff_hint_ms kw)) false)
      | None => Ok (transient RateLimitTransientError message (default None (kw_backoff_hint_ms kw)) false)
      end
  end.

(** ** The executor *)

(** What one call of the inner executor comes to, other exceptions aside. *)
Inductive attempt_result (A : Type) := Done (a : A) | Transient (e : transient_error).
Arguments Done {A}.
Arguments Transient {A}.

(** The calls made and the milliseconds slept are kept as history variables;
    [random] has what the generator yields next. *)
Record retry_world (S A : Type) := RetryWorld {
  rw_inner : S;
  rw_random : list Z;
  rw_slept : list Z;
  rw_results : list (outcome (attempt_result A))
}.
Arguments RetryWorld {S A}.
Arguments rw_inner {S A}.
Arguments rw_random {S A}.
Arguments rw_slept {S A}.
Arguments rw_results {S A}.

Module RetryingExecutorService.
Record settings := {
  _max_attempts : Z;
  _base_delay_ms : Z;
  _jitter_ms : Z
}.

Definition __init__ (max_attempts base_delay_ms jitter_ms : Z) : outcome settings :=
  if (max_attempts <? 1)%Z
  then Raise (Exn ValueError ("max_attempts must be >= 1, got " +:+ pretty max_attempts))
  else Ok {| _max_attempts := max_attempts; _base_delay_ms := base_delay_ms; _jitter_ms := jitter_ms |}.

Section executor.
Context {S A : Type} (inner_execute : M S (attempt_result A)) (cfg : settings).
Abbreviation W := (retry_world S A).

(** [random.randint(0, b)]. *)
Definition randint (b : Z) : M W Z :=
  if (b <? 0)%Z then raise (Exn ValueError "empty range in randrange")
  else
    w ← gets id;
    modify (λ w, RetryWorld (rw_inner w) (tail (rw_random w)) (rw_slept w) (rw_results w));;
    mret (default 0 (head (rw_random w)) mod (b + 1))%Z.

Definition sleep (ms : Z) : M W unit :=
  modify (λ w, RetryWorld (rw_inner w) (rw_random w) (rw_slept w ++ [ms]) (rw_results w)).

(** [await self._inner.execute(action, **kwargs)]. *)
Definition call : M W (attempt_result A) := λ w,
  let '(o, s) := inner_execute (rw_inner w) in
  (o, RetryWorld s (rw_random w) (rw_slept w) (rw_results w ++ [o])).

Definition multiplier (cls : transient_class) : Z :=
  match cls with
  | ConnectionTransientError => 1
  | TimeoutTransientError => 4
  | ServiceOverloadTransientError => 2
  | _ => 1
  end.

(** The delay without jitter. *)
Definition computed (exc : transient_error) (attempt : Z) : Z :=
  match backoff_hint_ms exc with
  | Some hint => Z.max hint (_base_delay_ms cfg)
  | None => _base_delay_ms cfg * multiplier (tx_class exc) * 2 ^ attempt
  end.

Definition _compute_delay (exc : transient_error) (attempt : Z) : M W Z :=
  jitter ← randint (_jitter_ms cfg);
  mret (computed exc attempt + jitter)%Z.

(** The [for] loop over the attempts left; it ends with [raise last_exc]. *)
Fixpoint attempts (todo : list Z) (last_exc : option transient_error) : M W (attempt_result A) :=
  match todo with
  | [] =>
      match last_exc with
      | Some exc => mret (Transient exc)
      | None => raise (Exn TypeError "exceptions must derive from BaseException")
      end
  | attempt :: todo' =>
      result ← call;
      match result with
      | Done a => mret (Done a)
      | Transient exc =>
          (if (attempt <? _max_attempts cfg - 1)%Z then
             delay_ms ← _compute_delay exc attempt;
             sleep delay_ms
           else mret tt);;
          attempts todo' (Some exc)
      end
  end.

Definition execute : M W (attempt_result A) :=
  attempts (map Z.of_nat (seq 0 (Z.to_nat (_max_attempts cfg)))) None.
End executor.
End RetryingExecutorService.

(** ** Attempts and delays *)
Section retries.
Context {S A : Type} (inner_execute : M S (attempt_result A)) (cfg : RetryingExecutorService.settings).
Abbreviation W := (retry_world S A).
Implicit Types w : W.
Import RetryingExecutorService.
Context (Hjitter : (0 ≤ _jitter_ms cfg)%Z).

Definition delay_for (exc : transient_error) (attempt d : Z) : Prop :=
  (computed cfg exc attempt ≤ d ≤ computed cfg exc attempt + _jitter_ms cfg)%Z.

(** One delay per failure, by the number of its attempt. *)
Fixpoint delays_from (n : Z) (excs : list transient_error) (ds : list Z) : Prop :=
  match excs, ds with
  | [], [] => True
  | exc :: excs', d :: ds' => delay_for exc n d ∧ delays_from (n + 1) excs' ds'
  | _, _ => False
  end.

(** From attempt [n] on: the failures [excs] are slept off, the last call
    decides, and is a transient failure only where it is the last allowed. *)
Definition retried (n : Z) w (o : outcome (attempt_result A)) w' : Prop :=
  ∃ excs ds,
    rw_results w' = rw_results w ++ map (λ e, Ok (Transient e)) excs ++ [o] ∧
    rw_slept w' = rw_slept w ++ ds ∧ delays_from n excs ds ∧
    (n + Z.of_nat (length excs) < _max_attempts cfg)%Z ∧
    ∀ e, o = Ok (Transient e) → (n + Z.of_nat (length excs) + 1 = _max_attempts cfg)%Z.

Lemma delay_drawn exc n w :
  ∃ d r, _compute_delay cfg exc n w = (Ok d, RetryWorld (rw_inner w) r (rw_slept w) (rw_results w)) ∧
    delay_for exc n d.
Proof.
  unfold _compute_delay, randint. rewrite (proj2 (Z.ltb_ge _ _) Hjitter).
  unfold gets, modify, mbind, M_bind. eexists _, _. split; [done|]. unfold delay_for.
  pose proof (Z.mod_pos_bound (default 0%Z (head (rw_random w))) (_jitter_ms cfg + 1)). 
  change (@id W w) with w. lia.
Qed.

Lemma call_logs w :
  ∃ s o, call inner_execute w =
    (o, RetryWorld s (rw_random w) (rw_slept w) (rw_results w ++ [o])).
Proof. unfold call. destruct (inner_execute (rw_inner w)) as [o s]. by exists s, o. Qed.

Lemma seq_from n m :
  map (λ k, n + Z.of_nat k)%Z (seq 0 (Datatypes.S m)) =
  n :: map (λ k, n + 1 + Z.of_nat k)%Z (seq 0 m).
Proof.
  simpl. rewrite Z.add_0_r. f_equal. rewrite <- seq_shift, map_map. apply map_ext. lia.
Qed.

Lemma attempts_retried m n last w :
  (_max_attempts cfg = n + Z.of_nat (Datatypes.S m))%Z →
  let '(o, w') := attempts inner_execute cfg
    (map (λ k, n + Z.of_nat k)%Z (seq 0 (Datatypes.S m))) last w in
  retried n w o w'.
Proof.
  revert n last w. induction m as [|m IH]; intros n last w Hn; rewrite seq_from; cbn [attempts];
    unfold mbind, M_bind; destruct (call_logs w) as (s & o & ->); destruct o as [[a|exc]|e];
    try (exists [], []; simpl; rewrite app_nil_r; split_and!; [done..|lia|done]).
  - rewrite (proj2 (Z.ltb_ge _ _)) by lia. simpl. exists [], []. simpl. rewrite app_nil_r.
    split_and!; [done..|lia|]. intros ? _. lia.
  - rewrite (proj2 (Z.ltb_lt _ _)) by lia.
    destruct (delay_drawn exc n (RetryWorld s (rw_random w) (rw_slept w)
      (rw_results w ++ [Ok (Transient exc)]))) as (d & r & -> & Hd).
    unfold sleep, modify. simpl rw_inner. simpl rw_slept. simpl rw_random. simpl rw_results.
    specialize (IH (n + 1)%Z (Some exc) (RetryWorld s r (rw_slept w ++ [d])
      (rw_results w ++ [Ok (Transient exc)])) ltac:(lia)).
    destruct (attempts _ _ _ _ _) as [o' w']. destruct IH as (excs & ds & Hr & Hs & Hds & Hlt & Hend).
    simpl in Hr, Hs. exists (exc :: excs), (d :: ds). simpl length.
    rewrite Hr, Hs, <- !app_assoc. split_and!; [done|done|by split|lia|].
    intros e' He'. specialize (Hend e' He'). lia.
Qed.
End retries.

(** C33: the calls of one [execute].  The inner executor is called at least once
    and at most [max_attempts] times; every call but the last fails
    transiently, and what the last one does, a value, another exception or a
    transient failure, is what [execute] does; a transient failure comes out
    only of the last allowed attempt.  Between two calls it sleeps once, for at
    least the backoff of the failure and its attempt and at most the jitter
    longer. *)
Theorem retries_bounded {S A : Type} (inner_execute : M S (attempt_result A))
    (max_attempts base_delay_ms jitter_ms : Z) (cfg : RetryingExecutorService.settings)
    (w w' : retry_world S A) (o : outcome (attempt_result A))
    (Hcfg : RetryingExecutorService.__init__ max_attempts base_delay_ms jitter_ms = Ok cfg)
    (Hjitter : (0 ≤ jitter_ms)%Z)
    (Hrun : RetryingExecutorService.execute inner_execute cfg w = (o, w')) :
  ∃ excs ds,
    rw_results w' = rw_results w ++ map (λ e, Ok (Transient e)) excs ++ [o] ∧
    rw_slept w' = rw_slept w ++ ds ∧ delays_from cfg 0 excs ds ∧
    (Z.of_nat (length excs) < max_attempts)%Z ∧
    ∀ e, o = Ok (Transient e) → (Z.of_nat (length excs) + 1 = max_attempts)%Z.
Proof.
  unfold RetryingExecutorService.__init__ in Hcfg.
  destruct (max_attempts <? 1)%Z eqn:Hm; [done|]. injection Hcfg as <-. apply Z.ltb_ge in Hm.
  set (cfg := RetryingExecutorService.Build_settings max_attempts base_delay_ms jitter_ms) in *.
  unfold RetryingExecutorService.execute in Hrun. simpl in Hrun.
  destruct (Z.to_nat max_attempts) as [|m] eqn:Hn; [lia|].
  pose proof (attempts_retried inner_execute cfg Hjitter m 0 None w ltac:(simpl; lia)) as Hr.
  change (map (λ k, 0 + Z.of_nat k)%Z (seq 0 (Datatypes.S m)))
    with (map Z.of_nat (seq 0 (Datatypes.S m))) in Hr. rewrite Hrun in Hr.
  destruct Hr as (excs & ds & ? & ? & ? & Hlt & Hend). exists excs, ds. simpl in Hlt, Hend.
  split_and!; [done..|lia|]. intros e He. specialize (Hend e He). lia.
Qed.

(** Whether a failed attempt may have taken effect plays no role. *)
Lemma attempt_ignores_may_have_executed {S A} (cfg : RetryingExecutorService.settings) cls msg hint b1 b2 n
    (w : retry_world S A) :
  RetryingExecutorService._compute_delay cfg (transient cls msg hint b1) n w =
  RetryingExecutorService._compute_delay cfg (transient cls msg hint b2) n w.
Proof. done. Qed.

Lemma rate_limit_both_hints message ms hint :
  ms ≠ 0%Z →
  new_rate_limit_transient message (Some ms)
    {| kw_backoff_hint_ms := Some hint; kw_may_have_executed := None |} =
  duplicate_keyword "backoff_hint_ms".
Proof. intros Hms. unfold new_rate_limit_transient. simpl. by rewrite decide_True. Qed.

(** ** A slow service

    It times out twice, perhaps after it acted, and then answers. *)
Definition example_slow : M nat (attempt_result string) := λ n,
  (Ok (if decide (n < 2) then Transient (transient TimeoutTransientError "504" None true) else Done "ack"),
   Datatypes.S n).

Definition example_settings : RetryingExecutorService.settings :=
  {| RetryingExecutorService._max_attempts := 3; RetryingExecutorService._base_delay_ms := 100;
     RetryingExecutorService._jitter_ms := 50 |}.

Definition example_world : retry_world nat string := RetryWorld 0 [7; 1234]%Z [] [].

Lemma retries_bounded_witness :
  ∃ o w', RetryingExecutorService.execute example_slow example_settings example_world = (o, w') ∧
    o = Ok (Done "ack") ∧ rw_inner w' = 3 ∧ rw_slept w' = [407; 810]%Z ∧
    ∃ excs ds, rw_slept w' = [] ++ ds ∧ delays_from example_settings 0 excs ds ∧ length excs = 2.
Proof.
  destruct (RetryingExecutorService.execute example_slow example_settings example_world) as [o w'] eqn:Hrun.
  pose proof (retries_bounded example_slow 3 100 50 example_settings example_world w' o eq_refl
    ltac:(lia) Hrun) as (excs & ds & Hr & Hs & Hd & _).
  vm_compute in Hrun. injection Hrun as <- <-. exists (Ok (Done "ack")). eexists.
  split; [reflexivity|]. split; [reflexivity|]. split; [reflexivity|]. split; [reflexivity|].
  exists excs, ds. split; [exact Hs|]. split; [exact Hd|].
  apply (f_equal length) in Hr. simpl in Hr. rewrite length_app, length_map in Hr. simpl in Hr. lia.
Defined.
