(* ===== verification/HostPolicy.v ===== *)
(** * Dispatch host and remote idempotency policy

    [kernel/remote_service_policy.py] and the host-kind resolution that
    [turn_engine.py] and [minimal_runtime.py] each carry a copy of.  The two
    copies differ in the host kinds they recognise: the section is
    parametrised by the recognition function and instantiated twice. *)
From S2P Require Export Contracts.

(** ** Remote-service policy *)
Record RemoteDispatchPolicyDecision := {
  rp_effective_idempotency_level : ExternalIdempotencyLevel;
  rp_default_retry_policy : DefaultRetryPolicy;
  rp_auto_retry_enabled : bool;
  rp_can_claim_guaranteed : bool;
  rp_reason : string
}.

Definition evaluate_remote_service_policy
    (external_level : option ExternalIdempotencyLevel)
    (contract : option RemoteServiceIdempotencyContract) : RemoteDispatchPolicyDecision :=
  let normalized_level := default unknown_level external_level in
  match contract with
  | None =>
      {| rp_effective_idempotency_level :=
           if decide (normalized_level = guaranteed) then best_effort else normalized_level;
         rp_default_retry_policy := no_auto_retry;
         rp_auto_retry_enabled := false;
         rp_can_claim_guaranteed := false;
         rp_reason := "missing_remote_idempotency_contract" |}
  | Some c =>
      let can_claim_guaranteed :=
        bool_decide (normalized_level = guaranteed)
        && accepts_dispatch_idempotency_key c && returns_stable_ack c in
      let effective_level :=
        if can_claim_guaranteed then guaranteed
        else if decide (normalized_level = guaranteed) then best_effort
        else normalized_level in
      {| rp_effective_idempotency_level := effective_level;
         rp_default_retry_policy := default_retry_policy c;
         rp_auto_retry_enabled := bool_decide (default_retry_policy c = bounded_retry);
         rp_can_claim_guaranteed := can_claim_guaranteed;
         rp_reason :=
           if can_claim_guaranteed then "validated_remote_contract"
           else "remote_contract_constrained" |}
  end.

(** ** The contract in the action payload *)
Definition parse_peer_retry_model (v : pyval) : option PeerRetryModel :=
  match v with
  | PStr "unknown" => Some retry_unknown
  | PStr "at_most_once" => Some at_most_once
  | PStr "at_least_once" => Some at_least_once
  | PStr "exactly_once_claimed" => Some exactly_once_claimed
  | _ => None
  end.

Definition parse_default_retry_policy (v : pyval) : option DefaultRetryPolicy :=
  match v with
  | PStr "no_auto_retry" => Some no_auto_retry
  | PStr "bounded_retry" => Some bounded_retry
  | _ => None
  end.

Definition _parse_remote_service_contract (payload : pyval)
    : option RemoteServiceIdempotencyContract :=
  d ← is_dict payload;
  accepts_dispatch_key ← is_bool (py_get "accepts_dispatch_idempotency_key" d);
  stable_ack ← is_bool (py_get "returns_stable_ack" d);
  retry_model ← parse_peer_retry_model (py_get "peer_retry_model" d);
  retry_policy ← parse_default_retry_policy (py_get "default_retry_policy" d);
  Some {| accepts_dispatch_idempotency_key := accepts_dispatch_key;
          returns_stable_ack := stable_ack;
          peer_retry_model := retry_model;
          default_retry_policy := retry_policy |}.

Definition _extract_remote_service_contract (input_json : option pydict)
    : option RemoteServiceIdempotencyContract :=
  match input_json with
  | None => None
  | Some d =>
      let candidates :=
        [ py_get "remote_service_idempotency_contract" d;
          py_get "remote_idempotency_contract" d;
          py_get "idempotency_contract" d ] ++
        match py_get "remote_service" d with
        | PDict r => [ py_get "idempotency_contract" r; py_get "contract" r ]
        | _ => []
        end in
      first_some _parse_remote_service_contract candidates
  end.

(** ** Host-kind resolution, over the recognised kinds *)
Definition tag_prefixes : list string :=
  [ "host:"; "host_kind:"; "dispatch_host:"; "dispatch_host_kind:" ].
Definition host_keys : list string :=
  [ "host_kind"; "dispatch_host_kind"; "host"; "dispatch_host" ].

Section resolve.
Context (normalize_host_kind : pyval → option HostKind).

Definition extract_host_kind_from_tag (tag : string) : option HostKind :=
  let normalized_tag := py_lower (py_strip tag) in
  first_some (λ prefix,
    if py_startswith normalized_tag prefix
    then normalize_host_kind (PStr (py_removeprefix normalized_tag prefix))
    else None) tag_prefixes.

Definition extract_host_kind_from_policy_tags (policy_tags : list string) : option HostKind :=
  first_some extract_host_kind_from_tag policy_tags.

Definition extract_host_kind_from_keys (payload : pydict) : option HostKind :=
  first_some (λ key, normalize_host_kind (py_get key payload)) host_keys.

Definition extract_host_kind_from_payload (payload : pydict) : option HostKind :=
  match extract_host_kind_from_keys payload with
  | Some host_kind => Some host_kind
  | None =>
      match py_get "dispatch" payload with
      | PDict dispatch_payload => extract_host_kind_from_keys dispatch_payload
      | _ => None
      end
  end.

Definition resolve_explicit_host_kind (action : Action) : option HostKind :=
  match extract_host_kind_from_policy_tags (act_policy_tags action) with
  | Some h => Some h
  | None => extract_host_kind_from_payload (default [] (act_input_json action))
  end.

Definition resolve_dispatch_host_kind (action : Action) : HostKind :=
  match resolve_explicit_host_kind action with
  | Some h => h
  | None =>
      if bool_decide (act_effect_class action ≠ READ_ONLY)
         && bool_decide (act_external_idempotency_level action ≠ None)
      then remote_service else local_cli
  end.
End resolve.

Definition parse_host_kind (v : string) : option HostKind :=
  match v with
  | "local_cli" => Some local_cli
  | "local_process" => Some local_process
  | "remote_service" => Some remote_service
  | "cli_process" => Some cli_process
  | "in_process_python" => Some in_process_python
  | _ => None
  end.

(** [turn_engine._normalize_host_kind]: all five literals. *)
Definition _normalize_host_kind (value : pyval) : option HostKind :=
  match value with
  | PStr s => parse_host_kind (py_lower (py_strip s))
  | _ => None
  end.

(** [minimal_runtime._normalize_host_kind]: three of them. *)
Definition minimal_kind (h : HostKind) : bool :=
  match h with local_cli | local_process | remote_service => true | _ => false end.

Definition minimal_normalize_host_kind (value : pyval) : option HostKind :=
  match value with
  | PStr s =>
      match parse_host_kind (py_lower (py_strip s)) with
      | Some h => if minimal_kind h then Some h else None
      | None => None
      end
  | _ => None
  end.

(** ** The turn engine's dispatch policy *)
Record _DispatchPolicy := {
  dp_host_kind : HostKind;
  dp_should_block : bool;
  dp_block_reason : option string;
  dp_remote_policy_decision : option RemoteDispatchPolicyDecision
}.

Definition _resolve_dispatch_policy (action : Action) : _DispatchPolicy :=
  let host_kind := resolve_dispatch_host_kind _normalize_host_kind action in
  if bool_decide (host_kind ≠ remote_service) || bool_decide (act_effect_class action = READ_ONLY)
  then {| dp_host_kind := host_kind; dp_should_block := false; dp_block_reason := None;
          dp_remote_policy_decision := None |}
  else
    let remote_contract := _extract_remote_service_contract (act_input_json action) in
    let remote_policy :=
      evaluate_remote_service_policy (act_external_idempotency_level action) remote_contract in
    let requested_guaranteed :=
      bool_decide (act_external_idempotency_level action = Some guaranteed) in
    if requested_guaranteed && negb (rp_can_claim_guaranteed remote_policy)
    then {| dp_host_kind := host_kind; dp_should_block := true;
            dp_block_reason := Some "idempotency_contract_insufficient";
            dp_remote_policy_decision := Some remote_policy |}
    else {| dp_host_kind := host_kind; dp_should_block := false; dp_block_reason := None;
            dp_remote_policy_decision := Some remote_policy |}.

(** ** Admission's second safety net *)
Definition _requires_remote_idempotency_contract_block (action : Action) : bool :=
  if decide (act_effect_class action = READ_ONLY) then false
  else if decide (act_external_idempotency_level action ≠ Some guaranteed) then false
  else if decide (resolve_dispatch_host_kind minimal_normalize_host_kind action ≠ remote_service)
       then false
  else
    let remote_contract := _extract_remote_service_contract (act_input_json action) in
    let remote_policy :=
      evaluate_remote_service_policy (act_external_idempotency_level action) remote_contract in
    negb (rp_can_claim_guaranteed remote_policy).

(** ** Properties *)
Lemma minimal_normalize_restrict v :
  minimal_normalize_host_kind v =
  match _normalize_host_kind v with
  | Some h => if minimal_kind h then Some h else None
  | None => None
  end.
Proof. by destruct v. Qed.

Section follows.
Context (h : HostKind) (nf ng : pyval → option HostKind).
Context (Hfg : ∀ v, follows h (nf v) (ng v)).

Lemma tag_follows tag :
  follows h (extract_host_kind_from_tag nf tag) (extract_host_kind_from_tag ng tag).
Proof using Hfg. apply first_some_follows. intros p. by case_match. Qed.

Lemma keys_follows d :
  follows h (extract_host_kind_from_keys nf d) (extract_host_kind_from_keys ng d).
Proof using Hfg. apply first_some_follows. auto. Qed.

Lemma payload_follows d :
  follows h (extract_host_kind_from_payload nf d) (extract_host_kind_from_payload ng d).
Proof using Hfg.
  apply follows_or_else; [apply keys_follows|]. case_match; try done. apply keys_follows.
Qed.

Lemma explicit_follows a :
  follows h (resolve_explicit_host_kind nf a) (resolve_explicit_host_kind ng a).
Proof using Hfg.
  apply follows_or_else; [|apply payload_follows]. apply first_some_follows, tag_follows.
Qed.

Lemma dispatch_host_follows a :
  resolve_dispatch_host_kind nf a = h → resolve_dispatch_host_kind ng a = h.
Proof using Hfg.
  pose proof (explicit_follows a) as [HN HS]. unfold resolve_dispatch_host_kind.
  destruct (resolve_explicit_host_kind nf a) as [h'|].
  - intros ->. by rewrite HS.
  - by rewrite HN.
Qed.
End follows.

(** Admission's copy of the resolution agrees wherever the engine's answer is
    a kind both know. *)
Lemma minimal_dispatch_host a :
  minimal_kind (resolve_dispatch_host_kind _normalize_host_kind a) = true →
  resolve_dispatch_host_kind minimal_normalize_host_kind a
  = resolve_dispatch_host_kind _normalize_host_kind a.
Proof.
  intros Hk. eapply dispatch_host_follows; [|done]. intros v.
  rewrite minimal_normalize_restrict. split; intros Hv; rewrite Hv; [done|]. by rewrite Hk.
Qed.

(** The remote policy claims a guaranteed level exactly when the action
    declares it and the contract both accepts dispatch keys and returns stable
    acknowledgements; no other action is upgraded to it, and automatic retry
    is on exactly when a contract asks for bounded retry. *)
Theorem remote_policy_guaranteed_iff level contract :
  let d := evaluate_remote_service_policy level contract in
  (rp_can_claim_guaranteed d = true ↔
     level = Some guaranteed ∧
     ∃ c, contract = Some c ∧ accepts_dispatch_idempotency_key c = true
          ∧ returns_stable_ack c = true) ∧
  (rp_effective_idempotency_level d = guaranteed ↔ rp_can_claim_guaranteed d = true) ∧
  (rp_auto_retry_enabled d = true ↔
     ∃ c, contract = Some c ∧ default_retry_policy c = bounded_retry).
Proof.
  destruct level as [[]|], contract as [[[] [] ? []]|]; vm_compute; naive_solver.
Qed.

(** Admission is a safety net under the turn engine: whenever the engine
    would block an action for an insufficient remote contract, the admission
    gate denies that action too, although its copy of the host resolution
    recognises fewer host kinds. *)
Theorem engine_block_implies_admission_block a :
  dp_should_block (_resolve_dispatch_policy a) = true →
  _requires_remote_idempotency_contract_block a = true.
Proof.
  unfold _resolve_dispatch_policy, _requires_remote_idempotency_contract_block.
  pose proof (minimal_dispatch_host a) as Hhost.
  set (h := resolve_dispatch_host_kind _normalize_host_kind a) in *.
  case_bool_decide as Hh; [done|]. case_bool_decide as Heff; simpl; [done|].
  destruct (decide (h = remote_service)) as [->|]; [|done]. rewrite Hhost by done.
  case_bool_decide as Hlevel; [|done]. simpl.
  rewrite (decide_False (P := _ = READ_ONLY)) by done.
  rewrite !decide_False by naive_solver. by destruct (negb _).
Qed.

(** An action whose tag makes it remote and which claims a guarantee no
    contract backs. *)
Definition unbacked_action : Action := {|
  act_action_id := "a1"; act_run_id := "run-1"; act_action_type := "tool_call";
  act_effect_class := IDEMPOTENT_WRITE;
  act_external_idempotency_level := Some guaranteed;
  act_interaction_target := None; act_input_ref := None;
  act_input_json := Some [("host", PStr "local_cli")];
  act_policy_tags := ["host:moon"; " Host_Kind: REMOTE_service "];
  act_timeout_ms := None; act_side_effect_class := None |}.

Lemma engine_block_implies_admission_block_witness :
  dp_host_kind (_resolve_dispatch_policy unbacked_action) = remote_service ∧
  _requires_remote_idempotency_contract_block unbacked_action = true.
Proof.
  split; [vm_compute; reflexivity|].
  apply engine_block_implies_admission_block. vm_compute. reflexivity.
Defined.
