(* ===== verification/RemoteVerifier.v ===== *)
(** * The verifier of remote-service contracts
      ([kernel/remote_service_verifier.py])

    Scenarios that run the remote dispatch policy and one life of a dispatch key
    over a dedupe store, with the five standard ones. *)
From S2P Require Export DedupeStore HostPolicy.

(** ** Scenarios *)
Inductive FailMode := fail_none | fail_timeout | fail_reject_key | fail_transient_500.
#[export] Instance FailMode_eq_dec : EqDecision FailMode.
Proof. solve_decision. Defined.

Record RemoteServiceSimProfile := {
  sp_accepts_key : bool;
  sp_stable_ack : bool;
  sp_conflict_on_duplicate : bool;
  sp_fail_mode : FailMode
}.

Definition default_profile : RemoteServiceSimProfile :=
  {| sp_accepts_key := true; sp_stable_ack := true; sp_conflict_on_duplicate := true;
     sp_fail_mode := fail_none |}.

Record VerificationScenario := {
  vs_name : string;
  vs_profile : RemoteServiceSimProfile;
  vs_declared_level : ExternalIdempotencyLevel;
  vs_contract : option RemoteServiceIdempotencyContract;
  vs_expected_effective_level : ExternalIdempotencyLevel;
  vs_expected_can_claim_guaranteed : bool;
  vs_expected_dedupe_terminal_state : string
}.

Record VerificationResult := {
  vr_scenario_name : string;
  vr_passed : bool;
  vr_policy_decision : RemoteDispatchPolicyDecision;
  vr_actual_dedupe_state : option string;
  vr_failure_reason : option string
}.

Definition STANDARD_SCENARIOS : list VerificationScenario := [
  {| vs_name := "happy_path_guaranteed"; vs_profile := default_profile;
     vs_declared_level := guaranteed;
     vs_contract := Some {| accepts_dispatch_idempotency_key := true; returns_stable_ack := true;
                            peer_retry_model := exactly_once_claimed;
                            default_retry_policy := bounded_retry |};
     vs_expected_effective_level := guaranteed; vs_expected_can_claim_guaranteed := true;
     vs_expected_dedupe_terminal_state := "acknowledged" |};
  {| vs_name := "missing_contract_downgrade";
     vs_profile := {| sp_accepts_key := false; sp_stable_ack := false;
                      sp_conflict_on_duplicate := true; sp_fail_mode := fail_none |};
     vs_declared_level := guaranteed; vs_contract := None;
     vs_expected_effective_level := best_effort; vs_expected_can_claim_guaranteed := false;
     vs_expected_dedupe_terminal_state := "acknowledged" |};
  {| vs_name := "timeout_to_unknown_effect";
     vs_profile := {| sp_accepts_key := true; sp_stable_ack := true;
                      sp_conflict_on_duplicate := true; sp_fail_mode := fail_timeout |};
     vs_declared_level := best_effort;
     vs_contract := Some {| accepts_dispatch_idempotency_key := true; returns_stable_ack := false;
                            peer_retry_model := at_least_once;
                            default_retry_policy := no_auto_retry |};
     vs_expected_effective_level := best_effort; vs_expected_can_claim_guaranteed := false;
     vs_expected_dedupe_terminal_state := "unknown_effect" |};
  {| vs_name := "conflict_409_dedupe_hit"; vs_profile := default_profile;
     vs_declared_level := guaranteed;
     vs_contract := Some {| accepts_dispatch_idempotency_key := true; returns_stable_ack := true;
                            peer_retry_model := exactly_once_claimed;
                            default_retry_policy := bounded_retry |};
     vs_expected_effective_level := guaranteed; vs_expected_can_claim_guaranteed := true;
     vs_expected_dedupe_terminal_state := "acknowledged" |};
  {| vs_name := "reject_key_fallback";
     vs_profile := {| sp_accepts_key := false; sp_stable_ack := true;
                      sp_conflict_on_duplicate := true; sp_fail_mode := fail_reject_key |};
     vs_declared_level := guaranteed;
     vs_contract := Some {| accepts_dispatch_idempotency_key := false; returns_stable_ack := true;
                            peer_retry_model := at_most_once;
                            default_retry_policy := no_auto_retry |};
     vs_expected_effective_level := best_effort; vs_expected_can_claim_guaranteed := false;
     vs_expected_dedupe_terminal_state := "acknowledged" |}
].

(** ** The verifier *)
Module RemoteServiceVerifier.
Definition verify_key (scenario : VerificationScenario) : string := "verify:" +:+ vs_name scenario.

Definition verify_envelope (scenario : VerificationScenario) : IdempotencyEnvelope :=
  {| env_dispatch_idempotency_key := verify_key scenario;
     env_operation_fingerprint := "fp:" +:+ vs_name scenario; env_attempt_seq := 1;
     env_effect_scope := "remote_service"; env_capability_snapshot_hash := "verify_hash";
     env_host_kind := remote_service; env_peer_operation_id := None;
     env_policy_snapshot_ref := None; env_rule_bundle_hash := None |}.

Definition level_str (l : ExternalIdempotencyLevel) : string :=
  match l with
  | guaranteed => "guaranteed" | best_effort => "best_effort" | unknown_level => "unknown"
  end.

Definition mismatch (what expected got : string) : string :=
  what +:+ " mismatch: expected " +:+ expected +:+ ", got " +:+ got.

Definition failed (scenario : VerificationScenario) (decision : RemoteDispatchPolicyDecision)
    (state : option string) (why : string) : VerificationResult :=
  {| vr_scenario_name := vs_name scenario; vr_passed := false; vr_policy_decision := decision;
     vr_actual_dedupe_state := state; vr_failure_reason := Some why |}.

Section verifier.
Context {S : Type} `{DedupeStorePort S}.

(** What the remote service answers to the first dispatch. *)
Definition mark_answer (scenario : VerificationScenario) : M S unit :=
  if decide (sp_fail_mode (vs_profile scenario) = fail_timeout)
  then ds_mark_unknown_effect (verify_key scenario)
  else ds_mark_acknowledged (verify_key scenario) (Some ("ack:" +:+ vs_name scenario)).

(** The second dispatch of the conflict scenario. *)
Definition replay (scenario : VerificationScenario) : M S bool :=
  if bool_decide (vs_name scenario = "conflict_409_dedupe_hit")
     && sp_conflict_on_duplicate (vs_profile scenario)
  then replay_reservation ← ds_reserve_and_dispatch (verify_envelope scenario) None;
       mret (accepted replay_reservation)
  else mret false.

Definition _run_one (scenario : VerificationScenario) : M S VerificationResult :=
  let decision :=
    evaluate_remote_service_policy (Some (vs_declared_level scenario)) (vs_contract scenario) in
  if decide (rp_effective_idempotency_level decision ≠ vs_expected_effective_level scenario) then
    mret (failed scenario decision None
            (mismatch "effective_idempotency_level"
               (str_repr (level_str (vs_expected_effective_level scenario)))
               (str_repr (level_str (rp_effective_idempotency_level decision)))))
  else if decide (rp_can_claim_guaranteed decision ≠ vs_expected_can_claim_guaranteed scenario) then
    mret (failed scenario decision None
            (mismatch "can_claim_guaranteed"
               (py_repr (PBool (vs_expected_can_claim_guaranteed scenario)))
               (py_repr (PBool (rp_can_claim_guaranteed decision)))))
  else
    let key := verify_key scenario in
    first_reservation ← ds_reserve_and_dispatch (verify_envelope scenario) None;
    if negb (accepted first_reservation) then
      mret (failed scenario decision None "initial reservation rejected unexpectedly")
    else
      mark_answer scenario;;
      replay_accepted ← replay scenario;
      if replay_accepted : bool then
        mret (failed scenario decision None "expected duplicate dedupe hit, but replay was accepted")
      else
        record ← ds_get key;
        let actual_state :=
          match record with Some r => dedupe_state_str (rec_state r) | None => "missing" end in
        mret (if decide (actual_state ≠ vs_expected_dedupe_terminal_state scenario) then
                failed scenario decision (Some actual_state)
                  (mismatch "dedupe terminal state"
                     (str_repr (vs_expected_dedupe_terminal_state scenario)) (str_repr actual_state))
              else
                {| vr_scenario_name := vs_name scenario; vr_passed := true;
                   vr_policy_decision := decision; vr_actual_dedupe_state := Some actual_state;
                   vr_failure_reason := None |}).

Fixpoint run_each (scenarios : list VerificationScenario) : M S (list VerificationResult) :=
  match scenarios with
  | [] => mret []
  | s :: scenarios' => r ← _run_one s; rs ← run_each scenarios'; mret (r :: rs)
  end.

Definition run_all (scenarios : option (list VerificationScenario)) : M S (list VerificationResult) :=
  run_each (match scenarios with Some ((_ :: _) as l) => l | _ => STANDARD_SCENARIOS end).
End verifier.
End RemoteServiceVerifier.

(** ** What a scenario finds *)
Section found.
Context {S : Type} `{DedupeStoreAvailable S}.
Import RemoteServiceVerifier.
Implicit Types s : S.

(** On an available store an operation takes each step the ledger has. *)
Lemma available_step {A} (m : M S A) spec s a l' :
  refines ds_ok ds_view m spec → total_on ds_ok ds_view m spec → ds_ok s →
  spec (ds_view s) = Some (a, l') → ∃ s', m s = (Ok a, s') ∧ ds_ok s' ∧ ds_view s' = l'.
Proof.
  intros Hm Ht Hs Hspec. specialize (Hm s Hs). specialize (Ht s Hs).
  rewrite Hspec in Ht. specialize (Ht ltac:(by eexists)).
  destruct (m s) as [[a'|e] s']; [|done]. destruct Hm as [Hs' Hm].
  rewrite Hspec in Hm. injection Hm as -> ->. by exists s'.
Qed.

(** The state a dispatch of the scenario ends in. *)
Definition final_state (scenario : VerificationScenario) : DedupeState :=
  if decide (sp_fail_mode (vs_profile scenario) = fail_timeout) then unknown_effect else acknowledged.

(** The policy decides as the scenario expects. *)
Definition decided_as_expected (scenario : VerificationScenario) : Prop :=
  let decision :=
    evaluate_remote_service_policy (Some (vs_declared_level scenario)) (vs_contract scenario) in
  rp_effective_idempotency_level decision = vs_expected_effective_level scenario ∧
  rp_can_claim_guaranteed decision = vs_expected_can_claim_guaranteed scenario.

(** A key that the store has: the scenario is rejected and changes nothing. *)
Lemma run_one_known scenario s :
  ds_ok s → is_Some (ds_view s !! verify_key scenario) →
  ∃ r s', _run_one scenario s = (Ok r, s') ∧ ds_ok s' ∧ ds_view s' = ds_view s ∧ vr_passed r = false.
Proof.
  intros Hs [rec Hrec]. unfold _run_one.
  case_decide; [by eexists _, s|]. case_decide; [by eexists _, s|].
  destruct (available_step _ _ s (duplicate_reservation rec) (ds_view s)
              (law_reserve_and_dispatch (verify_envelope scenario) None)
              (avail_reserve_and_dispatch _ _) Hs) as (s' & Hrun & Hs' & Hv).
  { unfold compose, spec_reserve. cbn [verify_envelope env_dispatch_idempotency_key]. by rewrite Hrec. }
  unfold mbind, M_bind. rewrite Hrun. by eexists _, s'.
Qed.

(** The record of a key that went through its life. *)
Definition final_record (scenario : VerificationScenario) : DedupeRecord :=
  marked (new_record (verify_envelope scenario) dispatched None) (final_state scenario) None
    (if decide (sp_fail_mode (vs_profile scenario) = fail_timeout) then None
     else Some ("ack:" +:+ vs_name scenario)).

Lemma mark_answer_runs scenario s :
  ds_ok s →
  ds_view s !! verify_key scenario = Some (new_record (verify_envelope scenario) dispatched None) →
  ∃ s', mark_answer scenario s = (Ok tt, s') ∧ ds_ok s' ∧
        ds_view s' = <[verify_key scenario := final_record scenario]> (ds_view s).
Proof.
  intros Hs Hk. unfold mark_answer, final_record, final_state. case_decide.
  - eapply available_step; [apply law_mark_unknown_effect|apply avail_mark_unknown_effect|done|].
    unfold spec_mark_unit, spec_mark. by rewrite Hk.
  - eapply available_step; [apply law_mark_acknowledged|apply avail_mark_acknowledged|done|].
    unfold spec_mark_unit, spec_mark. by rewrite Hk.
Qed.

(** A lawful store never accepts the replay. *)
Lemma replay_runs scenario s :
  ds_ok s → is_Some (ds_view s !! verify_key scenario) →
  ∃ s', replay scenario s = (Ok false, s') ∧ ds_ok s' ∧ ds_view s' = ds_view s.
Proof.
  intros Hs [rec Hrec]. unfold replay. destruct (_ && _); [|by exists s].
  destruct (available_step _ _ s (duplicate_reservation rec) (ds_view s)
              (law_reserve_and_dispatch (verify_envelope scenario) None)
              (avail_reserve_and_dispatch _ _) Hs) as (s' & Hrun & Hs' & Hv).
  { unfold compose, spec_reserve. cbn [verify_envelope env_dispatch_idempotency_key]. by rewrite Hrec. }
  unfold mbind, M_bind. rewrite Hrun. by exists s'.
Qed.

(** A new key goes through its life, and the scenario passes exactly where the
    policy and the state at the end are the expected ones. *)
Lemma run_one_new scenario s :
  ds_ok s → ds_view s !! verify_key scenario = None → decided_as_expected scenario →
  ∃ r s', _run_one scenario s = (Ok r, s') ∧ ds_ok s' ∧
    (∃ rec, ds_view s' = <[verify_key scenario := rec]> (ds_view s) ∧
            rec_state rec = final_state scenario) ∧
    vr_passed r = bool_decide (dedupe_state_str (final_state scenario)
                               = vs_expected_dedupe_terminal_state scenario).
Proof.
  intros Hs Hnew [Hlevel Hclaim]. unfold _run_one.
  rewrite decide_False by (by rewrite Hlevel; intros []).
  rewrite decide_False by (by rewrite Hclaim; intros []).
  destruct (available_step _ _ s accepted_reservation
              (<[verify_key scenario := new_record (verify_envelope scenario) dispatched None]> (ds_view s))
              (law_reserve_and_dispatch (verify_envelope scenario) None)
              (avail_reserve_and_dispatch _ _) Hs) as (s1 & Hrun1 & Hs1 & Hv1).
  { unfold compose, spec_reserve. cbn [verify_envelope env_dispatch_idempotency_key]. by rewrite Hnew. }
  destruct (mark_answer_runs scenario s1 Hs1) as (s2 & Hrun2 & Hs2 & Hv2);
    [rewrite Hv1; apply lookup_insert_eq|].
  rewrite Hv1, insert_insert_eq in Hv2.
  assert (ds_view s2 !! verify_key scenario = Some (final_record scenario)) as Hk.
  { rewrite Hv2. apply lookup_insert_eq. }
  destruct (replay_runs scenario s2 Hs2) as (s3 & Hrun3 & Hs3 & Hv3); [by eexists|].
  destruct (available_step _ _ s3 (Some (final_record scenario)) (ds_view s3)
              (law_get (verify_key scenario)) (avail_get _) Hs3) as (s4 & Hrun4 & Hs4 & Hv4).
  { by rewrite Hv3, Hk. }
  unfold mbind, M_bind. rewrite Hrun1. cbn [accepted accepted_reservation negb].
  rewrite Hrun2, Hrun3, Hrun4. eexists _, s4. split; [done|]. split; [done|]. split.
  - exists (final_record scenario). by rewrite Hv4, Hv3.
  - change (rec_state (final_record scenario)) with (final_state scenario). case_decide as Hd.
    + by rewrite bool_decide_eq_false_2.
    + by rewrite bool_decide_eq_true_2.
Qed.

(** Scenarios of different names, unknown to the store and with a fair
    expectation. *)
Definition fair (scenario : VerificationScenario) : Prop :=
  decided_as_expected scenario ∧
  vs_expected_dedupe_terminal_state scenario = dedupe_state_str (final_state scenario).

Lemma verify_key_inj a b : verify_key a = verify_key b → vs_name a = vs_name b.
Proof. unfold verify_key. apply app_inj. Qed.

Lemma run_each_known scenarios s :
  ds_ok s → (∀ c, c ∈ scenarios → is_Some (ds_view s !! verify_key c)) →
  ∃ rs s', run_each scenarios s = (Ok rs, s') ∧ ds_ok s' ∧ ds_view s' = ds_view s ∧
           map vr_passed rs = map (λ _, false) scenarios.
Proof.
  revert s. induction scenarios as [|c scenarios IH]; intros s Hs Hk; [by exists [], s|].
  destruct (run_one_known c s Hs (Hk c ltac:(by left))) as (r & s1 & Hrun1 & Hs1 & Hv1 & Hr).
  destruct (IH s1 Hs1) as (rs & s2 & Hrun2 & Hs2 & Hv2 & Hrs).
  { intros c' Hc'. rewrite Hv1. apply Hk. by right. }
  exists (r :: rs), s2. cbn [run_each]. unfold mbind, M_bind. rewrite Hrun1, Hrun2.
  split; [done|]. split; [done|]. split; [by rewrite Hv2|]. simpl. by rewrite Hr, Hrs.
Qed.

Lemma run_each_new scenarios s :
  ds_ok s → NoDup (map vs_name scenarios) → Forall fair scenarios →
  (∀ c, c ∈ scenarios → ds_view s !! verify_key c = None) →
  ∃ rs s', run_each scenarios s = (Ok rs, s') ∧ ds_ok s' ∧
           map vr_passed rs = map (λ _, true) scenarios ∧
           (∀ c, c ∈ scenarios → is_Some (ds_view s' !! verify_key c)) ∧
           (∀ k, is_Some (ds_view s !! k) → is_Some (ds_view s' !! k)).
Proof.
  revert s. induction scenarios as [|c scenarios IH]; intros s Hs Hnd Hfair Hnew.
  { exists [], s. split_and!; try done. by intros ? ?%elem_of_nil. }
  apply Forall_cons in Hfair as [[Hdec Hexp] Hfair]. simpl in Hnd. apply NoDup_cons in Hnd as [Hc Hnd].
  destruct (run_one_new c s Hs (Hnew c ltac:(by left)) Hdec)
    as (r & s1 & Hrun1 & Hs1 & (rec & Hv1 & _) & Hr).
  destruct (IH s1 Hs1 Hnd Hfair) as (rs & s2 & Hrun2 & Hs2 & Hrs & Hall & Hkeep).
  { intros c' Hc'. rewrite Hv1, lookup_insert_ne; [apply Hnew; by right|].
    intros Heq%verify_key_inj. apply Hc. rewrite Heq. by apply list_elem_of_fmap_2. }
  exists (r :: rs), s2. cbn [run_each]. unfold mbind, M_bind. rewrite Hrun1, Hrun2.
  split_and!; [done|done| | |].
  - simpl. rewrite Hrs, Hr. f_equal. by apply bool_decide_eq_true_2.
  - intros c' [->|Hc']%elem_of_cons; [|by apply Hall]. apply Hkeep. rewrite Hv1, lookup_insert_eq.
    by eexists.
  - intros k Hk. apply Hkeep. rewrite Hv1. destruct (decide (k = verify_key c)) as [->|Hne].
    + rewrite lookup_insert_eq. by eexists.
    + by rewrite lookup_insert_ne.
Qed.
End found.

(** On an available store that has none of their keys the five standard
    scenarios pass; a second run on the same store fails all of them, since
    their keys are fixed. *)
Theorem standard_scenarios {S} `{DedupeStoreAvailable S} (s : S) :
  ds_ok s →
  (∀ c, c ∈ STANDARD_SCENARIOS → ds_view s !! RemoteServiceVerifier.verify_key c = None) →
  ∃ first s1 again s2,
    RemoteServiceVerifier.run_all None s = (Ok first, s1) ∧
    map vr_passed first = repeat true 5 ∧
    RemoteServiceVerifier.run_all None s1 = (Ok again, s2) ∧
    map vr_passed again = repeat false 5 ∧ ds_view s2 = ds_view s1.
Proof.
  intros Hs Hnew.
  destruct (run_each_new STANDARD_SCENARIOS s Hs) as (rs & s1 & Hrun1 & Hs1 & Hrs & Hall & _);
    [apply (bool_decide_unpack _); vm_compute; done|repeat constructor|done|].
  destruct (run_each_known STANDARD_SCENARIOS s1 Hs1 Hall) as (rs' & s2 & Hrun2 & _ & Hv & Hrs').
  by exists rs, s1, rs', s2.
Qed.
