(* ===== verification/Scripts.v ===== *)
(** * Scripts ([kernel/cognitive/script_runtime.py], [script_runtime_registry.py])

    The wrapper that protects a script runtime with the dedupe store, and the
    registry that routes a script to a runtime.  What a runtime does with a
    script (a subprocess, [exec]) is a parameter. *)
From S2P Require Export DedupeStore HostPolicy.

Record ScriptResult := {
  sr_script_id : string;
  sr_exit_code : Z;
  sr_stdout : string;
  sr_stderr : string;
  sr_output_json : option pydict;
  sr_execution_ms : Z
}.

Record ScriptActivityInput := {
  sc_run_id : string;
  sc_action_id : string;
  sc_script_id : string;
  sc_script_content : string;
  sc_host_kind : string;
  sc_parameters : pydict;
  sc_timeout_ms : Z;
  sc_heartbeat_interval_ms : Z
}.

(** The store, the environment of the runtimes and, as a history variable, the
    keys of the scripts that were handed to the inner runtime. *)
Record script_world (S E : Type) := ScriptWorld {
  sw_store : S;
  sw_env : E;
  sw_entered : list string
}.
Arguments ScriptWorld {S E}.
Arguments sw_store {S E}.
Arguments sw_env {S E}.
Arguments sw_entered {S E}.

(** ** At-most-once execution *)
Module DedupeAwareScriptRuntime.
Section runtime.
Context {S E : Type} `{DedupeStorePort S} (_inner : ScriptActivityInput → M E ScriptResult).
Abbreviation W := (script_world S E).

Definition on_store {A} (m : M S A) : M W A :=
  zoom sw_store (λ s w, ScriptWorld s (sw_env w) (sw_entered w)) m.
Definition on_env {A} (m : M E A) : M W A :=
  zoom sw_env (λ e w, ScriptWorld (sw_store w) e (sw_entered w)) m.

Definition idempotency_key (i : ScriptActivityInput) : string :=
  "script:" +:+ sc_run_id i +:+ ":" +:+ sc_action_id i +:+ ":" +:+ sc_script_id i.

(** No store reads the host kind of an envelope; one that is not among the
    literals of [HostKind] is put down as [local_process]. *)
Definition envelope_of (i : ScriptActivityInput) : IdempotencyEnvelope :=
  {| env_dispatch_idempotency_key := idempotency_key i;
     env_operation_fingerprint := idempotency_key i;
     env_attempt_seq := 1;
     env_effect_scope := "script:" +:+ sc_script_id i;
     env_capability_snapshot_hash := "script_runtime";
     env_host_kind := default local_process (parse_host_kind (sc_host_kind i));
     env_peer_operation_id := None;
     env_policy_snapshot_ref := None;
     env_rule_bundle_hash := None |}.

Definition noop_result (i : ScriptActivityInput) : ScriptResult :=
  {| sr_script_id := sc_script_id i; sr_exit_code := 0; sr_stdout := ""; sr_stderr := "";
     sr_output_json := None; sr_execution_ms := 0 |}.

(** Up to the [await]: the result of a duplicate, or the script is entered. *)
Definition script_enter (i : ScriptActivityInput) : M W (option ScriptResult) :=
  reservation ← on_store (ds_reserve (envelope_of i));
  if negb (accepted reservation) then mret (Some (noop_result i))
  else
    on_store (ds_mark_dispatched (idempotency_key i) None);;
    modify (λ w, ScriptWorld (sw_store w) (sw_env w) (sw_entered w ++ [idempotency_key i]));;
    mret None.

(** From the [await] on, given what it came to. *)
Definition script_exit (i : ScriptActivityInput) (o : outcome ScriptResult) : M W ScriptResult :=
  match o with
  | Raise e =>
      (if is_Exception e
       then suppress (on_store (ds_mark_unknown_effect (idempotency_key i)))
       else mret tt);;
      raise e
  | Ok result =>
      on_store (ds_mark_acknowledged (idempotency_key i) None);;
      mret result
  end.

Definition execute_script (i : ScriptActivityInput) : M W ScriptResult :=
  early ← script_enter i;
  match early with
  | Some result => mret result
  | None => o ← reify (on_env (_inner i)); script_exit i o
  end.
End runtime.
End DedupeAwareScriptRuntime.

(** ** Routing *)
Record ScriptRuntimeDescriptor := {
  sd_host_kind : string;
  sd_description : string;
  sd_is_safe_for_production : bool;
  sd_supports_timeout : bool
}.

Module ScriptRuntimeRegistry.
Section registry.
(** A runtime is named, and [execute_script] runs it. *)
Context {R E : Type} (execute_script : R → ScriptActivityInput → M E ScriptResult).

Record t := {
  _runtimes : odict R;
  _descriptors : odict ScriptRuntimeDescriptor;
  _production_mode : bool
}.

Definition __init__ : t := {| _runtimes := []; _descriptors := []; _production_mode := false |}.

Definition register (host_kind : string) (runtime : R) (description : string)
    (is_safe_for_production supports_timeout : bool) (r : t) : t :=
  {| _runtimes := od_set host_kind runtime (_runtimes r);
     _descriptors := od_set host_kind
       {| sd_host_kind := host_kind; sd_description := description;
          sd_is_safe_for_production := is_safe_for_production;
          sd_supports_timeout := supports_timeout |} (_descriptors r);
     _production_mode := _production_mode r |}.

Definition enable_production_mode (r : t) : t :=
  {| _runtimes := _runtimes r; _descriptors := _descriptors r; _production_mode := true |}.

Definition get (host_kind : string) (r : t) : option R := od_get host_kind (_runtimes r).
Definition get_descriptor (host_kind : string) (r : t) : option ScriptRuntimeDescriptor :=
  od_get host_kind (_descriptors r).
Definition known_host_kinds (r : t) : list string := map fst (_runtimes r).
Definition all_descriptors (r : t) : list ScriptRuntimeDescriptor := map snd (_descriptors r).

Definition registered (r : t) : string :=
  match merge_sort String.le (map fst (_runtimes r)) with
  | [] => "<none>"
  | kinds => string_join ", " kinds
  end.

Definition dispatch (r : t) (i : ScriptActivityInput) : M E ScriptResult :=
  match od_get (sc_host_kind i) (_runtimes r) with
  | None =>
      raise (Exn KeyError ("No ScriptRuntime registered for host_kind=" +:+ str_repr (sc_host_kind i)
               +:+ ". Registered: " +:+ registered r))
  | Some runtime =>
      let unsafe := match od_get (sc_host_kind i) (_descriptors r) with
                    | Some d => negb (sd_is_safe_for_production d)
                    | None => false
                    end in
      if _production_mode r && unsafe
      then raise (Exn RuntimeError ("ScriptRuntime " +:+ str_repr (sc_host_kind i) +:+
             " is not production-safe; cannot dispatch in production mode"))
      else execute_script runtime i
  end.

Definition validate_host_kind (host_kind : string) (strict : bool) (r : t) : outcome bool :=
  if decide (host_kind ∈ known_host_kinds r) then Ok true
  else if strict
  then Raise (Exn ValueError ("Unknown host_kind=" +:+ str_repr host_kind +:+ ". Known: "
         +:+ py_repr (PList (map PStr (known_host_kinds r)))))
  else Ok false.
End registry.
Arguments t : clear implicits.

(** [_register_builtin_runtimes], over the three runtimes. *)
Definition _register_builtin_runtimes {R} (echo in_process local : R) (r : t R) : t R :=
  register "local_process" local "asyncio subprocess runtime for local shell scripts." true true
    (register "in_process_python" in_process
       "exec()-based in-process Python runtime. PoC/test only; NOT production-safe." false true
       (register "echo" echo "PoC stub that echoes parameters as JSON. Not for production." false false r)).

Definition configure_local_process_timeout {R} (local : R) (r : t R) : t R :=
  register "local_process" local "asyncio subprocess runtime for local shell scripts." true true r.
End ScriptRuntimeRegistry.

(** ** The wrapper, exactly *)
Section wrapper.
Context {S E : Type} `{DedupeStoreLaws S}.
Import DedupeAwareScriptRuntime.
Implicit Types (w : script_world S E) (i : ScriptActivityInput).

Abbreviation world_ledger w := (ds_view (sw_store w)).

(** The record of a script that was entered, in state [st]. *)
Definition script_record i (st : DedupeState) : DedupeRecord :=
  new_record (envelope_of i) st None.

(** An operation on the store, seen from the world. *)
Lemma wp_script_store {A} (m : M S A) spec (Q : A → script_world S E → Prop) Ex w :
  refines ds_ok ds_view m spec → (DedupeStoreAvailable S → total_on ds_ok ds_view m spec) →
  ds_ok (sw_store w) →
  (∀ a s', ds_ok s' → spec (world_ledger w) = Some (a, ds_view s') →
     Q a (ScriptWorld s' (sw_env w) (sw_entered w))) →
  (∀ e s', ds_ok s' → ds_view s' = world_ledger w → is_Exception e = true →
     (DedupeStoreAvailable S → spec (world_ledger w) = None) →
     Ex e (ScriptWorld s' (sw_env w) (sw_entered w))) →
  wp (on_store m) Q Ex w.
Proof. intros. apply wp_zoom. by eapply wp_refines. Qed.

(** Marking a key whose record is [r]. *)
Lemma spec_mark_at target k peer ack (l : ledger) r :
  l !! k = Some r → rec_state r ∈ legal_sources target →
  spec_mark_unit target k peer ack l = Some (tt, <[k := marked r target peer ack]> l).
Proof.
  intros Hr Hst. unfold spec_mark_unit, spec_mark, mbind, option_bind.
  rewrite Hr. by rewrite decide_True by done.
Qed.

(** Entering: a key with a record is a duplicate; a fresh one is dispatched
    and entered, unless the store fails, which an available store does not. *)
Lemma wp_script_enter i w (Q : option ScriptResult → script_world S E → Prop)
    (Ex : exn → script_world S E → Prop) :
  ds_ok (sw_store w) →
  (∀ s', ds_ok s' → is_Some (world_ledger w !! idempotency_key i) → ds_view s' = world_ledger w →
     Q (Some (noop_result i)) (ScriptWorld s' (sw_env w) (sw_entered w))) →
  (∀ s', ds_ok s' → world_ledger w !! idempotency_key i = None →
     ds_view s' = <[idempotency_key i := script_record i dispatched]> (world_ledger w) →
     Q None (ScriptWorld s' (sw_env w) (sw_entered w ++ [idempotency_key i]))) →
  (∀ e s', ds_ok s' → ledger_le (world_ledger w) (ds_view s') → ¬ DedupeStoreAvailable S →
     Ex e (ScriptWorld s' (sw_env w) (sw_entered w))) →
  wp (script_enter i) Q Ex w.
Proof.
  intros Hok Hdup Hnew Hfail. unfold script_enter. apply wp_bind.
  apply (wp_script_store _ (Some ∘ spec_reserve reserved (envelope_of i) None));
    [apply law_reserve | intros Ha; apply (avail_reserve (DedupeStoreAvailable := Ha)) | done | |].
  2:{ intros e s' Hs' Hv _ Hno. apply Hfail; [done|by rewrite Hv|].
      intros Ha. by specialize (Hno Ha). }
  intros res s1 Hs1 Hstep. unfold compose, spec_reserve in Hstep. simpl in Hstep.
  destruct (world_ledger w !! idempotency_key i) as [r|] eqn:Hk;
    injection Hstep as <- Hv; simpl.
  { apply wp_ret. by apply Hdup. }
  pose proof (spec_mark_at dispatched (idempotency_key i) None None (ds_view s1)
    (script_record i reserved)) as Hmark.
  specialize (Hmark ltac:(rewrite <- Hv; apply lookup_insert_eq) ltac:(by left)).
  apply wp_bind.
  apply (wp_script_store _ (spec_mark_unit dispatched (idempotency_key i) None None));
    [apply law_mark_dispatched
    | intros Ha; apply (avail_mark_dispatched (DedupeStoreAvailable := Ha)) | done | |]; simpl;
    rewrite Hmark.
  - intros [] s2 Hs2 [= Hv2]. apply wp_bind, wp_modify, wp_ret. simpl.
    apply Hnew; [done..|]. by rewrite <- Hv2, <- Hv, insert_insert_eq.
  - intros e s2 Hs2 Hv2 _ Hno. apply Hfail; [done| |].
    + rewrite Hv2, <- Hv. intros k r Hr. exists r. split; [|done].
      rewrite lookup_insert_ne; [done|]. congruence.
    + intros Ha. by specialize (Hno Ha).
Qed.

(** What is recorded of a run that came to [o]. *)
Definition script_final (o : outcome ScriptResult) : DedupeState :=
  match o with
  | Ok _ => acknowledged
  | Raise e => if is_Exception e then unknown_effect else dispatched
  end.

(** Leaving: the outcome is recorded and passed on. *)
Lemma script_exit_available `{!DedupeStoreAvailable S} i o w :
  ds_ok (sw_store w) →
  world_ledger w !! idempotency_key i = Some (script_record i dispatched) →
  ∃ s', script_exit i o w = (o, ScriptWorld s' (sw_env w) (sw_entered w)) ∧ ds_ok s' ∧
        ds_view s' = <[idempotency_key i := script_record i (script_final o)]> (world_ledger w).
Proof.
  intros Hok Hk.
  destruct (script_exit i o w) as [o' w'] eqn:Hrun.
  cut (wp (script_exit i o)
         (λ a w', o = Ok a ∧ ∃ s', w' = ScriptWorld s' (sw_env w) (sw_entered w) ∧ ds_ok s' ∧
            ds_view s' = <[idempotency_key i := script_record i (script_final o)]> (world_ledger w))
         (λ e w', o = Raise e ∧ ∃ s', w' = ScriptWorld s' (sw_env w) (sw_entered w) ∧ ds_ok s' ∧
            ds_view s' = <[idempotency_key i := script_record i (script_final o)]> (world_ledger w))
         w).
  { intros Hwp. pose proof (wp_run _ _ _ _ _ _ Hwp Hrun) as Hr.
    destruct o'; destruct Hr as [-> (s' & -> & ? & ?)]; by exists s'. }
  clear Hrun o' w'. destruct o as [res|e]; simpl.
  - apply wp_bind.
    apply (wp_script_store _ (spec_mark_unit acknowledged (idempotency_key i) None None));
      [apply law_mark_acknowledged | intros; apply avail_mark_acknowledged | done | |];
      rewrite (spec_mark_at _ _ _ _ _ _ Hk) by (by left).
    + intros [] s' Hs' [= Hv]. apply wp_ret. split; [done|]. by exists s'.
    + intros e s' _ _ _ Hno. by specialize (Hno _).
  - apply wp_bind. destruct (is_Exception e).
    2:{ apply wp_ret, wp_raise. split; [done|]. destruct w as [s env ks]. exists s.
        split_and!; [done..|]. symmetry. by apply insert_id. }
    apply wp_suppress.
    apply (wp_script_store _ (spec_mark_unit unknown_effect (idempotency_key i) None None));
      [apply law_mark_unknown_effect | intros; apply avail_mark_unknown_effect | done | |];
      rewrite (spec_mark_at _ _ _ _ _ _ Hk) by (by left).
    + intros [] s' Hs' [= Hv]. apply wp_raise. split; [done|]. by exists s'.
    + intros e' s' _ _ _ Hno. by specialize (Hno _).
Qed.
End wrapper.

(** C22: over an available store, a script whose key has a record is not run:
    the answer is an empty result with exit code 0, whatever came of the run
    that made the record, and nothing changes.  A script whose key is fresh is
    run exactly once, its result or exception is passed on unchanged, and the
    record is left acknowledged after a result, with an unknown effect after
    an exception, and dispatched after a cancellation. *)
Theorem execute_script_outcome {S E} `{DedupeStoreAvailable S}
    (inner : ScriptActivityInput → M E ScriptResult) i (w : script_world S E) :
  ds_ok (sw_store w) →
  let k := DedupeAwareScriptRuntime.idempotency_key i in
  let '(o, w') := DedupeAwareScriptRuntime.execute_script inner i w in
  ds_ok (sw_store w') ∧
  match ds_view (sw_store w) !! k with
  | Some _ =>
      o = Ok (DedupeAwareScriptRuntime.noop_result i) ∧ sw_env w' = sw_env w ∧
      sw_entered w' = sw_entered w ∧ ds_view (sw_store w') = ds_view (sw_store w)
  | None =>
      (o, sw_env w') = inner i (sw_env w) ∧ sw_entered w' = sw_entered w ++ [k] ∧
      ds_view (sw_store w') = <[k := script_record i (script_final o)]> (ds_view (sw_store w))
  end.
Proof.
  intros Hok k.
  destruct (DedupeAwareScriptRuntime.execute_script inner i w) as [o w'] eqn:Hrun.
  unfold DedupeAwareScriptRuntime.execute_script in Hrun.
  set (start := DedupeAwareScriptRuntime.script_enter i) in Hrun.
  assert (wp start
    (λ early w1, ds_ok (sw_store w1) ∧ sw_env w1 = sw_env w ∧
       match ds_view (sw_store w) !! k with
       | Some _ => early = Some (DedupeAwareScriptRuntime.noop_result i) ∧
           sw_entered w1 = sw_entered w ∧ ds_view (sw_store w1) = ds_view (sw_store w)
       | None => early = None ∧ sw_entered w1 = sw_entered w ++ [k] ∧
           ds_view (sw_store w1) = <[k := script_record i dispatched]> (ds_view (sw_store w))
       end)
    (λ _ _, False) w) as Hstart.
  { apply wp_script_enter; [done|..].
    - intros s' Hs' [r Hr] Hv. unfold k. by rewrite Hr.
    - intros s' Hs' Hk Hv. unfold k. by rewrite Hk.
    - intros e s' _ _ Hno. by destruct Hno. }
  apply bind_inv in Hrun as [(early & w1 & Hrun1 & Hrun)|(e & Hrun1 & ->)].
  2:{ by destruct (wp_run _ _ _ _ _ _ Hstart Hrun1). }
  destruct (wp_run _ _ _ _ _ _ Hstart Hrun1) as (Hok1 & Henv & Hcase).
  destruct (ds_view (sw_store w) !! k) eqn:Hk; destruct Hcase as (-> & Hent & Hv).
  { unfold mret, M_ret in Hrun. by simplify_eq. }
  unfold mbind, M_bind, reify, DedupeAwareScriptRuntime.on_env, zoom in Hrun.
  rewrite Henv in Hrun. destruct (inner i (sw_env w)) as [r env'] eqn:Hin.
  destruct (script_exit_available i r (ScriptWorld (sw_store w1) env' (sw_entered w1)))
    as (s' & Hexit & Hs' & Hv'); [done|simpl; rewrite Hv; apply lookup_insert_eq|].
  unfold k in *. rewrite Hexit in Hrun. simplify_eq. simpl in *.
  split_and!; [done..|]. by rewrite Hv', Hv, insert_insert_eq.
Qed.

(** ** At most once *)

(** Wrapped scripts interleaved at their [await], other users of the store,
    restarts that lose the running scripts and keep the store. *)
Inductive script_step {S E} `{DedupeStorePort S}
    : script_world S E * list ScriptActivityInput →
      script_world S E * list ScriptActivityInput → Prop :=
  | script_starts w w' ts i :
      DedupeAwareScriptRuntime.script_enter i w = (Ok None, w') →
      script_step (w, ts) (w', ts ++ [i])
  | script_refused w w' ts i o :
      DedupeAwareScriptRuntime.script_enter i w = (o, w') → o ≠ Ok None →
      script_step (w, ts) (w', ts)
  | script_ends w w' ts1 ts2 i r o :
      (* the runtime returned or raised [r], a cancellation included *)
      DedupeAwareScriptRuntime.script_exit i r w = (o, w') →
      script_step (w, ts1 ++ i :: ts2) (w', ts1 ++ ts2)
  | script_store w s' ts op r :
      run_op op (sw_store w) = (r, s') →
      script_step (w, ts) (ScriptWorld s' (sw_env w) (sw_entered w), ts)
  | script_env w e' ts :
      script_step (w, ts) (ScriptWorld (sw_store w) e' (sw_entered w), ts)
  | script_restart w ts : script_step (w, ts) (w, []).

Section once.
Context {S E : Type} `{DedupeStoreLaws S}.
Implicit Types w : script_world S E.

(** Every entered key has a record that got at least as far as dispatched. *)
Record script_inv w : Prop := {
  si_ok : ds_ok (sw_store w);
  si_once : NoDup (sw_entered w);
  si_recorded k : k ∈ sw_entered w →
    ∃ r, ds_view (sw_store w) !! k = Some r ∧ rtc state_edge dispatched (rec_state r)
}.

Lemma script_inv_le w s' e :
  script_inv w → ds_ok s' → ledger_le (ds_view (sw_store w)) (ds_view s') →
  script_inv (ScriptWorld s' e (sw_entered w)).
Proof.
  intros [? ? Hrec] Hs' Hle. split; [done..|]. simpl. intros k Hk.
  destruct (Hrec k Hk) as (r & Hr & Hst). destruct (Hle k r Hr) as (r' & Hr' & Hev).
  exists r'. split; [done|]. etrans; [done|apply Hev].
Qed.

Lemma script_inv_enter i w :
  script_inv w →
  wp (DedupeAwareScriptRuntime.script_enter i) (λ _, script_inv) (λ _, script_inv) w.
Proof.
  intros Hinv. apply wp_script_enter; [apply Hinv|..].
  - intros s' Hs' _ Hv. apply script_inv_le; [done..|]. by rewrite Hv.
  - intros s' Hs' Hk Hv. split; [done|..]; simpl.
    + apply NoDup_app. split_and!; [apply Hinv| |apply NoDup_singleton].
      intros k Hin ->%list_elem_of_singleton.
      destruct (si_recorded w Hinv _ Hin) as (r & Hr & _). by rewrite Hk in Hr.
    + rewrite Hv. intros k [Hin| ->%list_elem_of_singleton]%elem_of_app.
      * destruct (si_recorded w Hinv _ Hin) as (r & Hr & Hst). exists r. split; [|done].
        rewrite lookup_insert_ne; [done|]. congruence.
      * rewrite lookup_insert_eq. by eexists.
  - intros e s' Hs' Hle _. by apply script_inv_le.
Qed.

(** One operation of the store, through the world. *)
Lemma script_inv_op {A} (m : M S A) spec w :
  refines ds_ok ds_view m spec →
  (∀ l a l', spec l = Some (a, l') → ledger_le l l') →
  script_inv w →
  wp (DedupeAwareScriptRuntime.on_store m) (λ _, script_inv) (λ _, script_inv) w.
Proof.
  intros Hm Hspec Hinv. apply wp_zoom. unfold wp. specialize (Hm _ (si_ok w Hinv)).
  destruct (m (sw_store w)) as [[a|e] s']; apply script_inv_le; try done; try apply Hm.
  - apply (Hspec _ a). apply Hm.
  - by destruct Hm as (_ & _ & ->).
Qed.

Lemma spec_mark_unit_le target k peer ack l a l' :
  spec_mark_unit target k peer ack l = Some (a, l') → ledger_le l l'.
Proof. intros (l2 & Hm & [= _ ->])%fmap_Some. by eapply spec_mark_le. Qed.

Lemma script_inv_exit i r w :
  script_inv w →
  wp (DedupeAwareScriptRuntime.script_exit i r) (λ _, script_inv) (λ _, script_inv) w.
Proof.
  intros Hinv. destruct r as [res|e]; simpl; apply wp_bind.
  - eapply wp_mono; [eapply script_inv_op;
      [apply law_mark_acknowledged|apply spec_mark_unit_le|done]|by intros|by intros].
  - destruct (is_Exception e); [|by apply wp_ret, wp_raise]. apply wp_suppress.
    eapply wp_mono; [eapply script_inv_op;
      [apply law_mark_unknown_effect|apply spec_mark_unit_le|done]|by intros|].
    intros e' w' ?. by destruct (is_Exception e').
Qed.

Lemma script_inv_step st st' : script_step st st' → script_inv st.1 → script_inv st'.1.
Proof.
  intros Hstep Hinv.
  destruct Hstep as [w w' ts i Hr|w w' ts i o Hr _|w w' ts1 ts2 i r o Hr|w s' ts op r Hr|
    w e' ts|w ts]; simpl in *.
  - apply (wp_run _ _ _ _ _ _ (script_inv_enter i w Hinv) Hr).
  - pose proof (wp_run _ _ _ _ _ _ (script_inv_enter i w Hinv) Hr). by destruct o.
  - pose proof (wp_run _ _ _ _ _ _ (script_inv_exit i r w Hinv) Hr). by destruct o.
  - destruct (run_op_le op _ _ _ (si_ok w Hinv) Hr). by apply script_inv_le.
  - apply script_inv_le; [done|apply Hinv|reflexivity].
  - done.
Qed.
End once.

(** C23: over any interleaving of wrapped scripts, other users of a lawful
    store, store failures, cancellations and restarts, no key is handed to the
    inner runtime twice, and each key that was has a record that is dispatched
    or further on. *)
Theorem script_at_most_once {S E} `{DedupeStoreLaws S} (w w' : script_world S E) ts ts' :
  ds_ok (sw_store w) → sw_entered w = [] → rtc script_step (w, ts) (w', ts') →
  NoDup (sw_entered w') ∧
  ∀ k, k ∈ sw_entered w' →
  ∃ r, ds_view (sw_store w') !! k = Some r ∧ rtc state_edge dispatched (rec_state r).
Proof.
  intros Hok Hent Hsteps.
  assert (script_inv (w', ts').1) as [_ ? ?]; [|done].
  assert (script_inv (w, ts).1) as Hinv.
  { split; simpl; rewrite ?Hent; [done|constructor|by intros ? ?%elem_of_nil]. }
  revert Hinv. generalize (w, ts), (w', ts'), Hsteps. clear.
  intros st st' Hsteps. induction Hsteps as [|st1 st2 st3 Hs _ IH]; [done|].
  intros Hinv. apply IH. by eapply script_inv_step.
Qed.

(** ** The registry *)
Inductive registry_op (R : Type) :=
  | op_register (kind : string) (runtime : R) (description : string) (safe timeout : bool)
  | op_production.
Arguments op_register {R}.
Arguments op_production {R}.

Definition run_registry_op {R} (op : registry_op R) (r : ScriptRuntimeRegistry.t R)
    : ScriptRuntimeRegistry.t R :=
  match op with
  | op_register kind runtime description safe timeout =>
      ScriptRuntimeRegistry.register kind runtime description safe timeout r
  | op_production => ScriptRuntimeRegistry.enable_production_mode r
  end.

Definition run_registry_ops {R} (ops : list (registry_op R)) (r : ScriptRuntimeRegistry.t R) :=
  foldl (λ r op, run_registry_op op r) r ops.

(** The last registration of a kind. *)
Definition last_registration {R} (kind : string) (ops : list (registry_op R))
    : option (R * bool) :=
  foldl (λ acc op,
    match op with
    | op_register kind' runtime _ safe _ =>
        if decide (kind = kind') then Some (runtime, safe) else acc
    | op_production => acc
    end) None ops.

(** What a kind is registered as. *)
Definition registration {R} (kind : string) (r : ScriptRuntimeRegistry.t R) : option (R * bool) :=
  match ScriptRuntimeRegistry.get kind r, ScriptRuntimeRegistry.get_descriptor kind r with
  | Some runtime, Some d => Some (runtime, sd_is_safe_for_production d)
  | _, _ => None
  end.

Definition registry_paired {R} (kind : string) (r : ScriptRuntimeRegistry.t R) : Prop :=
  is_Some (ScriptRuntimeRegistry.get kind r) ↔
  is_Some (ScriptRuntimeRegistry.get_descriptor kind r).

Definition op_production_in {R} (ops : list (registry_op R)) : bool :=
  existsb (λ op, match op with op_production => true | _ => false end) ops.

Lemma run_registry_ops_spec {R} kind (ops : list (registry_op R)) :
  let r := run_registry_ops ops ScriptRuntimeRegistry.__init__ in
  registration kind r = last_registration kind ops ∧ registry_paired kind r ∧
  ScriptRuntimeRegistry._production_mode r =
    op_production_in ops.
Proof.
  induction ops as [|op ops IH] using rev_ind; [repeat split; intros []; done|].
  unfold run_registry_ops, last_registration, op_production_in in *. rewrite !foldl_snoc, existsb_app. simpl.
  destruct IH as (IH1 & IH2 & IH3). rewrite <- IH1, <- IH3.
  destruct op as [kind' runtime description safe timeout|]; simpl;
    [|by rewrite orb_true_r].
  rewrite !orb_false_r.
  unfold registration, registry_paired, ScriptRuntimeRegistry.get,
    ScriptRuntimeRegistry.get_descriptor in *. simpl. rewrite !od_get_set.
  case_decide; [|done]. done.
Qed.

(** After any registrations, a dispatch runs the runtime that was last
    registered for the script's kind; once production mode was enabled, before
    or after the registration, it runs only one registered as safe.  A kind
    that is not registered, or an unsafe one in production, raises and runs
    nothing. *)
Theorem dispatch_routes {R E} (run : R → ScriptActivityInput → M E ScriptResult) ops i :
  let r := run_registry_ops ops ScriptRuntimeRegistry.__init__ in
  match last_registration (sc_host_kind i) ops with
  | Some (runtime, safe) =>
      if negb (op_production_in ops) || safe
      then ScriptRuntimeRegistry.dispatch run r i = run runtime i
      else ∃ msg, ScriptRuntimeRegistry.dispatch run r i = raise (Exn RuntimeError msg)
  | None => ∃ msg, ScriptRuntimeRegistry.dispatch run r i = raise (Exn KeyError msg)
  end.
Proof.
  intros r. destruct (run_registry_ops_spec (sc_host_kind i) ops) as (H1 & H2 & H3).
  fold r in H1, H2, H3. rewrite <- H1, <- H3. clear H1 H3.
  revert H2. unfold registration, registry_paired, ScriptRuntimeRegistry.dispatch,
    ScriptRuntimeRegistry.get, ScriptRuntimeRegistry.get_descriptor.
  destruct (od_get _ (ScriptRuntimeRegistry._runtimes r)) as [runtime|];
    destruct (od_get _ (ScriptRuntimeRegistry._descriptors r)) as [d|]; intros Hp.
  - destruct (ScriptRuntimeRegistry._production_mode r), (sd_is_safe_for_production d);
      simpl; eauto.
  - destruct Hp as [Hp _]. destruct (Hp (mk_is_Some _ _ eq_refl)). done.
  - destruct Hp as [_ Hp]. destruct (Hp (mk_is_Some _ _ eq_refl)). done.
  - eauto.
Qed.

(** ** A concrete script, whose first run fails *)
Definition example_script : ScriptActivityInput := {|
  sc_run_id := "run-1"; sc_action_id := "a1"; sc_script_id := "s1";
  sc_script_content := "exit 1"; sc_host_kind := "local_process"; sc_parameters := [];
  sc_timeout_ms := 30000; sc_heartbeat_interval_ms := 5000 |}.

(** A runtime that counts its calls and raises. *)
Definition failing_runtime (i : ScriptActivityInput) : M nat ScriptResult :=
  modify Datatypes.S;; raise (Exn RuntimeError "script failed").

Definition example_script_world : script_world InMemoryDedupeStore.t nat :=
  ScriptWorld InMemoryDedupeStore.__init__ O [].

(** The caller that tries again after the exception is told exit code 0. *)
Example failure_answered_as_success :
  let run := DedupeAwareScriptRuntime.execute_script failing_runtime example_script in
  let '(first, w1) := run example_script_world in
  let '(second, w2) := run w1 in
  is_ok first = false ∧ second = Ok (DedupeAwareScriptRuntime.noop_result example_script) ∧ sw_env w2 = 1%nat.
Proof. vm_compute. done. Qed.

Lemma execute_script_outcome_witness :
  let '(o, w') :=
    DedupeAwareScriptRuntime.execute_script failing_runtime example_script example_script_world in
  (o, sw_env w') = (Raise (Exn RuntimeError "script failed"), 1%nat) ∧
  sw_entered w' = ["script:run-1:a1:s1"] ∧
  ds_view (sw_store w') !! "script:run-1:a1:s1" = Some (script_record example_script unknown_effect).
Proof.
  pose proof (execute_script_outcome failing_runtime example_script example_script_world I) as Hrun.
  vm_compute in Hrun. vm_compute. destruct Hrun as (_ & ? & ? & _). split_and!; done.
Defined.

(** Run, end with the failure, restart, and start again. *)
Lemma script_at_most_once_witness :
  let enter := DedupeAwareScriptRuntime.script_enter (E := nat) example_script in
  let exit := DedupeAwareScriptRuntime.script_exit example_script
                (Raise (Exn RuntimeError "script failed")) in
  let w1 := (enter example_script_world).2 in
  let w2 := (exit w1).2 in
  let w3 := (enter w2).2 in
  NoDup (sw_entered w3) ∧ sw_entered w3 = ["script:run-1:a1:s1"].
Proof.
  intros enter exit w1 w2 w3. split; [|vm_compute; reflexivity].
  apply (script_at_most_once example_script_world w3 [] []); [exact I|reflexivity|].
  apply (rtc_l _ _ (w1, [example_script])).
  { apply (script_starts _ _ [] example_script). vm_compute. reflexivity. }
  apply (rtc_l _ _ (w2, [])).
  { apply (script_ends w1 w2 [] [] example_script (Raise (Exn RuntimeError "script failed"))
             (exit w1).1). vm_compute. reflexivity. }
  apply rtc_once. apply (script_refused w2 w3 [] example_script (enter w2).1).
  - vm_compute. reflexivity.
  - vm_compute. discriminate.
Defined.
