(* ===== verification/IdempotencyKey.v ===== *)
(** * Idempotency keys ([kernel/idempotency_key_policy.py]) *)
From S2P Require Export Contracts Sha256.
From Stdlib Require Import Ascii.

Module IdempotencyKeyPolicy.
Fixpoint _canonicalize_json (value : pyval) : pyval :=
  match value with
  | PNone | PBool _ | PInt _ | PFloat _ | PStr _ => value
  | PDict d => PDict (map (λ kv, (fst kv, _canonicalize_json (snd kv))) d)
  | PList l => PList (map _canonicalize_json l)
  end.

Definition _content_hash (action : Action) (snapshot_hash : string) : string :=
  let input_json_value := default [] (act_input_json action) in
  let payload := PDict
    [ ("action_type", PStr (act_action_type action));
      ("input_json", _canonicalize_json (PDict input_json_value));
      ("policy_tags", PList (map PStr (act_policy_tags action)));
      ("effect_class", PStr (effect_class_str (act_effect_class action)));
      ("snapshot_hash", PStr snapshot_hash) ] in
  let serialized := json_dumps true payload in
  sha256_hex (utf8_encode serialized).

Definition generate (run_id : string) (action : Action) (snapshot_hash namespace : string)
    : string :=
  let content_hash := _content_hash action snapshot_hash in
  namespace +:+ ":" +:+ run_id +:+ ":" +:+ act_action_id action +:+ ":" +:+ content_hash.

Definition generate_compensation_key (effect_class action_id : string) : string :=
  "compensation:" +:+ effect_class +:+ ":" +:+ action_id.
End IdempotencyKeyPolicy.

(** ** Colon-separated formats *)

(** The first colon-free field of a key determines itself and the rest. *)
Lemma colon_field_inj a b r r' :
  py_contains_char ":" a = false → py_contains_char ":" b = false →
  a +:+ ":" +:+ r = b +:+ ":" +:+ r' → a = b ∧ r = r'.
Proof.
  revert b. induction a as [|c a IH]; intros [|d b]; simpl.
  - intros _ _ [= ?]. done.
  - intros _ Hb [= <- _]. by rewrite decide_True in Hb.
  - intros Ha _ [= -> _]. by rewrite decide_True in Ha.
  - intros Ha Hb [= -> H]. repeat case_decide; try done.
    destruct (IH b Ha Hb H) as [-> ->]. done.
Qed.

(** Two actions that differ only in how their ids split around a colon. *)
Definition colon_action (run_id action_id : string) : Action := {|
  act_action_id := action_id; act_run_id := run_id; act_action_type := "tool_call";
  act_effect_class := IDEMPOTENT_WRITE; act_external_idempotency_level := None;
  act_interaction_target := None; act_input_ref := None; act_input_json := None;
  act_policy_tags := []; act_timeout_ms := None; act_side_effect_class := None |}.

(** The content hash sees the type, input, tags and effect class of an action
    and nothing else of it. *)
Lemma content_hash_ext a a' h :
  act_action_type a = act_action_type a' → act_input_json a = act_input_json a' →
  act_policy_tags a = act_policy_tags a' → act_effect_class a = act_effect_class a' →
  IdempotencyKeyPolicy._content_hash a h = IdempotencyKeyPolicy._content_hash a' h.
Proof. unfold IdempotencyKeyPolicy._content_hash. by intros -> -> -> ->. Qed.

(** Dispatch keys of one namespace identify the run, the action and the
    hashed content as long as run and action ids hold no colon; when ids may
    hold colons, two different (run, action) pairs can share a key. *)
Theorem generate_identifies_dispatch run1 run2 (a1 a2 : Action) h1 h2 ns :
  (py_contains_char ":" ns = false →
   py_contains_char ":" run1 = false → py_contains_char ":" run2 = false →
   py_contains_char ":" (act_action_id a1) = false →
   py_contains_char ":" (act_action_id a2) = false →
   IdempotencyKeyPolicy.generate run1 a1 h1 ns = IdempotencyKeyPolicy.generate run2 a2 h2 ns →
   run1 = run2 ∧ act_action_id a1 = act_action_id a2 ∧
   IdempotencyKeyPolicy._content_hash a1 h1 = IdempotencyKeyPolicy._content_hash a2 h2) ∧
  IdempotencyKeyPolicy.generate "r:x" (colon_action "r:x" "a") h1 ns
  = IdempotencyKeyPolicy.generate "r" (colon_action "r" "x:a") h1 ns.
Proof.
  unfold IdempotencyKeyPolicy.generate. split.
  - intros Hns Hr1 Hr2 Ha1 Ha2 H.
    apply colon_field_inj in H as [_ H]; [|done..].
    apply colon_field_inj in H as [-> H]; [|done..].
    apply colon_field_inj in H as [-> ->]; done.
  - rewrite (content_hash_ext (colon_action "r:x" "a") (colon_action "r" "x:a")) by done.
    by generalize (IdempotencyKeyPolicy._content_hash (colon_action "r" "x:a") h1).
Qed.

Lemma generate_identifies_dispatch_witness :
  IdempotencyKeyPolicy.generate "run-1" (colon_action "run-1" "a") "h" "dispatch"
  ≠ IdempotencyKeyPolicy.generate "run-2" (colon_action "run-2" "a") "h" "dispatch".
Proof.
  intros Heq.
  assert ("run-1" = "run-2") as Hne; [|discriminate Hne].
  refine (proj1 (proj1 (generate_identifies_dispatch "run-1" "run-2"
    (colon_action "run-1" "a") (colon_action "run-2" "a") "h" "h" "dispatch") _ _ _ _ _ Heq));
    reflexivity.
Defined.
