(* ===== verification/CapabilitySnapshot.v ===== *)
(** * Capability snapshots ([kernel/capability_snapshot.py])

    The canonical form of the declared capability inputs and its stable hash.
    The creation time is an argument of [build]. *)
From S2P Require Export Contracts Sha256.

Record DeclarativeBundleDigest := {
  bundle_ref : string;
  semantics_version : string;
  content_hash : string;
  compile_hash : string
}.

Record CapabilitySnapshotInput := {
  si_run_id : string;
  si_based_on_offset : Z;
  si_tenant_policy_ref : string;
  si_permission_mode : string;
  si_tool_bindings : list string;
  si_mcp_bindings : list string;
  si_skill_bindings : list string;
  si_feature_flags : list string;
  si_context_binding_ref : option string;
  si_context_content_hash : option string;
  si_budget_ref : option string;
  si_quota_ref : option string;
  si_session_mode : option string;
  si_approval_state : option string;
  si_declarative_bundle_digest : option DeclarativeBundleDigest;
  si_peer_run_bindings : list string
}.

Record CapabilitySnapshot := {
  cs_snapshot_ref : string;
  cs_snapshot_hash : string;
  cs_run_id : string;
  cs_based_on_offset : Z;
  cs_tenant_policy_ref : string;
  cs_permission_mode : string;
  cs_tool_bindings : list string;
  cs_mcp_bindings : list string;
  cs_skill_bindings : list string;
  cs_feature_flags : list string;
  cs_context_binding_ref : option string;
  cs_context_content_hash : option string;
  cs_budget_ref : option string;
  cs_quota_ref : option string;
  cs_session_mode : option string;
  cs_approval_state : option string;
  cs_declarative_bundle_digest : option DeclarativeBundleDigest;
  cs_created_at : string;
  cs_snapshot_schema_version : string;
  cs_peer_run_bindings : list string
}.

Definition _CURRENT_SNAPSHOT_SCHEMA_VERSION : string := "1".

(** [sorted({value for value in values if value})]. *)
Definition _normalize_string_list (values : list string) : list string :=
  merge_sort String.le (remove_dups (filter (λ value, value ≠ "") values)).

Definition _normalize_bundle_digest (digest : option DeclarativeBundleDigest) : pyval :=
  match digest with
  | None => PNone
  | Some d => PDict
      [ ("bundle_ref", PStr (bundle_ref d));
        ("semantics_version", PStr (semantics_version d));
        ("content_hash", PStr (content_hash d));
        ("compile_hash", PStr (compile_hash d)) ]
  end.

Definition _build_stable_sha256 (payload : pyval) : string :=
  let canonical_json := json_dumps false payload in
  sha256_hex (utf8_encode canonical_json).

Definition is_empty_str (s : string) : bool := bool_decide (s = "").

(** Truth value of an optional string. *)
Definition truthy_opt (o : option string) : bool :=
  match o with Some s => negb (is_empty_str s) | None => false end.

Definition build_error (msg : string) : exn := Exn CapabilitySnapshotBuildError msg.

Definition _validate_input (input_value : CapabilitySnapshotInput) : outcome unit :=
  if is_empty_str (si_run_id input_value) then Raise (build_error "run_id is required.")
  else if (si_based_on_offset input_value <? 0)%Z
       then Raise (build_error "based_on_offset must be >= 0.")
  else if is_empty_str (si_tenant_policy_ref input_value)
       then Raise (build_error "tenant_policy_ref is required.")
  else if is_empty_str (si_permission_mode input_value)
       then Raise (build_error "permission_mode is required.")
  else if truthy_opt (si_context_binding_ref input_value)
          && negb (truthy_opt (si_context_content_hash input_value))
       then Raise (build_error
              "context_content_hash is required when context_binding_ref is set.")
  else Ok tt.

Definition canonical_payload (i : CapabilitySnapshotInput) : pyval :=
  PDict
    [ ("snapshot_schema_version", PStr _CURRENT_SNAPSHOT_SCHEMA_VERSION);
      ("run_id", PStr (si_run_id i));
      ("based_on_offset", PInt (si_based_on_offset i));
      ("tenant_policy_ref", PStr (si_tenant_policy_ref i));
      ("permission_mode", PStr (si_permission_mode i));
      ("tool_bindings", str_list (_normalize_string_list (si_tool_bindings i)));
      ("mcp_bindings", str_list (_normalize_string_list (si_mcp_bindings i)));
      ("skill_bindings", str_list (_normalize_string_list (si_skill_bindings i)));
      ("feature_flags", str_list (_normalize_string_list (si_feature_flags i)));
      ("context_content_hash", opt_str (si_context_content_hash i));
      ("budget_ref", opt_str (si_budget_ref i));
      ("quota_ref", opt_str (si_quota_ref i));
      ("session_mode", opt_str (si_session_mode i));
      ("approval_state", opt_str (si_approval_state i));
      ("declarative_bundle_digest",
        _normalize_bundle_digest (si_declarative_bundle_digest i));
      ("peer_run_bindings", str_list (_normalize_string_list (si_peer_run_bindings i))) ].

(** [CapabilitySnapshotBuilder.build]; [now] is [_utc_now_iso()]. *)
Definition build (now : string) (input_value : CapabilitySnapshotInput)
    : outcome CapabilitySnapshot :=
  _validate_input input_value;;
  let snapshot_hash := _build_stable_sha256 (canonical_payload input_value) in
  let snapshot_ref :=
    "snapshot:" +:+ si_run_id input_value +:+ ":" +:+ pretty (si_based_on_offset input_value)
    +:+ ":" +:+ string_take 12 snapshot_hash in
  Ok {| cs_snapshot_ref := snapshot_ref;
        cs_snapshot_hash := snapshot_hash;
        cs_run_id := si_run_id input_value;
        cs_based_on_offset := si_based_on_offset input_value;
        cs_tenant_policy_ref := si_tenant_policy_ref input_value;
        cs_permission_mode := si_permission_mode input_value;
        cs_tool_bindings := _normalize_string_list (si_tool_bindings input_value);
        cs_mcp_bindings := _normalize_string_list (si_mcp_bindings input_value);
        cs_skill_bindings := _normalize_string_list (si_skill_bindings input_value);
        cs_feature_flags := _normalize_string_list (si_feature_flags input_value);
        cs_context_binding_ref := si_context_binding_ref input_value;
        cs_context_content_hash := si_context_content_hash input_value;
        cs_budget_ref := si_budget_ref input_value;
        cs_quota_ref := si_quota_ref input_value;
        cs_session_mode := si_session_mode input_value;
        cs_approval_state := si_approval_state input_value;
        cs_declarative_bundle_digest := si_declarative_bundle_digest input_value;
        cs_created_at := now;
        cs_snapshot_schema_version := _CURRENT_SNAPSHOT_SCHEMA_VERSION;
        cs_peer_run_bindings := _normalize_string_list (si_peer_run_bindings input_value) |}.

Definition assert_snapshot_compatible (snapshot : CapabilitySnapshot) : outcome unit :=
  if decide (cs_snapshot_schema_version snapshot ≠ _CURRENT_SNAPSHOT_SCHEMA_VERSION)
  then Raise (Exn ValueError
         ("CapabilitySnapshot schema_version=" +:+ str_repr (cs_snapshot_schema_version snapshot)
          +:+ " is incompatible with the current kernel version ("
          +:+ str_repr _CURRENT_SNAPSHOT_SCHEMA_VERSION
          +:+ "). Rebuild the snapshot using CapabilitySnapshotBuilder."))
  else Ok tt.

(** ** Canonical lists *)

Lemma elem_of_normalize x l : x ∈ _normalize_string_list l ↔ x ∈ l ∧ x ≠ "".
Proof.
  unfold _normalize_string_list.
  rewrite merge_sort_Permutation, elem_of_remove_dups, list_elem_of_filter. naive_solver.
Qed.

Lemma NoDup_normalize l : NoDup (_normalize_string_list l).
Proof.
  unfold _normalize_string_list. rewrite merge_sort_Permutation. apply NoDup_remove_dups.
Qed.

Lemma Sorted_normalize l : Sorted String.le (_normalize_string_list l).
Proof. apply Sorted_merge_sort, _. Qed.

(** Two binding lists that mean the same: they hold the same non-empty names. *)
Definition same_bindings (l1 l2 : list string) : Prop :=
  ∀ x, x ≠ "" → x ∈ l1 ↔ x ∈ l2.

#[export] Instance same_bindings_equiv : Equivalence same_bindings.
Proof. unfold same_bindings. split; [by intros l x|by intros l1 l2 H x ?; symmetry; apply H|].
  intros l1 l2 l3 H12 H23 x Hx. by rewrite (H12 x Hx), (H23 x Hx).
Qed.

#[export] Instance normalize_proper :
  Proper (same_bindings ==> eq) _normalize_string_list.
Proof.
  intros l1 l2 Hl. apply (Sorted_unique String.le); try apply Sorted_normalize.
  apply NoDup_Permutation; try apply NoDup_normalize.
  intros x. rewrite !elem_of_normalize. split; intros [? Hx]; split; try done; by apply Hl.
Qed.

Lemma normalize_same l : same_bindings (_normalize_string_list l) l.
Proof. intros x Hx. rewrite elem_of_normalize. naive_solver. Qed.

Lemma normalize_idemp l : _normalize_string_list (_normalize_string_list l) = _normalize_string_list l.
Proof. apply normalize_proper, normalize_same. Qed.

(** ** Properties of the builder *)

(** Inputs that declare the same capabilities.  The mutable context reference
    is left out: only the hash of the context content counts. *)
Record same_capabilities (i1 i2 : CapabilitySnapshotInput) : Prop := {
  sc_run_id : si_run_id i1 = si_run_id i2;
  sc_offset : si_based_on_offset i1 = si_based_on_offset i2;
  sc_policy : si_tenant_policy_ref i1 = si_tenant_policy_ref i2;
  sc_mode : si_permission_mode i1 = si_permission_mode i2;
  sc_tools : same_bindings (si_tool_bindings i1) (si_tool_bindings i2);
  sc_mcp : same_bindings (si_mcp_bindings i1) (si_mcp_bindings i2);
  sc_skills : same_bindings (si_skill_bindings i1) (si_skill_bindings i2);
  sc_flags : same_bindings (si_feature_flags i1) (si_feature_flags i2);
  sc_context_hash : si_context_content_hash i1 = si_context_content_hash i2;
  sc_budget : si_budget_ref i1 = si_budget_ref i2;
  sc_quota : si_quota_ref i1 = si_quota_ref i2;
  sc_session : si_session_mode i1 = si_session_mode i2;
  sc_approval : si_approval_state i1 = si_approval_state i2;
  sc_bundle : si_declarative_bundle_digest i1 = si_declarative_bundle_digest i2;
  sc_peers : same_bindings (si_peer_run_bindings i1) (si_peer_run_bindings i2)
}.

#[export] Instance canonical_payload_proper :
  Proper (same_capabilities ==> eq) canonical_payload.
Proof.
  intros i1 i2 Hi. unfold canonical_payload.
  destruct Hi as [-> -> -> -> Ht Hm Hs Hf -> -> -> -> -> -> Hp].
  by rewrite (normalize_proper _ _ Ht), (normalize_proper _ _ Hm), (normalize_proper _ _ Hs),
    (normalize_proper _ _ Hf), (normalize_proper _ _ Hp).
Qed.

Lemma build_Ok now i c :
  build now i = Ok c →
  _validate_input i = Ok tt ∧
  cs_snapshot_hash c = _build_stable_sha256 (canonical_payload i) ∧
  cs_snapshot_ref c =
    "snapshot:" +:+ si_run_id i +:+ ":" +:+ pretty (si_based_on_offset i) +:+ ":"
    +:+ string_take 12 (cs_snapshot_hash c) ∧
  cs_run_id c = si_run_id i ∧ cs_based_on_offset c = si_based_on_offset i ∧
  cs_snapshot_schema_version c = _CURRENT_SNAPSHOT_SCHEMA_VERSION ∧
  cs_tool_bindings c = _normalize_string_list (si_tool_bindings i) ∧
  cs_peer_run_bindings c = _normalize_string_list (si_peer_run_bindings i).
Proof.
  unfold build. destruct (_validate_input i) as [[]|]; [|done].
  generalize (_build_stable_sha256 (canonical_payload i)). intros h [= <-]. done.
Qed.

(** C34: snapshots of inputs that declare the same capabilities, whatever the
    order or repetition of their bindings, the creation time and the context
    reference, have the same hash and the same reference. *)
Theorem snapshot_hash_semantic now1 now2 i1 i2 c1 c2 :
  same_capabilities i1 i2 → build now1 i1 = Ok c1 → build now2 i2 = Ok c2 →
  cs_snapshot_hash c1 = cs_snapshot_hash c2 ∧ cs_snapshot_ref c1 = cs_snapshot_ref c2.
Proof.
  intros Hi H1 H2. apply build_Ok in H1 as (_ & Hh1 & Hr1 & _). apply build_Ok in H2 as (_ & Hh2 & Hr2 & _).
  assert (cs_snapshot_hash c1 = cs_snapshot_hash c2) as Hh by (rewrite Hh1, Hh2; by rewrite Hi).
  split; [done|]. rewrite Hr1, Hr2, Hh. by destruct Hi as [-> -> _ _ _ _ _ _ _ _ _ _ _ _ _].
Qed.

(** The builder succeeds exactly on complete inputs and otherwise raises
    CapabilitySnapshotBuildError; what it builds is schema compatible and its
    bindings are the non-empty declared names, sorted and without repetition. *)
Theorem build_validates now i :
  match build now i with
  | Ok c =>
      si_run_id i ≠ "" ∧ (0 ≤ si_based_on_offset i)%Z ∧ si_tenant_policy_ref i ≠ "" ∧
      si_permission_mode i ≠ "" ∧
      (truthy_opt (si_context_binding_ref i) = true →
       truthy_opt (si_context_content_hash i) = true) ∧
      assert_snapshot_compatible c = Ok tt ∧
      Sorted String.le (cs_tool_bindings c) ∧ NoDup (cs_tool_bindings c) ∧
      ∀ x, x ∈ cs_tool_bindings c ↔ x ∈ si_tool_bindings i ∧ x ≠ ""
  | Raise e =>
      exn_cls e = CapabilitySnapshotBuildError ∧
      (si_run_id i = "" ∨ (si_based_on_offset i < 0)%Z ∨ si_tenant_policy_ref i = "" ∨
       si_permission_mode i = "" ∨
       truthy_opt (si_context_binding_ref i) = true ∧
       truthy_opt (si_context_content_hash i) = false)
  end.
Proof.
  destruct (build now i) as [c|e] eqn:Hb.
  - apply build_Ok in Hb as (Hv & _ & _ & _ & _ & Hver & Ht & _). rewrite Ht.
    unfold assert_snapshot_compatible. rewrite Hver, decide_False by naive_solver.
    unfold _validate_input, is_empty_str in Hv. case_bool_decide; [done|].
    destruct (Z.ltb_spec (si_based_on_offset i) 0); [done|].
    case_bool_decide; [done|]. case_bool_decide; [done|].
    split_and!; try done; [|apply Sorted_normalize|apply NoDup_normalize|
      intros x; apply elem_of_normalize].
    intros Hc. rewrite Hc in Hv. by destruct (truthy_opt (si_context_content_hash i)).
  - revert Hb. unfold build, _validate_input, is_empty_str.
    case_bool_decide; [intros [= <-]; naive_solver|].
    destruct (Z.ltb_spec (si_based_on_offset i) 0); [intros [= <-]; naive_solver|].
    case_bool_decide; [intros [= <-]; naive_solver|].
    case_bool_decide; [intros [= <-]; naive_solver|].
    destruct (truthy_opt (si_context_binding_ref i)), (truthy_opt (si_context_content_hash i));
      simpl; intros Hb; try done. simplify_eq/=. split; [done|]. naive_solver.
Qed.

Definition example_input (tools : list string) (ctx : option string) : CapabilitySnapshotInput := {|
  si_run_id := "run-1"; si_based_on_offset := 3; si_tenant_policy_ref := "policy:default";
  si_permission_mode := "strict"; si_tool_bindings := tools; si_mcp_bindings := [];
  si_skill_bindings := []; si_feature_flags := []; si_context_binding_ref := ctx;
  si_context_content_hash := Some "c0"; si_budget_ref := None; si_quota_ref := None;
  si_session_mode := None; si_approval_state := None; si_declarative_bundle_digest := None;
  si_peer_run_bindings := [] |}.

Lemma snapshot_hash_semantic_witness :
  match build "t0" (example_input ["web"; "fs"; "web"; ""] None),
        build "t1" (example_input ["fs"; "web"] (Some "ctx-9")) with
  | Ok c1, Ok c2 => cs_snapshot_hash c1 = cs_snapshot_hash c2
  | _, _ => False
  end.
Proof.
  destruct (build "t0" (example_input ["web"; "fs"; "web"; ""] None)) as [c1|e] eqn:H1;
    [|discriminate H1].
  destruct (build "t1" (example_input ["fs"; "web"] (Some "ctx-9"))) as [c2|e] eqn:H2;
    [|discriminate H2].
  apply (snapshot_hash_semantic "t0" "t1" (example_input ["web"; "fs"; "web"; ""] None)
           (example_input ["fs"; "web"] (Some "ctx-9")) c1 c2); [|exact H1|exact H2].
  split; try reflexivity. intros x Hx. cbn. set_solver.
Defined.
