(* ===== verification/Cognition.v ===== *)
(** * The reasoning cycle ([kernel/reasoning_loop.py], [kernel/cognitive/])

    Context assembly, the gateway interface with its retry helper and the
    deterministic gateway, the output parsers and the loop that runs them.
    Logging and the observability hook are left out. *)
From S2P Require Export CapabilitySnapshot PyJson.
From Stdlib Require Import Ascii.

(** ** Data ([kernel/contracts.py]) *)
Record TokenBudget := {
  tb_max_input : Z;
  tb_max_output : Z;
  tb_reasoning_budget : option Z
}.

Record InferenceConfig := {
  ic_model_ref : string;
  ic_token_budget : TokenBudget;
  ic_temperature : spec_float;
  ic_stop_sequences : list string;
  ic_turn_kind_overrides : odict TokenBudget
}.

Record ToolDefinition := {
  td_name : string; td_description : string; td_input_schema : pydict
}.

Record SkillSummary := {
  ss_skill_id : string; ss_description : string; ss_script_ids : list string;
  ss_input_schema : option pydict
}.

Record ContextWindow := {
  cw_system_instructions : string;
  cw_tool_definitions : list ToolDefinition;
  cw_skill_definitions : list SkillSummary;
  cw_history : list pydict;
  cw_current_state : pydict;
  cw_memory_ref : option string;
  cw_recovery_context : option pydict;
  cw_inference_config : option InferenceConfig
}.

Record TokenUsage := {
  tu_input_tokens : Z; tu_output_tokens : Z; tu_reasoning_tokens : Z
}.

Inductive FinishReason := finish_stop | finish_tool_calls | finish_length | finish_error.

Record ModelOutput := {
  mo_raw_text : string;
  mo_tool_calls : list pydict;
  mo_finish_reason : FinishReason;
  mo_usage : odict Z;
  mo_latency_ms : Z;
  mo_token_usage : option TokenUsage
}.

Record InferenceActivityInput := {
  ia_run_id : string;
  ia_turn_id : string;
  ia_context_window : ContextWindow;
  ia_config : InferenceConfig;
  ia_idempotency_key : string
}.

(** ** Context assembly *)
Module InMemoryContextPort.
Definition authority_value (a : EventAuthority) : string :=
  match a with
  | authoritative_fact => "authoritative_fact"
  | derived_replayable => "derived_replayable"
  | derived_diagnostic => "derived_diagnostic"
  end.

Definition newline : string := String "010"%char "".

Definition _build_system_instructions (snapshot : CapabilitySnapshot) : string :=
  match cs_feature_flags snapshot with
  | [] => ""
  | flags => string_join newline flags
  end.

Definition _build_tool_definitions (snapshot : CapabilitySnapshot) : list ToolDefinition :=
  map (λ name, {| td_name := name; td_description := "Tool binding: " +:+ name;
                  td_input_schema := [("type", PStr "object"); ("properties", PDict [])] |})
    (cs_tool_bindings snapshot).

Definition _build_skill_definitions (snapshot : CapabilitySnapshot) : list SkillSummary :=
  map (λ ref, {| ss_skill_id := ref; ss_description := "Skill binding: " +:+ ref;
                 ss_script_ids := []; ss_input_schema := None |})
    (cs_skill_bindings snapshot).

Definition assemble (run_id : string) (snapshot : CapabilitySnapshot) (history : list RuntimeEvent)
    (inference_config : option InferenceConfig) (recovery_context : option pydict) : ContextWindow :=
  {| cw_system_instructions := _build_system_instructions snapshot;
     cw_tool_definitions := _build_tool_definitions snapshot;
     cw_skill_definitions := _build_skill_definitions snapshot;
     cw_history := map (λ e, [("role", PStr (authority_value (ev_event_authority e)));
                              ("content", PStr (ev_event_type e))]) history;
     cw_current_state := [("projected_events", PInt (Z.of_nat (length history)))];
     cw_memory_ref := None;
     cw_recovery_context := recovery_context;
     cw_inference_config := inference_config |}.
End InMemoryContextPort.

(** ** Gateways *)

(** Four characters a token, over the instructions and the history. *)
Definition count_tokens (context : ContextWindow) : Z :=
  let chars s := Z.of_nat (String.length s) in
  let total_chars := foldl (λ total msg,
    foldl (λ n kv, n + chars (py_str (snd kv)))%Z total msg)
    (chars (cw_system_instructions context)) (cw_history context) in
  Z.max 1 (total_chars / 4).

Module EchoLLMGateway.
Definition infer (context : ContextWindow) (config : InferenceConfig) (idempotency_key : string)
    : ModelOutput :=
  let n := count_tokens context in
  let usage := [("input_tokens", n); ("output_tokens", 10%Z)] in
  let token_usage := {| tu_input_tokens := n; tu_output_tokens := 10; tu_reasoning_tokens := 0 |} in
  match cw_tool_definitions context with
  | first_tool :: _ =>
      {| mo_raw_text := "";
         mo_tool_calls := [[("id", PStr ("echo-" +:+ string_take 8 idempotency_key));
                            ("name", PStr (td_name first_tool)); ("arguments", PDict [])]];
         mo_finish_reason := finish_tool_calls; mo_usage := usage; mo_latency_ms := 0;
         mo_token_usage := Some token_usage |}
  | [] =>
      {| mo_raw_text := "echo:" +:+ idempotency_key; mo_tool_calls := [];
         mo_finish_reason := finish_stop; mo_usage := usage; mo_latency_ms := 0;
         mo_token_usage := Some token_usage |}
  end.
End EchoLLMGateway.

(** [_parse_retry_after], of the headers of a response that has some. *)
Definition _parse_retry_after (headers : option (odict string)) : option spec_float :=
  h ← headers;
  raw ← match str_or (od_get "retry-after" h) None with
        | Some raw => Some raw
        | None => od_get "Retry-After" h
        end;
  py_float_of_str raw.

(** A call of a provider: it returns, or is refused for its rate with the
    [retry_after_s] of the error; other exceptions pass.  What is slept is a
    history variable. *)
Inductive provider_answer (A : Type) := Answered (a : A) | RateLimited (retry_after_s : option spec_float).
Arguments Answered {A}.
Arguments RateLimited {A}.

Record provider_world (S : Type) := ProviderWorld {
  pv_inner : S;
  pv_slept : list spec_float;
  pv_calls : nat
}.
Arguments ProviderWorld {S}.
Arguments pv_inner {S}.
Arguments pv_slept {S}.
Arguments pv_calls {S}.

Definition _MAX_RETRIES : nat := 3.
Definition _RETRY_BASE_DELAY_S : spec_float := float_of_decimal false 1 0.

Section provider.
Context {S A : Type} (coro_factory : M S (provider_answer A)).

Definition call_provider : M (provider_world S) (provider_answer A) := λ w,
  let '(o, s) := coro_factory (pv_inner w) in
  (o, ProviderWorld s (pv_slept w) (Datatypes.S (pv_calls w))).

Definition sleep_s (delay : spec_float) : M (provider_world S) unit :=
  modify (λ w, ProviderWorld (pv_inner w) (pv_slept w ++ [delay]) (pv_calls w)).

(** The loop from [attempt] on, [left] attempts to go; the last rate limit is
    the answer. *)
Fixpoint rate_limit_attempts (left attempt : nat) (backoff : spec_float)
    (last : option (option spec_float)) : M (provider_world S) (provider_answer A) :=
  match left with
  | O =>
      match last with
      | Some retry_after_s => mret (RateLimited retry_after_s)
      | None => raise (Exn TypeError "exceptions must derive from BaseException")
      end
  | Datatypes.S left' =>
      answer ← call_provider;
      match answer with
      | Answered a => mret (Answered a)
      | RateLimited retry_after_s =>
          if attempt <? _MAX_RETRIES - 1 then
            sleep_s (default backoff retry_after_s);;
            rate_limit_attempts left' (Datatypes.S attempt)
              (SFmul prec64 emax64 backoff (float_of_decimal false 2 0)) (Some retry_after_s)
          else rate_limit_attempts left' (Datatypes.S attempt) backoff (Some retry_after_s)
      end
  end.

Definition _with_rate_limit_retry : M (provider_world S) (provider_answer A) :=
  rate_limit_attempts _MAX_RETRIES 0 _RETRY_BASE_DELAY_S None.
End provider.

(** ** Output parsers *)
Definition unhashable (v : pyval) : exn :=
  Exn TypeError (match v with PList _ => "unhashable type: 'list'" | _ => "unhashable type: 'dict'" end).

(** [v] where a hashable value is needed. *)
Definition hashable (v : pyval) : outcome pyval :=
  match v with PList _ | PDict _ => Raise (unhashable v) | _ => Ok v end.

(** A field of the DTO that takes a text only. *)
Definition text_field (v : pyval) : outcome string :=
  match v with PStr s => Ok s | _ => Raise (Exn Unmodelled "a field of another type") end.

Definition parse_effect_class (s : string) : option EffectClass :=
  first_some (λ c, if decide (effect_class_str c = s) then Some c else None)
    [READ_ONLY; IDEMPOTENT_WRITE; COMPENSATABLE_WRITE; IRREVERSIBLE_WRITE].

Definition parsed_action (action_id run_id action_type : string) (effect_class : EffectClass)
    (interaction_target : option string) (input_json : option pydict) (timeout_ms : option Z)
    : Action :=
  {| act_action_id := action_id; act_run_id := run_id; act_action_type := action_type;
     act_effect_class := effect_class; act_external_idempotency_level := None;
     act_interaction_target := interaction_target; act_input_ref := None;
     act_input_json := input_json; act_policy_tags := []; act_timeout_ms := timeout_ms;
     act_side_effect_class := None |}.

(** [uuid4().hex] is drawn from the environment. *)
Section parsers.
Context {E : Type} (uuid4_hex : E → string * E).

Definition draw_id : M E string := λ e, let '(u, e') := uuid4_hex e in (Ok ("act-" +:+ u), e').

(** *** [ToolCallOutputParser] *)
Definition _resolve_action_id (tool_call : pydict) : M E string :=
  let raw_id := py_get_or "id" tool_call (PStr "") in
  if py_truthy raw_id then mret ("act-" +:+ py_str raw_id) else draw_id.

Definition parse_tool_call (tool_effect_class_map : odict EffectClass) (run_id : string)
    (tool_call : pydict) : M E Action :=
  action_id ← _resolve_action_id tool_call;
  name ← lift (hashable (py_get_or "name" tool_call (PStr "")));
  tool_name ← lift (text_field name);
  mret (parsed_action action_id run_id tool_name
          (default READ_ONLY (od_get tool_name tool_effect_class_map)) None
          (is_dict (py_get "arguments" tool_call)) None).

Fixpoint parse_tool_calls (tool_effect_class_map : odict EffectClass) (run_id : string)
    (calls : list pydict) : M E (list Action) :=
  match calls with
  | [] => mret []
  | tool_call :: calls' =>
      action ← parse_tool_call tool_effect_class_map run_id tool_call;
      actions ← parse_tool_calls tool_effect_class_map run_id calls';
      mret (action :: actions)
  end.

Definition tool_call_parse (tool_effect_class_map : odict EffectClass) (output : ModelOutput)
    (run_id : string) : M E (list Action) :=
  parse_tool_calls tool_effect_class_map run_id (mo_tool_calls output).

(** *** [JSONModeOutputParser] *)
Definition _VALID_INTERACTION_TARGETS : list string :=
  ["agent_peer"; "it_service"; "data_system"; "tool_executor"; "human_actor"; "event_stream"].

Definition item_timeout (v : pyval) : option Z :=
  match is_int v with
  | Some z => if (z <=? 0)%Z then None else Some z
  | None => None
  end.

Definition item_target (v : pyval) : option string :=
  match v with
  | PStr s => if decide (s ∈ _VALID_INTERACTION_TARGETS) then Some s else None
  | _ => None
  end.

Definition _parse_item (item : pyval) (run_id : string) : M E (option Action) :=
  match item with
  | PDict d =>
      match py_get "action_type" d with
      | PStr ((String _ _) as action_type) =>
          effect_class_raw ← lift (hashable (py_get "effect_class" d));
          match is_str effect_class_raw ≫= parse_effect_class with
          | None => mret None
          | Some effect_class =>
              interaction_target_raw ← lift (hashable (py_get "interaction_target" d));
              let raw_id := py_get "action_id" d in
              action_id ← (if py_truthy raw_id then lift (text_field raw_id) else draw_id);
              mret (Some (parsed_action action_id run_id action_type effect_class
                            (item_target interaction_target_raw) (is_dict (py_get "input_json" d))
                            (item_timeout (py_get "timeout_ms" d))))
          end
      | _ => mret None
      end
  | _ => mret None
  end.

Fixpoint parse_items (run_id : string) (items : list pyval) : M E (list Action) :=
  match items with
  | [] => mret []
  | item :: items' =>
      action ← _parse_item item run_id;
      actions ← parse_items run_id items';
      mret (match action with Some a => a :: actions | None => actions end)
  end.

Definition json_mode_parse (output : ModelOutput) (run_id : string) : M E (list Action) :=
  let raw := py_strip (mo_raw_text output) in
  if decide (raw = "") then mret []
  else
    match json_loads raw with
    | Raise e => if decide (exn_cls e = exn_cls JSONDecodeError) then mret [] else raise e
    | Ok (PList parsed) => parse_items run_id parsed
    | Ok _ => mret []
    end.
End parsers.

(** ** The loop *)
Record ReasoningResult := {
  rr_actions : list Action;
  rr_model_output : ModelOutput;
  rr_context_window : ContextWindow;
  rr_inference_config : InferenceConfig
}.

(** The three ports, over one environment. *)
Record ReasoningLoop (E : Type) := {
  rl_assemble : string → CapabilitySnapshot → list RuntimeEvent → InferenceConfig →
                option pydict → M E ContextWindow;
  rl_infer : ContextWindow → InferenceConfig → string → M E ModelOutput;
  rl_parse : ModelOutput → string → M E (list Action)
}.
Arguments rl_assemble {E}.
Arguments rl_infer {E}.
Arguments rl_parse {E}.

Section loop.
Context {E : Type} (uuid4_hex : E → string * E) (loop : ReasoningLoop E).

Definition draw_key : M E string := λ e, let '(u, e') := uuid4_hex e in (Ok u, e').

Definition run_once (run_id : string) (snapshot : CapabilitySnapshot) (history : list RuntimeEvent)
    (inference_config : InferenceConfig) (recovery_context : option pydict)
    (idempotency_key : option string) (prebuilt_context : option ContextWindow)
    : M E ReasoningResult :=
  resolved_key ← match str_or idempotency_key None with
                 | Some key => mret key
                 | None => draw_key
                 end;
  context_window ← match prebuilt_context with
                   | Some context => mret context
                   | None => rl_assemble loop run_id snapshot history inference_config recovery_context
                   end;
  model_output ← rl_infer loop context_window inference_config resolved_key;
  actions ← rl_parse loop model_output run_id;
  mret {| rr_actions := actions; rr_model_output := model_output;
          rr_context_window := context_window; rr_inference_config := inference_config |}.
End loop.

(** [execute_inference]: an estimate over the budget is logged, no more. *)
Definition execute_inference {E} (count : ContextWindow → string → M E Z)
    (infer : ContextWindow → InferenceConfig → string → M E ModelOutput)
    (i : InferenceActivityInput) : M E ModelOutput :=
  count (ia_context_window i) (ic_model_ref (ia_config i));;
  infer (ia_context_window i) (ia_config i) (ia_idempotency_key i).

(** ** What the parsers make of an output *)
Section parsed.
Context {E : Type} (uuid4_hex : E → string * E) (classes : odict EffectClass) (run_id : string).

Definition call_name (call : pydict) : pyval := py_get_or "name" call (PStr "").
Definition call_id (call : pydict) : pyval := py_get_or "id" call (PStr "").

Definition named (call : pydict) : Prop := is_Some (is_str (call_name call)).
Definition identified (call : pydict) : Prop := py_truthy (call_id call) = true.

(** [a] is the action of [call]. *)
Record action_of_call (call : pydict) (a : Action) : Prop := {
  ac_run : act_run_id a = run_id;
  ac_type : is_str (call_name call) = Some (act_action_type a);
  ac_class : act_effect_class a = default READ_ONLY (od_get (act_action_type a) classes);
  ac_input : act_input_json a = is_dict (py_get "arguments" call);
  ac_id : identified call → act_action_id a = "act-" +:+ py_str (call_id call)
}.

Lemma parse_tool_call_spec call e :
  named call →
  ∃ a e', parse_tool_call uuid4_hex classes run_id call e = (Ok a, e') ∧ action_of_call call a ∧
    (identified call → e' = e).
Proof.
  intros [name Hname]. unfold parse_tool_call, _resolve_action_id, draw_id, mbind, M_bind, lift.
  fold (call_id call) (call_name call).
  destruct (call_name call) as [| | | |s| |] eqn:Hn; simplify_eq/=.
  destruct (py_truthy (call_id call)) eqn:Hid; simpl.
  - eexists _, e. split; [done|]. split; [|done]. split; try done. by rewrite Hn.
  - destruct (uuid4_hex e) as [u e'] eqn:Hu. simpl. eexists _, e'. split; [done|].
    split; [|by unfold identified; rewrite Hid].
    split; try done; [by rewrite Hn|by unfold identified; rewrite Hid].
Qed.

Lemma parse_tool_calls_spec calls e :
  Forall named calls →
  ∃ actions e', parse_tool_calls uuid4_hex classes run_id calls e = (Ok actions, e') ∧
    Forall2 action_of_call calls actions ∧ (Forall identified calls → e' = e).
Proof.
  intros Hn. revert e. induction Hn as [|call calls Hc _ IH]; intros e; simpl.
  { exists [], e. split; [done|]. split; [constructor|done]. }
  unfold mbind, M_bind. destruct (parse_tool_call_spec call e Hc) as (a & e1 & -> & Ha & He1).
  destruct (IH e1) as (actions & e2 & -> & Has & He2). exists (a :: actions), e2.
  split; [done|]. split; [by constructor|].
  intros [? ?]%Forall_cons. by rewrite He2, He1.
Qed.

(** What the JSON parser admits as an action. *)
Record valid_action (a : Action) : Prop := {
  va_run : act_run_id a = run_id;
  va_type : act_action_type a ≠ "";
  va_target t : act_interaction_target a = Some t → t ∈ _VALID_INTERACTION_TARGETS;
  va_timeout z : act_timeout_ms a = Some z → (0 < z)%Z
}.

Lemma item_target_valid v t : item_target v = Some t → t ∈ _VALID_INTERACTION_TARGETS.
Proof. destruct v; simpl; try done. case_decide; [|done]. by intros [= <-]. Qed.

Lemma item_timeout_valid v z : item_timeout v = Some z → (0 < z)%Z.
Proof.
  unfold item_timeout. destruct (is_int v) as [n|]; [|done].
  destruct (n <=? 0)%Z eqn:Hn; [done|]. intros [= <-]. apply Z.leb_gt in Hn. lia.
Qed.

Lemma parse_item_valid item e :
  wp (_parse_item uuid4_hex item run_id) (λ o _, ∀ a, o = Some a → valid_action a) (λ _ _, True) e.
Proof.
  unfold _parse_item. destruct item as [| | | | | |d]; try by apply wp_ret.
  destruct (py_get "action_type" d) as [| | | |[|c s]| |]; try by apply wp_ret.
  apply wp_bind, wp_lift; [|done]. intros v _.
  destruct (is_str v ≫= parse_effect_class); [|by apply wp_ret].
  apply wp_bind, wp_lift; [|done]. intros v' _. apply wp_bind.
  eapply (wp_mono _ (λ _ _, True) _ (λ _ _, True)); [|intros id e'|done].
  - unfold wp. by match goal with |- context [let (_, _) := ?r in _] => destruct r as [[]] end.
  - intros _. apply wp_ret. intros a [= <-].
    split; simpl; [done|done|apply item_target_valid|apply item_timeout_valid].
Qed.

Lemma parse_items_valid items e :
  wp (parse_items uuid4_hex run_id items) (λ actions _, Forall valid_action actions)
    (λ _ _, True) e.
Proof.
  revert e. induction items as [|item items IH]; intros e; [by apply wp_ret; constructor|].
  cbn [parse_items]. apply wp_bind. eapply wp_mono; [apply parse_item_valid| |done].
  intros o e1 Ho. apply wp_bind. eapply wp_mono; [apply IH| |done].
  intros actions e2 Has. apply wp_ret. destruct o as [a|]; [constructor; auto|done].
Qed.
End parsed.

(** C31: the tool-call parser makes one action of each call, in order: of the
    run, of the type of the tool, read-only unless the tool's effect class was
    declared, with the arguments where they are a dictionary.  Where every call
    has an id, the ids of the actions are those of the calls and nothing is
    drawn, so that a repeated parse of one output gives the same actions in
    every environment. *)
Theorem tool_call_actions {E} (uuid4_hex : E → string * E) classes output run_id e :
  Forall named (mo_tool_calls output) →
  ∃ actions e',
    tool_call_parse uuid4_hex classes output run_id e = (Ok actions, e') ∧
    Forall2 (action_of_call classes run_id) (mo_tool_calls output) actions ∧
    (Forall identified (mo_tool_calls output) →
     e' = e ∧
     map act_action_id actions =
       map (λ call, "act-" +:+ py_str (call_id call)) (mo_tool_calls output)).
Proof.
  intros Hn. unfold tool_call_parse.
  destruct (parse_tool_calls_spec uuid4_hex classes run_id (mo_tool_calls output) e Hn)
    as (actions & e' & -> & Has & He).
  exists actions, e'. split_and!; [done..|]. intros Hid. split; [auto|]. clear He Hn.
  induction Has as [|call a calls actions Ha _ IH]; [done|].
  apply Forall_cons in Hid as [Hc Hid]. simpl. by rewrite (ac_id _ _ _ _ Ha Hc), IH.
Qed.

(** The JSON parser returns valid actions of the run only, and none for a text
    that is not a JSON array. *)
Theorem json_mode_actions {E} (uuid4_hex : E → string * E) output run_id e actions e' :
  json_mode_parse uuid4_hex output run_id e = (Ok actions, e') →
  Forall (valid_action run_id) actions ∧
  ((∀ l, json_loads (py_strip (mo_raw_text output)) ≠ Ok (PList l)) → actions = []).
Proof.
  intros Hrun. unfold json_mode_parse, mret, M_ret, raise in Hrun.
  case_decide; [by simplify_eq; split; [constructor|]|].
  destruct (json_loads _) as [v|x].
  - destruct v as [| | | | |l|]; simplify_eq; try (split; [constructor|done]).
    split; [|by intros Hno; destruct (Hno l)].
    apply (wp_run _ _ _ _ _ _ (parse_items_valid uuid4_hex run_id l e) Hrun).
  - case_decide; simplify_eq. split; [constructor|done].
Qed.

(** The rate-limit loop calls the provider at most three times, sleeps between
    the calls only, and answers a rate limit only after the third. *)
Theorem rate_limit_retries {S A} (call : M S (provider_answer A)) w :
  let '(o, w') := _with_rate_limit_retry call w in
  ∃ n, n < _MAX_RETRIES ∧ pv_calls w' = pv_calls w + Datatypes.S n ∧
    length (pv_slept w') = length (pv_slept w) + n ∧
    ∀ r, o = Ok (RateLimited r) → Datatypes.S n = _MAX_RETRIES.
Proof.
  unfold _with_rate_limit_retry, _MAX_RETRIES. cbn [rate_limit_attempts].
  unfold mbind, M_bind, call_provider, sleep_s, modify.
  destruct (call (pv_inner w)) as [[[a|r1]|x] s1].
  1,3: exists 0; simpl; split_and!; [lia..|done].
  simpl. destruct (call s1) as [[[a|r2]|x] s2].
  1,3: exists 1; simpl; rewrite length_app; simpl; split_and!; [lia..|done].
  simpl. destruct (call s2) as [[[a|r3]|x] s3];
    exists 2; simpl; rewrite !length_app; simpl; split_and!; try lia; done.
Qed.

(** ** The deterministic cycle *)
Definition echo_loop {E} (uuid4_hex : E → string * E) (classes : odict EffectClass)
    : ReasoningLoop E := {|
  rl_assemble run_id snapshot history config recovery :=
    mret (InMemoryContextPort.assemble run_id snapshot history (Some config) recovery);
  rl_infer context config key := mret (EchoLLMGateway.infer context config key);
  rl_parse := tool_call_parse uuid4_hex classes
|}.

(** With a key, the cycle over the in-memory context and the echo gateway asks
    for the first tool of the snapshot, with an id made of the key's first
    eight characters, and for nothing where the snapshot has no tool. *)
Theorem echo_cycle {E} (uuid4_hex : E → string * E) classes run_id snapshot history config recovery
    key e :
  key ≠ "" →
  ∃ r, run_once uuid4_hex (echo_loop uuid4_hex classes) run_id snapshot history config recovery
         (Some key) None e = (Ok r, e) ∧
    rr_actions r =
      match cs_tool_bindings snapshot with
      | [] => []
      | tool :: _ =>
          [parsed_action ("act-echo-" +:+ string_take 8 key) run_id tool
             (default READ_ONLY (od_get tool classes)) None (Some []) None]
      end.
Proof.
  intros Hkey. unfold run_once. cbn [str_or]. rewrite decide_False by done.
  unfold mbind, M_bind, mret, M_ret, echo_loop, EchoLLMGateway.infer.
  cbn -[string_take count_tokens tool_call_parse].
  unfold InMemoryContextPort._build_tool_definitions.
  destruct (cs_tool_bindings snapshot) as [|tool tools]; eexists; split; reflexivity.
Qed.

(** Against its docstring the JSON parser raises where an effect class is not
    hashable. *)
Example json_mode_raises :
  let text := "[{" +:+ dq "action_type" +:+ ":" +:+ dq "a" +:+ "," +:+ dq "effect_class"
              +:+ ":[]}]" in
  (json_mode_parse (λ n : nat, ("u", n)) {| mo_raw_text := text; mo_tool_calls := [];
     mo_finish_reason := finish_stop; mo_usage := []; mo_latency_ms := 0;
     mo_token_usage := None |} "run-1" O).1 = Raise (Exn TypeError "unhashable type: 'list'").
Proof. vm_compute. reflexivity. Qed.

Definition example_output : ModelOutput :=
  EchoLLMGateway.infer
    {| cw_system_instructions := ""; cw_tool_definitions :=
         [{| td_name := "search"; td_description := ""; td_input_schema := [] |}];
       cw_skill_definitions := []; cw_history := []; cw_current_state := []; cw_memory_ref := None;
       cw_recovery_context := None; cw_inference_config := None |}
    {| ic_model_ref := "m"; ic_token_budget := {| tb_max_input := 1; tb_max_output := 1;
         tb_reasoning_budget := None |}; ic_temperature := S754_zero false;
       ic_stop_sequences := []; ic_turn_kind_overrides := [] |} "key-12345".

Lemma tool_call_actions_witness :
  ∃ actions, tool_call_parse (λ n : nat, ("u", Datatypes.S n)) [("search", IDEMPOTENT_WRITE)]
    example_output "run-1" O = (Ok actions, O) ∧
  map act_action_id actions = ["act-echo-key-1234"].
Proof.
  destruct (tool_call_actions (λ n : nat, ("u", Datatypes.S n)) [("search", IDEMPOTENT_WRITE)]
    example_output "run-1" O) as (actions & e' & Hrun & _ & Hid).
  { repeat constructor. eexists. reflexivity. }
  destruct Hid as [-> Hids]; [repeat constructor|]. exists actions. split; [exact Hrun|].
  rewrite Hids. vm_compute. reflexivity.
Defined.
