(* ===== verification/TurnEngine.v ===== *)
(** * The turn engine ([kernel/turn_engine.py])

    One turn: collect, derive an action, snapshot, admission, dispatch policy,
    dedupe, execute.  The phases run over a state made of the dedupe store, an
    abstract environment [E] owned by the injected collaborators (admission
    service, executor, reasoning loop) and the sequence of executor calls made
    so far.  Observability hooks are called under [suppress(Exception)] and
    their results are not used: they are not modelled. *)
From S2P Require Export DedupeStore HostPolicy IdempotencyKey CapabilitySnapshot FailureEvidence.

(** ** Data *)
Inductive TurnTriggerType := trig_start | trig_signal | trig_child_join | trig_recovery_resume.

Definition trigger_str (t : TurnTriggerType) : string :=
  match t with
  | trig_start => "start"
  | trig_signal => "signal"
  | trig_child_join => "child_join"
  | trig_recovery_resume => "recovery_resume"
  end.

Inductive TurnState :=
  | collecting | intent_committed | reasoning | snapshot_built | admission_checked
  | dispatch_blocked | ts_dispatched | dispatch_acknowledged | effect_unknown
  | effect_recorded | recovery_pending | completed_noop.

#[export] Instance TurnState_eq_dec : EqDecision TurnState.
Proof. solve_decision. Defined.

Definition turn_state_str (t : TurnState) : string :=
  match t with
  | collecting => "collecting"
  | intent_committed => "intent_committed"
  | reasoning => "reasoning"
  | snapshot_built => "snapshot_built"
  | admission_checked => "admission_checked"
  | dispatch_blocked => "dispatch_blocked"
  | ts_dispatched => "dispatched"
  | dispatch_acknowledged => "dispatch_acknowledged"
  | effect_unknown => "effect_unknown"
  | effect_recorded => "effect_recorded"
  | recovery_pending => "recovery_pending"
  | completed_noop => "completed_noop"
  end.

Inductive TurnOutcomeKind := out_noop | out_blocked | out_dispatched | out_recovery_pending.

#[export] Instance TurnOutcomeKind_eq_dec : EqDecision TurnOutcomeKind.
Proof. solve_decision. Defined.

Record TurnStateEvent := {
  tse_state : string;
  tse_reason : option string;
  tse_metadata : pydict
}.

(** [TurnStateEvent(state=...)]. *)
Definition event (st : TurnState) : TurnStateEvent :=
  {| tse_state := turn_state_str st; tse_reason := None; tse_metadata := [] |}.

Record TurnInput := {
  ti_run_id : string;
  ti_through_offset : Z;
  ti_based_on_offset : Z;
  ti_trigger_type : TurnTriggerType;
  ti_history : list pyval
}.

Record TurnEngineDefaults := {
  df_model_ref : string;
  df_tenant_policy_ref : string;
  df_permission_mode : string
}.

Record TurnResult := {
  tr_state : TurnState;
  tr_outcome_kind : TurnOutcomeKind;
  tr_decision_ref : string;
  tr_decision_fingerprint : string;
  tr_dispatch_dedupe_key : option string;
  tr_intent_commit_ref : option string;
  tr_host_kind : option HostKind;
  tr_remote_policy_decision : option RemoteDispatchPolicyDecision;
  tr_action_commit : option pydict;
  tr_recovery_input : option FailureEnvelope;
  tr_emitted_events : list TurnStateEvent
}.

Record _TurnIdentity := {
  id_decision_ref : string;
  id_decision_fingerprint : string;
  id_intent_commit_ref : string;
  id_dispatch_dedupe_key : string
}.

(** The value an admission service returns: a [bool], an un-awaited awaitable,
    or an object read through [getattr]. *)
Inductive envelope_payload := EnvInstance (e : IdempotencyEnvelope) | EnvValue (v : pyval).

Record admission_object := {
  ao_admitted : pyval;
  ao_truthy : bool;
  ao_idempotency_envelope : envelope_payload;
  ao_policy_snapshot_ref : pyval;
  ao_grant_ref : pyval
}.

Inductive admission_value :=
  | AdmBool (b : bool)
  | AdmAwaitable
  | AdmObject (o : admission_object).

(** The attributes of an [AdmissionResult]. *)
Definition admission_of_result (r : AdmissionResult) : admission_value :=
  AdmObject {|
    ao_admitted := PBool (ar_admitted r);
    ao_truthy := true;
    ao_idempotency_envelope :=
      EnvValue (match ar_idempotency_envelope r with Some d => PDict d | None => PNone end);
    ao_policy_snapshot_ref := opt_str (ar_policy_snapshot_ref r);
    ao_grant_ref := opt_str (ar_grant_ref r) |}.

Record TurnPhaseContext := {
  cx_input_value : TurnInput;
  cx_action : option Action;
  cx_emitted_events : list TurnStateEvent;
  cx_result : option TurnResult;
  cx_turn_identity : option _TurnIdentity;
  cx_snapshot : option CapabilitySnapshot;
  cx_admission_result : option admission_value;
  cx_dispatch_policy : option _DispatchPolicy;
  cx_envelope : option IdempotencyEnvelope;
  cx_execute_result : option pydict;
  cx_dedupe_available : bool;
  cx_dedupe_outcome : string;
  cx_legacy_alias_key : option string
}.

(** ** Pure helpers *)
Definition _is_admitted (admission_result : admission_value) : outcome bool :=
  match admission_result with
  | AdmAwaitable =>
      Raise (Exn TypeError "Admission result must be awaited before admission check.")
  | AdmBool b => Ok b
  | AdmObject o =>
      match ao_admitted o with
      | PBool admitted => Ok admitted
      | _ => Ok (ao_truthy o)
      end
  end.

Definition _read_optional_string (payload : pydict) (key : string) : option string :=
  match py_get key payload with
  | PStr value =>
      let normalized_value := py_strip value in
      if decide (normalized_value ≠ "") then Some normalized_value else None
  | _ => None
  end.

Definition nonempty_str (v : pyval) : option string :=
  match v with
  | PStr s => if decide (s = "") then None else Some s
  | _ => None
  end.

Definition _parse_idempotency_envelope (payload : envelope_payload)
    (capability_snapshot_hash : string) : option IdempotencyEnvelope :=
  match payload with
  | EnvInstance e => Some e
  | EnvValue (PDict d) =>
      key ← nonempty_str (py_get "dispatch_idempotency_key" d);
      operation_fingerprint ← nonempty_str (py_get "operation_fingerprint" d);
      attempt_seq ← is_int (py_get "attempt_seq" d);
      if (attempt_seq <=? 0)%Z then None
      else
        effect_scope ← nonempty_str (py_get "effect_scope" d);
        host_kind ← _normalize_host_kind (py_get "host_kind" d);
        Some {| env_dispatch_idempotency_key := key;
                env_operation_fingerprint := operation_fingerprint;
                env_attempt_seq := attempt_seq;
                env_effect_scope := effect_scope;
                env_capability_snapshot_hash :=
                  py_str (py_get_or "capability_snapshot_hash" d (PStr capability_snapshot_hash));
                env_host_kind := host_kind;
                env_peer_operation_id := _read_optional_string d "peer_operation_id";
                env_policy_snapshot_ref := _read_optional_string d "policy_snapshot_ref";
                env_rule_bundle_hash := _read_optional_string d "rule_bundle_hash" |}
  | EnvValue _ => None
  end.

(** [getattr(admission_result, "idempotency_envelope", None)]. *)
Definition admission_envelope (a : admission_value) : envelope_payload :=
  match a with AdmObject o => ao_idempotency_envelope o | _ => EnvValue PNone end.

Definition _resolve_idempotency_envelope (admission_result : admission_value)
    (turn_identity : _TurnIdentity) (action : Action) (snapshot : CapabilitySnapshot)
    (host_kind : HostKind) : IdempotencyEnvelope :=
  match _parse_idempotency_envelope (admission_envelope admission_result)
          (cs_snapshot_hash snapshot) with
  | Some parsed =>
      {| env_dispatch_idempotency_key := id_dispatch_dedupe_key turn_identity;
         env_operation_fingerprint := id_decision_fingerprint turn_identity;
         env_attempt_seq := env_attempt_seq parsed;
         env_effect_scope := env_effect_scope parsed;
         env_capability_snapshot_hash := env_capability_snapshot_hash parsed;
         env_host_kind := env_host_kind parsed;
         env_peer_operation_id := env_peer_operation_id parsed;
         env_policy_snapshot_ref := env_policy_snapshot_ref parsed;
         env_rule_bundle_hash := env_rule_bundle_hash parsed |}
  | None =>
      {| env_dispatch_idempotency_key := id_dispatch_dedupe_key turn_identity;
         env_operation_fingerprint := id_decision_fingerprint turn_identity;
         env_attempt_seq := 1;
         env_effect_scope := effect_class_str (act_effect_class action);
         env_capability_snapshot_hash := cs_snapshot_hash snapshot;
         env_host_kind := host_kind;
         env_peer_operation_id := None;
         env_policy_snapshot_ref := None;
         env_rule_bundle_hash := None |}
  end.

Definition _build_execution_context (input_value : TurnInput) (action : Action)
    (snapshot : CapabilitySnapshot) (turn_identity : _TurnIdentity)
    (admission_result : admission_value) (envelope : IdempotencyEnvelope) : ExecutionContext :=
  let attr f := match admission_result with AdmObject o => f o | _ => PNone end in
  {| ec_run_id := ti_run_id input_value;
     ec_action_id := act_action_id action;
     ec_causation_id := Some (id_intent_commit_ref turn_identity);
     ec_correlation_id := Some (id_decision_ref turn_identity);
     ec_lineage_id := Some (id_decision_fingerprint turn_identity);
     ec_capability_snapshot_ref := Some (cs_snapshot_ref snapshot);
     ec_capability_snapshot_hash := Some (cs_snapshot_hash snapshot);
     ec_context_binding_ref := cs_context_binding_ref snapshot;
     ec_grant_ref := is_str (attr ao_grant_ref);
     ec_policy_snapshot_ref := is_str (attr ao_policy_snapshot_ref);
     ec_rule_bundle_hash := env_rule_bundle_hash envelope;
     ec_declarative_bundle_digest :=
       match cs_declarative_bundle_digest snapshot with
       | None => None
       | Some d => Some [ ("bundle_ref", PStr (bundle_ref d));
                          ("semantics_version", PStr (semantics_version d));
                          ("content_hash", PStr (content_hash d));
                          ("compile_hash", PStr (compile_hash d)) ]
       end;
     ec_timeout_ms := act_timeout_ms action;
     ec_budget_ref := cs_budget_ref snapshot;
     ec_trace_context := None |}.

Definition _execution_context_payload (c : ExecutionContext) : pydict :=
  [ ("run_id", PStr (ec_run_id c));
    ("action_id", PStr (ec_action_id c));
    ("causation_id", opt_str (ec_causation_id c));
    ("correlation_id", opt_str (ec_correlation_id c));
    ("lineage_id", opt_str (ec_lineage_id c));
    ("capability_snapshot_ref", opt_str (ec_capability_snapshot_ref c));
    ("capability_snapshot_hash", opt_str (ec_capability_snapshot_hash c));
    ("context_binding_ref", opt_str (ec_context_binding_ref c));
    ("grant_ref", opt_str (ec_grant_ref c));
    ("policy_snapshot_ref", opt_str (ec_policy_snapshot_ref c));
    ("rule_bundle_hash", opt_str (ec_rule_bundle_hash c));
    ("declarative_bundle_digest",
      match ec_declarative_bundle_digest c with Some d => PDict d | None => PNone end);
    ("timeout_ms", match ec_timeout_ms c with Some z => PInt z | None => PNone end);
    ("budget_ref", opt_str (ec_budget_ref c)) ].

Definition _resolve_dedupe_downgrade_scope (host_kind : HostKind) : string :=
  if decide (host_kind = remote_service) then "irreversible_write" else "compensatable_write".

Definition _legacy_dispatch_dedupe_key (run_id action_id : string) (based_on_offset : Z) : string :=
  run_id +:+ ":" +:+ action_id +:+ ":" +:+ pretty based_on_offset.

Definition _build_turn_identity (input_value : TurnInput) (action : Action)
    (snapshot_hash : option string) : _TurnIdentity :=
  {| id_decision_ref :=
       "decision:" +:+ ti_run_id input_value +:+ ":" +:+ pretty (ti_based_on_offset input_value);
     id_decision_fingerprint :=
       ti_run_id input_value +:+ ":" +:+ trigger_str (ti_trigger_type input_value) +:+ ":"
       +:+ act_action_id action +:+ ":" +:+ pretty (ti_based_on_offset input_value);
     id_intent_commit_ref :=
       "intent:" +:+ act_action_id action +:+ ":" +:+ pretty (ti_through_offset input_value);
     id_dispatch_dedupe_key :=
       match snapshot_hash with
       | Some h => IdempotencyKeyPolicy.generate (ti_run_id input_value) action h "dispatch"
       | None =>
           _legacy_dispatch_dedupe_key (ti_run_id input_value) (act_action_id action)
             (ti_based_on_offset input_value)
       end |}.

(** [list(v)] where a list of strings is expected.  A non-iterable raises
    [TypeError]; elements that are not strings are outside the model. *)
Definition unmodelled (what : string) : exn := Exn Unmodelled what.

Fixpoint as_strings (l : list pyval) : outcome (list string) :=
  match l with
  | [] => Ok []
  | PStr s :: l' => r ← as_strings l'; Ok (s :: r)
  | _ :: _ => Raise (unmodelled "binding that is not a str")
  end.

Fixpoint chars (s : string) : list string :=
  match s with "" => [] | String c s' => String c "" :: chars s' end.

Definition py_list_of_str (v : pyval) : outcome (list string) :=
  match v with
  | PList l => as_strings l
  | PStr s => Ok (chars s)
  | PDict d => Ok (map fst d)
  | _ => Raise (Exn TypeError "object is not iterable")
  end.

Definition py_opt_str (v : pyval) : outcome (option string) :=
  match v with
  | PNone => Ok None
  | PStr s => Ok (Some s)
  | _ => Raise (unmodelled "reference that is not a str")
  end.

Definition _resolve_snapshot_input (input_value : TurnInput) (action : Action)
    (resolver : option (TurnInput → Action → outcome CapabilitySnapshotInput))
    (require_declared_snapshot_inputs : bool) : outcome CapabilitySnapshotInput :=
  match resolver with
  | Some resolve => resolve input_value action
  | None =>
      let input_json := default [] (act_input_json action) in
      match py_get "capability_snapshot_input" input_json with
      | PDict d =>
          tool_bindings ← py_list_of_str (py_get_or "tool_bindings" d (PList []));
          mcp_bindings ← py_list_of_str (py_get_or "mcp_bindings" d (PList []));
          skill_bindings ← py_list_of_str (py_get_or "skill_bindings" d (PList []));
          feature_flags ← py_list_of_str (py_get_or "feature_flags" d (PList []));
          context_binding_ref ← py_opt_str (py_get "context_binding_ref" d);
          context_content_hash ← py_opt_str (py_get "context_content_hash" d);
          budget_ref ← py_opt_str (py_get "budget_ref" d);
          quota_ref ← py_opt_str (py_get "quota_ref" d);
          session_mode ← py_opt_str (py_get "session_mode" d);
          approval_state ← py_opt_str (py_get "approval_state" d);
          Ok {| si_run_id := ti_run_id input_value;
                si_based_on_offset := ti_based_on_offset input_value;
                si_tenant_policy_ref := py_str (py_get_or "tenant_policy_ref" d (PStr ""));
                si_permission_mode := py_str (py_get_or "permission_mode" d (PStr ""));
                si_tool_bindings := tool_bindings;
                si_mcp_bindings := mcp_bindings;
                si_skill_bindings := skill_bindings;
                si_feature_flags := feature_flags;
                si_context_binding_ref := context_binding_ref;
                si_context_content_hash := context_content_hash;
                si_budget_ref := budget_ref;
                si_quota_ref := quota_ref;
                si_session_mode := session_mode;
                si_approval_state := approval_state;
                si_declarative_bundle_digest := None;
                si_peer_run_bindings := [] |}
      | _ =>
          if require_declared_snapshot_inputs
          then Raise (build_error "capability_snapshot_input is required in strict mode.")
          else Ok {| si_run_id := ti_run_id input_value;
                     si_based_on_offset := ti_based_on_offset input_value;
                     si_tenant_policy_ref := "policy:default";
                     si_permission_mode := "strict";
                     si_tool_bindings := []; si_mcp_bindings := [];
                     si_skill_bindings := []; si_feature_flags := [];
                     si_context_binding_ref := None; si_context_content_hash := None;
                     si_budget_ref := None; si_quota_ref := None;
                     si_session_mode := None; si_approval_state := None;
                     si_declarative_bundle_digest := None;
                     si_peer_run_bindings := [] |}
      end
  end.

(** [_read_optional_string(...) or default], for a string that is never empty. *)
Definition _build_recovery_pending_turn_result (input_value : TurnInput) (action : Action)
    (turn_identity : _TurnIdentity) (execute_result : pydict) (host_kind : HostKind)
    (remote_policy_decision : option RemoteDispatchPolicyDecision)
    (emitted_events : list TurnStateEvent) : TurnResult :=
  let external_ack_ref := _read_optional_string execute_result "external_ack_ref" in
  let evidence_ref := _read_optional_string execute_result "evidence_ref" in
  let local_inference :=
    default "turn_engine:effect_unknown_without_ack"
      (_read_optional_string execute_result "local_inference") in
  let failure_envelope :=
    {| fe_run_id := ti_run_id input_value;
       fe_action_id := Some (act_action_id action);
       fe_failed_stage := "execution";
       fe_failed_component := "executor";
       fe_failure_code := "effect_unknown";
       fe_failure_class := "unknown";
       fe_evidence_ref := evidence_ref;
       fe_external_ack_ref := external_ack_ref;
       fe_local_inference := Some local_inference;
       fe_evidence_priority_source := src_none;
       fe_evidence_priority_ref := None;
       fe_retryability := "unknown";
       fe_compensation_hint := None;
       fe_human_escalation_hint := Some "manual_verification_required";
       fe_trace_failure_code := None |} in
  {| tr_state := recovery_pending;
     tr_outcome_kind := out_recovery_pending;
     tr_decision_ref := id_decision_ref turn_identity;
     tr_decision_fingerprint := id_decision_fingerprint turn_identity;
     tr_dispatch_dedupe_key := Some (id_dispatch_dedupe_key turn_identity);
     tr_intent_commit_ref := Some (id_intent_commit_ref turn_identity);
     tr_host_kind := Some host_kind;
     tr_remote_policy_decision := remote_policy_decision;
     tr_action_commit := None;
     tr_recovery_input := Some (apply_failure_evidence_priority failure_envelope);
     tr_emitted_events := emitted_events |}.

(** ** The engine *)

(** One executor invocation, with the arguments the executor received and, as
    a history variable, the context of the turn that made it. *)
Record exec_call := {
  xc_turn : TurnPhaseContext;
  xc_action : Action;
  xc_snapshot : CapabilitySnapshot;
  xc_envelope : IdempotencyEnvelope;
  xc_context : option ExecutionContext
}.

(** The state a turn runs over: the shared dedupe store, the environment of
    the injected collaborators and the executor calls made so far. *)
Record world (S E : Type) := World { w_store : S; w_env : E; w_calls : list exec_call }.
Arguments World {S E}.
Arguments w_store {S E}.
Arguments w_env {S E}.
Arguments w_calls {S E}.

(** The keyword arguments of [reasoning_loop.run_once]. *)
Record reasoning_request := {
  rq_run_id : string;
  rq_snapshot : CapabilitySnapshot;
  rq_history : list pyval;
  rq_model_ref : string;
  rq_idempotency_key : string
}.

(** The collaborators and settings injected into [TurnEngine.__init__]; a
    collaborator may raise, and may change its own part of the state. *)
Record TurnEngine (E : Type) := {
  te_now : E → string;
  te_build : CapabilitySnapshotInput → M E CapabilitySnapshot;
  te_admit : Action → CapabilitySnapshot → M E admission_value;
  te_execute : Action → CapabilitySnapshot → IdempotencyEnvelope → option ExecutionContext →
               M E pydict;
  te_executor_takes_context : bool;
  te_snapshot_input_resolver : option (TurnInput → Action → outcome CapabilitySnapshotInput);
  te_require_declared_snapshot_inputs : bool;
  te_reasoning_loop : option (reasoning_request → M E (list Action));
  te_phase_timeout : bool;
  te_defaults : option TurnEngineDefaults
}.
Arguments te_now {E}.
Arguments te_build {E}.
Arguments te_admit {E}.
Arguments te_execute {E}.
Arguments te_executor_takes_context {E}.
Arguments te_snapshot_input_resolver {E}.
Arguments te_require_declared_snapshot_inputs {E}.
Arguments te_reasoning_loop {E}.
Arguments te_phase_timeout {E}.
Arguments te_defaults {E}.

(** Context updates; a phase writes only its own fields. *)
Definition emit (evs : list TurnStateEvent) (c : TurnPhaseContext) : TurnPhaseContext :=
  {| cx_input_value := cx_input_value c; cx_action := cx_action c;
     cx_emitted_events := cx_emitted_events c ++ evs; cx_result := cx_result c;
     cx_turn_identity := cx_turn_identity c; cx_snapshot := cx_snapshot c;
     cx_admission_result := cx_admission_result c; cx_dispatch_policy := cx_dispatch_policy c;
     cx_envelope := cx_envelope c; cx_execute_result := cx_execute_result c;
     cx_dedupe_available := cx_dedupe_available c; cx_dedupe_outcome := cx_dedupe_outcome c;
     cx_legacy_alias_key := cx_legacy_alias_key c |}.

Definition set_result (r : TurnResult) (c : TurnPhaseContext) : TurnPhaseContext :=
  {| cx_input_value := cx_input_value c; cx_action := cx_action c;
     cx_emitted_events := cx_emitted_events c; cx_result := Some r;
     cx_turn_identity := cx_turn_identity c; cx_snapshot := cx_snapshot c;
     cx_admission_result := cx_admission_result c; cx_dispatch_policy := cx_dispatch_policy c;
     cx_envelope := cx_envelope c; cx_execute_result := cx_execute_result c;
     cx_dedupe_available := cx_dedupe_available c; cx_dedupe_outcome := cx_dedupe_outcome c;
     cx_legacy_alias_key := cx_legacy_alias_key c |}.

Definition set_action (a : Action) (c : TurnPhaseContext) : TurnPhaseContext :=
  {| cx_input_value := cx_input_value c; cx_action := Some a;
     cx_emitted_events := cx_emitted_events c; cx_result := cx_result c;
     cx_turn_identity := cx_turn_identity c; cx_snapshot := cx_snapshot c;
     cx_admission_result := cx_admission_result c; cx_dispatch_policy := cx_dispatch_policy c;
     cx_envelope := cx_envelope c; cx_execute_result := cx_execute_result c;
     cx_dedupe_available := cx_dedupe_available c; cx_dedupe_outcome := cx_dedupe_outcome c;
     cx_legacy_alias_key := cx_legacy_alias_key c |}.

Definition set_snapshot (ti : _TurnIdentity) (s : option CapabilitySnapshot)
    (c : TurnPhaseContext) : TurnPhaseContext :=
  {| cx_input_value := cx_input_value c; cx_action := cx_action c;
     cx_emitted_events := cx_emitted_events c; cx_result := cx_result c;
     cx_turn_identity := Some ti; cx_snapshot := s;
     cx_admission_result := cx_admission_result c; cx_dispatch_policy := cx_dispatch_policy c;
     cx_envelope := cx_envelope c; cx_execute_result := cx_execute_result c;
     cx_dedupe_available := cx_dedupe_available c; cx_dedupe_outcome := cx_dedupe_outcome c;
     cx_legacy_alias_key := cx_legacy_alias_key c |}.

Definition set_admission (a : admission_value) (c : TurnPhaseContext) : TurnPhaseContext :=
  {| cx_input_value := cx_input_value c; cx_action := cx_action c;
     cx_emitted_events := cx_emitted_events c; cx_result := cx_result c;
     cx_turn_identity := cx_turn_identity c; cx_snapshot := cx_snapshot c;
     cx_admission_result := Some a; cx_dispatch_policy := cx_dispatch_policy c;
     cx_envelope := cx_envelope c; cx_execute_result := cx_execute_result c;
     cx_dedupe_available := cx_dedupe_available c; cx_dedupe_outcome := cx_dedupe_outcome c;
     cx_legacy_alias_key := cx_legacy_alias_key c |}.

Definition set_policy (p : _DispatchPolicy) (c : TurnPhaseContext) : TurnPhaseContext :=
  {| cx_input_value := cx_input_value c; cx_action := cx_action c;
     cx_emitted_events := cx_emitted_events c; cx_result := cx_result c;
     cx_turn_identity := cx_turn_identity c; cx_snapshot := cx_snapshot c;
     cx_admission_result := cx_admission_result c; cx_dispatch_policy := Some p;
     cx_envelope := cx_envelope c; cx_execute_result := cx_execute_result c;
     cx_dedupe_available := cx_dedupe_available c; cx_dedupe_outcome := cx_dedupe_outcome c;
     cx_legacy_alias_key := cx_legacy_alias_key c |}.

Definition set_dedupe (e : IdempotencyEnvelope) (evs : list TurnStateEvent) (available : bool)
    (c : TurnPhaseContext) : TurnPhaseContext :=
  {| cx_input_value := cx_input_value c; cx_action := cx_action c;
     cx_emitted_events := evs; cx_result := cx_result c;
     cx_turn_identity := cx_turn_identity c; cx_snapshot := cx_snapshot c;
     cx_admission_result := cx_admission_result c; cx_dispatch_policy := cx_dispatch_policy c;
     cx_envelope := Some e; cx_execute_result := cx_execute_result c;
     cx_dedupe_available := available; cx_dedupe_outcome := cx_dedupe_outcome c;
     cx_legacy_alias_key := cx_legacy_alias_key c |}.

Definition set_dispatch (outcome : string) (alias : option string) (c : TurnPhaseContext)
    : TurnPhaseContext :=
  {| cx_input_value := cx_input_value c; cx_action := cx_action c;
     cx_emitted_events := cx_emitted_events c; cx_result := cx_result c;
     cx_turn_identity := cx_turn_identity c; cx_snapshot := cx_snapshot c;
     cx_admission_result := cx_admission_result c; cx_dispatch_policy := cx_dispatch_policy c;
     cx_envelope := cx_envelope c; cx_execute_result := cx_execute_result c;
     cx_dedupe_available := cx_dedupe_available c; cx_dedupe_outcome := outcome;
     cx_legacy_alias_key := alias |}.

Definition set_execute_result (r : pydict) (c : TurnPhaseContext) : TurnPhaseContext :=
  {| cx_input_value := cx_input_value c; cx_action := cx_action c;
     cx_emitted_events := cx_emitted_events c; cx_result := cx_result c;
     cx_turn_identity := cx_turn_identity c; cx_snapshot := cx_snapshot c;
     cx_admission_result := cx_admission_result c; cx_dispatch_policy := cx_dispatch_policy c;
     cx_envelope := cx_envelope c; cx_execute_result := Some r;
     cx_dedupe_available := cx_dedupe_available c; cx_dedupe_outcome := cx_dedupe_outcome c;
     cx_legacy_alias_key := cx_legacy_alias_key c |}.

(** A turn result built from the identity, policy fields left out. *)
Definition plain_result (st : TurnState) (kind : TurnOutcomeKind) (ti : _TurnIdentity)
    (dp : option _DispatchPolicy) (commit : option pydict) (evs : list TurnStateEvent)
    : TurnResult :=
  {| tr_state := st; tr_outcome_kind := kind;
     tr_decision_ref := id_decision_ref ti;
     tr_decision_fingerprint := id_decision_fingerprint ti;
     tr_dispatch_dedupe_key := Some (id_dispatch_dedupe_key ti);
     tr_intent_commit_ref := Some (id_intent_commit_ref ti);
     tr_host_kind := dp_host_kind <$> dp;
     tr_remote_policy_decision := dp ≫= dp_remote_policy_decision;
     tr_action_commit := commit; tr_recovery_input := None;
     tr_emitted_events := evs |}.

(** The result of a turn without an action. *)
Definition noop_result (i : TurnInput) (evs : list TurnStateEvent) : TurnResult :=
  {| tr_state := completed_noop; tr_outcome_kind := out_noop;
     tr_decision_ref :=
       "decision:" +:+ ti_run_id i +:+ ":" +:+ pretty (ti_based_on_offset i);
     tr_decision_fingerprint :=
       ti_run_id i +:+ ":" +:+ trigger_str (ti_trigger_type i) +:+ ":noop:"
       +:+ pretty (ti_based_on_offset i);
     tr_dispatch_dedupe_key := None; tr_intent_commit_ref := None;
     tr_host_kind := None; tr_remote_policy_decision := None;
     tr_action_commit := None; tr_recovery_input := None;
     tr_emitted_events := evs |}.

(** Emit [evs], then finish the turn with a result that shares the event list. *)
Definition finish (evs : list TurnStateEvent) (mk : list TurnStateEvent → TurnResult)
    (c : TurnPhaseContext) : TurnPhaseContext :=
  let c' := emit evs c in set_result (mk (cx_emitted_events c')) c'.
