(* ===== verification/TurnPhases.v ===== *)
(** * The phases of a turn and [run_turn] ([kernel/turn_engine.py])

    Each phase is a computation on the turn's context over the shared
    [world].  A phase touches the dedupe store through [on_store] and the
    injected collaborators through [on_env], and nothing else. *)
From S2P Require Export TurnEngine.

Section phases.
Context {S E : Type} `{DedupeStorePort S} (te : TurnEngine E).

Definition on_store {A} (m : M S A) : M (world S E) A :=
  zoom w_store (λ s w, World s (w_env w) (w_calls w)) m.
Definition on_env {A} (m : M E A) : M (world S E) A :=
  zoom w_env (λ e w, World (w_store w) e (w_calls w)) m.

(** [self._defaults = defaults or TurnEngineDefaults(...)]. *)
Definition engine_defaults : TurnEngineDefaults :=
  default {| df_model_ref := "echo"; df_tenant_policy_ref := "policy:default";
             df_permission_mode := "strict" |} (te_defaults te).

Definition reasoning_snapshot_input (i : TurnInput) : CapabilitySnapshotInput :=
  {| si_run_id := ti_run_id i;
     si_based_on_offset := ti_based_on_offset i;
     si_tenant_policy_ref := df_tenant_policy_ref engine_defaults;
     si_permission_mode := df_permission_mode engine_defaults;
     si_tool_bindings := []; si_mcp_bindings := [];
     si_skill_bindings := []; si_feature_flags := [];
     si_context_binding_ref := None; si_context_content_hash := None;
     si_budget_ref := None; si_quota_ref := None;
     si_session_mode := None; si_approval_state := None;
     si_declarative_bundle_digest := None; si_peer_run_bindings := [] |}.

(** ** Phase 1: an action, or a noop *)
Definition _phase_noop_or_reasoning (c : TurnPhaseContext) : M (world S E) TurnPhaseContext :=
  let i := cx_input_value c in
  let noop c := finish [event completed_noop] (noop_result i) c in
  match cx_action c with
  | Some _ => mret c
  | None =>
      match te_reasoning_loop te with
      | None => mret (noop c)
      | Some run_once =>
          let c1 := emit [event reasoning] c in
          actions ← try_except
            (snapshot ← on_env (te_build te (reasoning_snapshot_input i));
             actions ← on_env (run_once
               {| rq_run_id := ti_run_id i;
                  rq_snapshot := snapshot;
                  rq_history := ti_history i;
                  rq_model_ref := df_model_ref engine_defaults;
                  rq_idempotency_key :=
                    ti_run_id i +:+ ":" +:+ pretty (ti_based_on_offset i) +:+ ":reasoning" |});
             mret (Some actions))
            is_Exception (λ _, mret None);
          match actions with
          | None =>
              mret (noop (emit [{| tse_state := "reasoning_failed"; tse_reason := None;
                                   tse_metadata := [] |}] c1))
          | Some [] => mret (noop c1)
          | Some (a :: _) => mret (set_action a c1)
          end
      end
  end.

(** ** Phase 2: the capability snapshot

    A build error ends the turn, with the identity made before the build; the
    context of a finished turn is read only for its result. *)
Definition _phase_snapshot (c : TurnPhaseContext) : M (world S E) TurnPhaseContext :=
  action ← assert_some (cx_action c);
  let i := cx_input_value c in
  let ti := _build_turn_identity i action None in
  try_except
    (snapshot_input ← lift (_resolve_snapshot_input i action (te_snapshot_input_resolver te)
                              (te_require_declared_snapshot_inputs te));
     snapshot ← on_env (te_build te snapshot_input);
     lift (assert_snapshot_compatible snapshot);;
     mret (emit [event snapshot_built]
             (set_snapshot (_build_turn_identity i action (Some (cs_snapshot_hash snapshot)))
                (Some snapshot) c)))
    is_ValueError
    (λ _, mret (finish [event completed_noop] (plain_result completed_noop out_noop ti None None)
                  (set_snapshot ti None c))).

(** ** Phase 3: admission *)
Definition _evaluate_admission (action : Action) (snapshot : CapabilitySnapshot)
    : M (world S E) admission_value :=
  on_env (te_admit te action snapshot).

Definition _phase_admission (c : TurnPhaseContext) : M (world S E) TurnPhaseContext :=
  action ← assert_some (cx_action c);
  snapshot ← assert_some (cx_snapshot c);
  ti ← assert_some (cx_turn_identity c);
  admission_result ← _evaluate_admission action snapshot;
  admitted ← lift (_is_admitted admission_result);
  let c1 := emit [event admission_checked] (set_admission admission_result c) in
  if negb admitted
  then mret (finish [event dispatch_blocked]
               (plain_result dispatch_blocked out_blocked ti None None) c1)
  else mret c1.

(** ** Phase 4: the dispatch policy

    [validate_action_type] only logs. *)
Definition _phase_dispatch_policy (c : TurnPhaseContext) : M (world S E) TurnPhaseContext :=
  action ← assert_some (cx_action c);
  ti ← assert_some (cx_turn_identity c);
  let dp := _resolve_dispatch_policy action in
  let c1 := set_policy dp c in
  if dp_should_block dp
  then mret (finish [{| tse_state := turn_state_str dispatch_blocked;
                        tse_reason := dp_block_reason dp; tse_metadata := [] |}]
               (plain_result dispatch_blocked out_blocked ti (Some dp) None) c1)
  else mret c1.

(** ** Phase 5: the dedupe reservation *)
Definition downgraded (envelope : IdempotencyEnvelope) (scope : string) : IdempotencyEnvelope :=
  {| env_dispatch_idempotency_key := env_dispatch_idempotency_key envelope;
     env_operation_fingerprint := env_operation_fingerprint envelope;
     env_attempt_seq := env_attempt_seq envelope;
     env_effect_scope := scope;
     env_capability_snapshot_hash := env_capability_snapshot_hash envelope;
     env_host_kind := env_host_kind envelope;
     env_peer_operation_id := env_peer_operation_id envelope;
     env_policy_snapshot_ref := env_policy_snapshot_ref envelope;
     env_rule_bundle_hash := env_rule_bundle_hash envelope |}.

(** The reservation, the envelope to use, whether the store is available, and
    the event list. *)
Definition _reserve_with_degradation (envelope : IdempotencyEnvelope) (action : Action)
    (host_kind : HostKind) (emitted_events : list TurnStateEvent)
    : M (world S E) (DedupeReservation * IdempotencyEnvelope * bool * list TurnStateEvent) :=
  try_except
    (reservation ← on_store (ds_reserve_and_dispatch envelope None);
     mret (reservation, envelope, true, emitted_events))
    is_Exception
    (λ error,
       if decide (act_effect_class action ≠ IDEMPOTENT_WRITE) then raise error
       else
         let scope := _resolve_dedupe_downgrade_scope host_kind in
         mret (accepted_reservation, downgraded envelope scope, false,
               emitted_events ++
               [{| tse_state := "dedupe_degraded";
                   tse_reason := Some (exn_name error);
                   tse_metadata := [ ("from_effect_scope", PStr "idempotent_write");
                                     ("to_effect_scope", PStr scope) ] |}])).

Definition legacy_envelope_of (envelope : IdempotencyEnvelope) (legacy_key : string)
    : IdempotencyEnvelope :=
  {| env_dispatch_idempotency_key := legacy_key;
     env_operation_fingerprint := env_operation_fingerprint envelope;
     env_attempt_seq := env_attempt_seq envelope;
     env_effect_scope := env_effect_scope envelope;
     env_capability_snapshot_hash := env_capability_snapshot_hash envelope;
     env_host_kind := env_host_kind envelope;
     env_peer_operation_id := env_peer_operation_id envelope;
     env_policy_snapshot_ref := env_policy_snapshot_ref envelope;
     env_rule_bundle_hash := env_rule_bundle_hash envelope |}.

(** The mirrored slot under the historical key: [Some] where it was taken. *)
Definition mirror_legacy_slot (envelope : IdempotencyEnvelope) (legacy_key : string)
    : M (world S E) (option string) :=
  suppress_or None
    (r ← on_store (ds_reserve_and_dispatch (legacy_envelope_of envelope legacy_key)
                     (env_peer_operation_id envelope));
     mret (if accepted r then Some legacy_key else None)).

Definition dedupe_key_of (c : TurnPhaseContext) (action : Action) : string :=
  _legacy_dispatch_dedupe_key (ti_run_id (cx_input_value c)) (act_action_id action)
    (ti_based_on_offset (cx_input_value c)).

Definition _phase_dedupe (c : TurnPhaseContext) : M (world S E) TurnPhaseContext :=
  action ← assert_some (cx_action c);
  snapshot ← assert_some (cx_snapshot c);
  ti ← assert_some (cx_turn_identity c);
  dp ← assert_some (cx_dispatch_policy c);
  let blocked :=
    finish [event dispatch_blocked]
      (plain_result dispatch_blocked out_blocked ti (Some dp) None) in
  let legacy_key := dedupe_key_of c action in
  legacy_record ←
    (if decide (legacy_key ≠ id_dispatch_dedupe_key ti)
     then suppress_or None (on_store (ds_get legacy_key))
     else mret None);
  match legacy_record with
  | Some _ => mret (blocked c)
  | None =>
      let envelope :=
        _resolve_idempotency_envelope (default (AdmBool false) (cx_admission_result c))
          ti action snapshot (dp_host_kind dp) in
      '(reservation, envelope, dedupe_available, events) ←
        _reserve_with_degradation envelope action (dp_host_kind dp) (cx_emitted_events c);
      let c1 := set_dedupe envelope events dedupe_available c in
      if negb (accepted reservation) then mret (blocked c1)
      else
        alias ←
          (if decide (dedupe_available = true ∧ legacy_key ≠ id_dispatch_dedupe_key ti)
           then mirror_legacy_slot envelope legacy_key
           else mret None);
        mret (emit [event ts_dispatched]
                (set_dispatch (if dedupe_available then "accepted" else "degraded") alias c1))
  end.

(** ** Phase 6: execution *)

(** The call itself: it is recorded when the executor is entered. *)
Definition log_call (x : exec_call) : M (world S E) unit :=
  modify (λ w, World (w_store w) (w_env w) (w_calls w ++ [x])).

Definition call_of (c : TurnPhaseContext) (action : Action) (snapshot : CapabilitySnapshot)
    (envelope : IdempotencyEnvelope) (execution_context : ExecutionContext) : exec_call :=
  {| xc_turn := c; xc_action := action; xc_snapshot := snapshot; xc_envelope := envelope;
     xc_context := if te_executor_takes_context te then Some execution_context else None |}.

Definition context_of (c : TurnPhaseContext) (action : Action) (snapshot : CapabilitySnapshot)
    (ti : _TurnIdentity) (envelope : IdempotencyEnvelope) : ExecutionContext :=
  _build_execution_context (cx_input_value c) action snapshot ti
    (default (AdmBool false) (cx_admission_result c)) envelope.

(** Up to the [await] of the executor. *)
Definition execute_enter (c : TurnPhaseContext) : M (world S E) exec_call :=
  action ← assert_some (cx_action c);
  snapshot ← assert_some (cx_snapshot c);
  ti ← assert_some (cx_turn_identity c);
  dp ← assert_some (cx_dispatch_policy c);
  envelope ← assert_some (cx_envelope c);
  let x := call_of c action snapshot envelope (context_of c action snapshot ti envelope) in
  log_call x;;
  mret x.

(** [await execute_method(...)]. *)
Definition _execute_with_context (x : exec_call) : M (world S E) pydict :=
  on_env (te_execute te (xc_action x) (xc_snapshot x) (xc_envelope x) (xc_context x)).

(** [if legacy_alias_key is not None: with suppress(Exception): mark(alias)]. *)
Definition mark_alias (mark : string → M S unit) (alias : option string) : M (world S E) unit :=
  match alias with
  | Some k => suppress (on_store (mark k))
  | None => mret tt
  end.

(** From the [await] on: the executor returned or raised. *)
Definition execute_exit (c : TurnPhaseContext) (o : outcome pydict)
    : M (world S E) TurnPhaseContext :=
  action ← assert_some (cx_action c);
  snapshot ← assert_some (cx_snapshot c);
  ti ← assert_some (cx_turn_identity c);
  dp ← assert_some (cx_dispatch_policy c);
  envelope ← assert_some (cx_envelope c);
  let key := id_dispatch_dedupe_key ti in
  let alias := cx_legacy_alias_key c in
  let mark_acknowledged k := ds_mark_acknowledged k None in
  match o with
  | Raise e =>
      (if is_Exception e && cx_dedupe_available c then
         suppress (on_store (ds_mark_unknown_effect key));;
         mark_alias ds_mark_unknown_effect alias
       else mret tt);;
      raise e
  | Ok execute_result =>
      let c1 := set_execute_result execute_result c in
      if py_truthy (py_get_or "acknowledged" execute_result (PBool false)) then
        (if cx_dedupe_available c then
           on_store (mark_acknowledged key);;
           mark_alias mark_acknowledged alias
         else mret tt);;
        now ← gets (te_now te ∘ w_env);
        mret (finish [event dispatch_acknowledged]
                (plain_result dispatch_acknowledged out_dispatched ti (Some dp)
                   (Some [ ("action_id", PStr (act_action_id action));
                           ("run_id", PStr (ti_run_id (cx_input_value c)));
                           ("committed_at", PStr now);
                           ("execution_context",
                             PDict (_execution_context_payload
                                      (context_of c action snapshot ti envelope))) ])) c1)
      else
        (if cx_dedupe_available c then
           on_store (ds_mark_unknown_effect key);;
           mark_alias ds_mark_unknown_effect alias
         else mret tt);;
        mret (finish [event effect_unknown; event recovery_pending]
                (_build_recovery_pending_turn_result (cx_input_value c) action ti execute_result
                   (dp_host_kind dp) (dp_remote_policy_decision dp)) c1)
  end.

Definition _phase_execute (c : TurnPhaseContext) : M (world S E) TurnPhaseContext :=
  x ← execute_enter c;
  o ← reify (_execute_with_context x);
  execute_exit c o.

(** ** The dispatcher *)
Inductive phase :=
  | ph_noop_or_reasoning | ph_snapshot | ph_admission | ph_dispatch_policy | ph_dedupe | ph_execute.

#[export] Instance phase_eq_dec : EqDecision phase.
Proof. solve_decision. Defined.

(** The order of [TurnEngine._TURN_PHASES]. *)
Definition turn_phases : list phase :=
  [ ph_noop_or_reasoning; ph_snapshot; ph_admission; ph_dispatch_policy; ph_dedupe; ph_execute ].

Definition run_phase (p : phase) : TurnPhaseContext → M (world S E) TurnPhaseContext :=
  match p with
  | ph_noop_or_reasoning => _phase_noop_or_reasoning
  | ph_snapshot => _phase_snapshot
  | ph_admission => _phase_admission
  | ph_dispatch_policy => _phase_dispatch_policy
  | ph_dedupe => _phase_dedupe
  | ph_execute => _phase_execute
  end.

Definition initial_context (input_value : TurnInput) (action : option Action) : TurnPhaseContext :=
  {| cx_input_value := input_value; cx_action := action;
     cx_emitted_events := [event collecting; event intent_committed];
     cx_result := None; cx_turn_identity := None; cx_snapshot := None;
     cx_admission_result := None; cx_dispatch_policy := None; cx_envelope := None;
     cx_execute_result := None; cx_dedupe_available := true; cx_dedupe_outcome := "accepted";
     cx_legacy_alias_key := None |}.

Definition no_result_error : exn :=
  Exn RuntimeError "TurnEngine phases completed without setting ctx.result.".

(** The [for] loop of [run_turn]. *)
Fixpoint run_phases (ps : list phase) (c : TurnPhaseContext) : M (world S E) TurnResult :=
  match ps with
  | [] => raise no_result_error
  | p :: ps' =>
      c' ← wait_for (te_phase_timeout te) (run_phase p c);
      match cx_result c' with
      | Some r => mret r
      | None => run_phases ps' c'
      end
  end.

Definition run_turn (input_value : TurnInput) (action : option Action)
    : M (world S E) TurnResult :=
  run_phases turn_phases (initial_context input_value action).
End phases.

(** ** [register_phase]

    On the tuple of phase names; [cls.__name__] is the argument [cls]. *)
Definition _TURN_PHASES : list string :=
  [ "_phase_noop_or_reasoning"; "_phase_snapshot"; "_phase_admission";
    "_phase_dispatch_policy"; "_phase_dedupe"; "_phase_execute" ].

(** [phases.index(x)], where [x] is present. *)
Fixpoint index_of (x : string) (l : list string) : nat :=
  match l with
  | [] => 0
  | y :: l' => if decide (x = y) then 0 else Datatypes.S (index_of x l')
  end.

(** [phases.insert(n, x)]. *)
Definition list_insert_at (n : nat) (x : string) (l : list string) : list string :=
  take n l ++ x :: drop n l.

Definition register_phase (cls name : string) (after before : option string)
    (phases : list string) : outcome (list string) :=
  let missing anchor :=
    Raise (Exn ValueError ("Anchor phase " +:+ str_repr anchor +:+ " not found in " +:+ cls
                             +:+ "._TURN_PHASES.")) in
  let insert :=
    match after, before with
    | Some a, _ =>
        if decide (a ∈ phases)
        then Ok (list_insert_at (Datatypes.S (index_of a phases)) name phases) else missing a
    | None, Some b =>
        if decide (b ∈ phases)
        then Ok (list_insert_at (index_of b phases) name phases) else missing b
    | None, None => Ok (phases ++ [name])
    end in
  match after, before with
  | Some _, Some _ =>
      Raise (Exn TypeError "Provide at most one of 'after' or 'before', not both.")
  | _, _ =>
      if decide (name ∈ phases)
      then Raise (Exn ValueError ("Phase " +:+ str_repr name +:+ " is already registered in "
                                    +:+ cls +:+ "._TURN_PHASES."))
      else insert
  end.
