(* ===== verification/TurnSafety.v ===== *)
(** * What a turn does ([kernel/turn_engine.py])

    The contract of each phase, the behaviour of [run_turn] (result, trace,
    ledger), and the executor calls of any number of turns that run
    concurrently over one dedupe store. *)
From S2P Require Export TurnPhases.

(** ** The trace of a turn

    The edges of the turn automaton, as event states. *)
Definition turn_edges : list (string * string) :=
  [ ("collecting", "intent_committed");
    ("intent_committed", "reasoning"); ("intent_committed", "completed_noop");
    ("intent_committed", "snapshot_built");
    ("reasoning", "reasoning_failed"); ("reasoning", "completed_noop");
    ("reasoning", "snapshot_built"); ("reasoning_failed", "completed_noop");
    ("snapshot_built", "admission_checked");
    ("admission_checked", "dispatch_blocked"); ("admission_checked", "dedupe_degraded");
    ("admission_checked", "dispatched"); ("dedupe_degraded", "dispatched");
    ("dispatched", "dispatch_acknowledged"); ("dispatched", "effect_unknown");
    ("effect_unknown", "recovery_pending") ].

Definition turn_edge (s s' : string) : bool := bool_decide ((s, s') ∈ turn_edges).

(** [emits l s]: the events [l] are a path of the automaton that ends in [s]. *)
Inductive emits : list TurnStateEvent → string → Prop :=
  | emits_start : emits [event collecting] "collecting"
  | emits_step l s e s' :
      emits l s → tse_state e = s' → turn_edge s s' = true → emits (l ++ [e]) s'.

(** The outcome kind that goes with a terminal state. *)
Definition kind_of (st : TurnState) : option TurnOutcomeKind :=
  match st with
  | completed_noop => Some out_noop
  | dispatch_blocked => Some out_blocked
  | dispatch_acknowledged => Some out_dispatched
  | recovery_pending => Some out_recovery_pending
  | _ => None
  end.

(** A result whose state, kind, trace and payloads agree. *)
Record coherent (r : TurnResult) : Prop := {
  coh_kind : kind_of (tr_state r) = Some (tr_outcome_kind r);
  coh_trace : emits (tr_emitted_events r) (turn_state_str (tr_state r));
  coh_commit : is_Some (tr_action_commit r) ↔ tr_outcome_kind r = out_dispatched;
  coh_recovery : is_Some (tr_recovery_input r) ↔ tr_outcome_kind r = out_recovery_pending
}.

Lemma emits_initial : emits [event collecting; event intent_committed] "intent_committed".
Proof. by apply (emits_step [event collecting] "collecting"); [constructor| |]. Qed.

Lemma coherent_noop i l s :
  emits l s → turn_edge s "completed_noop" = true →
  coherent (noop_result i (l ++ [event completed_noop])).
Proof.
  intros Hl Hs. split; simpl; [done| by eapply emits_step | |]; split; by try intros [??].
Qed.

Lemma coherent_plain st kind ti dp commit l s e :
  emits l s → tse_state e = turn_state_str st → turn_edge s (turn_state_str st) = true →
  kind_of st = Some kind → (is_Some commit ↔ kind = out_dispatched) →
  kind ≠ out_recovery_pending →
  coherent (plain_result st kind ti dp commit (l ++ [e])).
Proof.
  intros Hl He Hs Hk Hc Hr. split; simpl; [done| by eapply emits_step | done |].
  split; [by intros [??] | done].
Qed.

(** ** Stages of a context

    What holds of the context when a phase starts. *)
Definition turn_key (c : TurnPhaseContext) : string :=
  from_option id_dispatch_dedupe_key "" (cx_turn_identity c).

Definition identified (c : TurnPhaseContext) : Prop :=
  ∃ a s, cx_action c = Some a ∧ cx_snapshot c = Some s ∧
    assert_snapshot_compatible s = Ok tt ∧
    cx_turn_identity c =
      Some (_build_turn_identity (cx_input_value c) a (Some (cs_snapshot_hash s))).

Definition admitted (c : TurnPhaseContext) : Prop :=
  ∃ v, cx_admission_result c = Some v ∧ _is_admitted v = Ok true.

Definition policy_cleared (c : TurnPhaseContext) : Prop :=
  ∃ a, cx_action c = Some a ∧
    cx_dispatch_policy c = Some (_resolve_dispatch_policy a) ∧
    dp_should_block (_resolve_dispatch_policy a) = false.

Definition enveloped (c : TurnPhaseContext) : Prop :=
  ∃ e, cx_envelope c = Some e ∧ env_dispatch_idempotency_key e = turn_key c.

(** Everything the engine established before it may call the executor. *)
Record authorised (c : TurnPhaseContext) : Prop := {
  au_identified : identified c;
  au_admitted : admitted c;
  au_cleared : policy_cleared c;
  au_enveloped : enveloped c
}.

Definition fresh (p : phase) (c : TurnPhaseContext) : Prop :=
  cx_result c = None ∧
  match p with ph_execute => True | _ => cx_legacy_alias_key c = None end.

Definition pre (p : phase) (c : TurnPhaseContext) : Prop :=
  fresh p c ∧
  match p with
  | ph_noop_or_reasoning => emits (cx_emitted_events c) "intent_committed"
  | ph_snapshot =>
      is_Some (cx_action c) ∧
      ∃ s, emits (cx_emitted_events c) s ∧ s ∈ ["intent_committed"; "reasoning"]
  | ph_admission => emits (cx_emitted_events c) "snapshot_built" ∧ identified c
  | ph_dispatch_policy =>
      emits (cx_emitted_events c) "admission_checked" ∧ identified c ∧ admitted c
  | ph_dedupe =>
      emits (cx_emitted_events c) "admission_checked" ∧ identified c ∧ admitted c ∧
      policy_cleared c
  | ph_execute => emits (cx_emitted_events c) "dispatched" ∧ authorised c
  end.

(** A phase ends the turn with a coherent result of one of the [kinds], or
    leaves the context ready for the next phase. *)
Definition leads (kinds : list TurnOutcomeKind) (next : TurnPhaseContext → Prop)
    (c : TurnPhaseContext) : Prop :=
  (∃ r, cx_result c = Some r ∧ coherent r ∧ tr_outcome_kind r ∈ kinds) ∨
  (cx_result c = None ∧ next c).

Lemma leads_finish kinds next evs mk c :
  coherent (mk (cx_emitted_events c ++ evs)) →
  tr_outcome_kind (mk (cx_emitted_events c ++ evs)) ∈ kinds →
  leads kinds next (finish evs mk c).
Proof. intros. left. by eexists. Qed.

Lemma pre_initial i a : pre ph_noop_or_reasoning (initial_context i a).
Proof. split; [done|]. apply emits_initial. Qed.

Section contracts.
Context {S E : Type} `{DedupeStoreLaws S} (te : TurnEngine E).
Abbreviation W := (world S E).
Implicit Types w : W.

(** [w'] has the store and the calls of [w]. *)
Definition untouched w w' : Prop := w_store w' = w_store w ∧ w_calls w' = w_calls w.

#[local] Instance untouched_preorder : PreOrder untouched.
Proof. split; [by split|]. intros w1 w2 w3 [] []. split; congruence. Qed.

Lemma wp_on_env {A} (m : M E A) (Q : A → W → Prop) (Ex : exn → W → Prop) w :
  (∀ a w', untouched w w' → Q a w') → (∀ e w', untouched w w' → Ex e w') →
  wp (on_env m) Q Ex w.
Proof.
  intros HQ HE. apply wp_zoom. unfold wp. destruct (m (w_env w)) as [[a|e] e'].
  - by apply HQ.
  - by apply HE.
Qed.

Lemma wp_assert_some {T A} (o : option A) a (Q : A → T → Prop) Ex t :
  o = Some a → Q a t → wp (assert_some o) Q Ex t.
Proof. by intros ->. Qed.

Lemma wp_on_store {A} (m : M S A) spec (Q : A → W → Prop) (Ex : exn → W → Prop) w :
  refines ds_ok ds_view m spec → (DedupeStoreAvailable S → total_on ds_ok ds_view m spec) →
  ds_ok (w_store w) →
  (∀ a s', ds_ok s' → spec (ds_view (w_store w)) = Some (a, ds_view s') →
     Q a (World s' (w_env w) (w_calls w))) →
  (∀ e s', ds_ok s' → ds_view s' = ds_view (w_store w) → is_Exception e = true →
     (DedupeStoreAvailable S → spec (ds_view (w_store w)) = None) →
     Ex e (World s' (w_env w) (w_calls w))) →
  wp (on_store m) Q Ex w.
Proof.
  intros Hm Ht Hok HQ HE. by apply wp_zoom, (wp_refines m spec).
Qed.

(** *** Phases 1 to 4 leave the store alone and call nothing *)
Lemma noop_spec c w :
  pre ph_noop_or_reasoning c →
  wp (_phase_noop_or_reasoning te c)
    (λ c' w', untouched w w' ∧ leads [out_noop] (pre ph_snapshot) c') (λ _, untouched w) w.
Proof.
  intros [[Hres Halias] Hem]. unfold _phase_noop_or_reasoning.
  assert (emits (cx_emitted_events c ++ [event reasoning]) "reasoning") as Hr.
  { by eapply emits_step. }
  destruct (cx_action c) as [a|] eqn:Ha.
  { split; [done|]. right. do 2 (split; [done|]). split; [by rewrite Ha|].
    exists "intent_committed". set_solver. }
  destruct (te_reasoning_loop te) as [run_once|].
  2:{ split; [done|]. apply leads_finish; [by eapply coherent_noop|set_solver]. }
  apply wp_bind, wp_try_except, wp_bind, wp_on_env; cycle 1.
  { intros e w1 H1. destruct (is_Exception e); [|done]. split; [done|].
    apply leads_finish; [|set_solver]. by eapply coherent_noop; [by eapply emits_step|]. }
  intros snap w1 H1. apply wp_bind, wp_on_env.
  - intros acts w2 H2. destruct acts as [|a acts]; (split; [by etrans|]).
    + apply leads_finish; [by eapply coherent_noop|set_solver].
    + right. do 2 (split; [done|]). split; [by eexists|]. exists "reasoning". set_solver.
  - intros e w2 H2. destruct (is_Exception e); [|by etrans]. split; [by etrans|].
    apply leads_finish; [|set_solver]. by eapply coherent_noop; [by eapply emits_step|].
Qed.

Lemma snapshot_spec c w :
  pre ph_snapshot c →
  wp (_phase_snapshot te c)
    (λ c' w', untouched w w' ∧ leads [out_noop] (pre ph_admission) c') (λ _, untouched w) w.
Proof.
  intros ([Hres Halias] & [a Ha] & s & Hem & Hs). unfold _phase_snapshot.
  eapply wp_bind, wp_assert_some; [done|].
  assert (turn_edge s "completed_noop" = true ∧ turn_edge s "snapshot_built" = true) as [Hn Hb].
  { set_unfold in Hs. destruct Hs as [->| [->|[]]]; done. }
  assert (∀ e w', untouched w w' →
    if is_ValueError e
    then wp (mret (finish [event completed_noop]
               (plain_result completed_noop out_noop
                  (_build_turn_identity (cx_input_value c) a None) None None)
               (set_snapshot (_build_turn_identity (cx_input_value c) a None) None c)))
           (λ c' w', untouched w w' ∧ leads [out_noop] (pre ph_admission) c') (λ _, untouched w) w'
    else untouched w w') as Hexn.
  { intros e w' Hu. destruct (is_ValueError e); [|done]. split; [done|].
    apply leads_finish; [|set_solver].
    eapply coherent_plain; try done. }
  apply wp_try_except, wp_bind, wp_lift; [|intros e He; by apply Hexn].
  intros i Hi. apply wp_bind, wp_on_env; [|intros e w1 H1; by apply Hexn].
  intros snap w1 H1. apply wp_bind, wp_lift; [|intros e He; by apply Hexn].
  intros [] Hcompat. split; [done|]. right. split; [done|]. split; [done|]. split.
  - by eapply emits_step.
  - by exists a, snap.
Qed.

Lemma admission_spec c w :
  pre ph_admission c →
  wp (_phase_admission te c)
    (λ c' w', untouched w w' ∧ leads [out_blocked] (pre ph_dispatch_policy) c')
    (λ _, untouched w) w.
Proof.
  intros ([Hres Halias] & Hem & Hid). destruct (Hid) as (a & s & Ha & Hs & Hcompat & Hti).
  unfold _phase_admission.
  do 3 (eapply wp_bind, wp_assert_some; [done|]).
  apply wp_bind, wp_on_env; [|by auto]. intros v w1 Hu.
  apply wp_bind, wp_lift; [|by auto]. intros adm Hadm.
  assert (emits (cx_emitted_events c ++ [event admission_checked]) "admission_checked")
    by by eapply emits_step.
  destruct adm; simpl; (split; [done|]).
  - right. split; [done|]. repeat split; try done. by exists v.
  - apply leads_finish; [|set_solver].
    eapply coherent_plain; try done.
Qed.

Lemma dispatch_policy_spec c w :
  pre ph_dispatch_policy c →
  wp (_phase_dispatch_policy c)
    (λ c' w', untouched w w' ∧ leads [out_blocked] (pre ph_dedupe) c') (λ _, untouched w) w.
Proof.
  intros ([Hres Halias] & Hem & Hid & Hadm). destruct (Hid) as (a & s & Ha & Hs & Hcompat & Hti).
  unfold _phase_dispatch_policy.
  do 2 (eapply wp_bind, wp_assert_some; [done|]).
  destruct (dp_should_block (_resolve_dispatch_policy a)) eqn:Hb; (split; [done|]).
  - apply leads_finish; [|set_solver].
    eapply coherent_plain; try done.
  - right. split; [done|]. repeat split; try done. by exists a.
Qed.

(** *** Phase 5 *)
Definition view w : ledger := ds_view (w_store w).

(** The key of a turn in the historical format. *)
Definition turn_legacy_key (c : TurnPhaseContext) : string :=
  from_option (dedupe_key_of c) "" (cx_action c).

Definition turn_effect_class (c : TurnPhaseContext) : option EffectClass :=
  act_effect_class <$> cx_action c.

Definition in_state (l : ledger) (k : string) (st : DedupeState) : Prop :=
  ∃ r, l !! k = Some r ∧ rec_state r = st ∧ rec_dispatch_idempotency_key r = k.

(** What a turn that goes on to execute has just done to the ledger. *)
Record claimed (l l' : ledger) (c : TurnPhaseContext) : Prop := {
  cl_le : ledger_le l l';
  cl_fresh : cx_dedupe_available c = true →
    l !! turn_key c = None ∧ in_state l' (turn_key c) dispatched;
  cl_degraded : cx_dedupe_available c = false →
    l' = l ∧ turn_effect_class c = Some IDEMPOTENT_WRITE ∧ cx_legacy_alias_key c = None;
  cl_alias k : cx_legacy_alias_key c = Some k →
    k = turn_legacy_key c ∧ k ≠ turn_key c ∧ in_state l' k dispatched;
  cl_legacy : DedupeStoreAvailable S →
    cx_dedupe_available c = true ∧ l !! turn_legacy_key c = None ∧
    is_Some (l' !! turn_legacy_key c)
}.

Lemma spec_reserve_accepted st e peer l r l' :
  spec_reserve st e peer l = (r, l') → accepted r = true →
  l !! env_dispatch_idempotency_key e = None ∧
  l' = <[env_dispatch_idempotency_key e := new_record e st peer]> l.
Proof. unfold spec_reserve. case_match; by intros [= <- <-]. Qed.

Lemma spec_reserve_duplicate st e peer l r l' :
  spec_reserve st e peer l = (r, l') → accepted r = false → l' = l.
Proof. unfold spec_reserve. case_match; by intros [= <- <-]. Qed.

Lemma in_state_insert l e st peer :
  in_state (<[env_dispatch_idempotency_key e := new_record e st peer]> l)
    (env_dispatch_idempotency_key e) st.
Proof. eexists. by rewrite lookup_insert_eq. Qed.

Lemma resolve_envelope_key v ti a s h :
  env_dispatch_idempotency_key (_resolve_idempotency_envelope v ti a s h) =
  id_dispatch_dedupe_key ti.
Proof. unfold _resolve_idempotency_envelope. by case_match. Qed.

(** A world that differs from [w] in its store only. *)
Definition same_calls w w' : Prop := w_calls w' = w_calls w ∧ w_env w' = w_env w.

(** The reservation: accepted on a fresh key, refused with the ledger as it
    was, or degraded for an idempotent write. *)
Lemma reserve_spec env a h evs w
    (Q : DedupeReservation * IdempotencyEnvelope * bool * list TurnStateEvent → W → Prop)
    (Ex : exn → W → Prop) :
  ds_ok (w_store w) →
  let k := env_dispatch_idempotency_key env in
  (∀ r s', ds_ok s' → accepted r = true → view w !! k = None →
     ds_view s' = <[k := new_record env dispatched (env_peer_operation_id env)]> (view w) →
     Q (r, env, true, evs) (World s' (w_env w) (w_calls w))) →
  (∀ r s', ds_ok s' → accepted r = false → ds_view s' = view w →
     Q (r, env, true, evs) (World s' (w_env w) (w_calls w))) →
  (∀ e' ev s', ds_ok s' → ds_view s' = view w → act_effect_class a = IDEMPOTENT_WRITE →
     (DedupeStoreAvailable S → False) → env_dispatch_idempotency_key e' = k →
     tse_state ev = "dedupe_degraded" →
     Q (accepted_reservation, e', false, evs ++ [ev]) (World s' (w_env w) (w_calls w))) →
  (∀ e s', ds_ok s' → ds_view s' = view w → Ex e (World s' (w_env w) (w_calls w))) →
  wp (_reserve_with_degradation env a h evs) Q Ex w.
Proof.
  intros Hok k HA HD HG HE. unfold _reserve_with_degradation.
  apply wp_try_except, wp_bind.
  eapply wp_on_store; [apply law_reserve_and_dispatch | intros; apply avail_reserve_and_dispatch
                      | done | |].
  - intros r s' Hs' Hspec. simpl in Hspec. injection Hspec as Hspec. apply wp_ret.
    destruct (accepted r) eqn:Hr.
    + apply spec_reserve_accepted in Hspec as [Hf Hv]; [|done]. by apply HA.
    + apply spec_reserve_duplicate in Hspec; [|done]. by apply HD.
  - intros e s' Hs' Hv He Hav. rewrite He. case_decide as Hec; [by apply HE|].
    apply wp_ret. apply HG; try done.
    intros Ha. by specialize (Hav Ha).
Qed.

(** Mirroring the reservation under the legacy key [lk]. *)
Lemma mirror_spec env lk w (Q : option string → W → Prop) (Ex : exn → W → Prop) :
  ds_ok (w_store w) →
  (∀ s', ds_ok s' → view w !! lk = None → ledger_le (view w) (ds_view s') →
     (∀ k, k ≠ lk → ds_view s' !! k = view w !! k) → in_state (ds_view s') lk dispatched →
     Q (Some lk) (World s' (w_env w) (w_calls w))) →
  (∀ s', ds_ok s' → ds_view s' = view w → (DedupeStoreAvailable S → is_Some (view w !! lk)) →
     Q None (World s' (w_env w) (w_calls w))) →
  wp (mirror_legacy_slot env lk) Q Ex w.
Proof.
  intros Hok HS HN. unfold mirror_legacy_slot, suppress_or. apply wp_try_except, wp_bind.
  eapply wp_on_store; [apply law_reserve_and_dispatch | intros; apply avail_reserve_and_dispatch
                      | done | |].
  - intros r s' Hs' Hspec. simpl in Hspec. injection Hspec as Hspec. apply wp_ret.
    destruct (accepted r) eqn:Hr.
    + pose proof (spec_reserve_le dispatched (legacy_envelope_of env lk)
        (str_or (env_peer_operation_id env) (env_peer_operation_id env)) (view w)) as Hle.
      unfold view in *. rewrite Hspec in Hle.
      apply spec_reserve_accepted in Hspec as [Hf Hv]; [|done].
      apply HS; [done|done|done| |].
      * intros k Hk. rewrite Hv. by rewrite lookup_insert_ne by done.
      * rewrite Hv. apply in_state_insert.
    + apply HN; [done | by eapply spec_reserve_duplicate |]. intros _.
      revert Hspec. unfold spec_reserve, view. simpl. case_match; [by eexists|].
      by intros [= <- _].
  - intros e s' Hs' Hv He Hav. rewrite He. apply wp_ret. apply HN; [done..|].
    intros Ha. by specialize (Hav Ha).
Qed.

Lemma emits_evs_dispatched c evs :
  emits (cx_emitted_events c) "admission_checked" →
  (evs = cx_emitted_events c ∨
   ∃ ev, tse_state ev = "dedupe_degraded" ∧ evs = cx_emitted_events c ++ [ev]) →
  emits (evs ++ [event ts_dispatched]) "dispatched".
Proof.
  intros Hem [->|(ev & Hev & ->)].
  - by eapply emits_step.
  - eapply emits_step; [by eapply emits_step|done|done].
Qed.

(** The look-up of the legacy key never fails and changes nothing; on an
    available store, [None] means that the key is free. *)
Lemma legacy_lookup_spec lk k w (Q : option DedupeRecord → W → Prop) (Ex : exn → W → Prop) :
  ds_ok (w_store w) →
  (∀ o s', ds_ok s' → ds_view s' = view w →
     (o = None → DedupeStoreAvailable S → lk = k ∨ view w !! lk = None) →
     Q o (World s' (w_env w) (w_calls w))) →
  wp (if decide (lk ≠ k) then suppress_or None (on_store (ds_get lk)) else mret None) Q Ex w.
Proof.
  intros Hok HQ. case_decide as Hlk.
  - unfold suppress_or. apply wp_try_except.
    eapply wp_on_store; [apply law_get | intros; apply avail_get | done | |].
    + intros o s' Hs' [= <- Hv]. apply HQ; auto.
    + intros e s' Hs' Hv He Hav. rewrite He. apply wp_ret. apply HQ; [done..|].
      intros _ Ha. by specialize (Hav Ha).
  - destruct w as [s0 e0 cs]. apply wp_ret. apply (HQ None s0); [done..|]. intros _ _. left.
    done.
Qed.

(** The context that leaves the phase. *)
Definition dispatched_context env evs av outcome alias (c : TurnPhaseContext) : TurnPhaseContext :=
  emit [event ts_dispatched] (set_dispatch outcome alias (set_dedupe env evs av c)).

Lemma dispatched_context_pre env evs av outcome alias c :
  pre ph_dedupe c → env_dispatch_idempotency_key env = turn_key c →
  (evs = cx_emitted_events c ∨
   ∃ ev, tse_state ev = "dedupe_degraded" ∧ evs = cx_emitted_events c ++ [ev]) →
  pre ph_execute (dispatched_context env evs av outcome alias c).
Proof.
  intros ([Hres Halias] & Hem & Hid & Hadm & Hpol) Henv Hevs. split; [done|]. split.
  - by eapply emits_evs_dispatched.
  - split; try done. by exists env.
Qed.

Definition dedupe_post w (c' : TurnPhaseContext) w' : Prop :=
  ds_ok (w_store w') ∧ same_calls w w' ∧
  leads [out_blocked] (λ c', pre ph_execute c' ∧ claimed (view w) (view w') c') c' ∧
  (is_Some (cx_result c') → view w' = view w).

Lemma dedupe_post_go w c' s' :
  ds_ok s' → pre ph_execute c' → claimed (view w) (ds_view s') c' →
  dedupe_post w c' (World s' (w_env w) (w_calls w)).
Proof.
  intros Hok Hpre Hcl. destruct (Hpre) as [[Hres _] _].
  split_and!; [done|done| by right | by rewrite Hres; intros []].
Qed.

Lemma dedupe_post_blocked w c ti dp s' :
  ds_ok s' → emits (cx_emitted_events c) "admission_checked" → ds_view s' = view w →
  dedupe_post w
    (finish [event dispatch_blocked] (plain_result dispatch_blocked out_blocked ti dp None) c)
    (World s' (w_env w) (w_calls w)).
Proof.
  intros Hok Hem Hv. split_and!; try done. apply leads_finish; [|set_solver].
  by eapply coherent_plain.
Qed.

(** Going on with the reserved key [k], without or with the legacy alias. *)
Lemma claimed_reserved env evs outcome alias c l l' :
  l !! turn_key c = None → ledger_le l l' → in_state l' (turn_key c) dispatched →
  (∀ k, alias = Some k → k = turn_legacy_key c ∧ k ≠ turn_key c ∧ in_state l' k dispatched) →
  (DedupeStoreAvailable S → l !! turn_legacy_key c = None ∧ is_Some (l' !! turn_legacy_key c)) →
  claimed l l' (dispatched_context env evs true outcome alias c).
Proof.
  intros Hf Hle Hin Hal Hleg. split; try done. intros Ha. by destruct (Hleg Ha).
Qed.

Lemma ledger_le_fresh (l : ledger) k r : l !! k = None → ledger_le l (<[k := r]> l).
Proof.
  intros Hk k' r' Hr'. exists r'. rewrite lookup_insert_ne by congruence. done.
Qed.

Lemma in_state_is_Some l k st : in_state l k st → is_Some (l !! k).
Proof. intros (r & -> & _). by eexists. Qed.

Lemma dedupe_spec c w :
  pre ph_dedupe c → ds_ok (w_store w) →
  wp (_phase_dedupe c) (dedupe_post w)
    (λ _ w', ds_ok (w_store w') ∧ same_calls w w' ∧ view w' = view w) w.
Proof.
  intros Hpre Hok. destruct (Hpre) as ([Hres Halias] & Hem & Hid & Hadm & Hpol).
  destruct (Hid) as (a & s & Ha & Hs & Hcompat & Hti).
  destruct (Hpol) as (a' & Ha' & Hdp & Hb). assert (a' = a) as -> by congruence.
  assert (turn_key c = id_dispatch_dedupe_key (_build_turn_identity (cx_input_value c) a
            (Some (cs_snapshot_hash s)))) as Hk by (unfold turn_key; by rewrite Hti).
  assert (turn_legacy_key c = dedupe_key_of c a) as Hlk by (unfold turn_legacy_key; by rewrite Ha).
  unfold _phase_dedupe. do 4 (eapply wp_bind, wp_assert_some; [done|]). cbv zeta.
  rewrite <- Hk, <- Hlk.
  apply wp_bind, legacy_lookup_spec; [done|]. intros o s1 Hok1 Hv1 Hfree.
  destruct o as [r0|]; [by apply wp_ret, dedupe_post_blocked|].
  set (env := _resolve_idempotency_envelope _ _ _ _ _).
  assert (env_dispatch_idempotency_key env = turn_key c) as Henv
    by (rewrite Hk; apply resolve_envelope_key).
  clearbody env. apply wp_bind, reserve_spec; [done| | | |]; unfold view; simpl; rewrite Hv1.
  - intros r s2 Hok2 -> Hf Hv2. simpl. rewrite Henv in Hf, Hv2.
    assert (in_state (ds_view s2) (turn_key c) dispatched) as Hin2
      by (rewrite Hv2, <- Henv; apply in_state_insert).
    assert (ledger_le (view w) (ds_view s2)) as Hle2
      by (rewrite Hv2; by apply ledger_le_fresh).
    apply wp_bind. case_decide as Hd.
    + destruct Hd as [_ Hne]. apply mirror_spec; [done|..].
      * intros s3 Hok3 Hf3 Hle3 Hsame Hin3. apply wp_ret, (dedupe_post_go w); [done|..].
        { apply dispatched_context_pre; [done|done|by left]. }
        apply claimed_reserved; [done|by etrans| | |].
        { destruct Hin2 as (r2 & ? & ?). exists r2. by rewrite Hsame by done. }
        { by intros ? [= <-]. }
        { intros _. split; [|by eapply in_state_is_Some].
          revert Hf3. unfold view at 1. simpl. rewrite Hv2. by rewrite lookup_insert_ne by done. }
      * intros s3 Hok3 Hv3 Hav3. apply wp_ret, (dedupe_post_go w); [done|..].
        { apply dispatched_context_pre; [done|done|by left]. }
        rewrite Hv3. apply claimed_reserved; [done|done|done|done|]. intros Ha3.
        destruct (Hfree eq_refl Ha3) as [|Hn]; [done|]. split; [done|]. by apply Hav3.
    + apply wp_ret, (dedupe_post_go w); [done|..].
      { apply dispatched_context_pre; [done|done|by left]. }
      apply claimed_reserved; [done|done|done|done|]. intros _.
      assert (turn_legacy_key c = turn_key c) as -> by (apply dec_stable; tauto).
      split; [done|]. by eapply in_state_is_Some.
  - intros r s2 Hok2 -> Hv2. simpl. by apply wp_ret, (dedupe_post_blocked w).
  - intros e' ev s2 Hok2 Hv2 Hec Hna He' Hev. apply wp_bind.
    apply wp_ret, wp_ret, (dedupe_post_go w); [done|..].
    + apply dispatched_context_pre; [done|congruence|]. right. by exists ev.
    + simpl. rewrite Hv2. split; try done.
      * intros _. unfold turn_effect_class. simpl. by rewrite Ha, <- Hec.
  - intros e s2 Hok2 Hv2. by split_and!.
Qed.

(** *** Phase 6 *)
Lemma execute_enter_spec c w :
  authorised c →
  ∃ x, execute_enter te c w =
         (Ok x, World (w_store w) (w_env w) (w_calls w ++ [x])) ∧
    xc_turn x = c ∧ cx_action c = Some (xc_action x) ∧ cx_snapshot c = Some (xc_snapshot x) ∧
    cx_envelope c = Some (xc_envelope x).
Proof.
  intros [(a & s & Ha & Hs & _ & Hti) _ (a' & _ & Hdp & _) (e & He & _)].
  unfold execute_enter. rewrite Ha, Hs, Hti, Hdp, He. simpl. by eexists.
Qed.

(** A marking of [k]: the ledger evolves, and only at [k]. *)
Record marks (target : DedupeState) (k : string) (l l' : ledger) : Prop := {
  mk_le : ledger_le l l';
  mk_other k' : k' ≠ k → l' !! k' = l !! k';
  mk_state st : in_state l k st → in_state l' k target
}.

Lemma spec_mark_marks target k peer ack l l' :
  spec_mark_unit target k peer ack l = Some (tt, l') → marks target k l l'.
Proof.
  unfold spec_mark_unit. intros (l1 & Hm & [= ->])%fmap_Some. split.
  - by eapply spec_mark_le.
  - intros k' Hk'. unfold spec_mark, mbind, option_bind in Hm. case_all.
    by rewrite lookup_insert_ne by done.
  - intros st (r & Hr & Hst & Hkey). unfold spec_mark, mbind, option_bind in Hm.
    rewrite Hr in Hm. case_all. eexists. by rewrite lookup_insert_eq.
Qed.

Lemma spec_mark_dispatched target k peer ack l :
  dispatched ∈ legal_sources target → in_state l k dispatched →
  spec_mark_unit target k peer ack l ≠ None.
Proof.
  intros Hleg (r & Hr & Hst & _). unfold spec_mark_unit, spec_mark. rewrite Hr. simpl.
  by rewrite Hst, decide_True.
Qed.

(** The two markings that the engine performs. *)
Definition engine_mark (target : DedupeState) (k : string) : M S unit :=
  match target with
  | acknowledged => ds_mark_acknowledged k None
  | _ => ds_mark_unknown_effect k
  end.

Lemma mark_spec target k w (Q : unit → W → Prop) (Ex : exn → W → Prop) :
  target ∈ [acknowledged; unknown_effect] → ds_ok (w_store w) →
  (∀ s', ds_ok s' → marks target k (view w) (ds_view s') →
     Q tt (World s' (w_env w) (w_calls w))) →
  (∀ e s', ds_ok s' → ds_view s' = view w → is_Exception e = true →
     (DedupeStoreAvailable S → in_state (view w) k dispatched → False) →
     Ex e (World s' (w_env w) (w_calls w))) →
  wp (on_store (engine_mark target k)) Q Ex w.
Proof.
  intros Ht Hok HQ HE.
  apply (wp_on_store (engine_mark target k) (spec_mark_unit target k None None)).
  - set_unfold in Ht. destruct Ht as [->| [->|[]]]; [apply law_mark_acknowledged|].
    apply law_mark_unknown_effect.
  - intros Ha. set_unfold in Ht. destruct Ht as [->| [->|[]]];
      [apply avail_mark_acknowledged|apply avail_mark_unknown_effect].
  - done.
  - intros [] s' Hs' Hspec. apply HQ; [done|]. by eapply spec_mark_marks.
  - intros e s' Hs' Hv He Hav. apply HE; try done. intros Ha Hin.
    apply (spec_mark_dispatched target k None None (view w)); auto.
    set_unfold in Ht. destruct Ht as [->| [->|[]]]; set_solver.
Qed.

(** The marking of the key, where it was made: [strict] lets its exception
    out, otherwise it is suppressed; the alias is always suppressed. *)
Definition settle (c : TurnPhaseContext) (target : DedupeState) (strict : bool)
    : M W unit :=
  if cx_dedupe_available c then
    (if strict then on_store (engine_mark target (turn_key c))
     else suppress (on_store (engine_mark target (turn_key c))));;
    mark_alias (engine_mark target) (cx_legacy_alias_key c)
  else mret tt.

Lemma mark_alias_spec target alias k w (Q : unit → W → Prop) (Ex : exn → W → Prop) :
  target ∈ [acknowledged; unknown_effect] → ds_ok (w_store w) → alias ≠ Some k →
  (∀ s', ds_ok s' → ledger_le (view w) (ds_view s') → ds_view s' !! k = view w !! k →
     Q tt (World s' (w_env w) (w_calls w))) →
  wp (mark_alias (engine_mark target) alias) Q Ex w.
Proof.
  intros Ht Hok Hk HQ. destruct w as [s0 e0 cs]. destruct alias as [k'|]; simpl.
  - apply wp_suppress, mark_spec; [done|done| |].
    + intros s' Hs' Hm. apply HQ; [done|by destruct Hm|]. apply (mk_other _ _ _ _ Hm). congruence.
    + intros e s' Hs' Hv He _. rewrite He. apply HQ; [done| |]; by rewrite Hv.
  - apply wp_ret, (HQ s0); done.
Qed.

Lemma in_state_lookup l l' k st : l' !! k = l !! k → in_state l k st → in_state l' k st.
Proof. intros Hk (r & Hr & Hst). exists r. by rewrite Hk. Qed.

Lemma settle_spec c target strict w (Q : unit → W → Prop) (Ex : exn → W → Prop) :
  target ∈ [acknowledged; unknown_effect] → ds_ok (w_store w) →
  cx_legacy_alias_key c ≠ Some (turn_key c) →
  (∀ s', ds_ok s' → ledger_le (view w) (ds_view s') →
     (cx_dedupe_available c = true → in_state (view w) (turn_key c) dispatched →
      strict = true ∨ DedupeStoreAvailable S → in_state (ds_view s') (turn_key c) target) →
     Q tt (World s' (w_env w) (w_calls w))) →
  (∀ e s', ds_ok s' → ledger_le (view w) (ds_view s') → strict = true →
     (DedupeStoreAvailable S → in_state (view w) (turn_key c) dispatched →
      cx_dedupe_available c = true → False) →
     Ex e (World s' (w_env w) (w_calls w))) →
  wp (settle c target strict) Q Ex w.
Proof.
  intros Ht Hok Hal HQ HE. unfold settle. destruct (cx_dedupe_available c) eqn:Hc.
  2:{ destruct w as [s0 e0 cs]. by apply wp_ret, (HQ s0). }
  apply wp_bind. destruct strict; [|apply wp_suppress]; apply mark_spec; try done.
  - intros s1 Hok1 Hm. apply (mark_alias_spec target _ (turn_key c)); [done..|].
    intros s2 Hok2 Hle2 Hk2. apply HQ; [done|by etrans; [apply (mk_le _ _ _ _ Hm)|]|].
    intros _ Hin _. eapply in_state_lookup; [done|]. by eapply mk_state.
  - intros e s1 Hok1 Hv1 He Hav. apply HE; try done; [by rewrite Hv1|]. auto.
  - intros s1 Hok1 Hm. apply (mark_alias_spec target _ (turn_key c)); [done..|].
    intros s2 Hok2 Hle2 Hk2. apply HQ; [done|by etrans; [apply (mk_le _ _ _ _ Hm)|]|].
    intros _ Hin _. eapply in_state_lookup; [done|]. by eapply mk_state.
  - intros e s1 Hok1 Hv1 He Hav. rewrite He.
    apply (mark_alias_spec target _ (turn_key c)); [done..|].
    intros s2 Hok2 Hle2 Hk2. apply HQ; [done| by unfold view in *; simpl in *; rewrite Hv1 in Hle2|].
    intros _ Hin [?|Ha]; [done|]. by destruct (Hav Ha).
Qed.

(** The state in which the executor's outcome leaves the reserved key. *)
Definition exit_state (o : outcome pydict) : DedupeState :=
  match o with
  | Ok r =>
      if py_truthy (py_get_or "acknowledged" r (PBool false)) then acknowledged
      else unknown_effect
  | Raise e => if is_Exception e then unknown_effect else dispatched
  end.

Definition exit_kind (o : outcome pydict) : TurnOutcomeKind :=
  match exit_state o with acknowledged => out_dispatched | _ => out_recovery_pending end.

Lemma coherent_recovery i a ti r h d l :
  emits l "dispatched" →
  coherent (_build_recovery_pending_turn_result i a ti r h d
              (l ++ [event effect_unknown; event recovery_pending])).
Proof.
  intros Hl. split; simpl; [done| | |done].
  - replace (l ++ _) with ((l ++ [event effect_unknown]) ++ [event recovery_pending])
      by by rewrite <- app_assoc.
    eapply emits_step; [by eapply emits_step|done|done].
  - split; [by intros [??] | done].
Qed.

Definition exit_post c (o : outcome pydict) w (c' : TurnPhaseContext) w' : Prop :=
  ds_ok (w_store w') ∧ same_calls w w' ∧ ledger_le (view w) (view w') ∧
  (∃ r, cx_result c' = Some r ∧ coherent r ∧ tr_outcome_kind r = exit_kind o ∧
        tr_dispatch_dedupe_key r = Some (turn_key c) ∧ is_ok o = true) ∧
  (cx_dedupe_available c = true → in_state (view w) (turn_key c) dispatched →
   in_state (view w') (turn_key c) (exit_state o)).

Definition exit_raise c (o : outcome pydict) w (e : exn) w' : Prop :=
  ds_ok (w_store w') ∧ same_calls w w' ∧ ledger_le (view w) (view w') ∧
  (DedupeStoreAvailable S →
   cx_dedupe_available c = true → in_state (view w) (turn_key c) dispatched →
   o = Raise e ∧ in_state (view w') (turn_key c) (exit_state o)).

Lemma execute_exit_spec c o w :
  pre ph_execute c → ds_ok (w_store w) → cx_legacy_alias_key c ≠ Some (turn_key c) →
  wp (execute_exit te c o) (exit_post c o w) (exit_raise c o w) w.
Proof.
  intros ([Hres _] & Hem & Hau) Hok Hal.
  destruct Hau as [(a & s & Ha & Hs & _ & Hti) _ (a' & _ & Hdp & _) (env & He & _)].
  assert (turn_key c = id_dispatch_dedupe_key (_build_turn_identity (cx_input_value c) a
            (Some (cs_snapshot_hash s)))) as Hk by (unfold turn_key; by rewrite Hti).
  unfold execute_exit. do 5 (eapply wp_bind, wp_assert_some; [done|]). cbv zeta.
  rewrite <- Hk. destruct o as [r|e].
  - destruct (py_truthy _) eqn:Hack; apply wp_bind.
    + apply (settle_spec c acknowledged true); [set_solver|done|done| |].
      * intros s1 Hok1 Hle1 Hset. apply wp_bind, wp_gets, wp_ret.
        split_and!; [done|done|done| |].
        { eexists. split_and!; [done|by eapply coherent_plain| |by rewrite Hk|done].
          unfold exit_kind. simpl. by rewrite Hack. }
        { intros Hc Hin. simpl. rewrite Hack. by apply Hset; [| |left]. }
      * intros e s1 Hok1 Hle1 _ Hav. split_and!; try done.
        intros Hav' Hc Hin. by destruct (Hav Hav' Hin Hc).
    + apply (settle_spec c unknown_effect true); [set_solver|done|done| |].
      * intros s1 Hok1 Hle1 Hset. apply wp_ret.
        split_and!; [done|done|done| |].
        { eexists. split_and!; [done|by apply coherent_recovery| |by rewrite Hk|done].
          unfold exit_kind. simpl. by rewrite Hack. }
        { intros Hc Hin. simpl. rewrite Hack. by apply Hset; [| |left]. }
      * intros e s1 Hok1 Hle1 _ Hav. split_and!; try done.
        intros Hav' Hc Hin. by destruct (Hav Hav' Hin Hc).
  - apply wp_bind. destruct (is_Exception e) eqn:Hexc; simpl.
    + apply (settle_spec c unknown_effect false); [set_solver|done|done| |done].
      intros s1 Hok1 Hle1 Hset. apply wp_raise. split_and!; try done.
      intros Hav Hc Hin. split; [done|]. simpl. rewrite Hexc. apply Hset; auto.
    + destruct w. apply wp_ret, wp_raise. split_and!; try done.
      intros _ _ Hin. split; [done|]. simpl. by rewrite Hexc.
Qed.

(** *** The whole turn *)

(** What [wait_for] lets out. *)
Definition escaped (e : exn) : exn :=
  if te_phase_timeout te && bool_decide (exn_cls e = CancelledByDeadline)
  then Exn TimeoutError "" else e.

Lemma wp_run_phases p ps c (Q : TurnResult → W → Prop) (Ex : exn → W → Prop) w :
  wp (run_phase te p c)
    (λ c' w', match cx_result c' with
              | Some r => Q r w'
              | None => wp (run_phases te ps c') Q Ex w'
              end) (λ e w', Ex (escaped e) w') w →
  wp (run_phases te (p :: ps) c) Q Ex w.
Proof.
  intros Hp. simpl. apply wp_bind. unfold wait_for. destruct (te_phase_timeout te) eqn:Ht.
  - apply wp_try_except. eapply wp_mono; [exact Hp| |].
    + intros c' w' Hc. cbn beta in Hc. by destruct (cx_result c').
    + intros e w'. unfold escaped. rewrite Ht. simpl. by case_bool_decide.
  - eapply wp_mono; [exact Hp| |].
    + intros c' w' Hc. cbn beta in Hc. by destruct (cx_result c').
    + intros e w'. unfold escaped. by rewrite Ht.
Qed.

(** One phase of a run, from its contract. *)
Lemma wp_phase_leads p ps kinds next c (P : W → Prop)
    (Q : TurnResult → W → Prop) (Ex : exn → W → Prop) w :
  wp (run_phase te p c) (λ c' w', P w' ∧ leads kinds next c') (λ _, P) w →
  (∀ r w', P w' → coherent r → tr_outcome_kind r ∈ kinds → Q r w') →
  (∀ c' w', P w' → next c' → wp (run_phases te ps c') Q Ex w') →
  (∀ e w', P w' → Ex e w') →
  wp (run_phases te (p :: ps) c) Q Ex w.
Proof.
  intros Hp HQ HN HE. apply wp_run_phases. eapply wp_mono; [exact Hp| |]; [|by auto].
  intros c' w' [HP [(r & -> & Hr & Hk)|[-> Hn]]]; auto.
Qed.

(** The executor was entered exactly once, by an authorised turn, with the
    envelope of the turn's key; unless the reservation was degraded for an
    idempotent write, the key was free before.  Over an available store so was
    the historical key, which is taken now. *)
Definition entered_once w w' (x : exec_call) : Prop :=
  let c := xc_turn x in
  w_calls w' = w_calls w ++ [x] ∧ authorised c ∧
  cx_action c = Some (xc_action x) ∧ cx_envelope c = Some (xc_envelope x) ∧
  ((cx_dedupe_available c = true ∧ view w !! turn_key c = None) ∨
   (cx_dedupe_available c = false ∧ turn_effect_class c = Some IDEMPOTENT_WRITE ∧
    (DedupeStoreAvailable S → False))) ∧
  (DedupeStoreAvailable S →
   view w !! turn_legacy_key c = None ∧ is_Some (view w' !! turn_legacy_key c)).

(** How a turn that returns a result leaves the world. *)
Definition turn_post w (r : TurnResult) w' : Prop :=
  coherent r ∧ ds_ok (w_store w') ∧ ledger_le (view w) (view w') ∧
  match tr_outcome_kind r with
  | out_noop | out_blocked => w_calls w' = w_calls w ∧ view w' = view w
  | kind =>
      ∃ x, entered_once w w' x ∧ tr_dispatch_dedupe_key r = Some (turn_key (xc_turn x)) ∧
        (cx_dedupe_available (xc_turn x) = true →
         in_state (view w') (turn_key (xc_turn x))
           (if decide (kind = out_dispatched) then acknowledged else unknown_effect))
  end.

(** How a turn that raises leaves the world. *)
Definition turn_raise w (e : exn) w' : Prop :=
  ds_ok (w_store w') ∧ ledger_le (view w) (view w') ∧
  ((w_calls w' = w_calls w ∧ view w' = view w) ∨
   ∃ x, entered_once w w' x ∧
     (DedupeStoreAvailable S →
      ∃ e0, e = escaped e0 ∧
        in_state (view w') (turn_key (xc_turn x))
          (if is_Exception e0 then unknown_effect else dispatched))).

Lemma execute_phase_spec c w0 w :
  pre ph_execute c → claimed (view w0) (view w) c → ds_ok (w_store w) →
  w_calls w = w_calls w0 →
  wp (run_phases te [ph_execute] c) (turn_post w0) (turn_raise w0) w.
Proof.
  intros Hpre Hcl Hok Hcalls. destruct (Hpre) as (_ & _ & Hau).
  assert (cx_legacy_alias_key c ≠ Some (turn_key c)) as Hal.
  { intros Hal. by destruct (cl_alias _ _ _ Hcl _ Hal) as (_ & ? & _). }
  destruct (execute_enter_spec c w Hau) as (x & Hx & Hxc & Hxa & _ & Hxe).
  assert (∀ w', w_calls w' = w_calls w0 ++ [x] → ledger_le (view w) (view w') →
    entered_once w0 w' x) as Honce.
  { intros w' Hw' Hle. unfold entered_once. rewrite Hxc. split_and!; [done..| |].
    - destruct (cx_dedupe_available c) eqn:Hc.
      + left. split; [done|]. by apply (cl_fresh _ _ _ Hcl).
      + right. destruct (cl_degraded _ _ _ Hcl Hc) as (_ & He & _).
        split_and!; [done|done|]. intros Ha. destruct (cl_legacy _ _ _ Hcl Ha). congruence.
    - intros Ha. destruct (cl_legacy _ _ _ Hcl Ha) as (_ & Hf & r & Hr). split; [done|].
      destruct (Hle _ _ Hr) as (r' & ? & _). by exists r'. }
  apply wp_run_phases. simpl. apply wp_bind. unfold wp at 1. rewrite Hx.
  apply wp_bind. unfold wp at 1, reify.
  destruct (_execute_with_context te x _) as [o w1] eqn:Hw1.
  assert (w_store w1 = w_store w ∧ w_calls w1 = w_calls w0 ++ [x]) as [Hs1 Hc1].
  { revert Hw1. unfold _execute_with_context, on_env, zoom. simpl.
    destruct (te_execute te _ _ _ _ _) as [o' e']. intros [= <- <-]. simpl. by rewrite Hcalls. }
  assert (view w1 = view w) as Hv1 by (unfold view; by rewrite Hs1).
  eapply wp_mono; [apply execute_exit_spec; [done|by rewrite Hs1|done]| |].
  - intros c' w' (Hok' & [Hca _] & Hle & (r & Hr & Hco & Hkind & Hkey & Hoko) & Hst).
    rewrite Hr. rewrite Hv1 in *. split_and!; [done|done|by etrans; [apply Hcl|]|].
    assert (entered_once w0 w' x) as Ho by (apply Honce; [congruence|done]).
    unfold exit_kind in Hkind. rewrite Hkind.
    assert (cx_dedupe_available c = true → in_state (view w') (turn_key c) (exit_state o)) as Hst'.
    { intros Hc. apply Hst; [done|]. by apply (cl_fresh _ _ _ Hcl). }
    destruct o as [rr|?]; [|done].
    simpl in *. destruct (py_truthy _); exists x; rewrite Hxc; by split_and!.
  - intros e w' (Hok' & [Hca _] & Hle & Hav). rewrite Hv1 in *.
    split_and!; [done|by etrans; [apply Hcl|]|]. right. exists x.
    split; [apply Honce; [congruence|done]|]. intros Ha.
    destruct (cl_legacy _ _ _ Hcl Ha) as (Hc & _).
    destruct (Hav Ha Hc) as [-> Hin]; [by apply (cl_fresh _ _ _ Hcl)|].
    exists e. split; [done|]. by rewrite Hxc.
Qed.

(** A world not yet touched by the turn meets both postconditions. *)
Lemma turn_post_quiet w r w' :
  ds_ok (w_store w) → untouched w w' → coherent r → tr_outcome_kind r ∈ [out_noop; out_blocked] →
  turn_post w r w'.
Proof.
  intros Hok [Hs Hc] Hr Hk. unfold turn_post, view. rewrite Hs. split_and!; [done..|].
  by set_unfold in Hk; destruct Hk as [->| [->|[]]].
Qed.

Lemma turn_raise_quiet w e w' : ds_ok (w_store w) → untouched w w' → turn_raise w e w'.
Proof.
  intros Hok [Hs Hc]. unfold turn_raise, view. rewrite Hs. split_and!; [done..|]. by left.
Qed.

Lemma wp_quiet_phase p ps kinds next c w0 w :
  ds_ok (w_store w0) → untouched w0 w →
  wp (run_phase te p c) (λ c' w', untouched w w' ∧ leads kinds next c') (λ _, untouched w) w →
  kinds ⊆ [out_noop; out_blocked] →
  (∀ c' w', untouched w0 w' → next c' →
     wp (run_phases te ps c') (turn_post w0) (turn_raise w0) w') →
  wp (run_phases te (p :: ps) c) (turn_post w0) (turn_raise w0) w.
Proof.
  intros Hok Hu Hp Hk HN. eapply wp_phase_leads; [exact Hp| | |].
  - intros r w' Hu' Hr Hin. apply turn_post_quiet; [done|by etrans|done|by apply Hk].
  - intros c' w' Hu'. apply HN. by etrans.
  - intros e w' Hu'. apply turn_raise_quiet; [done|by etrans].
Qed.

Lemma run_turn_spec i a w :
  ds_ok (w_store w) → wp (run_turn te i a) (turn_post w) (turn_raise w) w.
Proof.
  intros Hok. unfold run_turn, turn_phases.
  eapply wp_quiet_phase; [done|done|by apply noop_spec, pre_initial|set_solver|].
  intros c1 w1 Hu1 H1. eapply wp_quiet_phase; [done|done|by apply snapshot_spec|set_solver|].
  intros c2 w2 Hu2 H2. eapply wp_quiet_phase; [done|done|by apply admission_spec|set_solver|].
  intros c3 w3 Hu3 H3.
  eapply wp_quiet_phase; [done|done|by apply dispatch_policy_spec|set_solver|].
  intros c4 w4 [Hs4 Hc4] H4. apply wp_run_phases. simpl.
  assert (view w4 = view w) as Hv4 by (unfold view; by rewrite Hs4).
  eapply wp_mono; [apply dedupe_spec; [done|by rewrite Hs4]| |].
  - intros c5 w5 (Hok5 & [Hc5 _] & [(r & Hr & Hco & Hk)|[Hr [Hpre Hcl]]] & Hv5); rewrite Hr.
    + rewrite Hv4 in *. split_and!; [done|done| |].
      * by rewrite Hv5 by (rewrite Hr; by eexists).
      * set_unfold in Hk. destruct Hk as [->|[]]. split; [congruence|].
        apply Hv5. rewrite Hr. by eexists.
    + apply execute_phase_spec; [done| by rewrite <- Hv4 |done|congruence].
  - intros e w5 (Hok5 & [Hc5 _] & Hv5). rewrite Hv4 in *.
    split_and!; [done|by rewrite Hv5|]. left. split; [congruence|done].
Qed.
End contracts.

(** C3: one turn over a lawful dedupe store, whatever its collaborators do.
    A returned result is coherent (its kind, trace and payloads go with its
    state).  A noop or blocked turn never entered the executor and left the
    ledger as it was; a dispatched or recovery_pending turn entered it exactly
    once, with everything established first (snapshot, admission granted,
    policy not blocking, envelope of the turn's key), and left the key
    acknowledged, respectively unknown_effect.  A turn that raises either
    entered the executor not at all and left the ledger as it was, or exactly
    once, and then, on an available store, left the key unknown_effect for an
    ordinary exception of the executor and dispatched for a cancellation. *)
Theorem run_turn_outcome {S E} `{DedupeStoreLaws S} (te : TurnEngine E) i a (w : world S E) :
  ds_ok (w_store w) →
  match run_turn te i a w with
  | (Ok r, w') => turn_post w r w'
  | (Raise e, w') => turn_raise te w e w'
  end.
Proof. intros Hok. exact (run_turn_spec te i a w Hok). Qed.

(** ** A concrete engine

    It builds snapshots with the real builder, admits everything and has an
    executor that acknowledges. *)
Definition example_engine : TurnEngine unit := {|
  te_now := λ _, "2026-01-01T00:00:00Z";
  te_build := λ i, lift (build "2026-01-01T00:00:00Z" i);
  te_admit := λ _ _, mret (AdmBool true);
  te_execute := λ _ _ _ _, mret [("acknowledged", PBool true)];
  te_executor_takes_context := true;
  te_snapshot_input_resolver := None;
  te_require_declared_snapshot_inputs := false;
  te_reasoning_loop := None;
  te_phase_timeout := true;
  te_defaults := None |}.

Definition example_turn_input : TurnInput :=
  {| ti_run_id := "run-1"; ti_through_offset := 4; ti_based_on_offset := 3;
     ti_trigger_type := trig_start; ti_history := [] |}.

Definition example_action : Action := {|
  act_action_id := "a1"; act_run_id := "run-1"; act_action_type := "tool_call";
  act_effect_class := IRREVERSIBLE_WRITE; act_external_idempotency_level := None;
  act_interaction_target := None; act_input_ref := None; act_input_json := None;
  act_policy_tags := []; act_timeout_ms := None; act_side_effect_class := None |}.

Definition example_world : world InMemoryDedupeStore.t unit :=
  World InMemoryDedupeStore.__init__ () [].

Lemma run_turn_outcome_witness :
  ∃ r w', run_turn example_engine example_turn_input (Some example_action) example_world = (Ok r, w')
    ∧ turn_post example_world r w' ∧ tr_outcome_kind r = out_dispatched.
Proof.
  pose proof (run_turn_outcome example_engine example_turn_input (Some example_action)
                example_world I) as Hpost.
  destruct (run_turn _ _ _ _) as [o w'] eqn:Hrun.
  assert (match o with Ok r => tr_outcome_kind r = out_dispatched | Raise _ => False end) as Hk.
  { change o with (o, w').1. rewrite <- Hrun. vm_compute. reflexivity. }
  destruct o as [r|e]; [|destruct Hk].
  exists r, w'. split; [reflexivity|]. split; [exact Hpost|exact Hk].
Defined.
