(* ===== verification/TurnLinks.v ===== *)
(** * What a turn's result and executor call rest on ([kernel/turn_engine.py])

    For a turn that is given its action: the snapshot, admission and policy
    behind an executor call, and the fingerprint in a result, from the inputs
    of the turn.  For any dedupe store, lawful or not. *)
From S2P Require Export TurnSafety.

(** ** The executor call *)
Section link.
Context {S E : Type} `{DedupeStorePort S} (te : TurnEngine E) (i : TurnInput) (a : Action).
Abbreviation W := (world S E).
Implicit Types w : W.

Definition requested (c : TurnPhaseContext) : Prop :=
  cx_input_value c = i ∧ cx_action c = Some a.

(** The snapshot is what the builder made of the resolved input. *)
Definition snapshot_linked (c : TurnPhaseContext) : Prop :=
  requested c ∧ ∃ input s e e',
    _resolve_snapshot_input i a (te_snapshot_input_resolver te)
      (te_require_declared_snapshot_inputs te) = Ok input ∧
    te_build te input e = (Ok s, e') ∧ cx_snapshot c = Some s.

(** The admission service was asked about it and said yes. *)
Definition admission_linked (c : TurnPhaseContext) : Prop :=
  snapshot_linked c ∧ ∃ s v e e', cx_snapshot c = Some s ∧ te_admit te a s e = (Ok v, e') ∧
    _is_admitted v = Ok true.

Definition policy_linked (c : TurnPhaseContext) : Prop :=
  admission_linked c ∧ dp_should_block (_resolve_dispatch_policy a) = false.

(** The calls since [w]: none, or one that [c] makes for the action. *)
Definition calls_linked (w w' : W) : Prop :=
  w_calls w' = w_calls w ∨
  ∃ x, w_calls w' = w_calls w ++ [x] ∧ policy_linked (xc_turn x) ∧ xc_action x = a ∧
    cx_snapshot (xc_turn x) = Some (xc_snapshot x).

Definition silent w w' : Prop := w_calls w' = w_calls w.

(** A phase that calls nothing and leaves [next], or ends the turn. *)
Definition leaves (next : TurnPhaseContext → Prop) w (c' : TurnPhaseContext) w' : Prop :=
  silent w w' ∧ (cx_result c' = None → next c').

Lemma leaves_finish next w evs mk c w' : silent w w' → leaves next w (finish evs mk c) w'.
Proof. by split. Qed.

Lemma wp_env_silent {A} (m : M E A) w w0 (Q : A → W → Prop) (Ex : exn → W → Prop) :
  silent w0 w →
  (∀ r e e' w', silent w0 w' → m e = (Ok r, e') → Q r w') →
  (∀ e w', silent w0 w' → Ex e w') →
  wp (on_env m) Q Ex w.
Proof.
  intros Hw HQ HE. apply wp_zoom. unfold wp. destruct (m (w_env w)) as [[r|e] e'] eqn:Hm.
  - by eapply HQ.
  - by apply HE.
Qed.

Lemma wp_store_silent {A} (m : M S A) w w0 (Q : A → W → Prop) (Ex : exn → W → Prop) :
  silent w0 w → (∀ r w', silent w0 w' → Q r w') → (∀ e w', silent w0 w' → Ex e w') →
  wp (on_store m) Q Ex w.
Proof.
  intros Hw HQ HE. apply wp_zoom. unfold wp. destruct (m (w_store w)) as [[r|e] s']; [by apply HQ|by apply HE].
Qed.

Lemma wp_assert_of {T A} (o : option A) (Q : A → T → Prop) (Ex : exn → T → Prop) t :
  (∀ x, o = Some x → Q x t) → (∀ e, Ex e t) → wp (assert_some o) Q Ex t.
Proof. intros HQ HE. destruct o; [by apply HQ|apply HE]. Qed.

Lemma snapshot_phase c w :
  requested c → wp (_phase_snapshot te c) (leaves snapshot_linked w) (λ _, silent w) w.
Proof.
  intros [Hi Ha]. unfold _phase_snapshot. apply wp_bind, wp_assert_of; [|done].
  rewrite Ha. intros ? [= <-]. rewrite Hi.
  apply wp_try_except, wp_bind, wp_lift.
  2: { intros e _. case_match; [|done]. by apply leaves_finish. }
  intros input Hinput. apply wp_bind, (wp_env_silent _ w w); [done| |].
  2: { intros e w' Hw'. case_match; [|done]. by apply leaves_finish. }
  intros s e e' w' Hw' Hb. apply wp_bind, wp_lift.
  2: { intros x _. case_match; [|done]. by apply leaves_finish. }
  intros _ _. split; [done|]. intros _. split; [by split|]. eauto 10.
Qed.

Lemma admission_phase c w :
  snapshot_linked c → wp (_phase_admission te c) (leaves admission_linked w) (λ _, silent w) w.
Proof.
  intros Hc. pose proof Hc as [[_ Ha] _]. unfold _phase_admission. apply wp_bind, wp_assert_of; [|done].
  rewrite Ha. intros ? [= <-]. apply wp_bind, wp_assert_of; [|done]. intros s Hs.
  apply wp_bind, wp_assert_of; [|done]. intros ti Hti.
  apply wp_bind, (wp_env_silent _ w w); [done| |by auto]. intros v e e' w' Hw' Hv.
  apply wp_bind, wp_lift; [|by auto]. intros adm Hadm. destruct adm; simpl; [|by apply leaves_finish].
  split; [done|]. intros _. split; [exact Hc|]. exists s, v, e, e'. done.
Qed.

Lemma policy_phase c w :
  admission_linked c →
  wp (_phase_dispatch_policy c) (leaves policy_linked w) (λ _, silent w) w.
Proof.
  intros Hc. pose proof Hc as [[[_ Ha] _] _]. unfold _phase_dispatch_policy.
  apply wp_bind, wp_assert_of; [|done]. rewrite Ha. intros ? [= <-].
  apply wp_bind, wp_assert_of; [|done]. intros ti _.
  destruct (dp_should_block (_resolve_dispatch_policy a)) eqn:Hb; [by apply leaves_finish|].
  split; [done|]. intros _. by split.
Qed.

Lemma dedupe_phase c w :
  policy_linked c → wp (_phase_dedupe c) (leaves policy_linked w) (λ _, silent w) w.
Proof.
  intros Hc. unfold _phase_dedupe.
  apply wp_bind, wp_assert_of; [intros action _|done]. apply wp_bind, wp_assert_of; [intros s _|done].
  apply wp_bind, wp_assert_of; [intros ti _|done]. apply wp_bind, wp_assert_of; [intros dp _|done].
  cbv zeta.
  assert (∀ A (m : M (world S E) A) d w1 (Q : A → W → Prop), silent w w1 →
    (∀ w1, silent w w1 → wp m (λ _, silent w) (λ _, silent w) w1) →
    (∀ o w2, silent w w2 → Q o w2) →
    wp (suppress_or d m) Q (λ _, silent w) w1) as Hsup.
  { intros A m d w1 Q H1 Hm HQ. apply wp_try_except. eapply wp_mono; [by apply Hm|by auto|].
    intros e w2 H2. simpl in H2. destruct (is_Exception e); [by apply wp_ret, HQ|done]. }
  apply wp_bind. eapply (wp_mono _ (λ _, silent w) _ (λ _, silent w)); [|intros found w1 Hw1|done].
  { case_decide; [|by apply wp_ret]. apply Hsup; [done| |done].
    intros w1 H1. by apply (wp_store_silent _ w1 w). }
  destruct found as [r|]; [by apply leaves_finish|].
  apply wp_bind. unfold _reserve_with_degradation. apply wp_try_except.
  set (env0 := _resolve_idempotency_envelope _ _ _ _ _).
  assert (∀ env ok evs (reservation : DedupeReservation) w2, silent w w2 →
    wp (if negb (accepted reservation)
        then mret (finish [event dispatch_blocked] (plain_result dispatch_blocked out_blocked ti (Some dp) None)
                     (set_dedupe env evs ok c))
        else alias ← (if decide (ok = true ∧ dedupe_key_of c action ≠ id_dispatch_dedupe_key ti)
                      then mirror_legacy_slot env (dedupe_key_of c action) else mret None);
             mret (emit [event ts_dispatched] (set_dispatch (if ok : bool then "accepted" else "degraded")
                                                 alias (set_dedupe env evs ok c))))
      (leaves policy_linked w) (λ _, silent w) w2) as Hgo.
  { intros env ok evs reservation w2 H2. destruct (accepted reservation); [|by apply leaves_finish].
    simpl. apply wp_bind. eapply (wp_mono _ (λ _, silent w) _ (λ _, silent w)); [|intros alias w3 H3|done].
    - case_decide; [|by apply wp_ret]. apply Hsup; [done| |done]. intros w3 H3.
      apply wp_bind. apply (wp_store_silent _ w3 w); [done| |done]. intros r' w4 H4. by apply wp_ret.
    - split; [done|]. intros _. exact Hc. }
  apply wp_bind, (wp_store_silent _ w1 w); [done| |].
  - intros reservation w2 H2. apply wp_ret. exact (Hgo _ true _ reservation w2 H2).
  - intros e w2 H2. destruct (is_Exception e); [|done].
    destruct (decide (act_effect_class action ≠ IDEMPOTENT_WRITE)); [by apply wp_raise|].
    apply wp_ret. exact (Hgo _ false _ accepted_reservation w2 H2).
Qed.

Lemma execute_phase c w :
  policy_linked c →
  wp (_phase_execute te c) (λ _, calls_linked w) (λ _, calls_linked w) w.
Proof.
  intros Hc. pose proof Hc as [[[[_ Ha] _] _] _].
  assert (∀ w', silent w w' → calls_linked w w') as Hnone by (by left).
  unfold _phase_execute, execute_enter. apply wp_bind.
  apply wp_bind, wp_assert_of; [|intros; by apply Hnone]. rewrite Ha. intros ? [= <-].
  apply wp_bind, wp_assert_of; [intros s Hs|intros; by apply Hnone]. apply wp_bind, wp_assert_of; [intros ti _|intros; by apply Hnone].
  apply wp_bind, wp_assert_of; [intros dp _|intros; by apply Hnone]. apply wp_bind, wp_assert_of; [intros env _|intros; by apply Hnone].
  cbv zeta. set (x := call_of _ _ _ _ _ _). apply wp_bind, wp_modify, wp_ret.
  set (w1 := World _ _ _).
  assert (∀ w', silent w1 w' → calls_linked w w') as Hone.
  { intros w' Hw'. right. exists x. split; [exact Hw'|]. by split. }
  apply wp_bind, wp_reify.
  assert (∀ A (m : M S A) (Q : A → W → Prop) Ex w2, silent w1 w2 → (∀ r w3, silent w1 w3 → Q r w3) →
    (∀ e w3, silent w1 w3 → Ex e w3) → wp (on_store m) Q Ex w2) as Hst.
  { intros A m Q Ex w2 H2 HQ HE. by apply (wp_store_silent _ w2 w1). }
  assert (∀ (m : M S unit) (Q : unit → W → Prop) Ex w2, silent w1 w2 → (∀ r w3, silent w1 w3 → Q r w3) →
    (∀ e w3, silent w1 w3 → Ex e w3) → wp (suppress (on_store m)) Q Ex w2) as Hsup.
  { intros m Q Ex w2 H2 HQ HE. apply wp_try_except, Hst; [done|done|].
    intros e w3 H3. case_match; [by apply wp_ret, HQ|by apply HE]. }
  assert (∀ mark alias (Q : unit → W → Prop) Ex w2, silent w1 w2 → (∀ r w3, silent w1 w3 → Q r w3) →
    (∀ e w3, silent w1 w3 → Ex e w3) → wp (mark_alias mark alias) Q Ex w2) as Halias.
  { intros mark alias Q Ex w2 H2 HQ HE. destruct alias; [by apply Hsup|by apply wp_ret, HQ]. }
  assert (∀ o w2, silent w1 w2 →
    wp (execute_exit te c o) (λ _, calls_linked w) (λ _, calls_linked w) w2) as Hexit.
  { intros o w2 H2. unfold execute_exit. do 5 (apply wp_bind, wp_assert_of; [intros ? _|intros; by apply Hone]).
    destruct o as [result|e].
    - destruct (py_truthy _).
      + apply wp_bind. eapply (wp_mono _ (λ _, silent w1) _ (λ _, silent w1)); [| |intros; by apply Hone].
        * destruct (cx_dedupe_available c); [|by apply wp_ret].
          apply wp_bind, Hst; [done| |done]. intros _ w3 H3. by apply Halias.
        * intros _ w3 H3. apply wp_bind, wp_gets, wp_ret. by apply Hone.
      + apply wp_bind. eapply (wp_mono _ (λ _, silent w1) _ (λ _, silent w1)); [| |intros; by apply Hone].
        * destruct (cx_dedupe_available c); [|by apply wp_ret].
          apply wp_bind, Hst; [done| |done]. intros _ w3 H3. by apply Halias.
        * intros _ w3 H3. by apply wp_ret, Hone.
    - apply wp_bind. eapply (wp_mono _ (λ _, silent w1) _ (λ _, silent w1)); [| |intros; by apply Hone].
      + destruct (is_Exception e && _); [|by apply wp_ret].
        apply wp_bind, Hsup; [done| |done]. intros _ w3 H3. by apply Halias.
      + intros _ w3 H3. by apply wp_raise, Hone. }
  apply (wp_env_silent _ w1 w1); [done| |]; intros; by apply Hexit.
Qed.

Lemma turn_linked w : wp (run_turn te i (Some a)) (λ _, calls_linked w) (λ _, calls_linked w) w.
Proof.
  assert (∀ p ps next c (w1 : W), silent w w1 →
    wp (run_phase te p c) (leaves next w1) (λ _, silent w1) w1 →
    (∀ c' w2, silent w w2 → next c' →
       wp (run_phases te ps c') (λ _, calls_linked w) (λ _, calls_linked w) w2) →
    wp (run_phases te (p :: ps) c) (λ _, calls_linked w) (λ _, calls_linked w) w1) as Hphase.
  { intros p ps next c w1 H1 Hp Hn. apply wp_run_phases. unfold silent in *. eapply wp_mono; [exact Hp| |].
    - intros c' w2 [H2 Hc']. destruct (cx_result c') eqn:Hr; [left; congruence|].
      apply Hn; [congruence|by apply Hc'].
    - intros e w2 H2. left. simpl in H2. congruence. }
  unfold run_turn, turn_phases. eapply (Hphase _ _ requested); [done|by split|].
  intros c1 w1 H1 Hc1. eapply Hphase; [done|by apply snapshot_phase|].
  intros c2 w2 H2 Hc2. eapply Hphase; [done|by apply admission_phase|].
  intros c3 w3 H3 Hc3. eapply Hphase; [done|by apply policy_phase|].
  intros c4 w4 H4 Hc4. eapply Hphase; [done|by apply dedupe_phase|].
  intros c5 w5 H5 Hc5. apply wp_run_phases.
  assert (∀ w', calls_linked w5 w' → calls_linked w w') as Hl.
  { intros w' [Hs|(x & Hx)]; [left|right; exists x]; unfold silent in *; congruence. }
  eapply wp_mono; [by apply execute_phase| |].
  - intros c' w' Hw'. destruct (cx_result c'); [by apply Hl|]. simpl. by apply wp_raise, Hl.
  - intros e w' Hw'. by apply Hl.
Qed.
End link.

(** ** The fingerprint *)
Section fingerprint.
Context {S E : Type} `{DedupeStorePort S} (te : TurnEngine E) (i : TurnInput) (a : Action).
Abbreviation W := (world S E).
Implicit Types w : W.

(** What does not depend on the snapshot of an identity. *)
Definition turn_fingerprint : string := id_decision_fingerprint (_build_turn_identity i a None).

Definition fingerprinted (r : TurnResult) : Prop :=
  tr_outcome_kind r = out_noop ∨ tr_decision_fingerprint r = turn_fingerprint.

Record fp_inv (c : TurnPhaseContext) : Prop := {
  fp_requested : requested i a c;
  fp_identity ti : cx_turn_identity c = Some ti → id_decision_fingerprint ti = turn_fingerprint;
  fp_result r : cx_result c = Some r → fingerprinted r
}.

Lemma fp_finish evs mk c :
  fp_inv c → fingerprinted (mk (cx_emitted_events c ++ evs)) → fp_inv (finish evs mk c).
Proof. intros [Hq Hid Hr] Hmk. split; [done|done|]. by intros r [= <-]. Qed.

Lemma fp_plain c st kind ti dp commit evs :
  fp_inv c → cx_turn_identity c = Some ti → fingerprinted (plain_result st kind ti dp commit evs).
Proof. intros Hc Hti. right. by apply (fp_identity c Hc). Qed.

(** Any computation, then one that keeps the invariant. *)
Lemma fp_bind {A} (m : M W A) (f : A → M W TurnPhaseContext) w :
  (∀ x w', wp (f x) (λ c' _, fp_inv c') (λ _ _, True) w') →
  wp (m ≫= f) (λ c' _, fp_inv c') (λ _ _, True) w.
Proof. intros Hf. apply wp_bind. unfold wp at 1. destruct (m w) as [[x|e] w']; [apply Hf|done]. Qed.

Lemma fp_assert {A} (o : option A) (f : A → M W TurnPhaseContext) w :
  (∀ x, o = Some x → wp (f x) (λ c' _, fp_inv c') (λ _ _, True) w) →
  wp (assert_some o ≫= f) (λ c' _, fp_inv c') (λ _ _, True) w.
Proof. intros Hf. apply wp_bind, wp_assert_of; [|done]. intros x Hx. by apply Hf. Qed.

Lemma fp_phase p c w :
  fp_inv c → cx_result c = None → wp (run_phase te p c) (λ c' _, fp_inv c') (λ _ _, True) w.
Proof.
  intros Hc Hr. pose proof (fp_requested c Hc) as [Hi Ha]. destruct p; simpl.
  - unfold _phase_noop_or_reasoning. by rewrite Ha.
  - unfold _phase_snapshot. apply fp_assert. rewrite Ha, Hi. intros ? [= <-].
    assert (∀ s ti, id_decision_fingerprint ti = turn_fingerprint → fp_inv (set_snapshot ti s c)) as Hset.
    { intros s ti Hti. split; simpl; [done| |by rewrite Hr]. by intros ? [= <-]. }
    apply wp_try_except. eapply (wp_mono _ (λ c' _, fp_inv c') _ (λ _ _, True)); [|done|].
    + do 2 (apply fp_bind; intros ??). apply fp_bind. intros _ w3.
      by destruct (Hset (Some x0) (_build_turn_identity i a (Some (cs_snapshot_hash x0))) eq_refl).
    + intros e w' _. case_match; [|done]. apply fp_finish; [by apply Hset|by left].
  - unfold _phase_admission. apply fp_assert. intros action _. apply fp_assert. intros s _.
    apply fp_assert. intros ti Hti. do 2 (apply fp_bind; intros ??).
    assert (fp_inv (emit [event admission_checked] (set_admission x c))) as Hc' by by destruct Hc.
    case_match; [|done]. apply fp_finish; [done|by eapply fp_plain].
  - unfold _phase_dispatch_policy. apply fp_assert. intros action _. apply fp_assert. intros ti Hti.
    assert (fp_inv (set_policy (_resolve_dispatch_policy action) c)) as Hc' by by destruct Hc.
    case_match; [|done]. apply fp_finish; [done|by eapply fp_plain].
  - unfold _phase_dedupe. do 2 (apply fp_assert; intros ? _). apply fp_assert. intros ti Hti.
    apply fp_assert. intros dp _. cbv zeta. apply fp_bind. intros found w1.
    destruct found; [apply fp_finish; [done|by eapply fp_plain]|].
    apply fp_bind. intros [[[reservation env] ok] evs] w2.
    assert (fp_inv (set_dedupe env evs ok c)) as Hc' by by destruct Hc.
    case_match; [apply fp_finish; [done|by eapply fp_plain]|].
    apply fp_bind. intros alias w3. by destruct Hc'.
  - unfold _phase_execute. do 2 (apply fp_bind; intros ??). unfold execute_exit.
    do 2 (apply fp_assert; intros ? _). apply fp_assert. intros ti Hti.
    do 2 (apply fp_assert; intros ? _). destruct x0 as [result|e]; [|by apply fp_bind].
    assert (fp_inv (set_execute_result result c)) as Hc' by by destruct Hc.
    case_match; repeat (apply fp_bind; intros ??); (apply fp_finish; [done|]); right;
      by apply (fp_identity c Hc).
Qed.

Lemma run_turn_fingerprint w :
  wp (run_turn te i (Some a)) (λ r _, fingerprinted r) (λ _ _, True) w.
Proof.
  unfold run_turn.
  assert (fp_inv (initial_context i (Some a)) ∧ cx_result (initial_context i (Some a)) = None) as Hc
    by done.
  revert Hc. generalize (initial_context i (Some a)). revert w.
  induction turn_phases as [|p ps IH]; intros w c [Hc Hr]; [done|].
  apply wp_run_phases. eapply wp_mono; [by apply fp_phase| |done].
  intros c' w' Hc'. destruct (cx_result c') eqn:Hr'; [by apply (fp_result c')|by apply IH].
Qed.
End fingerprint.
