(* ===== verification/CapabilityResolver.v ===== *)
(** * Snapshot inputs from action payloads ([kernel/capability_snapshot_resolver.py])

    The declared capabilities of an action, in their structured or their flat
    form, as the input of the snapshot builder. *)
From S2P Require Export TurnEngine.

Module ActionPayloadCapabilitySnapshotInputResolver.
Record t := Resolver {
  default_tenant_policy_ref : string;
  default_permission_mode : string;
  require_declared_snapshot_input : bool;
  require_declarative_bundle_digest : bool
}.

(** The defaults of the class, with both requirements at [strict]. *)
Definition new_resolver (strict : bool) : t := Resolver "policy:default" "strict" strict strict.

Definition _as_dict (value : pyval) : pydict :=
  match value with PDict d => d | _ => [] end.

Definition nonempty_str (value : pyval) : option string :=
  match value with PStr s => if decide (s = "") then None else Some s | _ => None end.

Definition _as_str_list (value : pyval) : list string :=
  match value with PList l => omap nonempty_str l | _ => [] end.

Fixpoint _first_non_empty_optional_string (values : list pyval) : option string :=
  match values with
  | [] => None
  | value :: values' =>
      match nonempty_str value with
      | Some s => Some s
      | None => _first_non_empty_optional_string values'
      end
  end.

Definition _first_non_empty_string (values : list pyval) : string :=
  default "" (_first_non_empty_optional_string values).

Definition resolver_error (msg : string) : exn := Exn CapabilitySnapshotBuildError msg.

(** The names of the fields that have no value. *)
Definition missing_fields (digest_fields : list (string * option string)) : list string :=
  omap (λ f, match snd f with None => Some (fst f) | Some _ => None end) digest_fields.

Definition _resolve_declarative_bundle_digest (payload : pydict)
    : outcome (option DeclarativeBundleDigest) :=
  match py_get "declarative_bundle_digest" payload with
  | PNone | PDict _ =>
      let digest_payload := _as_dict (py_get "declarative_bundle_digest" payload) in
      let field k flat := _first_non_empty_optional_string [py_get k digest_payload; py_get flat payload] in
      let bundle_ref := field "bundle_ref" "declarative_bundle_ref" in
      let semantics_version := field "semantics_version" "declarative_bundle_semantics_version" in
      let content_hash := field "content_hash" "declarative_bundle_content_hash" in
      let compile_hash := field "compile_hash" "declarative_bundle_compile_hash" in
      let digest_fields :=
        [("bundle_ref", bundle_ref); ("semantics_version", semantics_version);
         ("content_hash", content_hash); ("compile_hash", compile_hash)] in
      if forallb (λ f, bool_decide (snd f = None)) digest_fields then Ok None
      else
        match missing_fields digest_fields with
        | [] => Ok (Some {| bundle_ref := default "" bundle_ref;
                            semantics_version := default "" semantics_version;
                            content_hash := default "" content_hash;
                            compile_hash := default "" compile_hash |})
        | missing =>
            Raise (resolver_error ("declarative_bundle_digest is missing required fields: "
                     +:+ String.concat ", " missing +:+ "."))
        end
  | _ => Raise (resolver_error "declarative_bundle_digest must be an object when provided.")
  end.

Definition is_dict (value : pyval) : bool := match value with PDict _ => true | _ => false end.

Definition resolve (r : t) (input_value : TurnInput) (action : Action)
    : outcome CapabilitySnapshotInput :=
  let input_json := default [] (act_input_json action) in
  let raw_payload := py_get "capability_snapshot_input" input_json in
  if require_declared_snapshot_input r && negb (is_dict raw_payload)
  then Raise (resolver_error "capability_snapshot_input is required in strict mode.")
  else
    let payload := _as_dict raw_payload in
    let part k := _as_dict (py_get k payload) in
    let bound k := _as_str_list (py_get_or k (part "capability_bindings") (py_get_or k payload (PList []))) in
    let field k name := _first_non_empty_optional_string [py_get name (part k); py_get name payload] in
    let tenant_policy_ref :=
      _first_non_empty_string [py_get "tenant_policy_ref" (part "policy");
        py_get "tenant_policy_ref" payload; PStr (default_tenant_policy_ref r)] in
    let permission_mode :=
      _first_non_empty_string [py_get "permission_mode" (part "policy");
        py_get "permission_mode" payload; PStr (default_permission_mode r)] in
    declarative_bundle_digest ← _resolve_declarative_bundle_digest payload;
    if require_declarative_bundle_digest r && bool_decide (declarative_bundle_digest = None)
    then Raise (resolver_error "declarative_bundle_digest is required in strict mode.")
    else Ok {| si_run_id := ti_run_id input_value;
               si_based_on_offset := ti_based_on_offset input_value;
               si_tenant_policy_ref := tenant_policy_ref;
               si_permission_mode := permission_mode;
               si_tool_bindings := bound "tool_bindings";
               si_mcp_bindings := bound "mcp_bindings";
               si_skill_bindings := bound "skill_bindings";
               si_feature_flags := _as_str_list (py_get_or "feature_flags" payload (PList []));
               si_context_binding_ref := field "context" "context_binding_ref";
               si_context_content_hash := field "context" "context_content_hash";
               si_budget_ref := field "budget" "budget_ref";
               si_quota_ref := field "budget" "quota_ref";
               si_session_mode := field "session" "session_mode";
               si_approval_state := field "approval" "approval_state";
               si_declarative_bundle_digest := declarative_bundle_digest;
               si_peer_run_bindings := [] |}.
End ActionPayloadCapabilitySnapshotInputResolver.

Import ActionPayloadCapabilitySnapshotInputResolver.

(** ** Declarations

    What an action may declare; [structured] and [flat] are the two forms of a
    payload that declares it. *)
Record declaration := {
  dc_tenant_policy_ref : option string;
  dc_permission_mode : option string;
  dc_tool_bindings : option (list string);
  dc_mcp_bindings : option (list string);
  dc_skill_bindings : option (list string);
  dc_context_binding_ref : option string;
  dc_context_content_hash : option string;
  dc_budget_ref : option string;
  dc_quota_ref : option string;
  dc_session_mode : option string;
  dc_approval_state : option string;
  dc_bundle : option DeclarativeBundleDigest
}.

Definition nothing_declared : declaration :=
  {| dc_tenant_policy_ref := None; dc_permission_mode := None; dc_tool_bindings := None;
     dc_mcp_bindings := None; dc_skill_bindings := None; dc_context_binding_ref := None;
     dc_context_content_hash := None; dc_budget_ref := None; dc_quota_ref := None;
     dc_session_mode := None; dc_approval_state := None; dc_bundle := None |}.

Definition dict_of (l : list (string * option pyval)) : pydict :=
  omap (λ '(k, o), pair k <$> o) l.
Definition text (k : string) (o : option string) : string * option pyval := (k, PStr <$> o).
Definition texts (k : string) (o : option (list string)) : string * option pyval :=
  (k, str_list <$> o).

Definition structured (s : declaration) : list (string * option pyval) :=
  let part k l := (k, Some (PDict (dict_of l))) in
  [ part "policy" [text "tenant_policy_ref" (dc_tenant_policy_ref s);
                   text "permission_mode" (dc_permission_mode s)];
    part "approval" [text "approval_state" (dc_approval_state s)];
    part "budget" [text "budget_ref" (dc_budget_ref s); text "quota_ref" (dc_quota_ref s)];
    part "capability_bindings" [texts "tool_bindings" (dc_tool_bindings s);
      texts "mcp_bindings" (dc_mcp_bindings s); texts "skill_bindings" (dc_skill_bindings s)];
    part "session" [text "session_mode" (dc_session_mode s)];
    part "context" [text "context_binding_ref" (dc_context_binding_ref s);
                    text "context_content_hash" (dc_context_content_hash s)];
    ("declarative_bundle_digest", _normalize_bundle_digest ∘ Some <$> dc_bundle s) ].

Definition flat (f : declaration) (flags : list string) : list (string * option pyval) :=
  [ text "tenant_policy_ref" (dc_tenant_policy_ref f);
    text "permission_mode" (dc_permission_mode f);
    texts "tool_bindings" (dc_tool_bindings f);
    texts "mcp_bindings" (dc_mcp_bindings f);
    texts "skill_bindings" (dc_skill_bindings f);
    text "context_binding_ref" (dc_context_binding_ref f);
    text "context_content_hash" (dc_context_content_hash f);
    text "budget_ref" (dc_budget_ref f);
    text "quota_ref" (dc_quota_ref f);
    text "session_mode" (dc_session_mode f);
    text "approval_state" (dc_approval_state f);
    texts "feature_flags" (Some flags);
    text "declarative_bundle_ref" (bundle_ref <$> dc_bundle f);
    text "declarative_bundle_semantics_version" (semantics_version <$> dc_bundle f);
    text "declarative_bundle_content_hash" (content_hash <$> dc_bundle f);
    text "declarative_bundle_compile_hash" (compile_hash <$> dc_bundle f) ].

Definition declared_payload (s f : declaration) (flags : list string) : pydict :=
  dict_of (structured s ++ flat f flags).

(** No declared string is empty. *)
Definition declared_strings (d : declaration) : list string :=
  omap id [dc_tenant_policy_ref d; dc_permission_mode d; dc_context_binding_ref d;
           dc_context_content_hash d; dc_budget_ref d; dc_quota_ref d; dc_session_mode d;
           dc_approval_state d] ++
  concat (omap id [dc_tool_bindings d; dc_mcp_bindings d; dc_skill_bindings d]) ++
  match dc_bundle d with
  | Some b => [bundle_ref b; semantics_version b; content_hash b; compile_hash b]
  | None => []
  end.
Definition declared_ok (d : declaration) : Prop := "" ∉ declared_strings d.

Definition prefer {A} (a b : option A) : option A := match a with Some x => Some x | None => b end.

(** What both together declare: the structured form goes first, field by field. *)
Definition declared_input (r : t) (i : TurnInput) (s f : declaration) (flags : list string)
    : CapabilitySnapshotInput :=
  let field (g : declaration → option string) := prefer (g s) (g f) in
  let names (g : declaration → option (list string)) := default [] (prefer (g s) (g f)) in
  {| si_run_id := ti_run_id i; si_based_on_offset := ti_based_on_offset i;
     si_tenant_policy_ref := default (default_tenant_policy_ref r) (field dc_tenant_policy_ref);
     si_permission_mode := default (default_permission_mode r) (field dc_permission_mode);
     si_tool_bindings := names dc_tool_bindings; si_mcp_bindings := names dc_mcp_bindings;
     si_skill_bindings := names dc_skill_bindings; si_feature_flags := flags;
     si_context_binding_ref := field dc_context_binding_ref;
     si_context_content_hash := field dc_context_content_hash;
     si_budget_ref := field dc_budget_ref; si_quota_ref := field dc_quota_ref;
     si_session_mode := field dc_session_mode; si_approval_state := field dc_approval_state;
     si_declarative_bundle_digest := prefer (dc_bundle s) (dc_bundle f);
     si_peer_run_bindings := [] |}.

(** *** Lookups in a payload *)
Fixpoint entry (k : string) (l : list (string * option pyval)) (v : pyval) : pyval :=
  match l with
  | [] => v
  | (k', o) :: l' => if String.eqb k k' then default (entry k l' v) o else entry k l' v
  end.

Lemma py_get_or_dict k l v : py_get_or k (dict_of l) v = entry k l v.
Proof.
  unfold py_get_or. induction l as [|[k' o] l IH]; [done|]. simpl.
  destruct (String.eqb_spec k k') as [->|Hk]; destruct o; simpl; rewrite ?decide_True, ?decide_False by done;
    exact IH || done.
Qed.

Lemma py_get_dict k l : py_get k (dict_of l) = entry k l PNone.
Proof.
  rewrite <- py_get_or_dict. unfold py_get_or. destruct (py_in k (dict_of l)) eqn:Hin; [done|].
  induction (dict_of l) as [|[k' v] d IH]; [done|]. simpl in *. case_decide; [done|]. by apply IH.
Qed.

Ltac reduce := cbn [entry structured flat app String.eqb Ascii.eqb Bool.eqb text texts default
  from_option id _as_dict fmap option_fmap option_map].

(** The first of two optional texts, then a fallback. *)
Lemma first_of_texts (a b : option string) rest :
  a ≠ Some "" → b ≠ Some "" →
  _first_non_empty_optional_string
    (default PNone (PStr <$> a) :: default PNone (PStr <$> b) :: rest) =
  match prefer a b with Some s => Some s | None => _first_non_empty_optional_string rest end.
Proof.
  intros Ha Hb. destruct a as [a|]; simpl; [by rewrite decide_False by congruence|].
  destruct b as [b|]; simpl; [by rewrite decide_False by congruence|done].
Qed.

Lemma as_str_list_of (a b : option (list string)) :
  (∀ l, a = Some l → "" ∉ l) → (∀ l, b = Some l → "" ∉ l) →
  _as_str_list (default (default (PList []) (str_list <$> b)) (str_list <$> a)) = default [] (prefer a b).
Proof.
  intros Ha Hb. assert (∀ l : list string, "" ∉ l → _as_str_list (str_list l) = l) as Hl.
  { unfold str_list. simpl. induction l as [|x l IH]; [done|].
    intros [Hx Hl]%not_elem_of_cons. simpl. rewrite decide_False by congruence. f_equal. by apply IH. }
  destruct a as [a|]; simpl; [by apply Hl, Ha|]. destruct b as [b|]; simpl; [by apply Hl, Hb|done].
Qed.

Section declared.
Context (s f : declaration) (flags : list string).
Context (Hs : declared_ok s) (Hf : declared_ok f) (Hflags : "" ∉ flags).

Lemma declared_text d o :
  declared_ok d →
  o ∈ [dc_tenant_policy_ref d; dc_permission_mode d; dc_context_binding_ref d;
       dc_context_content_hash d; dc_budget_ref d; dc_quota_ref d; dc_session_mode d;
       dc_approval_state d] →
  o ≠ Some "".
Proof.
  intros Hd Ho ->. apply Hd. unfold declared_strings. apply elem_of_app. left.
  apply list_elem_of_omap. by exists (Some "").
Qed.

Lemma declared_texts d o l :
  declared_ok d → o ∈ [dc_tool_bindings d; dc_mcp_bindings d; dc_skill_bindings d] →
  o = Some l → "" ∉ l.
Proof.
  intros Hd Ho -> Hl. apply Hd. unfold declared_strings. apply elem_of_app. right.
  apply elem_of_app. left. apply list_elem_of_In, in_concat. exists l.
  split; [|by apply list_elem_of_In]. apply list_elem_of_In, list_elem_of_omap. by exists (Some l).
Qed.

Lemma declared_bundle d b :
  declared_ok d → dc_bundle d = Some b →
  bundle_ref b ≠ "" ∧ semantics_version b ≠ "" ∧ content_hash b ≠ "" ∧ compile_hash b ≠ "".
Proof.
  intros Hd Hb. unfold declared_ok, declared_strings in Hd. rewrite Hb in Hd.
  split_and!; intros He; apply Hd; rewrite !elem_of_app, !elem_of_cons, He; tauto.
Qed.

Abbreviation payload := (declared_payload s f flags).

Lemma resolved_bundle :
  _resolve_declarative_bundle_digest payload = Ok (prefer (dc_bundle s) (dc_bundle f)).
Proof.
  unfold _resolve_declarative_bundle_digest, declared_payload. cbv zeta. rewrite !py_get_dict. simpl.
  destruct (dc_bundle s) as [b|] eqn:Hbs; simpl.
  - destruct (declared_bundle s b Hs Hbs) as (H1 & H2 & H3 & H4). rewrite !decide_False by done.
    simpl. by destruct b.
  - destruct (dc_bundle f) as [b|] eqn:Hbf; simpl; [|done].
    destruct (declared_bundle f b Hf Hbf) as (H1 & H2 & H3 & H4). rewrite !decide_False by done.
    simpl. by destruct b.
Qed.

(** The bundle is read whole where one form gives all of it. *)
Lemma resolve_declared r i action :
  py_get "capability_snapshot_input" (default [] (act_input_json action)) = PDict payload →
  (require_declarative_bundle_digest r = true → prefer (dc_bundle s) (dc_bundle f) ≠ None) →
  resolve r i action = Ok (declared_input r i s f flags).
Proof.
  intros Hp Hr. unfold resolve. rewrite Hp. cbn [is_dict negb]. rewrite andb_false_r.
  cbn [_as_dict]. cbv zeta. rewrite resolved_bundle. cbn [mbind outcome_bind].
  rewrite (proj2 (andb_false_iff _ _)).
  2: { destruct (require_declarative_bundle_digest r); [right|by left].
       apply bool_decide_eq_false. by apply Hr. }
  unfold declared_input, declared_payload, _first_non_empty_string. rewrite !py_get_dict, !py_get_or_dict.
  reduce. rewrite !py_get_dict, !py_get_or_dict. reduce.
  assert (∀ o, o ∈ [dc_tenant_policy_ref s; dc_permission_mode s; dc_context_binding_ref s;
    dc_context_content_hash s; dc_budget_ref s; dc_quota_ref s; dc_session_mode s;
    dc_approval_state s] → o ≠ Some "") as Hts by (intros; by apply (declared_text s)).
  assert (∀ o, o ∈ [dc_tenant_policy_ref f; dc_permission_mode f; dc_context_binding_ref f;
    dc_context_content_hash f; dc_budget_ref f; dc_quota_ref f; dc_session_mode f;
    dc_approval_state f] → o ≠ Some "") as Htf by (intros; by apply (declared_text f)).
  rewrite !first_of_texts by first
    [apply Hts; rewrite !elem_of_cons; tauto | apply Htf; rewrite !elem_of_cons; tauto].
  assert (∀ o x, default "" (match o with Some y => Some y
    | None => _first_non_empty_optional_string [PStr x] end) = default x o) as Hd.
  { intros [y|] x; simpl; [done|]. by case_decide; subst. }
  rewrite !Hd.
  assert (∀ o l, o ∈ [dc_tool_bindings s; dc_mcp_bindings s; dc_skill_bindings s] →
    o = Some l → "" ∉ l) as Hls by (intros; by eapply (declared_texts s)).
  assert (∀ o l, o ∈ [dc_tool_bindings f; dc_mcp_bindings f; dc_skill_bindings f] →
    o = Some l → "" ∉ l) as Hlf by (intros; by eapply (declared_texts f)).
  rewrite !as_str_list_of by (intros l; first [apply Hls; rewrite !elem_of_cons; tauto
    | apply Hlf; rewrite !elem_of_cons; tauto]).
  assert (_as_str_list (str_list flags) = flags) as -> by (apply (as_str_list_of (Some flags) None); naive_solver).
  assert (∀ o, match o with Some y => Some y | None => _first_non_empty_optional_string [] end = o) as He
    by by intros [].
  by rewrite !He.
Qed.
End declared.

(** An action that declares capabilities in the structured and the flat
    form, whole or in part, resolves to the declared values: field by field the
    structured one where there is one, else the flat one, else the default of
    the resolver.  A resolver that requires a declarative bundle refuses the
    action exactly where neither form has one. *)
Theorem resolve_merges (r : t) (i : TurnInput) (action : Action) (s f : declaration)
    (flags : list string) (Hs : declared_ok s) (Hf : declared_ok f) (Hflags : "" ∉ flags)
    (Hp : py_get "capability_snapshot_input" (default [] (act_input_json action)) =
          PDict (declared_payload s f flags)) :
  resolve r i action =
    if require_declarative_bundle_digest r && bool_decide (prefer (dc_bundle s) (dc_bundle f) = None)
    then Raise (resolver_error "declarative_bundle_digest is required in strict mode.")
    else Ok (declared_input r i s f flags).
Proof.
  destruct (require_declarative_bundle_digest r) eqn:Hr; simpl.
  - case_bool_decide as Hb; [|by apply resolve_declared].
    unfold resolve. rewrite Hp. cbn [is_dict negb]. rewrite andb_false_r. cbn [_as_dict]. cbv zeta.
    rewrite (resolved_bundle s f flags Hs Hf), Hb, Hr. cbn [mbind outcome_bind andb].
    by rewrite bool_decide_true.
  - apply resolve_declared; try done. congruence.
Qed.

(** *** Any payload *)
Lemma first_non_empty l s : _first_non_empty_optional_string l = Some s → s ≠ "".
Proof.
  induction l as [|v l IH]; simpl; [done|]. unfold nonempty_str.
  destruct v; simpl; try exact IH. case_decide; [exact IH|]. by intros [= <-].
Qed.

Lemma first_non_empty_default v1 v2 d : d ≠ "" → _first_non_empty_string [v1; v2; PStr d] ≠ "".
Proof.
  intros Hd. unfold _first_non_empty_string. destruct (_first_non_empty_optional_string _) eqn:Hf.
  - simpl. by eapply first_non_empty.
  - exfalso. revert Hf. simpl. rewrite decide_False by done.
    by destruct (nonempty_str v1), (nonempty_str v2).
Qed.

Lemma bundle_complete payload :
  match _resolve_declarative_bundle_digest payload with
  | Ok None => True
  | Ok (Some b) => bundle_ref b ≠ "" ∧ semantics_version b ≠ "" ∧ content_hash b ≠ "" ∧ compile_hash b ≠ ""
  | Raise e => exn_cls e = CapabilitySnapshotBuildError
  end.
Proof.
  unfold _resolve_declarative_bundle_digest. cbv zeta.
  assert (∀ d, match
    (let field k flat := _first_non_empty_optional_string [py_get k d; py_get flat payload] in
     let r := field "bundle_ref" "declarative_bundle_ref" in
     let v := field "semantics_version" "declarative_bundle_semantics_version" in
     let c := field "content_hash" "declarative_bundle_content_hash" in
     let h := field "compile_hash" "declarative_bundle_compile_hash" in
     let fs := [("bundle_ref", r); ("semantics_version", v); ("content_hash", c); ("compile_hash", h)] in
     if forallb (λ f, bool_decide (snd f = None)) fs then Ok None
     else match missing_fields fs with
          | [] => Ok (Some {| bundle_ref := default "" r; semantics_version := default "" v;
                              content_hash := default "" c; compile_hash := default "" h |})
          | missing => Raise (resolver_error ("declarative_bundle_digest is missing required fields: "
                         +:+ String.concat ", " missing +:+ "."))
          end) with
    | Ok None => True
    | Ok (Some b) => bundle_ref b ≠ "" ∧ semantics_version b ≠ "" ∧ content_hash b ≠ "" ∧ compile_hash b ≠ ""
    | Raise e => exn_cls e = CapabilitySnapshotBuildError
    end) as Hd.
  { intros d. cbv beta zeta.
    repeat match goal with |- context [_first_non_empty_optional_string [py_get ?k d; ?v]] =>
      pose proof (first_non_empty [py_get k d; v]);
      destruct (_first_non_empty_optional_string [py_get k d; v]) end;
    simpl; try done. split_and!; auto. }
  destruct (py_get "declarative_bundle_digest" payload); try done; apply Hd.
Qed.

Definition complete_bundle (b : DeclarativeBundleDigest) : Prop :=
  bundle_ref b ≠ "" ∧ semantics_version b ≠ "" ∧ content_hash b ≠ "" ∧ compile_hash b ≠ "".

(** What an input that was resolved declares. *)
Record resolved (r : t) (i : TurnInput) (action : Action) (x : CapabilitySnapshotInput) : Prop := {
  rs_run : si_run_id x = ti_run_id i ∧ si_based_on_offset x = ti_based_on_offset i;
  rs_declared : require_declared_snapshot_input r = true → ∃ payload,
    py_get "capability_snapshot_input" (default [] (act_input_json action)) = PDict payload;
  rs_bundle : require_declarative_bundle_digest r = true → is_Some (si_declarative_bundle_digest x);
  rs_complete b : si_declarative_bundle_digest x = Some b → complete_bundle b;
  rs_policy : default_tenant_policy_ref r ≠ "" → si_tenant_policy_ref x ≠ "";
  rs_mode : default_permission_mode r ≠ "" → si_permission_mode x ≠ "";
  rs_context s : si_context_binding_ref x = Some s → s ≠ "";
  rs_content s : si_context_content_hash x = Some s → s ≠ ""
}.

Lemma resolve_resolved r i action :
  match resolve r i action with
  | Ok x => resolved r i action x
  | Raise e => exn_cls e = CapabilitySnapshotBuildError
  end.
Proof.
  unfold resolve. cbv zeta. set (raw := py_get "capability_snapshot_input" _).
  destruct (require_declared_snapshot_input r && negb (is_dict raw)) eqn:Hraw; [done|].
  pose proof (bundle_complete (_as_dict raw)) as Hb.
  destruct (_resolve_declarative_bundle_digest (_as_dict raw)) as [bundle|e]; cbn [mbind outcome_bind]; [|exact Hb].
  destruct (require_declarative_bundle_digest r && _) eqn:Hreq; [done|].
  split; cbn [si_run_id si_based_on_offset si_declarative_bundle_digest si_context_binding_ref
    si_context_content_hash si_tenant_policy_ref si_permission_mode].
  - done.
  - intros Hr. rewrite Hr in Hraw. destruct raw eqn:Hraw'; try done. by eexists.
  - intros Hr. rewrite Hr in Hreq. simpl in Hreq. apply bool_decide_eq_false in Hreq.
    destruct bundle; [by eexists|done].
  - intros b ->. exact Hb.
  - apply first_non_empty_default.
  - apply first_non_empty_default.
  - intros s. apply first_non_empty.
  - intros s. apply first_non_empty.
Qed.

(** Whatever the payload, the resolver returns an input or raises the
    builder's own error class; what it returns names the turn's run and offset,
    has a bundle whenever one is required, and every bundle it has is complete.
    The builder takes what a resolver with defaults returns, except where a
    context is bound without the hash of its content. *)
Theorem resolved_input_builds (r : t) (i : TurnInput) (action : Action) (now : string)
    (Hpolicy : default_tenant_policy_ref r ≠ "") (Hmode : default_permission_mode r ≠ "")
    (Hrun : ti_run_id i ≠ "") (Hoffset : (0 ≤ ti_based_on_offset i)%Z) :
  match resolve r i action with
  | Ok x =>
      resolved r i action x ∧
      (is_ok (build now x) = true ↔
       (si_context_binding_ref x ≠ None → si_context_content_hash x ≠ None)) ∧
      ∀ c, build now x = Ok c → cs_run_id c = ti_run_id i ∧ cs_based_on_offset c = ti_based_on_offset i
  | Raise e => exn_cls e = CapabilitySnapshotBuildError
  end.
Proof.
  pose proof (resolve_resolved r i action) as Hx.
  destruct (resolve r i action) as [x|e]; [|exact Hx]. destruct (Hx) as [[Hrx Hox] _ _ _ Hp Hm Hc Hh].
  split; [exact Hx|].
  assert (∀ o, (∀ s, o = Some s → s ≠ "") → truthy_opt o = true ↔ o ≠ None) as Ht.
  { intros [s|] Hs; simpl; [|by split]. unfold is_empty_str. rewrite bool_decide_false by (by apply Hs). done. }
  split; [|intros c (_ & _ & _ & -> & -> & _)%build_Ok; done].
  rewrite <- (Ht _ Hc), <- (Ht _ Hh). pose proof (build_validates now x) as Hv.
  destruct (build now x) as [c|e]; simpl; [split; [intros _; apply Hv|done]|].
  split; [done|]. intros Himp. exfalso. destruct Hv as [_ [Hv|[Hv|[Hv|[Hv|[Hv1 Hv2]]]]]].
  - congruence.
  - lia.
  - by apply Hp.
  - by apply Hm.
  - rewrite Himp in Hv2; done.
Qed.

(** ** Witnesses *)
Definition bundle_example : DeclarativeBundleDigest :=
  {| bundle_ref := "bundle:1"; semantics_version := "v1"; content_hash := "c"; compile_hash := "h" |}.

Definition declares (policy quota : option string) (b : option DeclarativeBundleDigest) : declaration :=
  {| dc_tenant_policy_ref := policy; dc_permission_mode := None; dc_tool_bindings := Some ["web"];
     dc_mcp_bindings := None; dc_skill_bindings := None; dc_context_binding_ref := None;
     dc_context_content_hash := None; dc_budget_ref := None; dc_quota_ref := quota;
     dc_session_mode := None; dc_approval_state := None; dc_bundle := b |}.

Definition declaring_action (payload : pydict) : Action :=
  {| act_action_id := "a1"; act_run_id := "run-1"; act_action_type := "tool_call";
     act_effect_class := READ_ONLY; act_external_idempotency_level := None;
     act_interaction_target := None; act_input_ref := None;
     act_input_json := Some [("capability_snapshot_input", PDict payload)];
     act_policy_tags := []; act_timeout_ms := None; act_side_effect_class := None |}.

Definition resolver_turn : TurnInput :=
  {| ti_run_id := "run-1"; ti_through_offset := 4; ti_based_on_offset := 3;
     ti_trigger_type := trig_start; ti_history := [] |}.

Definition merged_action : Action :=
  declaring_action (declared_payload (declares (Some "policy:s") None None)
                      (declares (Some "policy:f") (Some "quota:f") (Some bundle_example)) ["beta"]).

(** The policy of the structured form, the quota and the bundle of the flat one. *)
Lemma resolve_merges_witness :
  match resolve (new_resolver true) resolver_turn merged_action with
  | Ok x => si_tenant_policy_ref x = "policy:s" ∧ si_quota_ref x = Some "quota:f" ∧
      si_declarative_bundle_digest x = Some bundle_example
  | Raise _ => False
  end.
Proof.
  rewrite (resolve_merges (new_resolver true) resolver_turn merged_action
    (declares (Some "policy:s") None None)
    (declares (Some "policy:f") (Some "quota:f") (Some bundle_example)) ["beta"]).
  - split; [|split]; reflexivity.
  - apply (bool_decide_unpack _). vm_compute. exact I.
  - apply (bool_decide_unpack _). vm_compute. exact I.
  - apply (bool_decide_unpack _). vm_compute. exact I.
  - reflexivity.
Defined.

Lemma resolved_input_builds_witness :
  match resolve (new_resolver true) resolver_turn merged_action with
  | Ok x => is_ok (build "t0" x) = true
  | Raise _ => False
  end.
Proof.
  pose proof (resolved_input_builds (new_resolver true) resolver_turn merged_action "t0") as H.
  assert (Hok : match resolve (new_resolver true) resolver_turn merged_action with
    | Ok x => bool_decide (si_context_binding_ref x = None) | Raise _ => false end = true)
    by (vm_compute; reflexivity).
  destruct (resolve (new_resolver true) resolver_turn merged_action) as [x|e]; [|discriminate Hok].
  apply bool_decide_eq_true in Hok.
  apply H; [discriminate|discriminate|discriminate|discriminate|]. intros Hc. by destruct Hc.
Defined.
