(* ===== verification/TurnConcurrency.v ===== *)
(** * Concurrent turns over one dedupe store ([kernel/turn_engine.py])

    Any number of turns, on one event loop, interleaved at their [await]
    points; other users of the store, restarts that lose the turns and keep
    the store, and cancellations in between.  The theorems bound how often
    the executor is entered. *)
From S2P Require Export TurnSafety.

(** A turn is about to run phase [p], or waits for the executor, or is over. *)
Inductive task :=
  | Running (p : phase) (c : TurnPhaseContext)
  | Waiting (c : TurnPhaseContext)
  | Finished (o : outcome TurnResult).

Definition next_phase (p : phase) : option phase :=
  match p with
  | ph_noop_or_reasoning => Some ph_snapshot
  | ph_snapshot => Some ph_admission
  | ph_admission => Some ph_dispatch_policy
  | ph_dispatch_policy => Some ph_dedupe
  | ph_dedupe => Some ph_execute
  | ph_execute => None
  end.

(** The [for] loop of [run_turn] after the phase that was run. *)
Definition continue (p : phase) (o : outcome TurnPhaseContext) : task :=
  match o with
  | Raise e => Finished (Raise e)
  | Ok c =>
      match cx_result c, next_phase p with
      | Some r, _ => Finished (Ok r)
      | None, Some p' => Running p' c
      | None, None => Finished (Raise no_result_error)
      end
  end.

Record system (S E : Type) := Sys { sys_world : world S E; sys_tasks : list task }.
Arguments Sys {S E}.
Arguments sys_world {S E}.
Arguments sys_tasks {S E}.

Inductive sys_step {S E} `{DedupeStorePort S} (te : TurnEngine E)
    : system S E → system S E → Prop :=
  | step_spawn w ts i a :
      sys_step te (Sys w ts) (Sys w (ts ++ [Running ph_noop_or_reasoning (initial_context i a)]))
  | step_phase w w' ts1 ts2 p c o :
      p ≠ ph_execute → run_phase te p c w = (o, w') →
      sys_step te (Sys w (ts1 ++ Running p c :: ts2)) (Sys w' (ts1 ++ continue p o :: ts2))
  | step_enter w w' ts1 ts2 c x :
      execute_enter te c w = (Ok x, w') →
      sys_step te (Sys w (ts1 ++ Running ph_execute c :: ts2)) (Sys w' (ts1 ++ Waiting c :: ts2))
  | step_exit w w' ts1 ts2 c (r : outcome pydict) o :
      (* the executor returned or raised [r], a cancellation included *)
      execute_exit te c r w = (o, w') →
      sys_step te (Sys w (ts1 ++ Waiting c :: ts2)) (Sys w' (ts1 ++ continue ph_execute o :: ts2))
  | step_cancel w ts1 ts2 p c e :
      sys_step te (Sys w (ts1 ++ Running p c :: ts2)) (Sys w (ts1 ++ Finished (Raise e) :: ts2))
  | step_store w s' ts op r :
      (* another user of the store *)
      run_op op (w_store w) = (r, s') →
      sys_step te (Sys w ts) (Sys (World s' (w_env w) (w_calls w)) ts)
  | step_env w e' ts :
      sys_step te (Sys w ts) (Sys (World (w_store w) e' (w_calls w)) ts)
  | step_restart w ts :
      (* the process is restarted: the turns are lost, the store is kept *)
      sys_step te (Sys w ts) (Sys w []).

Definition starts {S E} `{DedupeStoreLaws S} (st : system S E) : Prop :=
  ds_ok (w_store (sys_world st)) ∧ w_calls (sys_world st) = [] ∧ sys_tasks st = [].

(** ** The invariant

    A claim is a turn that holds a reservation it may still use or has used:
    one that is about to execute, or one that called the executor. *)
Definition tickets (t : task) : list TurnPhaseContext :=
  match t with Running ph_execute c => [c] | _ => [] end.

Definition claims {S E} (st : system S E) : list TurnPhaseContext :=
  map xc_turn (w_calls (sys_world st)) ++ flat_map tickets (sys_tasks st).

Definition undegraded (cs : list TurnPhaseContext) : list TurnPhaseContext :=
  filter (λ c, cx_dedupe_available c = true) cs.

Section invariant.
Context {S E : Type} `{DedupeStoreLaws S} (te : TurnEngine E).

Record claims_ok (l : ledger) (cs : list TurnPhaseContext) : Prop := {
  co_nodup : NoDup (map turn_key (undegraded cs));
  co_present c : c ∈ cs → cx_dedupe_available c = true → is_Some (l !! turn_key c);
  co_degraded c : c ∈ cs → cx_dedupe_available c = false →
    turn_effect_class c = Some IDEMPOTENT_WRITE;
  co_all : DedupeStoreAvailable S → ∀ c, c ∈ cs → cx_dedupe_available c = true;
  co_legacy_nodup : DedupeStoreAvailable S → NoDup (map turn_legacy_key cs);
  co_legacy_present : DedupeStoreAvailable S → ∀ c, c ∈ cs → is_Some (l !! turn_legacy_key c)
}.

#[local] Instance claims_ok_perm l : Proper (Permutation ==> impl) (claims_ok l).
Proof.
  intros cs cs' Hp [H1 H2 H3 H4 H5 H6]. split.
  - eapply (NoDup_Permutation_proper _ (map turn_key (undegraded cs))); [|done].
    unfold undegraded. by rewrite Hp.
  - intros c Hc. apply H2. by rewrite Hp.
  - intros c Hc. apply H3. by rewrite Hp.
  - intros Ha c Hc. apply H4; [done|]. by rewrite Hp.
  - intros Ha. rewrite <- Hp. by apply H5.
  - intros Ha c Hc. apply H6; [done|]. by rewrite Hp.
Qed.

Lemma ledger_le_is_Some l l' k : ledger_le l l' → is_Some (l !! k) → is_Some (l' !! k).
Proof. intros Hle [r Hr]. destruct (Hle k r Hr) as (r' & -> & _). by eexists. Qed.

Lemma claims_ok_le l l' cs : ledger_le l l' → claims_ok l cs → claims_ok l' cs.
Proof.
  intros Hle [H1 H2 H3 H4 H5 H6].
  split; eauto using ledger_le_is_Some.
Qed.

Lemma claims_ok_drop l c cs : claims_ok l (c :: cs) → claims_ok l cs.
Proof.
  intros [H1 H2 H3 H4 H5 H6]. split.
  - revert H1. unfold undegraded. rewrite filter_cons. case_decide; [|done].
    simpl. by intros [_ ?]%NoDup_cons.
  - intros c' Hc'. apply H2. by right.
  - intros c' Hc'. apply H3. by right.
  - intros Ha c' Hc'. apply H4; [done|by right].
  - intros Ha. specialize (H5 Ha). by apply NoDup_cons in H5 as [_ ?].
  - intros Ha c' Hc'. apply H6; [done|by right].
Qed.

Lemma claims_ok_app_l l cs1 cs2 : claims_ok l (cs1 ++ cs2) → claims_ok l cs1.
Proof.
  induction cs2 as [|c cs2 IH]; [by rewrite app_nil_r|].
  rewrite <- Permutation_middle. intros Hc. apply IH. by eapply claims_ok_drop.
Qed.

(** The step that makes a claim. *)
Lemma claims_ok_add l l' c cs : claimed l l' c → claims_ok l cs → claims_ok l' (c :: cs).
Proof.
  intros [Hle Hf Hd Hal Hleg] Hok. pose proof (claims_ok_le l l' cs Hle Hok) as [H1 H2 H3 H4 H5 H6].
  split.
  - unfold undegraded. rewrite filter_cons. case_decide as Hc; [|done]. simpl.
    apply NoDup_cons. split; [|done]. intros (c' & Hk & Hin)%list_elem_of_fmap.
    apply list_elem_of_filter in Hin as [Hav Hin].
    destruct (co_present _ _ Hok c' Hin Hav) as [r Hr]. rewrite <- Hk in Hr.
    destruct (Hf Hc). congruence.
  - intros c' [->|Hin]%elem_of_cons Hav; [|by apply H2].
    destruct (Hf Hav) as [_ (r & ? & _)]. by exists r.
  - intros c' [->|Hin]%elem_of_cons Hav; [|by apply H3]. by apply Hd.
  - intros Ha c' [->|Hin]%elem_of_cons; [|by apply H4]. by apply Hleg.
  - intros Ha. simpl. apply NoDup_cons. split; [|by apply H5].
    intros (c' & Hk & Hin)%list_elem_of_fmap.
    destruct (co_legacy_present _ _ Hok Ha c' Hin) as [r Hr]. rewrite <- Hk in Hr.
    destruct (Hleg Ha) as (_ & ? & _). congruence.
  - intros Ha c' [->|Hin]%elem_of_cons; [|by apply H6]. by apply Hleg.
Qed.

(** What holds of each turn and of each call. *)
Definition alias_ok (c : TurnPhaseContext) : Prop :=
  cx_legacy_alias_key c ≠ Some (turn_key c).

Definition task_ok (t : task) : Prop :=
  match t with
  | Running p c => pre p c ∧ alias_ok c
  | Waiting c => pre ph_execute c ∧ alias_ok c
  | Finished _ => True
  end.

Definition call_ok (x : exec_call) : Prop :=
  authorised (xc_turn x) ∧ cx_action (xc_turn x) = Some (xc_action x) ∧
  cx_snapshot (xc_turn x) = Some (xc_snapshot x) ∧
  cx_envelope (xc_turn x) = Some (xc_envelope x).

Record sys_inv (st : system S E) : Prop := {
  inv_ok : ds_ok (w_store (sys_world st));
  inv_tasks : Forall task_ok (sys_tasks st);
  inv_calls : Forall call_ok (w_calls (sys_world st));
  inv_claims : claims_ok (view (sys_world st)) (claims st)
}.

Lemma sys_inv_starts st : starts st → sys_inv st.
Proof.
  destruct st as [[s e cs] ts]. intros (Hok & Hc & Ht). simpl in *. subst.
  split; [done|constructor|constructor|].
  split; simpl; intros; try (constructor || set_solver).
Qed.

(** Replace one turn: the claims change at that turn only. *)
Lemma claims_replace (w : world S E) ts1 t ts2 :
  claims (Sys w (ts1 ++ t :: ts2)) ≡ₚ tickets t ++ claims (Sys w (ts1 ++ ts2)).
Proof.
  unfold claims. simpl. rewrite !flat_map_app. simpl.
  rewrite (app_assoc _ (flat_map tickets ts1)), !(app_assoc _ _ (flat_map tickets ts2)).
  rewrite (Permutation_app_comm _ (tickets t)). by rewrite <- !app_assoc.
Qed.

(** One phase step: it calls nothing, and makes a claim only by the
    reservation of phase 5. *)
Definition phase_step_ok (w w' : world S E) (t : task) : Prop :=
  ds_ok (w_store w') ∧ w_calls w' = w_calls w ∧ ledger_le (view w) (view w') ∧ task_ok t ∧
  (tickets t = [] ∨ ∃ c, tickets t = [c] ∧ claimed (view w) (view w') c).

Lemma quiet_phase_step p p' kinds c w o w' :
  ds_ok (w_store w) → run_phase te p c w = (o, w') →
  wp (run_phase te p c) (λ c' w', untouched w w' ∧ leads kinds (pre p') c') (λ _, untouched w) w →
  next_phase p = Some p' → p' ≠ ph_execute →
  phase_step_ok w w' (continue p o).
Proof.
  intros Hok Hrun Hwp Hnext Hp'. pose proof (wp_run _ _ _ _ _ _ Hwp Hrun) as Hpost.
  assert (untouched w w' ∧ task_ok (continue p o) ∧ tickets (continue p o) = [])
    as ([Hs Hc] & Ht & Htk).
  { destruct o as [c'|e]; simpl; [|done]. rewrite Hnext.
    destruct Hpost as [Hu [(r & -> & _)|[-> Hpre]]]; [done|].
    split; [done|]. split; [|by destruct p']. split; [done|].
    destruct Hpre as [[_ Hal] _]. unfold alias_ok. by destruct p'; rewrite ?Hal. }
  unfold phase_step_ok, view. rewrite Hs. split_and!; try done. by left.
Qed.

Lemma phase_step p c w o w' :
  p ≠ ph_execute → pre p c → ds_ok (w_store w) → run_phase te p c w = (o, w') →
  phase_step_ok w w' (continue p o).
Proof.
  intros Hp Hpre Hok Hrun. destruct p; try done.
  - eapply quiet_phase_step; [done..|by apply noop_spec|done|done].
  - eapply quiet_phase_step; [done..|by apply snapshot_spec|done|done].
  - eapply quiet_phase_step; [done..|by apply admission_spec|done|done].
  - eapply quiet_phase_step; [done..|by apply dispatch_policy_spec|done|done].
  - pose proof (wp_run _ _ _ _ _ _ (dedupe_spec c w Hpre Hok) Hrun) as Hpost.
    destruct o as [c'|e]; simpl in *.
    + destruct Hpost as (Hok' & [Hca _] & [(r & Hr & _)|[Hr [Hpre' Hcl]]] & Hv); rewrite Hr.
      * split_and!; try done; [|by left]. by rewrite Hv by (rewrite Hr; by eexists).
      * do 2 (split; [done|]). split; [apply Hcl|]. split; [|right; by exists c'].
        split; [done|]. intros Hal. by destruct (cl_alias _ _ _ Hcl _ Hal) as (_ & ? & _).
    + destruct Hpost as (Hok' & [Hca _] & Hv). split_and!; try done; [by rewrite Hv|by left].
Qed.

(** A step that changes one turn and makes no claim. *)
Lemma sys_inv_replace w w' ts1 t t' ts2 :
  sys_inv (Sys w (ts1 ++ t :: ts2)) → ds_ok (w_store w') → w_calls w' = w_calls w →
  ledger_le (view w) (view w') → task_ok t' →
  (tickets t' = [] ∨ ∃ c, tickets t' = [c] ∧ claimed (view w) (view w') c) →
  sys_inv (Sys w' (ts1 ++ t' :: ts2)).
Proof.
  intros [Hok Htasks Hcalls Hcl] Hok' Hca Hle Ht' Htk. simpl in *.
  split; simpl; [done| |by rewrite Hca|].
  - apply Forall_app in Htasks as [? [? ?]%Forall_cons]. apply Forall_app. by split; [|constructor].
  - rewrite claims_replace. rewrite claims_replace in Hcl.
    assert (claims_ok (view w) (claims (Sys w (ts1 ++ ts2)))) as Hrest.
    { revert Hcl. destruct t as [[] c| |]; simpl; try done. apply claims_ok_drop. }
    replace (claims (Sys w' (ts1 ++ ts2))) with (claims (Sys w (ts1 ++ ts2)))
      by (unfold claims; simpl; by rewrite Hca).
    destruct Htk as [->|(c & -> & Hc)]; simpl.
    + by eapply claims_ok_le.
    + by eapply claims_ok_add.
Qed.

(** A step that changes the world only. *)
Lemma sys_inv_world w w' ts :
  sys_inv (Sys w ts) → ds_ok (w_store w') → w_calls w' = w_calls w →
  ledger_le (view w) (view w') → sys_inv (Sys w' ts).
Proof.
  intros [Hok Htasks Hcalls Hcl] Hok' Hca Hle. simpl in *. split; simpl; [done|done|by rewrite Hca|].
  replace (claims (Sys w' ts)) with (claims (Sys w ts)) by (unfold claims; simpl; by rewrite Hca).
  by eapply claims_ok_le.
Qed.

Lemma task_of w ts1 t ts2 : sys_inv (Sys w (ts1 ++ t :: ts2)) → task_ok t.
Proof. intros [_ Htasks _ _]. by apply Forall_app in Htasks as [_ [? _]%Forall_cons]. Qed.

Lemma sys_inv_enter w w' ts1 ts2 c x :
  sys_inv (Sys w (ts1 ++ Running ph_execute c :: ts2)) → execute_enter te c w = (Ok x, w') →
  sys_inv (Sys w' (ts1 ++ Waiting c :: ts2)).
Proof.
  intros Hinv Hx. pose proof (task_of _ _ _ _ Hinv) as [Hpre Hal].
  destruct (Hpre) as (_ & _ & Hau).
  destruct (execute_enter_spec te c w Hau) as (x' & Hx' & Hc & Hxa & Hxs & Hxe).
  rewrite Hx' in Hx. injection Hx as <- <-. destruct Hinv as [Hok Htasks Hcalls Hcl]. simpl in *.
  split; simpl; [done| | |].
  - apply Forall_app in Htasks as [? [? ?]%Forall_cons]. apply Forall_app. by split; [|constructor].
  - apply Forall_app. split; [done|]. constructor; [|done]. unfold call_ok. by rewrite Hc.
  - rewrite claims_replace in *. simpl in *. change (view (World _ _ _)) with (view w).
    unfold claims in *. simpl in *. rewrite map_app, <- app_assoc. simpl. rewrite Hc.
    by rewrite Permutation_middle in Hcl.
Qed.

Lemma sys_inv_step st st' : sys_inv st → sys_step te st st' → sys_inv st'.
Proof.
  intros Hinv Hstep. destruct Hstep.
  - destruct Hinv as [Hok Htasks Hcalls Hcl]. simpl in *. split; simpl; try done.
    + apply Forall_app. split; [done|]. constructor; [|done]. split; [apply pre_initial|done].
    + revert Hcl. unfold claims. simpl. rewrite flat_map_app. simpl. by rewrite app_nil_r.
  - destruct (task_of _ _ _ _ Hinv) as [Hpre _].
    destruct (phase_step p c w o w') as (? & ? & ? & ? & ?); try done; [by destruct Hinv|].
    by eapply sys_inv_replace.
  - by eapply sys_inv_enter.
  - destruct (task_of _ _ _ _ Hinv) as [Hpre Hal].
    pose proof (wp_run _ _ _ _ _ _ (execute_exit_spec te c r w Hpre (inv_ok _ Hinv) Hal) H1) as Hpost.
    destruct o as [c'|e].
    + destruct Hpost as (? & [? _] & ? & (res & Hres & _) & _).
      eapply sys_inv_replace; try done; simpl; rewrite Hres; [done|by left].
    + destruct Hpost as (? & [? _] & ? & _). eapply sys_inv_replace; try done. by left.
  - eapply sys_inv_replace; try done; [apply Hinv|by left].
  - destruct (run_op_le op (w_store w) r s' (inv_ok _ Hinv) H1). by eapply sys_inv_world.
  - eapply sys_inv_world; try done. apply Hinv.
  - destruct Hinv as [Hok Htasks Hcalls Hcl]. simpl in *. split; simpl; try done.
    unfold claims. simpl. rewrite app_nil_r. by eapply claims_ok_app_l.
Qed.

Lemma sys_inv_reachable st st' : starts st → rtc (sys_step te) st st' → sys_inv st'.
Proof.
  intros Hst Hr. pose proof (sys_inv_starts st Hst) as Hinv. clear Hst.
  induction Hr; [done|]. eauto using sys_inv_step.
Qed.
End invariant.

(** The key that the executor received. *)
Definition call_key (x : exec_call) : string := env_dispatch_idempotency_key (xc_envelope x).

Lemma call_ok_key x : call_ok x → call_key x = turn_key (xc_turn x).
Proof.
  intros ([_ _ _ (e & He & Hk)] & _ & _ & Hx). unfold call_key. congruence.
Qed.

Lemma call_ok_effect x :
  call_ok x → turn_effect_class (xc_turn x) = Some (act_effect_class (xc_action x)).
Proof. intros (_ & Ha & _). unfold turn_effect_class. by rewrite Ha. Qed.

Lemma map_call_key cs :
  Forall call_ok cs → map call_key cs = map turn_key (map xc_turn cs).
Proof.
  intros Hcs. induction Hcs as [|x cs Hx Hcs IH]; simpl; [done|].
  by rewrite IH, call_ok_key.
Qed.

Lemma sublist_map {A B} (f : A → B) (l1 l2 : list A) :
  sublist l1 l2 → sublist (map f l1) (map f l2).
Proof. induction 1; simpl; by constructor. Qed.

Lemma undegraded_all cs :
  (∀ c, c ∈ cs → cx_dedupe_available c = true) → undegraded cs = cs.
Proof.
  induction cs as [|c cs IH]; intros Hc; [done|]. unfold undegraded. rewrite filter_cons_True.
  - f_equal. apply IH. intros c' ?. apply Hc. by right.
  - apply Hc. by left.
Qed.

Lemma sublist_undegraded cs :
  Forall call_ok cs →
  (∀ x, x ∈ cs → cx_dedupe_available (xc_turn x) = false →
     act_effect_class (xc_action x) = IDEMPOTENT_WRITE) →
  sublist (map xc_turn (filter (λ x, act_effect_class (xc_action x) ≠ IDEMPOTENT_WRITE) cs))
          (undegraded (map xc_turn cs)).
Proof.
  intros Hcs. induction Hcs as [|x cs Hx Hcs IH]; intros Hd; [constructor|].
  unfold undegraded. simpl. rewrite !filter_cons.
  assert (sublist (map xc_turn (filter (λ x, act_effect_class (xc_action x) ≠ IDEMPOTENT_WRITE) cs))
            (undegraded (map xc_turn cs))) as IH' by (apply IH; intros; apply Hd; [by right|done]).
  case_decide as Ha; case_decide as Hb; simpl.
  - by constructor.
  - destruct Ha. apply Hd; [by left|]. by destruct (cx_dedupe_available _).
  - by constructor.
  - done.
Qed.

(** C1: at most once, over any lawful store, failing operations included:
    however many turns run, however they interleave at their awaits, whatever
    else uses the store, however often the process restarts, no two executor
    calls with an effect class other than idempotent_write carry the same
    idempotency key; every call was made by an authorised turn with that
    turn's action, snapshot and envelope; and the key of each such call has
    a record. *)
Theorem turn_at_most_once {S E} `{DedupeStoreLaws S} (te : TurnEngine E) st0 (st : system S E) :
  starts st0 → rtc (sys_step te) st0 st →
  let calls := w_calls (sys_world st) in
  let strict := filter (λ x, act_effect_class (xc_action x) ≠ IDEMPOTENT_WRITE) calls in
  NoDup (map call_key strict) ∧ Forall call_ok calls ∧
  ∀ x, x ∈ strict → is_Some (view (sys_world st) !! call_key x).
Proof.
  intros Hst Hr calls strict. destruct (sys_inv_reachable te _ _ Hst Hr) as [_ _ Hcalls Hcl].
  pose proof (claims_ok_app_l _ _ _ Hcl) as [Hnd Hpr Hdeg _ _ _].
  rewrite Forall_forall in Hcalls.
  assert (∀ x, x ∈ calls → cx_dedupe_available (xc_turn x) = false →
            act_effect_class (xc_action x) = IDEMPOTENT_WRITE) as Hd.
  { intros x Hx Hav. specialize (Hdeg (xc_turn x)). rewrite call_ok_effect in Hdeg by auto.
    assert (xc_turn x ∈ map xc_turn calls) as Hin by by apply list_elem_of_fmap_2.
    by injection (Hdeg Hin Hav). }
  split_and!.
  - rewrite map_call_key.
    + eapply sublist_NoDup; [exact Hnd|]. apply sublist_map, sublist_undegraded; [|done].
      by rewrite Forall_forall.
    + apply Forall_forall. intros x [_ Hx]%list_elem_of_filter. auto.
  - by rewrite Forall_forall.
  - intros x [He Hx]%list_elem_of_filter. rewrite call_ok_key by auto. apply Hpr.
    + by apply list_elem_of_fmap_2.
    + destruct (cx_dedupe_available (xc_turn x)) eqn:Hav; [done|]. by destruct He; auto.
Qed.

(** C2: over a store that is always available, no two executor calls carry
    the same idempotency key, whatever their effect class, and no two calls
    belong to the same (run id, action id, offset). *)
Theorem turn_exactly_once_per_offset {S E} `{DedupeStoreAvailable S} (te : TurnEngine E) st0
    (st : system S E) :
  starts st0 → rtc (sys_step te) st0 st →
  NoDup (map call_key (w_calls (sys_world st))) ∧
  NoDup (map (turn_legacy_key ∘ xc_turn) (w_calls (sys_world st))).
Proof.
  intros Hst Hr. destruct (sys_inv_reachable te _ _ Hst Hr) as [_ _ Hcalls Hcl].
  pose proof (claims_ok_app_l _ _ _ Hcl) as [Hnd _ _ Hall Hleg _].
  split.
  - rewrite map_call_key by done. by rewrite <- (undegraded_all (map xc_turn _)) by auto.
  - rewrite <- (map_map xc_turn turn_legacy_key). auto.
Qed.

(** ** Executable schedules

    A schedule names the steps; running it stays within [sys_step]. *)
Inductive choice :=
  | Spawn (i : TurnInput) (a : option Action)
  | Tick (n : nat)
  | Return (n : nat) (r : outcome pydict)
  | RestartProcess.

Section schedule.
Context {S E : Type} `{DedupeStorePort S} (te : TurnEngine E).

Definition put_task (w : world S E) (ts : list task) (n : nat) (t : task) : system S E :=
  Sys w (take n ts ++ t :: drop (Datatypes.S n) ts).

Definition run_choice (ch : choice) (st : system S E) : option (system S E) :=
  let w := sys_world st in
  let ts := sys_tasks st in
  match ch with
  | Spawn i a => Some (Sys w (ts ++ [Running ph_noop_or_reasoning (initial_context i a)]))
  | Tick n =>
      match ts !! n with
      | Some (Running ph_execute c) =>
          match execute_enter te c w with
          | (Ok _, w') => Some (put_task w' ts n (Waiting c))
          | _ => None
          end
      | Some (Running p c) =>
          let '(o, w') := run_phase te p c w in Some (put_task w' ts n (continue p o))
      | _ => None
      end
  | Return n r =>
      match ts !! n with
      | Some (Waiting c) =>
          let '(o, w') := execute_exit te c r w in
          Some (put_task w' ts n (continue ph_execute o))
      | _ => None
      end
  | RestartProcess => Some (Sys w [])
  end.

Fixpoint run_schedule (chs : list choice) (st : system S E) : option (system S E) :=
  match chs with
  | [] => Some st
  | ch :: chs' => st' ← run_choice ch st; run_schedule chs' st'
  end.

Lemma run_choice_step ch st st' : run_choice ch st = Some st' → sys_step te st st'.
Proof.
  destruct st as [w ts]. unfold run_choice, put_task. simpl.
  destruct ch as [i a|n|n r|]; intros Hr.
  - simplify_eq. constructor.
  - destruct (ts !! n) as [[p c|c|o]|] eqn:Hn; try done.
    rewrite <- (take_drop_middle ts n _ Hn) at 1.
    destruct (decide (p = ph_execute)) as [->|Hp].
    + destruct (execute_enter te c w) as [[x|e] w'] eqn:Hx; simplify_eq. by econstructor.
    + destruct (run_phase te p c w) as [o w'] eqn:Ho.
      assert (Some (put_task w' ts n (continue p o)) = Some st') as Hr'.
      { rewrite <- Hr. destruct p; by rewrite ?Ho. }
      simplify_eq. by constructor.
  - destruct (ts !! n) as [[p c|c|o]|] eqn:Hn; try done.
    rewrite <- (take_drop_middle ts n _ Hn) at 1.
    destruct (execute_exit te c r w) as [o w'] eqn:Ho. simplify_eq. by econstructor.
  - simplify_eq. constructor.
Qed.

Lemma run_schedule_reachable chs st st' :
  run_schedule chs st = Some st' → rtc (sys_step te) st st'.
Proof.
  revert st. induction chs as [|ch chs IH]; intros st Hr; simpl in *; [by simplify_eq|].
  destruct (run_choice ch st) as [st1|] eqn:H1; [|done]. simpl in Hr.
  eapply rtc_l; [by eapply run_choice_step|]. by apply IH.
Qed.
End schedule.

(** ** Two turns for one action *)
Definition example_start : system InMemoryDedupeStore.t unit := Sys example_world [].

(** Both turns run up to the executor in lock step; the first one wins the
    reservation, and its executor call is cancelled.  After a restart the
    action is tried again. *)
Definition example_schedule : list choice :=
  let spawn := Spawn example_turn_input (Some example_action) in
  [spawn; spawn] ++ flat_map (λ _, [Tick 0; Tick 1]) [1; 2; 3; 4; 5] ++
  [Tick 0; Return 0 (Raise (Exn CancelledError "")); RestartProcess; spawn] ++
  replicate 5 (Tick 0).

Definition example_end : system InMemoryDedupeStore.t unit :=
  default example_start (run_schedule example_engine example_schedule example_start).

Lemma example_reachable : rtc (sys_step example_engine) example_start example_end.
Proof.
  apply (run_schedule_reachable _ example_schedule). unfold example_end.
  assert (match run_schedule example_engine example_schedule example_start with
          | Some _ => true | None => false end = true) as Hr by (vm_compute; reflexivity).
  by destruct (run_schedule _ _ _).
Qed.

Lemma turn_at_most_once_witness :
  length (w_calls (sys_world example_end)) = 1 ∧
  NoDup (map call_key (filter (λ x, act_effect_class (xc_action x) ≠ IDEMPOTENT_WRITE)
                         (w_calls (sys_world example_end)))).
Proof.
  split; [vm_compute; reflexivity|].
  refine (proj1 (turn_at_most_once example_engine example_start example_end _ example_reachable)).
  split; [exact I|split; reflexivity].
Defined.

Lemma turn_exactly_once_per_offset_witness :
  length (w_calls (sys_world example_end)) = 1 ∧
  NoDup (map (turn_legacy_key ∘ xc_turn) (w_calls (sys_world example_end))).
Proof.
  split; [vm_compute; reflexivity|].
  refine (proj2 (turn_exactly_once_per_offset example_engine example_start example_end _
                   example_reachable)).
  split; [exact I|split; reflexivity].
Defined.
