(* ===== verification/EventLog.v ===== *)
(** * The runtime event log ([kernel/minimal_runtime.py])

    The append-only truth of a run: the port with its contract, and the
    in-memory log, which renumbers the events of each commit and evicts the
    oldest run when it holds too many. *)
From S2P Require Export Contracts.

Class EventLogPort (L : Type) := {
  el_append : ActionCommit → M L string;
  el_load : string → Z → M L (list RuntimeEvent)
}.

(** [event] as it is stored: renumbered, and without its [schema_version],
    which the constructor call leaves at the default. *)
Definition stored_event (event : RuntimeEvent) (offset : Z) : RuntimeEvent :=
  {| ev_run_id := ev_run_id event;
     ev_event_id := ev_event_id event;
     ev_commit_offset := offset;
     ev_event_type := ev_event_type event;
     ev_event_class := ev_event_class event;
     ev_event_authority := ev_event_authority event;
     ev_ordering_key := ev_ordering_key event;
     ev_wake_policy := ev_wake_policy event;
     ev_created_at := ev_created_at event;
     ev_idempotency_key := ev_idempotency_key event;
     ev_payload_ref := ev_payload_ref event;
     ev_payload_json := ev_payload_json event;
     ev_schema_version := "1" |}.

(** The loop that renumbers from [next_offset]. *)
Fixpoint renumber (next_offset : Z) (events : list RuntimeEvent) : list RuntimeEvent :=
  match events with
  | [] => []
  | event :: events' => stored_event event next_offset :: renumber (next_offset + 1) events'
  end.

(** [n], [n+1], ...: the offsets of a run's history. *)
Fixpoint consecutive (n : Z) (events : list RuntimeEvent) : Prop :=
  match events with
  | [] => True
  | event :: events' => ev_commit_offset event = n ∧ consecutive (n + 1) events'
  end.

Definition after (k : Z) (events : list RuntimeEvent) : list RuntimeEvent :=
  filter (λ e, (k < ev_commit_offset e)%Z) events.

(** The contract: a run's history is numbered 1, 2, ...; loading returns what
    lies after an offset; appending extends the history of the commit's run by
    its events, in the normal form the log's storage gives them.  A log may
    release the history of a whole run. *)
Class EventLogLaws (L : Type) `{EventLogPort L} := {
  el_ok : L → Prop;
  el_history : L → string → list RuntimeEvent;
  el_normal : RuntimeEvent → RuntimeEvent;
  law_numbered s run : el_ok s → consecutive 1 (el_history s run);
  law_load run k s : el_ok s →
    let '(o, s') := el_load run k s in
    el_ok s' ∧ (∀ r, el_history s' r = el_history s r) ∧
    ∀ events, o = Ok events → events = after k (el_history s run);
  law_append c s : el_ok s →
    match el_append c s with
    | (Ok _, s') =>
        el_ok s' ∧
        ∀ run, el_history s' run = [] ∨
          el_history s' run =
            el_history s run ++
            (if decide (run = cm_run_id c)
             then renumber (Z.of_nat (length (el_history s run)) + 1) (map el_normal (cm_events c))
             else [])
    | (Raise _, s') => el_ok s' ∧ ∀ run, el_history s' run = el_history s run
    end
}.

Lemma length_renumber n events : length (renumber n events) = length events.
Proof. revert n. induction events; intros n; simpl; [done|]. by f_equal. Qed.

Lemma consecutive_renumber n events : consecutive n (renumber n events).
Proof. revert n. induction events; intros n; simpl; [done|]. by split. Qed.

Lemma consecutive_app n l1 l2 :
  consecutive n (l1 ++ l2) ↔ consecutive n l1 ∧ consecutive (n + Z.of_nat (length l1)) l2.
Proof.
  revert n. induction l1 as [|e l1 IH]; intros n; simpl.
  - rewrite Z.add_0_r. tauto.
  - rewrite IH. replace (n + 1 + Z.of_nat (length l1))%Z
      with (n + Z.of_nat (S (length l1)))%Z by lia. tauto.
Qed.

Lemma consecutive_ge n l e : consecutive n l → e ∈ l → (n ≤ ev_commit_offset e)%Z.
Proof.
  revert n. induction l as [|e' l IH]; intros n; simpl; [by intros _ ?%elem_of_nil|].
  intros [<- Hl] [->|He]%elem_of_cons; [lia|]. specialize (IH _ Hl He). lia.
Qed.

Lemma after_all k l : (∀ e, e ∈ l → (k < ev_commit_offset e)%Z) → after k l = l.
Proof.
  unfold after. induction l as [|e l IH]; intros Hl; [done|].
  rewrite filter_cons_True by (apply Hl; by left). f_equal. apply IH. intros e' He'. apply Hl. by right.
Qed.

(** In a numbered history, what lies after the [k]-th event is the rest. *)
Lemma after_consecutive n k l :
  consecutive n l → after (n + k - 1) l = drop (Z.to_nat k) l.
Proof.
  revert n k. induction l as [|e l IH]; intros n k Hl; [by rewrite drop_nil|].
  destruct (decide (k ≤ 0)%Z) as [Hk|Hk].
  - replace (Z.to_nat k) with 0 by lia. apply after_all.
    intros e' He'. pose proof (consecutive_ge n _ e' Hl He'). lia.
  - destruct Hl as [He Hl]. unfold after. rewrite filter_cons_False by lia.
    replace (Z.to_nat k) with (S (Z.to_nat (k - 1))) by lia. simpl.
    rewrite <- (IH (n + 1)%Z (k - 1)%Z Hl). unfold after. by replace (n + 1 + (k - 1) - 1)%Z with (n + k - 1)%Z by lia.
Qed.

(** ** The in-memory log *)
Module InMemoryKernelRuntimeEventLog.
Record t := {
  _events_by_run : odict (list RuntimeEvent);
  _next_offset_by_run : odict Z;
  _commit_sequence : Z
}.

Definition _MAX_RETAINED_RUNS : nat := Z.to_nat 5000.

Definition __init__ : t :=
  {| _events_by_run := []; _next_offset_by_run := []; _commit_sequence := 0 |}.

(** The eviction of the first key, over the cap. *)
Definition evict (events_by_run : odict (list RuntimeEvent)) (next_offset_by_run : odict Z)
    : odict (list RuntimeEvent) * odict Z :=
  if _MAX_RETAINED_RUNS <? length events_by_run then
    match events_by_run with
    | [] => (events_by_run, next_offset_by_run)
    | (oldest, _) :: _ => (od_del oldest events_by_run, od_del oldest next_offset_by_run)
    end
  else (events_by_run, next_offset_by_run).

Definition append_action_commit (commit : ActionCommit) : M t string :=
  match cm_events commit with
  | [] => raise (Exn ValueError "ActionCommit.events must contain at least one event.")
  | events =>
      s ← gets id;
      let run_id := cm_run_id commit in
      let run_events := default [] (od_get run_id (_events_by_run s)) in
      let next_offset := default 1%Z (od_get run_id (_next_offset_by_run s)) in
      let events_by_run :=
        od_set run_id (run_events ++ renumber next_offset events) (_events_by_run s) in
      let next_offset_by_run :=
        od_set run_id (next_offset + Z.of_nat (length events))%Z (_next_offset_by_run s) in
      let sequence := (_commit_sequence s + 1)%Z in
      let '(events_by_run, next_offset_by_run) := evict events_by_run next_offset_by_run in
      modify (λ _, {| _events_by_run := events_by_run;
                      _next_offset_by_run := next_offset_by_run;
                      _commit_sequence := sequence |});;
      mret ("commit-ref-" +:+ pretty sequence)
  end.

Definition load (run_id : string) (after_offset : Z) : M t (list RuntimeEvent) :=
  gets (λ s, after after_offset (default [] (od_get run_id (_events_by_run s)))).

Definition cleanup_completed_run (run_id : string) : M t unit :=
  modify (λ s, {| _events_by_run := od_del run_id (_events_by_run s);
                  _next_offset_by_run := od_del run_id (_next_offset_by_run s);
                  _commit_sequence := _commit_sequence s |}).

#[global] Instance port : EventLogPort t :=
  {| el_append := append_action_commit; el_load := load |}.

(** *** The contract *)
Definition history (s : t) (run_id : string) : list RuntimeEvent :=
  default [] (od_get run_id (_events_by_run s)).

(** Both dictionaries hold the same runs, a run's events are numbered from 1,
    and its next offset follows the last one. *)
Record wf (s : t) : Prop := {
  wf_keys : NoDup (map fst (_events_by_run s));
  wf_next k : od_get k (_next_offset_by_run s) =
    (λ events, Z.of_nat (length events) + 1)%Z <$> od_get k (_events_by_run s);
  wf_numbered k events : od_get k (_events_by_run s) = Some events → consecutive 1 events;
  wf_cap : length (_events_by_run s) ≤ _MAX_RETAINED_RUNS
}.

(** The run that an append to run [k] evicts: the oldest one, when [k] is new
    and the log holds its cap of runs. *)
Definition victim (s : t) (k : string) : option string :=
  if decide (k ∉ map fst (_events_by_run s) ∧ length (_events_by_run s) = _MAX_RETAINED_RUNS)
  then head (map fst (_events_by_run s)) else None.

Lemma next_offset_history s k :
  wf s → default 1%Z (od_get k (_next_offset_by_run s)) = (Z.of_nat (length (history s k)) + 1)%Z.
Proof.
  intros Hwf. rewrite (wf_next s Hwf). unfold history. by destruct (od_get k (_events_by_run s)).
Qed.

Lemma history_numbered s k : wf s → consecutive 1 (history s k).
Proof.
  intros Hwf. unfold history. destruct (od_get k (_events_by_run s)) eqn:Hk; simpl; [|done].
  by apply (wf_numbered s Hwf k).
Qed.

Lemma od_get_head (k : string) (v : list RuntimeEvent) d : od_get k ((k, v) :: d) = Some v.
Proof. simpl. by rewrite decide_True. Qed.

Lemma length_od_set (k : string) (v : list RuntimeEvent) d :
  length (od_set k v d) ≤ S (length d).
Proof.
  rewrite <- (length_map fst (od_set k v d)), <- (length_map fst d), od_set_keys.
  case_decide; [lia|]. rewrite length_app. simpl. lia.
Qed.

Lemma NoDup_od_set (k : string) (v : list RuntimeEvent) d :
  NoDup (map fst d) → NoDup (map fst (od_set k v d)).
Proof.
  intros Hnd. rewrite od_set_keys. case_decide; [done|].
  apply NoDup_app. split_and!; [done|set_solver|apply NoDup_singleton].
Qed.

Lemma evict_cases d n d' n' :
  NoDup (map fst d) → length d ≤ S _MAX_RETAINED_RUNS → evict d n = (d', n') →
  length d' ≤ _MAX_RETAINED_RUNS ∧
  ((length d ≤ _MAX_RETAINED_RUNS ∧ d' = d ∧ n' = n) ∨
   ∃ oldest, _MAX_RETAINED_RUNS < length d ∧ head (map fst d) = Some oldest ∧
     d' = od_del oldest d ∧ n' = od_del oldest n).
Proof.
  unfold evict. generalize _MAX_RETAINED_RUNS as cap. intros cap Hnd Hlen.
  destruct (cap <? length d) eqn:Hc.
  - destruct d as [|[oldest v] d]; [by simpl in Hc; apply Nat.ltb_lt in Hc; lia|].
    apply Nat.ltb_lt in Hc. intros [= <- <-]. split; [|right; by exists oldest].
    assert (length (od_del oldest ((oldest, v) :: d)) ≤ length d) as Hd.
    { unfold od_del. rewrite filter_cons. simpl. rewrite decide_False by (by intros []).
      apply length_filter. }
    simpl in Hlen. lia.
  - intros [= <- <-]. apply Nat.ltb_ge in Hc. split; [done|by left].
Qed.

Lemma cap_positive : 0 < _MAX_RETAINED_RUNS.
Proof. unfold _MAX_RETAINED_RUNS. lia. Qed.

Lemma victim_other s k : wf s → victim s k ≠ Some k.
Proof.
  intros Hwf. unfold victim. case_decide as Hd; [|done]. destruct Hd as [Hk _].
  intros Hh. apply Hk. apply list_elem_of_In. destruct (map fst (_events_by_run s)); [done|].
  injection Hh as ->. by left.
Qed.

(** The eviction that follows the insertion of [k] removes the victim. *)
Lemma evict_victim s k v n d' n' :
  wf s → evict (od_set k v (_events_by_run s)) n = (d', n') →
  length d' ≤ _MAX_RETAINED_RUNS ∧
  match victim s k with
  | Some oldest => d' = od_del oldest (od_set k v (_events_by_run s)) ∧ n' = od_del oldest n
  | None => d' = od_set k v (_events_by_run s) ∧ n' = n
  end.
Proof.
  intros Hwf Hev. pose proof (wf_cap s Hwf) as Hcap. pose proof cap_positive as Hpos.
  pose proof (length_od_set k v (_events_by_run s)) as Hlen.
  destruct (evict_cases _ _ _ _ (NoDup_od_set k v _ (wf_keys s Hwf)) ltac:(lia) Hev)
    as [Hcap' Hcases].
  split; [done|]. revert Hcases. unfold victim.
  rewrite <- (length_map fst (od_set k v (_events_by_run s))), od_set_keys.
  rewrite <- (length_map fst (_events_by_run s)) in *.
  generalize dependent (map fst (_events_by_run s)). intros keys Hcap1 Hlen1.
  destruct (decide (k ∈ keys)) as [Hk|Hk].
  { rewrite decide_False by (by intros []). intros [(_ & ? & ?)|(o & ? & _)]; [done|lia]. }
  rewrite length_app. simpl. case_decide as Hd.
  - destruct Hd as [_ Hd]. intros [(? & _)|(o & _ & Ho & -> & ->)]; [lia|].
    destruct keys as [|o' keys]; [simpl in Hd; lia|]. simpl in *. by injection Ho as ->.
  - intros [(_ & ? & ?)|(o & ? & _)]; [done|]. destruct Hd. split; [done|lia].
Qed.

(** What one append does to the histories. *)
Lemma append_spec c s :
  wf s → cm_events c ≠ [] →
  ∃ ref s', append_action_commit c s = (Ok ref, s') ∧ wf s' ∧
    _commit_sequence s' = (_commit_sequence s + 1)%Z ∧
    ∀ run, history s' run =
      if decide (victim s (cm_run_id c) = Some run) then []
      else history s run ++
        (if decide (run = cm_run_id c)
         then renumber (Z.of_nat (length (history s run)) + 1) (cm_events c) else []).
Proof.
  intros Hwf Hne. unfold append_action_commit. destruct (cm_events c) as [|e es] eqn:Hes; [done|].
  rewrite <- Hes. unfold gets, mbind, M_bind. cbn beta iota zeta. change (@id t s) with s.
  set (k := cm_run_id c). set (h := history s k).
  rewrite (next_offset_history s k Hwf). fold (history s k). fold h.
  set (d := od_set k (h ++ renumber _ _) (_events_by_run s)).
  set (n := od_set k _ (_next_offset_by_run s)).
  destruct (evict d n) as [d' n'] eqn:Hev.
  destruct (evict_victim s k _ n d' n' Hwf Hev) as [Hcap Hcases]. fold d in Hcases.
  assert (∀ r, od_get r n = (λ events, Z.of_nat (length events) + 1)%Z <$> od_get r d) as Hn.
  { intros r. unfold n, d. rewrite !od_get_set. case_decide; [|by apply wf_next].
    simpl. rewrite length_app, length_renumber. f_equal. lia. }
  assert (∀ r ev, od_get r d = Some ev → consecutive 1 ev) as Hd.
  { intros r ev. unfold d. rewrite od_get_set. case_decide; [|by apply wf_numbered].
    intros [= <-]. rewrite consecutive_app. split; [by apply history_numbered|].
    rewrite Z.add_comm. apply consecutive_renumber. }
  do 2 eexists. split; [done|]. split; [|split; [done|]].
  - split; simpl; [| | |done].
    + destruct (victim s k); destruct Hcases as [-> ->]; [|by apply NoDup_od_set, wf_keys].
      rewrite od_del_keys. by apply NoDup_filter, NoDup_od_set, wf_keys.
    + intros r. destruct (victim s k); destruct Hcases as [-> ->]; [|apply Hn].
      rewrite !od_get_del. by case_decide.
    + intros r ev. destruct (victim s k); destruct Hcases as [-> ->]; [|by apply Hd].
      rewrite od_get_del. case_decide; [done|by apply Hd].
  - intros r. change (history (Build_t d' n' _) r) with (default [] (od_get r d')).
    assert (default [] (od_get r d) = history s r ++ (if decide (r = k)
      then renumber (Z.of_nat (length (history s r)) + 1) (cm_events c) else [])) as Hdr.
    { unfold d. rewrite od_get_set. case_decide as Hr; [by subst r|by rewrite app_nil_r]. }
    destruct (victim s k) as [o|] eqn:Ho; destruct Hcases as [-> _].
    + rewrite od_get_del. repeat case_decide; simplify_eq; done.
    + by rewrite decide_False.
Qed.

Lemma load_spec run k s : load run k s = (Ok (after k (history s run)), s).
Proof. done. Qed.

#[global] Program Instance laws : EventLogLaws t :=
  {| el_ok := wf; el_history := history; el_normal := id |}.
Next Obligation. intros. by apply history_numbered. Qed.
Next Obligation. intros run k s Hs. split_and!; [done|done|]. by intros events [= <-]. Qed.
Next Obligation.
  intros c s Hwf. cbn. destruct (cm_events c) as [|e es] eqn:Hes.
  - unfold append_action_commit. by rewrite Hes.
  - destruct (append_spec c s Hwf) as (ref & s' & -> & Hwf' & _ & Hh); [by rewrite Hes|].
    rewrite <- Hes, map_id. split; [done|]. intros r. rewrite Hh. case_decide; [by left|by right].
Qed.

Lemma wf_init : wf __init__.
Proof. split; simpl; [constructor|done|done|lia]. Qed.

Lemma wf_cleanup r s : wf s → wf (cleanup_completed_run r s).2.
Proof.
  intros Hwf. split; simpl.
  - rewrite od_del_keys. by apply NoDup_filter, wf_keys.
  - intros k. rewrite !od_get_del. case_decide; [done|by apply wf_next].
  - intros k ev. rewrite od_get_del. case_decide; [done|by apply wf_numbered].
  - etrans; [apply length_filter|by apply wf_cap].
Qed.
End InMemoryKernelRuntimeEventLog.

(** ** The in-memory log over time *)
Inductive log_op := OpAppend (c : ActionCommit) | OpCleanup (run_id : string).

Definition run_log_op (op : log_op) (s : InMemoryKernelRuntimeEventLog.t)
    : InMemoryKernelRuntimeEventLog.t :=
  match op with
  | OpAppend c => (InMemoryKernelRuntimeEventLog.append_action_commit c s).2
  | OpCleanup run_id => (InMemoryKernelRuntimeEventLog.cleanup_completed_run run_id s).2
  end.

Definition run_log (ops : list log_op) : InMemoryKernelRuntimeEventLog.t :=
  fold_left (λ s op, run_log_op op s) ops InMemoryKernelRuntimeEventLog.__init__.

Lemma run_log_wf ops : InMemoryKernelRuntimeEventLog.wf (run_log ops).
Proof.
  unfold run_log. generalize InMemoryKernelRuntimeEventLog.wf_init.
  generalize InMemoryKernelRuntimeEventLog.__init__.
  induction ops as [|op ops IH]; intros s Hs; simpl; [done|]. apply IH.
  destruct op as [c|r]; simpl; [|by apply InMemoryKernelRuntimeEventLog.wf_cleanup].
  destruct (decide (cm_events c = [])) as [Hc|Hc].
  - unfold InMemoryKernelRuntimeEventLog.append_action_commit. by rewrite Hc.
  - by destruct (InMemoryKernelRuntimeEventLog.append_spec c s Hs Hc) as (ref & s' & -> & ? & _).
Qed.

(** After any history of appends and clean-ups the in-memory log is well
    formed (each run numbered 1, 2, ..., at most the cap of runs, the next
    offset after the last event).  A non-empty commit is then always accepted:
    loading its run after the old length returns exactly the commit's events,
    renumbered from there in order, and every other run is unchanged, except
    that the oldest run is dropped when the commit's run is new and the log
    already holds the cap of runs; an empty commit raises ValueError and
    changes nothing. *)
Theorem event_log_append_load ops c :
  let s := run_log ops in
  let len r := Z.of_nat (length (InMemoryKernelRuntimeEventLog.history s r)) in
  InMemoryKernelRuntimeEventLog.wf s ∧
  match InMemoryKernelRuntimeEventLog.append_action_commit c s with
  | (Ok _, s') =>
      cm_events c ≠ [] ∧
      (InMemoryKernelRuntimeEventLog.load (cm_run_id c) (len (cm_run_id c)) s').1 =
        Ok (renumber (len (cm_run_id c) + 1) (cm_events c)) ∧
      ∀ r, r ≠ cm_run_id c →
        InMemoryKernelRuntimeEventLog.history s' r =
          if decide (InMemoryKernelRuntimeEventLog.victim s (cm_run_id c) = Some r) then []
          else InMemoryKernelRuntimeEventLog.history s r
  | (Raise e, s') => cm_events c = [] ∧ exn_cls e = ValueError ∧ s' = s
  end.
Proof.
  intros s len. pose proof (run_log_wf ops) as Hwf. fold s in Hwf. split; [done|].
  destruct (decide (cm_events c = [])) as [Hc|Hc].
  { unfold InMemoryKernelRuntimeEventLog.append_action_commit. by rewrite Hc. }
  destruct (InMemoryKernelRuntimeEventLog.append_spec c s Hwf Hc) as (ref & s' & -> & _ & _ & Hh).
  split_and!; [done| |].
  - pose proof (Hh (cm_run_id c)) as Hr.
    rewrite decide_False in Hr by (by apply InMemoryKernelRuntimeEventLog.victim_other).
    rewrite decide_True in Hr by done.
    rewrite InMemoryKernelRuntimeEventLog.load_spec. simpl. f_equal. rewrite Hr.
    fold (len (cm_run_id c)).
    replace (len (cm_run_id c)) with (1 + len (cm_run_id c) - 1)%Z at 1 by lia.
    rewrite after_consecutive.
    + unfold len at 1. by rewrite Nat2Z.id, drop_app_length.
    + apply consecutive_app. split; [by apply InMemoryKernelRuntimeEventLog.history_numbered|].
      fold (len (cm_run_id c)). rewrite Z.add_comm. apply consecutive_renumber.
  - intros r Hr. rewrite (Hh r). case_decide; [done|]. by rewrite decide_False, app_nil_r.
Qed.
