(* ===== verification/Projection.v ===== *)
(** * The decision projection ([kernel/minimal_runtime.py])

    A run's decision state is a fold of its event history.  The service keeps
    one cached projection per run and replays only what it has not seen. *)
From S2P Require Export EventLog.

(** ** Transitions *)
Definition transition : Type := RunLifecycleState * bool * bool * option string.

Definition _STATIC_EVENT_TRANSITIONS : odict transition :=
  [ ("run.created", (created, false, false, None));
    ("run.ready", (ready, false, true, None));
    ("run.resume_requested", (recovering, false, false, Some "static_compensation"));
    ("run.cancel_requested", (aborted, false, false, Some "abort"));
    ("run.recovery_succeeded", (ready, false, true, None));
    ("run.recovery_aborted", (aborted, false, false, Some "abort"));
    ("run.waiting_external", (waiting_external, true, false, Some "human_escalation"));
    ("run.dispatching", (dispatching, false, true, None));
    ("run.recovering", (recovering, false, false, Some "static_compensation"));
    ("run.completed", (completed, false, false, None));
    ("run.aborted", (aborted, false, false, Some "abort")) ].

Inductive operational_class := op_external_callback | op_timeout | op_hard_failure | op_cancel.

(** [_OPERATIONAL_PRIORITY_RANK]. *)
Definition _OPERATIONAL_PRIORITY_RANK (c : operational_class) : nat :=
  match c with
  | op_external_callback => 1
  | op_timeout => 2
  | op_hard_failure => 3
  | op_cancel => 4
  end.

Definition _default_projection (run_id : string) : RunProjection :=
  {| pj_run_id := run_id; pj_lifecycle_state := created; pj_projected_offset := 0;
     pj_waiting_external := false; pj_ready_for_dispatch := false;
     pj_current_action_id := None; pj_recovery_mode := None; pj_recovery_reason := None;
     pj_active_child_runs := []; pj_policy_versions := None; pj_task_contract_ref := None |}.

Definition _is_cancel_reason (reason : option string) : bool :=
  match reason with
  | None | Some "" => false
  | Some r => py_contains "cancel" (py_lower r)
  end.

Definition _projection_operational_priority (projection : RunProjection)
    : option operational_class :=
  match pj_lifecycle_state projection with
  | aborted =>
      if _is_cancel_reason (pj_recovery_reason projection) then Some op_cancel
      else Some op_hard_failure
  | waiting_external => Some op_timeout
  | _ => None
  end.

Definition _event_operational_priority (event_type : string) : option operational_class :=
  if decide (event_type = "run.cancel_requested") then Some op_cancel
  else if decide (event_type ∈ ["run.recovery_aborted"; "run.aborted"]) then Some op_hard_failure
  else if decide (event_type ∈ ["run.waiting_external"; "reconcile.failed"]) then Some op_timeout
  else if decide (event_type ∈ ["signal.external_callback"; "signal.callback"])
       then Some op_external_callback
  else None.

Definition _is_lower_priority_operational_conflict (projection : RunProjection)
    (event : RuntimeEvent) : bool :=
  match _projection_operational_priority projection,
        _event_operational_priority (ev_event_type event) with
  | Some current_priority, Some incoming_priority =>
      _OPERATIONAL_PRIORITY_RANK incoming_priority <? _OPERATIONAL_PRIORITY_RANK current_priority
  | _, _ => false
  end.

Definition _derive_recovery_reason (event : RuntimeEvent) (fallback : option string)
    : option string :=
  match py_get "reason" (default [] (ev_payload_json event)) with
  | PStr reason_value => Some reason_value
  | _ =>
      if decide (ev_event_type event ∈ ["run.ready"; "run.completed"; "run.created"])
      then None else fallback
  end.

Definition _derive_cancel_reason (event : RuntimeEvent) (fallback : option string) : string :=
  default "cancel_requested" (_derive_recovery_reason event fallback).

Definition _resolve_dynamic_transition (event_type : string) : option transition :=
  if decide (event_type ∈ ["signal.child_spawned"; "signal.child_completed";
                           "signal.child_run_completed"]) then None
  else if py_startswith event_type "signal." then Some (ready, false, true, None)
  else None.

Definition _projection_unchanged_state (p : RunProjection) : transition * option string :=
  (pj_lifecycle_state p, pj_waiting_external p, pj_ready_for_dispatch p, pj_recovery_mode p,
   pj_recovery_reason p).

Definition _resolve_projection_transition (projection : RunProjection) (event : RuntimeEvent)
    : transition * option string :=
  let blocked_by_terminal_or_priority :=
    bool_decide (pj_lifecycle_state projection = completed)
    || _is_lower_priority_operational_conflict projection event
    || bool_decide (pj_lifecycle_state projection = aborted ∧
                    ev_event_type event ≠ "run.cancel_requested") in
  if blocked_by_terminal_or_priority then _projection_unchanged_state projection
  else if decide (ev_event_type event = "run.cancel_requested") then
    ((aborted, false, false, Some "abort"),
     Some (_derive_cancel_reason event (pj_recovery_reason projection)))
  else if decide (ev_event_type event = "reconcile.failed") then
    ((waiting_external, true, false, Some "human_escalation"),
     _derive_recovery_reason event (pj_recovery_reason projection))
  else
    match od_get (ev_event_type event) _STATIC_EVENT_TRANSITIONS with
    | Some static_transition =>
        (static_transition, _derive_recovery_reason event (pj_recovery_reason projection))
    | None =>
        match _resolve_dynamic_transition (ev_event_type event) with
        | Some dynamic_transition => (dynamic_transition, pj_recovery_reason projection)
        | None => _projection_unchanged_state projection
        end
    end.

(** ** Child runs *)
Definition _extract_child_run_id (event : RuntimeEvent) : option string :=
  match py_get "child_run_id" (default [] (ev_payload_json event)) with
  | PStr s => if decide (s = "") then None else Some s
  | _ => None
  end.

Definition spawn_types : list string := ["run.child_spawned"; "signal.child_spawned"].
Definition completion_types : list string :=
  ["run.child_completed"; "run.child_run_completed"; "signal.child_completed";
   "signal.child_run_completed"].

Definition _resolve_active_child_runs (projection : RunProjection) (event : RuntimeEvent)
    : list string :=
  if decide (pj_lifecycle_state projection ∈ [aborted; completed])
  then pj_active_child_runs projection
  else
    match _extract_child_run_id event with
    | None => pj_active_child_runs projection
    | Some child_run_id =>
        if decide (ev_event_type event ∈ spawn_types) then
          if decide (child_run_id ∈ pj_active_child_runs projection)
          then pj_active_child_runs projection
          else pj_active_child_runs projection ++ [child_run_id]
        else if decide (ev_event_type event ∈ completion_types) then
          filter (λ run_id, run_id ≠ child_run_id) (pj_active_child_runs projection)
        else pj_active_child_runs projection
    end.

(** ** Replay *)
Definition _apply_projection_event (projection : RunProjection) (event : RuntimeEvent)
    : RunProjection :=
  let '(lifecycle_state, waiting, ready_for_dispatch, recovery_mode, recovery_reason) :=
    _resolve_projection_transition projection event in
  {| pj_run_id := pj_run_id projection;
     pj_lifecycle_state := lifecycle_state;
     pj_projected_offset := ev_commit_offset event;
     pj_waiting_external := waiting;
     pj_ready_for_dispatch := ready_for_dispatch;
     pj_current_action_id := pj_current_action_id projection;
     pj_recovery_mode := recovery_mode;
     pj_recovery_reason := recovery_reason;
     pj_active_child_runs := _resolve_active_child_runs projection event;
     pj_policy_versions := None;
     pj_task_contract_ref := None |}.

Definition _validate_projection_authority_input (event : RuntimeEvent)
    (reject_derived_diagnostic_authority_input : bool) : bool :=
  negb (reject_derived_diagnostic_authority_input &&
        bool_decide (ev_event_authority event = derived_diagnostic)).

(** ** The service *)
Record projection_config := {
  _reject_derived_diagnostic_authority_input : bool;
  (** [EventSchemaMigrator.migrate], an injected collaborator *)
  _event_schema_migrator : option (RuntimeEvent → string → outcome RuntimeEvent);
  _target_event_schema_version : option string
}.

Record projection_service (L : Type) := {
  ps_event_log : L;
  _projection_by_run : gmap string RunProjection
}.
Arguments Build_projection_service {L}.
Arguments ps_event_log {L}.
Arguments _projection_by_run {L}.

Section service.
Context {L : Type} `{EventLogPort L} (cfg : projection_config).

Definition _maybe_migrate_event (event : RuntimeEvent) : outcome RuntimeEvent :=
  match _event_schema_migrator cfg, _target_event_schema_version cfg with
  | Some migrate, Some target => migrate event target
  | _, _ => Ok event
  end.

(** The loop over the unseen events, up to [through_offset] where given. *)
Fixpoint replay_loop (through_offset : option Z) (events : list RuntimeEvent)
    (projection : RunProjection) : outcome RunProjection :=
  match events with
  | [] => Ok projection
  | event :: events' =>
      if match through_offset with
         | Some t => (t <? ev_commit_offset event)%Z
         | None => false
         end
      then Ok projection
      else
        event' ← _maybe_migrate_event event;
        if _validate_projection_authority_input event'
             (_reject_derived_diagnostic_authority_input cfg)
        then replay_loop through_offset events' (_apply_projection_event projection event')
        else replay_loop through_offset events' projection
  end.

Definition on_log {A} (m : M L A) : M (projection_service L) A :=
  zoom ps_event_log (λ l s, Build_projection_service l (_projection_by_run s)) m.

(** [catch_up] and [get] differ in the bound only; each holds the run's lock
    throughout, so that it is one step. *)
Definition project (run_id : string) (through_offset : option Z)
    : M (projection_service L) RunProjection :=
  cached ← gets (λ s, _projection_by_run s !! run_id);
  let projection := default (_default_projection run_id) cached in
  unseen_events ← on_log (el_load run_id (pj_projected_offset projection));
  projection ← lift (replay_loop through_offset unseen_events projection);
  modify (λ s, Build_projection_service (ps_event_log s)
                 (<[run_id := projection]> (_projection_by_run s)));;
  mret projection.

Definition catch_up (run_id : string) (through_offset : Z) : M (projection_service L) RunProjection :=
  project run_id (Some through_offset).

Definition get (run_id : string) : M (projection_service L) RunProjection :=
  project run_id None.

Definition readiness (run_id : string) (required_offset : Z) : M (projection_service L) bool :=
  projection ← get run_id;
  mret (required_offset <=? pj_projected_offset projection)%Z.
End service.

(** ** The projection as a state machine *)
Definition apply_all (p : RunProjection) (events : list RuntimeEvent) : RunProjection :=
  fold_left _apply_projection_event events p.

(** The flags of a projection are a function of its lifecycle state. *)
Definition flags_of (st : RunLifecycleState) : bool * bool * option string :=
  match st with
  | ready | dispatching => (false, true, None)
  | recovering => (false, false, Some "static_compensation")
  | waiting_external => (true, false, Some "human_escalation")
  | aborted => (false, false, Some "abort")
  | created | waiting_result | completed | failed => (false, false, None)
  end.

Record projection_ok (p : RunProjection) : Prop := {
  po_flags : (pj_waiting_external p, pj_ready_for_dispatch p, pj_recovery_mode p) =
             flags_of (pj_lifecycle_state p);
  po_state : pj_lifecycle_state p ∉ [waiting_result; failed];
  po_children : NoDup (pj_active_child_runs p);
  po_children_named : "" ∉ pj_active_child_runs p
}.

(** A transition with the flags of its state. *)
Definition transition_ok (t : transition) : Prop :=
  let '(st, waiting, ready_for_dispatch, mode) := t in
  (waiting, ready_for_dispatch, mode) = flags_of st ∧ st ∉ [waiting_result; failed].

Lemma static_transition_ok k t : od_get k _STATIC_EVENT_TRANSITIONS = Some t → transition_ok t.
Proof.
  unfold _STATIC_EVENT_TRANSITIONS. cbn [od_get]. intros H.
  repeat (case_decide; [injection H as <-; by vm_compute; set_solver|]). done.
Qed.

Lemma dynamic_transition_ok k t : _resolve_dynamic_transition k = Some t → transition_ok t.
Proof.
  unfold _resolve_dynamic_transition. intros H. case_decide; [done|].
  destruct (py_startswith _ _); [|done]. injection H as <-. split; [done|set_solver].
Qed.

Lemma resolve_transition_ok p e :
  projection_ok p → transition_ok (_resolve_projection_transition p e).1.
Proof.
  intros [Hf Hs _ _]. assert (transition_ok (_projection_unchanged_state p).1) as Hun by done.
  unfold _resolve_projection_transition. destruct (_ || _); [done|].
  repeat case_decide; try (split; [done|set_solver]).
  destruct (od_get _ _) eqn:Hst; [by eapply static_transition_ok|].
  destruct (_resolve_dynamic_transition _) eqn:Hdy; [by eapply dynamic_transition_ok|done].
Qed.

Lemma child_runs_ok p e :
  NoDup (pj_active_child_runs p) → "" ∉ pj_active_child_runs p →
  NoDup (_resolve_active_child_runs p e) ∧ "" ∉ _resolve_active_child_runs p e.
Proof.
  intros Hnd Hne. unfold _resolve_active_child_runs. case_decide; [done|].
  destruct (_extract_child_run_id e) as [c|] eqn:Hc; [|done].
  assert (c ≠ "") as Hc'.
  { unfold _extract_child_run_id in Hc. repeat case_match; by simplify_eq. }
  repeat case_decide; try done.
  - split; [|set_solver]. apply NoDup_app. split_and!; [done|set_solver|apply NoDup_singleton].
  - split; [by apply NoDup_filter|]. by intros [_ ?]%list_elem_of_filter.
Qed.

Lemma projection_ok_step p e : projection_ok p → projection_ok (_apply_projection_event p e).
Proof.
  intros Hp. pose proof (resolve_transition_ok p e Hp) as Ht. destruct (Hp) as [_ _ Hnd Hne].
  pose proof (child_runs_ok p e Hnd Hne) as [Hnd' Hne'].
  unfold _apply_projection_event.
  destruct (_resolve_projection_transition p e) as [[[[st w] r] m] reason].
  destruct Ht. by split.
Qed.

Lemma projection_ok_default run : projection_ok (_default_projection run).
Proof. split; simpl; try done; [set_solver|constructor|set_solver]. Qed.

(** Terminal states absorb every event: only a further cancel request may
    still change the reason of an aborted run. *)
Lemma terminal_step p e :
  pj_lifecycle_state p ∈ [completed; aborted] → projection_ok p →
  let p' := _apply_projection_event p e in
  pj_lifecycle_state p' = pj_lifecycle_state p ∧
  pj_active_child_runs p' = pj_active_child_runs p ∧
  (pj_recovery_reason p' = pj_recovery_reason p ∨
   (pj_lifecycle_state p = aborted ∧ ev_event_type e = "run.cancel_requested")).
Proof.
  intros Hst Hok p'. unfold p', _apply_projection_event, _resolve_projection_transition,
    _resolve_active_child_runs.
  set_unfold in Hst. destruct Hst as [Hst|[Hst|[]]]; rewrite Hst.
  - rewrite bool_decide_true by done. simpl. auto.
  - rewrite (bool_decide_false (aborted = completed)) by done.
    rewrite (decide_True (P := aborted ∈ _)) by set_solver. simpl.
    destruct (_is_lower_priority_operational_conflict p e); simpl; [auto|].
    case_bool_decide as Hc; simpl; [auto|].
    assert (ev_event_type e = "run.cancel_requested") as He
      by (apply dec_stable; naive_solver).
    rewrite decide_True by done. simpl. auto.
Qed.

(** ** Operational precedence *)
Definition severity (st : RunLifecycleState) : nat :=
  match st with aborted => 3 | waiting_external => 2 | _ => 0 end.

(** The severity of an operational event: hard failure and cancel share one,
    since both abort the run. *)
Definition event_severity (e : RuntimeEvent) : option nat :=
  Nat.min 3 ∘ _OPERATIONAL_PRIORITY_RANK <$> _event_operational_priority (ev_event_type e).

Definition state_of_severity (n : nat) : RunLifecycleState :=
  match n with 0 | 1 => ready | 2 => waiting_external | _ => aborted end.

(** The state an operational event leads to from [st]. *)
Definition precede (st : RunLifecycleState) (n : nat) : RunLifecycleState :=
  if decide (st = completed) then completed else state_of_severity (severity st `max` n).

Lemma operational_types e c :
  _event_operational_priority (ev_event_type e) = Some c →
  match c with
  | op_cancel => ev_event_type e = "run.cancel_requested"
  | op_hard_failure => ev_event_type e ∈ ["run.recovery_aborted"; "run.aborted"]
  | op_timeout => ev_event_type e ∈ ["run.waiting_external"; "reconcile.failed"]
  | op_external_callback => ev_event_type e ∈ ["signal.external_callback"; "signal.callback"]
  end.
Proof.
  unfold _event_operational_priority. intros H. repeat case_decide; by simplify_eq.
Qed.

(** The unblocked transition of an operational event. *)
Lemma operational_target p e c :
  _event_operational_priority (ev_event_type e) = Some c →
  pj_lifecycle_state p ≠ completed →
  _is_lower_priority_operational_conflict p e = false →
  (pj_lifecycle_state p = aborted → ev_event_type e = "run.cancel_requested") →
  (_resolve_projection_transition p e).1.1.1.1 =
    state_of_severity (Nat.min 3 (_OPERATIONAL_PRIORITY_RANK c)).
Proof.
  intros Hc Hst Hlow Hab. apply operational_types in Hc.
  unfold _resolve_projection_transition. rewrite Hlow, bool_decide_false by done.
  rewrite bool_decide_false by naive_solver. simpl.
  destruct c; set_unfold in Hc; destruct_or?; simplify_eq;
    repeat match goal with H : ev_event_type _ = _ |- _ => rewrite H; clear H end; vm_compute;
    by try destruct (pj_lifecycle_state p).
Qed.

Lemma precede_step p e n :
  event_severity e = Some n →
  pj_lifecycle_state (_apply_projection_event p e) = precede (pj_lifecycle_state p) n.
Proof.
  unfold event_severity. intros (c & Hc & ->)%fmap_Some. unfold precede, compose.
  assert (pj_lifecycle_state (_apply_projection_event p e) =
          (_resolve_projection_transition p e).1.1.1.1) as ->.
  { unfold _apply_projection_event.
    by destruct (_resolve_projection_transition p e) as [[[[? ?] ?] ?] ?]. }
  case_decide as Hst.
  { unfold _resolve_projection_transition. by rewrite bool_decide_true. }
  destruct (_is_lower_priority_operational_conflict p e) eqn:Hlow.
  - unfold _resolve_projection_transition. rewrite Hlow, orb_true_r. simpl.
    revert Hlow. unfold _is_lower_priority_operational_conflict, _projection_operational_priority.
    rewrite Hc. destruct (pj_lifecycle_state p), c; simpl; done.
  - destruct (decide (pj_lifecycle_state p = aborted ∧ ev_event_type e ≠ "run.cancel_requested"))
      as [[Ha Hne]|Hab].
    + unfold _resolve_projection_transition.
      rewrite (bool_decide_true (pj_lifecycle_state p = aborted ∧ _)) by done.
      rewrite !orb_true_r. simpl. rewrite Ha. simpl.
      by destruct c.
    + rewrite (operational_target p e c Hc Hst Hlow)
        by (intros ?; apply dec_stable; intros ?; by apply Hab).
      revert Hlow Hab. unfold _is_lower_priority_operational_conflict,
        _projection_operational_priority. rewrite Hc.
      pose proof (operational_types e c Hc) as Ht.
      destruct (pj_lifecycle_state p), c; simpl; try done; intros Hlow Hab; exfalso; apply Hab;
        (split; [done|]); intros Heq; rewrite Heq in Ht; set_solver.
Qed.

Lemma precede_max st n m : precede (precede st n) m = precede st (n `max` m).
Proof.
  unfold precede. destruct (decide (st = completed)) as [->|Hst]; [done|].
  destruct st, n as [|[|[|n]]], m as [|[|[|m]]]; simpl; try done.
Qed.

Lemma precede_fold p events ns :
  Forall2 (λ e n, event_severity e = Some n) events ns →
  pj_lifecycle_state (apply_all p events) =
  match ns with
  | [] => pj_lifecycle_state p
  | _ => precede (pj_lifecycle_state p) (foldr Nat.max 0 ns)
  end.
Proof.
  intros Hns. revert p. induction Hns as [|e n events ns He Hns IH]; intros p; [done|].
  unfold apply_all in *. simpl. rewrite IH, (precede_step p e n He).
  destruct ns; simpl; [by rewrite Nat.max_0_r|]. by rewrite precede_max.
Qed.

#[export] Instance foldr_max_perm : Proper (Permutation ==> eq) (foldr Nat.max 0).
Proof.
  intros l1 l2. induction 1 as [| |x y l|]; simpl; [done|by f_equal|lia|congruence].
Qed.

Lemma severities events :
  Forall (λ e, is_Some (event_severity e)) events →
  Forall2 (λ e n, event_severity e = Some n) events (map (default 0 ∘ event_severity) events).
Proof.
  induction 1 as [|e events [n Hn] _ IH]; simpl; constructor; [|done]. unfold compose. by rewrite Hn.
Qed.

(** ** Replay *)
Section replay.
Context {L : Type} `{EventLogLaws L} (cfg : projection_config).

(** The migrator keeps an event's place in the run. *)
Definition migrator_keeps_offset : Prop :=
  ∀ e e', _maybe_migrate_event cfg e = Ok e' → ev_commit_offset e' = ev_commit_offset e.

Definition replay (run_id : string) (events : list RuntimeEvent) : outcome RunProjection :=
  replay_loop cfg None events (_default_projection run_id).

Lemma replay_loop_app l1 l2 p :
  replay_loop cfg None (l1 ++ l2) p = (p' ← replay_loop cfg None l1 p; replay_loop cfg None l2 p').
Proof.
  revert p. induction l1 as [|e l1 IH]; intros p; [done|]. cbn [replay_loop app].
  destruct (_maybe_migrate_event cfg e) as [e'|x]; simpl; [|done]. case_match; apply IH.
Qed.

Hypothesis Hmig : migrator_keeps_offset.

(** Replaying, from the result, what lies after the result's own offset
    changes nothing: those events were skipped. *)
Lemma replay_loop_rest n l p0 p :
  consecutive n l → (pj_projected_offset p0 < n)%Z → replay_loop cfg None l p0 = Ok p →
  (pj_projected_offset p0 ≤ pj_projected_offset p)%Z ∧
  replay_loop cfg None (after (pj_projected_offset p) l) p = Ok p.
Proof.
  revert n p0. induction l as [|e l IH]; intros n p0; [by intros _ _ [= <-]|].
  intros [He Hl] Hp0. cbn [replay_loop].
  destruct (_maybe_migrate_event cfg e) as [e'|x] eqn:Hm; simpl; [|done].
  pose proof (Hmig e e' Hm) as Hoff. unfold after. rewrite filter_cons.
  destruct (_validate_projection_authority_input e' _) eqn:Hval; intros Hr.
  - apply (IH (n + 1)%Z) in Hr as [Hle Hrest]; [|done|].
    2:{ unfold _apply_projection_event. destruct (_resolve_projection_transition p0 e') as [[[[? ?] ?] ?] ?]. simpl. lia. }
    assert (pj_projected_offset (_apply_projection_event p0 e') = n) as Hn.
    { unfold _apply_projection_event. destruct (_resolve_projection_transition p0 e') as [[[[? ?] ?] ?] ?]. simpl. lia. }
    rewrite decide_False by lia. split; [lia|done].
  - apply (IH (n + 1)%Z) in Hr as [Hle Hrest]; [|done|lia]. split; [done|].
    case_decide; [|done]. cbn [replay_loop]. rewrite Hm. simpl. by rewrite Hval.
Qed.

(** The bounded loop is the unbounded one on a prefix. *)
Lemma replay_loop_bounded t l p :
  ∃ k, replay_loop cfg t l p = replay_loop cfg None (take k l) p ∧
    (t = None → take k l = l) ∧
    ∀ b, t = Some b → ∀ e, e ∈ drop k l → ∃ e0 l', drop k l = e0 :: l' ∧ (b < ev_commit_offset e0)%Z.
Proof.
  revert p. induction l as [|e l IH]; intros p.
  { exists 0. split_and!; [done|done|]. intros b _ e He. by apply elem_of_nil in He. }
  cbn [replay_loop]. destruct t as [b|].
  - destruct (b <? ev_commit_offset e)%Z eqn:Hb.
    + exists 0. split_and!; [done|done|]. intros b' [= <-] e' _. exists e, l. split; [done|lia].
    + destruct (_maybe_migrate_event cfg e) as [e'|x] eqn:Hm.
      * destruct (_validate_projection_authority_input e'
                    (_reject_derived_diagnostic_authority_input cfg)) eqn:Hv.
        -- destruct (IH (_apply_projection_event p e')) as (k & Hk & _ & Hd).
           exists (S k). simpl. rewrite Hm. simpl. rewrite Hv. split_and!; [done|done|]. done.
        -- destruct (IH p) as (k & Hk & _ & Hd).
           exists (S k). simpl. rewrite Hm. simpl. rewrite Hv. split_and!; done.
      * destruct (IH p) as (k & _ & _ & Hd). exists (S k). simpl. rewrite Hm. split_and!; done.
  - exists (S (length l)). simpl. rewrite firstn_all. split_and!; done.
Qed.

Lemma apply_offset p e : pj_projected_offset (_apply_projection_event p e) = ev_commit_offset e.
Proof.
  unfold _apply_projection_event. by destruct (_resolve_projection_transition p e) as [[[[? ?] ?] ?] ?].
Qed.

Lemma replay_loop_offset n l p0 p :
  consecutive n l → (pj_projected_offset p0 < n)%Z → replay_loop cfg None l p0 = Ok p →
  (pj_projected_offset p < n + Z.of_nat (length l))%Z.
Proof.
  revert n p0. induction l as [|e l IH]; intros n p0; [intros _ ? [= <-]; simpl; lia|].
  intros [He Hl] Hp0. cbn [replay_loop].
  destruct (_maybe_migrate_event cfg e) as [e'|x] eqn:Hm; simpl; [|done].
  pose proof (Hmig e e' Hm) as Hoff. intros Hr.
  assert (pj_projected_offset p < n + 1 + Z.of_nat (length l))%Z; [|lia].
  case_match; (eapply IH; [done| |done]); rewrite ?apply_offset; lia.
Qed.

(** A stretch that changes nothing changes nothing at any of its prefixes. *)
Lemma replay_loop_skips n l p k :
  consecutive n l → (pj_projected_offset p < n)%Z → replay_loop cfg None l p = Ok p →
  replay_loop cfg None (take k l) p = Ok p.
Proof.
  revert n k. induction l as [|e l IH]; intros n k; [by rewrite take_nil|].
  intros [He Hl] Hp. cbn [replay_loop].
  destruct (_maybe_migrate_event cfg e) as [e'|x] eqn:Hm; simpl; [|done].
  pose proof (Hmig e e' Hm) as Hoff.
  destruct (_validate_projection_authority_input e'
              (_reject_derived_diagnostic_authority_input cfg)) eqn:Hval; intros Hr.
  - apply (replay_loop_rest (n + 1)%Z) in Hr as [Hle _]; [|done|]; rewrite apply_offset in *; lia.
  - destruct k; [done|]. cbn [replay_loop take]. rewrite Hm. simpl. rewrite Hval.
    apply (IH (n + 1)%Z); [done|lia|done].
Qed.

Lemma consecutive_drop n k l : consecutive n l → consecutive (n + Z.of_nat k) (drop k l).
Proof.
  revert n k. induction l as [|e l IH]; intros n [|k]; simpl; try done.
  - by rewrite Z.add_0_r.
  - intros [_ Hl]. replace (n + Z.of_nat (S k))%Z with (n + 1 + Z.of_nat k)%Z by lia. by apply IH.
Qed.

Lemma consecutive_take n k l : consecutive n l → consecutive n (take k l).
Proof.
  revert n k. induction l as [|e l IH]; intros n [|k]; simpl; try done. intros [? ?]. auto.
Qed.

(** ** The cache *)
Record cached_at (run_id : string) (h : list RuntimeEvent) (k : nat) (p : RunProjection)
    : Prop := {
  ca_bound : k ≤ length h;
  ca_replay : replay run_id (take k h) = Ok p
}.

(** One pass of the service's loop, from a projection of a prefix: it ends
    with a projection of a prefix again, that holds every event up to the
    bound. *)
Lemma project_pass run h k0 p0 t p :
  consecutive 1 h → cached_at run h k0 p0 →
  replay_loop cfg t (after (pj_projected_offset p0) h) p0 = Ok p →
  ∃ k, cached_at run h k p ∧ (t = None → k = length h) ∧
    ∀ b, t = Some b → ∀ e, e ∈ drop k h → (b < ev_commit_offset e)%Z.
Proof.
  intros Hh [Hk0 Hr0] Hr.
  assert (pj_projected_offset (_default_projection run) < 1)%Z as Hd by (simpl; lia).
  pose proof (replay_loop_rest 1 _ _ _ (consecutive_take 1 k0 h Hh) Hd Hr0) as [Hle Hrest].
  pose proof (replay_loop_offset 1 _ _ _ (consecutive_take 1 k0 h Hh) Hd Hr0) as Hoff.
  rewrite length_take, Nat.min_l in Hoff by done. simpl in Hle.
  set (m := Z.to_nat (pj_projected_offset p0)).
  replace (pj_projected_offset p0) with (1 + pj_projected_offset p0 - 1)%Z in Hr, Hrest by lia.
  rewrite after_consecutive in Hrest by by apply consecutive_take.
  rewrite after_consecutive in Hr by done. fold m in Hr, Hrest.
  assert (m ≤ k0) as Hm by (unfold m; lia).
  assert (drop m h = drop m (take k0 h) ++ drop k0 h) as Hsplit.
  { rewrite <- (take_drop k0 h) at 1. rewrite drop_app_le; [done|]. rewrite length_take. lia. }
  destruct (replay_loop_bounded t (drop m h) p0) as (j & Hj & HjN & HjB).
  set (i := j - (k0 - m)). set (k := Nat.min (k0 + i) (length h)).
  assert (length (drop m (take k0 h)) = k0 - m) as Hlen by (rewrite length_drop, length_take; lia).
  rewrite Hsplit, firstn_app, Hlen in Hj, HjN. fold i in Hj, HjN.
  pose proof (consecutive_drop 1 m _ (consecutive_take 1 k0 h Hh)) as Hc1.
  rewrite <- Hsplit, Hr, replay_loop_app, (replay_loop_skips (1 + Z.of_nat m)) in Hj
    by (done || unfold m; lia).
  exists k. split_and!.
  - split; [unfold k; lia|].
    replace (take k h) with (take k0 h ++ take i (drop k0 h)).
    + unfold replay. rewrite replay_loop_app. unfold replay in Hr0. by rewrite Hr0.
    + rewrite take_take_drop. unfold k. destruct (Nat.min_spec (k0 + i) (length h)) as [[? ->]|[? ->]]; [done|].
      rewrite firstn_all. by rewrite take_ge.
  - intros Ht. specialize (HjN Ht). apply (f_equal length) in HjN.
    rewrite !length_app, !length_take, !length_drop, !length_take in HjN. unfold k. lia.
  - intros b Hb e He.
    assert (m + j ≤ k0 + i) as Hmj by (unfold i; lia).
    assert (e ∈ drop (k - (m + j)) (drop j (drop m h))) as He'.
    { rewrite !drop_drop. destruct (decide (length h ≤ k0 + i)) as [Hg|Hg].
      - rewrite drop_ge in He by (unfold k; lia). by apply elem_of_nil in He.
      - match goal with |- _ ∈ drop ?x h => replace x with k by (unfold k in *; lia) end. done. }
    destruct (HjB b Hb e) as (e0 & l' & Hdrop & Hlt).
    { eapply subseteq_drop; exact He'. }
    pose proof (consecutive_drop 1 k _ Hh) as Hck.
    pose proof (consecutive_ge _ _ _ Hck He) as Hge.
    pose proof (consecutive_drop 1 (m + j) _ Hh) as Hcj. rewrite <- drop_drop, Hdrop in Hcj.
    destruct Hcj as [Hoff0 _].
    assert (m + j ≤ k); [|lia].
    destruct (decide (length h ≤ k0 + i)) as [Hg|Hg]; [|unfold k; lia].
    rewrite drop_ge in He by (unfold k; lia). by apply elem_of_nil in He.
Qed.

(** ** The service over time

    Its log grows by appends that retain every history (no run is released)
    or fail; it is asked to catch up, to get, and for readiness, in any order. *)
Inductive service_step : projection_service L → projection_service L → Prop :=
  | svc_append c s o l' :
      el_append c (ps_event_log s) = (o, l') →
      (∀ run, el_history (ps_event_log s) run `prefix_of` el_history l' run) →
      service_step s (Build_projection_service l' (_projection_by_run s))
  | svc_catch_up run t s o s' : catch_up cfg run t s = (o, s') → service_step s s'
  | svc_get run s o s' : get cfg run s = (o, s') → service_step s s'
  | svc_readiness run k s o s' : readiness cfg run k s = (o, s') → service_step s s'.

Definition fresh_service (s : projection_service L) : Prop :=
  el_ok (ps_event_log s) ∧ _projection_by_run s = ∅.

Record service_inv (s : projection_service L) : Prop := {
  si_ok : el_ok (ps_event_log s);
  si_cache run p : _projection_by_run s !! run = Some p →
    ∃ k, cached_at run (el_history (ps_event_log s) run) k p
}.

Lemma project_spec run t s o s' :
  service_inv s → project cfg run t s = (o, s') →
  service_inv s' ∧
  let h := el_history (ps_event_log s) run in
  match o with
  | Ok p => ∃ k, cached_at run h k p ∧ (t = None → k = length h) ∧
      ∀ b, t = Some b → ∀ e, e ∈ drop k h → (b < ev_commit_offset e)%Z
  | Raise e => _projection_by_run s' = _projection_by_run s
  end.
Proof.
  intros [Hok Hcache]. unfold project, gets, mbind, M_bind, on_log, zoom, lift.
  cbn beta iota zeta.
  set (h := el_history (ps_event_log s) run).
  set (p0 := default _ _).
  assert (∃ k0, cached_at run h k0 p0) as [k0 Hk0].
  { unfold p0. destruct (_projection_by_run s !! run) as [q|] eqn:Hq; simpl; [by apply Hcache|].
    exists 0. split; [lia|done]. }
  pose proof (law_load run (pj_projected_offset p0) (ps_event_log s) Hok) as Hload.
  pose proof (law_numbered (ps_event_log s) run Hok) as Hnum. fold h in Hload, Hnum.
  destruct (el_load run _ _) as [o1 l'] eqn:Hl. destruct Hload as (Hok' & Hsame & Hev).
  assert (service_inv (Build_projection_service l' (_projection_by_run s))) as Hinv'.
  { split; simpl; [done|]. intros r q. rewrite Hsame. apply Hcache. }
  destruct o1 as [ev|e]; [|by intros [= <- <-]]. rewrite (Hev ev eq_refl).
  destruct (replay_loop cfg t _ p0) as [p|e] eqn:Hr; cbn; intros [= <- <-]; [|done].
  destruct (project_pass run h k0 p0 t p Hnum Hk0 Hr) as (k & Hk & ? & ?).
  split; [|by exists k]. split; simpl; [done|]. intros r q. rewrite lookup_insert_Some, Hsame.
  intros [[<- <-]|[_ Hq]]; [by exists k|by apply Hcache].
Qed.

Lemma service_inv_step s s' : service_inv s → service_step s s' → service_inv s'.
Proof.
  intros Hinv Hstep. destruct Hstep as [c s o l' Happ Hpre|run t s o s' Hr|run s o s' Hr|run k s o s' Hr].
  - destruct Hinv as [Hok Hcache]. pose proof (law_append c _ Hok) as Ha. rewrite Happ in Ha.
    split; simpl; [by destruct o, Ha|]. intros run p Hp.
    destruct (Hcache run p Hp) as (k & Hk & Hr). exists k. destruct (Hpre run) as [tl ->].
    split; [rewrite length_app; lia|]. by rewrite take_app_le.
  - by destruct (project_spec _ _ _ _ _ Hinv Hr).
  - by destruct (project_spec _ _ _ _ _ Hinv Hr).
  - unfold readiness in Hr. apply bind_inv in Hr as [(p & s1 & Hp & [= <- <-])|(e & He & _)].
    + by destruct (project_spec _ _ _ _ _ Hinv Hp).
    + by destruct (project_spec _ _ _ _ _ Hinv He).
Qed.

Lemma service_inv_reachable s s' : fresh_service s → rtc service_step s s' → service_inv s'.
Proof.
  intros [Hok Hc] Hr. assert (service_inv s) as Hinv.
  { split; [done|]. intros run p. rewrite Hc. by rewrite lookup_empty. }
  clear Hok Hc. induction Hr; eauto using service_inv_step.
Qed.
End replay.

(** C5: the cached, incremental projection is the fold of the whole history.
    After any sequence of appends, catch-ups, gets and readiness queries, [get]
    returns exactly the replay of the run's history from the initial
    projection, and [catch_up] the replay of a prefix that holds every event
    up to the requested offset; when the log or the migrator fails, nothing
    is cached.  The migrator may be any that keeps commit offsets. *)
Theorem projection_is_replay {L} `{EventLogLaws L} cfg (s0 s : projection_service L) run :
  migrator_keeps_offset cfg → fresh_service s0 → rtc (service_step cfg) s0 s →
  let h := el_history (ps_event_log s) run in
  match get cfg run s with
  | (Ok p, _) => replay cfg run h = Ok p
  | (Raise _, s') => _projection_by_run s' = _projection_by_run s
  end ∧
  ∀ t, match catch_up cfg run t s with
       | (Ok p, _) => ∃ k, replay cfg run (take k h) = Ok p ∧
           ∀ e, e ∈ drop k h → (t < ev_commit_offset e)%Z
       | (Raise _, s') => _projection_by_run s' = _projection_by_run s
       end.
Proof.
  intros Hmig Hf Hr h. pose proof (service_inv_reachable cfg Hmig _ _ Hf Hr) as Hinv. split.
  - destruct (get cfg run s) as [o s'] eqn:Hg. destruct (project_spec cfg Hmig _ _ _ _ _ Hinv Hg) as (_ & Hp).
    destruct o as [p|e]; [|done]. destruct Hp as (k & [_ Hk] & Hn & _).
    rewrite Hn in Hk by done. by rewrite firstn_all in Hk.
  - intros t. destruct (catch_up cfg run t s) as [o s'] eqn:Hg.
    destruct (project_spec cfg Hmig _ _ _ _ _ Hinv Hg) as (_ & Hp).
    destruct o as [p|e]; [|done]. destruct Hp as (k & [_ Hk] & _ & Hb). exists k. split; [done|].
    by apply Hb.
Qed.

(** Every projection that replay can produce is well formed: its waiting
    flag, dispatch readiness and recovery mode are those of its lifecycle
    state (so that only ready and dispatching runs are dispatchable), it never
    enters waiting_result or failed, and its child runs are distinct and named;
    and a completed or aborted run stays as it is under all further events,
    save for the reason that a further cancel request may give. *)
Theorem projection_well_formed run events1 events2 :
  let p := apply_all (_default_projection run) events1 in
  let p' := apply_all p events2 in
  projection_ok p ∧
  (pj_lifecycle_state p ∈ [completed; aborted] →
   pj_lifecycle_state p' = pj_lifecycle_state p ∧
   pj_active_child_runs p' = pj_active_child_runs p ∧
   (pj_recovery_reason p' = pj_recovery_reason p ∨
    (pj_lifecycle_state p = aborted ∧
     ∃ e, e ∈ events2 ∧ ev_event_type e = "run.cancel_requested"))).
Proof.
  intros p p'. assert (projection_ok p) as Hp.
  { unfold p, apply_all. generalize (projection_ok_default run). generalize (_default_projection run).
    induction events1 as [|e l IH]; intros q Hq; simpl; [done|]. by apply IH, projection_ok_step. }
  split; [done|]. unfold p', apply_all. clear p'. generalize dependent p. clear events1.
  induction events2 as [|e l IH]; intros p Hp Hst; simpl; [auto|].
  destruct (terminal_step p e Hst Hp) as (H1 & H2 & H3).
  destruct (IH (_apply_projection_event p e)) as (I1 & I2 & I3);
    [by apply projection_ok_step|by rewrite H1|].
  rewrite I1, I2. split_and!; [done|done|].
  destruct I3 as [->|(Ha & e' & He' & Ht)].
  - destruct H3 as [->|[Ha Ht]]; [by left|]. right. split; [done|]. exists e. set_solver.
  - right. split; [congruence|]. exists e'. set_solver.
Qed.

(** C9: the operational precedence Cancel > HardFailure > Timeout >
    ExternalCallback makes delivery order irrelevant: from any run that is not
    completed, two orders of the same operational events end in the same
    lifecycle state, the one of the most severe event (or of the state the run
    was in, where that is more severe). *)
Theorem operational_confluence p events1 events2 :
  Forall (λ e, is_Some (event_severity e)) events1 → events1 ≡ₚ events2 →
  pj_lifecycle_state (apply_all p events1) = pj_lifecycle_state (apply_all p events2) ∧
  (events1 ≠ [] → pj_lifecycle_state p ≠ completed →
   pj_lifecycle_state (apply_all p events1) =
     state_of_severity (severity (pj_lifecycle_state p) `max`
       foldr Nat.max 0 (map (default 0 ∘ event_severity) events1))).
Proof.
  intros Hev Hp. assert (Forall (λ e, is_Some (event_severity e)) events2) as Hev2 by by rewrite <- Hp.
  rewrite (precede_fold p _ _ (severities _ Hev)), (precede_fold p _ _ (severities _ Hev2)).
  split.
  - destruct events1 as [|e1 l1], events2 as [|e2 l2]; simpl; try done.
    + by apply Permutation_nil_cons in Hp.
    + symmetry in Hp. by apply Permutation_nil_cons in Hp.
    + f_equal. apply (foldr_max_perm (map (default 0 ∘ event_severity) (e1 :: l1))
        (map (default 0 ∘ event_severity) (e2 :: l2))). by rewrite Hp.
  - intros Hne Hst. destruct events1; [done|]. simpl. unfold precede. by rewrite decide_False.
Qed.

Lemma replay_loop_reaches cfg n l p0 p k :
  _event_schema_migrator cfg = None → consecutive n l → (pj_projected_offset p0 < n)%Z →
  replay_loop cfg None l p0 = Ok p →
  (k ≤ pj_projected_offset p)%Z ↔
  (k ≤ pj_projected_offset p0)%Z ∨ ∃ e, e ∈ l ∧ (k ≤ ev_commit_offset e)%Z ∧
    _validate_projection_authority_input e (_reject_derived_diagnostic_authority_input cfg) = true.
Proof.
  intros Hm. revert n p0. induction l as [|e l IH]; intros n p0.
  { intros _ _ [= <-]. split; [by left|]. intros [?|(e & He & _)]; [done|]. by apply elem_of_nil in He. }
  intros [He Hl] Hp0. cbn [replay_loop]. unfold _maybe_migrate_event at 1. rewrite Hm. simpl.
  setoid_rewrite elem_of_cons.
  destruct (_validate_projection_authority_input e _) eqn:Hv; intros Hr.
  - rewrite (IH (n + 1)%Z (_apply_projection_event p0 e) Hl);
      [|rewrite apply_offset; lia|exact Hr]. rewrite apply_offset.
    split; [naive_solver|]. intros [?|(e' & [->|?] & ? & ?)]; [left; lia|by left|naive_solver].
  - rewrite (IH (n + 1)%Z p0 Hl); [|lia|exact Hr]. split; [naive_solver|].
    intros [?|(e' & [->|?] & ? & ?)]; [by left|congruence|naive_solver].
Qed.

(** Without a migrator, an offset is reported ready exactly when some
    event at or after it takes part in the projection: with diagnostics
    excluded, an offset whose remaining events are all diagnostics is never
    ready. *)
Theorem readiness_iff {L} `{EventLogLaws L} cfg (s0 s : projection_service L) run k :
  _event_schema_migrator cfg = None → fresh_service s0 → rtc (service_step cfg) s0 s →
  is_ok (readiness cfg run k s).1 = true → (0 < k)%Z →
  (readiness cfg run k s).1 = Ok true ↔
  ∃ e, e ∈ el_history (ps_event_log s) run ∧ (k ≤ ev_commit_offset e)%Z ∧
    _validate_projection_authority_input e (_reject_derived_diagnostic_authority_input cfg) = true.
Proof.
  intros Hm Hf Hr Hok Hk.
  assert (migrator_keeps_offset cfg) as Hmig.
  { intros e e'. unfold _maybe_migrate_event. rewrite Hm. by intros [= <-]. }
  pose proof (service_inv_reachable cfg Hmig _ _ Hf Hr) as Hinv.
  pose proof (law_numbered _ run (si_ok _ _ Hinv)) as Hnum. revert Hok.
  unfold readiness, mbind, M_bind. destruct (get cfg run s) as [[p|e] s'] eqn:Hp; simpl; [|done].
  intros _. destruct (project_spec cfg Hmig _ _ _ _ _ Hinv Hp) as (_ & n & [_ Hrep] & Hn & _).
  rewrite Hn, firstn_all in Hrep by done.
  pose proof (replay_loop_reaches cfg 1 _ (_default_projection run) _ k Hm Hnum eq_refl Hrep) as Hreach.
  simpl in Hreach. split.
  - intros [= Hle%Z.leb_le]. apply Hreach in Hle as [?|?]; [lia|done].
  - intros He. f_equal. apply Z.leb_le, Hreach. by right.
Qed.

(** ** A concrete service *)
Definition example_event (ty : string) (authority : EventAuthority) (payload : pydict)
    : RuntimeEvent := {|
  ev_run_id := "run-1"; ev_event_id := "e"; ev_commit_offset := 0; ev_event_type := ty;
  ev_event_class := "fact"; ev_event_authority := authority; ev_ordering_key := "run-1";
  ev_wake_policy := "wake_actor"; ev_created_at := "2026-01-01T00:00:00Z";
  ev_idempotency_key := None; ev_payload_ref := None; ev_payload_json := Some payload;
  ev_schema_version := "1" |}.

Definition example_fact (ty : string) : RuntimeEvent := example_event ty authoritative_fact [].

Definition example_commit (events : list RuntimeEvent) : ActionCommit :=
  {| cm_run_id := "run-1"; cm_commit_id := "c"; cm_events := events;
     cm_created_at := "2026-01-01T00:00:00Z"; cm_action := None; cm_caused_by := None |}.

Definition example_cfg : projection_config :=
  {| _reject_derived_diagnostic_authority_input := true;
     _event_schema_migrator := None; _target_event_schema_version := None |}.

Definition example_log : InMemoryKernelRuntimeEventLog.t :=
  (el_append (example_commit
     [example_fact "run.created"; example_fact "run.ready"; example_fact "run.waiting_external";
      example_fact "signal.callback";
      example_event "telemetry" derived_diagnostic []])
     InMemoryKernelRuntimeEventLog.__init__).2.

Definition empty_service : projection_service InMemoryKernelRuntimeEventLog.t :=
  Build_projection_service InMemoryKernelRuntimeEventLog.__init__ ∅.

Definition caught_up_service : projection_service InMemoryKernelRuntimeEventLog.t :=
  (catch_up example_cfg "run-1" 2 (Build_projection_service example_log ∅)).2.

Lemma caught_up_reachable : rtc (service_step example_cfg) empty_service caught_up_service.
Proof.
  eapply rtc_l; [|eapply rtc_l; [|apply rtc_refl]].
  - apply (svc_append example_cfg (example_commit
      [example_fact "run.created"; example_fact "run.ready"; example_fact "run.waiting_external";
       example_fact "signal.callback";
       example_event "telemetry" derived_diagnostic []]) empty_service (Ok "commit-ref-1") example_log).
    + vm_compute. reflexivity.
    + intros run. apply prefix_nil.
  - apply (svc_catch_up example_cfg "run-1" 2 _
      (catch_up example_cfg "run-1" 2 (Build_projection_service example_log ∅)).1).
    apply surjective_pairing.
Qed.

Lemma empty_fresh : fresh_service empty_service.
Proof. split; [exact InMemoryKernelRuntimeEventLog.wf_init|done]. Qed.

Lemma no_migrator_keeps : migrator_keeps_offset example_cfg.
Proof. by intros e e' [= <-]. Qed.

Lemma projection_is_replay_witness :
  match get example_cfg "run-1" caught_up_service with
  | (Ok p, _) =>
      replay example_cfg "run-1" (el_history example_log "run-1") = Ok p ∧
      pj_lifecycle_state p = waiting_external ∧ pj_projected_offset p = 4%Z
  | _ => False
  end.
Proof.
  pose proof (proj1 (projection_is_replay example_cfg empty_service caught_up_service "run-1"
    no_migrator_keeps empty_fresh caught_up_reachable)) as Hr.
  vm_compute in Hr |- *. split; [exact Hr|split; reflexivity].
Defined.

Lemma operational_confluence_witness :
  let p := apply_all (_default_projection "run-1") [example_fact "run.ready"] in
  let cancel := example_event "run.cancel_requested" authoritative_fact [("reason", PStr "user")] in
  let others := [example_fact "signal.callback"; example_fact "run.waiting_external"] in
  pj_lifecycle_state (apply_all p (cancel :: others)) =
  pj_lifecycle_state (apply_all p (others ++ [cancel])).
Proof.
  intros p cancel others. apply operational_confluence.
  - repeat constructor; vm_compute; by eexists.
  - by apply Permutation_cons_append.
Defined.

Lemma readiness_iff_witness :
  (readiness example_cfg "run-1" 5 caught_up_service).1 ≠ Ok true ∧
  length (el_history example_log "run-1") = 5.
Proof.
  split; [|vm_compute; reflexivity].
  rewrite (readiness_iff example_cfg empty_service caught_up_service "run-1" 5 eq_refl empty_fresh
    caught_up_reachable ltac:(vm_compute; reflexivity) eq_refl).
  intros (e & He & Hk & Hv). vm_compute in He.
  repeat (apply elem_of_cons in He as [->|He]; [first [by vm_compute in Hk|by vm_compute in Hv]|]).
  by apply elem_of_nil in He.
Defined.
