(* ===== verification/ReplayFidelity.v ===== *)
(** * Replay fidelity ([kernel/replay_fidelity.py])

    A turn is run twice over one dedupe store, by two engines (the second one
    stands for a restarted worker), and the two outcomes are compared. *)
From S2P Require Export TurnLinks EventLog.

Record TurnFidelityRecord := {
  tf_outcome_kind : TurnOutcomeKind;
  tf_snapshot_hash : option string;
  tf_dedupe_state : option DedupeState;
  tf_event_count : Z
}.

Record FidelityReport := {
  fr_run_id : string;
  fr_original : TurnFidelityRecord;
  fr_replay : TurnFidelityRecord
}.

Definition snapshot_hash_matches (r : FidelityReport) : bool :=
  bool_decide (tf_snapshot_hash (fr_original r) = tf_snapshot_hash (fr_replay r)).

Definition is_idempotent (r : FidelityReport) : bool :=
  snapshot_hash_matches r
  && bool_decide (tf_event_count (fr_replay r) = tf_event_count (fr_original r)).

Module ReplayFidelityVerifier.
Section verifier.
(** What the collaborators of the engines change is the event log and a rest. *)
Context {S L X : Type} `{DedupeStorePort S} `{EventLogPort L}.
Abbreviation W := (world S (L * X)).

Definition on_event_log {A} (m : M L A) : M W A :=
  on_env (zoom fst (λ l e, (l, snd e)) m).

Definition _capture (result : TurnResult) (turn_input : TurnInput) (action : option Action)
    : M W TurnFidelityRecord :=
  let outcome_kind := tr_outcome_kind result in
  let snapshot_hash :=
    if decide (outcome_kind ≠ out_noop) then Some (tr_decision_fingerprint result) else None in
  dedupe_state ← suppress_or None
    (action ← match action with
              | Some a => mret a
              | None => raise (Exn AttributeError "'NoneType' object has no attribute 'action_id'")
              end;
     let ti := _build_turn_identity turn_input action None in
     record ← on_store (ds_get (id_dispatch_dedupe_key ti));
     mret (rec_state <$> record));
  event_count ← suppress_or 0%Z
    (events ← on_event_log (el_load (ti_run_id turn_input) 0);
     mret (Z.of_nat (length events)));
  mret {| tf_outcome_kind := outcome_kind; tf_snapshot_hash := snapshot_hash;
          tf_dedupe_state := dedupe_state; tf_event_count := event_count |}.

Definition verify (engine replay_engine : TurnEngine (L * X)) (turn_input : TurnInput)
    (action : option Action) : M W FidelityReport :=
  original_result ← run_turn engine turn_input action;
  original_record ← _capture original_result turn_input action;
  replay_result ← run_turn replay_engine turn_input action;
  replay_record ← _capture replay_result turn_input action;
  mret {| fr_run_id := ti_run_id turn_input; fr_original := original_record;
          fr_replay := replay_record |}.
End verifier.
End ReplayFidelityVerifier.

(** ** A turn, in terms of its action's historical key *)
Section replay.
Context {S L X : Type} `{DedupeStoreAvailable S} `{EventLogPort L}.
Abbreviation W := (world S (L * X)).
Implicit Types w : W.
Import ReplayFidelityVerifier.

(** The key that the verifier looks up. *)
Definition action_key (i : TurnInput) (a : Action) : string :=
  id_dispatch_dedupe_key (_build_turn_identity i a None).

(** The executor was not entered, or once, and then it took the key. *)
Definition took (i : TurnInput) (a : Action) w w' : Prop :=
  ds_ok (w_store w') ∧
  ((w_calls w' = w_calls w ∧ view w' = view w) ∨
   ∃ x, w_calls w' = w_calls w ++ [x] ∧ view w !! action_key i a = None ∧
     is_Some (view w' !! action_key i a)).

Definition executed_kind (r : TurnResult) : Prop :=
  tr_outcome_kind r ∈ [out_dispatched; out_recovery_pending].

(** An entered turn took the key of its action. *)
Lemma entered_took te i a w w' x :
  calls_linked te i a w w' → entered_once w w' x →
  view w !! action_key i a = None ∧ is_Some (view w' !! action_key i a).
Proof.
  intros [Hn|(y & Hy & Hp & _)] (Hx & _ & _ & _ & _ & Hleg).
  { rewrite Hn in Hx. apply (f_equal length) in Hx. rewrite length_app in Hx. simpl in Hx. lia. }
  rewrite Hy in Hx. apply app_inv_head in Hx as [= ->].
  destruct Hp as [[[[Hi Ha] _] _] _]. specialize (Hleg _). revert Hleg.
  unfold turn_legacy_key. rewrite Ha. simpl. unfold dedupe_key_of. by rewrite Hi.
Qed.

Lemma one_turn te i a w :
  ds_ok (w_store w) →
  wp (run_turn te i (Some a))
    (λ r w', fingerprinted i a r ∧ took i a w w' ∧
       if decide (executed_kind r) then is_Some (view w' !! action_key i a) ∧ w_calls w' ≠ w_calls w
       else w_calls w' = w_calls w ∧ view w' = view w)
    (λ _, took i a w) w.
Proof.
  intros Hok. pose proof (run_turn_spec te i (Some a) w Hok) as Ht.
  pose proof (turn_linked te i a w) as Hl. pose proof (run_turn_fingerprint te i a w) as Hf.
  unfold wp in *. destruct (run_turn te i (Some a) w) as [[r|e] w'].
  - destruct Ht as (_ & Hok' & _ & Hk). split; [done|].
    assert (∀ x, entered_once w w' x →
      took i a w w' ∧ is_Some (view w' !! action_key i a) ∧ w_calls w' ≠ w_calls w) as Hx.
    { intros x Hx. destruct (entered_took _ _ _ _ _ _ Hl Hx) as [Hn Hs]. destruct Hx as [Hx _].
      split; [split; [done|right; by exists x]|]. split; [done|]. rewrite Hx. intros Hc.
      apply (f_equal length) in Hc. rewrite length_app in Hc. simpl in Hc. lia. }
    destruct (decide (executed_kind r)) as [Hd|Hd]; unfold executed_kind in Hd; set_unfold in Hd.
    + destruct Hd as [Hd|[Hd|[]]]; rewrite Hd in Hk; destruct Hk as (x & Hk & _); by apply (Hx x).
    + assert (w_calls w' = w_calls w ∧ view w' = view w) as Hq by (destruct (tr_outcome_kind r); tauto).
      split; [split; [done|by left]|done].
  - destruct Ht as (Hok' & _ & [[Hc Hv]|(x & Hx & _)]); (split; [done|]); [by left|right].
    exists x. destruct (entered_took _ _ _ _ _ _ Hl Hx). by split; [apply Hx|].
Qed.

Lemma capture_spec r i a w :
  ds_ok (w_store w) →
  wp (_capture r i (Some a))
    (λ c w', ds_ok (w_store w') ∧ w_calls w' = w_calls w ∧ view w' = view w ∧
       tf_outcome_kind c = tr_outcome_kind r ∧
       tf_snapshot_hash c =
         (if decide (tr_outcome_kind r ≠ out_noop) then Some (tr_decision_fingerprint r) else None) ∧
       tf_dedupe_state c = rec_state <$> (view w !! action_key i a))
    (λ _ w', ds_ok (w_store w') ∧ w_calls w' = w_calls w ∧ view w' = view w) w.
Proof.
  intros Hok. unfold _capture. cbv zeta. apply wp_bind. unfold suppress_or. apply wp_try_except, wp_bind, wp_ret, wp_bind.
  eapply wp_on_store; [apply law_get|intros; apply avail_get|done| |].
  2: { intros e s' _ _ _ Hn. by specialize (Hn _). }
  intros o s' Hok' [= <- Hv]. apply wp_ret, wp_bind, wp_try_except, wp_bind.
  apply wp_on_env; intros x w' [Hs Hc]; simpl in *; unfold view in *.
  - apply wp_ret, wp_ret. rewrite Hs. by split_and!.
  - rewrite Hs. destruct (is_Exception x); [|by split_and!]. apply wp_ret, wp_ret. simpl.
    rewrite Hs. by split_and!.
Qed.

(** At most one of the calls of a verification is new. *)
Lemma took_twice i a w w1 w2 w1' :
  took i a w w1 → w_calls w1' = w_calls w1 → view w1' = view w1 → took i a w1' w2 →
  w_calls w2 = w_calls w ∨ ∃ x, w_calls w2 = w_calls w ++ [x].
Proof.
  intros [_ Ht1] Hc Hv [_ Ht2]. rewrite Hc, Hv in Ht2.
  destruct Ht1 as [[Ht1 _]|(x & Ht1 & _ & [r Hr])], Ht2 as [[Ht2 _]|(y & Ht2 & Hn & _)].
  - left. congruence.
  - right. exists y. congruence.
  - right. exists x. congruence.
  - congruence.
Qed.

Lemma hash_of_kinds (k1 k2 : TurnOutcomeKind) (f1 f2 f : string) :
  (k1 = out_noop ∨ f1 = f) → (k2 = out_noop ∨ f2 = f) →
  bool_decide ((if decide (k1 ≠ out_noop) then Some f1 else None) =
               (if decide (k2 ≠ out_noop) then Some f2 else None)) =
  bool_decide (k1 = out_noop ↔ k2 = out_noop).
Proof.
  intros H1' H2'. destruct (decide (k1 = out_noop)) as [->|Hk1], (decide (k2 = out_noop)) as [->|Hk2].
  - by rewrite decide_False, !bool_decide_true by tauto.
  - by rewrite decide_False, decide_True, !bool_decide_false by (tauto || done).
  - by rewrite decide_True, decide_False, !bool_decide_false by (tauto || done).
  - destruct H1' as [| ->]; [done|]. destruct H2' as [| ->]; [done|].
    by rewrite !decide_True, !bool_decide_true by (tauto || done).
Qed.

Definition at_most_one_call w w' : Prop :=
  w_calls w' = w_calls w ∨ ∃ x, w_calls w' = w_calls w ++ [x].

Definition report_post (rep : FidelityReport) : Prop :=
  let o1 := tf_outcome_kind (fr_original rep) in
  let o2 := tf_outcome_kind (fr_replay rep) in
  (o1 ∈ [out_dispatched; out_recovery_pending] →
     o2 ∈ [out_noop; out_blocked] ∧ is_Some (tf_dedupe_state (fr_original rep)) ∧
     tf_dedupe_state (fr_replay rep) = tf_dedupe_state (fr_original rep)) ∧
  snapshot_hash_matches rep = bool_decide (o1 = out_noop ↔ o2 = out_noop).

Lemma took_once i a w w' : took i a w w' → at_most_one_call w w'.
Proof. intros [_ [[Hc _]|(x & Hc & _)]]; [by left|right; by exists x]. Qed.

Lemma verify_spec te te' i a w :
  ds_ok (w_store w) →
  wp (verify te te' i (Some a)) (λ rep w', at_most_one_call w w' ∧ report_post rep)
    (λ _ w', at_most_one_call w w') w.
Proof.
  intros Hok. unfold verify. apply wp_bind. eapply wp_mono; [by apply one_turn| |].
  2: { intros e w1 Ht1. exact (took_once _ _ _ _ Ht1). }
  intros r1 w1 (Hf1 & Ht1 & Hk1). pose proof Ht1 as [Hok1 _]. apply wp_bind.
  eapply wp_mono; [by apply capture_spec| |].
  2: { intros e w2 (_ & Hc & _). simpl in *. apply took_once in Ht1. unfold at_most_one_call. by rewrite Hc. }
  intros c1 w2 (Hok2 & Hc2 & Hv2 & Ho1 & Hs1 & Hd1). apply wp_bind.
  eapply wp_mono; [by apply one_turn| |].
  2: { intros e w3 Ht2. exact (took_twice _ _ _ _ _ _ Ht1 Hc2 Hv2 Ht2). }
  intros r2 w3 (Hf2 & Ht2 & Hk2). pose proof Ht2 as [Hok3 _]. apply wp_bind.
  pose proof (took_twice _ _ _ _ _ _ Ht1 Hc2 Hv2 Ht2) as Honce.
  eapply wp_mono; [by apply capture_spec| |].
  2: { intros e w4 (_ & Hc & _). simpl in *. unfold at_most_one_call. by rewrite Hc. }
  intros c2 w4 (_ & Hc4 & _ & Ho2 & Hs2 & Hd2). apply wp_ret.
  split; [unfold at_most_one_call; by rewrite Hc4|]. unfold report_post. simpl. split.
  - rewrite Ho1. intros Hex. rewrite decide_True in Hk1 by exact Hex. destruct Hk1 as [[rc Hrc] _].
    rewrite <- Hv2 in Hrc. destruct (decide (executed_kind r2)) as [Hex2|Hex2].
    + destruct Ht2 as [_ [[Hn _]|(x & _ & Hn & _)]]; [by destruct Hk2|congruence].
    + destruct Hk2 as [_ Hv3]. rewrite Hd2, Hv3, Hd1, <- Hv2, Hrc, Ho2. split_and!; [|by eexists|done].
      unfold executed_kind in Hex2. clear -Hex2. by destruct (tr_outcome_kind r2); set_solver.
  - unfold snapshot_hash_matches. simpl. rewrite Hs1, Hs2, Ho1, Ho2. by eapply hash_of_kinds.
Qed.
End replay.

(** C25: one turn run by two engines over one available store, whatever their
    collaborators do.  The executors are entered at most once between the two;
    when the first engine's turn executed, the second one's does not, and the
    record of the turn that the verifier reads is there and unchanged.  The
    snapshot hashes of the report match exactly where both outcomes are noop
    or neither is, whatever snapshots the engines built. *)
Theorem replay_never_executes {S L X : Type} `{DedupeStoreAvailable S} `{EventLogPort L}
    (te te' : TurnEngine (L * X)) (i : TurnInput) (a : Action) (w : world S (L * X))
    (Hok : ds_ok (w_store w)) :
  match ReplayFidelityVerifier.verify te te' i (Some a) w with
  | (Ok rep, w') => at_most_one_call w w' ∧ report_post rep
  | (Raise _, w') => at_most_one_call w w'
  end.
Proof. exact (verify_spec te te' i a w Hok). Qed.

(** ** A verification

    The second engine builds another snapshot, so that its dispatch key is
    another one. *)
Abbreviation example_env := (InMemoryKernelRuntimeEventLog.t * unit)%type.

Definition example_engine_with (resolver : option (TurnInput → Action → outcome CapabilitySnapshotInput))
    : TurnEngine example_env := {|
  te_now := λ _, "2026-01-01T00:00:00Z";
  te_build := λ i, lift (build "2026-01-01T00:00:00Z" i);
  te_admit := λ _ _, mret (AdmBool true);
  te_execute := λ _ _ _ _, mret [("acknowledged", PBool true)];
  te_executor_takes_context := true;
  te_snapshot_input_resolver := resolver;
  te_require_declared_snapshot_inputs := false;
  te_reasoning_loop := None;
  te_phase_timeout := true;
  te_defaults := None |}.

Definition example_first := example_engine_with None.
Definition example_second :=
  example_engine_with (Some (λ i _, Ok (reasoning_snapshot_input example_first i))).

Definition example_shared : world InMemoryDedupeStore.t example_env :=
  World InMemoryDedupeStore.__init__ (InMemoryKernelRuntimeEventLog.__init__, tt) [].

Definition example_verification :=
  ReplayFidelityVerifier.verify example_first example_second example_turn_input (Some example_action)
    example_shared.

Lemma replay_never_executes_witness :
  ∃ rep w', example_verification = (Ok rep, w') ∧
    at_most_one_call example_shared w' ∧ report_post rep ∧ length (w_calls w') = 1 ∧
    tf_outcome_kind (fr_original rep) = out_dispatched ∧
    tf_dedupe_state (fr_replay rep) = Some acknowledged ∧ is_idempotent rep = true.
Proof.
  pose proof (replay_never_executes example_first example_second example_turn_input example_action
    example_shared I) as Hpost.
  assert (match example_verification with
          | (Ok rep, w') => length (w_calls w') = 1 ∧ tf_outcome_kind (fr_original rep) = out_dispatched ∧
              tf_dedupe_state (fr_replay rep) = Some acknowledged ∧ is_idempotent rep = true
          | (Raise _, _) => False
          end) as Hv by (vm_compute; repeat split).
  unfold example_verification in *.
  destruct (ReplayFidelityVerifier.verify _ _ _ _ _) as [[rep|e] w']; [|destruct Hv].
  exists rep, w'. split; [reflexivity|]. destruct Hpost. split; [assumption|]. split; [assumption|exact Hv].
Defined.
