(* ===== verification/Admission.v ===== *)
(** * The static admission gate and the activity routes ([kernel/minimal_runtime.py])

    [StaticDispatchAdmissionService], the executor services behind it and the
    small in-memory services of the minimal runtime. *)
From S2P Require Export HostPolicy Projection TurnEngine.

(** ** Costs *)
Definition _parse_finite_float (raw_value : string) : option spec_float :=
  match py_float_of_str raw_value with
  | Some f => if float_isfinite f then Some f else None
  | None => None
  end.

(** [math.isfinite] of an [int] converts it first, which raises beyond the
    range of a [float]. *)
Definition _coerce_finite_number (value : pyval) : outcome (option spec_float) :=
  match value with
  | PInt z =>
      let f := float_of_Z z in
      if float_isfinite f then Ok (Some f)
      else Raise (Exn OverflowError "int too large to convert to float")
  | PFloat f => Ok (if float_isfinite f then Some f else None)
  | _ => Ok None
  end.

Definition _extract_max_cost_from_policy_tags (policy_tags : list string) : option spec_float :=
  first_some (λ tag,
    if py_startswith tag "max_cost:"
    then _parse_finite_float (py_strip (py_removeprefix tag "max_cost:"))
    else None) policy_tags.

Definition _extract_estimated_cost (input_json : option pydict) : outcome (option spec_float) :=
  match input_json with
  | None => Ok None
  | Some d => _coerce_finite_number (py_get "estimated_cost" d)
  end.

(** ** Decisions *)
Definition denied (reason_code : ReasonCode) : AdmissionResult :=
  {| ar_admitted := false; ar_reason_code := reason_code; ar_expires_at := None;
     ar_grant_ref := None; ar_policy_snapshot_ref := None; ar_sandbox_grant := None;
     ar_idempotency_envelope := None |}.

Definition timeout_exceeded (timeout_ms : option Z) : bool :=
  match timeout_ms with
  | Some t => (0 <? t)%Z && (300000 <? t)%Z
  | None => false
  end.

Definition cost_exceeded (max_cost estimated_cost : option spec_float) : bool :=
  match max_cost, estimated_cost with
  | Some limit, Some cost => float_ltb limit cost
  | _, _ => false
  end.

Definition _evaluate_action_policy_denies (action : Action) : outcome (option AdmissionResult) :=
  if decide ("requires_human_review" ∈ act_policy_tags action) then Ok (Some (denied policy_denied))
  else if timeout_exceeded (act_timeout_ms action) then Ok (Some (denied policy_denied))
  else
    estimated_cost ← _extract_estimated_cost (act_input_json action);
    if cost_exceeded (_extract_max_cost_from_policy_tags (act_policy_tags action)) estimated_cost
    then Ok (Some (denied quota_exceeded))
    else if _requires_remote_idempotency_contract_block action
         then Ok (Some (denied idempotency_contract_insufficient))
         else Ok None.

Definition sandbox_candidates : list (string * HostKind) :=
  [ ("host:local_process", local_process); ("host:local_cli", local_cli);
    ("host:remote_service", remote_service); ("host_kind:local_process", local_process);
    ("host_kind:local_cli", local_cli); ("host_kind:remote_service", remote_service) ].

Definition _resolve_sandbox_host_kind (action : Action) : HostKind :=
  let normalized_tags := map (λ tag, py_lower (py_strip tag)) (act_policy_tags action) in
  match first_some (λ '(candidate, host_kind),
          if decide (candidate ∈ normalized_tags) then Some host_kind else None)
          sandbox_candidates with
  | Some host_kind => host_kind
  | None =>
      if bool_decide (act_external_idempotency_level action ≠ None)
         && bool_decide (act_effect_class action ≠ READ_ONLY)
      then remote_service else local_cli
  end.

Definition _build_admitted_result (action : Action) : AdmissionResult :=
  let host_kind := _resolve_sandbox_host_kind action in
  let grant_ref := "grant:" +:+ act_action_id action in
  {| ar_admitted := true;
     ar_reason_code := reason_ok;
     ar_expires_at := None;
     ar_grant_ref := Some grant_ref;
     ar_policy_snapshot_ref := None;
     ar_sandbox_grant := Some
       {| sg_grant_ref := grant_ref;
          sg_host_kind := host_kind;
          sg_sandbox_profile_ref := Some ("sandbox:" +:+ host_kind_str host_kind +:+ ":default");
          sg_allowed_mounts := ["workspace:/"];
          sg_denied_mounts := [];
          sg_network_policy :=
            if decide (host_kind ≠ remote_service) then "deny_all" else "allow_list";
          sg_allowed_hosts := [] |};
     ar_idempotency_envelope := Some
       [ ("dispatch_idempotency_key",
           PStr ("dispatch:" +:+ act_run_id action +:+ ":" +:+ act_action_id action));
         ("operation_fingerprint", PStr (act_run_id action +:+ ":" +:+ act_action_id action));
         ("attempt_seq", PInt 1);
         ("effect_scope", PStr (effect_class_str (act_effect_class action)));
         ("host_kind", PStr (host_kind_str host_kind)) ] |}.

Module StaticDispatchAdmissionService.
Definition admit_action (action : Action) (snapshot : CapabilitySnapshot) : outcome AdmissionResult :=
  denied_result ← _evaluate_action_policy_denies action;
  match denied_result with
  | Some r => Ok r
  | None => Ok (_build_admitted_result action)
  end.

Definition check (action : Action) (projection : RunProjection) : outcome AdmissionResult :=
  denied_result ← _evaluate_action_policy_denies action;
  match denied_result with
  | Some r => Ok r
  | None =>
      if bool_decide (pj_lifecycle_state projection ∈ [ready; dispatching])
         && pj_ready_for_dispatch projection && negb (pj_waiting_external projection)
      then Ok (_build_admitted_result action)
      else Ok (denied dependency_not_ready)
  end.
End StaticDispatchAdmissionService.

(** ** Executors *)
Definition async_executor_default (action : Action) (grant_ref : option string) : pydict :=
  [ ("action_id", PStr (act_action_id action)); ("grant_ref", opt_str grant_ref);
    ("effect_observed", PBool true); ("acknowledged", PBool true) ].

(** [AsyncExecutorService.execute]; the handler is injected. *)
Definition AsyncExecutorService_execute {E}
    (handler : option (Action → option string → M E pydict)) (action : Action)
    (grant_ref : option string) : M E pydict :=
  match handler with
  | None => mret (async_executor_default action grant_ref)
  | Some h => h action grant_ref
  end.

Definition _first_non_empty_string (values : list pyval) : option string :=
  first_some nonempty_str values.

Inductive ActivityExecutionRoute := route_tool | route_mcp.

#[export] Instance ActivityExecutionRoute_eq_dec : EqDecision ActivityExecutionRoute.
Proof. solve_decision. Defined.

Definition _resolve_activity_execution_route (action : Action) : ActivityExecutionRoute :=
  match py_get "mcp" (default [] (act_input_json action)) with
  | PDict _ => route_mcp
  | _ =>
      if bool_decide (act_action_type action = "mcp") || py_startswith (act_action_type action) "mcp."
      then route_mcp else route_tool
  end.

Record ToolActivityInput := {
  tool_run_id : string; tool_action_id : string; tool_tool_name : string; tool_arguments : pydict
}.
Record MCPActivityInput := {
  mcp_run_id : string; mcp_action_id : string; mcp_server_name : string; mcp_operation : string;
  mcp_arguments : pydict
}.

Definition _build_tool_activity_input (action : Action) : ToolActivityInput :=
  let payload := default [] (act_input_json action) in
  {| tool_run_id := act_run_id action;
     tool_action_id := act_action_id action;
     tool_tool_name := default (act_action_type action)
       (_first_non_empty_string [py_get "tool_name" payload; py_get "name" payload]);
     tool_arguments := default payload (is_dict (py_get "arguments" payload)) |}.

Definition _build_mcp_activity_input (action : Action) : MCPActivityInput :=
  let payload := default [] (act_input_json action) in
  let mcp_dict := default [] (is_dict (py_get "mcp" payload)) in
  {| mcp_run_id := act_run_id action;
     mcp_action_id := act_action_id action;
     mcp_server_name := default "default_mcp_server"
       (_first_non_empty_string
          [py_get "server_name" mcp_dict; py_get "server_id" mcp_dict;
           py_get "server_name" payload; py_get "server_id" payload]);
     mcp_operation := default (act_action_type action)
       (_first_non_empty_string
          [py_get "operation" mcp_dict; py_get "capability_id" mcp_dict; py_get "name" mcp_dict;
           py_get "operation" payload; py_get "capability_id" payload]);
     mcp_arguments :=
       match is_dict (py_get "arguments" mcp_dict) with
       | Some d => d
       | None => default [] (is_dict (py_get "arguments" payload))
       end |}.

(** [ActivityBackedExecutorService.execute], over an injected gateway. *)
Record activity_gateway (E : Type) := {
  execute_mcp : MCPActivityInput → M E pyval;
  execute_tool : ToolActivityInput → M E pyval
}.
Arguments execute_mcp {E}.
Arguments execute_tool {E}.

Definition ActivityBackedExecutorService_execute {E} (gateway : activity_gateway E)
    (action : Action) (grant_ref : option string) : M E pyval :=
  match _resolve_activity_execution_route action with
  | route_mcp => execute_mcp gateway (_build_mcp_activity_input action)
  | route_tool => execute_tool gateway (_build_tool_activity_input action)
  end.

(** ** Properties *)

(** The reason for which a rule denies, the rules in order; [None] where the
    cost of the action cannot be read. *)
Definition denial (action : Action) : outcome (option ReasonCode) :=
  if decide ("requires_human_review" ∈ act_policy_tags action) then Ok (Some policy_denied)
  else if timeout_exceeded (act_timeout_ms action) then Ok (Some policy_denied)
  else
    cost ← _extract_estimated_cost (act_input_json action);
    Ok (if cost_exceeded (_extract_max_cost_from_policy_tags (act_policy_tags action)) cost
        then Some quota_exceeded
        else if _requires_remote_idempotency_contract_block action
             then Some idempotency_contract_insufficient else None).

Lemma evaluate_denial action :
  _evaluate_action_policy_denies action =
  match denial action with
  | Ok d => Ok (option_map denied d)
  | Raise e => Raise e
  end.
Proof.
  unfold _evaluate_action_policy_denies, denial.
  case_decide; [done|]. case_match; [done|].
  destruct (_extract_estimated_cost _); simpl; [|done]. by repeat case_match.
Qed.

(** The gate admits an action exactly when no rule denies it.  [admit_action]
    grants then; [check] grants then exactly on the lifecycle states ready and
    dispatching of a projection that replay produced (its readiness flags never
    disagree with its state), and answers dependency_not_ready in the others.
    A denial carries the reason of the first rule that applies, and no grant;
    the only failure is an estimated cost beyond the range of a float. *)
Theorem static_admission_decides action snapshot run events :
  let p := apply_all (_default_projection run) events in
  match denial action with
  | Ok None =>
      StaticDispatchAdmissionService.admit_action action snapshot = Ok (_build_admitted_result action) ∧
      StaticDispatchAdmissionService.check action p =
        Ok (if decide (pj_lifecycle_state p ∈ [ready; dispatching])
            then _build_admitted_result action else denied dependency_not_ready)
  | Ok (Some reason) =>
      StaticDispatchAdmissionService.admit_action action snapshot = Ok (denied reason) ∧
      StaticDispatchAdmissionService.check action p = Ok (denied reason)
  | Raise e =>
      StaticDispatchAdmissionService.admit_action action snapshot = Raise e ∧
      StaticDispatchAdmissionService.check action p = Raise e ∧
      exn_cls e = OverflowError ∧
      ∃ d z, act_input_json action = Some d ∧ py_get "estimated_cost" d = PInt z ∧
        float_isfinite (float_of_Z z) = false
  end.
Proof.
  intros p. assert (projection_ok p) as [Hf _ _ _].
  { unfold p, apply_all. generalize (projection_ok_default run).
    generalize (_default_projection run).
    induction events as [|e l IH]; intros q Hq; simpl; [done|]. by apply IH, projection_ok_step. }
  unfold StaticDispatchAdmissionService.admit_action, StaticDispatchAdmissionService.check.
  rewrite evaluate_denial. destruct (denial action) as [[r|]|e] eqn:Hd; simpl; [done| |].
  - split; [done|]. revert Hf. clearbody p.
    destruct p as [? st ? w r ? m ? ? ? ?]. simpl. by destruct st; intros [= -> -> ->].
  - split_and!; [done|done| |]; revert Hd; unfold denial;
      (case_decide; [done|]); (case_match; [done|]); unfold _extract_estimated_cost;
      destruct (act_input_json action) as [d|]; simpl; try done;
      unfold _coerce_finite_number; destruct (py_get _ d) eqn:Hg; simpl; try done;
      destruct (float_isfinite _) eqn:Hz; simpl; try done.
    + by intros [= <-].
    + intros _. by exists d, z.
Qed.

(** The envelope of a grant round trips through the turn engine: the
    engine always accepts the payload that the static gate produces and
    dispatches with the turn's own key and fingerprint, attempt 1, the action's
    effect class, the snapshot's hash and the host kind of the sandbox grant. *)
Theorem grant_envelope_round_trip action ti snapshot h :
  _resolve_idempotency_envelope (admission_of_result (_build_admitted_result action))
    ti action snapshot h =
  {| env_dispatch_idempotency_key := id_dispatch_dedupe_key ti;
     env_operation_fingerprint := id_decision_fingerprint ti;
     env_attempt_seq := 1;
     env_effect_scope := effect_class_str (act_effect_class action);
     env_capability_snapshot_hash := cs_snapshot_hash snapshot;
     env_host_kind := _resolve_sandbox_host_kind action;
     env_peer_operation_id := None;
     env_policy_snapshot_ref := None;
     env_rule_bundle_hash := None |}.
Proof.
  unfold admission_of_result, _build_admitted_result.
  generalize (_resolve_sandbox_host_kind action). intros hk.
  by destruct hk, (act_run_id action), (act_effect_class action).
Qed.
