(* ===== verification/SnapshotAdmission.v ===== *)
(** * Snapshot-driven admission ([kernel/admission])

    The five-rule pipeline over a frozen snapshot and the tenant policy, with
    its sliding-window rate limiter.  Readings of [time.monotonic] are exact
    integers (nanoseconds); the rounding of Python's float seconds is not
    modelled. *)
From S2P Require Export Admission.

(** ** Tenant policies *)
Record TenantPolicy := {
  policy_id : string;
  max_allowed_risk_tier : Z;
  allow_non_idempotent_remote_writes : bool;
  max_actions_per_minute : Z
}.

Definition _DEFAULT_POLICY : TenantPolicy :=
  {| policy_id := "default"; max_allowed_risk_tier := 3;
     allow_non_idempotent_remote_writes := false; max_actions_per_minute := 120 |}.

(** [TenantPolicyResolver.resolve]; reading a policy file is injected. *)
Definition resolve (_resolve_file : string → outcome TenantPolicy) (policy_ref : string)
    : outcome TenantPolicy :=
  if decide (policy_ref = "policy:default") then Ok _DEFAULT_POLICY
  else if py_startswith policy_ref "file://" then _resolve_file policy_ref
  else Raise (Exn PolicyResolutionError
         ("Unknown policy_ref format: " +:+ str_repr policy_ref
          +:+ ". Supported formats: 'policy:default', 'file:///absolute/path/to/policy.json'.")).

(** ** The attributes the rules read

    The rules read the action through [getattr] with a default: an attribute
    that the object does not have is [None] here. *)
Record action_attributes := {
  at_action_type : option string;
  at_run_id : option string;
  at_effect_class : option string;
  at_tool_name : option string;
  at_mcp_server : option string;
  at_mcp_capability : option string;
  at_peer_run_id : option string;
  at_idempotency_level : option string;
  at_risk_tier : option Z
}.

(** What the kernel's own [Action] offers: it declares none of the last six. *)
Definition attributes_of (a : Action) : action_attributes :=
  {| at_action_type := Some (act_action_type a);
     at_run_id := Some (act_run_id a);
     at_effect_class := Some (effect_class_str (act_effect_class a));
     at_tool_name := None; at_mcp_server := None; at_mcp_capability := None;
     at_peer_run_id := None; at_idempotency_level := None; at_risk_tier := None |}.

(** ** The rules *)
Definition _check_permission_mode (a : action_attributes) (s : CapabilitySnapshot)
    : option AdmissionResult :=
  if decide (cs_permission_mode s ∈ ["readonly"; "read_only"]) then
    if decide (at_action_type a ∉ [Some "noop"; Some "read"])
    then Some (denied permission_denied) else None
  else None.

Definition _check_binding_existence (a : action_attributes) (s : CapabilitySnapshot)
    : option AdmissionResult :=
  if decide (at_action_type a = Some "tool_call") then
    match at_tool_name a with
    | Some tool_name =>
        if decide (tool_name ∉ cs_tool_bindings s) then Some (denied policy_denied) else None
    | None => None
    end
  else if decide (at_action_type a = Some "mcp_call") then
    match at_mcp_server a, at_mcp_capability a with
    | Some mcp_server, Some mcp_capability =>
        if decide (mcp_server +:+ "/" +:+ mcp_capability ∉ cs_mcp_bindings s)
        then Some (denied policy_denied) else None
    | _, _ => None
    end
  else if decide (at_action_type a = Some "peer_signal") then
    match cs_peer_run_bindings s, at_peer_run_id a with
    | _ :: _, Some peer_run_id =>
        if decide (peer_run_id ∉ cs_peer_run_bindings s)
        then Some (denied policy_denied) else None
    | _, _ => None
    end
  else None.

Definition _check_idempotency (a : action_attributes) (policy : TenantPolicy)
    : option AdmissionResult :=
  if allow_non_idempotent_remote_writes policy then None
  else if decide (at_idempotency_level a = Some "non_idempotent" ∧
                  at_effect_class a ∈ [Some "remote_write"; Some "irreversible_write"])
       then Some (denied policy_denied) else None.

Definition _check_risk_tier (a : action_attributes) (policy : TenantPolicy)
    : option AdmissionResult :=
  if (max_allowed_risk_tier policy <? default 0 (at_risk_tier a))%Z
  then Some (denied policy_denied) else None.

(** [_rate_windows]: admission timestamps per run, oldest first. *)
Abbreviation rate_windows := (gmap string (list Z)).

Definition one_minute : Z := 60 * 10 ^ 9.

(** [while window and window[0] < window_start: window.popleft()]. *)
Fixpoint evict_older (window_start : Z) (window : list Z) : list Z :=
  match window with
  | t :: window' => if (t <? window_start)%Z then evict_older window_start window' else window
  | [] => []
  end.

Definition _check_rate_limit (now : Z) (a : action_attributes) (policy : TenantPolicy)
    : M rate_windows (option AdmissionResult) :=
  let run_id := default "" (at_run_id a) in
  window ← gets (λ w, evict_older (now - one_minute) (default [] (w !! run_id)));
  if (max_actions_per_minute policy <=? Z.of_nat (length window))%Z then
    modify (λ w, <[run_id := window]> w);;
    mret (Some (denied quota_exceeded))
  else
    modify (λ w, <[run_id := window ++ [now]]> w);;
    mret None.

Definition admitted_ok : AdmissionResult :=
  {| ar_admitted := true; ar_reason_code := reason_ok; ar_expires_at := None;
     ar_grant_ref := None; ar_policy_snapshot_ref := None; ar_sandbox_grant := None;
     ar_idempotency_envelope := None |}.

(** [tenant_policy_ref or "policy:default"]. *)
Definition policy_ref_of (s : CapabilitySnapshot) : string :=
  if decide (cs_tenant_policy_ref s = "") then "policy:default" else cs_tenant_policy_ref s.

Definition admit_action (resolver : string → outcome TenantPolicy) (now : Z) (a : action_attributes)
    (s : CapabilitySnapshot) : M rate_windows AdmissionResult :=
  policy ← lift (resolver (policy_ref_of s));
  match _check_permission_mode a s with
  | Some result => mret result
  | None =>
  match _check_binding_existence a s with
  | Some result => mret result
  | None =>
  match _check_idempotency a policy with
  | Some result => mret result
  | None =>
  match _check_risk_tier a policy with
  | Some result => mret result
  | None =>
      result ← _check_rate_limit now a policy;
      match result with
      | Some result => mret result
      | None => mret admitted_ok
      end
  end end end end.

(** ** Histories of requests *)
Record request := { rr_now : Z; rr_action : action_attributes; rr_snapshot : CapabilitySnapshot }.

(** Serve the requests in order; per request, whether it was admitted. *)
Fixpoint serve (resolver : string → outcome TenantPolicy) (rs : list request) (w : rate_windows)
    : list (outcome AdmissionResult) * rate_windows :=
  match rs with
  | [] => ([], w)
  | r :: rs' =>
      let '(o, w1) := admit_action resolver (rr_now r) (rr_action r) (rr_snapshot r) w in
      let '(os, w2) := serve resolver rs' w1 in
      (o :: os, w2)
  end.

Definition run_of (r : request) : string := default "" (at_run_id (rr_action r)).

(** The times at which requests of [run] were admitted. *)
Fixpoint admitted_times (run : string) (rs : list request) (os : list (outcome AdmissionResult))
    : list Z :=
  match rs, os with
  | r :: rs', o :: os' =>
      match o with
      | Ok res => if bool_decide (run_of r = run) && ar_admitted res then [rr_now r] else []
      | Raise _ => []
      end ++ admitted_times run rs' os'
  | _, _ => []
  end.

(** ** The rate limiter *)
Definition since (b : Z) (l : list Z) : list Z := filter (λ t, (b ≤ t)%Z) l.

Lemma evict_older_sorted b l : StronglySorted Z.le l → evict_older b l = since b l.
Proof.
  unfold since. induction 1 as [|t l Hl IH Ht]; simpl; [done|]. rewrite filter_cons.
  destruct (Z.ltb_spec t b); case_decide; try lia; [done|].
  f_equal. symmetry. clear IH. induction Ht as [|u l Hu _ IHl]; [done|].
  rewrite filter_cons_True by lia. f_equal. apply IHl. by inversion Hl.
Qed.

Lemma since_since b0 b l : (b0 ≤ b)%Z → since b (since b0 l) = since b l.
Proof.
  intros Hb. unfold since. rewrite list_filter_filter_l; [done|]. intros. lia.
Qed.

Lemma since_sorted b l : StronglySorted Z.le l → StronglySorted Z.le (since b l).
Proof.
  unfold since. induction 1 as [|t l Hl IH Ht]; simpl; [constructor|]. rewrite filter_cons.
  case_decide; [|done]. constructor; [done|]. rewrite Forall_forall in *.
  intros u [_ Hu]%list_elem_of_filter. auto.
Qed.

(** Rules 1 to 4, the first denial wins. *)
Definition static_denial (a : action_attributes) (s : CapabilitySnapshot) (policy : TenantPolicy)
    : option AdmissionResult :=
  first_some id [ _check_permission_mode a s; _check_binding_existence a s;
                  _check_idempotency a policy; _check_risk_tier a policy ].

Lemma admit_static resolver now a s w :
  admit_action resolver now a s w =
  match resolver (policy_ref_of s) with
  | Raise e => (Raise e, w)
  | Ok policy =>
      match static_denial a s policy with
      | Some result => (Ok result, w)
      | None =>
          let run_id := default "" (at_run_id a) in
          let window := evict_older (now - one_minute) (default [] (w !! run_id)) in
          if (max_actions_per_minute policy <=? Z.of_nat (length window))%Z
          then (Ok (denied quota_exceeded), <[run_id := window]> w)
          else (Ok admitted_ok, <[run_id := window ++ [now]]> w)
      end
  end.
Proof.
  unfold admit_action, lift, mbind, M_bind, static_denial. simpl.
  destruct (resolver _) as [policy|e]; [|done].
  destruct (_check_permission_mode a s); [done|].
  destruct (_check_binding_existence a s); [done|].
  destruct (_check_idempotency a policy); [done|].
  destruct (_check_risk_tier a policy); [done|].
  unfold _check_rate_limit, gets, modify, mbind, M_bind. simpl.
  by destruct (max_actions_per_minute policy <=? _)%Z.
Qed.

(** A rule passes or denies with a reason. *)
Definition rule_result (d : option AdmissionResult) : Prop :=
  d = None ∨ ∃ reason, d = Some (denied reason).

Lemma permission_rule a s : rule_result (_check_permission_mode a s).
Proof. unfold rule_result, _check_permission_mode. repeat case_decide; eauto. Qed.

Lemma binding_rule a s : rule_result (_check_binding_existence a s).
Proof.
  unfold rule_result, _check_binding_existence.
  repeat (case_decide || case_match); eauto.
Qed.

Lemma idempotency_rule a policy : rule_result (_check_idempotency a policy).
Proof. unfold rule_result, _check_idempotency. case_match; [eauto|]. case_decide; eauto. Qed.

Lemma risk_rule a policy : rule_result (_check_risk_tier a policy).
Proof. unfold rule_result, _check_risk_tier. case_match; eauto. Qed.

Lemma static_denial_denies a s policy result :
  static_denial a s policy = Some result → ar_admitted result = false.
Proof.
  unfold static_denial. simpl.
  destruct (permission_rule a s) as [->|[r ->]]; simpl; [|by intros [= <-]].
  destruct (binding_rule a s) as [->|[r ->]]; simpl; [|by intros [= <-]].
  destruct (idempotency_rule a policy) as [->|[r ->]]; simpl; [|by intros [= <-]].
  destruct (risk_rule a policy) as [->|[r ->]]; simpl; [done|by intros [= <-]].
Qed.

(** The limiter's memory of a run: the admissions that may still count. *)
Record remembers (run : string) (last : Z) (times : list Z) (w : rate_windows) (N : Z) : Prop := {
  rm_sorted : StronglySorted Z.le times;
  rm_past t : t ∈ times → (t ≤ last)%Z;
  rm_window : ∃ b, (b ≤ last - one_minute)%Z ∧ default [] (w !! run) = since b times;
  rm_bound T : (Z.of_nat (length (filter (λ t, T - one_minute ≤ t ≤ T)%Z times)) ≤ N)%Z
}.

Lemma remembers_later run last last' times w w' N :
  remembers run last times w N → (last ≤ last')%Z →
  (w' !! run = w !! run ∨
   w' !! run = Some (evict_older (last' - one_minute) (default [] (w !! run)))) →
  remembers run last' times w' N.
Proof.
  intros [Hs Hp (b & Hb & Hw) Hn] Hl Hw'. split; [done| |  |done].
  - intros t Ht. specialize (Hp t Ht). lia.
  - destruct Hw' as [->| ->]; [exists b; split; [lia|done]|].
    exists (last' - one_minute)%Z. split; [lia|]. simpl. rewrite Hw.
    rewrite evict_older_sorted by by apply since_sorted. apply since_since. lia.
Qed.

Lemma length_filter_mono {A} (P Q : A → Prop) `{!∀ x, Decision (P x), !∀ x, Decision (Q x)} l :
  (∀ x, P x → Q x) → length (filter P l) ≤ length (filter Q l).
Proof.
  intros HPQ. induction l as [|x l IH]; [done|]. rewrite !filter_cons.
  repeat case_decide; simpl; try lia. exfalso. auto.
Qed.

Lemma remembers_admit run last now times w N :
  remembers run last times w N → (last ≤ now)%Z →
  let window := evict_older (now - one_minute) (default [] (w !! run)) in
  (Z.of_nat (length window) < N)%Z →
  remembers run now (times ++ [now]) (<[run := window ++ [now]]> w) N.
Proof.
  intros [Hs Hp (b & Hb & Hw) Hn] Hl window Hlen.
  assert (window = since (now - one_minute) times) as Hwin.
  { unfold window. rewrite Hw, evict_older_sorted by by apply since_sorted.
    apply since_since. lia. }
  assert (∀ t, t ∈ times → (t ≤ now)%Z) as Hnow by (intros t Ht; specialize (Hp t Ht); lia).
  split.
  - apply StronglySorted_app_2; [|done|repeat constructor].
    intros x y Hx Hy%list_elem_of_singleton. subst y. auto.
  - intros t [?|Ht%list_elem_of_singleton]%elem_of_app; [auto|lia].
  - exists (now - one_minute)%Z. split; [lia|]. rewrite lookup_insert_eq. simpl.
    rewrite Hwin. unfold since. rewrite filter_app. f_equal.
    rewrite filter_cons_True by (unfold one_minute; lia). done.
  - intros T. rewrite filter_app, length_app. destruct (decide (T < now)%Z) as [HT|HT].
    + rewrite (filter_cons_False _ now) by lia. simpl. rewrite Nat.add_0_r. apply Hn.
    + assert (length (filter (λ t, T - one_minute ≤ t ≤ T)%Z times) ≤ length window) as Hle.
      { rewrite Hwin. apply length_filter_mono. intros x. lia. }
      assert (length (filter (λ t, T - one_minute ≤ t ≤ T)%Z [now]) ≤ 1) by (apply length_filter).
      lia.
Qed.

(** One request, as the limiter sees it. *)
Lemma serve_one resolver N run last times w r o w' :
  (∀ ref policy, resolver ref = Ok policy → (max_actions_per_minute policy ≤ N)%Z) →
  remembers run last times w N → (last ≤ rr_now r)%Z →
  admit_action resolver (rr_now r) (rr_action r) (rr_snapshot r) w = (o, w') →
  remembers run (rr_now r) (times ++ admitted_times run [r] [o]) w' N.
Proof.
  intros HN Hrm Hl. rewrite admit_static. simpl. rewrite app_nil_r.
  assert (∀ w', w' !! run = w !! run → remembers run (rr_now r) (times ++ []) w' N) as Hsame.
  { intros w1 Hw1. rewrite app_nil_r. eapply remembers_later; eauto. }
  destruct (resolver _) as [policy|e] eqn:Hp; [|intros [= <- <-]; by apply Hsame].
  destruct (static_denial _ _ _) as [res|] eqn:Hd.
  { intros [= <- <-]. rewrite (static_denial_denies _ _ _ _ Hd), andb_false_r. by apply Hsame. }
  fold (run_of r). destruct (decide (run_of r = run)) as [Hr|Hr].
  - rewrite bool_decide_true by done. rewrite Hr. destruct (Z.leb_spec (max_actions_per_minute policy)
      (Z.of_nat (length (evict_older (rr_now r - one_minute) (default [] (w !! run))))));
      intros [= <- <-]; simpl.
    + rewrite app_nil_r. eapply remembers_later; [done|done|]. right. by rewrite lookup_insert_eq.
    + apply (remembers_admit run last); [done|done|]. specialize (HN _ _ Hp). lia.
  - rewrite bool_decide_false by done.
    destruct (_ <=? _)%Z; intros [= <- <-]; simpl; apply Hsame; by rewrite lookup_insert_ne.
Qed.

Lemma serve_remembers resolver N run rs : ∀ last times w,
  (∀ ref policy, resolver ref = Ok policy → (max_actions_per_minute policy ≤ N)%Z) →
  remembers run last times w N → StronglySorted Z.le (last :: map rr_now rs) →
  ∃ last', remembers run last' (times ++ admitted_times run rs (serve resolver rs w).1)
             (serve resolver rs w).2 N.
Proof.
  induction rs as [|r rs IH]; intros last times w HN Hrm Hs; simpl.
  { exists last. by rewrite app_nil_r. }
  apply StronglySorted_cons in Hs as [Hl Hs]. simpl in Hl, Hs. apply Forall_cons in Hl as [Hl _].
  destruct (admit_action _ _ _ _ w) as [o w1] eqn:Ho.
  pose proof (serve_one resolver N run last times w r o w1 HN Hrm Hl Ho) as H1. simpl in H1.
  destruct (IH (rr_now r) _ w1 HN H1 Hs) as [last' Hl'].
  destruct (serve resolver rs w1) as [os w2]. exists last'. simpl in *.
  by rewrite app_nil_r, <- app_assoc in Hl'.
Qed.

(** C10: the rate limiter keeps its promise over every 60-second window, not
    only the one that ends at a request: along any sequence of requests on a
    clock that does not run backwards, with any denials and policy failures in
    between, at most N requests of a run are admitted at times within one
    minute of each other, where N bounds the limits of the policies. *)
Theorem rate_limit_every_window resolver N run rs start T :
  (0 ≤ N)%Z → (∀ ref policy, resolver ref = Ok policy → (max_actions_per_minute policy ≤ N)%Z) →
  StronglySorted Z.le (start :: map rr_now rs) →
  (Z.of_nat (length (filter (λ t, T - one_minute ≤ t ≤ T)%Z
     (admitted_times run rs (serve resolver rs ∅).1))) ≤ N)%Z.
Proof.
  intros HN0 HN Hs. destruct (serve_remembers resolver N run rs start [] ∅ HN) as [l Hl]; [|done|].
  - split; [constructor|by intros t ?%elem_of_nil| |done].
    exists (start - one_minute)%Z. split; [lia|]. by rewrite lookup_empty.
  - by apply (rm_bound _ _ _ _ _ Hl).
Qed.

Lemma elem_of_Some_pair (x a b : string) : Some x ∈ [Some a; Some b] ↔ x ∈ [a; b].
Proof. rewrite !elem_of_cons, !elem_of_nil. naive_solver. Qed.

(** For the kernel's own actions, the gate comes down to the permission
    mode and the rate limit.  An action that is not a noop or a read is denied
    in read-only mode with permission_denied; every other request is admitted
    while the run's window has room and answered quota_exceeded when it is
    full: rules 2 to 4 read attributes the kernel's Action does not declare, so
    an unbound tool, server or peer is never denied here. *)
Theorem kernel_action_admission resolver now a s w policy :
  resolver (policy_ref_of s) = Ok policy → (0 ≤ max_allowed_risk_tier policy)%Z →
  (admit_action resolver now (attributes_of a) s w).1 =
    if decide (cs_permission_mode s ∈ ["readonly"; "read_only"] ∧
               act_action_type a ∉ ["noop"; "read"])
    then Ok (denied permission_denied)
    else if (max_actions_per_minute policy <=?
             Z.of_nat (length (evict_older (now - one_minute) (default [] (w !! act_run_id a)))))%Z
         then Ok (denied quota_exceeded) else Ok admitted_ok.
Proof.
  intros Hp Hrisk. rewrite admit_static, Hp.
  assert (static_denial (attributes_of a) s policy =
          if decide (cs_permission_mode s ∈ ["readonly"; "read_only"] ∧
                     act_action_type a ∉ ["noop"; "read"])
          then Some (denied permission_denied) else None) as ->.
  { assert (_check_binding_existence (attributes_of a) s = None) as Hb.
    { unfold _check_binding_existence. simpl. repeat case_decide; try done. by case_match. }
    assert (_check_idempotency (attributes_of a) policy = None) as Hi.
    { unfold _check_idempotency. case_match; [done|]. rewrite decide_False; [done|]. by intros [? _]. }
    assert (_check_risk_tier (attributes_of a) policy = None) as Hk.
    { unfold _check_risk_tier. simpl. by destruct (Z.ltb_spec (max_allowed_risk_tier policy) 0); [lia|]. }
    unfold static_denial. simpl. rewrite Hb, Hi, Hk. unfold _check_permission_mode. simpl.
    destruct (decide (cs_permission_mode s ∈ _)) as [Hm|Hm].
    - destruct (decide (Some _ ∉ _)) as [Ht|Ht]; simpl.
      + rewrite decide_True; [done|]. split; [done|]. by rewrite <- elem_of_Some_pair.
      + rewrite decide_False; [done|]. intros [_ Hn]. by rewrite elem_of_Some_pair in Ht.
    - rewrite decide_False by (by intros [? _]). done. }
  case_decide; [done|]. simpl. by destruct (_ <=? _)%Z.
Qed.

(** Requests one per second for three minutes under the default policy. *)
Definition example_snapshot : CapabilitySnapshot :=
  {| cs_snapshot_ref := "snapshot:run-1:3:h"; cs_snapshot_hash := "h"; cs_run_id := "run-1";
     cs_based_on_offset := 3; cs_tenant_policy_ref := "policy:default";
     cs_permission_mode := "strict"; cs_tool_bindings := ["tool.read"]; cs_mcp_bindings := [];
     cs_skill_bindings := []; cs_feature_flags := []; cs_context_binding_ref := None;
     cs_context_content_hash := None; cs_budget_ref := None; cs_quota_ref := None;
     cs_session_mode := None; cs_approval_state := None; cs_declarative_bundle_digest := None;
     cs_created_at := ""; cs_snapshot_schema_version := "1"; cs_peer_run_bindings := [] |}.

Definition unbound_tool_call : Action := {|
  act_action_id := "a1"; act_run_id := "run-1"; act_action_type := "tool_call";
  act_effect_class := IRREVERSIBLE_WRITE; act_external_idempotency_level := None;
  act_interaction_target := None; act_input_ref := None;
  act_input_json := Some [("tool_name", PStr "tool.unbound")];
  act_policy_tags := []; act_timeout_ms := None; act_side_effect_class := None |}.

Definition tight_policy : TenantPolicy :=
  {| policy_id := "tight"; max_allowed_risk_tier := 3;
     allow_non_idempotent_remote_writes := false; max_actions_per_minute := 2 |}.

Definition example_requests : list request :=
  map (λ t, {| rr_now := t * 10 ^ 9; rr_action := attributes_of unbound_tool_call;
               rr_snapshot := example_snapshot |})
    [0; 10; 20; 60; 61; 70; 75]%Z.

Lemma rate_limit_every_window_witness :
  admitted_times "run-1" example_requests (serve (λ _, Ok tight_policy) example_requests ∅).1 =
    map (λ t, t * 10 ^ 9)%Z [0; 10; 61; 75]%Z ∧
  (Z.of_nat (length (filter (λ t, 61 * 10 ^ 9 - one_minute ≤ t ≤ 61 * 10 ^ 9)%Z
     (admitted_times "run-1" example_requests
        (serve (λ _, Ok tight_policy) example_requests ∅).1))) ≤ 2)%Z.
Proof.
  split; [vm_compute; reflexivity|].
  apply (rate_limit_every_window (λ _, Ok tight_policy) 2 "run-1" example_requests 0).
  - lia.
  - by intros ref policy [= <-].
  - repeat constructor; by vm_compute.
Defined.

Lemma kernel_action_admission_witness :
  (admit_action (resolve (λ _, Raise (Exn PolicyResolutionError ""))) 0 (attributes_of unbound_tool_call)
     example_snapshot ∅).1 = Ok admitted_ok.
Proof.
  rewrite (kernel_action_admission _ 0 unbound_tool_call example_snapshot ∅ _DEFAULT_POLICY);
    [vm_compute; reflexivity|vm_compute; reflexivity|vm_compute; discriminate].
Defined.
