(* ===== verification/TaskRegistry.v ===== *)
(** * The task registry ([kernel/task_manager])

    Task descriptors, attempts and lifecycle, the event log that makes them
    recoverable, its replay, and the watchdog.  Times are arguments: the
    millisecond clock of [_now_ms] and the timestamp of [datetime.now]. *)
From S2P Require Export Contracts.

(** ** Contracts ([task_manager/contracts.py]) *)
Inductive TaskLifecycleState :=
  | ts_pending | ts_running | ts_completed | ts_failed | ts_restarting | ts_reflecting
  | ts_escalated | ts_aborted.

#[export] Instance TaskLifecycleState_eq_dec : EqDecision TaskLifecycleState.
Proof. solve_decision. Defined.

Inductive ExhaustedPolicy := on_reflect | on_escalate | on_abort.

Record TaskRestartPolicy := {
  max_attempts : Z;
  backoff_base_ms : Z;
  max_backoff_ms : Z;
  on_exhausted : ExhaustedPolicy;
  heartbeat_timeout_ms : Z
}.

Inductive task_kind := root_task | plan_step | parallel_branch | speculative_candidate.

Record TaskDescriptor := {
  td_task_id : string;
  td_session_id : string;
  td_task_kind : task_kind;
  td_goal_description : string;
  td_parent_task_id : option string;
  td_dependency_task_ids : list string;
  td_restart_policy : TaskRestartPolicy;
  td_metadata : pydict
}.

Record TaskAttempt := {
  ta_attempt_id : string;
  ta_task_id : string;
  ta_run_id : string;
  ta_attempt_seq : Z;
  ta_started_at : string;
  ta_completed_at : option string;
  ta_outcome : option string;
  ta_failure : option FailureEnvelope;
  ta_reflection_output : option string
}.

Record TaskHealthStatus := {
  th_task_id : string;
  th_lifecycle_state : TaskLifecycleState;
  th_current_run_id : option string;
  th_attempt_seq : Z;
  th_max_attempts : Z;
  th_last_heartbeat_ms : option Z;
  th_consecutive_missed_beats : Z;
  th_is_stalled : bool
}.

(** ** Task events ([task_manager/event_log.py])

    A record [{"event_type": ..., "payload": ...}], with the payload's keys as
    the constructor's fields. *)
Inductive task_event :=
  | TaskRegistered (task_id session_id : string) (kind : task_kind) (goal_description : string)
      (parent_task_id : option string) (dependency_task_ids : list string) (metadata : pydict)
      (max_attempts backoff_base_ms : Z) (on_exhausted : ExhaustedPolicy)
      (heartbeat_timeout_ms : Z)
  | TaskAttemptStarted (attempt_id task_id run_id : string) (attempt_seq : Z) (started_at : string)
  | TaskAttemptCompleted (task_id run_id outcome : string)
  | TaskAttemptFailed (task_id run_id outcome : string)
  | TaskState (task_id : string) (state : TaskLifecycleState).

Module InMemoryTaskEventLog.
Record t := { _events : list task_event; _max_events : Z }.

Definition __init__ (max_events : Z) : t := {| _events := []; _max_events := max_events |}.

Definition append_task_event (event : task_event) (l : t) : t :=
  let kept :=
    if (_max_events l <=? Z.of_nat (length (_events l)))%Z
    then drop (Z.to_nat (Z.max 1 (_max_events l / 4))) (_events l)
    else _events l in
  {| _events := kept ++ [event]; _max_events := _max_events l |}.

Definition all_events (l : t) : list task_event := _events l.
End InMemoryTaskEventLog.

(** ** The registry ([task_manager/registry.py]) *)
Record _TaskEntry := {
  te_descriptor : TaskDescriptor;
  te_lifecycle_state : TaskLifecycleState;
  te_attempts : list TaskAttempt;
  te_last_heartbeat_ms : option Z;
  te_consecutive_missed_beats : Z
}.

Module TaskRegistry.
Record t := {
  _tasks : odict _TaskEntry;
  _session_index : gmap string (list string);
  _run_index : gmap string string;
  _max_tasks : Z;
  _event_appender : option InMemoryTaskEventLog.t
}.

Definition __init__ (max_tasks : Z) (event_appender : option InMemoryTaskEventLog.t) : t :=
  {| _tasks := []; _session_index := ∅; _run_index := ∅; _max_tasks := max_tasks;
     _event_appender := event_appender |}.

Definition with_tasks (tasks : odict _TaskEntry) (r : t) : t :=
  {| _tasks := tasks; _session_index := _session_index r; _run_index := _run_index r;
     _max_tasks := _max_tasks r; _event_appender := _event_appender r |}.

Definition with_run_index (idx : gmap string string) (r : t) : t :=
  {| _tasks := _tasks r; _session_index := _session_index r; _run_index := idx;
     _max_tasks := _max_tasks r; _event_appender := _event_appender r |}.

Definition with_session_index (idx : gmap string (list string)) (r : t) : t :=
  {| _tasks := _tasks r; _session_index := idx; _run_index := _run_index r;
     _max_tasks := _max_tasks r; _event_appender := _event_appender r |}.

Definition _emit (event : task_event) (r : t) : t :=
  {| _tasks := _tasks r; _session_index := _session_index r; _run_index := _run_index r;
     _max_tasks := _max_tasks r;
     _event_appender := InMemoryTaskEventLog.append_task_event event <$> _event_appender r |}.

Definition is_terminal (st : TaskLifecycleState) : bool :=
  bool_decide (st ∈ [ts_completed; ts_aborted; ts_escalated]).

(** One iteration of the eviction loop. *)
Definition evict_one (r : t) (tid : string) : t :=
  match od_get tid (_tasks r) with
  | None => r
  | Some entry =>
      let sid := td_session_id (te_descriptor entry) in
      with_session_index
        (match _session_index r !! sid with
         | Some ids => <[sid := filter (λ i, i ≠ tid) ids]> (_session_index r)
         | None => _session_index r
         end)
        (with_tasks (od_del tid (_tasks r)) r)
  end.

Definition terminal_ids (r : t) : list string :=
  map fst (filter (λ kv, is_terminal (te_lifecycle_state (snd kv)) = true) (_tasks r)).

Definition _evict_if_needed (r : t) : t :=
  if (Z.of_nat (length (_tasks r)) <? _max_tasks r)%Z then r
  else
    let terminal := terminal_ids r in
    let to_evict := take (Nat.max 1 (length terminal / 2)) terminal in
    fold_left evict_one to_evict r.

Definition registered_event (d : TaskDescriptor) : task_event :=
  let p := td_restart_policy d in
  TaskRegistered (td_task_id d) (td_session_id d) (td_task_kind d) (td_goal_description d)
    (td_parent_task_id d) (td_dependency_task_ids d) (td_metadata d)
    (max_attempts p) (backoff_base_ms p) (on_exhausted p) (heartbeat_timeout_ms p).

Definition new_entry (d : TaskDescriptor) : _TaskEntry :=
  {| te_descriptor := d; te_lifecycle_state := ts_pending; te_attempts := [];
     te_last_heartbeat_ms := None; te_consecutive_missed_beats := 0 |}.

Definition register (descriptor : TaskDescriptor) : M t unit :=
  present ← gets (λ r, bool_decide (is_Some (od_get (td_task_id descriptor) (_tasks r))));
  if (present : bool)
  then raise (Exn ValueError
         ("Task '" +:+ td_task_id descriptor +:+ "' is already registered. "
          +:+ "Use a different task_id or call update_state() instead."))
  else
    modify _evict_if_needed;;
    modify (λ r, with_tasks (od_set (td_task_id descriptor) (new_entry descriptor) (_tasks r)) r);;
    modify (λ r, with_session_index
      (<[td_session_id descriptor :=
          default [] (_session_index r !! td_session_id descriptor) ++ [td_task_id descriptor]]>
         (_session_index r)) r);;
    modify (_emit (registered_event descriptor)).

Definition start_attempt (now_ms : Z) (attempt : TaskAttempt) : M t unit :=
  entry ← gets (λ r, od_get (ta_task_id attempt) (_tasks r));
  match entry with
  | None => raise (Exn KeyError (ta_task_id attempt))
  | Some entry =>
      modify (λ r, with_tasks (od_set (ta_task_id attempt)
        {| te_descriptor := te_descriptor entry;
           te_lifecycle_state := ts_running;
           te_attempts := te_attempts entry ++ [attempt];
           te_last_heartbeat_ms := Some now_ms;
           te_consecutive_missed_beats := te_consecutive_missed_beats entry |} (_tasks r)) r);;
      modify (λ r, with_run_index
                     (<[ta_run_id attempt := ta_task_id attempt]> (_run_index r)) r);;
      modify (_emit (TaskAttemptStarted (ta_attempt_id attempt) (ta_task_id attempt)
                       (ta_run_id attempt) (ta_attempt_seq attempt) (ta_started_at attempt)))
  end.

(** [a.run_id == run_id and a.outcome is None]. *)
Definition is_active (run_id : string) (a : TaskAttempt) : bool :=
  bool_decide (ta_run_id a = run_id ∧ ta_outcome a = None).

Definition finish_attempt (run_id outcome now_iso : string) (failure : option FailureEnvelope)
    (a : TaskAttempt) : TaskAttempt :=
  if is_active run_id a then
    {| ta_attempt_id := ta_attempt_id a; ta_task_id := ta_task_id a; ta_run_id := ta_run_id a;
       ta_attempt_seq := ta_attempt_seq a; ta_started_at := ta_started_at a;
       ta_completed_at := Some now_iso; ta_outcome := Some outcome;
       ta_failure := if decide (outcome ≠ "completed") then failure else None;
       ta_reflection_output := ta_reflection_output a |}
  else a.

Definition complete_attempt (now_iso : string) (task_id run_id outcome : string)
    (failure : option FailureEnvelope) : M t unit :=
  entry ← gets (λ r, od_get task_id (_tasks r));
  match entry with
  | None => mret tt
  | Some entry =>
      if negb (existsb (is_active run_id) (te_attempts entry)) then mret tt
      else
        modify (λ r, with_tasks (od_set task_id
          {| te_descriptor := te_descriptor entry;
             te_lifecycle_state :=
               if decide (outcome = "completed") then ts_completed else ts_failed;
             te_attempts := map (finish_attempt run_id outcome now_iso failure) (te_attempts entry);
             te_last_heartbeat_ms := te_last_heartbeat_ms entry;
             te_consecutive_missed_beats := te_consecutive_missed_beats entry |} (_tasks r)) r);;
        modify (λ r, with_run_index (delete run_id (_run_index r)) r);;
        modify (_emit (if decide (outcome = "completed")
                       then TaskAttemptCompleted task_id run_id outcome
                       else TaskAttemptFailed task_id run_id outcome))
  end.

(** The keys of [state_event_map]. *)
Definition logged_state (st : TaskLifecycleState) : bool :=
  bool_decide (st ∈ [ts_restarting; ts_reflecting; ts_completed; ts_escalated; ts_aborted]).

Definition update_state (task_id : string) (state : TaskLifecycleState) : M t unit :=
  entry ← gets (λ r, od_get task_id (_tasks r));
  match entry with
  | None => mret tt
  | Some entry =>
      modify (λ r, with_tasks (od_set task_id
        {| te_descriptor := te_descriptor entry;
           te_lifecycle_state := state;
           te_attempts := te_attempts entry;
           te_last_heartbeat_ms := te_last_heartbeat_ms entry;
           te_consecutive_missed_beats := te_consecutive_missed_beats entry |} (_tasks r)) r);;
      if logged_state state then modify (_emit (TaskState task_id state)) else mret tt
  end.

(** The heartbeat of one entry: strictly after the previous one. *)
Definition beat (now : Z) (entry : _TaskEntry) : _TaskEntry :=
  let now :=
    match te_last_heartbeat_ms entry with
    | Some last => if (now <=? last)%Z then (last + 1)%Z else now
    | None => now
    end in
  {| te_descriptor := te_descriptor entry;
     te_lifecycle_state := te_lifecycle_state entry;
     te_attempts := te_attempts entry;
     te_last_heartbeat_ms := Some now;
     te_consecutive_missed_beats := 0 |}.

Definition heartbeat (now : Z) (task_id : string) : M t unit :=
  entry ← gets (λ r, od_get task_id (_tasks r));
  match entry with
  | None => mret tt
  | Some entry => modify (λ r, with_tasks (od_set task_id (beat now entry) (_tasks r)) r)
  end.

Definition heartbeat_for_run (now : Z) (run_id : string) : M t unit :=
  task_id ← gets (λ r, _run_index r !! run_id);
  match task_id with
  | None => mret tt
  | Some task_id => heartbeat now task_id
  end.

(** *** Queries *)
Definition get (task_id : string) (r : t) : option TaskDescriptor :=
  te_descriptor <$> od_get task_id (_tasks r).

Definition current_run_id (entry : _TaskEntry) : option string :=
  match last (te_attempts entry) with
  | Some a => match ta_outcome a with None => Some (ta_run_id a) | Some _ => None end
  | None => None
  end.

Definition is_stalled (now : Z) (entry : _TaskEntry) : bool :=
  bool_decide (te_lifecycle_state entry ∈ [ts_running; ts_restarting]) &&
  match te_last_heartbeat_ms entry with
  | Some last =>
      (heartbeat_timeout_ms (td_restart_policy (te_descriptor entry)) <? now - last)%Z
  | None => false
  end.

Definition health (task_id : string) (entry : _TaskEntry) (stalled : bool) : TaskHealthStatus :=
  {| th_task_id := task_id;
     th_lifecycle_state := te_lifecycle_state entry;
     th_current_run_id := current_run_id entry;
     th_attempt_seq := Z.of_nat (length (te_attempts entry));
     th_max_attempts := max_attempts (td_restart_policy (te_descriptor entry));
     th_last_heartbeat_ms := te_last_heartbeat_ms entry;
     th_consecutive_missed_beats := te_consecutive_missed_beats entry;
     th_is_stalled := stalled |}.

Definition get_health (now : Z) (task_id : string) (r : t) : option TaskHealthStatus :=
  entry ← od_get task_id (_tasks r);
  Some (health task_id entry (is_stalled now entry)).

Definition get_attempts (task_id : string) (r : t) : list TaskAttempt :=
  default [] (te_attempts <$> od_get task_id (_tasks r)).

Definition list_session_tasks (session_id : string) (r : t) : list TaskDescriptor :=
  omap (λ tid, get tid r) (default [] (_session_index r !! session_id)).

Definition get_task_id_for_run (run_id : string) (r : t) : option string := _run_index r !! run_id.

(** [entry.consecutive_missed_beats += 1] for the stalled entries. *)
Definition miss (now : Z) (entry : _TaskEntry) : _TaskEntry :=
  if is_stalled now entry then
    {| te_descriptor := te_descriptor entry;
       te_lifecycle_state := te_lifecycle_state entry;
       te_attempts := te_attempts entry;
       te_last_heartbeat_ms := te_last_heartbeat_ms entry;
       te_consecutive_missed_beats := (te_consecutive_missed_beats entry + 1)%Z |}
  else entry.

Definition get_stalled_tasks (now : Z) : M t (list TaskHealthStatus) :=
  modify (λ r, with_tasks (map (λ kv, (fst kv, miss now (snd kv))) (_tasks r)) r);;
  gets (λ r, map (λ kv, health (fst kv) (snd kv) true)
               (filter (λ kv, is_stalled now (snd kv) = true) (_tasks r))).
End TaskRegistry.

(** ** Replay ([InMemoryTaskEventLog.replay_into_registry]) *)
Record clock := { ck_ms : Z; ck_iso : string }.

Definition default_max_backoff_ms : Z := 30000.

Definition same_attempt (attempt_id run_id : string) (attempt_seq : Z) (a : TaskAttempt) : bool :=
  bool_decide (ta_attempt_id a = attempt_id ∨ (ta_run_id a = run_id ∧ ta_attempt_seq a = attempt_seq)).

(** [TaskDescriptor( **payload, ...)] of a registered task: the policy's
    [max_backoff_ms] is not in the payload and takes its default. *)
Definition replayed_policy (p : TaskRestartPolicy) : TaskRestartPolicy :=
  {| max_attempts := max_attempts p; backoff_base_ms := backoff_base_ms p;
     max_backoff_ms := default_max_backoff_ms; on_exhausted := on_exhausted p;
     heartbeat_timeout_ms := heartbeat_timeout_ms p |}.

Definition replay_event (ck : clock) (event : task_event) : M TaskRegistry.t unit :=
  match event with
  | TaskRegistered task_id session_id kind goal parent deps metadata attempts backoff exhausted
      timeout =>
      try_except
        (TaskRegistry.register
           {| td_task_id := task_id; td_session_id := session_id; td_task_kind := kind;
              td_goal_description := goal; td_parent_task_id := parent;
              td_dependency_task_ids := deps;
              td_restart_policy :=
                {| max_attempts := attempts; backoff_base_ms := backoff;
                   max_backoff_ms := default_max_backoff_ms; on_exhausted := exhausted;
                   heartbeat_timeout_ms := timeout |};
              td_metadata := metadata |})
        is_ValueError (λ _, mret tt)
  | TaskAttemptStarted attempt_id task_id run_id attempt_seq started_at =>
      existing_attempts ← gets (TaskRegistry.get_attempts task_id);
      if existsb (same_attempt attempt_id run_id attempt_seq) existing_attempts then mret tt
      else
        try_except
          (TaskRegistry.start_attempt (ck_ms ck)
             {| ta_attempt_id := attempt_id; ta_task_id := task_id; ta_run_id := run_id;
                ta_attempt_seq := attempt_seq; ta_started_at := started_at;
                ta_completed_at := None; ta_outcome := None; ta_failure := None;
                ta_reflection_output := None |})
          (λ e, bool_decide (exn_cls e = KeyError)) (λ _, mret tt)
  | TaskAttemptCompleted task_id run_id outcome | TaskAttemptFailed task_id run_id outcome =>
      TaskRegistry.complete_attempt (ck_iso ck) task_id run_id outcome None
  | TaskState task_id state => TaskRegistry.update_state task_id state
  end.

(** The loop; the [i]-th event is replayed at the time [clocks i].  An event
    that raises is skipped, and not counted. *)
Fixpoint replay_events (clocks : nat → clock) (i : nat) (events : list task_event)
    : M TaskRegistry.t Z :=
  match events with
  | [] => mret 0%Z
  | event :: events' =>
      ok ← try_except (replay_event (clocks i) event;; mret true) is_Exception (λ _, mret false);
      n ← replay_events clocks (S i) events';
      mret (if (ok : bool) then n + 1 else n)%Z
  end.

Definition replay_into_registry (clocks : nat → clock) (log : InMemoryTaskEventLog.t)
    : M TaskRegistry.t Z :=
  replay_events clocks 0 (InMemoryTaskEventLog.all_events log).

(** ** The watchdog ([task_manager/watchdog.py]) *)
Section watchdog.
Context {E : Type} (on_stall : option (string → string → M (TaskRegistry.t * E) unit)).

Definition on_registry {A} (m : M TaskRegistry.t A) : M (TaskRegistry.t * E) A :=
  zoom fst (λ r s, (r, snd s)) m.

Fixpoint watchdog_loop (stalled : list TaskHealthStatus) : M (TaskRegistry.t * E) (list string) :=
  match stalled with
  | [] => mret []
  | h :: stalled' =>
      match th_current_run_id h with
      | None => watchdog_loop stalled'
      | Some run_id =>
          done_ ← match on_stall with
                  | Some handler =>
                      try_except (handler (th_task_id h) run_id;; mret true) is_Exception
                        (λ _, mret false)
                  | None => mret true
                  end;
          processed ← watchdog_loop stalled';
          mret (if (done_ : bool) then th_task_id h :: processed else processed)
      end
  end.

Definition watchdog_once (now : Z) : M (TaskRegistry.t * E) (list string) :=
  stalled ← on_registry (TaskRegistry.get_stalled_tasks now);
  watchdog_loop stalled.

Definition on_run_lifecycle_transition (now : Z) (now_iso run_id to_state : string)
    : M (TaskRegistry.t * E) unit :=
  on_registry (TaskRegistry.heartbeat_for_run now run_id);;
  if decide (to_state ∈ ["completed"; "aborted"]) then
    task_id ← on_registry (gets (TaskRegistry.get_task_id_for_run run_id));
    match task_id with
    | Some task_id =>
        if decide (task_id = "") then mret tt
        else
          on_registry (TaskRegistry.complete_attempt now_iso task_id run_id
            (if decide (to_state = "completed") then "completed" else "failed") None)
    | None => mret tt
    end
  else mret tt.
End watchdog.

(** ** What replay preserves

    The part of a registry that its events determine: all but the heartbeats,
    the completion times, the failure payloads, the reflection outputs and the
    backoff caps. *)
Definition erase_attempt (a : TaskAttempt) : TaskAttempt :=
  {| ta_attempt_id := ta_attempt_id a; ta_task_id := ta_task_id a; ta_run_id := ta_run_id a;
     ta_attempt_seq := ta_attempt_seq a; ta_started_at := ta_started_at a;
     ta_completed_at := None; ta_outcome := ta_outcome a; ta_failure := None;
     ta_reflection_output := None |}.

Definition erase_descriptor (d : TaskDescriptor) : TaskDescriptor :=
  {| td_task_id := td_task_id d; td_session_id := td_session_id d;
     td_task_kind := td_task_kind d; td_goal_description := td_goal_description d;
     td_parent_task_id := td_parent_task_id d;
     td_dependency_task_ids := td_dependency_task_ids d;
     td_restart_policy := replayed_policy (td_restart_policy d);
     td_metadata := td_metadata d |}.

Definition erase_entry (e : _TaskEntry) : _TaskEntry :=
  {| te_descriptor := erase_descriptor (te_descriptor e);
     te_lifecycle_state := te_lifecycle_state e;
     te_attempts := map erase_attempt (te_attempts e);
     te_last_heartbeat_ms := None;
     te_consecutive_missed_beats := 0 |}.

Module Replay.
Import TaskRegistry.

Definition erase (r : t) : t :=
  {| _tasks := od_map erase_entry (_tasks r); _session_index := _session_index r;
     _run_index := _run_index r; _max_tasks := _max_tasks r; _event_appender := None |}.

Lemma erase_get tid r : od_get tid (_tasks (erase r)) = erase_entry <$> od_get tid (_tasks r).
Proof. apply od_get_map. Qed.

Lemma erase_get_eq tid r1 r2 :
  erase r1 = erase r2 →
  erase_entry <$> od_get tid (_tasks r1) = erase_entry <$> od_get tid (_tasks r2).
Proof. intros He. by rewrite <- !erase_get, He. Qed.

Lemma erase_evict_one r tid : erase (evict_one r tid) = evict_one (erase r) tid.
Proof.
  unfold evict_one. rewrite erase_get. destruct (od_get tid (_tasks r)) as [e|] eqn:Hg; [|done].
  unfold erase, with_session_index, with_tasks. simpl. by rewrite od_del_map.
Qed.

Lemma terminal_ids_erase r : terminal_ids (erase r) = terminal_ids r.
Proof.
  unfold terminal_ids, erase. simpl. unfold od_map.
  induction (_tasks r) as [|[k e] d IH]; simpl; [done|]. rewrite !filter_cons. simpl.
  destruct (decide (is_terminal (te_lifecycle_state e) = true)); simpl; by rewrite IH.
Qed.

Lemma erase_evict r : erase (_evict_if_needed r) = _evict_if_needed (erase r).
Proof.
  unfold _evict_if_needed. rewrite terminal_ids_erase.
  change (_max_tasks (erase r)) with (_max_tasks r).
  replace (length (_tasks (erase r))) with (length (_tasks r)) by (symmetry; apply length_od_map).
  destruct (_ <? _)%Z; [done|]. generalize (take (Nat.max 1 (length (terminal_ids r) / 2)) (terminal_ids r)).
  intros l. revert r. induction l as [|tid l IH]; intros r; simpl; [done|].
  by rewrite IH, erase_evict_one.
Qed.

(** Operations on erased-equal registries stay erased-equal, with erased
    arguments and any clocks. *)
Definition run_unit (m : M t unit) (r : t) : t := (m r).2.

Lemma register_eq d r :
  run_unit (register d) r =
  match od_get (td_task_id d) (_tasks r) with
  | Some _ => r
  | None =>
      let r1 := _evict_if_needed r in
      _emit (registered_event d)
        {| _tasks := od_set (td_task_id d) (new_entry d) (_tasks r1);
           _session_index :=
             <[td_session_id d := default [] (_session_index r1 !! td_session_id d) ++ [td_task_id d]]>
               (_session_index r1);
           _run_index := _run_index r1; _max_tasks := _max_tasks r1;
           _event_appender := _event_appender r1 |}
  end.
Proof.
  unfold run_unit, register, gets, modify, raise, mbind, M_bind. cbn beta iota.
  destruct (od_get (td_task_id d) (_tasks r)) as [e|].
  - rewrite bool_decide_true by (by eexists). done.
  - rewrite bool_decide_false by (by intros []). done.
Qed.

Lemma erase_register d d' r r' :
  erase_descriptor d = erase_descriptor d' → erase r = erase r' →
  erase (run_unit (register d) r) = erase (run_unit (register d') r').
Proof.
  intros Hd He. rewrite !register_eq. pose proof (erase_get_eq (td_task_id d) r r' He) as Hg.
  assert (td_task_id d' = td_task_id d ∧ td_session_id d' = td_session_id d) as [Ht Hs].
  { by injection Hd. }
  rewrite Ht. destruct (od_get _ (_tasks r)), (od_get _ (_tasks r')); try done.
  pose proof (f_equal _evict_if_needed He) as Hev. rewrite <- !erase_evict in Hev.
  set (r1 := _evict_if_needed r) in *. set (r1' := _evict_if_needed r') in *.
  unfold erase in *. simpl. rewrite !od_set_map, Hs.
  injection Hev as H1 H2 H3 H4. rewrite H1, H2, H3, H4. f_equal. f_equal.
  unfold erase_entry, new_entry. simpl. by rewrite Hd.
Qed.

(** Replace an entry in erased-equal registries by erased-equal entries. *)
Lemma erase_set tid e e' r r' idx idx' :
  erase r = erase r' → erase_entry e = erase_entry e' → idx = idx' →
  erase (with_run_index idx (with_tasks (od_set tid e (_tasks r)) r)) =
  erase (with_run_index idx' (with_tasks (od_set tid e' (_tasks r')) r')).
Proof.
  intros He Hee ->. injection He as H1 H2 H3 H4. unfold erase. simpl.
  rewrite !od_set_map, Hee, H1, H2, H4. done.
Qed.

Lemma erase_emit ev r : erase (_emit ev r) = erase r.
Proof. done. Qed.

Lemma erase_run_index r r' : erase r = erase r' → _run_index r = _run_index r'.
Proof. by intros [=]. Qed.

(** An entry of one registry and its twin in the other. *)
Lemma erase_twin tid r r' :
  erase r = erase r' →
  match od_get tid (_tasks r), od_get tid (_tasks r') with
  | Some e, Some e' => erase_entry e = erase_entry e'
  | None, None => True
  | _, _ => False
  end.
Proof.
  intros He. pose proof (erase_get_eq tid r r' He) as Hg.
  destruct (od_get tid (_tasks r)), (od_get tid (_tasks r')); unfold erase_entry in *; simpl in Hg; try done; congruence.
Qed.

Lemma erase_entry_inv e e' :
  erase_entry e = erase_entry e' →
  erase_descriptor (te_descriptor e) = erase_descriptor (te_descriptor e') ∧
  te_lifecycle_state e = te_lifecycle_state e' ∧
  map erase_attempt (te_attempts e) = map erase_attempt (te_attempts e').
Proof.
  intros He. split_and!; [exact (f_equal te_descriptor He)|exact (f_equal te_lifecycle_state He)|].
  exact (f_equal te_attempts He).
Qed.

Lemma start_attempt_eq now a r :
  run_unit (start_attempt now a) r =
  match od_get (ta_task_id a) (_tasks r) with
  | None => r
  | Some entry =>
      _emit (TaskAttemptStarted (ta_attempt_id a) (ta_task_id a) (ta_run_id a)
               (ta_attempt_seq a) (ta_started_at a))
        (with_run_index (<[ta_run_id a := ta_task_id a]> (_run_index r))
           (with_tasks (od_set (ta_task_id a)
              {| te_descriptor := te_descriptor entry;
                 te_lifecycle_state := ts_running;
                 te_attempts := te_attempts entry ++ [a];
                 te_last_heartbeat_ms := Some now;
                 te_consecutive_missed_beats := te_consecutive_missed_beats entry |} (_tasks r)) r))
  end.
Proof.
  unfold run_unit, start_attempt, gets, modify, raise, mbind, M_bind. cbn beta iota.
  by destruct (od_get _ _).
Qed.

Lemma erase_start now now' a a' r r' :
  erase_attempt a = erase_attempt a' → erase r = erase r' →
  erase (run_unit (start_attempt now a) r) = erase (run_unit (start_attempt now' a') r').
Proof.
  intros Ha He. rewrite !start_attempt_eq.
  assert (ta_task_id a' = ta_task_id a ∧ ta_run_id a' = ta_run_id a) as [Ht Hr]
    by (unfold erase_attempt in Ha; split; congruence).
  rewrite Ht, Hr. pose proof (erase_twin (ta_task_id a) r r' He) as Htw.
  destruct (od_get _ (_tasks r)) as [e|], (od_get _ (_tasks r')) as [e'|]; try done.
  rewrite !erase_emit. apply erase_set; [done| |by rewrite (erase_run_index r r' He)].
  apply erase_entry_inv in Htw as (H1 & H2 & H3). unfold erase_entry. simpl. f_equal; [done|].
  rewrite !map_app, H3. simpl. by rewrite Ha.
Qed.

Lemma complete_attempt_eq iso tid rid outcome failure r :
  run_unit (complete_attempt iso tid rid outcome failure) r =
  match od_get tid (_tasks r) with
  | Some entry =>
      if existsb (is_active rid) (te_attempts entry) then
        _emit (if decide (outcome = "completed") then TaskAttemptCompleted tid rid outcome
               else TaskAttemptFailed tid rid outcome)
          (with_run_index (delete rid (_run_index r))
             (with_tasks (od_set tid
                {| te_descriptor := te_descriptor entry;
                   te_lifecycle_state :=
                     if decide (outcome = "completed") then ts_completed else ts_failed;
                   te_attempts := map (finish_attempt rid outcome iso failure) (te_attempts entry);
                   te_last_heartbeat_ms := te_last_heartbeat_ms entry;
                   te_consecutive_missed_beats := te_consecutive_missed_beats entry |}
                (_tasks r)) r))
      else r
  | None => r
  end.
Proof.
  unfold run_unit, complete_attempt, gets, modify, mbind, M_bind. cbn beta iota.
  destruct (od_get _ _) as [e|]; [|done]. by destruct (existsb _ _).
Qed.

Lemma existsb_active_erase rid l l' :
  map erase_attempt l = map erase_attempt l' →
  existsb (is_active rid) l = existsb (is_active rid) l'.
Proof.
  assert (∀ l, existsb (is_active rid) l = existsb (is_active rid) (map erase_attempt l)) as H.
  { intros k. induction k as [|a k IH]; simpl; [done|]. by rewrite IH. }
  intros Hl. by rewrite (H l), (H l'), Hl.
Qed.

Lemma finish_erase rid outcome iso iso' failure failure' l l' :
  map erase_attempt l = map erase_attempt l' →
  map erase_attempt (map (finish_attempt rid outcome iso failure) l) =
  map erase_attempt (map (finish_attempt rid outcome iso' failure') l').
Proof.
  revert l'. induction l as [|a l IH]; intros [|a' l']; simpl; try done. intros Heq.
  assert (erase_attempt a = erase_attempt a') as Ha by congruence.
  f_equal; [|apply IH; congruence]. injection Ha as H1 H2 H3 H4 H5 H6.
  unfold finish_attempt, is_active. rewrite H3, H6.
  case_bool_decide; unfold erase_attempt; simpl; congruence.
Qed.

Lemma erase_complete iso iso' tid rid outcome failure failure' r r' :
  erase r = erase r' →
  erase (run_unit (complete_attempt iso tid rid outcome failure) r) =
  erase (run_unit (complete_attempt iso' tid rid outcome failure') r').
Proof.
  intros He. rewrite !complete_attempt_eq. pose proof (erase_twin tid r r' He) as Htw.
  destruct (od_get _ (_tasks r)) as [e|], (od_get _ (_tasks r')) as [e'|]; try done.
  apply erase_entry_inv in Htw as (H1 & H2 & Hl).
  rewrite (existsb_active_erase rid _ _ Hl). destruct (existsb _ _); [|done].
  rewrite !erase_emit. apply erase_set; [done| |by rewrite (erase_run_index r r' He)].
  unfold erase_entry. simpl. f_equal; [done|]. by apply finish_erase.
Qed.

Lemma update_state_eq tid st r :
  run_unit (update_state tid st) r =
  match od_get tid (_tasks r) with
  | None => r
  | Some entry =>
      let r' := with_tasks (od_set tid
        {| te_descriptor := te_descriptor entry; te_lifecycle_state := st;
           te_attempts := te_attempts entry;
           te_last_heartbeat_ms := te_last_heartbeat_ms entry;
           te_consecutive_missed_beats := te_consecutive_missed_beats entry |} (_tasks r)) r in
      if logged_state st then _emit (TaskState tid st) r' else r'
  end.
Proof.
  unfold run_unit, update_state, gets, modify, mbind, M_bind. cbn beta iota.
  destruct (od_get _ _); [|done]. by destruct (logged_state st).
Qed.

Lemma erase_update tid st r r' :
  erase r = erase r' →
  erase (run_unit (update_state tid st) r) = erase (run_unit (update_state tid st) r').
Proof.
  intros He. rewrite !update_state_eq. pose proof (erase_twin tid r r' He) as Htw.
  destruct (od_get _ (_tasks r)) as [e|], (od_get _ (_tasks r')) as [e'|]; try done.
  pose proof (erase_set tid
    {| te_descriptor := te_descriptor e; te_lifecycle_state := st; te_attempts := te_attempts e;
       te_last_heartbeat_ms := te_last_heartbeat_ms e;
       te_consecutive_missed_beats := te_consecutive_missed_beats e |}
    {| te_descriptor := te_descriptor e'; te_lifecycle_state := st; te_attempts := te_attempts e';
       te_last_heartbeat_ms := te_last_heartbeat_ms e';
       te_consecutive_missed_beats := te_consecutive_missed_beats e' |} r r'
    (_run_index r) (_run_index r') He) as Hset.
  cbv zeta. destruct (logged_state st); rewrite ?erase_emit; apply Hset;
    try (by apply erase_run_index); apply erase_entry_inv in Htw as (H1 & H2 & H3);
    unfold erase_entry; simpl; by f_equal.
Qed.

(** Heartbeats and the stall scan do not show. *)
Lemma erase_set_same tid e e' r :
  od_get tid (_tasks r) = Some e → erase_entry e' = erase_entry e →
  erase (with_tasks (od_set tid e' (_tasks r)) r) = erase r.
Proof.
  intros Hg He. unfold erase. simpl. f_equal. rewrite od_set_map, He. revert Hg.
  induction (_tasks r) as [|[k v] d IH]; simpl; [done|].
  destruct (decide (tid = k)) as [->|Hk]; simpl; [by intros [= ->]|]. intros Hg. by rewrite IH.
Qed.

Lemma erase_heartbeat now tid r : erase (run_unit (heartbeat now tid) r) = erase r.
Proof.
  unfold run_unit, heartbeat, gets, modify, mbind, M_bind. cbn beta iota.
  destruct (od_get tid (_tasks r)) as [e|] eqn:Hg; [|done]. simpl. by eapply erase_set_same.
Qed.

Lemma erase_heartbeat_for_run now rid r : erase (run_unit (heartbeat_for_run now rid) r) = erase r.
Proof.
  unfold run_unit, heartbeat_for_run, gets, mbind, M_bind. cbn beta iota.
  destruct (_run_index r !! rid) as [tid|]; [|done]. apply erase_heartbeat.
Qed.

Lemma erase_stalled now r : erase (get_stalled_tasks now r).2 = erase r.
Proof.
  unfold get_stalled_tasks, gets, modify, mbind, M_bind, erase. simpl. f_equal.
  unfold od_map. rewrite map_map. apply map_ext. intros [k e]. simpl. f_equal.
  unfold miss. by destruct (is_stalled now e).
Qed.
End Replay.

(** ** Histories of a registry *)
Inductive registry_op :=
  | RegisterTask (d : TaskDescriptor)
  | StartAttempt (now : Z) (a : TaskAttempt)
  | CompleteAttempt (now_iso task_id run_id outcome : string) (failure : option FailureEnvelope)
  | UpdateState (task_id : string) (st : TaskLifecycleState)
  | Heartbeat (now : Z) (task_id : string)
  | HeartbeatForRun (now : Z) (run_id : string)
  | ScanStalled (now : Z).

Definition run_registry_op (op : registry_op) (r : TaskRegistry.t) : TaskRegistry.t :=
  match op with
  | RegisterTask d => (TaskRegistry.register d r).2
  | StartAttempt now a => (TaskRegistry.start_attempt now a r).2
  | CompleteAttempt iso tid rid outcome failure =>
      (TaskRegistry.complete_attempt iso tid rid outcome failure r).2
  | UpdateState tid st => (TaskRegistry.update_state tid st r).2
  | Heartbeat now tid => (TaskRegistry.heartbeat now tid r).2
  | HeartbeatForRun now rid => (TaskRegistry.heartbeat_for_run now rid r).2
  | ScanStalled now => (TaskRegistry.get_stalled_tasks now r).2
  end.

Definition run_registry (ops : list registry_op) (r : TaskRegistry.t) : TaskRegistry.t :=
  fold_left (λ r op, run_registry_op op r) ops r.

(** The event an operation logs. *)
Definition emitted (op : registry_op) (r : TaskRegistry.t) : list task_event :=
  match op with
  | RegisterTask d =>
      match od_get (td_task_id d) (TaskRegistry._tasks r) with
      | Some _ => [] | None => [TaskRegistry.registered_event d]
      end
  | StartAttempt now a =>
      match od_get (ta_task_id a) (TaskRegistry._tasks r) with
      | Some _ => [TaskAttemptStarted (ta_attempt_id a) (ta_task_id a) (ta_run_id a)
                     (ta_attempt_seq a) (ta_started_at a)]
      | None => []
      end
  | CompleteAttempt iso tid rid outcome failure =>
      match od_get tid (TaskRegistry._tasks r) with
      | Some e =>
          if existsb (TaskRegistry.is_active rid) (te_attempts e) then
            [if decide (outcome = "completed") then TaskAttemptCompleted tid rid outcome
             else TaskAttemptFailed tid rid outcome]
          else []
      | None => []
      end
  | UpdateState tid st =>
      match od_get tid (TaskRegistry._tasks r) with
      | Some _ => if TaskRegistry.logged_state st then [TaskState tid st] else []
      | None => []
      end
  | _ => []
  end.

(** What replay relies on: an attempt starts out open, under an id and a
    (run, number) that its task has not used; and a state set by hand is one
    that is logged. *)
Definition replayable (op : registry_op) (r : TaskRegistry.t) : bool :=
  match op with
  | StartAttempt now a =>
      bool_decide (ta_outcome a = None) &&
      negb (existsb (same_attempt (ta_attempt_id a) (ta_run_id a) (ta_attempt_seq a))
              (TaskRegistry.get_attempts (ta_task_id a) r))
  | UpdateState tid st => TaskRegistry.logged_state st
  | _ => true
  end.

Fixpoint all_replayable (ops : list registry_op) (r : TaskRegistry.t) : bool :=
  match ops with
  | [] => true
  | op :: ops' => replayable op r && all_replayable ops' (run_registry_op op r)
  end.

Module History.
Import TaskRegistry Replay.

Lemma evict_one_appender tid r : _event_appender (evict_one r tid) = _event_appender r.
Proof. unfold evict_one. by destruct (od_get tid (_tasks r)). Qed.

Lemma evict_appender r : _event_appender (_evict_if_needed r) = _event_appender r.
Proof.
  unfold _evict_if_needed. destruct (_ <? _)%Z; [done|].
  generalize (take (Nat.max 1 (length (terminal_ids r) / 2)) (terminal_ids r)). intros l. revert r.
  induction l as [|tid l IH]; intros r; simpl; [done|]. by rewrite IH, evict_one_appender.
Qed.

Lemma evict_one_max tid r : _max_tasks (evict_one r tid) = _max_tasks r.
Proof. unfold evict_one. by destruct (od_get tid (_tasks r)). Qed.

(** Each operation appends the event it emits. *)
Lemma appender_step op r :
  _event_appender (run_registry_op op r) =
  (λ l, fold_left (λ l ev, InMemoryTaskEventLog.append_task_event ev l) (emitted op r) l)
    <$> _event_appender r.
Proof.
  assert (∀ o : option InMemoryTaskEventLog.t, o = (λ l, l) <$> o) as Hid by by intros [].
  destruct op as [d|now a|iso tid rid outcome failure|tid st|now tid|now rid|now]; cbn [run_registry_op emitted].
  - change (register d r).2 with (run_unit (register d) r). rewrite register_eq.
    destruct (od_get _ _); [apply Hid|]. simpl. by rewrite evict_appender.
  - change (start_attempt now a r).2 with (run_unit (start_attempt now a) r).
    rewrite start_attempt_eq. destruct (od_get _ _); [done|apply Hid].
  - change (complete_attempt iso tid rid outcome failure r).2
      with (run_unit (complete_attempt iso tid rid outcome failure) r).
    rewrite complete_attempt_eq. destruct (od_get _ _); [|apply Hid].
    destruct (existsb _ _); [done|apply Hid].
  - change (update_state tid st r).2 with (run_unit (update_state tid st) r).
    rewrite update_state_eq. destruct (od_get _ _); [|apply Hid].
    destruct (logged_state st); [done|apply Hid].
  - unfold heartbeat, gets, modify, mbind, M_bind. cbn beta iota.
    destruct (od_get _ _); apply Hid.
  - unfold heartbeat_for_run, heartbeat, gets, modify, mbind, M_bind. cbn beta iota.
    destruct (_ !! rid); [|apply Hid]. cbn beta iota. destruct (od_get _ _); apply Hid.
  - apply Hid.
Qed.

(** *** Replaying the events of one operation *)
Definition replay_one (ck : clock) (ev : task_event) (r : t) : t := (replay_event ck ev r).2.

Lemma replay_event_ok ck ev r : (replay_event ck ev r).1 = Ok tt.
Proof.
  assert (∀ tid rid oc, (complete_attempt (ck_iso ck) tid rid oc None r).1 = Ok tt) as Hc.
  { intros. unfold complete_attempt, gets, modify, mbind, M_bind. cbn beta iota.
    destruct (od_get _ _); [|done]. by destruct (existsb _ _). }
  destruct ev as [ti si k g p deps md ma bb ex ht|ai ti ri sq sa|ti ri oc|ti ri oc|ti st];
    simpl; [| |apply Hc|apply Hc|].
  - unfold try_except, register, gets, modify, raise, mbind, M_bind. cbn beta iota.
    by case_bool_decide.
  - unfold gets, mbind, M_bind. cbn beta iota. destruct (existsb _ _); [done|].
    unfold try_except, start_attempt, gets, modify, raise, mbind, M_bind. cbn beta iota.
    by destruct (od_get _ _).
  - unfold update_state, gets, modify, mbind, M_bind. cbn beta iota.
    destruct (od_get _ _); [|done]. by destruct (logged_state st).
Qed.

Lemma replay_events_eq clocks i evs r :
  replay_events clocks i evs r =
  (Ok (Z.of_nat (length evs)),
   fold_left (λ r iev, replay_one (clocks (fst iev)) (snd iev) r)
     (zip (seq i (length evs)) evs) r).
Proof.
  revert i r. induction evs as [|ev evs IH]; intros i r; [done|].
  cbn [replay_events]. unfold try_except, mbind, M_bind.
  pose proof (replay_event_ok (clocks i) ev r) as Hok.
  destruct (replay_event (clocks i) ev r) as [o r1] eqn:Hr. simpl in Hok. subst o.
  assert (replay_one (clocks i) ev r = r1) as Hr1 by (unfold replay_one; by rewrite Hr).
  unfold mret, M_ret. rewrite IH. simpl. rewrite Hr1. do 2 f_equal. lia.
Qed.

Lemma existsb_same_erase ai ri sq l l' :
  map erase_attempt l = map erase_attempt l' →
  existsb (same_attempt ai ri sq) l = existsb (same_attempt ai ri sq) l'.
Proof.
  assert (∀ l, existsb (same_attempt ai ri sq) l = existsb (same_attempt ai ri sq) (map erase_attempt l)) as H.
  { intros k. induction k as [|a k IH]; simpl; [done|]. by rewrite IH. }
  intros Hl. by rewrite (H l), (H l'), Hl.
Qed.

Lemma register_replayed ck d r :
  replay_one ck (registered_event d) r = run_unit (register (erase_descriptor d)) r.
Proof.
  unfold replay_one, registered_event, run_unit. simpl. unfold try_except.
  change {| td_task_id := td_task_id d; td_session_id := _; td_task_kind := _; td_goal_description := _;
            td_parent_task_id := _; td_dependency_task_ids := _; td_restart_policy := _; td_metadata := _ |}
    with (erase_descriptor d).
  destruct (register (erase_descriptor d) r) as [[u|e] r1] eqn:Hr; [done|]. simpl.
  by destruct (is_ValueError e).
Qed.

Lemma step_replayed ck op r r0 :
  replayable op r = true → erase r0 = erase r →
  erase (fold_left (λ r ev, replay_one ck ev r) (emitted op r) r0) = erase (run_registry_op op r).
Proof.
  intros Hrep He.
  destruct op as [d|now a|iso tid rid outcome failure|tid st|now tid|now rid|now];
    cbn [run_registry_op emitted].
  - change (register d r).2 with (run_unit (register d) r).
    destruct (od_get _ _) eqn:Hg; simpl.
    + rewrite register_eq, Hg. done.
    + rewrite register_replayed. by apply erase_register.
  - change (start_attempt now a r).2 with (run_unit (start_attempt now a) r).
    simpl in Hrep. apply andb_prop in Hrep as [Ho%bool_decide_eq_true Hn%negb_true_iff].
    destruct (od_get _ (_tasks r)) as [e|] eqn:Hg; simpl; [|by rewrite start_attempt_eq, Hg].
    pose proof (erase_twin (ta_task_id a) r0 r He) as Htw. rewrite Hg in Htw.
    destruct (od_get _ (_tasks r0)) as [e0|] eqn:Hg0; [|done].
    apply erase_entry_inv in Htw as (_ & _ & Hl).
    unfold replay_one. cbn [replay_event]. unfold gets, mbind, M_bind at 1. cbn beta iota.
    unfold get_attempts in *. rewrite Hg in Hn. rewrite Hg0. simpl in *.
    rewrite (existsb_same_erase _ _ _ _ _ Hl), Hn. unfold try_except.
    rewrite <- (erase_start (ck_ms ck) now
      {| ta_attempt_id := ta_attempt_id a; ta_task_id := ta_task_id a; ta_run_id := ta_run_id a;
         ta_attempt_seq := ta_attempt_seq a; ta_started_at := ta_started_at a;
         ta_completed_at := None; ta_outcome := None; ta_failure := None;
         ta_reflection_output := None |} a r0 r); [|by unfold erase_attempt; simpl; rewrite Ho|done].
    unfold run_unit. destruct (start_attempt _ _ r0) as [[u|x] r1]; [done|]. by case_bool_decide.
  - change (complete_attempt iso tid rid outcome failure r).2
      with (run_unit (complete_attempt iso tid rid outcome failure) r).
    destruct (od_get _ _) as [e|] eqn:Hg; [|by rewrite complete_attempt_eq, Hg].
    destruct (existsb _ _) eqn:Hx; [|by rewrite complete_attempt_eq, Hg, Hx].
    simpl. case_decide; by apply erase_complete.
  - change (update_state tid st r).2 with (run_unit (update_state tid st) r). simpl in Hrep.
    destruct (od_get _ _) as [e|] eqn:Hg; [|by rewrite update_state_eq, Hg].
    rewrite Hrep. simpl. by apply erase_update.
  - change (heartbeat now tid r).2 with (run_unit (heartbeat now tid) r). by rewrite erase_heartbeat.
  - change (heartbeat_for_run now rid r).2 with (run_unit (heartbeat_for_run now rid) r).
    by rewrite erase_heartbeat_for_run.
  - by rewrite erase_stalled.
Qed.

Definition replay_state (clocks : nat → clock) (i : nat) (evs : list task_event) (r : t) : t :=
  (replay_events clocks i evs r).2.

Lemma replay_state_cons clocks i ev evs r :
  replay_state clocks i (ev :: evs) r =
  replay_state clocks (S i) evs (replay_one (clocks i) ev r).
Proof. unfold replay_state. by rewrite !replay_events_eq. Qed.

Lemma emitted_length op r : length (emitted op r) ≤ 1.
Proof. destruct op; simpl; repeat case_match; simpl; lia. Qed.

Fixpoint all_emitted (ops : list registry_op) (r : t) : list task_event :=
  match ops with
  | [] => []
  | op :: ops' => emitted op r ++ all_emitted ops' (run_registry_op op r)
  end.

Lemma length_all_emitted ops r : length (all_emitted ops r) ≤ length ops.
Proof.
  revert r. induction ops as [|op ops IH]; intros r; simpl; [done|].
  rewrite length_app. pose proof (emitted_length op r). specialize (IH (run_registry_op op r)). lia.
Qed.

Lemma history_replayed clocks ops : ∀ i r r0,
  all_replayable ops r = true → erase r0 = erase r →
  erase (replay_state clocks i (all_emitted ops r) r0) = erase (run_registry ops r).
Proof.
  induction ops as [|op ops IH]; intros i r r0 Hrep He; [done|].
  cbn [all_replayable all_emitted] in *. apply andb_prop in Hrep as [Hop Hops].
  unfold run_registry. simpl.
  pose proof (step_replayed (clocks i) op r r0 Hop He) as Hstep.
  pose proof (emitted_length op r) as Hlen.
  destruct (emitted op r) as [|ev [|? ?]]; simpl in *; [by apply IH| |lia].
  rewrite replay_state_cons. by apply IH.
Qed.

(** While the log has room, it holds exactly the emitted events. *)
Lemma history_logged ops : ∀ r evs m,
  _event_appender r = Some {| InMemoryTaskEventLog._events := evs;
                              InMemoryTaskEventLog._max_events := m |} →
  (Z.of_nat (length evs + length ops) ≤ m)%Z →
  _event_appender (run_registry ops r) =
    Some {| InMemoryTaskEventLog._events := evs ++ all_emitted ops r;
            InMemoryTaskEventLog._max_events := m |}.
Proof.
  induction ops as [|op ops IH]; intros r evs m Happ Hm; simpl in *; [by rewrite app_nil_r|].
  unfold run_registry. simpl. rewrite (IH _ (evs ++ emitted op r) m).
  - by rewrite <- app_assoc.
  - rewrite appender_step, Happ. simpl. f_equal.
    pose proof (emitted_length op r) as Hlen.
    destruct (emitted op r) as [|ev [|? ?]]; simpl in *; [by rewrite app_nil_r| |lia].
    unfold InMemoryTaskEventLog.append_task_event. simpl.
    by destruct (Z.leb_spec m (Z.of_nat (length evs))); [lia|].
  - rewrite length_app. pose proof (emitted_length op r). lia.
Qed.
End History.

(** C8: the event log restores the registry.  For any history whose events
    fit the log, replaying the log into a fresh registry counts every event
    and gives a registry with the same tasks in the same order, the same
    lifecycle states, session index, run index and attempts (ids, runs,
    numbers, start times, outcomes) as the original, whatever evictions
    happened on the way; what is lost is the heartbeats, the completion times,
    failure payloads and reflection outputs of attempts, and the backoff cap of
    the restart policies, which comes back as its default. *)
Theorem replay_restores_registry clocks max_tasks max_events ops :
  (Z.of_nat (length ops) ≤ max_events)%Z →
  let fresh := TaskRegistry.__init__ max_tasks (Some (InMemoryTaskEventLog.__init__ max_events)) in
  all_replayable ops fresh = true →
  let original := run_registry ops fresh in
  ∃ log replayed,
    TaskRegistry._event_appender original = Some log ∧
    replay_into_registry clocks log (TaskRegistry.__init__ max_tasks None) =
      (Ok (Z.of_nat (length (InMemoryTaskEventLog.all_events log))), replayed) ∧
    Replay.erase replayed = Replay.erase original.
Proof.
  intros Hm fresh Hrep original.
  pose proof (History.history_logged ops fresh [] max_events eq_refl Hm) as Hlog.
  pose proof (History.history_replayed clocks ops 0 fresh (TaskRegistry.__init__ max_tasks None)
    Hrep eq_refl) as Hr.
  eexists _, (History.replay_state clocks 0 (History.all_emitted ops fresh) (TaskRegistry.__init__ max_tasks None)).
  split; [exact Hlog|]. split; [|exact Hr].
  unfold replay_into_registry, History.replay_state. simpl. by rewrite History.replay_events_eq.
Qed.

(** A registry of two slots: three tasks, one of them done and evicted. *)
Definition example_task (tid : string) : TaskDescriptor :=
  {| td_task_id := tid; td_session_id := "s1"; td_task_kind := root_task;
     td_goal_description := "goal"; td_parent_task_id := None; td_dependency_task_ids := [];
     td_restart_policy :=
       {| max_attempts := 3; backoff_base_ms := 2000; max_backoff_ms := 60000;
          on_exhausted := on_reflect; heartbeat_timeout_ms := 300000 |};
     td_metadata := [] |}.

Definition example_attempt (tid rid : string) : TaskAttempt :=
  {| ta_attempt_id := rid +:+ "/1"; ta_task_id := tid; ta_run_id := rid; ta_attempt_seq := 1;
     ta_started_at := "2026-01-01T00:00:00Z"; ta_completed_at := None; ta_outcome := None;
     ta_failure := None; ta_reflection_output := None |}.

Definition example_ops : list registry_op :=
  [ RegisterTask (example_task "t1"); StartAttempt 5 (example_attempt "t1" "r1");
    CompleteAttempt "2026-01-01T00:01:00Z" "t1" "r1" "completed" None;
    RegisterTask (example_task "t2"); StartAttempt 9 (example_attempt "t2" "r2");
    RegisterTask (example_task "t3"); Heartbeat 12 "t2"; UpdateState "t3" ts_escalated ].

Lemma replay_restores_registry_witness :
  let fresh := TaskRegistry.__init__ 2 (Some (InMemoryTaskEventLog.__init__ 100)) in
  let original := run_registry example_ops fresh in
  map fst (TaskRegistry._tasks original) = ["t2"; "t3"] ∧
  (∃ replayed, Replay.erase replayed = Replay.erase original ∧
    map_to_list (TaskRegistry._run_index replayed) = [("r2", "t2")]).
Proof.
  intros fresh original. split; [vm_compute; reflexivity|].
  destruct (replay_restores_registry (λ _, {| ck_ms := 0; ck_iso := "" |}) 2 100 example_ops)
    as (log & replayed & _ & _ & He).
  - vm_compute. discriminate.
  - vm_compute. reflexivity.
  - exists replayed. split; [exact He|].
    rewrite (Replay.erase_run_index _ _ He). vm_compute. reflexivity.
Defined.

(** ** The session index *)
Module Sessions.
Import TaskRegistry Replay.

Definition in_session (sid : string) (kv : string * _TaskEntry) : Prop :=
  td_session_id (te_descriptor (snd kv)) = sid.

#[global] Instance in_session_dec sid kv : Decision (in_session sid kv).
Proof. unfold in_session. apply _. Defined.

Record wf (r : t) : Prop := {
  wf_keys : NoDup (map fst (_tasks r));
  wf_ids kv : kv ∈ _tasks r → td_task_id (te_descriptor (snd kv)) = fst kv;
  wf_sessions sid : default [] (_session_index r !! sid) = map fst (filter (in_session sid) (_tasks r))
}.

(** Replacing an entry by one of the same descriptor. *)
Lemma od_set_same_session k e e' (d : odict _TaskEntry) sid :
  od_get k d = Some e → te_descriptor e' = te_descriptor e →
  map fst (filter (in_session sid) (od_set k e' d)) = map fst (filter (in_session sid) d).
Proof.
  intros Hg He. revert Hg. induction d as [|[k1 v1] d IH]; simpl; [done|].
  destruct (decide (k = k1)) as [->|Hk].
  - intros [= ->]. rewrite !filter_cons. unfold in_session in *.
    destruct (decide _) as [H1|H1], (decide _) as [H2|H2]; simpl in *; try done; congruence.
  - intros Hg. rewrite !filter_cons. case_decide; simpl; by rewrite IH.
Qed.

Lemma wf_replace k e e' r idx :
  wf r → od_get k (_tasks r) = Some e → te_descriptor e' = te_descriptor e →
  wf (with_run_index idx (with_tasks (od_set k e' (_tasks r)) r)).
Proof.
  intros [H1 H2 H3] Hg He. split; simpl.
  - rewrite od_set_keys. case_decide as Hk; [done|]. by apply od_get_None in Hk; rewrite Hg in Hk.
  - intros kv [->|Hkv]%od_set_elem; [|by apply H2]. simpl. rewrite He.
    by apply (H2 (k, e)), od_get_elem.
  - intros sid. rewrite H3. symmetry. by eapply od_set_same_session.
Qed.

Lemma filter_del k (d : odict _TaskEntry) sid :
  map fst (filter (in_session sid) (od_del k d)) =
  filter (λ i, i ≠ k) (map fst (filter (in_session sid) d)).
Proof.
  rewrite <- od_del_keys. unfold od_del. rewrite !list_filter_filter.
  f_equal. apply list_filter_iff. tauto.
Qed.

Lemma filter_fresh k (l : list string) : k ∉ l → filter (λ i, i ≠ k) l = l.
Proof.
  induction l as [|x l IH]; intros Hk; [done|]. rewrite filter_cons_True by set_solver.
  f_equal. apply IH. set_solver.
Qed.

Lemma od_get_NoDup k v (d : odict _TaskEntry) :
  NoDup (map fst d) → (k, v) ∈ d → od_get k d = Some v.
Proof.
  induction d as [|[k1 v1] d IH]; simpl; [by intros _ ?%elem_of_nil|].
  intros [Hk1 Hnd]%NoDup_cons [[= <- <-]|Hin]%elem_of_cons; [by rewrite decide_True|].
  rewrite decide_False; [by apply IH|]. intros ->. apply Hk1. by apply list_elem_of_fmap_2 with (f := fst) in Hin.
Qed.

Lemma other_session tid e r sid :
  wf r → od_get tid (_tasks r) = Some e → sid ≠ td_session_id (te_descriptor e) →
  tid ∉ map fst (filter (in_session sid) (_tasks r)).
Proof.
  intros Hwf Hg Hne ([k v] & -> & [Hin Hkv]%list_elem_of_filter)%list_elem_of_fmap.
  simpl in *. rewrite (od_get_NoDup k v _ (wf_keys _ Hwf) Hkv) in Hg. injection Hg as ->.
  by apply Hne.
Qed.

Lemma wf_evict_one tid r : wf r → wf (evict_one r tid).
Proof.
  intros Hwf. destruct (Hwf) as [H1 H2 H3]. unfold evict_one.
  destruct (od_get tid (_tasks r)) as [e|] eqn:Hg; [|done].
  split; simpl.
  - rewrite od_del_keys. by apply NoDup_filter.
  - intros kv [_ Hkv]%list_elem_of_filter. by apply H2.
  - intros sid. rewrite filter_del, <- H3.
    destruct (decide (sid = td_session_id (te_descriptor e))) as [->|Hne].
    + destruct (_session_index r !! _) as [ids|] eqn:Hs; [by rewrite lookup_insert_eq|by rewrite Hs].
    + rewrite filter_fresh by (rewrite H3; by eapply other_session).
      by destruct (_session_index r !! td_session_id _); rewrite ?lookup_insert_ne.
Qed.

Lemma wf_evict r : wf r → wf (_evict_if_needed r).
Proof.
  unfold _evict_if_needed. destruct (_ <? _)%Z; [done|].
  generalize (take (Nat.max 1 (length (terminal_ids r) / 2)) (terminal_ids r)). intros l. revert r.
  induction l as [|tid l IH]; intros r Hr; simpl; [done|]. by apply IH, wf_evict_one.
Qed.

Lemma evict_keys tid r : od_get tid (_tasks r) = None → od_get tid (_tasks (_evict_if_needed r)) = None.
Proof.
  unfold _evict_if_needed. destruct (_ <? _)%Z; [done|].
  generalize (take (Nat.max 1 (length (terminal_ids r) / 2)) (terminal_ids r)). intros l. revert r.
  induction l as [|x l IH]; intros r Hr; simpl; [done|]. apply IH.
  unfold evict_one. destruct (od_get x (_tasks r)); [|done]. simpl. rewrite od_get_del. by case_decide.
Qed.

Lemma wf_emit ev r : wf r → wf (_emit ev r).
Proof. intros [H1 H2 H3]. by split. Qed.

Lemma wf_register d r : wf r → wf (run_unit (register d) r).
Proof.
  intros Hwf. rewrite register_eq. destruct (od_get _ (_tasks r)) eqn:Hg; [done|].
  apply wf_emit. pose proof (evict_keys _ _ Hg) as Hg1. destruct (wf_evict _ Hwf) as [H1 H2 H3].
  set (r1 := _evict_if_needed r) in *. split; simpl.
  - rewrite od_set_keys. apply od_get_None in Hg1. case_decide; [done|].
    apply NoDup_app. split_and!; [done|set_solver|apply NoDup_singleton].
  - intros kv [->|Hkv]%od_set_elem; [done|by apply H2].
  - intros sid. rewrite od_set_fresh by done. rewrite filter_app, map_app.
    destruct (decide (sid = td_session_id d)) as [->|Hne].
    + rewrite lookup_insert_eq, H3. simpl. f_equal. by rewrite filter_cons_True.
    + rewrite lookup_insert_ne, H3 by done. rewrite filter_cons_False by (unfold in_session; simpl; congruence).
      by rewrite app_nil_r.
Qed.

Lemma wf_step op r : wf r → wf (run_registry_op op r).
Proof.
  intros Hwf.
  assert (∀ tid e e', od_get tid (_tasks r) = Some e → te_descriptor e' = te_descriptor e →
    wf (with_tasks (od_set tid e' (_tasks r)) r)) as Hrep.
  { intros tid e e' Hg He. exact (wf_replace tid e e' r (_run_index r) Hwf Hg He). }
  destruct op as [d|now a|iso tid rid outcome failure|tid st|now tid|now rid|now]; cbn [run_registry_op].
  - by apply wf_register.
  - change (start_attempt now a r).2 with (run_unit (start_attempt now a) r). rewrite start_attempt_eq.
    destruct (od_get _ _) eqn:Hg; [|done]. apply wf_emit. by eapply wf_replace.
  - change (complete_attempt iso tid rid outcome failure r).2
      with (run_unit (complete_attempt iso tid rid outcome failure) r). rewrite complete_attempt_eq.
    destruct (od_get _ _) eqn:Hg; [|done]. destruct (existsb _ _); [|done]. apply wf_emit. by eapply wf_replace.
  - change (update_state tid st r).2 with (run_unit (update_state tid st) r). rewrite update_state_eq.
    destruct (od_get _ _) eqn:Hg; [|done]. cbv zeta.
    destruct (logged_state st); [apply wf_emit|]; by eapply Hrep.
  - unfold heartbeat, gets, modify, mbind, M_bind. cbn beta iota.
    destruct (od_get _ _) eqn:Hg; [|done]. by eapply Hrep.
  - unfold heartbeat_for_run, heartbeat, gets, modify, mbind, M_bind. cbn beta iota.
    destruct (_ !! rid); [|done]. cbn beta iota. destruct (od_get _ _) eqn:Hg; [|done]. by eapply Hrep.
  - destruct Hwf as [H1 H2 H3]. unfold get_stalled_tasks, gets, modify, mbind, M_bind. split; simpl.
    + by rewrite map_map.
    + intros kv ([k v] & -> & Hkv)%list_elem_of_fmap. simpl. specialize (H2 _ Hkv). simpl in H2.
      unfold miss. by destruct (is_stalled now v).
    + intros sid. rewrite H3. clear H1 H2 H3 Hrep.
      induction (_tasks r) as [|[k v] d IH]; simpl; [done|].
      rewrite !filter_cons.
      assert (in_session sid (k, v) ↔ in_session sid (k, miss now v)) as Hiff
        by (unfold in_session, miss; simpl; by destruct (is_stalled now v)).
      destruct (decide (in_session sid (k, v))), (decide (in_session sid (k, miss now v)));
        simpl; rewrite ?IH; tauto || done.
Qed.
End Sessions.

Lemma omap_get_filter (r : TaskRegistry.t) sid :
  Sessions.wf r →
  omap (λ tid, TaskRegistry.get tid r)
    (map fst (filter (Sessions.in_session sid) (TaskRegistry._tasks r))) =
  map (λ kv, te_descriptor (snd kv)) (filter (Sessions.in_session sid) (TaskRegistry._tasks r)).
Proof.
  intros [Hnd _ _]. unfold TaskRegistry.get.
  assert (∀ l, (∀ kv, kv ∈ l → od_get kv.1 (TaskRegistry._tasks r) = Some kv.2) →
    omap (λ tid, te_descriptor <$> od_get tid (TaskRegistry._tasks r)) (map fst l) =
    map (λ kv, te_descriptor (snd kv)) l) as H.
  { intros l. induction l as [|[k v] l IH]; intros Hl; [done|]. simpl.
    assert (od_get k (TaskRegistry._tasks r) = Some v) as -> by (apply (Hl (k, v)); by left).
    simpl. f_equal. apply IH. intros kv Hkv. apply Hl. by right. }
  apply H. intros [k v] [_ Hkv]%list_elem_of_filter. simpl. by apply Sessions.od_get_NoDup.
Qed.

(** After any history of operations, evictions included, the registry
    lists for a session exactly the descriptors of its present tasks, in
    registration order and without repetition, each under its own id; and a
    duplicate registration raises ValueError and changes nothing. *)
Theorem registry_sessions ops max_tasks appender sid :
  let r := run_registry ops (TaskRegistry.__init__ max_tasks appender) in
  TaskRegistry.list_session_tasks sid r =
    filter (λ d, td_session_id d = sid)
      (map (λ kv, te_descriptor (snd kv)) (TaskRegistry._tasks r)) ∧
  NoDup (map td_task_id (TaskRegistry.list_session_tasks sid r)) ∧
  ∀ d, is_Some (TaskRegistry.get (td_task_id d) r) →
    ∃ msg, TaskRegistry.register d r = (Raise (Exn ValueError msg), r).
Proof.
  intros r. assert (Sessions.wf r) as Hwf.
  { assert (Sessions.wf (TaskRegistry.__init__ max_tasks appender)) as H0.
    { split; simpl; [constructor|by intros kv ?%elem_of_nil|]. intros s. by rewrite lookup_empty. }
    unfold r, run_registry. revert H0. generalize (TaskRegistry.__init__ max_tasks appender).
    induction ops as [|op ops IH]; intros q Hq; simpl; [done|]. by apply IH, Sessions.wf_step. }
  clearbody r. destruct (Hwf) as [Hnd Hids Hs].
  assert (TaskRegistry.list_session_tasks sid r =
    map (λ kv, te_descriptor (snd kv)) (filter (Sessions.in_session sid) (TaskRegistry._tasks r))) as Hl.
  { unfold TaskRegistry.list_session_tasks. rewrite Hs. by apply omap_get_filter. }
  split_and!.
  - rewrite Hl. clear. induction (TaskRegistry._tasks r) as [|[k v] d IH]; simpl; [done|].
    rewrite !filter_cons. unfold Sessions.in_session at 1. simpl.
    destruct (decide (Sessions.in_session sid (k, v))), (decide (td_session_id (te_descriptor v) = sid));
      simpl; rewrite ?IH; done.
  - rewrite Hl, map_map. erewrite map_ext_in; [|intros kv Hkv; apply Hids].
    + eapply sublist_NoDup; [exact Hnd|]. clear. induction (TaskRegistry._tasks r) as [|[k v] d IH]; simpl; [constructor|].
      rewrite filter_cons. case_decide; simpl; by constructor.
    + apply list_elem_of_In in Hkv. by apply list_elem_of_filter in Hkv as [_ ?].
  - intros d Hd. eexists. unfold TaskRegistry.register, gets, mbind, M_bind. cbn beta iota.
    rewrite bool_decide_true; [done|]. unfold TaskRegistry.get in Hd. by destruct (od_get _ _); [|destruct Hd].
Qed.

(** ** The watchdog *)
Lemma current_run_miss now e : TaskRegistry.current_run_id (TaskRegistry.miss now e) = TaskRegistry.current_run_id e.
Proof. unfold TaskRegistry.miss. by destruct (TaskRegistry.is_stalled now e). Qed.

Lemma is_stalled_miss now e : TaskRegistry.is_stalled now (TaskRegistry.miss now e) = TaskRegistry.is_stalled now e.
Proof. unfold TaskRegistry.miss. by destruct (TaskRegistry.is_stalled now e) eqn:H; rewrite ?H. Qed.

(** The entries a sweep reports. *)
Definition reported (now : Z) (kv : string * _TaskEntry) : Prop :=
  TaskRegistry.is_stalled now (snd kv) = true ∧ TaskRegistry.current_run_id (snd kv) ≠ None.

#[export] Instance reported_dec now kv : Decision (reported now kv).
Proof. unfold reported. apply _. Defined.

Lemma watchdog_loop_plain {E} l (s : TaskRegistry.t * E) :
  watchdog_loop None l s =
  (Ok (map th_task_id (filter (λ h, th_current_run_id h ≠ None) l)), s).
Proof.
  revert s. induction l as [|h l IH]; intros s; [done|]. cbn [watchdog_loop]. rewrite filter_cons.
  destruct (th_current_run_id h) as [rid|]; simpl; [|by rewrite IH].
  unfold mbind, M_bind, mret, M_ret. by rewrite IH.
Qed.

(** Without a callback, a sweep reports exactly the tasks that are
    running or restarting, whose last heartbeat is older than their timeout
    and whose last attempt is still open, in registration order; it changes
    only miss counters.  So a task that beat is not reported before its
    timeout has passed, and a task that was never started, has finished, or
    waits for a decision is never reported. *)
Theorem watchdog_reports {E} now (r : TaskRegistry.t) (env : E) :
  (∃ r', watchdog_once None now (r, env) =
     (Ok (map fst (filter (reported now) (TaskRegistry._tasks r))), (r', env)) ∧
     Replay.erase r' = Replay.erase r ∧
     TaskRegistry._event_appender r' = TaskRegistry._event_appender r) ∧
  ∀ tid beat_at,
    is_Some (od_get tid (TaskRegistry._tasks r)) →
    let r1 := (TaskRegistry.heartbeat beat_at tid r).2 in
    ∀ e later, od_get tid (TaskRegistry._tasks r1) = Some e →
      (later ≤ beat_at + heartbeat_timeout_ms (td_restart_policy (te_descriptor e)))%Z →
      ¬ reported later (tid, e).
Proof.
  split.
  - eexists. unfold watchdog_once, on_registry, zoom, TaskRegistry.get_stalled_tasks, gets, modify,
      mbind, M_bind. cbn beta iota. simpl fst. simpl snd.
    rewrite watchdog_loop_plain. split; [|split; [exact (Replay.erase_stalled now r)|done]].
    f_equal. f_equal. simpl. induction (TaskRegistry._tasks r) as [|[k v] d IH]; simpl; [done|].
    rewrite !filter_cons. simpl. rewrite is_stalled_miss.
    destruct (decide (reported now (k, v))) as [[Hs Hc]|Hn]; simpl in *.
    + rewrite decide_True by done. simpl. rewrite filter_cons. simpl. rewrite current_run_miss.
      rewrite decide_True by done. simpl. by rewrite IH.
    + case_decide as Hs; [|done]. simpl. rewrite filter_cons. simpl. rewrite current_run_miss.
      rewrite decide_False; [done|]. intros Hc. by apply Hn.
  - intros tid beat_at [e0 He0] r1 e later He Hlater [Hst _].
    unfold r1, TaskRegistry.heartbeat, gets, modify, mbind, M_bind in He. rewrite He0 in He.
    simpl in He. rewrite od_get_set, decide_True in He by done. injection He as <-.
    unfold TaskRegistry.is_stalled in Hst. simpl in *. apply andb_prop in Hst as [_ Hst].
    destruct (te_last_heartbeat_ms e0) as [last|]; [|lia].
    destruct (beat_at <=? last)%Z eqn:Hb; lia.
Qed.
