(* ===== verification/Sqlite.v ===== *)
(** * SQLite connections

    The part of [sqlite3] the stores rely on: one connection to a database
    that other processes write too, explicit transactions, and statements that
    may fail.  [T] is the content of the database.

    - Outside a transaction a statement sees the last committed content, which
      other processes may have changed since the previous statement;
      [BEGIN IMMEDIATE] takes the write lock, after which nobody else writes.
    - A plain [BEGIN] takes no lock: the first SELECT fixes what the
      transaction reads, the first INSERT or UPDATE takes the write lock, and
      cannot if somebody else has committed since that SELECT.
    - A statement may fail (a busy database, a full disk, a bad page); SQLite
      either leaves the transaction open or has rolled it back by itself.
    - [ROLLBACK] of an open transaction does not fail; without one it does. *)
From S2P Require Export Prelude.

Inductive fault := no_fault | fails | fails_and_rolls_back.

(** What the outside world does around one statement. *)
Record weather (T : Type) := { other_writers : option (T → T); statement_fault : fault }.
Arguments other_writers {T}.
Arguments statement_fault {T}.

(** The transaction: none; begun without a lock; reading the content [snap],
    stale once another process has committed; holding the write lock, the
    content being [t]. *)
Inductive tx (T : Type) :=
  | Closed
  | Opened
  | Reading (snap : T) (stale : bool)
  | Writing (t : T).
Arguments Closed {T}.
Arguments Opened {T}.
Arguments Reading {T}.
Arguments Writing {T}.

Record conn (T : Type) := Conn {
  cn_committed : T;
  cn_tx : tx T;
  cn_weather : list (weather T)
}.
Arguments Conn {T}.
Arguments cn_committed {T}.
Arguments cn_tx {T}.
Arguments cn_weather {T}.

Definition op_error (msg : string) : exn := Exn (OtherError "OperationalError") msg.
Definition integrity_error (msg : string) : exn := Exn (OtherError "IntegrityError") msg.

Section connection.
Context {T : Type}.
Implicit Types c : conn T.

(** The weather of the next statement; fair once the list has run out. *)
Definition next_weather c : weather T :=
  default {| other_writers := None; statement_fault := no_fault |} (head (cn_weather c)).

Definition others (w : weather T) (t : T) : T :=
  match other_writers w with Some f => f t | None => t end.

(** The committed content the next statement finds, and its transaction. *)
Definition arrival c : T :=
  match cn_tx c with
  | Writing _ => cn_committed c
  | _ => others (next_weather c) (cn_committed c)
  end.

Definition arrival_tx c : tx T :=
  match cn_tx c, other_writers (next_weather c) with
  | Reading snap _, Some _ => Reading snap true
  | w, _ => w
  end.

(** One statement: [run] on the committed content and the transaction. *)
Definition statement {A} (run : T → tx T → outcome A * (T * tx T)) : M (conn T) A := λ c,
  let rest := tail (cn_weather c) in
  match statement_fault (next_weather c) with
  | no_fault =>
      let '(o, (db, w)) := run (arrival c) (arrival_tx c) in (o, Conn db w rest)
  | fails => (Raise (op_error "disk I/O error"), Conn (arrival c) (arrival_tx c) rest)
  | fails_and_rolls_back =>
      (Raise (op_error "database or disk is full"), Conn (arrival c) Closed rest)
  end.

Definition begin_with (w : T → tx T) : M (conn T) unit := statement (λ db w0,
  match w0 with
  | Closed => (Ok tt, (db, w db))
  | _ => (Raise (op_error "cannot start a transaction within a transaction"), (db, w0))
  end).

(** [BEGIN IMMEDIATE] and [BEGIN]. *)
Definition exec_begin_immediate : M (conn T) unit := begin_with Writing.
Definition exec_begin : M (conn T) unit := begin_with (λ _, Opened).

(** [sqlite3] opens a transaction by itself before an INSERT, UPDATE or DELETE,
    unless one is open. *)
Definition implicit_begin : M (conn T) unit := λ c,
  match cn_tx c with Closed => exec_begin c | _ => (Ok tt, c) end.

Definition exec_commit : M (conn T) unit := statement (λ db w,
  match w with
  | Closed => (Raise (op_error "cannot commit - no transaction is active"), (db, w))
  | Writing t => (Ok tt, (t, Closed))
  | _ => (Ok tt, (db, Closed))
  end).

Definition exec_rollback : M (conn T) unit := λ c,
  match cn_tx c with
  | Closed => (Raise (op_error "cannot rollback - no transaction is active"), c)
  | _ => (Ok tt, Conn (cn_committed c) Closed (cn_weather c))
  end.

Definition exec_select {A} (f : T → A) : M (conn T) A := statement (λ db w,
  match w with
  | Closed => (Ok (f db), (db, Closed))
  | Opened => (Ok (f db), (db, Reading db false))
  | Reading snap _ => (Ok (f snap), (db, w))
  | Writing t => (Ok (f t), (db, w))
  end).

(** INSERT, UPDATE, DELETE: committed at once outside a transaction; inside,
    with the write lock. *)
Definition exec_write {A} (f : T → outcome (A * T)) : M (conn T) A := statement (λ db w,
  let locked t :=
    match f t with
    | Ok (a, t') => (Ok a, (db, Writing t'))
    | Raise e => (Raise e, (db, Writing t))
    end in
  match w with
  | Closed =>
      match f db with
      | Ok (a, t) => (Ok a, (t, Closed))
      | Raise e => (Raise e, (db, Closed))
      end
  | Opened => locked db
  | Reading snap stale => if stale then (Raise (op_error "database is locked"), (db, w)) else locked snap
  | Writing t => locked t
  end).

(** [try: begin; body; COMMIT  except Exception: ROLLBACK; raise],
    the ROLLBACK under [suppress(Exception)]. *)
Definition transaction {A} (begin : M (conn T) unit) (body : M (conn T) A) : M (conn T) A :=
  try_except (begin;; a ← body; exec_commit;; mret a) is_Exception
    (λ e, suppress exec_rollback;; raise e).

Definition in_transaction {A} (body : M (conn T) A) : M (conn T) A :=
  transaction exec_begin_immediate body.

(** ** Reasoning *)

(** No statement fails from here on. *)
Definition fair c : Prop := Forall (λ w, statement_fault w = no_fault) (cn_weather c).

(** Nobody else writes from here on. *)
Definition alone c : Prop := Forall (λ w, other_writers w = None) (cn_weather c).

(** Idle: no open transaction.  [arrival] is then the content at which the
    next transaction begins. *)
Definition idle c : Prop := cn_tx c = Closed.

(** An operation that started at [c0] holds the write lock over the committed
    content [v], now at [t]; it has left [v] committed; it has ended. *)
Definition within c0 (v t : T) c : Prop :=
  cn_committed c = v ∧ cn_tx c = Writing t ∧ cn_weather c `suffix_of` cn_weather c0.
Definition holds c0 (v : T) c : Prop :=
  cn_committed c = v ∧ cn_weather c `suffix_of` cn_weather c0.
Definition ended c0 (v : T) c : Prop := idle c ∧ holds c0 v c.

Lemma fair_next c : fair c → statement_fault (next_weather c) = no_fault.
Proof. unfold fair, next_weather. by destruct 1. Qed.

Lemma unfair_from c0 c : cn_weather c `suffix_of` cn_weather c0 → ¬ fair c → ¬ fair c0.
Proof. intros Hs Hn Hf. by eapply Hn, Forall_suffix. Qed.

Lemma arrival_within c0 v t c : within c0 v t c → arrival c = v.
Proof. intros (<- & Hw & _). unfold arrival. by rewrite Hw. Qed.

Lemma alone_next c : alone c → other_writers (next_weather c) = None.
Proof. unfold alone, next_weather. by destruct 1. Qed.

Lemma others_alone c : alone c → others (next_weather c) (cn_committed c) = cn_committed c.
Proof. intros Ha. unfold others. by rewrite alone_next. Qed.

Lemma arrival_tx_other c : (∀ snap stale, cn_tx c ≠ Reading snap stale) → arrival_tx c = cn_tx c.
Proof. unfold arrival_tx. destruct (cn_tx c) as [| |snap stale|]; try done. intros H. by destruct (H snap stale). Qed.

Lemma arrival_alone c : alone c → arrival c = cn_committed c.
Proof.
  intros Ha. unfold arrival. rewrite (others_alone c Ha). by destruct (cn_tx c).
Qed.

Lemma alone_ended c0 v c : ended c0 v c → alone c0 → alone c.
Proof. intros (_ & _ & Hs) Ha. by eapply Forall_suffix. Qed.

(** One statement of an operation that started at [c0]. *)
Lemma wp_statement {A} run (Q : A → conn T → Prop) Ex c :
  (let '(o, (db, w)) := run (arrival c) (arrival_tx c) in
   match o with
   | Ok a => Q a (Conn db w (tail (cn_weather c)))
   | Raise e => Ex e (Conn db w (tail (cn_weather c)))
   end) →
  (∀ msg w, w = arrival_tx c ∨ w = Closed → ¬ fair c →
     Ex (op_error msg) (Conn (arrival c) w (tail (cn_weather c)))) →
  wp (statement run) Q Ex c.
Proof.
  intros HQ HE. pose proof (fair_next c) as Hf. unfold wp, statement.
  destruct (statement_fault _).
  - destruct (run (arrival c) (arrival_tx c)) as [[a|e] [db w]]; exact HQ.
  - apply HE; [by left|]. intros H. by specialize (Hf H).
  - apply HE; [by right|]. intros H. by specialize (Hf H).
Qed.

Lemma wp_begin (Q : unit → conn T → Prop) Ex c :
  idle c → (∀ c', within c (arrival c) (arrival c) c' → Q tt c') →
  (∀ e c', is_Exception e = true → ended c (arrival c) c' → ¬ fair c → Ex e c') →
  wp exec_begin_immediate Q Ex c.
Proof.
  intros Hc HQ HE. pose proof (tail_suffix (cn_weather c)) as Hs. apply wp_statement.
  - rewrite arrival_tx_other, Hc by (by rewrite Hc). by apply HQ.
  - rewrite arrival_tx_other, Hc by (by rewrite Hc). intros msg w [->| ->] ?; by apply HE.
Qed.

(** The error case of every statement inside a transaction. *)
Lemma wp_within {A} run c0 v t (Q : A → conn T → Prop) Ex c :
  within c0 v t c →
  (∀ o db w l, run v (Writing t) = (o, (db, w)) → l `suffix_of` cn_weather c0 →
     match o with Ok a => Q a (Conn db w l) | Raise e => Ex e (Conn db w l) end) →
  (∀ e c', is_Exception e = true → holds c0 v c' → ¬ fair c0 → Ex e c') →
  wp (statement run) Q Ex c.
Proof.
  intros Hc HQ HE. pose proof (arrival_within c0 v t c Hc) as Ha. destruct Hc as (_ & Hw & Hs).
  assert (tail (cn_weather c) `suffix_of` cn_weather c0) as Hs' by (etrans; [apply tail_suffix|done]).
  apply wp_statement; rewrite Ha, arrival_tx_other, Hw by (by rewrite Hw).
  - destruct (run v (Writing t)) as [o [db w]] eqn:Hr. by apply (HQ o db w).
  - intros msg w _ Hnf. apply HE; [done..|by eapply unfair_from].
Qed.

Lemma wp_commit c0 v t (Q : unit → conn T → Prop) Ex c :
  within c0 v t c → (∀ c', ended c0 t c' → Q tt c') →
  (∀ e c', is_Exception e = true → holds c0 v c' → ¬ fair c0 → Ex e c') →
  wp exec_commit Q Ex c.
Proof. intros Hc HQ HE. eapply wp_within; [done| |done]. intros o db w l [= <- <- <-] ?. by apply HQ. Qed.

Lemma wp_select {A} (f : T → A) c0 v t (Q : A → conn T → Prop) Ex c :
  within c0 v t c → (∀ c', within c0 v t c' → Q (f t) c') →
  (∀ e c', is_Exception e = true → holds c0 v c' → ¬ fair c0 → Ex e c') →
  wp (exec_select f) Q Ex c.
Proof. intros Hc HQ HE. eapply wp_within; [done| |done]. intros o db w l [= <- <- <-] ?. by apply HQ. Qed.

Lemma wp_write {A} (f : T → outcome (A * T)) c0 v t (Q : A → conn T → Prop) Ex c :
  within c0 v t c →
  (∀ a t' c', f t = Ok (a, t') → within c0 v t' c' → Q a c') →
  (∀ e c', f t = Raise e → holds c0 v c' → Ex e c') →
  (∀ e c', is_Exception e = true → holds c0 v c' → ¬ fair c0 → Ex e c') →
  wp (exec_write f) Q Ex c.
Proof.
  intros Hc HQ HR HE. eapply wp_within; [done| |done]. simpl.
  destruct (f t) as [[a t']|e] eqn:Hft; intros o db w l [= <- <- <-] ?; [by eapply HQ|by apply HR].
Qed.

(** Rolling back, quietly or not: the connection is idle again. *)
Lemma wp_rollback c0 v (Q : unit → conn T → Prop) Ex c :
  holds c0 v c → (∀ c', ended c0 v c' → Q tt c') →
  (∀ e c', is_Exception e = true → ended c0 v c' → cn_tx c = Closed → Ex e c') →
  wp exec_rollback Q Ex c.
Proof.
  intros [Hc Hs] HQ HE. unfold wp, exec_rollback. destruct (cn_tx c) eqn:Hw; [by apply HE|by apply HQ..].
Qed.

Lemma wp_rollback_quiet c0 v (Q : unit → conn T → Prop) Ex c :
  holds c0 v c → (∀ c', ended c0 v c' → Q tt c') → wp (suppress exec_rollback) Q Ex c.
Proof.
  intros Hc HQ. apply wp_suppress, (wp_rollback c0 v); [done|done|].
  intros e c' -> ? _. by apply HQ.
Qed.

(** The whole database takes the step [spec], at the content found when the
    operation began, or stays there and the operation raises; in fair weather
    it raises only where there is no step, an exception of class [err]. *)
Definition stepped {A} (spec : T → option (A * T)) c0 (a : A) c : Prop :=
  ∃ t, ended c0 t c ∧ spec (arrival c0) = Some (a, t).
Definition refused {A} (err : exn_class) (spec : T → option (A * T)) c0 (e : exn) c : Prop :=
  ended c0 (arrival c0) c ∧ is_Exception e = true ∧
  (fair c0 → spec (arrival c0) = None ∧ exn_cls e = err).
Definition atomic {A} (m : M (conn T) A) (err : exn_class) (spec : T → option (A * T)) : Prop :=
  ∀ c, idle c → wp m (stepped spec c) (refused err spec c) c.

Lemma in_transaction_atomic {A} (body : M (conn T) A) err spec :
  (∀ c0 v t c, within c0 v t c →
    wp body (λ a c', ∃ t', within c0 v t' c' ∧ spec t = Some (a, t'))
            (λ e c', is_Exception e = true ∧ holds c0 v c' ∧
               (fair c0 → spec t = None ∧ exn_cls e = err)) c) →
  atomic (in_transaction body) err spec.
Proof.
  intros Hbody c Hc. unfold in_transaction, transaction.
  assert (∀ e c', is_Exception e = true → holds c (arrival c) c' →
    (fair c → spec (arrival c) = None ∧ exn_cls e = err) →
    wp (suppress exec_rollback;; raise e) (stepped spec c) (refused err spec c) c') as Hroll.
  { intros e c' He Hh Hf. apply wp_bind, (wp_rollback_quiet c (arrival c)); [done|].
    intros c2 Hh2. by apply wp_raise. }
  apply wp_try_except, wp_bind, wp_begin; [done|..].
  - intros c1 H1. apply wp_bind. eapply wp_mono; [by apply Hbody|..]; simpl.
    + intros a c2 (t & H2 & Hs). apply wp_bind, (wp_commit c (arrival c) t); [done|..].
      * intros c3 Hh. apply wp_ret. by exists t.
      * intros e c3 He Hh Hf. rewrite He. by apply Hroll.
    + intros e c2 (He & Hh & Hf). rewrite He. by apply Hroll.
  - intros e c1 He [_ Hh] Hf. rewrite He. by apply Hroll.
Qed.

(** A lone SELECT. *)
Lemma select_atomic {A} (f : T → A) err : atomic (exec_select f) err (λ t, Some (f t, t)).
Proof.
  intros c Hc. pose proof (tail_suffix (cn_weather c)) as Hs. apply wp_statement;
    rewrite arrival_tx_other, Hc by (by rewrite Hc); simpl.
  - by exists (arrival c).
  - intros msg w [->| ->] Hf; by split_and!.
Qed.

(** ** Transactions that take the write lock late

    While an operation that started at [c0] holds no lock, the outside world
    goes on: [drifted]. Whatever it has committed at some statement [passes]. *)
Definition drift (pre : list (weather T)) (t : T) : T := foldl (λ t w, others w t) t pre.
Definition drifted c0 c : Prop :=
  ∃ pre, cn_weather c0 = pre ++ cn_weather c ∧ cn_committed c = drift pre (cn_committed c0).
Definition passes c0 (v : T) : Prop :=
  ∃ pre, pre `prefix_of` cn_weather c0 ∧ v = drift pre (cn_committed c0).

(** Nothing of the operation is in the database. *)
Definition untouched c0 c : Prop :=
  passes c0 (cn_committed c) ∧ cn_weather c `suffix_of` cn_weather c0.

Lemma drifted_refl c : drifted c c.
Proof. by exists []. Qed.

Lemma drifted_passes c0 c : drifted c0 c → passes c0 (cn_committed c).
Proof. intros (pre & Hw & ->). exists pre. split; [by eexists|done]. Qed.

Lemma drifted_suffix c0 c : drifted c0 c → cn_weather c `suffix_of` cn_weather c0.
Proof. intros (pre & Hw & _). by eexists. Qed.

Lemma drifted_untouched c0 c : drifted c0 c → untouched c0 c.
Proof. split; [by apply drifted_passes|by apply drifted_suffix]. Qed.

Lemma passes_alone c0 v : alone c0 → passes c0 v → v = cn_committed c0.
Proof.
  intros Ha (pre & [post Hw] & ->). unfold alone in Ha. rewrite Hw in Ha.
  apply Forall_app in Ha as [Ha _]. clear Hw. unfold drift. generalize (cn_committed c0).
  induction Ha as [|w pre Hx Ha IH]; intros t; simpl; [done|]. rewrite IH. unfold others. by rewrite Hx.
Qed.

(** What everybody else keeps true holds of whatever passes. *)
Lemma drift_keeps (P : T → Prop) pre t :
  Forall (λ w, ∀ t, P t → P (others w t)) pre → P t → P (drift pre t).
Proof.
  intros Hw. unfold drift. revert t. induction Hw as [|w pre Hx Hw IH]; intros t Ht; simpl; [done|].
  by apply IH, Hx.
Qed.

Lemma passes_keeps (P : T → Prop) c0 v :
  Forall (λ w, ∀ t, P t → P (others w t)) (cn_weather c0) → P (cn_committed c0) →
  passes c0 v → P v.
Proof.
  intros Hw Hc (pre & [post Hpre] & ->). apply drift_keeps; [|done]. rewrite Hpre in Hw.
  by apply Forall_app in Hw as [Hw _].
Qed.

Lemma drifted_next c0 c w :
  drifted c0 c → drifted c0 (Conn (others (next_weather c) (cn_committed c)) w (tail (cn_weather c))).
Proof.
  intros (pre & Hw & Hv). unfold next_weather. destruct (cn_weather c) as [|w1 l] eqn:Hl; simpl.
  - exists pre. by rewrite Hw, Hv.
  - exists (pre ++ [w1]). unfold drift. rewrite foldl_app. simpl. rewrite Hw, Hv, <- app_assoc. done.
Qed.

(** One statement without the lock. *)
Lemma wp_unlocked {A} run c0 (Q : A → conn T → Prop) Ex c :
  (∀ t, cn_tx c ≠ Writing t) → drifted c0 c →
  (∀ c1, drifted c0 c1 → c1 = Conn (others (next_weather c) (cn_committed c)) (arrival_tx c)
                                   (tail (cn_weather c)) →
    let '(o, (db, w)) := run (cn_committed c1) (cn_tx c1) in
    match o with
    | Ok a => Q a (Conn db w (cn_weather c1))
    | Raise e => Ex e (Conn db w (cn_weather c1))
    end) →
  (∀ e c', is_Exception e = true → untouched c0 c' → ¬ fair c0 → Ex e c') →
  wp (statement run) Q Ex c.
Proof.
  intros Hn Hd HQ HE.
  assert (arrival c = others (next_weather c) (cn_committed c)) as Ha.
  { unfold arrival. destruct (cn_tx c) as [| | |t]; try done. by destruct (Hn t). }
  apply wp_statement.
  - rewrite Ha. exact (HQ _ (drifted_next c0 c (arrival_tx c) Hd) eq_refl).
  - intros msg w _ Hf. apply HE; [done|rewrite Ha; by apply drifted_untouched, drifted_next|].
    intros Hfair. apply Hf. eapply Forall_suffix; [by eapply drifted_suffix|done].
Qed.

Definition opened c0 c : Prop := cn_tx c = Opened ∧ drifted c0 c.

(** The transaction reads [snap], which the lock will confirm or not. *)
Definition reading c0 (snap : T) c : Prop :=
  drifted c0 c ∧ ∃ stale, cn_tx c = Reading snap stale ∧
    (stale = false → cn_committed c = snap) ∧ (alone c0 → stale = false).

Lemma wp_begin_late c0 (Q : unit → conn T → Prop) Ex c :
  idle c → drifted c0 c → (∀ c', opened c0 c' → Q tt c') →
  (∀ e c', is_Exception e = true → untouched c0 c' → ¬ fair c0 → Ex e c') →
  wp exec_begin Q Ex c.
Proof.
  intros Hc Hd HQ HE. apply (wp_unlocked _ c0); [by rewrite Hc|done| |done].
  intros c1 Hd1 ->. simpl. rewrite arrival_tx_other, Hc by (by rewrite Hc).
  apply HQ. split; [done|]. by apply drifted_next.
Qed.

Lemma wp_select_closed {A} (f : T → A) c0 (Q : A → conn T → Prop) Ex c :
  idle c → drifted c0 c →
  (∀ c', idle c' → drifted c0 c' → drifted c c' → Q (f (cn_committed c')) c') →
  (∀ e c', is_Exception e = true → untouched c0 c' → ¬ fair c0 → Ex e c') →
  wp (exec_select f) Q Ex c.
Proof.
  intros Hc Hd HQ HE. apply (wp_unlocked _ c0); [by rewrite Hc|done| |done].
  intros c1 Hd1 ->. simpl. rewrite arrival_tx_other, Hc by (by rewrite Hc).
  apply (HQ (Conn _ Closed _)); [done|by apply drifted_next|apply (drifted_next c c), drifted_refl].
Qed.

Lemma holds_untouched c0 v c : passes c0 v → holds c0 v c → untouched c0 c.
Proof. intros Hp [Hv Hs]. split; [by rewrite Hv|done]. Qed.

Lemma drifted_trans c0 c1 c2 : drifted c0 c1 → drifted c1 c2 → drifted c0 c2.
Proof.
  intros (p1 & H1 & V1) (p2 & H2 & V2). exists (p1 ++ p2). unfold drift in *.
  by rewrite H1, H2, V2, V1, foldl_app, app_assoc.
Qed.

Lemma wp_select_opened {A} (f : T → A) c0 (Q : A → conn T → Prop) Ex c :
  opened c0 c → (∀ snap c', reading c0 snap c' → Q (f snap) c') →
  (∀ e c', is_Exception e = true → untouched c0 c' → ¬ fair c0 → Ex e c') →
  wp (exec_select f) Q Ex c.
Proof.
  intros [Ho Hd] HQ HE. apply (wp_unlocked _ c0); [by rewrite Ho|done| |done].
  intros c1 Hd1 ->. simpl. rewrite arrival_tx_other, Ho by (by rewrite Ho).
  apply HQ. split; [by apply drifted_next|]. by exists false.
Qed.

Lemma wp_write_opened {A} (f : T → outcome (A * T)) c0 (Q : A → conn T → Prop) Ex c :
  opened c0 c →
  (∀ v a t' c', drifted c v → f (cn_committed v) = Ok (a, t') → passes c0 (cn_committed v) →
     within c0 (cn_committed v) t' c' → Q a c') →
  (∀ v e c', drifted c v → f (cn_committed v) = Raise e → untouched c0 c' → Ex e c') →
  (∀ e c', is_Exception e = true → untouched c0 c' → ¬ fair c0 → Ex e c') →
  wp (exec_write f) Q Ex c.
Proof.
  intros [Ho Hd] HQ HR HE. apply (wp_unlocked _ c0); [by rewrite Ho|done| |done].
  intros c1 Hd1 Hc1. pose proof (drifted_next c c Opened (drifted_refl c)) as Hv.
  assert (cn_committed c1 = others (next_weather c) (cn_committed c)) as Hcom by by rewrite Hc1.
  assert (cn_tx c1 = Opened) as -> by (rewrite Hc1; simpl; by rewrite arrival_tx_other, Ho by (by rewrite Ho)).
  pose proof (drifted_passes _ _ Hd1) as Hp. pose proof (drifted_suffix _ _ Hd1) as Hs.
  simpl. destruct (f (cn_committed c1)) as [[a t']|e] eqn:Hf; rewrite Hcom in *.
  - by apply (HQ _ a t' _ Hv).
  - by apply (HR _ e _ Hv).
Qed.

Lemma wp_write_reading {A} (f : T → outcome (A * T)) c0 snap (Q : A → conn T → Prop) Ex c :
  reading c0 snap c →
  (∀ a t' c', f snap = Ok (a, t') → passes c0 snap → within c0 snap t' c' → Q a c') →
  (∀ e c', f snap = Raise e → untouched c0 c' → Ex e c') →
  (∀ e c', is_Exception e = true → untouched c0 c' → ¬ (fair c0 ∧ alone c0) → Ex e c') →
  wp (exec_write f) Q Ex c.
Proof.
  intros (Hd & stale & Ht & Hst & Hal) HQ HR HE.
  apply (wp_unlocked _ c0); [by rewrite Ht|done| |intros; apply HE; tauto].
  intros c1 Hd1 Hc1. assert (∃ stale1, cn_tx c1 = Reading snap stale1 ∧
    (stale1 = false → cn_committed c1 = snap) ∧ (alone c0 → stale1 = false)) as (stale1 & -> & Hst1 & Hal1).
  { rewrite Hc1. simpl. unfold arrival_tx, others. rewrite Ht.
    destruct (other_writers (next_weather c)) as [g|] eqn:Hg; [|by eexists].
    exists true. split_and!; [done|done|]. intros Ha.
    assert (alone c) as Hac by (eapply Forall_suffix; [by eapply drifted_suffix|done]).
    by rewrite alone_next in Hg. }
  pose proof (drifted_passes _ _ Hd1) as Hp. pose proof (drifted_suffix _ _ Hd1) as Hs. simpl.
  destruct stale1; [apply HE; [done|by split|by intros [_ ?%Hal1]]|].
  rewrite Hst1 in * by done. destruct (f snap) as [[a t']|e]; [by eapply HQ|by eapply HR].
Qed.

(** What a whole operation does: the step [spec], at a content that passed, or
    nothing; in fair weather and with nobody else writing it raises only where
    there is no step. *)
Definition stepped_at {A} (spec : T → option (A * T)) c0 (a : A) c : Prop :=
  ∃ v t, passes c0 v ∧ ended c0 t c ∧ spec v = Some (a, t).
Definition refused_at {A} (err : exn_class) (spec : T → option (A * T)) c0 (e : exn) c : Prop :=
  ∃ v, passes c0 v ∧ ended c0 v c ∧ is_Exception e = true ∧
  (fair c0 → alone c0 → spec v = None ∧ exn_cls e = err).
Definition serializable {A} (m : M (conn T) A) (err : exn_class) (spec : T → option (A * T)) : Prop :=
  ∀ c, idle c → wp m (stepped_at spec c) (refused_at err spec c) c.

Lemma passes_arrival c : idle c → passes c (arrival c).
Proof.
  intros Hc. unfold arrival. rewrite Hc.
  exact (drifted_passes _ _ (drifted_next c c Closed (drifted_refl c))).
Qed.

Lemma atomic_serializable {A} (m : M (conn T) A) err spec : atomic m err spec → serializable m err spec.
Proof.
  intros Hm c Hc. pose proof (passes_arrival c Hc) as Hp. eapply wp_mono; [by apply Hm|..].
  - intros a c' (t & ? & ?). by exists (arrival c), t.
  - intros e c' (? & ? & Hf). exists (arrival c). split_and!; [done..|]. auto.
Qed.

Lemma wp_rollback_untouched c0 (Q : unit → conn T → Prop) Ex c :
  untouched c0 c → (∀ v c', passes c0 v → ended c0 v c' → Q tt c') →
  wp (suppress exec_rollback) Q Ex c.
Proof.
  intros [Hp Hs] HQ. apply (wp_rollback_quiet c0 (cn_committed c)); [by split|]. intros c' He. by eapply HQ.
Qed.

(** The clean-up after a failed statement. *)
Lemma rollback_refused {A B} (spec : T → option (B * T)) err c e c' (Q : A → conn T → Prop) :
  is_Exception e = true → untouched c c' → ¬ (fair c ∧ alone c) →
  wp (suppress exec_rollback;; raise e) Q (refused_at err spec c) c'.
Proof.
  intros He Hu Hf. apply wp_bind, (wp_rollback_untouched c); [done|].
  intros v c2 Hp Hh. apply wp_raise. exists v. split_and!; [done..|]. tauto.
Qed.

Lemma unfair_refused {A B} (spec : T → option (B * T)) err c e c' (Q : A → conn T → Prop) :
  is_Exception e = true → untouched c c' → ¬ fair c →
  wp (suppress exec_rollback;; raise e) Q (refused_at err spec c) c'.
Proof. intros He Hu Hf. apply rollback_refused; tauto. Qed.

(** A transaction of one statement that always has a step. *)
Lemma one_write_serializable {A} (f : T → A * T) err :
  serializable (transaction implicit_begin (exec_write (λ t, Ok (f t)))) err (λ t, Some (f t)).
Proof.
  intros c Hc. unfold transaction.
  assert (∀ e c', is_Exception e = true → untouched c c' → ¬ fair c →
    if is_Exception e then wp (suppress exec_rollback;; raise e) (stepped_at (λ t, Some (f t)) c)
      (refused_at err (λ t, Some (f t)) c) c' else refused_at err (λ t, Some (f t)) c e c') as Hroll.
  { intros e c' He Hu Hf. rewrite He. by apply unfair_refused. }
  apply wp_try_except, wp_bind. unfold wp at 1, implicit_begin. rewrite Hc.
  apply (wp_begin_late c); [done|apply drifted_refl| |done].
  intros c1 H1. apply wp_bind, (wp_write_opened _ c); [done| |done|done].
  intros v a t' c2 Hd Hf Hp Hw. apply wp_bind, (wp_commit c (cn_committed v) t'); [done| |].
  - intros c3 He. apply wp_ret. injection Hf as Hf. exists (cn_committed v), t'.
    split_and!; [done..|by rewrite Hf].
  - intros e c3 He Hh Hfair. apply Hroll; [done|by eapply holds_untouched|done].
Qed.

(** No transaction, no failing statement, no other writer. *)
Record quiet c : Prop := { qt_idle : idle c; qt_fair : fair c; qt_alone : alone c }.

(** Then an operation that has a step takes it. *)
Lemma serializable_quiet {A} (m : M (conn T) A) err spec c a t :
  serializable m err spec → quiet c → spec (cn_committed c) = Some (a, t) →
  ∃ c', m c = (Ok a, c') ∧ cn_committed c' = t ∧ quiet c'.
Proof.
  intros Hm [Hi Hf Ha] Hs. specialize (Hm c Hi). unfold wp in Hm.
  destruct (m c) as [[a'|e] c'].
  - destruct Hm as (v & t' & Hp & [Hi' [Ht Hw]] & Hv). apply (passes_alone _ _ Ha) in Hp as ->.
    rewrite Hs in Hv. injection Hv as <- <-. exists c'. split_and!; [done|done|].
    split; [done|by eapply Forall_suffix|by eapply Forall_suffix].
  - destruct Hm as (v & Hp & _ & _ & Hn). apply (passes_alone _ _ Ha) in Hp as ->.
    by destruct (Hn Hf Ha) as [Hn' _]; rewrite Hs in Hn'.
Qed.

End connection.

(** ** One table of a database *)
Record table (T R : Type) := {
  tb_get : T → R;
  tb_put : R → T → T;
  tb_get_put r t : tb_get (tb_put r t) = r;
  tb_put_get t : tb_put (tb_get t) t = t;
  tb_put_put r r' t : tb_put r (tb_put r' t) = tb_put r t
}.
Arguments tb_get {T R}.
Arguments tb_put {T R}.

(** A database that is one table. *)
Definition whole {T} : table T T := {| tb_get := id; tb_put := const; tb_get_put _ _ := eq_refl;
                                 tb_put_get _ := eq_refl; tb_put_put _ _ _ := eq_refl |}.

Section table.
Context {T R : Type} (tbl : table T R).
Implicit Types c : conn T.

(** Running a function on the table, as one on the database. *)
Definition on_table {A} (f : R → outcome (A * R)) (t : T) : outcome (A * T) :=
  match f (tb_get tbl t) with
  | Ok (a, r) => Ok (a, tb_put tbl r t)
  | Raise e => Raise e
  end.
Definition step_table {A} (spec : R → option (A * R)) (t : T) : option (A * T) :=
  (λ ar, (ar.1, tb_put tbl ar.2 t)) <$> spec (tb_get tbl t).

Definition select_from {A} (f : R → A) : M (conn T) A := exec_select (f ∘ tb_get tbl).
Definition write_to {A} (f : R → outcome (A * R)) : M (conn T) A := exec_write (on_table f).

Lemma wp_write_to {A} (f : R → outcome (A * R)) c0 v t (Q : A → conn T → Prop) Ex c :
  within c0 v t c →
  (∀ a r c', f (tb_get tbl t) = Ok (a, r) → within c0 v (tb_put tbl r t) c' → Q a c') →
  (∀ e c', f (tb_get tbl t) = Raise e → holds c0 v c' → Ex e c') →
  (∀ e c', is_Exception e = true → holds c0 v c' → ¬ fair c0 → Ex e c') →
  wp (write_to f) Q Ex c.
Proof.
  intros Hc HQ HR HE. apply (wp_write _ c0 v t); [done|..|done]; unfold on_table.
  - intros a t' c'. destruct (f (tb_get tbl t)) as [[a' r]|e]; [|done]. intros [= <- <-]. by apply HQ.
  - intros e c'. destruct (f (tb_get tbl t)) as [[a' r]|e']; [done|]. intros [= <-]. by apply HR.
Qed.
End table.

Lemma step_table_whole {T A} (spec : T → option (A * T)) t : step_table whole spec t = spec t.
Proof. unfold step_table, whole. simpl. by destruct (spec t) as [[]|]. Qed.
