(* ===== verification/DecisionDeduper.v ===== *)
(** * Decision dedupers ([kernel/minimal_runtime.py],
      [kernel/persistence/sqlite_decision_deduper.py])

    The run actor's memory of the decision rounds it has taken: the port with
    its contract, the in-memory set, and the SQLite table, which other
    processes write too. *)
From S2P Require Export Sqlite.

Class DecisionDeduperPort (D : Type) := {
  dd_seen : string → M D bool;
  dd_mark : string → M D unit
}.

(** The contract: a mark that returned is there, whatever happens keeps every
    mark, and [seen] tells whether the mark is there. *)
Class DecisionDeduperLaws (D : Type) `{DecisionDeduperPort D} := {
  dd_ok : D → Prop;
  dd_marked : D → string → Prop;
  law_seen fp d : dd_ok d →
    let '(o, d') := dd_seen fp d in
    dd_ok d' ∧ (∀ f, dd_marked d f → dd_marked d' f) ∧
    ∀ b, o = Ok b → (b = true ↔ dd_marked d' fp);
  law_mark fp d : dd_ok d →
    let '(o, d') := dd_mark fp d in
    dd_ok d' ∧ (∀ f, dd_marked d f → dd_marked d' f) ∧ (o = Ok tt → dd_marked d' fp)
}.

Module InMemoryDecisionDeduper.
Record t := { _seen_fingerprints : gset string }.

Definition __init__ : t := {| _seen_fingerprints := ∅ |}.

Definition seen (fingerprint : string) : M t bool :=
  gets (λ s, bool_decide (fingerprint ∈ _seen_fingerprints s)).

Definition mark (fingerprint : string) : M t unit :=
  modify (λ s, {| _seen_fingerprints := {[fingerprint]} ∪ _seen_fingerprints s |}).

#[global] Instance port : DecisionDeduperPort t := {| dd_seen := seen; dd_mark := mark |}.

#[global] Program Instance laws : DecisionDeduperLaws t :=
  {| dd_ok _ := True; dd_marked s f := f ∈ _seen_fingerprints s |}.
Next Obligation.
  intros fp s _. cbn. split_and!; [done|done|]. intros b [= <-]. by rewrite bool_decide_eq_true.
Qed.
Next Obligation. intros fp s _. cbn. split_and!; [done|set_solver..]. Qed.
End InMemoryDecisionDeduper.

Module SQLiteDecisionDeduper.
(** The table [decision_fingerprints], from its primary key to [run_id]; the
    column [created_at] is written only. *)
Abbreviation rows := (gmap string string).
Abbreviation t := (conn rows).

(** [sqlite3.connect(..., isolation_level=None)] and [_ensure_schema]. *)
Definition __init__ (table : rows) (w : list (weather rows)) : t := Conn table Closed w.

Definition seen (fingerprint : string) : M t bool :=
  row ← exec_select (λ table : rows, table !! fingerprint);
  mret (bool_decide (is_Some row)).

(** [INSERT OR IGNORE]. *)
Definition mark (fingerprint run_id : string) : M t unit := exec_write (λ table : rows,
  match table !! fingerprint with
  | Some _ => Ok (tt, table)
  | None => Ok (tt, <[fingerprint := run_id]> table)
  end).

#[global] Instance port : DecisionDeduperPort t :=
  {| dd_seen := seen; dd_mark fp := mark fp "" |}.

(** Idle, and no other process deletes a fingerprint. *)
Definition grows (f : rows → rows) : Prop := ∀ table k, is_Some (table !! k) → is_Some (f table !! k).
Definition ok (c : t) : Prop := idle c ∧ Forall (λ w, grows (others w)) (cn_weather c).

Lemma grows_arrival c k : ok c → is_Some (cn_committed c !! k) → is_Some (arrival c !! k).
Proof.
  intros [Hc Hw] Hk. unfold arrival. rewrite Hc. unfold next_weather.
  destruct Hw as [|w ws Hg _]; [done|]. by apply Hg.
Qed.

Lemma ok_after c db : ok c → ok (Conn db Closed (tail (cn_weather c))).
Proof. intros [Hc Hw]. split; [done|]. simpl. by destruct Hw. Qed.

(** One statement outside a transaction that removes nothing. *)
Lemma wp_autocommit {A} run (Q : A → rows → Prop) c :
  ok c →
  (∀ db : rows, let '(o, (db', w)) := run db Closed in
     w = Closed ∧ (∀ k, is_Some (db !! k) → is_Some (db' !! k)) ∧ ∀ a, o = Ok a → Q a db') →
  let keeps c' := ok c' ∧ ∀ k, is_Some (cn_committed c !! k) → is_Some (cn_committed c' !! k) in
  wp (statement run) (λ a c', keeps c' ∧ Q a (cn_committed c')) (λ _ c', keeps c') c.
Proof.
  intros Hok Hrun keeps. pose proof (proj1 Hok) as Hc. apply wp_statement.
  - rewrite arrival_tx_other, Hc by (by rewrite Hc). specialize (Hrun (arrival c)).
    destruct (run (arrival c) Closed) as [o [db w]] eqn:Hr. destruct Hrun as (-> & Hg & Hq).
    assert (keeps (Conn db Closed (tail (cn_weather c)))).
    { split; [by apply ok_after|]. intros k Hk. by apply Hg, grows_arrival. }
    destruct o; [split; [done|by apply Hq]|done].
  - rewrite arrival_tx_other, Hc by (by rewrite Hc). intros msg w Hw _.
    assert (w = Closed) as -> by (by destruct Hw). split; [by apply ok_after|].
    intros k Hk. by apply grows_arrival.
Qed.

#[global] Program Instance laws : DecisionDeduperLaws t :=
  {| dd_ok := ok; dd_marked c f := is_Some (cn_committed c !! f) |}.
Next Obligation.
  intros fp c Hok. cbn. unfold seen.
  pose proof (wp_autocommit (λ db w,
    match w with
    | Closed => (Ok ((db : rows) !! fp), (db, Closed))
    | Opened => (Ok (db !! fp), (db, Reading db false))
    | Reading snap _ => (Ok (snap !! fp), (db, w))
    | Writing t => (Ok (t !! fp), (db, w))
    end) (λ row db, row = db !! fp) c Hok) as H.
  unfold exec_select, mbind, M_bind. unfold wp in H.
  destruct (statement _ c) as [[row|e] c']; simpl.
  - destruct H as [[? ?] ->]; [intros db; by split_and!; [..|intros a [= <-]]|].
    split_and!; [done..|]. intros b [= <-]. by rewrite bool_decide_eq_true.
  - destruct H as [? ?]; [intros db; by split_and!; [..|intros a [= <-]]|]. by split_and!.
Qed.
Next Obligation.
  intros fp c Hok. cbn. unfold mark, exec_write.
  match goal with |- context [statement ?r] =>
    pose proof (wp_autocommit r (λ _ db, is_Some (db !! fp)) c Hok) as H end.
  match type of H with ?P → _ => assert P as HP end.
  { intros db. cbn. destruct (db !! fp) eqn:Hfp; split_and!; try done.
    - intros k ?. rewrite lookup_insert. by case_decide.
    - intros _ _. by rewrite lookup_insert_eq. }
  specialize (H HP). unfold wp in H. destruct (statement _ c) as [[[]|e] c'].
  - by destruct H as [[? ?] ?].
  - by destruct H.
Qed.
End SQLiteDecisionDeduper.
