(* ===== verification/SqliteDedupeStore.v ===== *)
(** * The SQLite dedupe store ([kernel/persistence/sqlite_dedupe_store.py])

    The table [dedupe_store] as a map from its primary key to its rows, one
    definition per method, and the proof that each method is one atomic step
    of the abstract ledger whatever fails and whoever else writes. *)
From S2P Require Export Sqlite DedupeStore PyStr.
From Stdlib Require Import Ascii.

Module SQLiteDedupeStore.
(** The statements name the table only, so that a store that shares its
    database with others runs the same code; [lost_update] is the text of the
    one message that is not the same everywhere. *)
Section dedupe_table.
Context {T : Type} (tbl : table T ledger) (lost_update : string → DedupeState → string).
Abbreviation t := (conn T).

(** [INSERT INTO dedupe_store ...]: the key is the primary key. *)
Definition insert_row (r : DedupeRecord) : M t unit := write_to tbl (λ rows,
  match rows !! rec_dispatch_idempotency_key r with
  | Some _ => Raise (integrity_error
                "UNIQUE constraint failed: dedupe_store.dispatch_idempotency_key")
  | None => Ok (tt, <[rec_dispatch_idempotency_key r := r]> rows)
  end).

Definition get (key : string) : M t (option DedupeRecord) := select_from tbl (λ rows, rows !! key).

Definition _get_required_record (key : string) : M t DedupeRecord :=
  record ← get key;
  match record with
  | None => raise (Exn DedupeStoreStateError ("Unknown dispatch_idempotency_key: " +:+ key +:+ "."))
  | Some r => mret r
  end.

(** [UPDATE ... WHERE key = ?] and the check of [rowcount]. *)
Definition _update_state (key : string) (state : DedupeState)
    (peer_operation_id external_ack_ref : option string) : M t unit :=
  rowcount ← write_to tbl (λ rows,
    match rows !! key with
    | None => Ok (0%Z, rows)
    | Some r =>
        Ok (1%Z, <[key :=
          {| rec_dispatch_idempotency_key := rec_dispatch_idempotency_key r;
             rec_operation_fingerprint := rec_operation_fingerprint r;
             rec_attempt_seq := rec_attempt_seq r;
             rec_state := state;
             rec_peer_operation_id := peer_operation_id;
             rec_external_ack_ref := external_ack_ref |}]> rows)
    end);
  if (rowcount =? 1)%Z then mret tt
  else raise (Exn DedupeStoreStateError (lost_update key state)).

Definition cannot (from : DedupeState) (to : string) : exn :=
  Exn DedupeStoreStateError ("Cannot transition " +:+ dedupe_state_str from +:+ " -> " +:+ to +:+ ".").

(** The body of both reservations, inside [BEGIN IMMEDIATE]: a duplicate is
    rolled back and reported. *)
Definition reserve_body (envelope : IdempotencyEnvelope) (row : DedupeRecord)
    : M t DedupeReservation :=
  existing_record ← get (env_dispatch_idempotency_key envelope);
  match existing_record with
  | Some existing =>
      exec_rollback;;
      mret {| accepted := false; reason := duplicate; existing_record := Some existing |}
  | None =>
      insert_row row;;
      exec_commit;;
      mret {| accepted := true; reason := accepted_reason; existing_record := None |}
  end.

Definition reserve (envelope : IdempotencyEnvelope) : M t DedupeReservation :=
  exec_begin_immediate;;
  try_except
    (reserve_body envelope
       {| rec_dispatch_idempotency_key := env_dispatch_idempotency_key envelope;
          rec_operation_fingerprint := env_operation_fingerprint envelope;
          rec_attempt_seq := env_attempt_seq envelope;
          rec_state := reserved;
          rec_peer_operation_id := env_peer_operation_id envelope;
          rec_external_ack_ref := None |})
    is_Exception (λ e, exec_rollback;; raise e).

Definition reserve_and_dispatch (envelope : IdempotencyEnvelope)
    (peer_operation_id : option string) : M t DedupeReservation :=
  exec_begin_immediate;;
  try_except
    (reserve_body envelope
       {| rec_dispatch_idempotency_key := env_dispatch_idempotency_key envelope;
          rec_operation_fingerprint := env_operation_fingerprint envelope;
          rec_attempt_seq := env_attempt_seq envelope;
          rec_state := dispatched;
          rec_peer_operation_id := str_or peer_operation_id (env_peer_operation_id envelope);
          rec_external_ack_ref := None |})
    is_Exception (λ e, suppress exec_rollback;; raise e).

Definition mark_dispatched (key : string) (peer_operation_id : option string) : M t unit :=
  in_transaction
    (record ← _get_required_record key;
     if decide (rec_state record ∉ [reserved; dispatched])
     then raise (cannot (rec_state record) "dispatched")
     else _update_state key dispatched
            (str_or peer_operation_id (rec_peer_operation_id record))
            (rec_external_ack_ref record)).

Definition mark_acknowledged (key : string) (external_ack_ref : option string) : M t unit :=
  in_transaction
    (record ← _get_required_record key;
     if decide (rec_state record ∉ [dispatched; acknowledged])
     then raise (cannot (rec_state record) "acknowledged")
     else _update_state key acknowledged (rec_peer_operation_id record)
            (str_or external_ack_ref (rec_external_ack_ref record))).

Definition mark_succeeded (key : string) (external_ack_ref : option string) : M t unit :=
  in_transaction
    (record ← _get_required_record key;
     if decide (rec_state record ∉ [acknowledged; succeeded])
     then raise (cannot (rec_state record) "succeeded")
     else _update_state key succeeded (rec_peer_operation_id record)
            (str_or external_ack_ref (rec_external_ack_ref record))).

Definition mark_unknown_effect (key : string) : M t unit :=
  in_transaction
    (record ← _get_required_record key;
     if decide (rec_state record ∉ [dispatched; unknown_effect])
     then raise (cannot (rec_state record) "unknown_effect")
     else _update_state key unknown_effect (rec_peer_operation_id record)
            (rec_external_ack_ref record)).

(** [LIKE '<run_id>:%']: SQLite compares ASCII letters without case; the
    wildcards of the run id are escaped. *)
Definition ascii_lower (c : ascii) : ascii :=
  let n := N_of_ascii c in if (65 <=? n)%N && (n <=? 90)%N then ascii_of_N (n + 32) else c.

Fixpoint like_prefix (prefix s : string) : bool :=
  match prefix, s with
  | "", _ => true
  | String a p, String b s' =>
      if decide (ascii_lower a = ascii_lower b) then like_prefix p s' else false
  | _, "" => false
  end.

Definition count_by_run (run_id : string) : M t Z := select_from tbl (λ rows,
  Z.of_nat (size (filter (λ kr, like_prefix (run_id +:+ ":") kr.1 = true) rows))).

#[local] Instance port : DedupeStorePort t := {|
  ds_reserve := reserve;
  ds_mark_dispatched := mark_dispatched;
  ds_mark_acknowledged := mark_acknowledged;
  ds_mark_succeeded := mark_succeeded;
  ds_mark_unknown_effect := mark_unknown_effect;
  ds_reserve_and_dispatch := reserve_and_dispatch;
  ds_get := get;
  ds_count_by_run := count_by_run
|}.
End dedupe_table.

(** The store of its own database: [sqlite3.connect] and [_ensure_schema]. *)
Definition __init__ (rows : ledger) (w : list (weather ledger)) : conn ledger :=
  {| cn_committed := rows; cn_tx := Closed; cn_weather := w |}.

Definition not_found (key : string) (state : DedupeState) : string :=
  "Lost-update: key " +:+ str_repr key +:+ " not found during state transition to "
    +:+ str_repr (dedupe_state_str state) +:+ ".".

#[global] Instance own_port : DedupeStorePort (conn ledger) := port whole not_found.
End SQLiteDedupeStore.

(** ** Every method is one step of the ledger *)
Section steps.
Import SQLiteDedupeStore.
Context {T : Type} (tbl : table T ledger) (lost_update : string → DedupeState → string).
Implicit Types c : conn T.

(** What the two statements of a marking do inside its transaction. *)
Lemma mark_body target k (peer ack : DedupeRecord → option string) peer0 ack0 to_name :
  (∀ r, peer r = str_or peer0 (rec_peer_operation_id r)) →
  (∀ r, ack r = str_or ack0 (rec_external_ack_ref r)) →
  atomic
    (in_transaction
      (record ← _get_required_record tbl k;
       if decide (rec_state record ∉ legal_sources target)
       then raise (cannot (rec_state record) to_name)
       else _update_state tbl lost_update k target (peer record) (ack record)))
    DedupeStoreStateError (step_table tbl (spec_mark_unit target k peer0 ack0)).
Proof.
  intros Hp Ha. apply in_transaction_atomic. intros c0 v t c Hc.
  unfold step_table, spec_mark_unit, spec_mark.
  apply wp_bind, wp_bind, (wp_select _ c0 v t); [done|..].
  - intros c1 H1. assert (holds c0 v c1) as Hh1 by by (destruct H1 as (? & _ & ?)). simpl.
    destruct (tb_get tbl t !! k) as [r|] eqn:Hk; simpl; [|by apply wp_raise].
    apply wp_ret. case_decide as Hst.
    { apply wp_raise. split_and!; [done..|]. by rewrite decide_False. }
    rewrite decide_True by done. unfold _update_state.
    apply wp_bind, (wp_write_to tbl _ c0 v t); [done|..]; rewrite ?Hk.
    + intros n t' c2 [= <- <-] H2. apply wp_ret. eexists. split; [exact H2|]. simpl.
      unfold marked. by rewrite Hp, Ha.
    + done.
    + intros e c2 He Hh Hf. by split_and!.
  - intros e c1 He Hh Hf. by split_and!.
Qed.

(** The reservation, under the clean-up of either method. *)
Lemma reserve_atomic st envelope peer (cleanup : exn → M (conn T) DedupeReservation) :
  (∀ e, cleanup e = (exec_rollback;; raise e) ∨ cleanup e = (suppress exec_rollback;; raise e)) →
  atomic
    (exec_begin_immediate;;
     try_except (reserve_body tbl envelope (new_record envelope st peer)) is_Exception cleanup)
    DedupeStoreStateError (step_table tbl (Some ∘ spec_reserve st envelope peer)).
Proof.
  intros Hclean c Hc. set (spec := step_table tbl (Some ∘ spec_reserve st envelope peer)).
  assert (∀ e c', is_Exception e = true → holds c (arrival c) c' → ¬ fair c →
    if is_Exception e
    then wp (cleanup e) (stepped spec c) (refused DedupeStoreStateError spec c) c'
    else refused DedupeStoreStateError spec c e c') as Herr.
  { intros e c' He Hh Hf. rewrite He. destruct (Hclean e) as [-> | ->]; apply wp_bind.
    - apply (wp_rollback c (arrival c)); [done|intros; by apply wp_raise|].
      intros e' c2 ???. by split_and!.
    - apply (wp_rollback_quiet c (arrival c)); [done|]. intros; by apply wp_raise. }
  apply wp_bind, wp_begin; [done| |intros e c1 He Hh Hf; by split_and!].
  intros c1 H1. apply wp_try_except. unfold reserve_body.
  apply wp_bind, (wp_select _ c (arrival c) (arrival c)); [done| |exact Herr].
  intros c2 H2. unfold spec, step_table, stepped, compose, spec_reserve in *. simpl.
  destruct (tb_get tbl (arrival c) !! env_dispatch_idempotency_key envelope) as [existing|] eqn:Hk.
  - destruct H2 as (Hv & Hw & Hs). apply wp_bind, (wp_rollback c (arrival c)); [done|..].
    + intros c3 Hh. apply wp_ret. exists (arrival c). simpl. by rewrite tb_put_get.
    + congruence.
  - apply wp_bind, (wp_write_to tbl _ c (arrival c) (arrival c)); [done|..]; simpl; rewrite ?Hk.
    + intros [] t c3 [= <-] H3. apply wp_bind.
      eapply (wp_commit c (arrival c)); [exact H3| |exact Herr].
      intros c4 Hh. apply wp_ret. by eexists.
    + done.
    + exact Herr.
Qed.

Lemma sqlite_reserve e :
  atomic (reserve tbl e) DedupeStoreStateError
    (step_table tbl (Some ∘ spec_reserve reserved e (env_peer_operation_id e))).
Proof. apply (reserve_atomic reserved). by left. Qed.

Lemma sqlite_reserve_and_dispatch e peer :
  atomic (reserve_and_dispatch tbl e peer) DedupeStoreStateError
    (step_table tbl (Some ∘ spec_reserve dispatched e (str_or peer (env_peer_operation_id e)))).
Proof. apply (reserve_atomic dispatched). by right. Qed.

Lemma sqlite_mark_dispatched k peer :
  atomic (mark_dispatched tbl lost_update k peer) DedupeStoreStateError
    (step_table tbl (spec_mark_unit dispatched k peer None)).
Proof. by apply (mark_body dispatched k (λ r, str_or peer (rec_peer_operation_id r))
  (λ r, rec_external_ack_ref r)). Qed.

Lemma sqlite_mark_acknowledged k ack :
  atomic (mark_acknowledged tbl lost_update k ack) DedupeStoreStateError
    (step_table tbl (spec_mark_unit acknowledged k None ack)).
Proof. by apply (mark_body acknowledged k (λ r, rec_peer_operation_id r)
  (λ r, str_or ack (rec_external_ack_ref r))). Qed.

Lemma sqlite_mark_succeeded k ack :
  atomic (mark_succeeded tbl lost_update k ack) DedupeStoreStateError
    (step_table tbl (spec_mark_unit succeeded k None ack)).
Proof. by apply (mark_body succeeded k (λ r, rec_peer_operation_id r)
  (λ r, str_or ack (rec_external_ack_ref r))). Qed.

Lemma sqlite_mark_unknown_effect k :
  atomic (mark_unknown_effect tbl lost_update k) DedupeStoreStateError
    (step_table tbl (spec_mark_unit unknown_effect k None None)).
Proof. by apply (mark_body unknown_effect k (λ r, rec_peer_operation_id r)
  (λ r, rec_external_ack_ref r)). Qed.

Lemma sqlite_get k :
  atomic (get tbl k) DedupeStoreStateError (step_table tbl (λ l, Some (l !! k, l))).
Proof.
  intros c Hc. eapply wp_mono; [by apply (select_atomic _ DedupeStoreStateError)|..].
  - intros a c' (t & He & [= <- <-]). exists (arrival c). split; [done|]. unfold step_table. simpl.
    by rewrite tb_put_get.
  - intros e c' (He & Hx & Hf). split_and!; [done..|]. intros Hfair. by destruct (Hf Hfair).
Qed.

(** An atomic operation of a connection nobody else shares refines the ledger. *)
Lemma atomic_refines {A} (m : M (conn T) A) err spec :
  atomic m err (step_table tbl spec) →
  refines (λ c, idle c ∧ alone c) (λ c, tb_get tbl (cn_committed c)) m spec.
Proof.
  intros Hm c [Hc Ha]. specialize (Hm c Hc). unfold wp in Hm. destruct (m c) as [[a|e] c'].
  - destruct Hm as (t & He & Hs). rewrite arrival_alone in Hs by done.
    unfold step_table in Hs. apply fmap_Some in Hs as ([a' r] & Hs & [= -> ->]).
    pose proof He as (Hi & Hv & Hw). rewrite Hv, tb_get_put. split; [|done]. split; [done|].
    by eapply alone_ended.
  - destruct Hm as (He & Hx & _). rewrite arrival_alone in He by done.
    split_and!; [by destruct He|by eapply alone_ended|done|by destruct He as (_ & -> & _)].
Qed.

Definition sqlite_dedupe_laws : @DedupeStoreLaws (conn T) (port tbl lost_update).
Proof.
  refine {| ds_ok := λ c, idle c ∧ alone c; ds_view := λ c, tb_get tbl (cn_committed c) |};
    intros; eapply atomic_refines.
  - apply sqlite_reserve.
  - apply sqlite_reserve_and_dispatch.
  - apply sqlite_mark_dispatched.
  - apply sqlite_mark_acknowledged.
  - apply sqlite_mark_succeeded.
  - apply sqlite_mark_unknown_effect.
  - apply sqlite_get.
Defined.

Lemma step_table_map {A B} (f : A → B) spec spec' t :
  (∀ l, spec' l = (λ al, (f al.1, al.2)) <$> spec l) →
  step_table tbl spec' t = (λ at_, (f at_.1, at_.2)) <$> step_table tbl spec t.
Proof. intros Hs. unfold step_table. rewrite Hs. by destruct (spec _). Qed.

Lemma run_op_atomic op :
  atomic (@run_op (conn T) (port tbl lost_update) op) DedupeStoreStateError
    (step_table tbl (spec_op op)).
Proof.
  assert (∀ A (m : M (conn T) A) spec (f : A → op_result) spec',
    atomic m DedupeStoreStateError (step_table tbl spec) →
    (∀ l, spec' l = (λ al, (f al.1, al.2)) <$> spec l) →
    atomic (a ← m; mret (f a)) DedupeStoreStateError (step_table tbl spec')) as Hmap.
  { intros A m spec f spec' Hm Hs c Hc. apply wp_bind. eapply wp_mono; [by apply Hm|..].
    - intros a c' (t & He & Ht). apply wp_ret. exists t. split; [done|].
      by rewrite (step_table_map f spec), Ht.
    - intros e c' (He & Hx & Hf). split_and!; [done..|]. intros Hfair.
      destruct (Hf Hfair) as [Hn ?]. by rewrite (step_table_map f spec), Hn. }
  destruct op; simpl.
  1: apply (Hmap _ _ _ _ _ (sqlite_reserve e)).
  2: apply (Hmap _ _ _ _ _ (sqlite_reserve_and_dispatch e peer)).
  3: apply (Hmap _ _ _ (λ _, ResUnit) _ (sqlite_mark_dispatched k peer)).
  4: apply (Hmap _ _ _ (λ _, ResUnit) _ (sqlite_mark_acknowledged k ack)).
  5: apply (Hmap _ _ _ (λ _, ResUnit) _ (sqlite_mark_succeeded k ack)).
  6: apply (Hmap _ _ _ (λ _, ResUnit) _ (sqlite_mark_unknown_effect k)).
  7: apply (Hmap _ _ _ ResRecord _ (sqlite_get k)).
  all: intros l; simpl; unfold spec_mark_unit, compose;
    try (by destruct (spec_mark _ _ _ _ l)); try (by destruct (spec_reserve _ _ _ l)); done.
Qed.
End steps.

#[export] Instance SQLiteDedupeStore_laws : DedupeStoreLaws (conn ledger) :=
  sqlite_dedupe_laws whole SQLiteDedupeStore.not_found.

(** ** The property *)

(** C36: every operation of the SQLite store is linearizable and all-or-nothing.
    Whatever other processes commit in between and whichever statements fail,
    an operation that starts outside a transaction ends outside one; either
    it returned, and the database then holds exactly the ledger step of the
    specification, taken at the content it found when it got the write lock,
    or it raised an ordinary exception and its transaction left no trace.  In
    fair weather it raises only where the ledger has no step, with
    DedupeStoreStateError: then it is the in-memory store, on disk. *)
Theorem sqlite_dedupe_linearizable op (c : conn ledger) :
  idle c →
  let '(o, c') := @run_op (conn ledger) SQLiteDedupeStore.own_port op c in
  idle c' ∧
  match o with
  | Ok a => spec_op op (arrival c) = Some (a, cn_committed c')
  | Raise e =>
      is_Exception e = true ∧ cn_committed c' = arrival c ∧
      (fair c → spec_op op (arrival c) = None ∧ exn_cls e = DedupeStoreStateError)
  end.
Proof.
  intros Hc. pose proof (run_op_atomic whole SQLiteDedupeStore.not_found op c Hc) as Hm.
  rewrite <- (step_table_whole (spec_op op)). unfold wp in Hm.
  destruct (run_op op c) as [[a|e] c'].
  - destruct Hm as (t & (Hi & Ht & _) & Hs). by rewrite Ht.
  - destruct Hm as ((Hi & Hv & _) & Hx & Hf). by split_and!.
Qed.

(** Another process reserves the same key first; then the disk is full. *)
Definition stormy : list (weather ledger) :=
  [ {| other_writers := Some (λ rows,
         <["dispatch:run-1:a1:h" := new_record example_envelope reserved None]> rows);
       statement_fault := no_fault |};
    {| other_writers := None; statement_fault := no_fault |};
    {| other_writers := None; statement_fault := no_fault |};
    {| other_writers := None; statement_fault := fails_and_rolls_back |} ].

Definition storm : conn ledger :=
  (run_op (OpReserve example_envelope) (SQLiteDedupeStore.__init__ ∅ stormy)).2.

Lemma sqlite_dedupe_linearizable_witness :
  is_ok (run_op (OpMarkDispatched "dispatch:run-1:a1:h" None) storm).1 = false ∧
  idle (run_op (OpMarkDispatched "dispatch:run-1:a1:h" None) storm).2 ∧
  cn_committed (run_op (OpMarkDispatched "dispatch:run-1:a1:h" None) storm).2 = arrival storm ∧
  rec_state <$> (arrival storm !! "dispatch:run-1:a1:h") = Some reserved.
Proof.
  assert (idle storm) as Hi by (vm_compute; reflexivity).
  assert (is_ok (run_op (OpMarkDispatched "dispatch:run-1:a1:h" None) storm).1 = false) as Ho
    by (vm_compute; reflexivity).
  assert (rec_state <$> (arrival storm !! "dispatch:run-1:a1:h") = Some reserved) as Ha by (vm_compute; reflexivity).
  pose proof (sqlite_dedupe_linearizable (OpMarkDispatched "dispatch:run-1:a1:h" None) storm Hi) as H.
  split; [exact Ho|]. revert H Ho.
  destruct (run_op (OpMarkDispatched "dispatch:run-1:a1:h" None) storm) as [[a|e] c2].
  - intros _ [=].
  - intros (Hi2 & _ & Hv & _) _. split; [exact Hi2|]. split; [exact Hv|exact Ha].
Defined.
