(* ===== verification/SqliteEventLog.v ===== *)
(** * The SQLite event log ([kernel/persistence/sqlite_event_log.py])

    The two tables of the log with their constraints, the statements the log
    runs on them, and the proof that an append is one transaction that
    extends the history of its run, whatever fails and whoever else writes. *)
From S2P Require Export Sqlite EventLog.
From S2P Require Export PyJson.

(** A row of [runtime_events].  [row_event] is what reading the row back
    yields. *)
Record event_row := {
  row_commit_sequence : Z;
  row_event_index : Z;
  row_stream_run_id : string;
  row_event : RuntimeEvent
}.

(** A row of [action_commits]. *)
Record commit_row := {
  cr_commit_sequence : Z;
  cr_stream_run_id : string;
  cr_commit_id : string;
  cr_created_at : string;
  cr_event_count : Z
}.

(** [lt_sequence] is the AUTOINCREMENT counter of [action_commits]. *)
Record log_tables := {
  lt_sequence : Z;
  lt_commits : list commit_row;
  lt_events : list event_row
}.

Definition empty_tables : log_tables := {| lt_sequence := 0; lt_commits := []; lt_events := [] |}.

(** The events of one stream, in the order of insertion. *)
Definition stream (run_id : string) (l : log_tables) : list RuntimeEvent :=
  map row_event (filter (λ r, row_stream_run_id r = run_id) (lt_events l)).

(** [COALESCE(MAX(commit_offset), 0)]. *)
Definition max_of (events : list RuntimeEvent) : Z :=
  match events with
  | [] => 0
  | e :: l => foldr Z.max (ev_commit_offset e) (map ev_commit_offset l)
  end.

(** [ORDER BY commit_offset ASC]. *)
Definition offset_le (a b : RuntimeEvent) : Prop := (ev_commit_offset a ≤ ev_commit_offset b)%Z.
#[export] Instance offset_le_dec : RelDecision offset_le.
Proof. intros a b. unfold offset_le. apply _. Defined.

(** [INSERT INTO action_commits], with its CHECK; the result is [lastrowid]. *)
Definition add_commit (commit : ActionCommit) (l : log_tables) : outcome (Z * log_tables) :=
  let n := Z.of_nat (length (cm_events commit)) in
  let seq := (lt_sequence l + 1)%Z in
  if (0 <? n)%Z then
    Ok (seq,
      {| lt_sequence := seq;
         lt_commits := lt_commits l ++
           [{| cr_commit_sequence := seq; cr_stream_run_id := cm_run_id commit;
               cr_commit_id := cm_commit_id commit; cr_created_at := cm_created_at commit;
               cr_event_count := n |}];
         lt_events := lt_events l |})
  else Raise (integrity_error "CHECK constraint failed: event_count > 0").

(** [INSERT INTO runtime_events], with the foreign key and the two UNIQUE
    constraints. *)
Definition same_place (r r' : event_row) : Prop :=
  (row_stream_run_id r' = row_stream_run_id r ∧
   ev_commit_offset (row_event r') = ev_commit_offset (row_event r)) ∨
  (row_commit_sequence r' = row_commit_sequence r ∧ row_event_index r' = row_event_index r).
#[export] Instance same_place_dec r r' : Decision (same_place r r').
Proof. unfold same_place. apply _. Defined.

Definition add_event (r : event_row) (l : log_tables) : outcome (unit * log_tables) :=
  if decide (Exists (λ c, cr_commit_sequence c = row_commit_sequence r) (lt_commits l)) then
    if decide (Exists (same_place r) (lt_events l))
    then Raise (integrity_error "UNIQUE constraint failed: runtime_events")
    else Ok (tt, {| lt_sequence := lt_sequence l; lt_commits := lt_commits l;
                    lt_events := lt_events l ++ [r] |})
  else Raise (integrity_error "FOREIGN KEY constraint failed").

(** ** The statements, wherever the tables are

    [normal] is what storing a row and reading it back does to an event,
    besides dropping its schema version. *)
Section statements.
Context {T : Type} (tbl : table T log_tables) (normal : RuntimeEvent → RuntimeEvent).
Abbreviation t := (conn T).

Definition _load_next_offset (stream_run_id : string) : M t Z :=
  max_offset ← select_from tbl (λ l, max_of (stream stream_run_id l));
  mret (max_offset + 1)%Z.

Definition event_row_of (stream_run_id : string) (commit_sequence event_index offset : Z)
    (event : RuntimeEvent) : event_row :=
  {| row_commit_sequence := commit_sequence; row_event_index := event_index;
     row_stream_run_id := stream_run_id; row_event := stored_event (normal event) offset |}.

(** The [for] loop over [enumerate(events)]. *)
Fixpoint _insert_event_rows (stream_run_id : string) (commit_sequence : Z)
    (events : list RuntimeEvent) (event_index starting_offset : Z) : M t unit :=
  match events with
  | [] => mret tt
  | event :: events =>
      write_to tbl (add_event (event_row_of stream_run_id commit_sequence event_index
        (starting_offset + event_index) event));;
      _insert_event_rows stream_run_id commit_sequence events (event_index + 1) starting_offset
  end.

Definition load (run_id : string) (after_offset : Z) : M t (list RuntimeEvent) :=
  select_from tbl (λ l, merge_sort offset_le (after after_offset (stream run_id l))).

Definition max_offset (run_id : string) : M t Z :=
  select_from tbl (λ l, max_of (stream run_id l)).
End statements.

Module SQLiteKernelRuntimeEventLog.
Abbreviation t := (conn log_tables).

Definition __init__ (l : log_tables) (w : list (weather log_tables)) : t :=
  {| cn_committed := l; cn_tx := Closed; cn_weather := w |}.

(** The column [payload_json]. *)
Definition _serialize_payload (payload_json : option pydict) : option string :=
  (λ d, json_dumps true (PDict d)) <$> payload_json.

Definition _deserialize_payload (raw_payload : option string) : outcome (option pyval) :=
  match raw_payload with
  | None => Ok None
  | Some raw => v ← json_loads raw; Ok (Some v)
  end.

(** What a payload is read back as ([payload_read_back]). *)
Definition stored_payload (payload : option pydict) : option pydict :=
  d ← payload;
  match sort_keys (PDict d) with PDict d' => Some d' | _ => None end.

Definition normal (e : RuntimeEvent) : RuntimeEvent :=
  {| ev_run_id := ev_run_id e; ev_event_id := ev_event_id e;
     ev_commit_offset := ev_commit_offset e; ev_event_type := ev_event_type e;
     ev_event_class := ev_event_class e; ev_event_authority := ev_event_authority e;
     ev_ordering_key := ev_ordering_key e; ev_wake_policy := ev_wake_policy e;
     ev_created_at := ev_created_at e; ev_idempotency_key := ev_idempotency_key e;
     ev_payload_ref := ev_payload_ref e;
     ev_payload_json := stored_payload (ev_payload_json e);
     ev_schema_version := ev_schema_version e |}.

Definition _insert_commit_row (commit : ActionCommit) : M t Z :=
  implicit_begin;; write_to whole (add_commit commit).

(** [with self._connection: body]: commit at the end, roll back on an
    exception. *)
Definition with_connection {A} (body : M t A) : M t A :=
  try_except (a ← body; exec_commit;; mret a) (λ _, true) (λ e, suppress exec_rollback;; raise e).

Definition append_action_commit (commit : ActionCommit) : M t string :=
  match cm_events commit with
  | [] => raise (Exn ValueError "ActionCommit.events must contain at least one event.")
  | _ =>
      commit_sequence ← with_connection
        (next_offset ← _load_next_offset whole (cm_run_id commit);
         commit_sequence ← _insert_commit_row commit;
         _insert_event_rows whole normal (cm_run_id commit) commit_sequence
           (cm_events commit) 0 next_offset;;
         mret commit_sequence);
      mret ("commit-ref-" +:+ pretty commit_sequence)
  end.

#[global] Instance port : EventLogPort t :=
  {| el_append := append_action_commit; el_load := load whole |}.
End SQLiteKernelRuntimeEventLog.

(** C32: a payload without floats, over-long integers and repeated keys is read
    back from the text of its column as it was written, with the keys of its
    dictionaries in order; an absent payload stays absent. *)
Theorem payload_read_back payload :
  (∀ d, payload = Some d → json_plain (PDict d) = true) →
  SQLiteKernelRuntimeEventLog._deserialize_payload
    (SQLiteKernelRuntimeEventLog._serialize_payload payload)
  = Ok (PDict <$> SQLiteKernelRuntimeEventLog.stored_payload payload).
Proof.
  intros Hp. destruct payload as [d|]; [|done].
  unfold SQLiteKernelRuntimeEventLog._serialize_payload,
    SQLiteKernelRuntimeEventLog._deserialize_payload. cbn [fmap option_fmap option_map].
  rewrite json_round_trip by (by apply Hp). done.
Qed.

Lemma payload_read_back_witness :
  let payload := Some [("b", PList [PInt (-12); PStr "x\y"]); ("a", PDict [("k", PNone)])] in
  SQLiteKernelRuntimeEventLog._deserialize_payload
    (SQLiteKernelRuntimeEventLog._serialize_payload payload)
  = Ok (Some (PDict [("a", PDict [("k", PNone)]); ("b", PList [PInt (-12); PStr "x\y"])])).
Proof.
  intros payload. assert (∀ d, payload = Some d → json_plain (PDict d) = true) as Hp.
  { intros d [= <-]. vm_compute. reflexivity. }
  rewrite (payload_read_back payload Hp). vm_compute. reflexivity.
Defined.

(** ** What an append does to the tables *)
Section append.
Context (normal : RuntimeEvent → RuntimeEvent).

Fixpoint rows_from (run_id : string) (seq : Z) (events : list RuntimeEvent) (index start : Z)
    : list event_row :=
  match events with
  | [] => []
  | e :: events =>
      event_row_of normal run_id seq index (start + index) e
        :: rows_from run_id seq events (index + 1) start
  end.

Definition add_rows (rows : list event_row) (l : log_tables) : log_tables :=
  {| lt_sequence := lt_sequence l; lt_commits := lt_commits l; lt_events := lt_events l ++ rows |}.

Definition committed_rows (c : ActionCommit) (l : log_tables) : log_tables :=
  match add_commit c l with
  | Ok (seq, l') =>
      add_rows (rows_from (cm_run_id c) seq (cm_events c) 0
                  (Z.of_nat (length (stream (cm_run_id c) l)) + 1)) l'
  | Raise _ => l
  end.

Definition spec_append (c : ActionCommit) (l : log_tables) : option (string * log_tables) :=
  match cm_events c with
  | [] => None
  | _ => Some ("commit-ref-" +:+ pretty (lt_sequence l + 1)%Z, committed_rows c l)
  end.

(** Well-formed tables: every stream is numbered, and the counter is ahead of
    every row. *)
Record log_ok (l : log_tables) : Prop := {
  lo_numbered run_id : consecutive 1 (stream run_id l);
  lo_sequence r : r ∈ lt_events l → (row_commit_sequence r ≤ lt_sequence l)%Z
}.

Lemma consecutive_le n l e :
  consecutive n l → e ∈ l → (ev_commit_offset e < n + Z.of_nat (length l))%Z.
Proof.
  revert n. induction l as [|e' l IH]; intros n; simpl; [by intros _ ?%elem_of_nil|].
  intros [<- Hl] [->|He]%elem_of_cons; [lia|]. specialize (IH _ Hl He). lia.
Qed.

Lemma max_consecutive n b l :
  consecutive n l → (b < n)%Z →
  foldr Z.max b (map ev_commit_offset l) = match l with [] => b | _ => n + Z.of_nat (length l) - 1 end%Z.
Proof.
  revert n b. induction l as [|e l IH]; intros n b; simpl; [done|]. intros [He Hl] Hb.
  rewrite (IH (n + 1)%Z b Hl) by lia. destruct l; simpl; lia.
Qed.

Lemma max_of_consecutive l : consecutive 1 l → max_of l = Z.of_nat (length l).
Proof.
  destruct l as [|e l]; simpl; [done|]. intros [He Hl].
  rewrite (max_consecutive 2); [|done|lia]. destruct l; simpl in *; lia.
Qed.

Lemma stream_add_rows run_id rows l :
  stream run_id (add_rows rows l) =
    stream run_id l ++ map row_event (filter (λ r, row_stream_run_id r = run_id) rows).
Proof. unfold stream. simpl. by rewrite filter_app, map_app. Qed.

Lemma stream_rows_from run_id run_id' seq events index start :
  map row_event (filter (λ r, row_stream_run_id r = run_id') (rows_from run_id seq events index start)) =
    if decide (run_id' = run_id) then renumber (start + index) (map normal events) else [].
Proof.
  revert index. induction events as [|e events IH]; intros index; simpl; [by case_decide|].
  rewrite filter_cons. simpl. destruct (decide (run_id' = run_id)) as [->|Hr].
  - rewrite decide_True by done. simpl. by rewrite IH, Z.add_assoc.
  - rewrite decide_False by congruence. apply IH.
Qed.

Lemma stream_committed_rows c l run_id :
  cm_events c ≠ [] →
  stream run_id (committed_rows c l) =
    stream run_id l ++
    (if decide (run_id = cm_run_id c)
     then renumber (Z.of_nat (length (stream run_id l)) + 1) (map normal (cm_events c)) else []).
Proof.
  intros Hc. unfold committed_rows, add_commit. destruct (Z.ltb_spec 0 (Z.of_nat (length (cm_events c)))).
  2: { destruct (cm_events c); simpl in *; [done|lia]. }
  rewrite stream_add_rows, stream_rows_from, Z.add_0_r. case_decide; [by subst|done].
Qed.

Lemma rows_from_seq run_id seq events index start r :
  r ∈ rows_from run_id seq events index start → row_commit_sequence r = seq.
Proof.
  revert index. induction events as [|e events IH]; intros index; simpl; [by intros ?%elem_of_nil|].
  intros [->|Hr]%elem_of_cons; [done|by eapply IH].
Qed.

Lemma log_ok_committed c l : log_ok l → log_ok (committed_rows c l).
Proof.
  intros [Hn Hs]. destruct (decide (cm_events c = [])) as [Hc|Hc].
  { unfold committed_rows, add_commit. by rewrite Hc. }
  split.
  - intros run_id. rewrite stream_committed_rows by done. apply consecutive_app. split; [done|].
    rewrite Z.add_comm. case_decide; [apply consecutive_renumber|done].
  - unfold committed_rows, add_commit. destruct (Z.ltb_spec 0 (Z.of_nat (length (cm_events c)))).
    2: { destruct (cm_events c); simpl in *; [done|lia]. }
    simpl. intros r [Hr|Hr]%elem_of_app; [specialize (Hs r Hr); lia|].
    apply rows_from_seq in Hr. lia.
Qed.

(** In the middle of a commit: the row of commit [seq] is there, and its
    events below [index]. *)
Record inserting (seq index : Z) (l : log_tables) : Prop := {
  in_numbered run_id : consecutive 1 (stream run_id l);
  in_commit : Exists (λ c, cr_commit_sequence c = seq) (lt_commits l);
  in_rows r : r ∈ lt_events l → row_commit_sequence r = seq → (row_event_index r < index)%Z
}.

Lemma inserting_start c l seq l' : log_ok l → add_commit c l = Ok (seq, l') → inserting seq 0 l'.
Proof.
  intros [Hn Hs]. unfold add_commit. case_match; [|done]. intros [= <- <-]. split; simpl; [done| |].
  - apply Exists_app. right. by constructor.
  - intros r Hr. specialize (Hs r Hr). lia.
Qed.

Lemma stream_elem r l : r ∈ lt_events l → row_event r ∈ stream (row_stream_run_id r) l.
Proof. intros Hr. apply list_elem_of_fmap. exists r. split; [done|]. by apply list_elem_of_filter. Qed.

(** The next event goes in where its offset is the next one, *)
Lemma add_event_next r l :
  inserting (row_commit_sequence r) (row_event_index r) l →
  ev_commit_offset (row_event r) = (Z.of_nat (length (stream (row_stream_run_id r) l)) + 1)%Z →
  add_event r l = Ok (tt, add_rows [r] l) ∧
  inserting (row_commit_sequence r) (row_event_index r + 1) (add_rows [r] l).
Proof.
  intros [Hn Hc Hr] Hoff. unfold add_event. rewrite decide_True by done.
  rewrite decide_False.
  - split; [done|]. split; simpl; [|done|].
    + intros run_id'. rewrite stream_add_rows, filter_cons. case_decide as Hrun.
      * subst run_id'. apply consecutive_app. split; [done|]. simpl. split; [|done]. lia.
      * by rewrite app_nil_r.
    + intros r' [Hr'|Hr'%list_elem_of_singleton]%elem_of_app; intros Hs.
      * specialize (Hr r' Hr' Hs). lia.
      * subst r'. simpl. lia.
  - intros (r' & Hr' & [[Hs Ho]|[Hs Hi]])%Exists_exists; simpl in *.
    + apply stream_elem in Hr'. rewrite Hs in Hr'.
      pose proof (consecutive_le 1 _ _ (Hn _) Hr'). lia.
    + specialize (Hr r' Hr' Hs). lia.
Qed.

Lemma add_event_fits run_id seq index start e l :
  inserting seq index l → (start + index = Z.of_nat (length (stream run_id l)) + 1)%Z →
  let r := event_row_of normal run_id seq index (start + index) e in
  add_event r l = Ok (tt, add_rows [r] l) ∧ inserting seq (index + 1) (add_rows [r] l).
Proof. intros Hin Hoff r. by apply (add_event_next r). Qed.

(** and not where somebody else has been there. *)
Lemma add_event_clash run_id seq index offset e l :
  inserting seq index l → (1 ≤ offset ≤ Z.of_nat (length (stream run_id l)))%Z →
  ∃ msg, add_event (event_row_of normal run_id seq index offset e) l = Raise (integrity_error msg).
Proof.
  intros [Hn Hc Hr] Hoff. unfold add_event. rewrite decide_True by done. rewrite decide_True; [by eexists|].
  destruct (lookup_lt_is_Some_2 (stream run_id l) (Z.to_nat (offset - 1))) as [e' He']; [lia|].
  pose proof (Hn run_id) as Hc1. rewrite <- (take_drop_middle _ _ _ He'), consecutive_app in Hc1.
  destruct Hc1 as [_ [Ho _]]. pose proof (lookup_lt_Some _ _ _ He') as Hlt.
  rewrite length_take in Ho. apply list_elem_of_lookup_2, list_elem_of_fmap in He' as (r' & -> & Hin).
  apply list_elem_of_filter in Hin as [Hs Hin]. apply Exists_exists. exists r'.
  split; [done|]. left. simpl. split; [done|]. lia.
Qed.
End append.

(** ** The statements inside a transaction *)
Section statements_spec.
Context {T : Type} (tbl : table T log_tables) (normal : RuntimeEvent → RuntimeEvent).
Implicit Types c : conn T.

Lemma insert_rows_spec run_id seq events index start c0 v t c :
  within c0 v t c → inserting seq index (tb_get tbl t) →
  (start + index = Z.of_nat (length (stream run_id (tb_get tbl t))) + 1)%Z →
  wp (_insert_event_rows tbl normal run_id seq events index start)
    (λ _, within c0 v
       (tb_put tbl (add_rows (rows_from normal run_id seq events index start) (tb_get tbl t)) t))
    (λ e c', is_Exception e = true ∧ holds c0 v c' ∧ ¬ fair c0) c.
Proof.
  revert index t c. induction events as [|e events IH]; intros index t c Hw Hin Hoff; simpl.
  { apply wp_ret. unfold add_rows. rewrite app_nil_r.
    replace (Build_log_tables _ _ _) with (tb_get tbl t) by by destruct (tb_get tbl t).
    by rewrite tb_put_get. }
  destruct (add_event_fits normal run_id seq index start e _ Hin Hoff) as [Hadd Hin'].
  set (r := event_row_of normal run_id seq index (start + index) e) in *.
  apply wp_bind, (wp_write_to tbl _ c0 v t); [done|..]; rewrite ?Hadd.
  - intros [] l c1 [= <-] H1.
    assert (stream run_id (add_rows [r] (tb_get tbl t)) =
      stream run_id (tb_get tbl t) ++ [row_event r]) as Hst.
    { rewrite stream_add_rows, filter_cons. simpl. by rewrite decide_True. }
    eapply wp_mono; [apply (IH (index + 1)%Z _ c1 H1); rewrite tb_get_put|..]; [done| | |done].
    + rewrite Hst, length_app. simpl. lia.
    + intros [] c2. cbv beta. rewrite tb_get_put, tb_put_put. unfold add_rows. simpl.
      by rewrite <- app_assoc.
  - done.
  - intros; by split_and!.
Qed.

Lemma rows_after_commit cm seq l c0 v c :
  within c0 v (tb_put tbl l v) c → add_commit cm (tb_get tbl v) = Ok (seq, l) →
  log_ok (tb_get tbl v) →
  wp (_insert_event_rows tbl normal (cm_run_id cm) seq (cm_events cm) 0
        (Z.of_nat (length (stream (cm_run_id cm) (tb_get tbl v))) + 1))
    (λ _, within c0 v (tb_put tbl (committed_rows normal cm (tb_get tbl v)) v))
    (λ e c', is_Exception e = true ∧ holds c0 v c' ∧ ¬ fair c0) c.
Proof.
  intros Hw Hadd Hok.
  assert (stream (cm_run_id cm) l = stream (cm_run_id cm) (tb_get tbl v)) as Hst.
  { revert Hadd. unfold add_commit. case_match; [|done]. by intros [= _ <-]. }
  eapply wp_mono; [apply (insert_rows_spec _ _ _ _ _ _ _ _ _ Hw); rewrite tb_get_put|..].
  - by eapply inserting_start.
  - rewrite Hst. lia.
  - intros [] c'. cbv beta. rewrite tb_get_put, tb_put_put. unfold committed_rows. by rewrite Hadd.
  - done.
Qed.

(** What the other writers may do: extend streams, as appends do. *)
Definition log_grows (l l' : log_tables) : Prop :=
  log_ok l' ∧ ∀ run_id, stream run_id l `prefix_of` stream run_id l'.
Definition grows c : Prop :=
  Forall (λ w, ∀ t, log_ok (tb_get tbl t) → log_grows (tb_get tbl t) (tb_get tbl (others w t)))
    (cn_weather c).

Lemma passes_log_ok c v :
  grows c → log_ok (tb_get tbl (cn_committed c)) → passes c v → log_ok (tb_get tbl v).
Proof.
  intros Hg. apply (passes_keeps (λ t, log_ok (tb_get tbl t))). eapply Forall_impl; [exact Hg|].
  intros w Hw t Ht. by apply Hw.
Qed.

Lemma drifted_log_grows c c' :
  grows c → log_ok (tb_get tbl (cn_committed c)) → drifted c c' →
  log_grows (tb_get tbl (cn_committed c)) (tb_get tbl (cn_committed c')).
Proof.
  intros Hg Hok (pre & Hw & ->).
  apply (drift_keeps (λ t, log_grows (tb_get tbl (cn_committed c)) (tb_get tbl t))); [|by split].
  unfold grows in Hg. rewrite Hw in Hg. apply Forall_app in Hg as [Hg _].
  eapply Forall_impl; [exact Hg|]. intros w Hx t [Ht Hp]. destruct (Hx t Ht) as [? Hp'].
  split; [done|]. intros run_id. exact (transitivity (Hp run_id) (Hp' run_id)).
Qed.

Lemma grows_drifted c c' : grows c → drifted c c' → grows c'.
Proof. intros Hg Hd. eapply Forall_suffix; [by eapply drifted_suffix|exact Hg]. Qed.

Lemma alone_grows c : alone c → grows c.
Proof.
  intros Ha. eapply Forall_impl; [exact Ha|]. intros w Hw t Ht. unfold others. rewrite Hw. by split.
Qed.

(** What an append of [cm] must do. *)
Definition append_step (cm : ActionCommit) : T → option (string * T) :=
  step_table tbl (spec_append normal cm).

Lemma append_step_some cm seq l v :
  add_commit cm (tb_get tbl v) = Ok (seq, l) →
  append_step cm v =
    Some ("commit-ref-" +:+ pretty seq, tb_put tbl (committed_rows normal cm (tb_get tbl v)) v).
Proof.
  unfold append_step, step_table, spec_append, add_commit. destruct (cm_events cm) as [|e es]; [done|].
  case_match; [|done]. by intros [= <- <-].
Qed.

Lemma append_empty cm c :
  idle c → cm_events cm = [] →
  wp (raise (Exn ValueError "ActionCommit.events must contain at least one event."))
    (stepped_at (append_step cm) c) (refused_at ValueError (append_step cm) c) c.
Proof.
  intros Hc Hes. apply wp_raise. exists (cn_committed c).
  split_and!; [apply drifted_passes, drifted_refl|done..|].
  intros _ _. split; [|done]. unfold append_step, step_table, spec_append. by rewrite Hes.
Qed.

(** The commit reference is built from the sequence number. *)
Lemma append_ref spec c (m : M (conn T) Z) :
  wp m (λ seq, stepped_at spec c ("commit-ref-" +:+ pretty seq)) (refused_at ValueError spec c) c →
  wp (seq ← m; mret ("commit-ref-" +:+ pretty seq)) (stepped_at spec c) (refused_at ValueError spec c) c.
Proof.
  intros Hm. apply wp_bind. eapply wp_mono; [exact Hm| |done]. intros seq c' Hq. by apply wp_ret.
Qed.
End statements_spec.

Lemma add_commit_ok cm l : cm_events cm ≠ [] → ∃ seq l', add_commit cm l = Ok (seq, l').
Proof.
  intros Hc. unfold add_commit. destruct (Z.ltb_spec 0 (Z.of_nat (length (cm_events cm)))); [eauto|].
  destruct (cm_events cm); simpl in *; [done|lia].
Qed.

(** ** The log of its own database *)
Section standalone.
Import SQLiteKernelRuntimeEventLog.
Implicit Types c : t.

Lemma wp_implicit_begin c0 (Q : unit → t → Prop) Ex c :
  idle c → drifted c0 c → (∀ c', opened c0 c' → drifted c c' → Q tt c') →
  (∀ e c', is_Exception e = true → untouched c0 c' → ¬ fair c0 → Ex e c') →
  wp implicit_begin Q Ex c.
Proof.
  intros Hc Hd HQ HE. unfold wp, implicit_begin. rewrite Hc. fold (wp exec_begin Q Ex c).
  apply (wp_unlocked _ c0); [by rewrite Hc|done| |done].
  intros c1 Hd1 ->. simpl. rewrite arrival_tx_other, Hc by (by rewrite Hc).
  apply HQ; [split; [done|by apply drifted_next]|apply (drifted_next c c), drifted_refl].
Qed.

(** Between the SELECT and the lock another process may have appended to the
    stream: the first row then clashes. *)
Lemma append_rows cm seq l n c0 v c :
  cm_events cm ≠ [] → within c0 v l c → add_commit cm v = Ok (seq, l) → log_ok v →
  n ≤ length (stream (cm_run_id cm) v) →
  wp (_insert_event_rows whole normal (cm_run_id cm) seq (cm_events cm) 0 (Z.of_nat n + 1))
    (λ _, within c0 v (committed_rows normal cm v))
    (λ e c', is_Exception e = true ∧ holds c0 v c' ∧
       ¬ (fair c0 ∧ n = length (stream (cm_run_id cm) v))) c.
Proof.
  intros Hne Hw Hadd Hok Hn.
  destruct (decide (n = length (stream (cm_run_id cm) v))) as [->|Hlt].
  - eapply wp_mono; [apply (rows_after_commit whole normal cm seq l c0 v c Hw Hadd Hok)|done|].
    intros e c' (? & ? & ?). split_and!; tauto.
  - destruct (cm_events cm) as [|e es] eqn:Hes; [done|]. simpl.
    assert (stream (cm_run_id cm) l = stream (cm_run_id cm) v) as Hst.
    { revert Hadd. unfold add_commit. case_match; [|done]. by intros [= _ <-]. }
    destruct (add_event_clash normal (cm_run_id cm) seq 0 (Z.of_nat n + 1 + 0) e l) as [msg Hmsg].
    { by eapply inserting_start. }
    { rewrite Hst. lia. }
    apply wp_bind, (wp_write_to whole _ c0 v l); [done|..]; simpl; unfold id; rewrite ?Hmsg.
    + done.
    + intros e' c' [= <-] Hh. split_and!; [done..|]. by intros [].
    + intros e' c' He Hh Hf. split_and!; [done..|]. by intros [].
Qed.

Lemma append_serial cm c :
  idle c → log_ok (cn_committed c) → grows whole c →
  wp (append_action_commit cm) (stepped_at (append_step whole normal cm) c)
    (refused_at ValueError (append_step whole normal cm) c) c.
Proof.
  intros Hc Hok Hg. unfold append_action_commit.
  set (spec := append_step whole normal cm).
  destruct (cm_events cm) as [|e0 es] eqn:Hes; [by apply append_empty|].
  assert (cm_events cm ≠ []) as Hne by by rewrite Hes. rewrite <- Hes. clear Hes.
  apply append_ref.
  apply wp_try_except, wp_bind, wp_bind, wp_bind, (wp_select_closed _ c);
    [done|apply drifted_refl| |by intros; apply unfair_refused].
  intros c1 Hc1 Hd1 _. apply wp_ret, wp_bind, wp_bind, (wp_implicit_begin c); [done..| |by intros; apply unfair_refused].
  intros c2 Ho2 Hd2. apply (wp_write_opened _ c); [done| | |by intros; apply unfair_refused].
  2: { intros v e c' Hv Hf Hu. unfold on_table in Hf. simpl in Hf; unfold id in Hf.
       destruct (add_commit_ok cm (cn_committed v) Hne) as (? & ? & Heq). by rewrite Heq in Hf. }
  intros v seq t' c3 Hv Hf Hp Hw. unfold on_table in Hf. simpl in Hf; unfold id in Hf.
  destruct (add_commit cm (cn_committed v)) as [[seq' l]|] eqn:Hadd; [|done].
  injection Hf as -> <-.
  pose proof (drifted_log_grows whole c c1 Hg Hok Hd1) as [Hok1 _].
  pose proof (drifted_log_grows whole c1 v (grows_drifted _ _ _ Hg Hd1) Hok1
    (drifted_trans _ _ _ Hd2 Hv)) as [Hokv Hpre].
  simpl. unfold id. rewrite max_of_consecutive by apply Hok1.
  apply wp_bind. eapply wp_mono; [apply (append_rows cm seq l _ c (cn_committed v) c3); try done|..].
  - by apply prefix_length, Hpre.
  - intros [] c4 H4. apply wp_ret, wp_bind, (wp_commit c (cn_committed v) _ _ _ _ H4).
    + intros c5 Hh. apply wp_ret. eexists (cn_committed v), _. split_and!; [done|exact Hh|].
      unfold spec. by rewrite (append_step_some whole normal cm seq l).
    + intros e c5 He Hh Hf. apply unfair_refused; [done|by eapply holds_untouched|done].
  - intros e c4 (He & Hh & Hf). apply rollback_refused; [done|by eapply holds_untouched|].
    intros [Hfair Ha]. apply Hf. split; [done|].
    by rewrite (passes_alone c _ Ha Hp), (passes_alone c _ Ha (drifted_passes _ _ Hd1)).
Qed.
End standalone.

(** ** The contract of the log, from the append *)
#[export] Instance offset_le_trans : Transitive offset_le.
Proof. intros a b c. unfold offset_le. lia. Qed.
#[export] Instance offset_le_total : Total offset_le.
Proof. intros a b. unfold offset_le. lia. Qed.

Lemma consecutive_sorted n l : consecutive n l → StronglySorted offset_le l.
Proof.
  revert n. induction l as [|e l IH]; intros n; [constructor|]. intros [He Hl].
  constructor; [by eapply IH|]. apply Forall_forall. intros e' He'.
  pose proof (consecutive_ge _ _ _ Hl He'). unfold offset_le. lia.
Qed.

Lemma consecutive_offset_inj n l e1 e2 :
  consecutive n l → e1 ∈ l → e2 ∈ l → ev_commit_offset e1 = ev_commit_offset e2 → e1 = e2.
Proof.
  revert n. induction l as [|e l IH]; intros n; [by intros _ ?%elem_of_nil|].
  intros [He Hl] [->|H1]%elem_of_cons [->|H2]%elem_of_cons Heq; [done|..|by eapply IH].
  - pose proof (consecutive_ge _ _ _ Hl H2). lia.
  - pose proof (consecutive_ge _ _ _ Hl H1). lia.
Qed.

(** A numbered stream comes back in order. *)
Lemma sort_consecutive n k l : consecutive n l → merge_sort offset_le (after k l) = after k l.
Proof.
  intros Hl. apply (StronglySorted_unique_strong offset_le).
  - intros x1 x2 H1 H2 H12 H21. rewrite merge_sort_Permutation in H1.
    apply list_elem_of_filter in H1 as [_ H1]. apply list_elem_of_filter in H2 as [_ H2].
    eapply (consecutive_offset_inj n l); [done..|]. unfold offset_le in *. lia.
  - apply (StronglySorted_merge_sort offset_le).
  - unfold after. pose proof (consecutive_sorted _ _ Hl) as Hs. clear Hl.
    induction Hs as [|e l Hs IH He]; [constructor|]. rewrite filter_cons. case_decide; [|done].
    constructor; [done|]. apply Forall_forall. intros x [_ Hx]%list_elem_of_filter.
    by eapply Forall_forall in He.
  - apply merge_sort_Permutation.
Qed.

Section log_laws.
Context {T : Type} (tbl : table T log_tables) (normal : RuntimeEvent → RuntimeEvent).
Context (append : ActionCommit → M (conn T) string).
Hypothesis Happend : ∀ cm c,
  idle c → log_ok (tb_get tbl (cn_committed c)) → grows tbl c →
  wp (append cm) (stepped_at (append_step tbl normal cm) c)
    (refused_at ValueError (append_step tbl normal cm) c) c.
Implicit Types c : conn T.

Definition log_port : EventLogPort (conn T) := {| el_append := append; el_load := load tbl |}.

Definition log_at c : log_tables := tb_get tbl (cn_committed c).

Lemma table_load_spec run k c :
  idle c → alone c → log_ok (log_at c) →
  let '(o, c') := load tbl run k c in
  ended c (cn_committed c) c' ∧ (fair c → is_ok o = true) ∧
  ∀ events, o = Ok events → events = after k (stream run (log_at c)).
Proof.
  intros Hc Ha Hok. pose proof (select_atomic
    ((λ l, merge_sort offset_le (after k (stream run l))) ∘ tb_get tbl) ValueError c Hc) as Hs.
  unfold wp in Hs. change (exec_select _) with (load tbl run k) in Hs.
  destruct (load tbl run k c) as [[events|e] c'].
  - destruct Hs as (t & He & Heq). rewrite (arrival_alone c Ha) in Heq. injection Heq as <- <-.
    split_and!; [done|done|]. intros ? [= <-]. unfold compose, log_at.
    apply (sort_consecutive 1), Hok.
  - destruct Hs as (He & _ & Hf). rewrite (arrival_alone c Ha) in He.
    split_and!; [done| |done]. intros Hfair. by destruct (Hf Hfair).
Qed.

Lemma table_append_spec cm c :
  idle c → log_ok (log_at c) → grows tbl c →
  let '(o, c') := append cm c in
  idle c' ∧ cn_weather c' `suffix_of` cn_weather c ∧ log_ok (log_at c') ∧
  match o with
  | Ok _ => cm_events cm ≠ [] ∧ ∃ v, passes c v ∧ ∀ run, stream run (log_at c') =
      stream run (tb_get tbl v) ++
      (if decide (run = cm_run_id cm)
       then renumber (Z.of_nat (length (stream run (tb_get tbl v))) + 1) (map normal (cm_events cm))
       else [])
  | Raise e => is_Exception e = true ∧ passes c (cn_committed c') ∧
      (fair c → alone c → cm_events cm = [] ∧ exn_cls e = ValueError)
  end.
Proof.
  intros Hc Hok Hg. pose proof (Happend cm c Hc Hok Hg) as Hs. unfold wp in Hs.
  destruct (append cm c) as [[ref|e] c'].
  - destruct Hs as (v & t & Hp & (Hi & Hv & Hw) & Hs). unfold append_step, step_table, spec_append in Hs.
    destruct (cm_events cm) as [|e es] eqn:Hes; [done|]. simpl in Hs. injection Hs as _ <-.
    assert (cm_events cm ≠ []) as Hne by by rewrite Hes.
    unfold log_at. rewrite Hv, tb_get_put. split_and!; [done|done| |done|].
    + by apply log_ok_committed, (passes_log_ok tbl c).
    + exists v. split; [done|]. intros run. rewrite stream_committed_rows by done. by rewrite Hes.
  - destruct Hs as (v & Hp & (Hi & Hv & Hw) & Hx & Hf). unfold log_at. rewrite Hv.
    split_and!; [done|done|by apply (passes_log_ok tbl c)|done|done|].
    intros Hfair Ha. destruct (Hf Hfair Ha) as [Hn ?]. split; [|done].
    unfold append_step, step_table, spec_append in Hn. by destruct (cm_events cm).
Qed.

Definition log_laws : @EventLogLaws (conn T) log_port.
Proof.
  refine (@Build_EventLogLaws (conn T) log_port (λ c, idle c ∧ alone c ∧ log_ok (log_at c))
    (λ c run, stream run (log_at c)) normal _ _ _).
  - intros c run (_ & _ & Hok). apply Hok.
  - intros run k c (Hc & Ha & Hok). pose proof (table_load_spec run k c Hc Ha Hok) as Hl. simpl.
    destruct (load tbl run k c) as [o c']. destruct Hl as ((Hi & Hv & Hw) & _ & Ho).
    unfold log_at in *. rewrite Hv. split_and!; [done|by eapply Forall_suffix|done|done|done].
  - intros cm c (Hc & Ha & Hok).
    pose proof (table_append_spec cm c Hc Hok (alone_grows tbl c Ha)) as Hs. simpl.
    destruct (append cm c) as [[ref|e] c'].
    + destruct Hs as (Hi & Hw & Hok' & _ & v & Hp & Hst). split.
      * split_and!; [done|by eapply Forall_suffix|done].
      * intros run. right. rewrite Hst, (passes_alone c v Ha Hp). done.
    + destruct Hs as (Hi & Hw & Hok' & _ & Hp & _). split.
      * split_and!; [done|by eapply Forall_suffix|done].
      * intros run. unfold log_at. by rewrite (passes_alone c _ Ha Hp).
Defined.
End log_laws.

#[export] Instance SQLiteKernelRuntimeEventLog_laws : EventLogLaws (conn log_tables) :=
  log_laws whole SQLiteKernelRuntimeEventLog.normal SQLiteKernelRuntimeEventLog.append_action_commit
    append_serial.

(** ** The property *)

(** C38: an append to the SQLite log is one serializable transaction.  Whatever
    statements fail and whatever other processes append before, between and
    after its statements, it ends outside a transaction over well-formed
    tables; either it returned, and every stream is then what some process had
    committed, extended in the commit's run by exactly the commit's events
    numbered on from there, which loading after the old length gives back when
    nothing goes wrong; or it raised an ordinary exception and none of its rows
    are there.  With nobody else writing and no failing statement it raises
    only for an empty commit. *)
Theorem sqlite_log_append_serializable cm (c : conn log_tables) :
  idle c → log_ok (cn_committed c) → grows whole c →
  let '(o, c') := el_append cm c in
  idle c' ∧ log_ok (cn_committed c') ∧
  match o with
  | Ok _ => cm_events cm ≠ [] ∧ ∃ v, passes c v ∧
      (∀ run, stream run (cn_committed c') = stream run v ++
        (if decide (run = cm_run_id cm)
         then renumber (Z.of_nat (length (stream run v)) + 1)
                (map SQLiteKernelRuntimeEventLog.normal (cm_events cm)) else [])) ∧
      (fair c → alone c →
       (el_load (cm_run_id cm) (Z.of_nat (length (stream (cm_run_id cm) v))) c').1 =
         Ok (renumber (Z.of_nat (length (stream (cm_run_id cm) v)) + 1)
               (map SQLiteKernelRuntimeEventLog.normal (cm_events cm))))
  | Raise e => is_Exception e = true ∧ passes c (cn_committed c') ∧
      (fair c → alone c → cm_events cm = [] ∧ exn_cls e = ValueError)
  end.
Proof.
  intros Hc Hok Hg. pose proof (table_append_spec whole SQLiteKernelRuntimeEventLog.normal
    SQLiteKernelRuntimeEventLog.append_action_commit append_serial cm c Hc Hok Hg) as Hs.
  change (el_append cm c) with (SQLiteKernelRuntimeEventLog.append_action_commit cm c).
  destruct (SQLiteKernelRuntimeEventLog.append_action_commit cm c) as [[ref|e] c'].
  2: { destruct Hs as (? & _ & ? & ? & ? & ?). by split_and!. }
  destruct Hs as (Hi & Hw & Hok' & Hne & v & Hp & Hst). split_and!; [done..|]. exists v.
  split_and!; [done|done|]. intros Hfair Ha.
  pose proof (table_load_spec whole (cm_run_id cm) (Z.of_nat (length (stream (cm_run_id cm) v))) c' Hi) as Hl.
  specialize (Hl (Forall_suffix _ _ _ Hw Ha) Hok'). simpl.
  destruct (load whole _ _ c') as [o c2]. destruct Hl as (_ & Ho & Hev). simpl in Hev |- *.
  destruct o as [events|e]; [|by specialize (Ho (Forall_suffix _ _ _ Hw Hfair))].
  f_equal. rewrite (Hev events eq_refl). set (n := Z.of_nat _).
  replace n with (1 + n - 1)%Z at 1 by lia. rewrite after_consecutive by apply Hok'.
  unfold log_at in *. change (tb_get whole ?x) with x. change (tb_get whole (cn_committed c')) with (cn_committed c') in Hst.
  rewrite Hst, decide_True by done. unfold n. by rewrite Nat2Z.id, drop_app_length.
Qed.

(** Another process appends to the same run between the SELECT and the lock:
    the append raises IntegrityError and leaves only the other one's row. *)
Definition log_event (id : string) : RuntimeEvent :=
  {| ev_run_id := "run-1"; ev_event_id := id; ev_commit_offset := 0; ev_event_type := "run.ready";
     ev_event_class := "fact"; ev_event_authority := authoritative_fact; ev_ordering_key := "run-1";
     ev_wake_policy := "wake_actor"; ev_created_at := "t"; ev_idempotency_key := None;
     ev_payload_ref := None; ev_payload_json := Some [("b", PInt 1); ("a", PNone)];
     ev_schema_version := "1" |}.

Definition log_commit (ids : list string) : ActionCommit :=
  {| cm_run_id := "run-1"; cm_commit_id := "c"; cm_events := map log_event ids;
     cm_action := None; cm_caused_by := None; cm_created_at := "t" |}.

Definition other_append (l : log_tables) : log_tables :=
  committed_rows SQLiteKernelRuntimeEventLog.normal (log_commit ["other"]) l.

Lemma other_append_grows l : log_ok l → log_grows l (other_append l).
Proof.
  intros Hl. split; [by apply log_ok_committed|]. intros run. unfold other_append.
  rewrite stream_committed_rows by done. by eexists.
Qed.

Definition raced : conn log_tables :=
  SQLiteKernelRuntimeEventLog.__init__ empty_tables
    [ {| other_writers := None; statement_fault := no_fault |};
      {| other_writers := Some other_append; statement_fault := no_fault |} ].

Lemma empty_log_ok : log_ok empty_tables.
Proof. split; simpl; [done|by intros r ?%elem_of_nil]. Qed.

Lemma raced_grows : grows whole raced.
Proof.
  apply Forall_cons; split; [by intros t Ht; split|].
  apply Forall_cons; split; [|by apply Forall_nil]. intros t. apply other_append_grows.
Qed.

Lemma sqlite_log_append_serializable_witness :
  is_ok (el_append (log_commit ["a"; "b"]) raced).1 = false ∧
  idle (el_append (log_commit ["a"; "b"]) raced).2 ∧
  passes raced (cn_committed (el_append (log_commit ["a"; "b"]) raced).2) ∧
  map ev_event_id (stream "run-1" (cn_committed (el_append (log_commit ["a"; "b"]) raced).2)) = ["other"].
Proof.
  pose proof (sqlite_log_append_serializable (log_commit ["a"; "b"]) raced eq_refl
    empty_log_ok raced_grows) as H.
  assert (is_ok (el_append (log_commit ["a"; "b"]) raced).1 = false) as Ho by (vm_compute; reflexivity).
  assert (map ev_event_id (stream "run-1" (cn_committed (el_append (log_commit ["a"; "b"]) raced).2))
    = ["other"]) as Hs by (vm_compute; reflexivity).
  split; [exact Ho|]. revert H Ho Hs. destruct (el_append (log_commit ["a"; "b"]) raced) as [[r|e] c'].
  - intros _ [=].
  - intros (Hi & _ & _ & Hp & _) _ Hs. split; [exact Hi|]. split; [exact Hp|exact Hs].
Defined.
