(* ===== verification/ProjectionCache.v ===== *)
(** * Projections across restarts ([kernel/persistence/sqlite_projection_cache.py])

    A table of projection snapshots, and the projection service that seeds its
    in-memory cache from it. *)
From S2P Require Export Projection SqliteEventLog.

(** ** Snapshots *)
Definition _projection_to_dict (p : RunProjection) : pydict :=
  [ ("run_id", PStr (pj_run_id p));
    ("lifecycle_state", PStr (lifecycle_value (pj_lifecycle_state p)));
    ("projected_offset", PInt (pj_projected_offset p));
    ("waiting_external", PBool (pj_waiting_external p));
    ("ready_for_dispatch", PBool (pj_ready_for_dispatch p));
    ("current_action_id", opt_str (pj_current_action_id p));
    ("recovery_mode", opt_str (pj_recovery_mode p));
    ("recovery_reason", opt_str (pj_recovery_reason p));
    ("active_child_runs", str_list (pj_active_child_runs p));
    ("policy_versions",
      match pj_policy_versions p with Some v => PDict (policy_versions_dict v) | None => PNone end);
    ("task_contract_ref", opt_str (pj_task_contract_ref p)) ].

(** [d[k]]. *)
Definition required (k : string) (d : pydict) : outcome pyval :=
  if py_in k d then Ok (py_get k d) else Raise (Exn KeyError k).

Fixpoint as_str_list (l : list pyval) : option (list string) :=
  match l with
  | [] => Some []
  | PStr s :: l' => r ← as_str_list l'; Some (s :: r)
  | _ :: _ => None
  end.

Definition is_list (v : pyval) : option (list pyval) :=
  match v with PList l => Some l | _ => None end.

Definition parse_lifecycle (s : string) : option RunLifecycleState :=
  first_some (λ st, if decide (lifecycle_value st = s) then Some st else None)
    [created; ready; dispatching; waiting_result; waiting_external; recovering; completed; failed;
     aborted].

Definition _dict_to_projection (d : pydict) : outcome RunProjection :=
  policy_versions ← match py_get "policy_versions" d with
                    | PNone => Ok None
                    | PDict pv => v ← policy_versions_of pv; Ok (Some v)
                    | _ => Raise (Exn TypeError "argument after ** must be a mapping")
                    end;
  run_id ← required "run_id" d ≫= of_type ∘ is_str;
  state ← required "lifecycle_state" d ≫= (λ v, of_type (is_str v ≫= parse_lifecycle));
  offset ← required "projected_offset" d ≫= of_type ∘ is_int;
  waiting ← required "waiting_external" d ≫= of_type ∘ is_bool;
  ready ← required "ready_for_dispatch" d ≫= of_type ∘ is_bool;
  current ← of_type (as_opt_str (py_get "current_action_id" d));
  mode ← of_type (as_opt_str (py_get "recovery_mode" d));
  reason ← of_type (as_opt_str (py_get "recovery_reason" d));
  children ← of_type (is_list (py_get_or "active_child_runs" d (PList [])) ≫= as_str_list);
  contract ← of_type (as_opt_str (py_get "task_contract_ref" d));
  Ok {| pj_run_id := run_id; pj_lifecycle_state := state; pj_projected_offset := offset;
        pj_waiting_external := waiting; pj_ready_for_dispatch := ready;
        pj_current_action_id := current; pj_recovery_mode := mode; pj_recovery_reason := reason;
        pj_active_child_runs := children; pj_policy_versions := policy_versions;
        pj_task_contract_ref := contract |}.

(** ** The table *)
Module ProjectionSnapshotCache.
(** The row of a run: [snapshot_json] is kept as the value that [json.loads]
    reads from it; [updated_at] is written only. *)
Record row := { projected_offset : Z; snapshot_json : pyval }.
Abbreviation rows := (gmap string row).
Abbreviation t := (conn rows).

Definition __init__ (table : rows) (w : list (weather rows)) : t := Conn table Closed w.

(** The statements commit without a [rollback] on failure. *)
Definition save (projection : RunProjection) : M t unit :=
  let snapshot_json := sort_keys (PDict (_projection_to_dict projection)) in
  implicit_begin;;
  exec_write (λ table : rows,
    Ok (tt, <[pj_run_id projection :=
                {| projected_offset := pj_projected_offset projection;
                   snapshot_json := snapshot_json |}]> table));;
  exec_commit.

Definition load (run_id : string) : M t (option RunProjection) :=
  found ← exec_select (λ table : rows, table !! run_id);
  match found with
  | None => mret None
  | Some r =>
      match snapshot_json r with
      | PDict d => p ← lift (_dict_to_projection d); mret (Some p)
      | _ => raise (Exn AttributeError "get")
      end
  end.

Definition delete (run_id : string) : M t unit :=
  implicit_begin;;
  exec_write (λ table : rows, Ok (tt, base.delete run_id table));;
  exec_commit.
End ProjectionSnapshotCache.

(** ** The service *)
Module CachedDecisionProjectionService.
Record t (L : Type) := Cached {
  _inner : projection_service L;
  _cache : ProjectionSnapshotCache.t
}.
Arguments Cached {L}.
Arguments _inner {L}.
Arguments _cache {L}.

Section service.
Context {L : Type} `{EventLogPort L} (cfg : projection_config).

Definition on_inner {A} (m : M (projection_service L) A) : M (t L) A :=
  zoom _inner (λ i s, Cached i (_cache s)) m.
Definition on_cache {A} (m : M ProjectionSnapshotCache.t A) : M (t L) A :=
  zoom _cache (λ c s, Cached (_inner s) c) m.

Definition _maybe_seed (run_id : string) : M (t L) unit :=
  warm ← gets (λ s, _projection_by_run (_inner s) !! run_id);
  match warm with
  | Some _ => mret tt
  | None =>
      cached ← on_cache (ProjectionSnapshotCache.load run_id);
      match cached with
      | Some p => on_inner (modify (λ s,
          Build_projection_service (ps_event_log s) (<[run_id := p]> (_projection_by_run s))))
      | None => mret tt
      end
  end.

Definition catch_up (run_id : string) (through_offset : Z) : M (t L) RunProjection :=
  _maybe_seed run_id;;
  projection ← on_inner (catch_up cfg run_id through_offset);
  on_cache (ProjectionSnapshotCache.save projection);;
  mret projection.

Definition readiness (run_id : string) (required_offset : Z) : M (t L) bool :=
  _maybe_seed run_id;; on_inner (readiness cfg run_id required_offset).

Definition get (run_id : string) : M (t L) RunProjection :=
  _maybe_seed run_id;; on_inner (get cfg run_id).
End service.
End CachedDecisionProjectionService.

(** ** A snapshot is read back as it was saved *)
Section round_trip.
Import SQLiteKernelRuntimeEventLog.
#[local] Arguments opt_str : simpl never.
#[local] Arguments as_opt_str : simpl never.
#[local] Arguments parse_lifecycle : simpl never.

Lemma sort_opt_str o : sort_keys (opt_str o) = opt_str o.
Proof. by destruct o. Qed.

Lemma sort_str_list l : sort_keys (str_list l) = str_list l.
Proof. unfold str_list. simpl. f_equal. rewrite map_map. by apply map_ext. Qed.

Lemma as_opt_str_of o : as_opt_str (opt_str o) = Some o.
Proof. by destruct o. Qed.

Lemma read_str_list l : as_str_list (map PStr l) = Some l.
Proof. induction l as [|s l IH]; [done|]. simpl. by rewrite IH. Qed.

Lemma parse_lifecycle_of st : parse_lifecycle (lifecycle_value st) = Some st.
Proof. by destruct st. Qed.

(** Look concrete keys up. *)
#[local] Ltac read_keys :=
  unfold required, py_get_or, compose;
  repeat match goal with |- context [py_in ?k ?d] =>
    replace (py_in k d) with true by (vm_compute; reflexivity) end;
  cbn;
  repeat first [rewrite decide_True by reflexivity | rewrite decide_False by discriminate].

(** The keys in order, for any values. *)
Lemma sorted_versions v1 v2 v3 v4 v5 v6 v7 :
  merge_sort item_le
    [("route_policy_version", v1); ("acceptance_policy_version", v2); ("memory_policy_version", v3);
     ("skill_policy_version", v4); ("evaluation_policy_version", v5);
     ("task_view_policy_version", v6); ("pinned_at", v7)] =
    [("acceptance_policy_version", v2); ("evaluation_policy_version", v5);
     ("memory_policy_version", v3); ("pinned_at", v7); ("route_policy_version", v1);
     ("skill_policy_version", v4); ("task_view_policy_version", v6)].
Proof. vm_compute. reflexivity. Qed.

Lemma sorted_projection v1 v2 v3 v4 v5 v6 v7 v8 v9 v10 v11 :
  merge_sort item_le
    [("run_id", v1); ("lifecycle_state", v2); ("projected_offset", v3); ("waiting_external", v4);
     ("ready_for_dispatch", v5); ("current_action_id", v6); ("recovery_mode", v7);
     ("recovery_reason", v8); ("active_child_runs", v9); ("policy_versions", v10);
     ("task_contract_ref", v11)] =
    [("active_child_runs", v9); ("current_action_id", v6); ("lifecycle_state", v2);
     ("policy_versions", v10); ("projected_offset", v3); ("ready_for_dispatch", v5);
     ("recovery_mode", v7); ("recovery_reason", v8); ("run_id", v1); ("task_contract_ref", v11);
     ("waiting_external", v4)].
Proof. vm_compute. reflexivity. Qed.

Lemma policy_versions_read v :
  ∃ d, sort_keys (PDict (policy_versions_dict v)) = PDict d ∧ policy_versions_of d = Ok v.
Proof.
  eexists. split.
  - cbn [sort_keys policy_versions_dict map fst snd]. rewrite !sort_opt_str, sorted_versions. reflexivity.
  - unfold policy_versions_of.
    match goal with |- context [forallb ?f ?l] =>
      replace (forallb f l) with true by (vm_compute; reflexivity) end.
    read_keys. rewrite !as_opt_str_of. by destruct v.
Qed.

Lemma projection_read p :
  ∃ d, sort_keys (PDict (_projection_to_dict p)) = PDict d ∧ _dict_to_projection d = Ok p.
Proof.
  eexists. split.
  - cbn [sort_keys _projection_to_dict map fst snd]. rewrite !sort_opt_str, sort_str_list, sorted_projection.
    reflexivity.
  - unfold _dict_to_projection.
    assert (match match pj_policy_versions p with
                  | Some v => PDict (policy_versions_dict v) | None => PNone end with
            | v => match sort_keys v with
                   | PNone => Ok None
                   | PDict pv => v ← policy_versions_of pv; Ok (Some v)
                   | _ => Raise (Exn TypeError "argument after ** must be a mapping")
                   end
            end = Ok (pj_policy_versions p)) as Hv.
    { destruct (pj_policy_versions p) as [v|]; [|done].
      destruct (policy_versions_read v) as (d & -> & Hd). by rewrite Hd. }
    read_keys. cbn in Hv. rewrite Hv. cbn.
    rewrite parse_lifecycle_of. cbn. rewrite !as_opt_str_of. cbn. rewrite read_str_list. cbn.
    by destruct p.
Qed.
End round_trip.

(** ** Every snapshot is the projection of a prefix *)
Section warm.
Context {L : Type} `{EventLogLaws L} (cfg : projection_config).
Context (Hmig : migrator_keeps_offset cfg).
Import ProjectionSnapshotCache CachedDecisionProjectionService.
Implicit Types h : string → list RuntimeEvent.

Definition rows_ok h (table : rows) : Prop :=
  ∀ run r, table !! run = Some r →
    ∃ k p d, cached_at cfg run (h run) k p ∧ snapshot_json r = PDict d ∧ _dict_to_projection d = Ok p.

Definition tx_ok h (w : tx rows) : Prop :=
  match w with Reading snap _ => rows_ok h snap | Writing t => rows_ok h t | _ => True end.

(** Other processes may delete snapshots. *)
Definition deletes_only (ws : list (weather rows)) : Prop :=
  Forall (λ w, ∀ table, others w table ⊆ table) ws.

Record cache_ok h (c : ProjectionSnapshotCache.t) : Prop := {
  co_rows : rows_ok h (cn_committed c);
  co_tx : tx_ok h (cn_tx c);
  co_others : deletes_only (cn_weather c)
}.

Lemma rows_ok_delete h t t' : t' ⊆ t → rows_ok h t → rows_ok h t'.
Proof. intros Hs Ht run r Hr. eapply Ht, lookup_weaken; done. Qed.

Lemma cached_at_later run k p l l' :
  l `prefix_of` l' → cached_at cfg run l k p → cached_at cfg run l' k p.
Proof. intros [m ->] [Hk Hr]. split; [rewrite length_app; lia|]. by rewrite take_app_le. Qed.

Lemma cache_ok_later h h' c : (∀ run, h run `prefix_of` h' run) → cache_ok h c → cache_ok h' c.
Proof.
  intros Hp.
  assert (∀ t, rows_ok h t → rows_ok h' t) as Hr.
  { intros t Ht run r Hr. destruct (Ht run r Hr) as (k & p & d & Hk & ?). exists k, p, d.
    split; [by eapply cached_at_later; [apply Hp|]|done]. }
  intros [? Htx ?]. split; [by apply Hr| |done]. unfold tx_ok in *. destruct (cn_tx c); auto.
Qed.

Lemma wp_cache {A} run (Q : A → Prop) h c :
  cache_ok h c →
  (∀ db w, rows_ok h db → tx_ok h w → let '(o, (db', w')) := run db w in
     rows_ok h db' ∧ tx_ok h w' ∧ ∀ a, o = Ok a → Q a) →
  wp (statement run) (λ a c', cache_ok h c' ∧ Q a) (λ _, cache_ok h) c.
Proof.
  intros [Hr Htx Ho] Hrun.
  assert (rows_ok h (arrival c)) as Ha.
  { assert (others (next_weather c) (cn_committed c) ⊆ cn_committed c) as Hs.
    { unfold next_weather. unfold deletes_only in Ho. destruct (cn_weather c) as [|w ws]; [done|].
      apply (Forall_inv Ho). }
    unfold arrival. destruct (cn_tx c); try done; by eapply rows_ok_delete. }
  assert (tx_ok h (arrival_tx c)) as Hat.
  { unfold arrival_tx. destruct (cn_tx c); try done. by destruct (other_writers _). }
  assert (deletes_only (tail (cn_weather c))) as Hot by (unfold deletes_only in *; by destruct Ho).
  apply wp_statement.
  - specialize (Hrun _ _ Ha Hat). destruct (run (arrival c) (arrival_tx c)) as [[a|e] [db w]];
      destruct Hrun as (? & ? & Hq); [split; [done|by apply Hq]|done].
  - intros msg w [->| ->] _; by split.
Qed.

Lemma cache_begin_ok h c : cache_ok h c → wp implicit_begin (λ _, cache_ok h) (λ _, cache_ok h) c.
Proof.
  intros Hc. unfold wp, implicit_begin. destruct (cn_tx c) eqn:Ht; try done.
  fold (wp exec_begin (λ _, cache_ok h) (λ _, cache_ok h) c).
  eapply wp_mono; [apply (wp_cache _ (λ _, True) h c Hc)| |done].
  - intros db w Hdb Hw. by destruct w.
  - by intros ?? [].
Qed.

(** A write of one table content to another, and its commit. *)
Lemma write_ok h (f : rows → rows) c :
  cache_ok h c → (∀ t, rows_ok h t → rows_ok h (f t)) →
  wp (implicit_begin;; exec_write (λ t : rows, Ok (tt, f t));; exec_commit) (λ _, cache_ok h)
    (λ _, cache_ok h) c.
Proof.
  intros Hc Hf. apply wp_bind. eapply wp_mono; [by apply cache_begin_ok| |done]. intros ? c1 H1'. simpl in H1'.
  apply wp_bind. eapply wp_mono; [apply (wp_cache _ (λ _, True) h c1 H1')| |done].
  - intros db w Hdb Hw. destruct w as [| |snap [|]|t]; simpl in *; by split_and!; auto.
  - intros ? c2 [H2' _]. eapply wp_mono; [apply (wp_cache _ (λ _, True) h c2 H2')| |done].
    + intros db w Hdb Hw. by destruct w.
    + by intros ?? [].
Qed.

Lemma load_ok h run c :
  cache_ok h c →
  wp (load run) (λ o c', cache_ok h c' ∧ ∀ p, o = Some p → ∃ k, cached_at cfg run (h run) k p)
    (λ _, cache_ok h) c.
Proof.
  intros Hc. unfold load. apply wp_bind.
  eapply wp_mono; [apply (wp_cache _ (λ o : option row, ∀ r, o = Some r →
    ∃ k p d, cached_at cfg run (h run) k p ∧ snapshot_json r = PDict d ∧ _dict_to_projection d = Ok p) h c Hc)| |done].
  - intros db w Hdb Hw. destruct w; (split; [done|]; split; [done|]); intros o [= <-] r Hr; eauto.
  - intros o c' [Hc' Ho]. destruct o as [r|]; [|by apply wp_ret].
    destruct (Ho r eq_refl) as (k & p & d & Hk & Hs & Hd). rewrite Hs. apply wp_bind. rewrite Hd.
    apply wp_ret, wp_ret. split; [done|]. intros p' [= <-]. by exists k.
Qed.

Lemma replay_loop_run t events p p' :
  replay_loop cfg t events p = Ok p' → pj_run_id p' = pj_run_id p.
Proof.
  revert p. induction events as [|e events IH]; intros p; [by intros [= <-]|]. cbn [replay_loop].
  destruct (match t with Some _ => _ | None => false end); [by intros [= <-]|].
  destruct (_maybe_migrate_event cfg e) as [e'|x]; simpl; [|done].
  destruct (_validate_projection_authority_input _ _); intros Hr; apply IH in Hr; [|done]. rewrite Hr. unfold _apply_projection_event.
  by destruct (_resolve_projection_transition p e') as [[[[? ?] ?] ?] ?].
Qed.

Lemma save_ok h run k p c :
  cached_at cfg run (h run) k p → cache_ok h c → wp (save p) (λ _, cache_ok h) (λ _, cache_ok h) c.
Proof.
  intros Hp Hc. unfold save. apply (write_ok h (insert (pj_run_id p) _)); [done|].
  intros t Ht run' r. rewrite lookup_insert_Some. intros [[<- <-]|[_ Hr]]; [|by apply Ht].
  destruct (projection_read p) as (d & Hd & Hread).
  assert (pj_run_id p = run) as -> 
    by (exact (replay_loop_run None _ _ _ (ca_replay _ _ _ _ _ Hp))).
  by exists k, p, d.
Qed.

Lemma delete_ok h run c :
  cache_ok h c → wp (delete run) (λ _, cache_ok h) (λ _, cache_ok h) c.
Proof.
  intros Hc. apply (write_ok h (base.delete run)); [done|].
  intros t Ht. eapply rows_ok_delete; [apply delete_subseteq|done].
Qed.

(** ** The cached service *)
Definition history_of (s : CachedDecisionProjectionService.t L) : string → list RuntimeEvent :=
  el_history (ps_event_log (_inner s)).

Record cached_inv (s : CachedDecisionProjectionService.t L) : Prop := {
  ci_inner : service_inv cfg (_inner s);
  ci_cache : cache_ok (history_of s) (_cache s)
}.

(** Holds, and the histories are those of [s]. *)
Definition kept (s s' : CachedDecisionProjectionService.t L) : Prop :=
  cached_inv s' ∧ ∀ run, history_of s' run = history_of s run.

Lemma project_history run t s o s' :
  el_ok (ps_event_log s) → project cfg run t s = (o, s') →
  ∀ r, el_history (ps_event_log s') r = el_history (ps_event_log s) r.
Proof.
  intros Hok. unfold project, gets, mbind, M_bind, on_log, zoom, lift. cbn beta iota zeta.
  pose proof (law_load run (pj_projected_offset (default (_default_projection run)
    (_projection_by_run s !! run))) _ Hok) as Hl.
  destruct (el_load run _ _) as [[ev|e] l']; destruct Hl as (_ & Hl & _); simpl.
  - by destruct (replay_loop _ _ _ _); intros [= <- <-].
  - by intros [= <- <-].
Qed.

Lemma cache_ok_same h h' c : (∀ run, h' run = h run) → cache_ok h c → cache_ok h' c.
Proof. intros Hh. apply cache_ok_later. intros run. by rewrite Hh. Qed.

Lemma seed_ok run s :
  cached_inv s → wp (_maybe_seed run) (λ _, kept s) (λ _, kept s) s.
Proof.
  intros Hs. pose proof Hs as [[Hok Hc] Hca]. unfold _maybe_seed. apply wp_bind, wp_gets.
  destruct (_projection_by_run (_inner s) !! run) eqn:Hw; [by apply wp_ret|].
  apply wp_bind, wp_zoom. eapply wp_mono; [exact (load_ok (history_of s) run _ Hca)| |].
  - intros o c' [Hc' Ho]. destruct o as [p|]; [|by apply wp_ret].
    apply wp_zoom, wp_modify. split; [|done]. split; [|done]. split; [done|]. simpl.
    intros r q. rewrite lookup_insert_Some. intros [[<- <-]|[_ Hq]]; [by apply Ho|by apply Hc].
  - intros e c' Hc'. by split.
Qed.

(** What one pass of the service ends with. *)
Definition passed (run : string) (t : option Z) (s : CachedDecisionProjectionService.t L)
    (p : RunProjection) : Prop :=
  ∃ k, cached_at cfg run (history_of s run) k p ∧ (t = None → k = length (history_of s run)) ∧
    ∀ b, t = Some b → ∀ e, e ∈ drop k (history_of s run) → (b < ev_commit_offset e)%Z.

Lemma inner_kept run t s o i :
  cached_inv s → project cfg run t (_inner s) = (o, i) →
  kept s (Cached i (_cache s)) ∧ ∀ p, o = Ok p → passed run t s p.
Proof.
  intros [Hi Hc] Hp. pose proof (project_history run t _ _ _ (si_ok _ _ Hi) Hp) as Hh.
  destruct (project_spec cfg Hmig run t _ _ _ Hi Hp) as [Hi' Ho].
  split; [split; [split; [done|by apply (cache_ok_same (history_of s))]|done]|].
  by intros p ->.
Qed.

Lemma inner_ok run t s :
  cached_inv s →
  wp (on_inner (project cfg run t)) (λ p s', kept s s' ∧ passed run t s p) (λ _, kept s) s.
Proof.
  intros Hs. apply wp_zoom. unfold wp. destruct (project cfg run t (_inner s)) as [o i] eqn:Hp.
  destruct (inner_kept run t s o i Hs Hp) as [Hk Ho]. destruct o; [split; [done|by apply Ho]|done].
Qed.

Lemma kept_trans s1 s2 s3 : kept s1 s2 → kept s2 s3 → kept s1 s3.
Proof. intros [_ H12] [H3 H23]. split; [done|]. intros run. by rewrite H23. Qed.

Lemma passed_kept run t s s' p : kept s s' → passed run t s' p → passed run t s p.
Proof. intros [_ Hh] Hp. unfold passed in *. by rewrite Hh in Hp. Qed.

Lemma seeded_ok {A} run (m : M (CachedDecisionProjectionService.t L) A) Q s :
  cached_inv s →
  (∀ s', kept s s' → wp m (λ a s2, kept s s2 ∧ Q a) (λ _, kept s) s') →
  wp (_maybe_seed run;; m) (λ a s2, kept s s2 ∧ Q a) (λ _, kept s) s.
Proof. intros Hs Hm. apply wp_bind. eapply wp_mono; [by apply seed_ok| |done]. intros ? s1 Hk1. by apply Hm. Qed.

Lemma get_ok run s :
  cached_inv s → wp (get cfg run) (λ p s', kept s s' ∧ passed run None s p) (λ _, kept s) s.
Proof.
  intros Hs. apply seeded_ok; [done|]. intros s1 Hk1. eapply wp_mono; [apply inner_ok, Hk1| |].
  - intros p s2 [Hk2 Hp]. split; [by eapply kept_trans|by eapply passed_kept].
  - intros e s2 Hk2. by eapply kept_trans.
Qed.

Lemma catch_up_ok run t s :
  cached_inv s → wp (catch_up cfg run t) (λ p s', kept s s' ∧ passed run (Some t) s p) (λ _, kept s) s.
Proof.
  intros Hs. apply seeded_ok; [done|]. intros s1 Hk1. apply wp_bind.
  eapply wp_mono; [apply inner_ok, Hk1| |].
  2: { intros e s2 Hk2. by eapply kept_trans. }
  intros p s2 [Hk2 Hp]. apply (passed_kept _ _ _ _ _ Hk1) in Hp.
  pose proof (kept_trans _ _ _ Hk1 Hk2) as [[Hi2 Hc2] Hh2]. destruct Hp as (k & Hk & Hrest).
  assert (∀ c', cache_ok (history_of s2) c' → kept s (Cached (_inner s2) c')) as Hkept by by split.
  apply wp_bind, wp_zoom. eapply wp_mono; [eapply (save_ok _ run k); [by rewrite Hh2|done]| |].
  - intros ? c' Hc'. apply wp_ret. split; [by apply Hkept|by exists k].
  - intros ? c' Hc'. by apply Hkept.
Qed.

Lemma readiness_ok run k s : cached_inv s → wp (readiness cfg run k) (λ _, kept s) (λ _, kept s) s.
Proof.
  intros Hs. unfold readiness. apply wp_bind. eapply wp_mono; [by apply seed_ok| |done].
  intros ? s1 Hk1. apply wp_zoom. unfold wp.
  destruct (Projection.readiness cfg run k (_inner s1)) as [o i] eqn:Hr.
  assert (∃ o', project cfg run None (_inner s1) = (o', i)) as [o' Hp].
  { unfold Projection.readiness in Hr.
    apply bind_inv in Hr as [(p & i1 & Hp & Hret)|(e & He & _)]; [|eexists; exact He].
    injection Hret as _ <-. eexists. exact Hp. }
  destruct (inner_kept run None s1 o' i (proj1 Hk1) Hp) as [Hk2 _].
  destruct o; exact (kept_trans _ _ _ Hk1 Hk2).
Qed.

(** A cache whose statements do not fail makes no operation fail. *)
Lemma load_fair h run c : cache_ok h c → fair c → is_ok (load run c).1 = true.
Proof.
  intros Hc Hf. pose proof (load_ok h run c Hc) as Hl. unfold load, mbind, M_bind in *.
  assert (is_ok (exec_select (λ table : rows, table !! run) c).1 = true) as He.
  { unfold exec_select, statement. rewrite (fair_next c Hf). by destruct (arrival_tx c). }
  pose proof (wp_cache (λ db w, match w with
    | Closed => (Ok (db !! run), (db, Closed))
    | Opened => (Ok (db !! run), (db, Reading db false))
    | Reading snap _ => (Ok (snap !! run), (db, w))
    | Writing t => (Ok (t !! run), (db, w)) end)
    (λ o : option row, ∀ r, o = Some r → ∃ k p d, cached_at cfg run (h run) k p ∧
       snapshot_json r = PDict d ∧ _dict_to_projection d = Ok p) h c Hc) as Hs.
  unfold wp, exec_select in *. destruct (statement _ c) as [[o|e] c']; [|done].
  destruct Hs as [_ Ho].
  { intros db w Hdb Hw. destruct w; (split; [done|]; split; [done|]); intros o' [= <-] r Hr; eauto. }
  destruct o as [r|]; [|done]. destruct (Ho r eq_refl) as (k & p & d & _ & -> & Hd).
  unfold lift. by rewrite Hd.
Qed.

Lemma seed_fair run s :
  cached_inv s → fair (_cache s) →
  ∃ s1, _maybe_seed run s = (Ok tt, s1) ∧ ps_event_log (_inner s1) = ps_event_log (_inner s).
Proof.
  intros [_ Hca] Hf. unfold _maybe_seed, gets, mbind, M_bind.
  destruct (_projection_by_run (_inner s) !! run) eqn:Hw; [by eexists|].
  unfold on_cache, zoom. pose proof (load_fair (history_of s) run _ Hca Hf) as Hl.
  destruct (load run (_cache s)) as [[[p|]|e] c']; [by eexists..|done].
Qed.

(** ** The service over time

    The log grows, and outlives the process; a restart loses the in-memory
    cache and reopens the table. *)
Inductive cached_step : CachedDecisionProjectionService.t L → CachedDecisionProjectionService.t L → Prop :=
  | cs_append c s o l' :
      el_append c (ps_event_log (_inner s)) = (o, l') →
      (∀ run, history_of s run `prefix_of` el_history l' run) →
      cached_step s (Cached (Build_projection_service l' (_projection_by_run (_inner s))) (_cache s))
  | cs_catch_up run t s o s' : catch_up cfg run t s = (o, s') → cached_step s s'
  | cs_get run s o s' : get cfg run s = (o, s') → cached_step s s'
  | cs_readiness run k s o s' : readiness cfg run k s = (o, s') → cached_step s s'
  | cs_delete run s o c' : delete run (_cache s) = (o, c') → cached_step s (Cached (_inner s) c')
  | cs_restart ws s :
      deletes_only ws →
      cached_step s (Cached (Build_projection_service (ps_event_log (_inner s)) ∅)
                       (__init__ (cn_committed (_cache s)) ws)).

Lemma wp_end {A} (m : M (CachedDecisionProjectionService.t L) A) s o s' Q :
  wp m (λ a s', kept s s' ∧ Q a) (λ _, kept s) s → m s = (o, s') → cached_inv s'.
Proof. unfold wp. intros Hm Hr. rewrite Hr in Hm. destruct o; [by destruct Hm as [[? _] _]|by destruct Hm]. Qed.

Lemma cached_inv_step s s' : cached_inv s → cached_step s s' → cached_inv s'.
Proof.
  intros Hs Hstep. destruct Hstep as [c s o l' Ha Hp|run t s o s' Hr|run s o s' Hr|run k s o s' Hr|run s o c' Hr|ws s Hws].
  - destruct Hs as [Hi Hc]. split; [|by eapply cache_ok_later].
    eapply (service_inv_step cfg Hmig); [exact Hi|]. by apply (svc_append cfg c _ o l').
  - by eapply wp_end; [apply catch_up_ok|].
  - by eapply wp_end; [apply get_ok|].
  - pose proof (readiness_ok run k s Hs) as Hk. unfold wp in Hk. rewrite Hr in Hk.
    destruct o; by destruct Hk.
  - destruct Hs as [Hi Hc]. pose proof (delete_ok _ run _ Hc) as Hd. unfold wp in Hd. rewrite Hr in Hd.
    split; [done|]. by destruct o.
  - destruct Hs as [[Hok _] [Hrows _ _]]. split; [|by split].
    split; [done|]. intros run p. simpl. by rewrite lookup_empty.
Qed.
End warm.

(** C26: whatever is appended, asked, deleted and restarted, in any order, with
    statements of the table that fail and other processes that delete rows: a
    projection that the cached service returns is the replay of the run's
    history from the initial projection, for [get] of all of it and for
    [catch_up] of a prefix that holds every event up to the requested offset.
    So a service that was seeded answers as one that replays from offset 0.
    While the statements of the table do not fail, [get] fails only where the
    wrapped service does. *)
Theorem warm_start_is_replay {L} `{EventLogLaws L} (cfg : projection_config)
    (s0 s : CachedDecisionProjectionService.t L) (run : string)
    (Hmig : migrator_keeps_offset cfg)
    (Hnew : fresh_service (CachedDecisionProjectionService._inner s0))
    (Hcold : cn_committed (CachedDecisionProjectionService._cache s0) = ∅ ∧
             idle (CachedDecisionProjectionService._cache s0) ∧
             deletes_only (cn_weather (CachedDecisionProjectionService._cache s0)))
    (Hreach : rtc (cached_step cfg) s0 s) :
  (match CachedDecisionProjectionService.get cfg run s with
   | (Ok p, _) => replay cfg run (history_of s run) = Ok p
   | (Raise e, _) => fair (CachedDecisionProjectionService._cache s) →
       ∃ i, ps_event_log i = ps_event_log (CachedDecisionProjectionService._inner s) ∧
         (Projection.get cfg run i).1 = Raise e
   end) ∧
  ∀ t, match CachedDecisionProjectionService.catch_up cfg run t s with
       | (Ok p, _) => ∃ k, replay cfg run (take k (history_of s run)) = Ok p ∧
           ∀ e, e ∈ drop k (history_of s run) → (t < ev_commit_offset e)%Z
       | (Raise _, _) => True
       end.
Proof.
  assert (cached_inv cfg s) as Hs.
  { assert (cached_inv cfg s0) as H0'.
    { destruct Hnew as [Hok Hc], Hcold as (Hr & Ht & Hw). split.
      - split; [done|]. intros r p. rewrite Hc. by rewrite lookup_empty.
      - split; [|by rewrite Ht|done]. rewrite Hr. intros r p. by rewrite lookup_empty. }
    clear Hnew Hcold. induction Hreach; eauto using cached_inv_step. }
  split.
  - pose proof (get_ok cfg Hmig run s Hs) as Hg. unfold wp in Hg.
    destruct (CachedDecisionProjectionService.get cfg run s) as [[p|e] s'] eqn:Hr.
    + destruct Hg as [_ (k & [_ Hk] & Hall & _)]. rewrite (Hall eq_refl), firstn_all in Hk. done.
    + intros Hf. destruct (seed_fair cfg run s Hs Hf) as (s1 & Hs1 & Hl).
      unfold CachedDecisionProjectionService.get, mbind, M_bind in Hr. rewrite Hs1 in Hr.
      exists (CachedDecisionProjectionService._inner s1). split; [done|].
      unfold CachedDecisionProjectionService.on_inner, zoom in Hr.
      destruct (Projection.get cfg run _) as [o i]. by injection Hr as -> _.
  - intros t. pose proof (catch_up_ok cfg Hmig run t s Hs) as Hg. unfold wp in Hg.
    destruct (CachedDecisionProjectionService.catch_up cfg run t s) as [[p|e] s']; [|done].
    destruct Hg as [_ (k & [_ Hk] & _ & Hb)]. exists k. split; [done|]. by apply Hb.
Qed.

(** ** A restart *)
Definition cold_service : CachedDecisionProjectionService.t InMemoryKernelRuntimeEventLog.t :=
  CachedDecisionProjectionService.Cached empty_service (ProjectionSnapshotCache.__init__ ∅ []).

Definition logged_service : CachedDecisionProjectionService.t InMemoryKernelRuntimeEventLog.t :=
  CachedDecisionProjectionService.Cached (Build_projection_service example_log ∅)
    (ProjectionSnapshotCache.__init__ ∅ []).

Definition saved_service : CachedDecisionProjectionService.t InMemoryKernelRuntimeEventLog.t :=
  (CachedDecisionProjectionService.catch_up example_cfg "run-1" 2 logged_service).2.

Definition restarted_service : CachedDecisionProjectionService.t InMemoryKernelRuntimeEventLog.t :=
  CachedDecisionProjectionService.Cached
    (Build_projection_service (ps_event_log (CachedDecisionProjectionService._inner saved_service)) ∅)
    (ProjectionSnapshotCache.__init__
       (cn_committed (CachedDecisionProjectionService._cache saved_service)) []).

Lemma restarted_reachable : rtc (cached_step example_cfg) cold_service restarted_service.
Proof.
  eapply rtc_l; [|eapply rtc_l; [|eapply rtc_l; [|apply rtc_refl]]].
  - apply (cs_append example_cfg (example_commit
      [example_fact "run.created"; example_fact "run.ready"; example_fact "run.waiting_external";
       example_fact "signal.callback";
       example_event "telemetry" derived_diagnostic []]) cold_service (Ok "commit-ref-1") example_log).
    + vm_compute. reflexivity.
    + intros run. apply prefix_nil.
  - apply (cs_catch_up example_cfg "run-1" 2 logged_service
      (CachedDecisionProjectionService.catch_up example_cfg "run-1" 2 logged_service).1 saved_service).
    apply surjective_pairing.
  - apply (cs_restart example_cfg [] saved_service). constructor.
Qed.

Lemma warm_start_is_replay_witness :
  size (cn_committed (CachedDecisionProjectionService._cache restarted_service)) = 1 ∧
  match CachedDecisionProjectionService.get example_cfg "run-1" restarted_service with
  | (Ok p, _) => replay example_cfg "run-1" (history_of restarted_service "run-1") = Ok p ∧
      pj_projected_offset p = 4%Z
  | (Raise _, _) => False
  end.
Proof.
  assert (cn_committed (CachedDecisionProjectionService._cache cold_service) = ∅ ∧
          idle (CachedDecisionProjectionService._cache cold_service) ∧
          deletes_only (cn_weather (CachedDecisionProjectionService._cache cold_service))) as Hcold.
  { split; [reflexivity|]. split; [reflexivity|]. constructor. }
  pose proof (proj1 (warm_start_is_replay example_cfg cold_service restarted_service "run-1"
    no_migrator_keeps empty_fresh Hcold restarted_reachable)) as Hr.
  split; [vm_compute; reflexivity|]. vm_compute in Hr |- *. split; [exact Hr|reflexivity].
Defined.
