(* ===== verification/ColocatedBundle.v ===== *)
(** * The colocated bundle ([kernel/persistence/sqlite_colocated_bundle.py])

    One database for the event log and the dedupe store, so that a dispatch
    can be reserved and recorded in one transaction. *)
From S2P Require Export SqliteEventLog SqliteDedupeStore.

Record colocated := { db_dedupe : ledger; db_log : log_tables }.

Definition dedupe_table : table colocated ledger.
Proof.
  refine {| tb_get := db_dedupe; tb_put r d := {| db_dedupe := r; db_log := db_log d |} |};
    try done. by intros [].
Defined.

Definition log_table : table colocated log_tables.
Proof.
  refine {| tb_get := db_log; tb_put l d := {| db_dedupe := db_dedupe d; db_log := l |} |};
    try done. by intros [].
Defined.

Module SharedConnectionEventLog.
(** [row["idempotency_key"] or None]. *)
Definition or_none (s : option string) : option string := str_or s None.

(** [json.loads(json.dumps(payload))] is the payload. *)
Definition normal (e : RuntimeEvent) : RuntimeEvent :=
  {| ev_run_id := ev_run_id e; ev_event_id := ev_event_id e;
     ev_commit_offset := ev_commit_offset e; ev_event_type := ev_event_type e;
     ev_event_class := ev_event_class e; ev_event_authority := ev_event_authority e;
     ev_ordering_key := ev_ordering_key e; ev_wake_policy := ev_wake_policy e;
     ev_created_at := ev_created_at e; ev_idempotency_key := or_none (ev_idempotency_key e);
     ev_payload_ref := or_none (ev_payload_ref e);
     ev_payload_json := ev_payload_json e;
     ev_schema_version := ev_schema_version e |}.

Definition _next_offset (run_id : string) : M (conn colocated) Z :=
  _load_next_offset log_table run_id.

Definition _insert_commit_row (commit : ActionCommit) : M (conn colocated) Z :=
  write_to log_table (add_commit commit).

Definition insert_event_rows (run_id : string) (seq : Z) (events : list RuntimeEvent)
    (start_offset : Z) : M (conn colocated) unit :=
  _insert_event_rows log_table normal run_id seq events 0 start_offset.

Definition empty_commit : exn :=
  Exn ValueError "ActionCommit.events must contain at least one event.".

Definition append_action_commit (commit : ActionCommit) : M (conn colocated) string :=
  match cm_events commit with
  | [] => raise empty_commit
  | _ =>
      seq ← transaction exec_begin
        (next_offset ← _next_offset (cm_run_id commit);
         seq ← _insert_commit_row commit;
         insert_event_rows (cm_run_id commit) seq (cm_events commit) next_offset;;
         mret seq);
      mret ("commit-ref-" +:+ pretty seq)
  end.

Definition load (run_id : string) (after_offset : Z) : M (conn colocated) (list RuntimeEvent) :=
  SqliteEventLog.load log_table run_id after_offset.

Definition max_offset (run_id : string) : M (conn colocated) Z :=
  SqliteEventLog.max_offset log_table run_id.
End SharedConnectionEventLog.

Module SharedConnectionDedupeStore.
Definition disappeared (key : string) (_ : DedupeState) : string :=
  "Lost-update: key " +:+ str_repr key +:+ " disappeared.".

(** The statements of the store of its own database, on the other table. *)
Definition reserve := SQLiteDedupeStore.reserve dedupe_table.
Definition reserve_and_dispatch := SQLiteDedupeStore.reserve_and_dispatch dedupe_table.
Definition mark_dispatched := SQLiteDedupeStore.mark_dispatched dedupe_table disappeared.
Definition mark_acknowledged := SQLiteDedupeStore.mark_acknowledged dedupe_table disappeared.
Definition mark_succeeded := SQLiteDedupeStore.mark_succeeded dedupe_table disappeared.
Definition mark_unknown_effect := SQLiteDedupeStore.mark_unknown_effect dedupe_table disappeared.
Definition get := SQLiteDedupeStore.get dedupe_table.
Definition count_by_run := SQLiteDedupeStore.count_by_run dedupe_table.

#[global] Instance port : DedupeStorePort (conn colocated) :=
  SQLiteDedupeStore.port dedupe_table disappeared.
#[global] Instance laws : DedupeStoreLaws (conn colocated) :=
  sqlite_dedupe_laws dedupe_table disappeared.
End SharedConnectionDedupeStore.

Module ColocatedSQLiteBundle.
Definition __init__ (d : colocated) (w : list (weather colocated)) : conn colocated :=
  {| cn_committed := d; cn_tx := Closed; cn_weather := w |}.

(** The body of the transaction: the duplicate check, both writes, COMMIT. *)
Definition dispatch_body (commit : ActionCommit) (envelope : IdempotencyEnvelope)
    : M (conn colocated) (string * DedupeReservation) :=
  existing ← SharedConnectionDedupeStore.get (env_dispatch_idempotency_key envelope);
  match existing with
  | Some existing =>
      exec_rollback;;
      mret ("", {| accepted := false; reason := duplicate; existing_record := Some existing |})
  | None =>
      SQLiteDedupeStore.insert_row dedupe_table
        {| rec_dispatch_idempotency_key := env_dispatch_idempotency_key envelope;
           rec_operation_fingerprint := env_operation_fingerprint envelope;
           rec_attempt_seq := env_attempt_seq envelope;
           rec_state := reserved;
           rec_peer_operation_id := env_peer_operation_id envelope;
           rec_external_ack_ref := None |};;
      next_offset ← SharedConnectionEventLog._next_offset (cm_run_id commit);
      seq ← SharedConnectionEventLog._insert_commit_row commit;
      SharedConnectionEventLog.insert_event_rows (cm_run_id commit) seq (cm_events commit)
        next_offset;;
      exec_commit;;
      mret ("commit-ref-" +:+ pretty seq,
        {| accepted := true; reason := accepted_reason; existing_record := None |})
  end.

Definition atomic_dispatch_record (commit : ActionCommit) (envelope : IdempotencyEnvelope)
    : M (conn colocated) (string * DedupeReservation) :=
  match cm_events commit with
  | [] => raise SharedConnectionEventLog.empty_commit
  | _ =>
      exec_begin_immediate;;
      try_except (dispatch_body commit envelope) is_Exception (λ e, exec_rollback;; raise e)
  end.
End ColocatedSQLiteBundle.

(** ** The append *)
Lemma colocated_append_serial cm (c : conn colocated) :
  idle c → log_ok (db_log (cn_committed c)) → grows log_table c →
  wp (SharedConnectionEventLog.append_action_commit cm)
    (stepped_at (append_step log_table SharedConnectionEventLog.normal cm) c)
    (refused_at ValueError (append_step log_table SharedConnectionEventLog.normal cm) c) c.
Proof.
  intros Hc Hok Hg. unfold SharedConnectionEventLog.append_action_commit.
  set (spec := append_step log_table SharedConnectionEventLog.normal cm).
  destruct (cm_events cm) as [|e0 es] eqn:Hes; [by apply append_empty|].
  assert (cm_events cm ≠ []) as Hne by by rewrite Hes. rewrite <- Hes. clear Hes.
  apply append_ref.
  apply wp_try_except, wp_bind, (wp_begin_late c); [done|apply drifted_refl| |by intros e c' He; rewrite He; apply unfair_refused].
  intros c1 H1. apply wp_bind, wp_bind, wp_bind, (wp_select_opened _ c); [done| |by intros e c' He; rewrite He; apply unfair_refused].
  intros v c2 H2. apply wp_ret, wp_bind, (wp_write_reading _ c v); [done| | |by intros e c' He; rewrite He; apply rollback_refused].
  2: { intros e c' Hf Hu. unfold on_table in Hf.
       destruct (add_commit_ok cm (tb_get log_table v) Hne) as (? & ? & Heq). by rewrite Heq in Hf. }
  intros seq t' c3 Hf Hp H3. unfold on_table in Hf.
  destruct (add_commit cm (tb_get log_table v)) as [[seq' l]|] eqn:Hadd; [|done].
  injection Hf as -> <-. pose proof (passes_log_ok log_table c v Hg Hok Hp) as Hokv.
  unfold compose. rewrite max_of_consecutive by apply Hokv.
  apply wp_bind. eapply wp_mono; [by apply (rows_after_commit log_table _ cm seq l c v c3)|..].
  - intros [] c4 H4. apply wp_ret, wp_bind, (wp_commit c v _ _ _ _ H4).
    + intros c5 Hh. apply wp_ret. eexists v, _. split_and!; [done|exact Hh|].
      unfold spec. by rewrite (append_step_some log_table _ cm seq l).
    + intros e c5 He Hh Hf. rewrite He. apply unfair_refused; [done|by eapply holds_untouched|done].
  - intros e c4 (He & Hh & Hf). rewrite He. apply unfair_refused; [done|by eapply holds_untouched|done].
Qed.

#[export] Instance SharedConnectionEventLog_port : EventLogPort (conn colocated) :=
  log_port log_table SharedConnectionEventLog.append_action_commit.
#[export] Instance SharedConnectionEventLog_laws : EventLogLaws (conn colocated) :=
  log_laws log_table SharedConnectionEventLog.normal SharedConnectionEventLog.append_action_commit
    colocated_append_serial.

(** ** The atomic dispatch *)

(** Both rows or neither. *)
Definition spec_dispatch (cm : ActionCommit) (envelope : IdempotencyEnvelope) (d : colocated)
    : option ((string * DedupeReservation) * colocated) :=
  match cm_events cm with
  | [] => None
  | _ =>
      let '(res, rows) := spec_reserve reserved envelope (env_peer_operation_id envelope) (db_dedupe d) in
      Some (if accepted res then
              (("commit-ref-" +:+ pretty (lt_sequence (db_log d) + 1)%Z, res),
               {| db_dedupe := rows;
                  db_log := committed_rows SharedConnectionEventLog.normal cm (db_log d) |})
            else (("", res), d))
  end.

(** The raw ROLLBACK of the handler: it may itself fail, when SQLite has
    already rolled back. *)
Lemma raw_rollback_refused {A B} (spec : colocated → option (B * colocated)) c c' e (Q : A → conn colocated → Prop) :
  is_Exception e = true → holds c (arrival c) c' → ¬ fair c →
  wp (exec_rollback;; raise e) Q (refused ValueError spec c) c'.
Proof.
  intros He Hh Hf. apply wp_bind, (wp_rollback c (arrival c)); [done|..].
  - intros c2 He2. apply wp_raise. by split_and!.
  - intros e2 c2 Hx He2 _. by split_and!.
Qed.

Lemma atomic_dispatch_spec cm envelope (c : conn colocated) :
  idle c → log_ok (db_log (cn_committed c)) → grows log_table c → cm_events cm ≠ [] →
  wp (ColocatedSQLiteBundle.atomic_dispatch_record cm envelope)
    (stepped (spec_dispatch cm envelope) c) (refused ValueError (spec_dispatch cm envelope) c) c.
Proof.
  intros Hc Hok Hg Hne. unfold ColocatedSQLiteBundle.atomic_dispatch_record.
  destruct (cm_events cm) as [|e0 es] eqn:Hes; [done|]. rewrite <- Hes in Hne. clear Hes e0 es.
  set (spec := spec_dispatch cm envelope).
  assert (∀ e c', is_Exception e = true → holds c (arrival c) c' → ¬ fair c →
    if is_Exception e
    then wp (exec_rollback;; raise e) (stepped spec c) (refused ValueError spec c) c'
    else refused ValueError spec c e c') as Herr.
  { intros e c' He ??. rewrite He. by apply raw_rollback_refused. }
  apply wp_bind, wp_begin; [done| |intros e c1 He Hh Hf; by split_and!].
  intros c1 H1. pose proof (passes_log_ok log_table c _ Hg Hok (passes_arrival c Hc)) as Hokv.
  simpl in Hokv. apply wp_try_except. unfold ColocatedSQLiteBundle.dispatch_body.
  apply wp_bind, (wp_select _ c (arrival c) (arrival c)); [done| |exact Herr].
  intros c2 H2. set (v := arrival c) in *. unfold compose. simpl.
  destruct (db_dedupe v !! env_dispatch_idempotency_key envelope) as [existing|] eqn:Hk.
  { pose proof H2 as (Hv & Hw & Hs). apply wp_bind, (wp_rollback c v); [done| |congruence].
    intros c3 Hh. apply wp_ret. exists v. split; [done|]. unfold spec, spec_dispatch, spec_reserve.
    fold v. rewrite Hk. by destruct (cm_events cm). }
  apply wp_bind, (wp_write_to dedupe_table _ c v v); [done|..]; simpl; rewrite ?Hk; [|done|exact Herr].
  intros [] r c3 [= <-] H3. set (d := {| db_dedupe := _; db_log := _ |}) in H3.
  apply wp_bind, wp_bind, (wp_select _ c v d); [done| |exact Herr].
  intros c4 H4. apply wp_ret. unfold compose. simpl. rewrite max_of_consecutive by apply Hokv.
  destruct (add_commit_ok cm (db_log v) Hne) as (seq & l & Hadd).
  apply wp_bind, (wp_write_to log_table _ c v d); [done|..]; simpl; rewrite ?Hadd; [|done|exact Herr].
  intros seq' l' c5 [= <- <-] H5.
  assert (within c v (tb_put log_table l d) c5) as H5' by done.
  apply wp_bind. unfold SharedConnectionEventLog.insert_event_rows.
  eapply wp_mono; [apply (insert_rows_spec log_table _ _ _ _ _ _ _ _ _ _ H5')|..]; simpl.
  - by eapply inserting_start.
  - assert (stream (cm_run_id cm) l = stream (cm_run_id cm) (db_log v)) as ->; [|lia].
    revert Hadd. unfold add_commit. case_match; [|done]. by intros [= _ <-].
  - intros [] c6 H6. apply wp_bind, (wp_commit c v _ _ _ _ H6); [|exact Herr].
    intros c7 H7. apply wp_ret. eexists. split; [exact H7|].
    unfold spec, spec_dispatch, spec_reserve. fold v. rewrite Hk. unfold committed_rows.
    rewrite Hadd. simpl. revert Hadd. unfold add_commit. case_match; [|done]. intros [= <- <-].
    by destruct (cm_events cm).
  - intros e c6 (He & Hh & Hf). by apply Herr.
Qed.

(** C39: [atomic_dispatch_record] writes both or neither.  Whatever statements
    fail and whatever other processes append, it ends outside a transaction;
    if it accepts, the key was absent when it got the write lock, and the
    database is the one it then found with the reservation in place and the
    commit's events appended to their run; if it reports a duplicate it
    returns the record it found and has changed nothing; if it raises, an
    ordinary exception, it has changed nothing.  When no statement fails it
    raises only for an empty commit. *)
Theorem atomic_dispatch_both_or_neither cm envelope (c : conn colocated) :
  idle c → log_ok (db_log (cn_committed c)) → grows log_table c →
  let key := env_dispatch_idempotency_key envelope in
  let d := arrival c in
  let '(o, c') := ColocatedSQLiteBundle.atomic_dispatch_record cm envelope c in
  let d' := cn_committed c' in
  idle c' ∧ log_ok (db_log d') ∧
  match o with
  | Ok (_, res) =>
      if accepted res then
        cm_events cm ≠ [] ∧ db_dedupe d !! key = None ∧
        db_dedupe d' =
          <[key := new_record envelope reserved (env_peer_operation_id envelope)]> (db_dedupe d) ∧
        ∀ run, stream run (db_log d') = stream run (db_log d) ++
          (if decide (run = cm_run_id cm)
           then renumber (Z.of_nat (length (stream run (db_log d))) + 1)
                  (map SharedConnectionEventLog.normal (cm_events cm)) else [])
      else is_Some (db_dedupe d !! key) ∧ existing_record res = db_dedupe d !! key ∧ d' = d
  | Raise e =>
      is_Exception e = true ∧ (if decide (cm_events cm = []) then c' = c else d' = d) ∧
      (fair c → cm_events cm = [])
  end.
Proof.
  intros Hc Hok Hg key d. destruct (decide (cm_events cm = [])) as [Hes|Hne].
  { unfold ColocatedSQLiteBundle.atomic_dispatch_record. rewrite Hes. simpl. by split_and!. }
  pose proof (passes_log_ok log_table c _ Hg Hok (passes_arrival c Hc)) as Hokv. simpl in Hokv.
  pose proof (atomic_dispatch_spec cm envelope c Hc Hok Hg Hne) as Hs. unfold wp in Hs.
  destruct (ColocatedSQLiteBundle.atomic_dispatch_record cm envelope c) as [[[ref res]|e] c'].
  - destruct Hs as (d' & (Hi & -> & _) & Hs). unfold spec_dispatch, spec_reserve in Hs.
    fold d key in Hs. destruct (cm_events cm) as [|e0 es] eqn:Hes; [done|].
    destruct (db_dedupe d !! key) as [existing|] eqn:Hk; injection Hs as <- <- <-; simpl.
    + split_and!; [done|done|by eexists|done|done].
    + split_and!; [done|by apply log_ok_committed|done|done|done|].
      intros run. rewrite stream_committed_rows by (by rewrite Hes). by rewrite Hes.
  - destruct Hs as ((Hi & Hv & _) & Hx & Hf). fold d in Hv. rewrite Hv.
    split_and!; [done|done|done|done|]. intros Hfair. destruct (Hf Hfair) as [Hn _].
    unfold spec_dispatch in Hn. destruct (cm_events cm); [done|].
    by destruct (spec_reserve _ _ _ _).
Qed.

(** The disk fills up at the last event row; then it works. *)
Definition empty_bundle (w : list (weather colocated)) : conn colocated :=
  ColocatedSQLiteBundle.__init__ {| db_dedupe := ∅; db_log := empty_tables |} w.

Definition calm : weather colocated := {| other_writers := None; statement_fault := no_fault |}.

Definition full_disk : conn colocated :=
  empty_bundle [calm; calm; calm; calm; calm; calm;
    {| other_writers := None; statement_fault := fails |}].

Lemma atomic_dispatch_both_or_neither_witness :
  let r := ColocatedSQLiteBundle.atomic_dispatch_record (log_commit ["a"; "b"]) example_envelope full_disk in
  is_ok r.1 = false ∧ idle r.2 ∧ cn_committed r.2 = cn_committed full_disk ∧
  match ColocatedSQLiteBundle.atomic_dispatch_record (log_commit ["a"; "b"]) example_envelope r.2 with
  | (Ok (_, res), c2) => accepted res = true ∧
      map ev_commit_offset (stream "run-1" (db_log (cn_committed c2))) = [1; 2]%Z
  | _ => False
  end.
Proof.
  assert (grows log_table full_disk) as Hg.
  { apply alone_grows. repeat constructor. }
  pose proof (atomic_dispatch_both_or_neither (log_commit ["a"; "b"]) example_envelope full_disk
    eq_refl empty_log_ok Hg) as H.
  intros r. assert (is_ok r.1 = false) as Ho by (vm_compute; reflexivity).
  split; [exact Ho|]. split; [|split; [|vm_compute; split; reflexivity]].
  - revert H Ho. unfold r. destruct (ColocatedSQLiteBundle.atomic_dispatch_record _ _ full_disk) as [o c2].
    intros (Hi & _) _. exact Hi.
  - revert H Ho. unfold r.
    destruct (ColocatedSQLiteBundle.atomic_dispatch_record _ _ full_disk) as [[p|e] c2]; [intros _ [=]|].
    intros (_ & _ & _ & Hd & _) _. exact Hd.
Defined.
