(* ===== verification/SchemaMigration.v ===== *)
(** * Event schema migration ([kernel/persistence/event_schema_migration.py])

    A directed graph of migration steps between schema versions, the
    breadth-first search for a path, and the migration of one event along it.
    The two [while] loops run on fuel; the theorem shows that the fuel given
    is always enough. *)
From S2P Require Export Contracts PyStr Python.

(** [dict] with pairs as keys, in insertion order. *)
Definition migration : Type := (string * string) * (RuntimeEvent → outcome RuntimeEvent).
Abbreviation migrations := (list migration).

Definition edges (ms : migrations) : list (string * string) := map fst ms.

Fixpoint migration_of (e : string * string) (ms : migrations)
    : option (RuntimeEvent → outcome RuntimeEvent) :=
  match ms with
  | [] => None
  | (e', fn) :: ms' => if decide (e = e') then Some fn else migration_of e ms'
  end.

Definition set_migration (e : string * string) fn (ms : migrations) : migrations :=
  if decide (e ∈ edges ms)
  then map (λ m, if decide (m.1 = e) then (e, fn) else m) ms
  else ms ++ [(e, fn)].

Module EventSchemaMigrator.
Definition register (from_version to_version : string)
    (fn : RuntimeEvent → outcome RuntimeEvent) (ms : migrations) : outcome migrations :=
  if decide (from_version = to_version)
  then Raise (Exn ValueError "from_version and to_version must differ.")
  else Ok (set_migration (from_version, to_version) fn ms).

(** The three collections of the search. *)
Record bfs := Bfs {
  queue : list string;
  parent : gmap string (option string);
  edge_to : gmap string (string * string)
}.

(** The [for] loop over the edges. *)
Definition visit (current : string) (s : bfs) (e : string * string) : bfs :=
  let '(src, dst) := e in
  if decide (src ≠ current ∨ is_Some (parent s !! dst)) then s
  else {| queue := queue s ++ [dst];
          parent := <[dst := Some current]> (parent s);
          edge_to := <[dst := (src, dst)]> (edge_to s) |}.

(** The [while queue] loop. *)
Fixpoint search (fuel : nat) (es : list (string * string)) (target_version : string) (s : bfs)
    : option bfs :=
  match fuel, queue s with
  | _, [] => Some s
  | O, _ => None
  | S fuel, current :: rest =>
      let s1 := {| queue := rest; parent := parent s; edge_to := edge_to s |} in
      if decide (current = target_version) then Some s1
      else search fuel es target_version (fold_left (visit current) es s1)
  end.

(** [while node != from_version]: the path, already in order. *)
Fixpoint rebuild (fuel : nat) (s : bfs) (from_version node : string)
    (path : list (string * string)) : option (list (string * string)) :=
  if decide (node = from_version) then Some path
  else
    match fuel, edge_to s !! node, parent s !! node with
    | S fuel, Some edge, Some (Some p) => rebuild fuel s from_version p (edge :: path)
    | _, _, _ => None
    end.

Definition _resolve_path (ms : migrations) (from_version target_version : string)
    : option (list (string * string)) :=
  let es := edges ms in
  let start := {| queue := [from_version]; parent := {[from_version := None]}; edge_to := ∅ |} in
  s ← search (S (S (length es))) es target_version start;
  if decide (is_Some (parent s !! target_version))
  then rebuild (size (parent s)) s from_version target_version []
  else Some [].

Definition with_version (v : string) (e : RuntimeEvent) : RuntimeEvent :=
  {| ev_run_id := ev_run_id e; ev_event_id := ev_event_id e;
     ev_commit_offset := ev_commit_offset e; ev_event_type := ev_event_type e;
     ev_event_class := ev_event_class e; ev_event_authority := ev_event_authority e;
     ev_ordering_key := ev_ordering_key e; ev_wake_policy := ev_wake_policy e;
     ev_created_at := ev_created_at e; ev_idempotency_key := ev_idempotency_key e;
     ev_payload_ref := ev_payload_ref e; ev_payload_json := ev_payload_json e;
     ev_schema_version := v |}.

Definition with_payload (p : pydict) (e : RuntimeEvent) : RuntimeEvent :=
  {| ev_run_id := ev_run_id e; ev_event_id := ev_event_id e;
     ev_commit_offset := ev_commit_offset e; ev_event_type := ev_event_type e;
     ev_event_class := ev_event_class e; ev_event_authority := ev_event_authority e;
     ev_ordering_key := ev_ordering_key e; ev_wake_policy := ev_wake_policy e;
     ev_created_at := ev_created_at e; ev_idempotency_key := ev_idempotency_key e;
     ev_payload_ref := ev_payload_ref e; ev_payload_json := Some p;
     ev_schema_version := ev_schema_version e |}.

(** [payload.setdefault("original_schema_version", ...)]. *)
Definition _attach_original_schema_version (original migrated : RuntimeEvent) : RuntimeEvent :=
  if decide (ev_schema_version original = ev_schema_version migrated) then migrated
  else
    let payload := default [] (ev_payload_json migrated) in
    with_payload
      (match od_get "original_schema_version" payload with
       | Some _ => payload
       | None => payload ++ [("original_schema_version", PStr (ev_schema_version original))]
       end) migrated.

Fixpoint apply_path (ms : migrations) (path : list (string * string)) (migrated : RuntimeEvent)
    : outcome RuntimeEvent :=
  match path with
  | [] => Ok migrated
  | (from_version, to_version) :: path =>
      match migration_of (from_version, to_version) ms with
      | None => Raise (Exn KeyError "")
      | Some fn =>
          migrated ← fn migrated;
          apply_path ms path
            (if decide (ev_schema_version migrated ≠ to_version)
             then with_version to_version migrated else migrated)
      end
  end.

(** [None] stands for a search that runs out of fuel. *)
Definition migrate (ms : migrations) (event : RuntimeEvent) (target_version : string)
    : option (outcome RuntimeEvent) :=
  if decide (ev_schema_version event = target_version) then Some (Ok event)
  else
    path ← _resolve_path ms (ev_schema_version event) target_version;
    match path with
    | [] =>
        Some (Raise (Exn SchemaMigrationError
          ("No schema migration path from " +:+ str_repr (ev_schema_version event) +:+ " to "
             +:+ str_repr target_version +:+ ".")))
    | _ =>
        Some (migrated ← apply_path ms path event;
              Ok (_attach_original_schema_version event migrated))
    end.

Fixpoint migrate_batch (ms : migrations) (events : list RuntimeEvent) (target_version : string)
    : option (outcome (list RuntimeEvent)) :=
  match events with
  | [] => Some (Ok [])
  | event :: events =>
      o ← migrate ms event target_version;
      match o with
      | Raise e => Some (Raise e)
      | Ok event =>
          os ← migrate_batch ms events target_version;
          Some (os ≫= λ l, Ok (event :: l))
      end
  end.
End EventSchemaMigrator.

(** ** Chains *)
Section search_spec.
Import EventSchemaMigrator.
Context (es : list (string * string)) (from : string).

(** A path in the graph, edge by edge. *)
Fixpoint chain (u v : string) (path : list (string * string)) : Prop :=
  match path with
  | [] => u = v
  | e :: path => e ∈ es ∧ e.1 = u ∧ chain e.2 v path
  end.

Lemma chain_app u v w p q : chain u v p → chain v w q → chain u w (p ++ q).
Proof.
  revert u. induction p as [|e p IH]; intros u; simpl; [by intros ->|].
  intros (? & ? & ?) ?. split_and!; [done..|]. by apply IH.
Qed.

Lemma chain_snoc_inv u v p e : chain u v (p ++ [e]) → chain u e.1 p ∧ e ∈ es ∧ e.2 = v.
Proof.
  revert u. induction p as [|e' p IH]; intros u; simpl; [by intros (? & -> & ?)|].
  intros (? & ? & H). destruct (IH _ H) as (? & ? & ?). by split_and!.
Qed.

(** ** The invariant of the search

    [d] gives the depth of each discovered version. *)
Record discovered (d : string → nat) (s : bfs) : Prop := {
  di_from : parent s !! from = Some None;
  di_zero : d from = 0;
  di_parent v u : parent s !! v = Some (Some u) →
    edge_to s !! v = Some (u, v) ∧ (u, v) ∈ es ∧ is_Some (parent s !! u) ∧ d v = S (d u);
  di_root v : parent s !! v = Some None → v = from;
  di_bound v : is_Some (parent s !! v) → d v < size (parent s);
  di_queue v : v ∈ queue s → is_Some (parent s !! v)
}.

(** Every edge out of [u] has been followed. *)
Definition expanded (d : string → nat) (s : bfs) (u : string) : Prop :=
  ∀ v, (u, v) ∈ es → is_Some (parent s !! v) ∧ d v ≤ S (d u).

(** Between two rounds. *)
Record frontier (d : string → nat) (s : bfs) : Prop := {
  fr_discovered : discovered d s;
  fr_sorted : StronglySorted le (map d (queue s));
  fr_spread x y : x ∈ queue s → y ∈ queue s → d y ≤ S (d x);
  fr_done u : is_Some (parent s !! u) → u ∉ queue s →
    expanded d s u ∧ ∀ x, x ∈ queue s → d u ≤ d x
}.

(** Within a round: [current] has been popped and the edges in [seen] looked
    at. *)
Record visiting (d : string → nat) (current : string) (seen : list (string * string)) (s : bfs)
    : Prop := {
  vi_discovered : discovered d s;
  vi_current : is_Some (parent s !! current);
  vi_sorted : StronglySorted le (map d (queue s));
  vi_range x : x ∈ queue s → d current ≤ d x ≤ S (d current);
  vi_done u : is_Some (parent s !! u) → u ∉ queue s → u ≠ current →
    expanded d s u ∧ d u ≤ d current;
  vi_seen v : (current, v) ∈ seen → is_Some (parent s !! v) ∧ d v ≤ S (d current)
}.

Lemma sorted_snoc l (x : nat) :
  StronglySorted le l → Forall (λ y, y ≤ x) l → StronglySorted le (l ++ [x]).
Proof.
  intros Hl Hx. apply StronglySorted_app. split_and!; [|done|repeat constructor].
  intros y z Hy Hz%list_elem_of_singleton. subst z. by eapply Forall_forall in Hx.
Qed.

(** Discovering [dst] from [current]. *)
Definition discover (current dst : string) (s : bfs) : bfs :=
  {| queue := queue s ++ [dst];
     parent := <[dst := Some current]> (parent s);
     edge_to := <[dst := (current, dst)]> (edge_to s) |}.

Definition deepen (d : string → nat) (current dst : string) : string → nat :=
  λ x, if decide (x = dst) then S (d current) else d x.

Section discover.
Context (d : string → nat) (current dst : string) (s : bfs).
Hypothesis Hd : discovered d s.
Hypothesis Hc : is_Some (parent s !! current).
Hypothesis Hnew : parent s !! dst = None.

Lemma deepen_old x : is_Some (parent s !! x) → deepen d current dst x = d x.
Proof. intros [y Hx]. unfold deepen. rewrite decide_False; [done|]. congruence. Qed.

Lemma deepen_new : deepen d current dst dst = S (d current).
Proof. unfold deepen. by rewrite decide_True. Qed.

Lemma discover_parent x :
  is_Some (parent (discover current dst s) !! x) ↔ x = dst ∨ is_Some (parent s !! x).
Proof.
  simpl. destruct (decide (x = dst)) as [->|Hx].
  - rewrite lookup_insert_eq. split; [by left|by eexists].
  - rewrite lookup_insert_ne by done. naive_solver.
Qed.

Lemma discovered_discover :
  (current, dst) ∈ es → discovered (deepen d current dst) (discover current dst s).
Proof.
  intros He. pose proof (di_from d s Hd) as Hf. split.
  - simpl. rewrite lookup_insert_ne; [done|]. congruence.
  - rewrite deepen_old; [by apply (di_zero d s)|by eexists].
  - intros v u Hv. simpl in Hv. destruct (decide (v = dst)) as [->|Hne].
    + rewrite lookup_insert_eq in Hv. injection Hv as <-. simpl. rewrite lookup_insert_eq, deepen_new.
      split_and!; [done|done|apply discover_parent; by right|by rewrite deepen_old].
    + rewrite lookup_insert_ne in Hv by done. destruct (di_parent d s Hd v u Hv) as (? & ? & Hu & ?).
      simpl. rewrite lookup_insert_ne by done. rewrite !deepen_old by (done || by eexists).
      split_and!; [done|done|apply discover_parent; by right|done].
  - intros v Hv. simpl in Hv. destruct (decide (v = dst)) as [->|Hne].
    + by rewrite lookup_insert_eq in Hv.
    + rewrite lookup_insert_ne in Hv by done. by apply (di_root d s).
  - intros v [->|Hv]%discover_parent; simpl; rewrite map_size_insert_None by done.
    + rewrite deepen_new. pose proof (di_bound d s Hd current Hc). lia.
    + rewrite deepen_old by done. pose proof (di_bound d s Hd v Hv). lia.
  - intros v [Hv|Hv%list_elem_of_singleton]%elem_of_app; apply discover_parent; [right|by left].
    by apply (di_queue d s).
Qed.
End discover.

Lemma visit_step d current seen e s :
  e ∈ es → visiting d current seen s →
  ∃ d', visiting d' current (e :: seen) (visit current s e).
Proof.
  intros He Hv. destruct e as [src dst]. unfold visit. destruct Hv as [Hd Hc Hs Hr Hdone Hseen].
  case_decide as Hskip.
  - exists d. split; try done. intros v [Heq|Hin]%elem_of_cons; [|by apply Hseen].
    injection Heq as <- <-. destruct Hskip as [?|Hdst]; [done|]. split; [done|].
    destruct (decide (v ∈ queue s)) as [Hq|Hq]; [by apply Hr|].
    destruct (decide (v = current)) as [->|Hne]; [lia|]. destruct (Hdone v Hdst Hq Hne). lia.
  - assert (src = current) as -> by (destruct (decide (src = current)); tauto).
    assert (parent s !! dst = None) as Hnew by (apply eq_None_not_Some; tauto).
    change (Bfs _ _ _) with (discover current dst s).
    pose proof (deepen_old d current dst s Hnew) as Hold.
    pose proof (deepen_new d current dst) as Hdst.
    pose proof (discover_parent current dst s) as Hpar.
    assert (∀ x, x ∈ queue s → deepen d current dst x = d x) as Hq.
    { intros x Hx. by apply Hold, (di_queue d s). }
    assert (∀ u v, is_Some (parent s !! u) → is_Some (parent s !! v) ∧ d v ≤ S (d u) →
      is_Some (parent (discover current dst s) !! v) ∧
      deepen d current dst v ≤ S (deepen d current dst u)) as Hedge.
    { intros u v Hu [Hv Hle]. rewrite !Hold by done. split; [apply Hpar; by right|done]. }
    exists (deepen d current dst). split.
    + by apply discovered_discover.
    + apply Hpar. by right.
    + simpl. rewrite map_app. simpl. rewrite Hdst.
      replace (map (deepen d current dst) (queue s)) with (map d (queue s))
        by (apply map_ext_in; intros x Hx%list_elem_of_In; by rewrite Hq).
      apply sorted_snoc; [done|]. apply Forall_map, Forall_forall. intros x Hx. by apply Hr.
    + rewrite (Hold current) by done. intros x [Hx|Hx%list_elem_of_singleton]%elem_of_app.
      * rewrite Hq by done. by apply Hr.
      * subst x. rewrite Hdst. lia.
    + intros u [->|Hu]%Hpar Hnq Hne; [exfalso; apply Hnq, elem_of_app; right; by left|].
      destruct (Hdone u Hu) as [Hexp Hle]; [|done|].
      { intros Hin. apply Hnq, elem_of_app. by left. }
      rewrite !Hold by done. split; [|done]. intros v Hv.
      apply Hedge; [done|]. by apply Hexp.
    + intros v [Heq|Hv]%elem_of_cons; [|by apply Hedge; [|apply Hseen]].
      injection Heq as <-. split; [apply Hpar; by left|]. rewrite Hdst, Hold by done. lia.
Qed.

Lemma visit_all d current seen l s :
  l ⊆ es → visiting d current seen s →
  ∃ d', visiting d' current (reverse l ++ seen) (fold_left (visit current) l s).
Proof.
  revert d seen s. induction l as [|e l IH]; intros d seen s Hl Hv; simpl; [by exists d|].
  destruct (visit_step d current seen e s) as [d1 H1]; [apply Hl; by left|done|].
  destruct (IH d1 (e :: seen) (visit current s e)) as [d2 H2]; [set_solver|done|].
  exists d2. by rewrite reverse_cons, <- app_assoc.
Qed.

(** ** One round of the search *)
Lemma pop_head d s current rest :
  queue s = current :: rest → frontier d s →
  visiting d current [] {| queue := rest; parent := parent s; edge_to := edge_to s |}.
Proof.
  intros Hq [Hd Hs Hsp Hdone]. rewrite Hq in Hs, Hsp, Hdone. simpl in Hs.
  apply StronglySorted_inv in Hs as [Hs Hhead]. destruct Hd as [D1 D2 D3 D4 D5 D6]. split.
  - split; try done. intros v Hv. apply D6. rewrite Hq. by right.
  - apply D6. rewrite Hq. by left.
  - done.
  - simpl. intros x Hx. split; [|by apply Hsp; [left|right]].
    rewrite Forall_map in Hhead. eapply Forall_forall in Hhead; [|done]. done.
  - simpl. intros u Hu Hnq Hne. destruct (Hdone u Hu) as [Hexp Hle]; [|split; [done|by apply Hle; left]].
    by intros [?|?]%elem_of_cons.
  - by intros v ?%elem_of_nil.
Qed.

Lemma round_done d current s : visiting d current (reverse es) s → frontier d s.
Proof.
  intros [Hd Hc Hs Hr Hdone Hseen].
  assert (∀ u, is_Some (parent s !! u) → u ∉ queue s → expanded d s u ∧ d u ≤ d current) as H.
  { intros u Hu Hq. destruct (decide (u = current)) as [->|Hne]; [|by apply Hdone].
    split; [|done]. intros v Hv. apply Hseen. by apply elem_of_reverse. }
  split; try done.
  - intros x y Hx%Hr Hy%Hr. lia.
  - intros u Hu Hq. destruct (H u Hu Hq) as [? ?]. split; [done|]. intros x Hx%Hr. lia.
Qed.

Lemma round_spec d s current rest :
  queue s = current :: rest → frontier d s →
  ∃ d', frontier d' (fold_left (visit current) es
    {| queue := rest; parent := parent s; edge_to := edge_to s |}).
Proof.
  intros Hq Hf. destruct (visit_all d current [] es _ ltac:(done) (pop_head _ _ _ _ Hq Hf))
    as [d' Hd']. exists d'. rewrite app_nil_r in Hd'. by eapply round_done.
Qed.

(** ** The fuel: every round takes one version off, and each edge can put at
    most one back *)
Definition undiscovered (s : bfs) (l : list (string * string)) : list (string * string) :=
  filter (λ e, parent s !! e.2 = None) l.

Definition work (s : bfs) : nat := length (queue s) + length (undiscovered s es).

Lemma undiscovered_le current dst s l :
  length (undiscovered (discover current dst s) l) ≤ length (undiscovered s l).
Proof.
  unfold undiscovered. induction l as [|e l IH]; [done|]. rewrite !filter_cons. simpl in *.
  destruct (decide (dst = e.2)) as [->|He].
  - rewrite lookup_insert_eq, decide_False by done. case_decide; simpl; lia.
  - rewrite lookup_insert_ne by done. case_decide; simpl; lia.
Qed.

Lemma undiscovered_lt current e s l :
  parent s !! e.2 = None → e ∈ l →
  length (undiscovered (discover current e.2 s) l) < length (undiscovered s l).
Proof.
  intros Hnew He. induction l as [|e' l IH]; [by apply elem_of_nil in He|].
  unfold undiscovered in *. rewrite !filter_cons. simpl in *. apply elem_of_cons in He as [<-|He].
  - rewrite lookup_insert_eq, decide_False, decide_True by done. simpl.
    apply Nat.lt_succ_r. apply (undiscovered_le current e.2).
  - specialize (IH He). destruct (decide (e.2 = e'.2)) as [Heq|Hne].
    + rewrite <- Heq, lookup_insert_eq, decide_False by done. case_decide; simpl; lia.
    + rewrite lookup_insert_ne by done. case_decide; simpl; lia.
Qed.

Lemma visit_work current l s : l ⊆ es → work (fold_left (visit current) l s) ≤ work s.
Proof.
  revert s. induction l as [|[src dst] l IH]; intros s Hl; simpl; [done|].
  etransitivity; [apply IH; set_solver|]. unfold visit. case_decide as Hskip; [done|].
  assert (src = current) as -> by (destruct (decide (src = current)); tauto).
  change (Bfs _ _ _) with (discover current dst s). unfold work. simpl.
  pose proof (undiscovered_lt current (current, dst) s es) as Hlt. simpl in Hlt.
  rewrite length_app. simpl. enough (length (undiscovered (discover current dst s) es)
    < length (undiscovered s es)) by lia.
  apply Hlt; [apply eq_None_not_Some; tauto|apply Hl; by left].
Qed.

(** ** The whole search *)
Lemma frontier_reach d s v path :
  frontier d s → chain from v path →
  (is_Some (parent s !! v) ∧ d v ≤ length path) ∨ ∃ x, x ∈ queue s ∧ d x ≤ length path.
Proof.
  intros Hf. pose proof (fr_discovered _ _ Hf) as Hd. revert v.
  induction path as [|e path IH] using rev_ind; intros v Hp.
  - simpl in Hp. subst v. left. rewrite (di_zero _ _ Hd), (di_from _ _ Hd). split; [by eexists|lia].
  - apply chain_snoc_inv in Hp as (Hp & He & <-). rewrite length_app. simpl.
    destruct (IH _ Hp) as [[Hu Hle]|(x & Hx & Hle)]; [|right; exists x; split; [done|lia]].
    destruct (decide (e.1 ∈ queue s)) as [Hin|Hout]; [right; exists e.1; split; [done|lia]|].
    left. destruct (fr_done _ _ Hf _ Hu Hout) as [Hexp _]. destruct (Hexp e.2); [by destruct e|].
    split; [done|lia].
Qed.

(** What a finished search knows of [target]. *)
Definition found (d : string → nat) (s : bfs) (target : string) : Prop :=
  discovered d s ∧
  ∀ path, chain from target path → is_Some (parent s !! target) ∧ d target ≤ length path.

Lemma idle_found d s target : queue s = [] → frontier d s → found d s target.
Proof.
  intros Hq Hf. split; [apply Hf|]. intros path Hp.
  destruct (frontier_reach _ _ _ _ Hf Hp) as [?|(x & Hx & _)]; [done|].
  rewrite Hq in Hx. by apply elem_of_nil in Hx.
Qed.

Lemma search_found fuel target d s :
  frontier d s → work s ≤ fuel → ∃ d' s', search fuel es target s = Some s' ∧ found d' s' target.
Proof.
  revert d s. induction fuel as [|fuel IH]; intros d s Hf Hw; simpl.
  all: destruct (queue s) as [|current rest] eqn:Hq.
  1,3: by exists d, s; split; [done|apply idle_found].
  - unfold work in Hw. rewrite Hq in Hw. simpl in Hw. lia.
  - pose proof (pop_head _ _ _ _ Hq Hf) as Hpop. case_decide as Ht.
    + subst current. eexists d, _. split; [done|]. split; [exact (vi_discovered _ _ _ _ Hpop)|]. intros path Hp. simpl.
      split; [exact (vi_current _ _ _ _ Hpop)|]. destruct (frontier_reach _ _ _ _ Hf Hp) as [[_ ?]|(x & Hx & Hle)]; [done|].
      rewrite Hq in Hx. apply elem_of_cons in Hx as [->|Hx]; [done|].
      pose proof (vi_range _ _ _ _ Hpop _ Hx). lia.
    + destruct (round_spec _ _ _ _ Hq Hf) as [d' Hf']. apply (IH d'); [done|].
      pose proof (visit_work current es
        {| queue := rest; parent := parent s; edge_to := edge_to s |} ltac:(done)) as Hle.
      unfold work in Hle at 2. unfold work in Hw. rewrite Hq in Hw. simpl in *.
      change (undiscovered (Bfs rest (parent s) (edge_to s)) es) with (undiscovered s es) in Hle. lia.
Qed.

Lemma rebuild_spec fuel d s v target path :
  discovered d s → is_Some (parent s !! v) → d v ≤ fuel → chain v target path →
  ∃ p, rebuild fuel s from v path = Some p ∧ chain from target p ∧ length p = d v + length path.
Proof.
  intros Hd. revert v path. induction fuel as [|fuel IH]; intros v path Hv Hf Hc; simpl.
  all: case_decide as Hfrom; [subst v; exists path; rewrite (di_zero _ _ Hd); by split_and!|].
  all: destruct Hv as [[u|] Hv]; [|by apply (di_root _ _ Hd) in Hv].
  all: destruct (di_parent _ _ Hd _ _ Hv) as (He & Hin & Hu & Hdv).
  { lia. }
  rewrite He, Hv. destruct (IH u ((u, v) :: path)) as (p & Hp & Hpc & Hpl); [done|lia|done|].
  exists p. split_and!; [done|done|]. simpl in Hpl. lia.
Qed.

Lemma start_frontier :
  frontier (λ _, 0) {| queue := [from]; parent := {[from := None]}; edge_to := ∅ |}.
Proof.
  assert (∀ v, is_Some (({[from := None]} : gmap string (option string)) !! v) → v = from) as Hs.
  { intros v [x [? _]%lookup_singleton_Some]. done. }
  split; simpl.
  - split; simpl; try done.
    + by rewrite lookup_singleton_eq.
    + intros v u [_ ?]%lookup_singleton_Some. done.
    + intros v [? _]%lookup_singleton_Some. done.
    + intros v _. rewrite map_size_singleton. lia.
    + intros v ->%list_elem_of_singleton. rewrite lookup_singleton_eq. by eexists.
  - repeat constructor.
  - lia.
  - intros u ->%Hs Hn. by destruct Hn; left.
Qed.
End search_spec.

(** A shortest chain of registered edges. *)
Definition shortest (es : list (string * string)) (u v : string) path : Prop :=
  chain es u v path ∧ ∀ path', chain es u v path' → length path ≤ length path'.

Lemma _resolve_path_spec ms u v :
  u ≠ v → ∃ path, EventSchemaMigrator._resolve_path ms u v = Some path ∧
    (path ≠ [] ∧ shortest (edges ms) u v path ∨
     path = [] ∧ ∀ path', ¬ chain (edges ms) u v path').
Proof.
  intros Huv. unfold EventSchemaMigrator._resolve_path.
  destruct (search_found (edges ms) u (S (S (length (edges ms)))) v _ _
    (start_frontier (edges ms) u)) as (d & s & Hs & Hd & Hmin).
  { unfold work, undiscovered. simpl. pose proof (length_filter (λ e : string * string,
      ({[u := None]} : gmap string (option string)) !! e.2 = None) (edges ms)). lia. }
  rewrite Hs. simpl. case_decide as Hv.
  - destruct (rebuild_spec (edges ms) u (size (EventSchemaMigrator.parent s)) d s v v [])
      as (p & Hp & Hc & Hl); [done|done| |done|].
    { pose proof (di_bound _ _ _ _ Hd v Hv). lia. }
    exists p. split; [done|]. left. split; [by intros ->|]. split; [done|].
    intros path' Hp'. destruct (Hmin _ Hp'). simpl in Hl. lia.
  - exists []. split; [done|]. right. split; [done|]. intros path' Hp'.
    by destruct (Hmin _ Hp').
Qed.

(** ** Migration along a path *)
Section migrated_along.
Context (ms : migrations).

(** Each edge's function in turn, the version set by force, up to the first
    exception. *)
Inductive migrated_along : RuntimeEvent → list (string * string) → outcome RuntimeEvent → Prop :=
  | along_done e : migrated_along e [] (Ok e)
  | along_raise e edge path fn x :
      migration_of edge ms = Some fn → fn e = Raise x → migrated_along e (edge :: path) (Raise x)
  | along_step e edge path fn e' o :
      migration_of edge ms = Some fn → fn e = Ok e' →
      migrated_along (EventSchemaMigrator.with_version edge.2 e') path o →
      migrated_along e (edge :: path) o.

Lemma migration_of_edge e : e ∈ edges ms → ∃ fn, migration_of e ms = Some fn.
Proof.
  induction ms as [|[e' fn] ms' IH]; simpl; [by intros ?%elem_of_nil|].
  case_decide; [by eexists|]. by intros [?|?]%elem_of_cons; [|apply IH].
Qed.

Lemma with_version_same v e : ev_schema_version e = v → EventSchemaMigrator.with_version v e = e.
Proof. intros <-. by destruct e. Qed.

Lemma apply_path_along u v path e :
  chain (edges ms) u v path → migrated_along e path (EventSchemaMigrator.apply_path ms path e).
Proof.
  revert u e. induction path as [|[a b] path IH]; intros u e; simpl; [constructor|].
  intros (Hin & _ & Hc). destruct (migration_of_edge _ Hin) as [fn Hfn]. rewrite Hfn.
  destruct (fn e) as [e'|x] eqn:He; simpl; [|by eapply along_raise].
  eapply along_step; [done|done|]. simpl.
  destruct (decide (ev_schema_version e' = b)) as [Hv|Hv].
  - rewrite decide_False, with_version_same by tauto. by eapply IH.
  - rewrite decide_True by done. by eapply IH.
Qed.

Lemma migrated_along_version u v path e o :
  chain (edges ms) u v path → path ≠ [] → migrated_along e path o →
  ∀ e', o = Ok e' → ev_schema_version e' = v.
Proof.
  intros Hc Hne Ho. revert u Hc Hne. induction Ho as [|e edge path fn x|e edge path fn e1 o Hm Hf Ho IH].
  - done.
  - by intros.
  - intros u (_ & _ & Hc) _ e' ->. destruct path as [|edge' path]; [|by eapply IH].
    inversion Ho; subst. simpl in *. done.
Qed.

(** What every step keeps, the migration keeps. *)
Definition step_keeps {A} (f : RuntimeEvent → A) : Prop :=
  ∀ edge fn e e', migration_of edge ms = Some fn → fn e = Ok e' → f e' = f e.

Lemma migrated_along_keeps {A} (f : RuntimeEvent → A) e path o :
  step_keeps f → (∀ v e, f (EventSchemaMigrator.with_version v e) = f e) →
  migrated_along e path o → ∀ e', o = Ok e' → f e' = f e.
Proof.
  intros Hk Hv Ho. induction Ho as [| |e edge path fn e1 o Hm Hf Ho IH]; [by intros ? [= ->]|done|].
  intros e' ->. rewrite (IH _ eq_refl), Hv. by eapply Hk.
Qed.
End migrated_along.

(** ** The audit field *)
Abbreviation audit_key := "original_schema_version".

Lemma attach_spec original e :
  ev_schema_version original ≠ ev_schema_version e →
  let e' := EventSchemaMigrator._attach_original_schema_version original e in
  ev_schema_version e' = ev_schema_version e ∧ ev_commit_offset e' = ev_commit_offset e ∧
  ∀ k, od_get k (default [] (ev_payload_json e')) =
    match od_get k (default [] (ev_payload_json e)) with
    | Some v => Some v
    | None => if decide (k = audit_key) then Some (PStr (ev_schema_version original)) else None
    end.
Proof.
  intros Hne. unfold EventSchemaMigrator._attach_original_schema_version.
  rewrite decide_False by done. split_and!; [done..|]. intros k. simpl.
  set (payload := default [] (ev_payload_json e)).
  destruct (od_get audit_key payload) as [v|] eqn:Hv.
  - destruct (od_get k payload) eqn:Hk; [done|]. rewrite decide_False; [done|congruence].
  - clearbody payload. clear Hv.
    induction payload as [|[k' v'] payload IH]; simpl; [by repeat case_decide|].
    destruct (decide (k = k')); [done|exact IH].
Qed.

Definition no_chain ms u v : Prop := ∀ path, ¬ chain (edges ms) u v path.

(** The event a caller gets for a path that was walked to its end. *)
Definition migrated_result ms (event e e' : RuntimeEvent) (target_version : string) : Prop :=
  ev_schema_version e' = target_version ∧
  is_Some (od_get audit_key (default [] (ev_payload_json e'))) ∧
  (∀ k, k ≠ audit_key →
    od_get k (default [] (ev_payload_json e')) = od_get k (default [] (ev_payload_json e))) ∧
  (step_keeps ms ev_commit_offset → ev_commit_offset e' = ev_commit_offset event).

(** C37: migrating an event always ends.  An event already at the target is
    returned untouched; [SchemaMigrationError] is raised exactly when no chain
    of registered migrations leads from its version to the target; otherwise
    the migrations of a shortest chain are applied in order, the version being
    set after each, and either one of them raises and that is the outcome, or
    the result is at the target version, records the original version in its
    payload, leaves every other payload key as the last migration left it, and
    keeps its place in the run if every registered migration does. *)
Theorem migrate_shortest ms event target_version :
  let from := ev_schema_version event in
  ∃ o, EventSchemaMigrator.migrate ms event target_version = Some o ∧
  ((from = target_version ∧ o = Ok event) ∨
   (from ≠ target_version ∧ no_chain ms from target_version ∧
     ∃ m, o = Raise (Exn SchemaMigrationError m)) ∨
   (from ≠ target_version ∧ ∃ path r, shortest (edges ms) from target_version path ∧
     migrated_along ms event path r ∧
     match r with
     | Raise x => o = Raise x
     | Ok e => ∃ e', o = Ok e' ∧ migrated_result ms event e e' target_version
     end)).
Proof.
  intros from. unfold EventSchemaMigrator.migrate. fold from. case_decide as Hv.
  { eexists. split; [done|]. by left. }
  destruct (_resolve_path_spec ms from target_version Hv) as (path & -> & [[Hne Hs]|[-> Hno]]).
  2: { eexists. split; [done|]. right; left. split_and!; [done|done|]. by eexists. }
  simpl. destruct path as [|edge path]; [done|]. eexists. split; [done|]. right; right.
  split; [done|]. exists (edge :: path). eexists. split; [done|].
  pose proof (apply_path_along ms from target_version _ event (proj1 Hs)) as Ha.
  split; [exact Ha|]. pose proof (migrated_along_version ms _ _ _ _ _ (proj1 Hs) Hne Ha) as Hver.
  pose proof (λ Hk, migrated_along_keeps ms ev_commit_offset _ _ _ Hk (λ _ _, eq_refl) Ha) as Hoff.
  destruct (EventSchemaMigrator.apply_path _ _ _) as [e|x]; simpl; [|done].
  eexists. split; [done|]. specialize (Hver _ eq_refl).
  destruct (attach_spec event e) as (Hv' & Ho' & Hp); [by rewrite Hver|]. split_and!.
  - by rewrite Hv'.
  - rewrite Hp. rewrite decide_True by done. by case_match.
  - intros k Hk. rewrite Hp, decide_False by done. by case_match.
  - intros Hk. rewrite Ho'. by apply (Hoff Hk).
Qed.

(** ** Two routes to one version *)
Definition old_event : RuntimeEvent :=
  {| ev_run_id := "r"; ev_event_id := "e"; ev_commit_offset := 3%Z; ev_event_type := "run.started";
     ev_event_class := "fact"; ev_event_authority := authoritative_fact; ev_ordering_key := "r";
     ev_wake_policy := "projection_only"; ev_created_at := "t"; ev_idempotency_key := None;
     ev_payload_ref := None; ev_payload_json := None; ev_schema_version := "1" |}.

Definition example_migrations : migrations :=
  [(("1", "2"), λ e, Ok e); (("2", "3"), λ e, Ok e); (("3", "4"), λ e, Ok e);
   (("1", "3"), λ e, Ok e); (("5", "1"), λ e, Ok e)].

Example example_path :
  EventSchemaMigrator._resolve_path example_migrations "1" "4" = Some [("1", "3"); ("3", "4")].
Proof. vm_compute. reflexivity. Qed.

Example example_no_path :
  EventSchemaMigrator._resolve_path example_migrations "1" "5" = Some [].
Proof. vm_compute. reflexivity. Qed.
