(* ===== verification/TableMigration.v ===== *)
(** * Table migrations ([kernel/persistence/migrations.py])

    The manager that brings the tables of a database up to date.  What a script
    does to the tables is a parameter; [executescript] commits what is pending
    and runs each statement on its own, so a script and the record of its
    version are two durable steps, between which the process may die. *)
From S2P Require Export Prelude.

Record Migration := {
  mg_version : Z;
  mg_description : string;
  mg_sql : string
}.

(** The built-in migrations. *)
Definition KERNEL_MIGRATIONS : list Migration :=
[
  {| mg_version := 1;
     mg_description := "Initial schema: runtime_events, turn_intents,dedupe_store, recovery_outcomes";
     mg_sql := "
        CREATE TABLE IF NOT EXISTS runtime_events (
            id            INTEGER PRIMARY KEY AUTOINCREMENT,
            run_id        TEXT    NOT NULL,
            commit_offset INTEGER NOT NULL,
            event_type    TEXT    NOT NULL,
            payload_json  TEXT    NOT NULL,
            occurred_at   TEXT    NOT NULL DEFAULT (datetime('now')),
            UNIQUE (run_id, commit_offset)
        );
        CREATE INDEX IF NOT EXISTS idx_runtime_events_run_id
            ON runtime_events (run_id);

        CREATE TABLE IF NOT EXISTS turn_intents (
            id            INTEGER PRIMARY KEY AUTOINCREMENT,
            run_id        TEXT    NOT NULL,
            turn_offset   INTEGER NOT NULL,
            intent_json   TEXT    NOT NULL,
            recorded_at   TEXT    NOT NULL DEFAULT (datetime('now')),
            UNIQUE (run_id, turn_offset)
        );
        CREATE INDEX IF NOT EXISTS idx_turn_intents_run_id
            ON turn_intents (run_id);

        CREATE TABLE IF NOT EXISTS dedupe_store (
            idempotency_key TEXT PRIMARY KEY,
            state           TEXT NOT NULL,
            updated_at      TEXT NOT NULL DEFAULT (datetime('now'))
        );

        CREATE TABLE IF NOT EXISTS recovery_outcomes (
            id              INTEGER PRIMARY KEY AUTOINCREMENT,
            run_id          TEXT    NOT NULL,
            action_id       TEXT    NOT NULL,
            recovery_mode   TEXT    NOT NULL,
            reason          TEXT    NOT NULL,
            recorded_at     TEXT    NOT NULL DEFAULT (datetime('now'))
        );
        CREATE INDEX IF NOT EXISTS idx_recovery_outcomes_run_id
            ON recovery_outcomes (run_id);
        " |};
  {| mg_version := 2;
     mg_description := "Add schema_version column to runtime_events for snapshotversioning";
     mg_sql := "
        ALTER TABLE runtime_events ADD COLUMN schema_version TEXT NOT NULL
        DEFAULT '1';
        " |} ].

(** The tables, the rows of [schema_migrations] once it exists, the durable
    steps the process has left ([None] for any number) and, as a history
    variable, the versions whose scripts ran to their end. *)
Record database (D : Type) := Database {
  db_tables : D;
  db_recorded : option (list (Z * string));
  db_left : option nat;
  db_ran : list Z
}.
Arguments Database {D}.
Arguments db_tables {D}.
Arguments db_recorded {D}.
Arguments db_left {D}.
Arguments db_ran {D}.

Definition killed : exn := Exn CancelledError "killed".

Definition version_le (a b : Migration) : Prop := (mg_version a ≤ mg_version b)%Z.
#[export] Instance version_le_dec : RelDecision version_le.
Proof. intros a b. unfold version_le. apply _. Defined.
#[export] Instance version_le_trans : Transitive version_le.
Proof. intros a b c. unfold version_le. lia. Qed.
#[export] Instance version_le_total : Total version_le.
Proof. intros a b. unfold version_le. lia. Qed.

Module SchemaMigrationManager.
Section manager.
Context {D : Type} (executescript : string → M D unit).
Abbreviation B := (database D).

(** [self._migrations]: sorted, with no version twice. *)
Fixpoint duplicate_version (seen : list Z) (l : list Migration) : option Z :=
  match l with
  | [] => None
  | m :: l' =>
      if decide (mg_version m ∈ seen) then Some (mg_version m)
      else duplicate_version (mg_version m :: seen) l'
  end.

Definition __init__ (kernel_migrations extra_migrations : list Migration) : outcome (list Migration) :=
  let migrations := merge_sort version_le (kernel_migrations ++ extra_migrations) in
  match duplicate_version [] migrations with
  | Some v => Raise (Exn ValueError ("Duplicate migration version " +:+ pretty v +:+ " detected."))
  | None => Ok migrations
  end.

(** One durable step. *)
Definition durable : M B unit :=
  b ← gets id;
  match db_left b with
  | None => mret tt
  | Some O => raise killed
  | Some (S n) => modify (λ b, Database (db_tables b) (db_recorded b) (Some n) (db_ran b))
  end.

Definition set_recorded rows (b : B) : B := Database (db_tables b) (Some rows) (db_left b) (db_ran b).

Definition _ensure_migrations_table : M B unit :=
  durable;; modify (λ b, set_recorded (default [] (db_recorded b)) b).

Definition _applied_versions : M B (list Z) := gets (λ b, map fst (default [] (db_recorded b))).

(** The [INSERT] and the commit that ends the [with]; the version is the
    primary key. *)
Definition record_version (m : Migration) : M B unit :=
  durable;;
  rows ← gets (λ b, default [] (db_recorded b));
  if decide (mg_version m ∈ map fst rows)
  then raise (Exn (OtherError "IntegrityError") "UNIQUE constraint failed: schema_migrations.version")
  else modify (set_recorded (rows ++ [(mg_version m, mg_description m)])).

Definition run_script (m : Migration) : M B unit :=
  durable;;
  zoom db_tables (λ d b, Database d (db_recorded b) (db_left b) (db_ran b))
    (executescript (mg_sql m));;
  modify (λ b, Database (db_tables b) (db_recorded b) (db_left b) (db_ran b ++ [mg_version m])).

Definition _apply (m : Migration) : M B unit := run_script m;; record_version m.

Fixpoint apply_each (l : list Migration) : M B unit :=
  match l with
  | [] => mret tt
  | m :: l' => _apply m;; apply_each l'
  end.

Definition apply_all (migrations : list Migration) : M B Z :=
  _ensure_migrations_table;;
  applied ← _applied_versions;
  let pending := filter (λ m, mg_version m ∉ applied) migrations in
  apply_each (merge_sort version_le pending);;
  mret (Z.of_nat (length pending)).
End manager.
End SchemaMigrationManager.

(** The two built-in versions are taken. *)
Lemma kernel_versions (m : Migration) :
  SchemaMigrationManager.__init__ KERNEL_MIGRATIONS [] = Ok KERNEL_MIGRATIONS ∧
  (mg_version m ∈ [1%Z; 2%Z] →
   ∃ x, SchemaMigrationManager.__init__ KERNEL_MIGRATIONS [m] = Raise x).
Proof.
  split; [done|]. destruct m as [v d q]. simpl.
  intros [->|[->|[]%elem_of_nil]%elem_of_cons]%elem_of_cons; by eexists.
Qed.

(** ** Up to date in one call, and only once *)
Section applied.
Context {D : Type} (executescript : string → M D unit).
Import SchemaMigrationManager.
Implicit Types b : database D.

Definition recorded b : list Z := map fst (default [] (db_recorded b)).

(** From [b] to [b'] the scripts of [ms] ran, in order, and were recorded. *)
Definition went_through (ms : list Migration) b b' : Prop :=
  db_ran b' = db_ran b ++ map mg_version ms ∧ recorded b' = recorded b ++ map mg_version ms.

(** The process lives, and the scripts of [ms], run in order, succeed. *)
Definition steady b : Prop := db_left b = None.
Fixpoint scripts_succeed (ms : list Migration) (d : D) : Prop :=
  match ms with
  | [] => True
  | m :: ms' =>
      (executescript (mg_sql m) d).1 = Ok tt ∧ scripts_succeed ms' (executescript (mg_sql m) d).2
  end.

Lemma durable_steady b : steady b → durable b = (Ok tt, b).
Proof. unfold steady, durable, gets, mbind, M_bind, id. by intros ->. Qed.

Lemma apply_runs m b :
  steady b → (executescript (mg_sql m) (db_tables b)).1 = Ok tt →
  mg_version m ∉ recorded b →
  ∃ b', _apply executescript m b = (Ok tt, b') ∧ steady b' ∧ went_through [m] b b' ∧
        db_tables b' = (executescript (mg_sql m) (db_tables b)).2.
Proof.
  intros Hst Hok Hv. unfold _apply, run_script, record_version, mbind, M_bind.
  rewrite durable_steady by done. unfold zoom.
  destruct (executescript (mg_sql m) (db_tables b)) as [r d]. simpl in Hok. subst r. simpl.
  rewrite durable_steady by done. unfold gets. simpl. fold (recorded b).
  rewrite decide_False by done. eexists. do 2 (split; [done|]). split; [|done].
  unfold went_through, recorded. simpl. split; [done|]. by rewrite map_app.
Qed.

Lemma apply_each_runs ms b :
  steady b → scripts_succeed ms (db_tables b) → NoDup (map mg_version ms) →
  (∀ m, m ∈ ms → mg_version m ∉ recorded b) →
  ∃ b', apply_each executescript ms b = (Ok tt, b') ∧ steady b' ∧ went_through ms b b'.
Proof.
  revert b. induction ms as [|m ms IH]; intros b Hst Hok Hnd Hnew.
  { exists b. split; [done|]. split; [done|]. unfold went_through. by rewrite !app_nil_r. }
  simpl in Hnd, Hok. apply NoDup_cons in Hnd as [Hm Hnd]. destruct Hok as [Hok1 Hok].
  destruct (apply_runs m b Hst Hok1 (Hnew m ltac:(by left)))
    as (b1 & Hrun & Hst1 & [Hran1 Hrec1] & Htables).
  destruct (IH b1 Hst1) as (b2 & Hrun2 & Hst2 & Hran2 & Hrec2); [by rewrite Htables|done| |].
  { intros m' Hm'. rewrite Hrec1. simpl. intros [Hin|Hin%list_elem_of_singleton]%elem_of_app.
    - by apply (Hnew m'); [by right|].
    - apply Hm. rewrite <- Hin. by apply list_elem_of_fmap_2. }
  exists b2. cbn [apply_each]. unfold mbind, M_bind. rewrite Hrun. split; [done|]. split; [done|].
  split; [by rewrite Hran2, Hran1, <- app_assoc|by rewrite Hrec2, Hrec1, <- app_assoc].
Qed.

Lemma no_duplicate_version seen l :
  duplicate_version seen l = None → NoDup (map mg_version l) ∧ ∀ m, m ∈ l → mg_version m ∉ seen.
Proof.
  revert seen. induction l as [|m l IH]; intros seen; simpl.
  { split; [constructor|]. by intros ? ?%elem_of_nil. }
  case_decide as Hm; [done|]. intros [Hnd Hnew]%IH. split.
  - constructor; [|done]. intros (m' & Heq & Hm')%list_elem_of_fmap.
    apply (Hnew m' Hm'). rewrite <- Heq. by left.
  - intros m' [->|Hm']%elem_of_cons; [done|]. intros Hin. apply (Hnew m' Hm'). by right.
Qed.
Lemma versions_ascend ms : Sorted Z.le (map mg_version (merge_sort version_le ms)).
Proof.
  rewrite <- (merge_sort_map mg_version version_le Z.le) by done. apply Sorted_merge_sort. apply _.
Qed.

(** A part of the sorted migrations is sorted, so that sorting it again
    changes nothing. *)
Lemma pending_sorted (P : Migration → Prop) `{!∀ m, Decision (P m)} ms :
  Sorted Z.le (map mg_version ms) → Sorted Z.le (map mg_version (filter P ms)).
Proof.
  intros Hs%Sorted_StronglySorted; [|apply _]. apply StronglySorted_Sorted.
  induction ms as [|m ms IH]; [constructor|]. apply StronglySorted_inv in Hs as [Hs Hm].
  rewrite filter_cons. case_decide; [|by apply IH]. simpl. constructor; [by apply IH|].
  rewrite Forall_forall in *. intros v (m' & -> & [_ Hm']%list_elem_of_filter)%list_elem_of_fmap.
  by apply Hm, list_elem_of_fmap_2.
Qed.

Lemma version_names ms m m' :
  NoDup (map mg_version ms) → m ∈ ms → m' ∈ ms → mg_version m = mg_version m' → m = m'.
Proof.
  induction ms as [|m0 ms IH]; simpl; [by intros _ ?%elem_of_nil|].
  intros [Hm0 Hnd]%NoDup_cons Hm Hm' Heq. rewrite elem_of_cons in Hm, Hm'.
  destruct Hm as [->|Hm], Hm' as [->|Hm']; [done| | |by apply IH].
  - destruct Hm0. rewrite Heq. by apply list_elem_of_fmap_2.
  - destruct Hm0. rewrite <- Heq. by apply list_elem_of_fmap_2.
Qed.

Lemma sorted_again ms :
  NoDup (map mg_version ms) → Sorted Z.le (map mg_version ms) → merge_sort version_le ms = ms.
Proof.
  intros Hnd Hs. pose proof (merge_sort_Permutation version_le ms) as Hperm.
  apply (Sorted_unique_strong version_le); [| | |done].
  - intros m m' Hm Hm' ??. rewrite Hperm in Hm. apply (version_names ms); unfold version_le in *; [done..|lia].
  - apply Sorted_merge_sort. apply _.
  - clear Hnd Hperm. induction ms as [|m [|m' ms] IH]; [constructor|by repeat constructor|].
    apply Sorted_inv in Hs as [Hs Hm]. constructor; [by apply IH|]. constructor. by inv Hm.
Qed.

Lemma given_migrations kernel extra ms :
  __init__ kernel extra = Ok ms → NoDup (map mg_version ms) ∧ Sorted Z.le (map mg_version ms).
Proof.
  unfold __init__. destruct duplicate_version eqn:Hd; [done|]. intros [= <-].
  split; [apply (no_duplicate_version _ _ Hd)|apply versions_ascend].
Qed.

(** One call from a steady state. *)
Lemma apply_all_runs ms b :
  let pending := filter (λ m, mg_version m ∉ recorded b) ms in
  steady b → scripts_succeed pending (db_tables b) →
  NoDup (map mg_version ms) → Sorted Z.le (map mg_version ms) →
  ∃ b', apply_all executescript ms b = (Ok (Z.of_nat (length pending)), b') ∧ steady b' ∧
        went_through pending b b' ∧ (pending = [] → db_tables b' = db_tables b).
Proof.
  intros pending Hst Hok Hnd Hs. pose (b0 := set_recorded (default [] (db_recorded b)) b).
  assert (Hndp : NoDup (map mg_version pending)).
  { eapply sublist_NoDup; [exact Hnd|]. apply (fmap_sublist mg_version), sublist_filter. }
  destruct (apply_each_runs pending b0) as (b' & Hrun & Hst' & Hran & Hrec); [done..| |].
  { intros m Hm. by apply list_elem_of_filter in Hm as [Hm _]. }
  exists b'. unfold apply_all, _ensure_migrations_table, _applied_versions, mbind, M_bind, gets, modify.
  rewrite durable_steady by done. simpl. fold (recorded b). fold pending. fold b0.
  rewrite sorted_again, Hrun by (try apply pending_sorted; done).
  repeat split; try done. intros Hnone. rewrite Hnone in Hrun. simpl in Hrun. by injection Hrun as <-.
Qed.
End applied.

(** Where the process lives and the scripts of the pending migrations
    succeed, one call runs each of them once, in the order of their versions,
    records them and tells their number; a call after it runs nothing and tells
    0. *)
Theorem apply_all_once {D} (executescript : string → M D unit) kernel extra migrations
    (b : database D) :
  let pending := filter (λ m, mg_version m ∉ recorded b) migrations in
  SchemaMigrationManager.__init__ kernel extra = Ok migrations → steady b →
  scripts_succeed executescript pending (db_tables b) →
  ∃ b1 b2,
    SchemaMigrationManager.apply_all executescript migrations b =
      (Ok (Z.of_nat (length pending)), b1) ∧
    Sorted Z.le (map mg_version pending) ∧ went_through pending b b1 ∧
    SchemaMigrationManager.apply_all executescript migrations b1 = (Ok 0%Z, b2) ∧
    db_ran b2 = db_ran b1 ∧ db_tables b2 = db_tables b1.
Proof.
  intros pending [Hnd Hs]%given_migrations Hst Hok.
  destruct (apply_all_runs executescript migrations b Hst Hok Hnd Hs)
    as (b1 & Hrun1 & Hst1 & [Hran1 Hrec1] & _).
  assert (Hnone : filter (λ m, mg_version m ∉ recorded b1) migrations = []).
  { apply elem_of_nil_inv. intros m [Hnew Hm]%list_elem_of_filter. apply Hnew. rewrite Hrec1.
    apply elem_of_app. destruct (decide (mg_version m ∈ recorded b)); [by left|right].
    apply list_elem_of_fmap_2. by apply list_elem_of_filter. }
  destruct (apply_all_runs executescript migrations b1) as (b2 & Hrun2 & _ & [Hran2 _] & Htables);
    [done|by rewrite Hnone|done..|].
  rewrite Hnone in Hrun2, Hran2, Htables. simpl in Hran2. rewrite app_nil_r in Hran2.
  exists b1, b2. repeat split; try done; [by apply pending_sorted|by apply Htables].
Qed.

(** Tables that take each statement once, as [ALTER TABLE ... ADD COLUMN]. *)
Definition add_once (sql : string) : M (list string) unit := λ d,
  if decide (sql ∈ d) then (Raise (Exn (OtherError "OperationalError") "duplicate column name"), d)
  else (Ok tt, d ++ [sql]).

Definition two_migrations : list Migration :=
  [ {| mg_version := 2; mg_description := "a column"; mg_sql := "ALTER" |};
    {| mg_version := 1; mg_description := "the tables"; mg_sql := "CREATE" |} ].


(** The two migrations, given in the wrong order, on an empty database. *)
Definition empty_database : database (list string) := Database [] None None [].

Lemma apply_all_once_witness :
  ∃ b1 b2,
    SchemaMigrationManager.apply_all add_once (reverse two_migrations) empty_database = (Ok 2%Z, b1) ∧
    Sorted Z.le [1%Z; 2%Z] ∧
    went_through (reverse two_migrations) empty_database b1 ∧
    SchemaMigrationManager.apply_all add_once (reverse two_migrations) b1 = (Ok 0%Z, b2) ∧
    db_ran b2 = db_ran b1 ∧ db_tables b2 = db_tables b1.
Proof.
  apply (apply_all_once add_once two_migrations [] (reverse two_migrations) empty_database).
  - vm_compute. done.
  - done.
  - vm_compute. done.
Defined.

(** A process that dies between the script of version 2 and its record leaves
    the column in place and no row: every later call raises. *)
Lemma killed_between_script_and_record :
  let b := Database ["CREATE"] (Some [(1%Z, "the tables")]) (Some 2) [1%Z] in
  let '(r, b') := SchemaMigrationManager.apply_all add_once (reverse two_migrations) b in
  r = Raise killed ∧ db_tables b' = ["CREATE"; "ALTER"] ∧ recorded b' = [1%Z] ∧
  ∃ x, (SchemaMigrationManager.apply_all add_once (reverse two_migrations)
          (Database (db_tables b') (db_recorded b') None (db_ran b'))).1 = Raise x ∧ x ≠ killed.
Proof. vm_compute. repeat split; try done. eexists. split; [done|]. done. Qed.
