(* ===== verification/Reconciler.v ===== *)
(** * Consistency of log and ledger ([kernel/persistence/consistency.py],
      [kernel/persistence/dispatch_outbox_reconciler.py])

    The check that crosses the events of a run with its dispatch records, the
    reconciler that repairs what the check finds, and the scheduled sweep. *)
From S2P Require Export EventLog DedupeStore SchemaMigration.
From S2P Require Import ColocatedBundle IdempotencyKey.
From Stdlib Require Import Ascii.

(** What [_collect_dedupe_keys] can reach of a store: a query for each of the
    two table names on [_conn], and the keys of [_records_by_key] or
    [_records] in the dictionary's order. *)
Class KeyIntrospection (S : Type) := {
  ki_conn : list (string → M S (list string));
  ki_records : option (S → list string)
}.

Record ConsistencyViolation := {
  cv_kind : string;
  cv_idempotency_key : option string;
  cv_dedupe_state : option DedupeState;
  cv_event_count : option Z;
  cv_detail : string
}.

Record ConsistencyReport := {
  cr_run_id : string;
  cr_violations : list ConsistencyViolation;
  cr_events_checked : Z;
  cr_dedupe_keys_checked : Z
}.

Definition is_consistent (r : ConsistencyReport) : bool :=
  match cr_violations r with [] => true | _ => false end.

Record stores (L S : Type) := Stores { st_log : L; st_dedupe : S }.
Arguments Stores {L S}.
Arguments st_log {L S}.
Arguments st_dedupe {L S}.

Definition log_op {L S A} (m : M L A) : M (stores L S) A :=
  zoom st_log (λ l w, Stores l (st_dedupe w)) m.
Definition dedupe_op {L S A} (m : M S A) : M (stores L S) A :=
  zoom st_dedupe (λ s w, Stores (st_log w) s) m.

Section consistency.
Context {L S : Type} `{EventLogPort L} `{DedupeStorePort S} `{KeyIntrospection S}.

Definition is_OperationalError (e : exn) : bool :=
  bool_decide (exn_cls e = OtherError "OperationalError").

(** The [for table in ...] loop: [None] once both tables have failed or
    another exception has been logged. *)
Fixpoint query_tables (queries : list (M S (list string))) : M S (option (list string)) :=
  match queries with
  | [] => mret None
  | query :: queries =>
      try_except (try_except (rows ← query; mret (Some rows)) is_OperationalError
                    (λ _, query_tables queries))
        is_Exception (λ _, mret None)
  end.

Definition _collect_dedupe_keys (run_id : string) : M S (list string) :=
  found ← query_tables (map (λ query, query run_id) ki_conn);
  match found, ki_records with
  | Some rows, _ => mret rows
  | None, Some records => gets (λ s, filter (λ k, py_startswith k (run_id +:+ ":") = true) (records s))
  | None, None => mret []
  end.

(** [event_types_by_key.get(key, set())]. *)
Definition event_types_of (key : string) (events : list RuntimeEvent) : list string :=
  remove_dups (map ev_event_type
    (filter (λ e, ev_idempotency_key e = Some key ∧ key ≠ "" ∧ ev_event_type e ≠ "") events)).

(** [key in event_idempotency_keys]. *)
Definition has_event (key : string) (events : list RuntimeEvent) : bool :=
  bool_decide (Exists (λ e, ev_idempotency_key e = Some key ∧ key ≠ "") events).

Definition _DISPATCH_EVIDENCE : list string :=
  ["turn.dispatched"; "turn.effect_unknown"; "turn.effect_recorded"].

(** The body of the loop over the keys. *)
Definition violation_of (run_id key : string) (events : list RuntimeEvent) (record : DedupeRecord)
    : option ConsistencyViolation :=
  if negb (has_event key events) then
    Some {| cv_kind := "orphaned_dedupe_key"; cv_idempotency_key := Some key;
            cv_dedupe_state := Some (rec_state record); cv_event_count := Some 0%Z;
            cv_detail :=
              "DedupeStore key " +:+ str_repr key +:+ " (state="
                +:+ str_repr (dedupe_state_str (rec_state record))
                +:+ ") has no matching event in the EventLog for run " +:+ str_repr run_id
                +:+ ". Possible crash between reserve() and event append." |}
  else if decide (rec_state record = unknown_effect) then
    let found_types := event_types_of key events in
    if decide (Exists (λ ty, ty ∈ _DISPATCH_EVIDENCE) found_types) then None
    else
      Some {| cv_kind := "unknown_effect_no_log_evidence"; cv_idempotency_key := Some key;
              cv_dedupe_state := Some unknown_effect;
              cv_event_count := Some (Z.of_nat (length found_types));
              cv_detail :=
                "DedupeStore key " +:+ str_repr key +:+ " is in state 'unknown_effect' "
                  +:+ "but no dispatch/effect event was found in the EventLog for run "
                  +:+ str_repr run_id +:+ ". Human review recommended." |}
  else None.

Fixpoint detect_loop (run_id : string) (events : list RuntimeEvent) (keys : list string)
    : M S (list ConsistencyViolation) :=
  match keys with
  | [] => mret []
  | key :: keys =>
      record ← ds_get key;
      violations ← detect_loop run_id events keys;
      mret (match record ≫= violation_of run_id key events with
            | Some v => v :: violations
            | None => violations
            end)
  end.

Definition _detect_violations (run_id : string) (events : list RuntimeEvent)
    : M S ConsistencyReport :=
  all_dedupe_keys ← _collect_dedupe_keys run_id;
  violations ← detect_loop run_id events all_dedupe_keys;
  mret {| cr_run_id := run_id; cr_violations := violations;
          cr_events_checked := Z.of_nat (length events);
          cr_dedupe_keys_checked := Z.of_nat (length all_dedupe_keys) |}.

Definition unavailable (run_id : string) (detail : string) : ConsistencyReport :=
  {| cr_run_id := run_id;
     cr_violations := [{| cv_kind := "event_log_unavailable"; cv_idempotency_key := None;
                          cv_dedupe_state := None; cv_event_count := None;
                          cv_detail := detail |}];
     cr_events_checked := 0; cr_dedupe_keys_checked := 0 |}.

(** [averify_event_dedupe_consistency], on a log whose [load] is [load]. *)
Definition averify_event_dedupe_consistency (load : string → M L (list RuntimeEvent))
    (run_id : string) : M (stores L S) ConsistencyReport :=
  events ← log_op (try_except (events ← load run_id; mret (inl events)) is_Exception
                     (λ e, mret (inr (exn_msg e))));
  match events with
  | inr msg =>
      mret (unavailable run_id
        ("event_log.load(" +:+ str_repr run_id +:+ ") raised: " +:+ msg))
  | inl events => dedupe_op (_detect_violations run_id events)
  end.
End consistency.

(** ** The reconciler *)
Record ReconciliationAction := {
  ra_idempotency_key : string;
  ra_violation_kind : string;
  ra_action_taken : string;
  ra_detail : string
}.

Record ReconciliationResult := {
  rr_run_id : string;
  rr_actions : list ReconciliationAction;
  rr_violations_found : Z;
  rr_violations_repaired : Z
}.

Definition is_clean (r : ReconciliationResult) : bool := (rr_violations_found r =? 0)%Z.

Record reconciler := {
  rc_event_schema_migrator : option migrations;
  rc_target_event_schema_version : option string
}.

Definition _TERMINAL_STATES : list DedupeState := [acknowledged; unknown_effect].
Definition _REPAIRABLE_STATES : list DedupeState := [reserved; dispatched].

Section reconciliation.
Context {L S : Type} `{EventLogPort L} `{DedupeStorePort S} `{KeyIntrospection S}.
Implicit Types v : ConsistencyViolation.

Definition state_repr (st : option DedupeState) : string :=
  match st with Some st => str_repr (dedupe_state_str st) | None => "None" end.

Definition orphan_action (key taken detail : string) : ReconciliationAction :=
  {| ra_idempotency_key := key; ra_violation_kind := "orphaned_dedupe_key";
     ra_action_taken := taken; ra_detail := detail |}.

Definition _repair_orphaned_key (key : string) v : M S ReconciliationAction :=
  record ← ds_get key;
  let current_state :=
    match record with Some r => Some (rec_state r) | None => cv_dedupe_state v end in
  if decide (Exists (λ st, current_state = Some st) _TERMINAL_STATES) then
    mret (orphan_action key "skipped"
      ("Key " +:+ str_repr key +:+ " is already in terminal state " +:+ state_repr current_state
         +:+ "; no transition required."))
  else if decide (Exists (λ st, current_state = Some st) _REPAIRABLE_STATES) then
    try_except
      ((if decide (current_state = Some reserved) then ds_mark_dispatched key None else mret tt);;
       ds_mark_unknown_effect key;;
       mret (orphan_action key "marked_unknown_effect"
         ("Key " +:+ str_repr key +:+ " was in state " +:+ state_repr current_state
            +:+ " with no event log evidence; transitioned to 'unknown_effect' for recovery surface.")))
      (λ e, bool_decide (exn_cls e = DedupeStoreStateError))
      (λ e, mret (orphan_action key "skipped" ("DedupeStoreStateError during repair: " +:+ exn_msg e)))
  else
    mret (orphan_action key "skipped"
      ("Key " +:+ str_repr key +:+ " has unrecognised state " +:+ state_repr current_state
         +:+ "; cannot determine safe repair action.")).

Definition _repair_unknown_effect_no_evidence (run_id key : string) : ReconciliationAction :=
  {| ra_idempotency_key := key; ra_violation_kind := "unknown_effect_no_log_evidence";
     ra_action_taken := "logged_for_review";
     ra_detail := "Key " +:+ str_repr key +:+ " is 'unknown_effect' with no event log evidence for run "
       +:+ str_repr run_id +:+ ". Logged at WARNING for human review." |}.

Definition _repair_violation (run_id key : string) v : M S ReconciliationAction :=
  let kind := cv_kind v in
  if decide (kind = "orphaned_dedupe_key") then _repair_orphaned_key key v
  else if decide (kind = "unknown_effect_no_log_evidence") then
    mret (_repair_unknown_effect_no_evidence run_id key)
  else
    mret {| ra_idempotency_key := key; ra_violation_kind := kind; ra_action_taken := "skipped";
            ra_detail := "Unknown violation kind " +:+ str_repr kind +:+ "; skipped conservatively." |}.

Fixpoint repair_loop (run_id : string) (violations : list ConsistencyViolation)
    : M S (list ReconciliationAction) :=
  match violations with
  | [] => mret []
  | v :: violations =>
      action ← _repair_violation run_id (default "" (cv_idempotency_key v)) v;
      actions ← repair_loop run_id violations;
      mret (action :: actions)
  end.

Definition took_action (a : ReconciliationAction) : Prop := ra_action_taken a ≠ "skipped".

Definition _apply_repairs (run_id : string) (report : ConsistencyReport) : M S ReconciliationResult :=
  actions ← repair_loop run_id (cr_violations report);
  mret {| rr_run_id := run_id; rr_actions := actions;
          rr_violations_found := Z.of_nat (length (cr_violations report));
          rr_violations_repaired := Z.of_nat (length (filter took_action actions)) |}.

(** [_event_log_with_schema_migration(event_log).load].  A migration always
    ends, so that the last case does not arise. *)
Definition load_migrated (rc : reconciler) (run_id : string) : M L (list RuntimeEvent) :=
  match rc_event_schema_migrator rc, rc_target_event_schema_version rc with
  | Some migrator, Some target =>
      events ← el_load run_id 0;
      lift (default (Raise (Exn Unmodelled ""))
              (EventSchemaMigrator.migrate_batch migrator events target))
  | _, _ => el_load run_id 0
  end.

Definition reconcile (rc : reconciler) (run_id : string) : M (stores L S) ReconciliationResult :=
  report ← averify_event_dedupe_consistency (load_migrated rc) run_id;
  dedupe_op (_apply_repairs run_id report).

(** ** The scheduled sweep *)
Record ScheduledReconciliationResult := {
  sr_scanned_run_ids : list string;
  sr_violations_found : Z;
  sr_violations_repaired : Z;
  sr_finished_at_ms : Z
}.

Fixpoint sweep (rc : reconciler) (run_ids : list string) : M (stores L S) (Z * Z) :=
  match run_ids with
  | [] => mret (0, 0)%Z
  | run_id :: run_ids =>
      result ← reconcile rc run_id;
      totals ← sweep rc run_ids;
      mret (rr_violations_found result + totals.1, rr_violations_repaired result + totals.2)%Z
  end.

(** The observability hook is left out: what it raises is suppressed. *)
Definition reconcile_once (rc : reconciler) (discovered : list string) (now_ms : Z)
    : M (stores L S) ScheduledReconciliationResult :=
  totals ← sweep rc discovered;
  mret {| sr_scanned_run_ids := discovered; sr_violations_found := totals.1;
          sr_violations_repaired := totals.2; sr_finished_at_ms := now_ms |}.
End reconciliation.

(** ** What the check can see of each store *)
#[export] Instance in_memory_keys : KeyIntrospection InMemoryDedupeStore.t :=
  {| ki_conn := [];
     ki_records := Some (λ s, map fst (map_to_list (InMemoryDedupeStore._records_by_key s))) |}.

Definition no_such_table {S A} : M S A := raise (op_error "no such table").

(** [SELECT ... WHERE dispatch_idempotency_key LIKE '<run_id>:%']. *)
Definition like_query {T} (tbl : table T ledger) (run_id : string) : M (conn T) (list string) :=
  select_from tbl (λ rows, filter (λ k, SQLiteDedupeStore.like_prefix (run_id +:+ ":") k = true)
                             (map fst (map_to_list rows))).

#[export] Instance sqlite_keys : KeyIntrospection (conn ledger) :=
  {| ki_conn := [λ _, no_such_table; like_query whole]; ki_records := None |}.
#[export] Instance colocated_keys : KeyIntrospection (conn colocated) :=
  {| ki_conn := [like_query dedupe_table; λ _, no_such_table]; ki_records := None |}.

(** [_discover_run_ids]: the provider's ids, else the keys of [_events_by_run],
    else the streams of the event table, none where the query fails. *)
Definition _discover_run_ids (provided : option (option (list string)))
    (events_by_run : option (list string)) (streams : option (outcome (list string)))
    : list string :=
  match provided, events_by_run, streams with
  | Some ids, _, _ => default [] ids
  | None, Some ids, _ => ids
  | None, None, Some (Ok ids) => ids
  | None, None, _ => []
  end.

(** ** Enumerating the keys of a run *)
Class KeyEnumeration (S : Type) `{DedupeStoreLaws S} `{!KeyIntrospection S} := {
  ke_belongs : string → string → bool;
  ke_collect run_id s : ds_ok s →
    wp (_collect_dedupe_keys run_id)
      (λ keys s', ds_ok s' ∧ ds_view s' = ds_view s ∧ NoDup keys ∧
         (∀ k, k ∈ keys → is_Some (ds_view s !! k) ∧ ke_belongs run_id k = true) ∧
         (DedupeStoreAvailable S →
          ∀ k, is_Some (ds_view s !! k) → ke_belongs run_id k = true → k ∈ keys))
      (λ _ _, False) s
}.

Arguments ke_belongs S {_ _ _ _}.

Definition map_keys (l : ledger) : list string := map fst (map_to_list l).

Lemma elem_of_map_keys l k : k ∈ map_keys l ↔ is_Some (l !! k).
Proof.
  unfold map_keys. rewrite list_elem_of_fmap. split.
  - intros ([k' r] & -> & Hr%elem_of_map_to_list). by eexists.
  - intros [r Hr]. exists (k, r). split; [done|]. by apply elem_of_map_to_list.
Qed.

Lemma NoDup_map_keys l (P : string → Prop) `{!∀ k, Decision (P k)} : NoDup (filter P (map_keys l)).
Proof. apply NoDup_filter, NoDup_fst_map_to_list. Qed.

#[export] Program Instance in_memory_enumeration : KeyEnumeration InMemoryDedupeStore.t :=
  {| ke_belongs run_id k := py_startswith k (run_id +:+ ":") |}.
Next Obligation.
  intros run_id s Hs. unfold _collect_dedupe_keys, wp. simpl.
  set (keys := filter _ _). change (NoDup keys) with (NoDup keys). split_and!; [done|done| | |].
  - by apply NoDup_map_keys.
  - intros k [Hp Hk]%list_elem_of_filter. split; [by apply elem_of_map_keys|done].
  - intros _ k Hk Hp. apply list_elem_of_filter. split; [done|by apply elem_of_map_keys].
Qed.

(** The query on a table of a shared connection: all keys of the run, or none
    where the statement fails. *)
Lemma like_query_spec {T} (tbl : table T ledger) run_id (c : conn T) :
  idle c → alone c →
  wp (try_except (try_except (rows ← like_query tbl run_id; mret (Some rows)) is_OperationalError
        (λ _, mret None)) is_Exception (λ _, mret None))
    (λ found c', ended c (cn_committed c) c' ∧
       (found = None ∨
        found = Some (filter (λ k, SQLiteDedupeStore.like_prefix (run_id +:+ ":") k = true)
                        (map_keys (tb_get tbl (cn_committed c))))) ∧
       (fair c → found ≠ None))
    (λ _ _, False) c.
Proof.
  intros Hc Ha. apply wp_try_except, wp_try_except, wp_bind.
  eapply wp_mono; [exact (select_atomic _ ValueError c Hc)|..]; simpl.
  - intros rows c' (t & He & Hs). rewrite (arrival_alone c Ha) in Hs. injection Hs as <- <-.
    apply wp_ret. split_and!; [done|by right|done].
  - intros e c' (He & Hx & Hf). rewrite (arrival_alone c Ha) in He.
    assert (fair c → False) as Hnf by (intros Hfair; by destruct (Hf Hfair)).
    assert (wp (mret None : M (conn T) (option (list string)))
      (λ found c'0, ended c (cn_committed c) c'0 ∧ (found = None ∨ found = Some (filter
        (λ k, SQLiteDedupeStore.like_prefix (run_id +:+ ":") k = true)
        (map_keys (tb_get tbl (cn_committed c))))) ∧ (fair c → found ≠ None)) (λ _ _, False) c') as Hn.
    { apply wp_ret. split_and!; [done|by left|done]. }
    destruct (is_OperationalError e); [exact Hn|]. by rewrite Hx.
Qed.

(** A store on a connection is not always available: the disk may fail. *)
Lemma sqlite_unavailable {T} (tbl : table T ledger) lost (t : T) :
  ¬ @DedupeStoreAvailable (conn T) (SQLiteDedupeStore.port tbl lost) (sqlite_dedupe_laws tbl lost).
Proof.
  intros Hav. set (c := Conn t Closed [{| other_writers := None; statement_fault := fails |}]).
  pose proof (@avail_get (conn T) _ (sqlite_dedupe_laws tbl lost) Hav EmptyString c) as Hg.
  assert (idle c ∧ alone c) as Hok by (split; [done|repeat constructor]).
  specialize (Hg Hok ltac:(by eexists)). discriminate Hg.
Qed.

Lemma like_keys_spec {T} (tbl : table T ledger) lost run_id (keys : list string) (c c' : conn T) found :
  ended c (cn_committed c) c' → alone c →
  (found = None ∨ found = Some (filter (λ k, SQLiteDedupeStore.like_prefix (run_id +:+ ":") k = true)
                                  (map_keys (tb_get tbl (cn_committed c))))) →
  keys = default [] found →
  (idle c' ∧ alone c') ∧ tb_get tbl (cn_committed c') = tb_get tbl (cn_committed c) ∧ NoDup keys ∧
  (∀ k, k ∈ keys → is_Some (tb_get tbl (cn_committed c) !! k) ∧
     SQLiteDedupeStore.like_prefix (run_id +:+ ":") k = true) ∧
  (@DedupeStoreAvailable (conn T) (SQLiteDedupeStore.port tbl lost) (sqlite_dedupe_laws tbl lost) →
   ∀ k, is_Some (tb_get tbl (cn_committed c) !! k) →
     SQLiteDedupeStore.like_prefix (run_id +:+ ":") k = true → k ∈ keys).
Proof.
  intros He Ha Hf ->. destruct He as (Hi & Hv & Hw). rewrite Hv.
  split_and!; [done|by eapply Forall_suffix|done|..].
  - destruct Hf as [->| ->]; simpl; [constructor|by apply NoDup_map_keys].
  - destruct Hf as [->| ->]; simpl; [by intros k ?%elem_of_nil|].
    intros k [Hp Hk]%list_elem_of_filter. split; [by apply elem_of_map_keys|done].
  - intros Hav. by destruct (sqlite_unavailable tbl lost (cn_committed c)).
Qed.

Lemma query_missing_first {S} (q : M S (list string)) s :
  query_tables [no_such_table; q] s = query_tables [q] s.
Proof.
  unfold query_tables, no_such_table, try_except, mbind, M_bind, raise, mret, M_ret. simpl.
  destruct (q s) as [[rows|e] s']; [done|]. destruct (is_OperationalError e); [done|].
  destruct (is_Exception e) eqn:He; [done|]. by rewrite He.
Qed.

Lemma query_missing_last {S} (q : M S (list string)) s :
  query_tables [q; no_such_table] s = query_tables [q] s.
Proof.
  unfold query_tables, no_such_table, try_except, mbind, M_bind, raise, mret, M_ret. simpl.
  destruct (q s) as [[rows|e] s']; [done|]. by destruct (is_OperationalError e).
Qed.

Lemma collect_like {T} (tbl : table T ledger) lost run_id (c : conn T) m :
  idle c → alone c → (m : M _ _) c = query_tables [like_query tbl run_id] c →
  wp (found ← m; mret (default [] found))
    (λ keys c', (idle c' ∧ alone c') ∧ tb_get tbl (cn_committed c') = tb_get tbl (cn_committed c) ∧
       NoDup keys ∧
       (∀ k, k ∈ keys → is_Some (tb_get tbl (cn_committed c) !! k) ∧
          SQLiteDedupeStore.like_prefix (run_id +:+ ":") k = true) ∧
       (@DedupeStoreAvailable (conn T) (SQLiteDedupeStore.port tbl lost) (sqlite_dedupe_laws tbl lost) →
        ∀ k, is_Some (tb_get tbl (cn_committed c) !! k) →
          SQLiteDedupeStore.like_prefix (run_id +:+ ":") k = true → k ∈ keys))
    (λ _ _, False) c.
Proof.
  intros Hc Ha Hm. pose proof (like_query_spec tbl run_id c Hc Ha) as Hq.
  apply wp_bind. unfold wp in *. rewrite Hm. unfold query_tables.
  destruct (try_except _ _ _ c) as [[found|e] c']; [|done]. destruct Hq as (He & Hf & _). simpl.
  by eapply (like_keys_spec tbl).
Qed.

Lemma collect_default {S} (m : M S (option (list string))) s :
  (found ← m; match found with Some rows => mret rows | None => mret [] end) s
    = (found ← m; mret (default [] found)) s.
Proof. unfold mbind, M_bind. by destruct (m s) as [[[]|] ]. Qed.

#[export] Program Instance sqlite_enumeration : KeyEnumeration (conn ledger) :=
  {| ke_belongs run_id k := SQLiteDedupeStore.like_prefix (run_id +:+ ":") k |}.
Next Obligation.
  intros run_id c [Hc Ha]. unfold wp, _collect_dedupe_keys. simpl.
  rewrite collect_default. exact (collect_like whole SQLiteDedupeStore.not_found run_id c _ Hc Ha
    (query_missing_first (like_query whole run_id) c)).
Qed.

#[export] Program Instance colocated_enumeration : KeyEnumeration (conn colocated) :=
  {| ke_belongs run_id k := SQLiteDedupeStore.like_prefix (run_id +:+ ":") k |}.
Next Obligation.
  intros run_id c [Hc Ha]. unfold wp, _collect_dedupe_keys. simpl.
  rewrite collect_default. exact (collect_like dedupe_table SharedConnectionDedupeStore.disappeared
    run_id c _ Hc Ha (query_missing_last (like_query dedupe_table run_id) c)).
Qed.

(** ** What a repair does to the ledger *)
Definition with_state (st : DedupeState) (r : DedupeRecord) : DedupeRecord := marked r st None None.

Definition repairable (r : DedupeRecord) : Prop := rec_state r ∈ _REPAIRABLE_STATES.

#[export] Instance repairable_dec r : Decision (repairable r).
Proof. unfold repairable. apply _. Defined.

(** The ledger is as it was, or the orphan [k], reserved or dispatched, has
    been moved on. *)
Definition moved (k : string) (r : DedupeRecord) (l l' : ledger) : Prop :=
  l' = l ∨ repairable r ∧ ∃ st, st ∈ [dispatched; unknown_effect] ∧ l' = <[k := with_state st r]> l.

Definition moved_fully (k : string) (r : DedupeRecord) (l : ledger) : ledger :=
  if decide (repairable r) then <[k := with_state unknown_effect r]> l else l.

Definition orphan_verdict (r : DedupeRecord) : string :=
  if decide (repairable r) then "marked_unknown_effect" else "skipped".

Section repair_spec.
Context {S : Type} `{DedupeStoreLaws S}.
Implicit Types s : S.

Lemma mark_dispatched_step k r s (Q : unit → S → Prop) Ex :
  ds_ok s → ds_view s !! k = Some r → rec_state r ∈ [reserved; dispatched] →
  (∀ s', ds_ok s' → ds_view s' = <[k := with_state dispatched r]> (ds_view s) → Q tt s') →
  (∀ e s', ds_ok s' → ds_view s' = ds_view s → is_Exception e = true →
     ¬ DedupeStoreAvailable S → Ex e s') →
  wp (ds_mark_dispatched k None) Q Ex s.
Proof.
  intros Hs Hk Hst HQ HE.
  assert (spec_mark_unit dispatched k None None (ds_view s) =
    Some (tt, <[k := with_state dispatched r]> (ds_view s))) as Hspec.
  { unfold spec_mark_unit, spec_mark. rewrite Hk. simpl. by rewrite decide_True. }
  apply (wp_refines _ _ _ _ _ (law_mark_dispatched k None)); [by intros; apply avail_mark_dispatched|done|..].
  - intros [] s' Hs' Heq. rewrite Hspec in Heq. injection Heq as Heq. by apply HQ.
  - intros e s' Hs' Hv Hx Hn. apply HE; [done..|]. intros Hav. specialize (Hn Hav). congruence.
Qed.

Lemma mark_unknown_step k r s (Q : unit → S → Prop) Ex :
  ds_ok s → ds_view s !! k = Some r → rec_state r ∈ [dispatched; unknown_effect] →
  (∀ s', ds_ok s' → ds_view s' = <[k := with_state unknown_effect r]> (ds_view s) → Q tt s') →
  (∀ e s', ds_ok s' → ds_view s' = ds_view s → is_Exception e = true →
     ¬ DedupeStoreAvailable S → Ex e s') →
  wp (ds_mark_unknown_effect k) Q Ex s.
Proof.
  intros Hs Hk Hst HQ HE.
  assert (spec_mark_unit unknown_effect k None None (ds_view s) =
    Some (tt, <[k := with_state unknown_effect r]> (ds_view s))) as Hspec.
  { unfold spec_mark_unit, spec_mark. rewrite Hk. simpl. by rewrite decide_True. }
  apply (wp_refines _ _ _ _ _ (law_mark_unknown_effect k)); [by intros; apply avail_mark_unknown_effect|done|..].
  - intros [] s' Hs' Heq. rewrite Hspec in Heq. injection Heq as Heq. by apply HQ.
  - intros e s' Hs' Hv Hx Hn. apply HE; [done..|]. intros Hav. specialize (Hn Hav). congruence.
Qed.

Lemma get_step k s (Q : option DedupeRecord → S → Prop) Ex :
  ds_ok s →
  (∀ s', ds_ok s' → ds_view s' = ds_view s → Q (ds_view s !! k) s') →
  (∀ e s', ds_ok s' → ds_view s' = ds_view s → is_Exception e = true →
     ¬ DedupeStoreAvailable S → Ex e s') →
  wp (ds_get k) Q Ex s.
Proof.
  intros Hs HQ HE. apply (wp_refines _ _ _ _ _ (law_get k)); [by intros; apply avail_get|done|..].
  - intros a s' Hs' [= <- Hv]. by apply HQ.
  - intros e s' Hs' Hv Hx Hn. apply HE; [done..|]. intros Hav. by specialize (Hn Hav).
Qed.

(** The result of repairing one orphan. *)
Definition orphan_post (k : string) (r : DedupeRecord) s (a : ReconciliationAction) (s' : S) : Prop :=
  ds_ok s' ∧ moved k r (ds_view s) (ds_view s') ∧ ra_idempotency_key a = k ∧
  ra_violation_kind a = "orphaned_dedupe_key" ∧
  (DedupeStoreAvailable S → ra_action_taken a = orphan_verdict r ∧
     ds_view s' = moved_fully k r (ds_view s)).
Definition orphan_raise (k : string) (r : DedupeRecord) s (e : exn) (s' : S) : Prop :=
  ds_ok s' ∧ moved k r (ds_view s) (ds_view s') ∧ is_Exception e = true ∧ ¬ DedupeStoreAvailable S.

(** A failure of a marking, reported or passed on. *)
Lemma orphan_failure k r s e s' :
  ds_ok s' → moved k r (ds_view s) (ds_view s') → is_Exception e = true → ¬ DedupeStoreAvailable S →
  if bool_decide (exn_cls e = DedupeStoreStateError)
  then wp (mret (orphan_action k "skipped" ("DedupeStoreStateError during repair: " +:+ exn_msg e)))
         (orphan_post k r s) (orphan_raise k r s) s'
  else orphan_raise k r s e s'.
Proof. intros ????. case_bool_decide; [apply wp_ret|]; by split_and!. Qed.

Lemma repair_orphan_spec k v r s :
  ds_ok s → ds_view s !! k = Some r →
  wp (_repair_orphaned_key k v) (orphan_post k r s) (orphan_raise k r s) s.
Proof.
  intros Hs Hk. unfold _repair_orphaned_key. apply wp_bind, get_step; [done| |].
  2: { intros e s' Hs' Hv He Hn. split_and!; [done|by left|done|done]. }
  intros s1 Hs1 Hv1. rewrite Hk. set (current := Some (rec_state r)).
  assert (∀ l, Exists (λ st, current = Some st) l ↔ rec_state r ∈ l) as Hex.
  { intros l. rewrite Exists_exists. unfold current. split; [by intros (st & ? & [= ->])|eauto]. }
  case_decide as Hterm; [|case_decide as Hrep].
  - apply wp_ret. assert (¬ repairable r) as Hn.
    { apply Hex in Hterm. unfold repairable. destruct (rec_state r); set_solver. }
    unfold orphan_post, orphan_verdict, moved_fully. rewrite !decide_False by done.
    split_and!; [done|by left|done..].
  - apply Hex in Hrep. apply wp_try_except, wp_bind.
    assert (∀ r1 s2, ds_ok s2 → ds_view s2 !! k = Some r1 → rec_state r1 ∈ [dispatched; unknown_effect] →
      moved k r (ds_view s) (ds_view s2) →
      <[k := with_state unknown_effect r1]> (ds_view s2) = <[k := with_state unknown_effect r]> (ds_view s) →
      wp (ds_mark_unknown_effect k;;
          mret (orphan_action k "marked_unknown_effect" ("Key " +:+ str_repr k +:+ " was in state "
            +:+ state_repr current
            +:+ " with no event log evidence; transitioned to 'unknown_effect' for recovery surface.")))
        (orphan_post k r s)
        (λ e s', if bool_decide (exn_cls e = DedupeStoreStateError)
           then wp (mret (orphan_action k "skipped" ("DedupeStoreStateError during repair: " +:+ exn_msg e)))
                  (orphan_post k r s) (orphan_raise k r s) s'
           else orphan_raise k r s e s') s2) as Hunknown.
    { intros r1 s2 Hs2 Hk2 Hst Hm Heq. apply wp_bind, (mark_unknown_step k r1); [done..| |].
      - intros s3 Hs3 Hv3. apply wp_ret. rewrite Heq in Hv3.
        unfold orphan_post, orphan_verdict, moved_fully. rewrite !decide_True by done.
        split_and!; [done| |done..]. right. split; [done|]. exists unknown_effect. set_solver.
      - intros e s3 Hs3 Hv3 He Hn. apply orphan_failure; [done|by rewrite Hv3|done|done]. }
    case_decide as Hres.
    + injection Hres as Hres. apply (mark_dispatched_step k r);
        [done|by rewrite Hv1|rewrite Hres; by left| |].
      * intros s2 Hs2 Hv2. rewrite Hv1 in Hv2. apply (Hunknown (with_state dispatched r)).
        -- done.
        -- by rewrite Hv2, lookup_insert_eq.
        -- by left.
        -- rewrite Hv2. right. split; [done|]. exists dispatched. split; [by left|done].
        -- rewrite Hv2, insert_insert_eq. done.
      * intros e s2 Hs2 Hv2 He Hn. apply orphan_failure; [done| |done|done]. left. congruence.
    + apply wp_ret, (Hunknown r); [done|by rewrite Hv1| | |by rewrite Hv1].
      * unfold _REPAIRABLE_STATES in Hrep. destruct (rec_state r); set_solver.
      * left. congruence.
  - apply wp_ret. assert (¬ repairable r) as Hn by (unfold repairable; by rewrite <- Hex).
    unfold orphan_post, orphan_verdict, moved_fully. rewrite !decide_False by done.
    split_and!; [done|by left|done..].
Qed.
End repair_spec.

(** ** The whole pass, record by record *)
Section pass.
Context {S : Type} `{DedupeStoreLaws S}.
Context (run_id : string) (events : list RuntimeEvent).
Implicit Types s : S.

Definition lacks_evidence (k : string) : bool :=
  negb (bool_decide (Exists (λ ty, ty ∈ _DISPATCH_EVIDENCE) (event_types_of k events))).

(** What is reported for a key, and what becomes of its record. *)
Definition verdict (k : string) (r : DedupeRecord) : option (string * string) :=
  if negb (has_event k events) then Some (k, orphan_verdict r)
  else if decide (rec_state r = unknown_effect) then
    if lacks_evidence k then Some (k, "logged_for_review") else None
  else None.

Definition settled (k : string) (r : DedupeRecord) : DedupeRecord :=
  if negb (has_event k events)
  then if decide (repairable r) then with_state unknown_effect r else r
  else r.

Definition violations_at (l : ledger) (keys : list string) : list ConsistencyViolation :=
  omap (λ k, l !! k ≫= violation_of run_id k events) keys.
Definition verdicts_at (l : ledger) (keys : list string) : list (string * string) :=
  omap (λ k, l !! k ≫= verdict k) keys.

Definition moved_at (l l' : ledger) (k : string) : Prop :=
  l' !! k = l !! k ∨
  ∃ r st, l !! k = Some r ∧ has_event k events = false ∧ repairable r ∧
    st ∈ [dispatched; unknown_effect] ∧ l' !! k = Some (with_state st r).

(** The pass over [keys] took the ledger from [l] to [l']. *)
Definition passed (keys : list string) (l l' : ledger) : Prop :=
  ∀ k, if decide (k ∈ keys) then moved_at l l' k else l' !! k = l !! k.
Definition passed_fully (keys : list string) (l l' : ledger) : Prop :=
  ∀ k, l' !! k = if decide (k ∈ keys) then settled k <$> l !! k else l !! k.

Lemma moved_passed k r l l' :
  l !! k = Some r → has_event k events = false → moved k r l l' → passed [k] l l'.
Proof.
  intros Hk Hev Hm k'. case_decide as Hin.
  - apply list_elem_of_singleton in Hin as ->.
    destruct Hm as [->|(Hr & st & Hst & ->)]; [by left|]. right. exists r, st.
    by rewrite lookup_insert_eq.
  - destruct Hm as [->|(Hr & st & Hst & ->)]; [done|]. rewrite lookup_insert_ne; [done|]. set_solver.
Qed.

Lemma moved_fully_passed k r l :
  l !! k = Some r → has_event k events = false → passed_fully [k] l (moved_fully k r l).
Proof.
  intros Hk Hev k'. unfold moved_fully, settled. destruct (decide (k' = k)) as [->|Hne].
  - rewrite (decide_True (P:=k ∈ [k])) by by left. rewrite Hk, Hev. simpl.
    case_decide; [by rewrite lookup_insert_eq|done].
  - rewrite (decide_False (P:=k' ∈ [k])) by set_solver.
    case_decide; [by rewrite lookup_insert_ne|done].
Qed.

Lemma passed_cons k keys l l1 l2 :
  k ∉ keys → passed [k] l l1 → passed keys l1 l2 → passed (k :: keys) l l2.
Proof.
  intros Hk H1 H2 k'. specialize (H1 k'). specialize (H2 k').
  destruct (decide (k' = k)) as [->|Hne].
  - rewrite decide_True in H1 by by left. rewrite decide_False in H2 by done.
    rewrite decide_True by by left. unfold moved_at in *. by rewrite H2.
  - rewrite decide_False in H1 by set_solver. destruct (decide (k' ∈ keys)).
    + rewrite decide_True by set_solver. unfold moved_at in *. by rewrite <- H1.
    + rewrite decide_False by set_solver. congruence.
Qed.

Lemma passed_fully_cons k keys l l1 l2 :
  k ∉ keys → passed_fully [k] l l1 → passed_fully keys l1 l2 → passed_fully (k :: keys) l l2.
Proof.
  intros Hk H1 H2 k'. specialize (H1 k'). specialize (H2 k'). rewrite H2.
  destruct (decide (k' = k)) as [->|Hne].
  - rewrite decide_False by done. rewrite H1, !decide_True by (by left). done.
  - rewrite decide_False in H1 by set_solver. destruct (decide (k' ∈ keys)).
    + rewrite (decide_True (P:=k' ∈ k :: keys)) by set_solver. by rewrite H1.
    + rewrite (decide_False (P:=k' ∈ k :: keys)) by set_solver. done.
Qed.

Lemma detect_loop_spec keys s :
  ds_ok s →
  wp (detect_loop run_id events keys)
    (λ vs s', ds_ok s' ∧ ds_view s' = ds_view s ∧ vs = violations_at (ds_view s) keys)
    (λ e s', ds_ok s' ∧ ds_view s' = ds_view s ∧ is_Exception e = true ∧ ¬ DedupeStoreAvailable S) s.
Proof.
  revert s. induction keys as [|k keys IH]; intros s Hs; simpl; [by apply wp_ret|].
  apply wp_bind, get_step; [done| |by intros; split_and!].
  intros s1 Hs1 Hv1. apply wp_bind. eapply wp_mono; [by apply IH|..].
  - intros vs s2 (Hs2 & Hv2 & ->). apply wp_ret. rewrite Hv2, Hv1. split_and!; [done..|].
    unfold violations_at. simpl. by destruct (ds_view s !! k ≫= _).
  - intros e s2 (? & Hv2 & ? & ?). rewrite Hv2, Hv1. by split_and!.
Qed.

(** The repairs of the violations that the check reported. *)
Definition report_of (a : ReconciliationAction) : string * string :=
  (ra_idempotency_key a, ra_action_taken a).

Lemma omap_same {A B} (f g : A → option B) (l : list A) : (∀ x, x ∈ l → f x = g x) → omap f l = omap g l.
Proof.
  intros Hfg. by apply list_omap_ext, Forall_Forall2_diag, Forall_forall.
Qed.

Lemma passed_rest k keys l l1 :
  k ∉ keys → passed [k] l l1 →
  violations_at l1 keys = violations_at l keys ∧ verdicts_at l1 keys = verdicts_at l keys.
Proof.
  intros Hk Hp. split; apply omap_same; intros k' Hk'; specialize (Hp k');
    rewrite decide_False in Hp by set_solver; by rewrite Hp.
Qed.

(** A key whose record stays. *)
Lemma quiet_passed k l :
  (∀ r, l !! k = Some r → settled k r = r) → passed [k] l l ∧ passed_fully [k] l l.
Proof.
  intros Hr. split; intros k'; case_decide as Hk; [by left|done| |done].
  apply list_elem_of_singleton in Hk as ->. destruct (l !! k) as [r|]; simpl; [|done].
  by rewrite Hr.
Qed.

(** The post-conditions of the pass compose. *)
Definition pass_post (keys : list string) s (actions : list ReconciliationAction) (s' : S) : Prop :=
  ds_ok s' ∧ passed keys (ds_view s) (ds_view s') ∧
  (DedupeStoreAvailable S → passed_fully keys (ds_view s) (ds_view s') ∧
     map report_of actions = verdicts_at (ds_view s) keys).
Definition pass_raise (keys : list string) s (e : exn) (s' : S) : Prop :=
  ds_ok s' ∧ passed keys (ds_view s) (ds_view s') ∧ is_Exception e = true ∧ ¬ DedupeStoreAvailable S.

Lemma pass_raise_cons k keys s s1 e s' :
  k ∉ keys → passed [k] (ds_view s) (ds_view s1) → pass_raise keys s1 e s' → pass_raise (k :: keys) s e s'.
Proof. intros Hk H1 (? & H2 & ? & ?). split_and!; [done| |done|done]. by eapply passed_cons. Qed.

Lemma pass_post_cons k keys s s1 done_ actions s' :
  k ∉ keys → passed [k] (ds_view s) (ds_view s1) →
  (DedupeStoreAvailable S → passed_fully [k] (ds_view s) (ds_view s1) ∧
     map report_of done_ = verdicts_at (ds_view s) [k]) →
  pass_post keys s1 actions s' → pass_post (k :: keys) s (done_ ++ actions) s'.
Proof.
  intros Hk H1 Hf (? & H2 & Ha). split_and!; [done|by eapply passed_cons|].
  intros Hav. destruct (Hf Hav) as [F1 E1]. destruct (Ha Hav) as [F2 E2].
  split; [by eapply passed_fully_cons|]. rewrite map_app, E1, E2.
  destruct (passed_rest k keys _ _ Hk H1) as [_ ->]. unfold verdicts_at. simpl.
  by destruct (ds_view s !! k ≫= _).
Qed.

Lemma repair_loop_spec keys s :
  ds_ok s → NoDup keys →
  wp (repair_loop run_id (violations_at (ds_view s) keys)) (pass_post keys s) (pass_raise keys s) s.
Proof.
  revert s. induction keys as [|k keys IH]; intros s Hs Hnd; simpl.
  { apply wp_ret. split_and!; [done|by intros k|]. intros _. split; [by intros k|done]. }
  apply NoDup_cons in Hnd as [Hk Hnd]. unfold violations_at. simpl.
  fold (violations_at (ds_view s) keys).
  assert ((∀ r, ds_view s !! k = Some r → settled k r = r) → verdicts_at (ds_view s) [k] = [] →
    wp (repair_loop run_id (violations_at (ds_view s) keys))
      (pass_post (k :: keys) s) (pass_raise (k :: keys) s) s) as Hquiet.
  { intros Hset Hver. destruct (quiet_passed k _ Hset) as [Q1 Q2].
    eapply wp_mono; [by apply IH|..].
    - intros actions s'. apply (pass_post_cons k keys s s []); [done..|]. by rewrite Hver.
    - intros e s'. by apply (pass_raise_cons k keys s s). }
  unfold verdicts_at in Hquiet. simpl in Hquiet.
  destruct (ds_view s !! k) as [r|] eqn:Hr; simpl in *; [|by apply Hquiet].
  unfold violation_of, verdict, settled in *. destruct (has_event k events) eqn:Hev; simpl in *.
  - unfold lacks_evidence in *. case_decide as Hst; [|by apply Hquiet].
    case_decide as Hex; [rewrite bool_decide_eq_true_2 in Hquiet by done; by apply Hquiet|].
    destruct (quiet_passed k (ds_view s)) as [Q1 Q2].
    { intros r' _. unfold settled. by rewrite Hev. }
    simpl. apply wp_bind, wp_ret, wp_bind. eapply wp_mono; [by apply IH|..].
    + intros actions s' Hp. apply wp_ret. eapply (pass_post_cons k keys s s [_]); [done..| |exact Hp].
      intros _. split; [done|]. unfold verdicts_at. simpl. rewrite Hr. simpl. unfold verdict.
      rewrite Hev. simpl. rewrite decide_True by done. unfold lacks_evidence.
      by rewrite bool_decide_eq_false_2.
    + intros e s'. by apply (pass_raise_cons k keys s s).
  - apply wp_bind. unfold _repair_violation. simpl.
    eapply wp_mono; [apply (repair_orphan_spec k _ r s Hs Hr)|..].
    + intros a s1 (Hs1 & Hm & Hak & Hkind & Hav). pose proof (moved_passed k r _ _ Hr Hev Hm) as Hp1.
      destruct (passed_rest k keys _ _ Hk Hp1) as [Hv1 _]. rewrite <- Hv1.
      apply wp_bind. eapply wp_mono; [by apply IH|..].
      * intros actions s' Hp. apply wp_ret.
        eapply (pass_post_cons k keys s s1 [a]); [done|done| |exact Hp].
        intros Hav'. destruct (Hav Hav') as [Ht Hl]. split.
        -- rewrite Hl. by apply moved_fully_passed.
        -- unfold verdicts_at, report_of. simpl. rewrite Hr. simpl. unfold verdict. rewrite Hev. simpl.
           by rewrite Hak, Ht.
      * intros e s'. by apply pass_raise_cons.
    + intros e s1 (Hs1 & Hm & He & Hn). split_and!; [done| |done|done].
      eapply passed_cons; [done|by eapply moved_passed|]. intros k'. case_decide; [by left|done].
Qed.
End pass.

(** ** The property *)
Section reconcile_spec.
Context {L S : Type} `{EventLogLaws L} `{KeyEnumeration S}.
Implicit Types w : stores L S.

Lemma load_migrated_spec rc run_id (l : L) :
  el_ok l →
  let '(o, l') := load_migrated rc run_id l in
  el_ok l' ∧ ∀ run, el_history l' run = el_history l run.
Proof.
  intros Hl. pose proof (law_load run_id 0 l Hl) as Hload. unfold load_migrated.
  assert (let '(o, l') := el_load run_id 0 l in el_ok l' ∧ ∀ run, el_history l' run = el_history l run) as Hs.
  { destruct (el_load run_id 0 l) as [o l']. destruct Hload as (? & ? & _). done. }
  destruct (rc_event_schema_migrator rc); [|done]. destruct (rc_target_event_schema_version rc); [|done].
  unfold mbind, M_bind, lift. by destruct (el_load run_id 0 l) as [[]].
Qed.

(** No orphan of the run is left that could be moved on. *)
Definition no_orphans (run_id : string) (events : list RuntimeEvent) (l : ledger) : Prop :=
  ∀ k r, l !! k = Some r → ke_belongs S run_id k = true → has_event k events = false → ¬ repairable r.

Lemma passed_fully_no_orphans run_id events keys l l' :
  (∀ k, is_Some (l !! k) → ke_belongs S run_id k = true → k ∈ keys) →
  passed_fully events keys l l' → no_orphans run_id events l'.
Proof.
  intros Hc Hp k r Hr Hb Hev. rewrite (Hp k) in Hr. case_decide as Hk.
  - destruct (l !! k) as [r0|]; [|done]. simpl in Hr. injection Hr as <-. unfold settled. rewrite Hev.
    simpl. case_decide; [|done]. unfold repairable, with_state. simpl. set_solver.
  - destruct Hk. by apply Hc.
Qed.

(** The events of a pass, and what it does to the ledger [l] for them. *)
Definition reconciled run_id (events : list RuntimeEvent) (l l' : ledger)
    (o : outcome ReconciliationResult) : Prop :=
  ∃ keys, NoDup keys ∧
    (∀ k, k ∈ keys → is_Some (l !! k) ∧ ke_belongs S run_id k = true) ∧
    passed events keys l l' ∧
    (DedupeStoreAvailable S → passed_fully events keys l l' ∧ no_orphans run_id events l') ∧
    match o with
    | Ok res =>
        rr_violations_found res = Z.of_nat (length (violations_at run_id events l keys)) ∧
        (DedupeStoreAvailable S → map report_of (rr_actions res) = verdicts_at events l keys)
    | Raise e => is_Exception e = true ∧ ¬ DedupeStoreAvailable S
    end.

Definition not_reconciled (e : exn) (l l' : ledger) (o : outcome ReconciliationResult) : Prop :=
  l' = l ∧
  if is_Exception e
  then ∃ res, o = Ok res ∧ rr_violations_found res = 1%Z ∧ rr_violations_repaired res = 0%Z ∧
    map report_of (rr_actions res) = [("", "skipped")]
  else o = Raise e.

Lemma reconcile_spec rc run_id w :
  el_ok (st_log w) → ds_ok (st_dedupe w) →
  let l := ds_view (st_dedupe w) in
  let '(o, w') := reconcile rc run_id w in
  let l' := ds_view (st_dedupe w') in
  el_ok (st_log w') ∧ ds_ok (st_dedupe w') ∧
  (∀ run, el_history (st_log w') run = el_history (st_log w) run) ∧
  match (load_migrated rc run_id (st_log w)).1 with
  | Raise e => not_reconciled e l l' o
  | Ok events => reconciled run_id events l l' o
  end.
Proof.
  intros Hl Hd l. pose proof (load_migrated_spec rc run_id (st_log w) Hl) as Hload.
  unfold reconcile, averify_event_dedupe_consistency, log_op, dedupe_op, zoom, mbind, M_bind, try_except.
  cbn beta.
  destruct (load_migrated rc run_id (st_log w)) as [[events|e] lg]; destruct Hload as [Hlg Hsame]; cbn.
  2: { unfold not_reconciled. destruct (is_Exception e) eqn:He; cbn; rewrite ?He; split_and!; try done.
       by eexists. }
  unfold _detect_violations, _apply_repairs, mbind, M_bind, mret, M_ret.
  pose proof (ke_collect run_id (st_dedupe w) Hd) as Hc. unfold wp in Hc.
  destruct (_collect_dedupe_keys run_id (st_dedupe w)) as [[keys|e] s1]; [|done].
  destruct Hc as (Hs1 & Hv1 & Hnd & Hkeys & Hall).
  pose proof (detect_loop_spec run_id events keys s1 Hs1) as Hdet. unfold wp in Hdet.
  assert (∀ s2, ds_view s2 = ds_view s1 → passed events keys l (ds_view s2)) as Hnone.
  { intros s2 Hv2 k. rewrite Hv2, Hv1. case_decide; [by left|done]. }
  destruct (detect_loop run_id events keys s1) as [[vs|e] s2]; cbn.
  2: { destruct Hdet as (Hs2 & Hv2 & He & Hn). split_and!; [done..|]. exists keys.
       split_and!; [done|done|by apply Hnone|by intros ?|done|done]. }
  destruct Hdet as (Hs2 & Hv2 & ->).
  pose proof (repair_loop_spec run_id events keys s2 Hs2 Hnd) as Hrep. unfold wp in Hrep.
  rewrite <- Hv2 in Hv1. rewrite Hv2 in Hrep. fold l in Hv1.
  destruct (repair_loop run_id _ s2) as [[actions|e] s3]; cbn.
  - destruct Hrep as (Hs3 & Hp & Hav). rewrite Hv1 in Hp, Hav. split_and!; [done..|]. exists keys.
    split_and!; [done|done|done| |by rewrite <- Hv2, Hv1|].
    + intros Ha. destruct (Hav Ha) as [Hf _]. split; [done|].
      by apply (passed_fully_no_orphans run_id events keys l); [apply Hall|].
    + intros Ha. by destruct (Hav Ha).
  - destruct Hrep as (Hs3 & Hp & He & Hn). rewrite Hv1 in Hp. split_and!; [done..|]. exists keys.
    split_and!; [done|done|done|by intros ?|done|done].
Qed.
End reconcile_spec.

(** C40: one reconciliation pass.  It leaves the log's histories alone.  If the
    events cannot be loaded (or migrated) it reports one violation, repairs
    nothing and leaves the ledger alone.  Otherwise the ledger changes at most
    at keys it enumerates for the run that no loaded event carries, and there
    only in that a reserved or dispatched record becomes dispatched or
    unknown_effect and keeps everything else, even when the store fails in the
    middle.  On an available store it never raises, it visits every key of the
    run, each such record becomes unknown_effect and no other changes, so that
    a second pass finds none to move; and the actions report exactly that, key
    by key: marked, skipped, or logged for review where a record is
    unknown_effect without dispatch evidence. *)
Theorem reconcile_repairs {L S} `{EventLogLaws L} `{KeyEnumeration S} rc run_id (w : stores L S) :
  el_ok (st_log w) → ds_ok (st_dedupe w) →
  let l := ds_view (st_dedupe w) in
  let '(o, w') := reconcile rc run_id w in
  let l' := ds_view (st_dedupe w') in
  (∀ run, el_history (st_log w') run = el_history (st_log w) run) ∧
  match (load_migrated rc run_id (st_log w)).1 with
  | Raise e => not_reconciled e l l' o
  | Ok events =>
      reconciled run_id events l l' o ∧
      ∀ k r', l' !! k = Some r' → ∃ r, l !! k = Some r ∧ evolves r r'
  end.
Proof.
  intros Hl Hd l. pose proof (reconcile_spec rc run_id w Hl Hd) as Hr. fold l in Hr.
  destruct (reconcile rc run_id w) as [o w']. destruct Hr as (_ & _ & Hh & Hr). split; [done|].
  destruct (load_migrated _ _ _).1 as [events|e]; [|done]. split; [done|].
  destruct Hr as (keys & _ & _ & Hp & _). intros k r' Hr'. specialize (Hp k).
  case_decide; [destruct Hp as [Hp|(r & st & Hr & _ & Hrep & Hst & Hp)]|]; rewrite Hp in Hr'.
  1, 3: by exists r'.
  exists r. split; [done|]. injection Hr' as <-. split; [done..|]. simpl. unfold repairable in Hrep.
  set_unfold in Hrep. set_unfold in Hst. destruct_or?; subst;
    repeat match goal with H : rec_state r = _ |- _ => rewrite H end.
  all: try reflexivity.
  - by apply rtc_once, edge_dispatch.
  - eapply rtc_l; [apply edge_dispatch|]. by apply rtc_once, edge_unknown.
  - by apply rtc_once, edge_unknown.
Qed.

Lemma append_assoc (a b c : string) : (a +:+ b) +:+ c = a +:+ (b +:+ c).
Proof. induction a as [|x a IH]; [done|]. exact (f_equal (String x) IH). Qed.

Lemma startswith_spec s p : py_startswith s p = true → ∃ rest, s = p +:+ rest.
Proof.
  unfold py_startswith. revert s. induction p as [|c p IH]; intros s; simpl; [by exists s|].
  destruct s as [|d s]; simpl; [done|]. destruct (Ascii.ascii_dec c d) as [->|]; [|done].
  intros [rest ->]%IH. by exists rest.
Qed.

(** The records the turn engine keeps under generated keys are out of the
    reconciler's sight.  For a run id without a colon, other than the
    namespace itself, a pass over the in-memory store neither reports nor
    changes the record under any key that the key policy generates for that
    run, whatever state it is in and whatever the log holds. *)
Theorem generated_keys_not_reconciled {L} `{EventLogLaws L} rc run_id action h namespace
    (w : stores L InMemoryDedupeStore.t) :
  el_ok (st_log w) → py_contains_char ":"%char run_id = false →
  py_contains_char ":"%char namespace = false → run_id ≠ namespace →
  let key := IdempotencyKeyPolicy.generate run_id action h namespace in
  let '(o, w') := reconcile rc run_id w in
  ds_view (st_dedupe w') !! key = ds_view (st_dedupe w) !! key ∧
  ∀ res, o = Ok res → key ∉ map ra_idempotency_key (rr_actions res).
Proof.
  intros Hl Hrun Hns Hne key. pose proof (reconcile_spec rc run_id w Hl I) as Hr.
  assert (ke_belongs InMemoryDedupeStore.t run_id key = false) as Hkey.
  { destruct (ke_belongs _ _ _) eqn:Hb; [|done].
    change (py_startswith key (run_id +:+ ":") = true) in Hb. apply startswith_spec in Hb as [rest Hb].
    unfold key, IdempotencyKeyPolicy.generate in Hb. rewrite append_assoc in Hb.
    by apply colon_field_inj in Hb as [? _]. }
  destruct (reconcile rc run_id w) as [o w']. destruct Hr as (_ & _ & _ & Hr).
  assert (∀ res, map ra_idempotency_key (rr_actions res) = map fst (map report_of (rr_actions res))) as Hfst.
  { intros res. by rewrite map_map. }
  destruct (load_migrated _ _ _).1 as [events|e].
  - destruct Hr as (keys & _ & Hkeys & _ & Hav & Hres).
    destruct (Hav _) as [Hf _]. assert (key ∉ keys) as Hout.
    { intros Hin. destruct (Hkeys _ Hin). congruence. }
    split; [by rewrite (Hf key), decide_False|]. intros res ->. destruct Hres as [_ Ha].
    rewrite Hfst, (Ha _). intros ([k t] & -> & Hin)%list_elem_of_fmap. simpl in *.
    apply list_elem_of_omap in Hin as (k' & Hk' & Hv). apply bind_Some in Hv as (r & _ & Hv).
    assert (k = k') as -> by (unfold verdict in Hv; by repeat case_match; simplify_eq). done.
  - destruct Hr as [Heq Hr]. split; [by rewrite Heq|]. intros res Ho. destruct (is_Exception e); [|congruence].
    destruct Hr as (res' & Hres & _ & _ & Ha). rewrite Ho in Hres. injection Hres as <-.
    rewrite Hfst, Ha. intros Hin%list_elem_of_singleton. unfold key, IdempotencyKeyPolicy.generate in Hin.
    by destruct namespace.
Qed.

(** ** A crash between reservation and event *)
Definition no_migration : reconciler :=
  {| rc_event_schema_migrator := None; rc_target_event_schema_version := None |}.

Definition crashed_record (key : string) : DedupeRecord :=
  {| rec_dispatch_idempotency_key := key; rec_operation_fingerprint := "f"; rec_attempt_seq := 1;
     rec_state := reserved; rec_peer_operation_id := Some "peer-7"; rec_external_ack_ref := None |}.

Definition crashed : stores InMemoryKernelRuntimeEventLog.t InMemoryDedupeStore.t :=
  Stores InMemoryKernelRuntimeEventLog.__init__
    {| InMemoryDedupeStore._records_by_key :=
         <["run-1:a1:0" := crashed_record "run-1:a1:0"]>
           {["dispatch:run-1:a1:h" := crashed_record "dispatch:run-1:a1:h"]} |}.

Lemma reconcile_repairs_witness :
  match reconcile no_migration "run-1" crashed with
  | (Ok res, w') =>
      reconciled (S:=InMemoryDedupeStore.t) "run-1" [] (ds_view (st_dedupe crashed))
        (ds_view (st_dedupe w')) (Ok res) ∧
      map report_of (rr_actions res) = [("run-1:a1:0", "marked_unknown_effect")] ∧
      rec_state <$> (ds_view (st_dedupe w') !! "run-1:a1:0") = Some unknown_effect
  | _ => False
  end.
Proof.
  pose proof (reconcile_repairs no_migration "run-1" crashed
    InMemoryKernelRuntimeEventLog.wf_init I) as H.
  assert (match reconcile no_migration "run-1" crashed with
    | (Ok res, w') => map report_of (rr_actions res) = [("run-1:a1:0", "marked_unknown_effect")] ∧
        rec_state <$> (ds_view (st_dedupe w') !! "run-1:a1:0") = Some unknown_effect
    | _ => False end) as Hc by (vm_compute; split; reflexivity).
  assert ((load_migrated no_migration "run-1" (st_log crashed)).1 = Ok []) as Hl by reflexivity.
  revert H Hc. destruct (reconcile no_migration "run-1" crashed) as [[res|e] w']; [|intros _ []].
  rewrite Hl. intros [_ [Hr _]] Hc. split; [exact Hr|exact Hc].
Defined.

Lemma generated_keys_not_reconciled_witness :
  let action := colon_action "run-1" "a1" in
  let key := IdempotencyKeyPolicy.generate "run-1" action "h" "dispatch" in
  let w := Stores InMemoryKernelRuntimeEventLog.__init__
    {| InMemoryDedupeStore._records_by_key := {[key := crashed_record key]} |} in
  ds_view (st_dedupe (reconcile no_migration "run-1" w).2) !! key = Some (crashed_record key).
Proof.
  intros action key w.
  pose proof (generated_keys_not_reconciled no_migration "run-1" action "h" "dispatch" w
    InMemoryKernelRuntimeEventLog.wf_init eq_refl eq_refl ltac:(discriminate)) as H.
  fold key in H. revert H. destruct (reconcile no_migration "run-1" w) as [o w'].
  intros [H _]. etransitivity; [exact H|]. apply lookup_singleton_eq.
Defined.
