(* ===== verification/RecoveryPlanner.v ===== *)
(** * Recovery planning ([kernel/recovery/planner.py, mode_registry.py])

    The deterministic part of recovery: reason classification, the plan for a
    failure envelope, and the catalogue that turns plan actions into recovery
    modes.  Modes and plan actions are Python [Literal] strings whose checks
    happen at run time only, so they are strings here too. *)
From S2P Require Export Contracts CapabilitySnapshot.

(** ** Envelope and decision ([kernel/contracts.py]) *)
Record RecoveryInput := {
  ri_run_id : string;
  ri_reason_code : string;
  ri_lifecycle_state : RunLifecycleState;
  ri_projection : RunProjection;
  ri_failed_action_id : option string;
  ri_reflection_round : Z;
  ri_capability_snapshot : option CapabilitySnapshot;
  ri_failed_effect_class : option string
}.

Record RecoveryDecision := {
  rd_run_id : string;
  rd_mode : string;
  rd_reason : string;
  rd_compensation_action_id : option string;
  rd_escalation_channel_ref : option string;
  rd_corrected_action : option Action;
  rd_retry_after_ms : option Z;
  rd_failure_count : Z
}.

(** ** The planner *)
Record RecoveryPlan := {
  rp_run_id : string;
  rp_action : string;
  rp_reason : string;
  rp_compensation_action_id : option string;
  rp_escalation_channel_ref : option string
}.

Inductive ReasonClassification := transient | fatal | human | unknown_reason.

Record PlannerHeuristicPolicy := {
  reason_prefix : string;
  default_escalation_channel_ref : string;
  human_reason_prefixes : list string;
  transient_reason_prefixes : list string;
  fatal_reason_prefixes : list string;
  abort_reason_prefixes : list string;
  transient_action : string;
  fatal_action : string;
  human_action : string;
  unknown_action : string
}.

(** The field defaults. *)
Definition default_planner_policy : PlannerHeuristicPolicy := {|
  reason_prefix := "recovery";
  default_escalation_channel_ref := "human://operator";
  human_reason_prefixes :=
    ["human_"; "manual_"; "requires_human"; "waiting_external"; "external_"];
  transient_reason_prefixes := ["transient_"; "executor_transient"; "retryable_"];
  fatal_reason_prefixes := ["fatal"; "non_recoverable"; "permission_denied"; "policy_denied"];
  abort_reason_prefixes := [];
  transient_action := "schedule_compensation";
  fatal_action := "abort_run";
  human_action := "notify_human_operator";
  unknown_action := "schedule_compensation" |}.

Definition _has_prefix (value : string) (prefixes : list string) : bool :=
  existsb (py_startswith value) prefixes.

(** [s.strip().lower()]. *)
Definition normalize_reason (s : string) : string := py_lower (py_strip s).

Definition classify_reason (policy : PlannerHeuristicPolicy) (reason_code : string)
    : ReasonClassification :=
  let normalized_reason := normalize_reason reason_code in
  if _has_prefix normalized_reason (human_reason_prefixes policy) then human
  else if _has_prefix normalized_reason
            (fatal_reason_prefixes policy ++ abort_reason_prefixes policy) then fatal
  else if _has_prefix normalized_reason (transient_reason_prefixes policy) then transient
  else unknown_reason.

Definition action_for_classification (policy : PlannerHeuristicPolicy)
    (classification : ReasonClassification) : string :=
  match classification with
  | human => human_action policy
  | fatal => fatal_action policy
  | transient => transient_action policy
  | unknown_reason => unknown_action policy
  end.

Definition build_plan (decision : RecoveryDecision) (projection : RunProjection)
    : outcome RecoveryPlan :=
  if decide (rd_run_id decision ≠ pj_run_id projection) then
    Raise (Exn ValueError "recovery decision run_id must match projection run_id.")
  else if decide (rd_mode decision = "static_compensation") then
    Ok {| rp_run_id := rd_run_id decision; rp_action := "schedule_compensation";
          rp_reason := rd_reason decision;
          rp_compensation_action_id := rd_compensation_action_id decision;
          rp_escalation_channel_ref := None |}
  else if decide (rd_mode decision = "human_escalation") then
    Ok {| rp_run_id := rd_run_id decision; rp_action := "notify_human_operator";
          rp_reason := rd_reason decision; rp_compensation_action_id := None;
          rp_escalation_channel_ref := rd_escalation_channel_ref decision |}
  else
    Ok {| rp_run_id := rd_run_id decision; rp_action := "abort_run";
          rp_reason := rd_reason decision; rp_compensation_action_id := None;
          rp_escalation_channel_ref := None |}.

(** The chosen action with the compensation and escalation references. *)
Definition plan_choice (policy : PlannerHeuristicPolicy) (i : RecoveryInput)
    : string * option string * option string :=
  let projection := ri_projection i in
  let channel := Some (default_escalation_channel_ref policy) in
  let compensation_action_id :=
    str_or (ri_failed_action_id i) (pj_current_action_id projection) in
  if decide (pj_recovery_mode projection = Some "human_escalation") then
    ("notify_human_operator", None, channel)
  else if decide (pj_recovery_mode projection = Some "static_compensation") then
    ("schedule_compensation", compensation_action_id, None)
  else if decide (pj_recovery_mode projection = Some "abort") then
    ("abort_run", None, None)
  else if decide (ri_lifecycle_state i = waiting_external) then
    ("notify_human_operator", None, channel)
  else
    let classification := classify_reason policy (normalize_reason (ri_reason_code i)) in
    let action := action_for_classification policy classification in
    if decide (action = "notify_human_operator") then (action, None, channel)
    else if decide (action = "schedule_compensation") then
      match compensation_action_id with
      | Some cid => (action, Some cid, None)
      | None => ("abort_run", None, None)
      end
    else (action, None, None).

Definition build_plan_from_input (policy : PlannerHeuristicPolicy) (i : RecoveryInput)
    : outcome RecoveryPlan :=
  if decide (ri_run_id i ≠ pj_run_id (ri_projection i)) then
    Raise (Exn ValueError "recovery input run_id must match projection run_id.")
  else
    let '(action, compensation, channel) := plan_choice policy i in
    Ok {| rp_run_id := ri_run_id i; rp_action := action;
          rp_reason := reason_prefix policy +:+ ":" +:+ ri_reason_code i;
          rp_compensation_action_id := compensation;
          rp_escalation_channel_ref := channel |}.

(** ** The mode catalogue *)
Module RecoveryModeRegistry.
Definition t : Type := odict string.

Definition register (plan_action mode : string) (r : t) : outcome t :=
  match od_get plan_action r with
  | Some old =>
      Raise (Exn ValueError
        ("Recovery plan action '" +:+ plan_action +:+ "' is already registered with mode '"
           +:+ old +:+ "'. Use a unique plan_action or update the existing entry."))
  | None => Ok (od_set plan_action mode r)
  end.

Definition get (plan_action : string) (r : t) : option string := od_get plan_action r.

Definition known_actions (r : t) : list string := map fst r.
End RecoveryModeRegistry.

Definition _BUILTIN_MAPPINGS : list (string * string) :=
  [ ("schedule_compensation", "static_compensation");
    ("notify_human_operator", "human_escalation");
    ("abort_run", "abort") ].

(** The module-level loop that fills the catalogue; further modes that an
    application registers at start-up come after it. *)
Definition register_all (entries : list (string * string)) (r : RecoveryModeRegistry.t)
    : outcome RecoveryModeRegistry.t :=
  fold_left (λ acc kv, r' ← acc; RecoveryModeRegistry.register kv.1 kv.2 r') entries (Ok r).

Definition KERNEL_RECOVERY_MODE_REGISTRY (custom : list (string * string))
    : outcome RecoveryModeRegistry.t :=
  register_all (_BUILTIN_MAPPINGS ++ custom) [].

(** ** Lemmas *)
Lemma normalize_reason_idemp s : normalize_reason (normalize_reason s) = normalize_reason s.
Proof.
  unfold normalize_reason. rewrite py_lower_strip, py_lower_idemp. f_equal. apply py_strip_stripped.
Qed.

(** The catalogue only grows, and never rebinds an action. *)
Lemma register_all_keeps entries r r' a m :
  register_all entries r = Ok r' → od_get a r = Some m → od_get a r' = Some m.
Proof.
  unfold register_all. revert r. induction entries as [|[a' m'] l IH]; intros r; simpl.
  { by intros [= ->]. }
  intros Hr Ha. unfold RecoveryModeRegistry.register in Hr.
  destruct (od_get a' r) eqn:Ha'.
  - exfalso. clear IH. induction l as [|kv l IHl]; simpl in Hr; [done|by apply IHl].
  - apply (IH (od_set a' m' r)); [done|]. rewrite od_get_set. case_decide; [by simplify_eq|done].
Qed.

Lemma builtin_mode custom r a m :
  KERNEL_RECOVERY_MODE_REGISTRY custom = Ok r → (a, m) ∈ _BUILTIN_MAPPINGS →
  RecoveryModeRegistry.get a r = Some m.
Proof.
  intros Hr Hm. apply (register_all_keeps custom _BUILTIN_MAPPINGS).
  - unfold KERNEL_RECOVERY_MODE_REGISTRY, register_all in *. rewrite fold_left_app in Hr. exact Hr.
  - repeat (apply elem_of_cons in Hm as [Hm|Hm]; [by simplify_eq|]). by apply elem_of_nil in Hm.
Qed.

(** The three literals of [RecoveryPlanAction]. *)
Definition plan_actions : list string := map fst _BUILTIN_MAPPINGS.

Definition literal_policy (policy : PlannerHeuristicPolicy) : Prop :=
  Forall (λ c, action_for_classification policy c ∈ plan_actions)
         [transient; fatal; human; unknown_reason].

Lemma literal_policy_action policy c :
  literal_policy policy → action_for_classification policy c ∈ plan_actions.
Proof. intros H. eapply Forall_forall in H; [exact H|]. destruct c; set_solver. Qed.

(** Which of its references a choice carries. *)
Record choice_ok (policy : PlannerHeuristicPolicy) (ch : string * option string * option string)
    : Prop := {
  choice_channel : ch.2 = if decide (ch.1.1 = "notify_human_operator")
                          then Some (default_escalation_channel_ref policy) else None;
  choice_compensation : ch.1.1 ≠ "schedule_compensation" → ch.1.2 = None
}.

Lemma plan_choice_ok policy i : choice_ok policy (plan_choice policy i).
Proof.
  unfold plan_choice. repeat (case_decide || case_match); split; simpl; try done.
  all: try (by rewrite decide_False by congruence); try (by rewrite decide_True).
Qed.

Lemma plan_choice_literal policy i :
  literal_policy policy → (plan_choice policy i).1.1 ∈ plan_actions.
Proof.
  intros Hp. pose proof (literal_policy_action policy
    (classify_reason policy (normalize_reason (ri_reason_code i))) Hp) as Hc.
  unfold plan_choice. repeat (case_decide || case_match); simpl; try exact Hc.
  all: unfold plan_actions; set_solver.
Qed.

(** The decision that carries a plan out under a mode. *)
Definition decision_of_plan (p : RecoveryPlan) (mode : string) (corrected : option Action)
    (retry_after_ms : option Z) (failure_count : Z) : RecoveryDecision := {|
  rd_run_id := rp_run_id p; rd_mode := mode; rd_reason := rp_reason p;
  rd_compensation_action_id := rp_compensation_action_id p;
  rd_escalation_channel_ref := rp_escalation_channel_ref p;
  rd_corrected_action := corrected; rd_retry_after_ms := retry_after_ms;
  rd_failure_count := failure_count |}.

(** ** Properties *)

(** Plans and decisions translate into each other without loss.  Under a
    policy with the three literal actions, planning fails exactly when the
    envelope and its projection belong to different runs (with ValueError);
    otherwise the catalogue, whatever custom modes were added to it, has a
    built-in mode for the plan's action, and reading the resulting decision
    back with [build_plan] gives the same plan.  A projection that already
    carries one of the three modes is planned under that very mode. *)
Theorem recovery_plan_round_trip policy i custom registry :
  literal_policy policy → KERNEL_RECOVERY_MODE_REGISTRY custom = Ok registry →
  match build_plan_from_input policy i with
  | Raise e => ri_run_id i ≠ pj_run_id (ri_projection i) ∧ exn_cls e = ValueError
  | Ok p =>
      ri_run_id i = pj_run_id (ri_projection i) ∧
      ∃ mode,
        RecoveryModeRegistry.get (rp_action p) registry = Some mode ∧
        mode ∈ ["static_compensation"; "human_escalation"; "abort"] ∧
        (∀ corrected retry n,
           build_plan (decision_of_plan p mode corrected retry n) (ri_projection i) = Ok p) ∧
        (∀ m, pj_recovery_mode (ri_projection i) = Some m →
           m ∈ ["static_compensation"; "human_escalation"; "abort"] → mode = m)
  end.
Proof.
  intros Hp Hr. unfold build_plan_from_input. destruct (decide (ri_run_id i ≠ pj_run_id (ri_projection i)))
    as [Hid|Hid%dec_stable]; [done|].
  pose proof (plan_choice_ok policy i) as [Hch Hco]. pose proof (plan_choice_literal policy i Hp) as Hl.
  assert (∀ m, pj_recovery_mode (ri_projection i) = Some m →
    (m = "human_escalation" → (plan_choice policy i).1.1 = "notify_human_operator") ∧
    (m = "static_compensation" → (plan_choice policy i).1.1 = "schedule_compensation") ∧
    (m = "abort" → (plan_choice policy i).1.1 = "abort_run")) as Hm.
  { intros m Hm. unfold plan_choice. rewrite Hm.
    repeat case_decide; simpl; split_and!; intros ?; congruence. }
  destruct (plan_choice policy i) as [[a comp] chan]. simpl in *. split; [done|].
  apply list_elem_of_fmap in Hl as ([a' m] & -> & Hin). exists m. simpl in *.
  split; [by eapply builtin_mode|].
  repeat (apply elem_of_cons in Hin as [Hin|Hin]; [injection Hin as -> ->|]);
    [..|by apply elem_of_nil in Hin]; (split; [set_solver|]); split.
  all: try (intros ???; unfold build_plan, decision_of_plan; simpl;
    rewrite decide_False by (intros H; by apply H); simpl in *; subst chan;
    try rewrite Hco by done; done).
  all: intros m' Hm' Hin'; destruct (Hm m' Hm') as (H1 & H2 & H3); set_solver.
Qed.

(** No mode of the three that override the heuristics. *)
Definition no_explicit_mode (i : RecoveryInput) : Prop :=
  pj_recovery_mode (ri_projection i) ∉
    [Some "human_escalation"; Some "static_compensation"; Some "abort"].

(** The reason, normalised, starts with one of the prefixes. *)
Definition reason_has (prefixes : list string) (i : RecoveryInput) : Prop :=
  Exists (λ p, py_startswith (normalize_reason (ri_reason_code i)) p = true) prefixes.

Lemma has_prefix_spec i prefixes :
  _has_prefix (normalize_reason (ri_reason_code i)) prefixes = true ↔ reason_has prefixes i.
Proof.
  unfold _has_prefix, reason_has. rewrite existsb_exists, Exists_exists.
  setoid_rewrite <- list_elem_of_In. done.
Qed.

Lemma classify_normalized policy s :
  classify_reason policy (normalize_reason s) = classify_reason policy s.
Proof. unfold classify_reason. by rewrite normalize_reason_idemp. Qed.

Lemma classify_spec policy i :
  match classify_reason policy (ri_reason_code i) with
  | human => reason_has (human_reason_prefixes policy) i
  | fatal => ¬ reason_has (human_reason_prefixes policy) i ∧
      reason_has (fatal_reason_prefixes policy ++ abort_reason_prefixes policy) i
  | transient | unknown_reason => ¬ reason_has (human_reason_prefixes policy) i ∧
      ¬ reason_has (fatal_reason_prefixes policy ++ abort_reason_prefixes policy) i
  end.
Proof.
  pose proof (has_prefix_spec i (human_reason_prefixes policy)) as Hh.
  pose proof (has_prefix_spec i (fatal_reason_prefixes policy ++ abort_reason_prefixes policy)) as Hf.
  unfold classify_reason.
  destruct (_has_prefix _ (human_reason_prefixes policy)); [by apply Hh|].
  destruct (_has_prefix _ (_ ++ _)); [naive_solver|]. destruct (_has_prefix _ _); naive_solver.
Qed.

(** The default policy's choice, with the prefixes as propositions. *)
#[local] Instance reason_has_dec prefixes i : Decision (reason_has prefixes i).
Proof. unfold reason_has. apply _. Defined.

Definition default_choice (i : RecoveryInput) : string * option string * option string :=
  let P := default_planner_policy in
  let mode := pj_recovery_mode (ri_projection i) in
  let channel := Some (default_escalation_channel_ref P) in
  let candidate := str_or (ri_failed_action_id i) (pj_current_action_id (ri_projection i)) in
  if decide (mode = Some "human_escalation") then ("notify_human_operator", None, channel)
  else if decide (mode = Some "static_compensation") then ("schedule_compensation", candidate, None)
  else if decide (mode = Some "abort") then ("abort_run", None, None)
  else if decide (ri_lifecycle_state i = waiting_external ∨ reason_has (human_reason_prefixes P) i)
  then ("notify_human_operator", None, channel)
  else if decide (reason_has (fatal_reason_prefixes P) i) then ("abort_run", None, None)
  else match candidate with
       | Some cid => ("schedule_compensation", Some cid, None)
       | None => ("abort_run", None, None)
       end.

Lemma plan_choice_default i : plan_choice default_planner_policy i = default_choice i.
Proof.
  unfold plan_choice, default_choice. rewrite classify_normalized.
  pose proof (classify_spec default_planner_policy i) as Hc. cbv zeta.
  rewrite (eq_refl : fatal_reason_prefixes default_planner_policy ++
    abort_reason_prefixes default_planner_policy = fatal_reason_prefixes default_planner_policy) in Hc.
  destruct (classify_reason _ _); simpl action_for_classification;
    repeat case_decide; try naive_solver.
Qed.

(** What the default policy plans.  A run is escalated to a human exactly
    when its projection says so or, without such a hint, when it waits for an
    external party or the reason has a human prefix; it is compensated exactly
    when the projection says so or, without a hint, when the reason is neither
    human nor fatal and an action to compensate is known; every other run is
    aborted.  Case and surrounding whitespace of the reason never matter. *)
Theorem recovery_plan_default i :
  ri_run_id i = pj_run_id (ri_projection i) →
  let P := default_planner_policy in
  let mode := pj_recovery_mode (ri_projection i) in
  let candidate := str_or (ri_failed_action_id i) (pj_current_action_id (ri_projection i)) in
  ∃ p, build_plan_from_input P i = Ok p ∧
    (rp_action p = "notify_human_operator" ↔
       mode = Some "human_escalation" ∨
       no_explicit_mode i ∧ (ri_lifecycle_state i = waiting_external ∨
                             reason_has (human_reason_prefixes P) i)) ∧
    (rp_action p = "schedule_compensation" ↔
       mode = Some "static_compensation" ∨
       no_explicit_mode i ∧ ri_lifecycle_state i ≠ waiting_external ∧
       ¬ reason_has (human_reason_prefixes P) i ∧ ¬ reason_has (fatal_reason_prefixes P) i ∧
       is_Some candidate) ∧
    (rp_action p = "schedule_compensation" → rp_compensation_action_id p = candidate) ∧
    (rp_action p ∉ ["notify_human_operator"; "schedule_compensation"] →
       rp_action p = "abort_run") ∧
    ∀ i', normalize_reason (ri_reason_code i') = normalize_reason (ri_reason_code i) →
      ri_projection i' = ri_projection i → ri_lifecycle_state i' = ri_lifecycle_state i →
      ri_failed_action_id i' = ri_failed_action_id i →
      plan_choice P i' = plan_choice P i.
Proof.
  intros Hid P mode candidate. unfold build_plan_from_input.
  rewrite decide_False by (intros H; by apply H).
  destruct (plan_choice P i) as [[a comp] chan] eqn:Hch.
  eexists. split; [done|]. cbn [rp_action rp_compensation_action_id].
  assert (∀ i', normalize_reason (ri_reason_code i') = normalize_reason (ri_reason_code i) →
      ri_projection i' = ri_projection i → ri_lifecycle_state i' = ri_lifecycle_state i →
      ri_failed_action_id i' = ri_failed_action_id i →
      plan_choice P i' = (a, comp, chan)) as Hinv.
  { intros i' H1 H2 H3 H4. rewrite <- Hch. unfold plan_choice. by rewrite H1, H2, H3, H4. }
  cut ((a, comp, chan) = default_choice i); [|by rewrite <- Hch, plan_choice_default].
  clear Hch. unfold default_choice. fold mode candidate. unfold no_explicit_mode. fold mode.
  rewrite !not_elem_of_cons.
  repeat case_decide; try case_match; intros [= -> -> ->];
    (split; [|split; [|split; [|split; [|exact Hinv]]]]); set_solver.
Qed.

(** ** Instances *)
Definition example_projection : RunProjection := {|
  pj_run_id := "run-1"; pj_lifecycle_state := dispatching; pj_projected_offset := 4;
  pj_waiting_external := false; pj_ready_for_dispatch := true;
  pj_current_action_id := Some "a1"; pj_recovery_mode := None; pj_recovery_reason := None;
  pj_active_child_runs := []; pj_policy_versions := None; pj_task_contract_ref := None |}.

Definition example_input (reason_code : string) : RecoveryInput := {|
  ri_run_id := "run-1"; ri_reason_code := reason_code; ri_lifecycle_state := dispatching;
  ri_projection := example_projection; ri_failed_action_id := None; ri_reflection_round := 0;
  ri_capability_snapshot := None; ri_failed_effect_class := Some "compensatable_write" |}.

Lemma recovery_plan_round_trip_witness :
  ∃ registry p mode,
    KERNEL_RECOVERY_MODE_REGISTRY [("auto_rollback", "my_custom_rollback")] = Ok registry ∧
    build_plan_from_input default_planner_policy (example_input "Transient_io") = Ok p ∧
    RecoveryModeRegistry.get (rp_action p) registry = Some mode ∧
    build_plan (decision_of_plan p mode None None 1) example_projection = Ok p.
Proof.
  assert (literal_policy default_planner_policy) as Hl.
  { unfold literal_policy, plan_actions. repeat constructor; simpl; set_solver. }
  destruct (KERNEL_RECOVERY_MODE_REGISTRY [("auto_rollback", "my_custom_rollback")])
    as [registry|] eqn:Hr; [|discriminate Hr].
  pose proof (recovery_plan_round_trip default_planner_policy (example_input "Transient_io")
    _ registry Hl Hr) as H.
  destruct (build_plan_from_input _ _) as [p|] eqn:Hp; [|by destruct H as [[] _]].
  destruct H as (_ & mode & Hm & _ & Hb & _).
  exists registry, p, mode. split; [done|]. split; [done|]. split; [done|]. apply Hb.
Defined.

Lemma recovery_plan_default_witness :
  ∃ p, build_plan_from_input default_planner_policy (example_input " FATAL: disk") = Ok p ∧
    rp_action p ≠ "schedule_compensation".
Proof.
  destruct (recovery_plan_default (example_input " FATAL: disk") eq_refl)
    as (p & Hp & _ & Hs & _).
  exists p. split; [exact Hp|]. intros [Hm|(_ & _ & _ & Hf & _)]%Hs; [discriminate Hm|].
  apply Hf. unfold reason_has. left. reflexivity.
Defined.
