(* ===== verification/RunActor.v ===== *)
(** * The run actor ([substrate/temporal/run_actor_workflow.py],
      [kernel/peer_auth.py])

    The workflow that owns one run: it takes signals, appends them to the
    event log, takes at most one decision round per commit, runs the turn and
    appends its outcome, and consults the recovery gate.  Its collaborators
    are the event log and projection service, a decision deduper, the turn
    engine over its world, and the injected gate and stores; the Temporal SDK
    is a parameter.  Logging is left out. *)
From S2P Require Export Projection TurnPhases DecisionDeduper RecoveryPlanner.

(** ** Data *)
Record ActorSignal := {
  as_signal_type : string;
  as_signal_payload : option pydict;
  as_caused_by : option string;
  as_signal_token : option string;
  as_from_peer_run_id : option string
}.

Record RunInput := {
  rn_run_id : string;
  rn_session_id : option string;
  rn_parent_run_id : option string;
  rn_input_ref : option string;
  rn_input_json : option pydict;
  rn_runtime_context_ref : option string;
  rn_trace_context : option string;
  rn_pending_signals : option (list pydict);
  rn_policy_versions : option RunPolicyVersions;
  rn_initial_stage_id : option string;
  rn_task_contract_ref : option string
}.

(** [kernel/contracts.py] *)
Record RecoveryOutcome := {
  ro_run_id : string;
  ro_action_id : option string;
  ro_recovery_mode : string;
  ro_outcome_state : string;
  ro_written_at : string;
  ro_operator_escalation_ref : option string;
  ro_emitted_event_ids : list string
}.

Record TurnIntentRecord := {
  tn_run_id : string;
  tn_intent_commit_ref : string;
  tn_decision_ref : string;
  tn_decision_fingerprint : string;
  tn_dispatch_dedupe_key : option string;
  tn_host_kind : option HostKind;
  tn_outcome_kind : TurnOutcomeKind;
  tn_written_at : string;
  tn_reflection_round : Z
}.

(** ** Pure helpers *)
Definition _SIGNAL_EVENT_TYPE_MAP : odict string :=
  [ ("resume_from_snapshot", "run.resume_requested");
    ("cancel_requested", "run.cancel_requested");
    ("hard_failure", "run.recovery_aborted");
    ("timeout", "run.waiting_external");
    ("recovery_succeeded", "run.recovery_succeeded");
    ("recovery_aborted", "run.recovery_aborted");
    ("plan_submitted", "run.plan_submitted");
    ("approval_submitted", "run.approval_submitted");
    ("speculation_committed", "run.speculation_committed");
    ("child_run_completed", "run.child_run_completed") ].

Definition _signal_event_type (signal_type : string) : string :=
  match od_get signal_type _SIGNAL_EVENT_TYPE_MAP with
  | Some mapped_event_type => mapped_event_type
  | None => "signal." +:+ signal_type
  end.

Definition _normalize_signal_payload (signal_type : string) (signal_payload : option pydict)
    : option pydict :=
  let normalized_payload := default [] signal_payload in
  let normalized_payload :=
    if decide (signal_type = "cancel_requested") then
      py_setdefault "reason" (PStr "cancel_requested") normalized_payload
    else if decide (signal_type = "hard_failure") then
      py_setdefault "reason" (PStr "hard_failure")
        (py_setdefault "mode" (PStr "abort") normalized_payload)
    else if decide (signal_type = "timeout") then
      py_setdefault "reason" (PStr "timeout")
        (py_setdefault "mode" (PStr "human_escalation") normalized_payload)
    else normalized_payload in
  match normalized_payload with [] => None | _ => Some normalized_payload end.

Definition outcome_kind_str (k : TurnOutcomeKind) : string :=
  match k with
  | out_noop => "noop"
  | out_blocked => "blocked"
  | out_dispatched => "dispatched"
  | out_recovery_pending => "recovery_pending"
  end.

(** The argument is one of the four literals: the [ValueError] for any other
    string cannot be reached. *)
Definition _turn_outcome_event_type (k : TurnOutcomeKind) : string :=
  match k with
  | out_dispatched => "run.dispatching"
  | out_recovery_pending => "run.recovering"
  | out_blocked | out_noop => "run.ready"
  end.

Definition _recovery_event_type (mode : string) : string :=
  if decide (mode = "abort") then "run.recovery_aborted"
  else if decide (mode = "human_escalation") then "run.waiting_external"
  else "run.recovering".

Definition _recovery_outcome_state (mode : string) : string :=
  if decide (mode = "abort") then "aborted"
  else if decide (mode = "human_escalation") then "escalated"
  else "executed".

Definition _workflow_id_for_parent_run (parent_run_id workflow_id_prefix : string) : string :=
  let prefix := workflow_id_prefix +:+ ":" in
  if py_startswith parent_run_id prefix then parent_run_id else prefix +:+ parent_run_id.

(** ** Turn outcome payloads *)
Definition opt_pystr (k : string) (o : option string) : pydict :=
  match o with Some v => [(k, PStr v)] | None => [] end.

Definition idempotency_level_str (l : ExternalIdempotencyLevel) : string :=
  match l with guaranteed => "guaranteed" | best_effort => "best_effort" | unknown_level => "unknown" end.
Definition retry_policy_str (p : DefaultRetryPolicy) : string :=
  match p with no_auto_retry => "no_auto_retry" | bounded_retry => "bounded_retry" end.
Definition evidence_source_str (s : FailureEvidenceSource) : string :=
  match s with
  | src_external_ack_ref => "external_ack_ref"
  | src_evidence_ref => "evidence_ref"
  | src_local_inference => "local_inference"
  | src_none => "none"
  end.

Definition _build_remote_policy_decision_payload (r : TurnResult) : option pydict :=
  d ← tr_remote_policy_decision r;
  Some [ ("effective_idempotency_level",
           PStr (idempotency_level_str (rp_effective_idempotency_level d)));
         ("default_retry_policy", PStr (retry_policy_str (rp_default_retry_policy d)));
         ("auto_retry_enabled", PBool (rp_auto_retry_enabled d));
         ("can_claim_guaranteed", PBool (rp_can_claim_guaranteed d));
         ("reason", PStr (HostPolicy.rp_reason d)) ].

Definition _extract_turn_emitted_states (emitted_events : list TurnStateEvent) : list string :=
  filter (λ st, st ≠ "") (map tse_state emitted_events).

Definition _build_recovery_input_payload (r : TurnResult) : pydict :=
  match tr_recovery_input r with
  | None => []
  | Some i =>
      [ ("failure_code", PStr (fe_failure_code i));
        ("failed_stage", PStr (fe_failed_stage i));
        ("failed_component", PStr (fe_failed_component i));
        ("failure_class", PStr (fe_failure_class i));
        ("evidence_priority_source", PStr (evidence_source_str (fe_evidence_priority_source i)));
        ("evidence_priority_ref", opt_str (fe_evidence_priority_ref i)) ]
  end.

(** The keys are distinct, so that assigning them in turn appends them. *)
Definition _build_turn_outcome_payload (r : TurnResult) : pydict :=
  [ ("state", PStr (turn_state_str (tr_state r)));
    ("outcome_kind", PStr (outcome_kind_str (tr_outcome_kind r)));
    ("decision_ref", PStr (tr_decision_ref r));
    ("decision_fingerprint", PStr (tr_decision_fingerprint r)) ]
  ++ opt_pystr "intent_commit_ref" (tr_intent_commit_ref r)
  ++ opt_pystr "dispatch_dedupe_key" (tr_dispatch_dedupe_key r)
  ++ opt_pystr "host_kind" (host_kind_str <$> tr_host_kind r)
  ++ match _build_remote_policy_decision_payload r with
     | Some d => [("remote_policy_decision", PDict d)]
     | None => []
     end
  ++ match _extract_turn_emitted_states (tr_emitted_events r) with
     | [] => []
     | sts => [("emitted_states", PList (map PStr sts))]
     end
  ++ match tr_action_commit r with Some d => [("action_commit", PDict d)] | None => [] end
  ++ match tr_recovery_input r with
     | Some _ => [("recovery_input", PDict (_build_recovery_input_payload r))]
     | None => []
     end.

(** ** Guards *)
Definition _assert_no_derived_diagnostic_authority_input (commit : ActionCommit) : outcome unit :=
  if existsb (λ e, bool_decide (ev_event_authority e = derived_diagnostic)) (cm_events commit)
  then Raise (Exn ValueError
                "derived_diagnostic events must not enter authority input path.")
  else Ok tt.

Definition _assert_single_dispatch_attempt_in_turn (r : TurnResult) : outcome unit :=
  if 1 <? length (filter (λ e, tse_state e = "dispatched") (tr_emitted_events r))
  then Raise (Exn RuntimeError
                "Single turn must not contain multiple authoritative dispatch attempts.")
  else Ok tt.

Definition read_only_error : exn :=
  Exn RuntimeError "Recovery gate must be read-only and cannot append runtime events directly.".

Definition _assert_recovery_gate_is_read_only (before_offset after_offset : Z) : outcome unit :=
  if decide (after_offset ≠ before_offset) then Raise read_only_error else Ok tt.

Definition _assert_recovery_event_type_allowed (event_type : string) : outcome unit :=
  if decide (event_type ∉ ["run.recovering"; "run.waiting_external"; "run.recovery_aborted"])
  then Raise (Exn RuntimeError
                ("Recovery event type is not allowed for lifecycle safety: " +:+ event_type))
  else Ok tt.

(** [commit.events[-1]]. *)
Definition last_event (commit : ActionCommit) : outcome RuntimeEvent :=
  match last (cm_events commit) with
  | Some e => Ok e
  | None => Raise (Exn (OtherError "IndexError") "list index out of range")
  end.

(** ** Peer authorisation *)
Definition is_peer_run_authorized (peer_run_id : string) (snapshot : CapabilitySnapshot)
    (active_child_runs : list string) : bool :=
  match cs_peer_run_bindings snapshot with
  | [] => bool_decide (peer_run_id ∈ active_child_runs)
  | bindings => bool_decide (peer_run_id ∈ bindings)
  end.

(** ** Commits *)

(** [RuntimeEvent(...)] with the fields the actor sets; the rest default. *)
Definition actor_event (run_id event_id event_type : string) (offset : Z) (fact : bool)
    (wake_policy : string) (idempotency_key : option string) (payload_json : option pydict)
    (created_at : string) : RuntimeEvent :=
  {| ev_run_id := run_id;
     ev_event_id := event_id;
     ev_commit_offset := offset;
     ev_event_type := event_type;
     ev_event_class := if fact then "fact" else "derived";
     ev_event_authority := if fact then authoritative_fact else derived_diagnostic;
     ev_ordering_key := run_id;
     ev_wake_policy := wake_policy;
     ev_created_at := created_at;
     ev_idempotency_key := idempotency_key;
     ev_payload_ref := None;
     ev_payload_json := payload_json;
     ev_schema_version := "1" |}.

Definition actor_commit (run_id commit_id : string) (caused_by : option string)
    (created_at : string) (events : list RuntimeEvent) : ActionCommit :=
  {| cm_run_id := run_id; cm_commit_id := commit_id; cm_events := events;
     cm_created_at := created_at; cm_action := None; cm_caused_by := caused_by |}.

Definition pinned_commit (run_id : string) (pv : RunPolicyVersions) (t1 t2 : string)
    : ActionCommit :=
  actor_commit run_id ("policy-versions-pinned:" +:+ run_id) (Some "run.start") t1
    [ actor_event run_id ("evt-policy-pinned-" +:+ run_id) "run.policy_versions_pinned" 0 true
        "projection_only" None
        (Some [ ("route_policy_version", opt_str (route_policy_version pv));
                ("skill_policy_version", opt_str (skill_policy_version pv));
                ("evaluation_policy_version", opt_str (evaluation_policy_version pv));
                ("task_view_policy_version", opt_str (task_view_policy_version pv));
                ("pinned_at", PStr (pinned_at pv)) ]) t2 ].

Definition signal_commit (run_id : string) (i : ActorSignal) (sequence next_offset : Z)
    (t1 t2 : string) : ActionCommit :=
  let dedupe_token := default ("seq-" +:+ pretty sequence) (str_or (as_caused_by i) None) in
  actor_commit run_id ("signal:" +:+ as_signal_type i +:+ ":" +:+ dedupe_token) (as_caused_by i) t1
    [ actor_event run_id ("evt-signal-" +:+ pretty sequence) (_signal_event_type (as_signal_type i))
        next_offset true "wake_actor" None
        (_normalize_signal_payload (as_signal_type i) (as_signal_payload i)) t2 ].

Definition turn_outcome_commit (run_id : string) (offset : Z) (r : TurnResult)
    (caused_by : option string) (t1 t2 : string) : ActionCommit :=
  actor_commit run_id
    ("turn:" +:+ outcome_kind_str (tr_outcome_kind r) +:+ ":" +:+ pretty offset) caused_by t2
    [ actor_event run_id
        ("evt-turn-" +:+ outcome_kind_str (tr_outcome_kind r) +:+ "-" +:+ pretty offset)
        (_turn_outcome_event_type (tr_outcome_kind r)) offset true "wake_actor"
        (Some (tr_decision_fingerprint r)) (Some (_build_turn_outcome_payload r)) t1 ].

Definition recovery_event_ids (offset : Z) : list string :=
  [ "evt-recovery-plan-" +:+ pretty offset; "evt-recovery-" +:+ pretty offset ].

Definition recovery_commit (run_id : string) (offset : Z) (d : RecoveryDecision)
    (caused_by : option string) (t1 t2 t3 : string) : ActionCommit :=
  let event_type := _recovery_event_type (rd_mode d) in
  actor_commit run_id ("recovery:" +:+ event_type +:+ ":" +:+ pretty offset) caused_by t1
    [ actor_event run_id ("evt-recovery-plan-" +:+ pretty offset) "recovery.plan_selected" offset
        false "projection_only" None
        (Some [ ("planned_mode", PStr (rd_mode d));
                ("reason", PStr (rd_reason d));
                ("compensation_action_id", opt_str (rd_compensation_action_id d));
                ("escalation_channel_ref", opt_str (rd_escalation_channel_ref d)) ]) t2;
      actor_event run_id ("evt-recovery-" +:+ pretty offset) event_type (offset + 1) true
        "wake_actor" None
        (Some [ ("mode", PStr (rd_mode d)); ("reason", PStr (rd_reason d)) ]) t3 ].

(** ** The actor *)

(** What the workflow instance keeps in memory. [lc_continued] is the input
    that a raised [ContinueAsNewError] carries. *)
Record locals := {
  _run_id : option string;
  _session_id : option string;
  _parent_run_id : option string;
  _policy_versions : option RunPolicyVersions;
  _active_stage_id : option string;
  _last_snapshot : option CapabilitySnapshot;
  _last_projection : option RunProjection;
  _pending_signals : list ActorSignal;
  _signal_sequence : Z;
  _seen_signal_tokens : gset string;
  _history_event_count : Z;
  lc_continued : option RunInput
}.

(** The fields a new instance starts with. *)
Definition new_locals : locals :=
  {| _run_id := None; _session_id := None; _parent_run_id := None; _policy_versions := None;
     _active_stage_id := None; _last_snapshot := None; _last_projection := None;
     _pending_signals := []; _signal_sequence := 0; _seen_signal_tokens := ∅;
     _history_event_count := 0; lc_continued := None |}.

Definition start_locals (i : RunInput) (l : locals) : locals :=
  {| _run_id := Some (rn_run_id i); _session_id := rn_session_id i;
     _parent_run_id := rn_parent_run_id i; _policy_versions := rn_policy_versions i;
     _active_stage_id := rn_initial_stage_id i; _last_snapshot := _last_snapshot l;
     _last_projection := _last_projection l; _pending_signals := _pending_signals l;
     _signal_sequence := _signal_sequence l; _seen_signal_tokens := _seen_signal_tokens l;
     _history_event_count := _history_event_count l; lc_continued := lc_continued l |}.

(** Assignments to the fields the handlers write. *)
Definition set_signals (pending : list ActorSignal) (sequence : Z) (tokens : gset string)
    (count : Z) (l : locals) : locals :=
  {| _run_id := _run_id l; _session_id := _session_id l; _parent_run_id := _parent_run_id l;
     _policy_versions := _policy_versions l; _active_stage_id := _active_stage_id l;
     _last_snapshot := _last_snapshot l; _last_projection := _last_projection l;
     _pending_signals := pending; _signal_sequence := sequence; _seen_signal_tokens := tokens;
     _history_event_count := count; lc_continued := lc_continued l |}.
Definition set_pending p l :=
  set_signals p (_signal_sequence l) (_seen_signal_tokens l) (_history_event_count l) l.
Definition next_sequence l :=
  set_signals (_pending_signals l) (_signal_sequence l + 1) (_seen_signal_tokens l)
    (_history_event_count l) l.
Definition add_token t l :=
  set_signals (_pending_signals l) (_signal_sequence l) ({[t]} ∪ _seen_signal_tokens l)
    (_history_event_count l) l.
Definition count_round l :=
  set_signals (_pending_signals l) (_signal_sequence l) (_seen_signal_tokens l)
    (_history_event_count l + 1) l.

Definition set_projection (p : RunProjection) (l : locals) : locals :=
  {| _run_id := _run_id l; _session_id := _session_id l; _parent_run_id := _parent_run_id l;
     _policy_versions := _policy_versions l; _active_stage_id := _active_stage_id l;
     _last_snapshot := _last_snapshot l; _last_projection := Some p;
     _pending_signals := _pending_signals l; _signal_sequence := _signal_sequence l;
     _seen_signal_tokens := _seen_signal_tokens l;
     _history_event_count := _history_event_count l; lc_continued := lc_continued l |}.
Definition set_continued (i : RunInput) (l : locals) : locals :=
  {| _run_id := _run_id l; _session_id := _session_id l; _parent_run_id := _parent_run_id l;
     _policy_versions := _policy_versions l; _active_stage_id := _active_stage_id l;
     _last_snapshot := _last_snapshot l; _last_projection := _last_projection l;
     _pending_signals := _pending_signals l; _signal_sequence := _signal_sequence l;
     _seen_signal_tokens := _seen_signal_tokens l;
     _history_event_count := _history_event_count l; lc_continued := Some i |}.

(** The constructor of [ActorSignal] on the keyword arguments [raw], and the
    dictionary [_trigger_continue_as_new] makes; a value of another type than
    the field's leaves the model. *)
Definition opt_dict (o : option pydict) : pyval :=
  match o with Some d => PDict d | None => PNone end.

Definition signal_kwargs (s : ActorSignal) : pydict :=
  [ ("signal_type", PStr (as_signal_type s));
    ("signal_payload", opt_dict (as_signal_payload s));
    ("caused_by", opt_str (as_caused_by s));
    ("signal_token", opt_str (as_signal_token s));
    ("from_peer_run_id", opt_str (as_from_peer_run_id s)) ].

Definition kwarg_str (v : pyval) : outcome (option string) :=
  match v with
  | PStr s => Ok (Some s)
  | PNone => Ok None
  | _ => Raise (Exn Unmodelled "a field of another type")
  end.
Definition kwarg_dict (v : pyval) : outcome (option pydict) :=
  match v with
  | PDict d => Ok (Some d)
  | PNone => Ok None
  | _ => Raise (Exn Unmodelled "a field of another type")
  end.

Definition actor_signal_of_kwargs (raw : pydict) : outcome ActorSignal :=
  if existsb (λ k, negb (bool_decide (k ∈ map fst (signal_kwargs
                {| as_signal_type := ""; as_signal_payload := None; as_caused_by := None;
                   as_signal_token := None; as_from_peer_run_id := None |})))) (map fst raw)
  then Raise (Exn TypeError "ActorSignal.__init__() got an unexpected keyword argument")
  else if negb (py_in "signal_type" raw)
  then Raise (Exn TypeError
         "ActorSignal.__init__() missing 1 required positional argument: 'signal_type'")
  else
    signal_type ← kwarg_str (py_get "signal_type" raw);
    signal_payload ← kwarg_dict (py_get "signal_payload" raw);
    caused_by ← kwarg_str (py_get "caused_by" raw);
    signal_token ← kwarg_str (py_get "signal_token" raw);
    from_peer_run_id ← kwarg_str (py_get "from_peer_run_id" raw);
    match signal_type with
    | None => Raise (Exn Unmodelled "a field of another type")
    | Some signal_type =>
        Ok {| as_signal_type := signal_type; as_signal_payload := signal_payload;
              as_caused_by := caused_by; as_signal_token := signal_token;
              as_from_peer_run_id := from_peer_run_id |}
    end.

(** The stores the actor shares with the rest of the kernel: the projection
    service with the event log it reads, and the turn engine's world. *)
Record services (L S E : Type) := Services {
  sv_projection : projection_service L;
  sv_world : world S E
}.
Arguments Services {L S E}.
Arguments sv_projection {L S E}.
Arguments sv_world {L S E}.

Record actor (L D S E : Type) := Actor {
  ac_services : services L S E;
  ac_deduper : D;
  ac_locals : locals
}.
Arguments Actor {L D S E}.
Arguments ac_services {L D S E}.
Arguments ac_deduper {L D S E}.
Arguments ac_locals {L D S E}.

(** The Temporal SDK inside a workflow: [wait_condition], during which other
    handlers run, the signal to another workflow, and [TemporalError]. *)
Record temporal_sdk (A E : Type) := {
  tp_wait_condition : option ((A → bool) → M A unit);
  tp_signal_workflow : string → pydict → M E unit;
  tp_is_temporal_error : exn → bool
}.
Arguments tp_wait_condition {A E}.
Arguments tp_signal_workflow {A E}.
Arguments tp_is_temporal_error {A E}.

(** The bundle and settings: the gate may touch every service, as the guard
    around it allows for; the other collaborators keep to their own
    environment; the clock may move at each reading.  [dp_temporal] is [None]
    outside a Temporal workflow. *)
Record RunActorDependencyBundle (L D S E : Type) := {
  dp_projection : projection_config;
  dp_turn_engine : TurnEngine E;
  dp_recovery_decide : RecoveryInput → M (services L S E) RecoveryDecision;
  dp_on_action_success : option (EffectClass → M E unit);
  dp_recovery_outcomes : option (RecoveryOutcome → M E unit);
  dp_turn_intent_log : option (TurnIntentRecord → M E unit);
  dp_utc_now : E → string * E;
  dp_history_event_threshold : Z;
  dp_workflow_id_prefix : string;
  dp_temporal : option (temporal_sdk (actor L D S E) E)
}.
Arguments dp_projection {L D S E}.
Arguments dp_turn_engine {L D S E}.
Arguments dp_recovery_decide {L D S E}.
Arguments dp_on_action_success {L D S E}.
Arguments dp_recovery_outcomes {L D S E}.
Arguments dp_turn_intent_log {L D S E}.
Arguments dp_utc_now {L D S E}.
Arguments dp_history_event_threshold {L D S E}.
Arguments dp_workflow_id_prefix {L D S E}.
Arguments dp_temporal {L D S E}.

Section handlers.
Context {L D S E : Type} `{EventLogPort L} `{DecisionDeduperPort D} `{DedupeStorePort S}.
Context (deps : RunActorDependencyBundle L D S E).

Definition on_services {A} (m : M (services L S E) A) : M (actor L D S E) A :=
  zoom ac_services (λ sv a, Actor sv (ac_deduper a) (ac_locals a)) m.
Definition on_deduper {A} (m : M D A) : M (actor L D S E) A :=
  zoom ac_deduper (λ d a, Actor (ac_services a) d (ac_locals a)) m.
Definition on_locals {A} (m : M locals A) : M (actor L D S E) A :=
  zoom ac_locals (λ l a, Actor (ac_services a) (ac_deduper a) l) m.

Definition sv_on_projection {A} (m : M (projection_service L) A) : M (services L S E) A :=
  zoom sv_projection (λ p sv, Services p (sv_world sv)) m.
Definition sv_on_world {A} (m : M (world S E) A) : M (services L S E) A :=
  zoom sv_world (λ w sv, Services (sv_projection sv) w) m.
Definition sv_on_env {A} (m : M E A) : M (services L S E) A := sv_on_world (on_env m).
Definition sv_append (c : ActionCommit) : M (services L S E) string :=
  sv_on_projection (on_log (el_append c)).

Definition _utc_now_iso : M (services L S E) string :=
  sv_on_env (λ e, let '(t, e') := dp_utc_now deps e in (Ok t, e')).

Definition _latest_run_offset (run_id : string) : M (services L S E) Z :=
  events ← sv_on_projection (on_log (el_load run_id 0));
  mret (match events with
        | [] => 0%Z
        | e :: events' => fold_left Z.max (map ev_commit_offset events') (ev_commit_offset e)
        end).

(** An optional collaborator. *)
Definition optional {A} (port : option (A → M E unit)) (a : A) : M (services L S E) unit :=
  match port with Some f => sv_on_env (f a) | None => mret tt end.

(** *** Appending outcomes *)
Definition _append_turn_outcome_commit (run_id : string) (offset : Z) (r : TurnResult)
    (caused_by : option string) : M (services L S E) Z :=
  t1 ← _utc_now_iso;
  (match dp_turn_intent_log deps, tr_intent_commit_ref r with
   | Some _, Some intent_commit_ref =>
       t ← _utc_now_iso;
       optional (dp_turn_intent_log deps)
         {| tn_run_id := run_id; tn_intent_commit_ref := intent_commit_ref;
            tn_decision_ref := tr_decision_ref r;
            tn_decision_fingerprint := tr_decision_fingerprint r;
            tn_dispatch_dedupe_key := tr_dispatch_dedupe_key r; tn_host_kind := tr_host_kind r;
            tn_outcome_kind := tr_outcome_kind r; tn_written_at := t; tn_reflection_round := 0 |}
   | _, _ => mret tt
   end);;
  t2 ← _utc_now_iso;
  sv_append (turn_outcome_commit run_id offset r caused_by t1 t2);;
  mret (offset + 1)%Z.

Definition _append_recovery_event (run_id : string) (offset : Z) (d : RecoveryDecision)
    (caused_by : option string) : M (services L S E) Z :=
  lift (_assert_recovery_event_type_allowed (_recovery_event_type (rd_mode d)));;
  t1 ← _utc_now_iso;
  t2 ← _utc_now_iso;
  t3 ← _utc_now_iso;
  sv_append (recovery_commit run_id offset d caused_by t1 t2 t3);;
  (match dp_recovery_outcomes deps with
   | Some _ =>
       t ← _utc_now_iso;
       optional (dp_recovery_outcomes deps)
         {| ro_run_id := run_id; ro_action_id := caused_by; ro_recovery_mode := rd_mode d;
            ro_outcome_state := _recovery_outcome_state (rd_mode d); ro_written_at := t;
            ro_operator_escalation_ref := rd_escalation_channel_ref d;
            ro_emitted_event_ids := recovery_event_ids offset |}
   | None => mret tt
   end);;
  mret (offset + 2)%Z.

(** The gate between two readings of the run's latest offset, and its decision
    appended: the two places that consult it differ in the reason and offset. *)
Definition recover (run_id : string) (action : Action) (projection : RunProjection)
    (reason_code : string) (offset : Z) : M (services L S E) unit :=
  offset_before_recovery_decide ← _latest_run_offset run_id;
  recovery_decision ← dp_recovery_decide deps
    {| ri_run_id := run_id; ri_reason_code := reason_code;
       ri_lifecycle_state := pj_lifecycle_state projection; ri_projection := projection;
       ri_failed_action_id := Some (act_action_id action); ri_reflection_round := 0;
       ri_capability_snapshot := None;
       ri_failed_effect_class := Some (effect_class_str (act_effect_class action)) |};
  offset_after_recovery_decide ← _latest_run_offset run_id;
  lift (_assert_recovery_gate_is_read_only offset_before_recovery_decide
          offset_after_recovery_decide);;
  _append_recovery_event run_id offset recovery_decision (Some (act_action_id action));;
  mret tt.

(** *** One decision round

    [process_action_commit] up to the turn: the round is claimed or not. *)
Definition fingerprint_of (commit : ActionCommit) (last : RuntimeEvent) : string :=
  cm_run_id commit +:+ ":" +:+ cm_commit_id commit +:+ ":" +:+ pretty (ev_commit_offset last).

Definition claim_round (commit : ActionCommit)
    : M (actor L D S E) (option (RuntimeEvent * RunProjection)) :=
  lift (_assert_no_derived_diagnostic_authority_input commit);;
  last ← lift (last_event commit);
  projection ← on_services (sv_on_projection
    (catch_up (dp_projection deps) (cm_run_id commit) (ev_commit_offset last)));
  on_locals (modify (set_projection projection));;
  ready ← on_services (sv_on_projection
    (readiness (dp_projection deps) (cm_run_id commit) (ev_commit_offset last)));
  if negb ready then mret None
  else
    seen ← on_deduper (dd_seen (fingerprint_of commit last));
    if (seen : bool) then mret None
    else
      on_deduper (dd_mark (fingerprint_of commit last));;
      mret (Some (last, projection)).

(** From the turn on. *)
Definition turn_input (run_id : string) (offset : Z) : TurnInput :=
  {| ti_run_id := run_id; ti_through_offset := offset; ti_based_on_offset := offset;
     ti_trigger_type := trig_signal; ti_history := [] |}.

(** The turn outcome; where it cannot be appended, the dedupe key is marked. *)
Definition record_outcome (run_id : string) (offset : Z) (r : TurnResult) (caused_by : string)
    : M (services L S E) Z :=
  try_except (_append_turn_outcome_commit run_id offset r (Some caused_by)) is_Exception
    (λ e,
      (match tr_dispatch_dedupe_key r with
       | Some dedupe_key => suppress (sv_on_world (on_store (ds_mark_unknown_effect dedupe_key)))
       | None => mret tt
       end);;
      raise e).

Definition decide_round (run_id : string) (action : Action) (offset : Z)
    (projection : RunProjection) : M (services L S E) unit :=
  try_except
    (r ← sv_on_world (run_turn (dp_turn_engine deps) (turn_input run_id offset) (Some action));
     next_offset ← record_outcome run_id (offset + 1) r (act_action_id action);
     lift (_assert_single_dispatch_attempt_in_turn r);;
     (if decide (tr_outcome_kind r = out_dispatched) then
        suppress (optional (dp_on_action_success deps) (act_effect_class action))
      else mret tt);;
     (if decide (tr_outcome_kind r = out_recovery_pending) then
        recover run_id action projection
          (match tr_recovery_input r with Some i => fe_failure_code i | None => "effect_unknown" end)
          next_offset
      else mret tt))
    is_Exception
    (λ err,
      recover run_id action projection (py_lower (exn_name err)) (offset + 1);;
      raise err).

Definition process_action_commit (commit : ActionCommit) : M (actor L D S E) unit :=
  claimed ← claim_round commit;
  match claimed, cm_action commit with
  | Some (last, projection), Some action =>
      on_services (decide_round (cm_run_id commit) action (ev_commit_offset last) projection)
  | _, _ => mret tt
  end.

(** *** Signals *)

(** [not self._run_id]. *)
Definition identity (l : locals) : option string := str_or (_run_id l) None.

Definition not_started : exn := Exn RuntimeError "RunActorWorkflow.run must be called first.".

(** The early return for a peer that may not signal this run. *)
Definition peer_rejected (l : locals) (i : ActorSignal) : bool :=
  match as_from_peer_run_id i with
  | None => false
  | Some peer =>
      let active_children :=
        match _last_projection l with Some p => pj_active_child_runs p | None => [] end in
      match _last_snapshot l with
      | Some snapshot => negb (is_peer_run_authorized peer snapshot active_children)
      | None => bool_decide (peer ∉ active_children)
      end
  end.

Definition signal_token (i : ActorSignal) : option string :=
  (λ c, as_signal_type i +:+ ":" +:+ c) <$> str_or (as_caused_by i) None.

(** The early return for a signal whose token has been seen. *)
Definition already_seen (l : locals) (i : ActorSignal) : bool :=
  match signal_token i with
  | Some token => bool_decide (token ∈ _seen_signal_tokens l)
  | None => false
  end.

Definition _should_continue_as_new (l : locals) : bool :=
  match dp_temporal deps with
  | None => false
  | Some _ =>
      if (_history_event_count l <? dp_history_event_threshold deps)%Z then false
      else
        match _last_projection l, _pending_signals l with
        | Some p, [] => bool_decide (pj_lifecycle_state p ∉ [completed; aborted])
        | _, _ => false
        end
  end.

Definition _trigger_continue_as_new : M locals unit :=
  l ← gets id;
  match dp_temporal deps, _run_id l with
  | Some _, Some run_id =>
      let serialized := map signal_kwargs (_pending_signals l) in
      modify (set_continued
        {| rn_run_id := run_id; rn_session_id := _session_id l;
           rn_parent_run_id := _parent_run_id l; rn_input_ref := None; rn_input_json := None;
           rn_runtime_context_ref := None; rn_trace_context := None;
           rn_pending_signals := match serialized with [] => None | _ => Some serialized end;
           rn_policy_versions := None; rn_initial_stage_id := None;
           rn_task_contract_ref := None |});;
      raise (Exn ContinueAsNewError "")
  | _, _ => mret tt
  end.

Definition _handle_signal (i : ActorSignal) : M (actor L D S E) unit :=
  l ← on_locals (gets id);
  match identity l with
  | None => raise not_started
  | Some run_id =>
      if peer_rejected l i || already_seen l i then mret tt
      else
        on_locals (modify next_sequence);;
        projection ← on_services (sv_on_projection (get (dp_projection deps) run_id));
        t1 ← on_services _utc_now_iso;
        t2 ← on_services _utc_now_iso;
        let commit :=
          signal_commit run_id i (_signal_sequence l + 1) (pj_projected_offset projection + 1)
            t1 t2 in
        on_services (sv_append commit);;
        (match signal_token i with
         | Some token => on_locals (modify (add_token token))
         | None => mret tt
         end);;
        process_action_commit commit;;
        on_locals (modify count_round);;
        l' ← on_locals (gets id);
        if _should_continue_as_new l' then on_locals _trigger_continue_as_new else mret tt
  end.

Definition signal (i : ActorSignal) : M (actor L D S E) unit :=
  l ← on_locals (gets id);
  match identity l with
  | None => on_locals (modify (λ l, set_pending (_pending_signals l ++ [i]) l))
  | Some _ => _handle_signal i
  end.

(** *** The run *)
Definition final_state_of (p : RunProjection) : string :=
  match pj_lifecycle_state p with aborted => "aborted" | failed => "failed" | _ => "completed" end.

Definition _is_run_terminal (l : locals) : bool :=
  match _last_projection l with
  | Some p => bool_decide (pj_lifecycle_state p ∈ [completed; aborted])
  | None => false
  end.

Definition _notify_parent_child_completed (parent_run_id : option string)
    : M (actor L D S E) unit :=
  l ← on_locals (gets id);
  match str_or parent_run_id None, identity l, dp_temporal deps with
  | Some parent, Some run_id, Some sdk =>
      let outcome :=
        match _last_projection l with Some p => final_state_of p | None => "completed" end in
      try_except
        (on_services (sv_on_env
          (tp_signal_workflow sdk (_workflow_id_for_parent_run parent (dp_workflow_id_prefix deps))
             [ ("signal_type", PStr "child_run_completed");
               ("signal_payload",
                 PDict [ ("child_run_id", PStr run_id); ("outcome", PStr outcome);
                         ("task_id", PNone) ]);
               ("caused_by", PStr ("child:" +:+ run_id)) ])))
        (λ e, tp_is_temporal_error sdk e || bool_decide (exn_cls e = RuntimeError))
        (λ _, mret tt)
  | _, _, _ => mret tt
  end.

Definition refresh (run_id : string) : M (actor L D S E) unit :=
  p ← on_services (sv_on_projection (get (dp_projection deps) run_id));
  on_locals (modify (set_projection p)).

(** The loop over the buffered signals. *)
Fixpoint handle_all (signals : list ActorSignal) : M (actor L D S E) unit :=
  match signals with
  | [] => mret tt
  | i :: signals' => _handle_signal i;; handle_all signals'
  end.

(** The loop that restores the carried-over signals one by one. *)
Fixpoint restore_all (raws : list pydict) : M (actor L D S E) unit :=
  match raws with
  | [] => mret tt
  | raw :: raws' =>
      i ← lift (actor_signal_of_kwargs raw);
      on_locals (modify (λ l, set_pending (_pending_signals l ++ [i]) l));;
      restore_all raws'
  end.

Definition pin_policy_versions (i : RunInput) : M (actor L D S E) unit :=
  match rn_policy_versions i with
  | None => mret tt
  | Some pv =>
      t1 ← on_services _utc_now_iso;
      t2 ← on_services _utc_now_iso;
      on_services (sv_append (pinned_commit (rn_run_id i) pv t1 t2));;
      mret tt
  end.

Definition await_terminal (run_id : string) : M (actor L D S E) unit :=
  match dp_temporal deps with
  | Some sdk =>
      match tp_wait_condition sdk with
      | Some wait => wait (λ a, _is_run_terminal (ac_locals a));; refresh run_id
      | None => mret tt
      end
  | None => mret tt
  end.

(** The result is [run_id] and [final_state]. *)
Definition run (i : RunInput) : M (actor L D S E) (string * string) :=
  on_locals (modify (start_locals i));;
  refresh (rn_run_id i);;
  pin_policy_versions i;;
  restore_all (default [] (rn_pending_signals i));;
  l ← on_locals (gets id);
  on_locals (modify (set_pending []));;
  handle_all (_pending_signals l);;
  await_terminal (rn_run_id i);;
  l ← on_locals (gets id);
  let final_state :=
    match _last_projection l with Some p => final_state_of p | None => "completed" end in
  _notify_parent_child_completed (rn_parent_run_id i);;
  mret (rn_run_id i, final_state).

Definition query (l : locals) : outcome RunProjection :=
  match identity l with
  | None => Raise not_started
  | Some _ =>
      match _last_projection l with
      | None => Raise (Exn RuntimeError "RunActorWorkflow projection is not initialized.")
      | Some p => Ok p
      end
  end.
End handlers.
