(* ===== verification/RunActorSafety.v ===== *)
(** * What the run actor does ([substrate/temporal/run_actor_workflow.py])

    Decision rounds are claimed at most once per commit, a round leaves its
    outcome and recovery commits in the log, a signal is one commit and never
    an execution, and the carry-over of signals across restarts. *)
From S2P Require Export RunActor TurnSafety.

(** ** Signals across a restart *)

(** A signal survives the dictionary that [continue_as_new] carries it in. *)
Theorem signal_kwargs_round_trip s : actor_signal_of_kwargs (signal_kwargs s) = Ok s.
Proof. by destruct s as [? [] [] [] []]. Qed.

(** ** How the log grows *)
Section log.
Context {L : Type} `{EventLogLaws L}.
Implicit Types l : L.

(** From [l], the commits [cs] were appended in this order; loading and failed
    appends go on in between. *)
Inductive grew l : list ActionCommit → L → Prop :=
  | grew_start : el_ok l → grew l [] l
  | grew_quiet cs l1 l2 :
      grew l cs l1 → el_ok l2 → (∀ run, el_history l2 run = el_history l1 run) → grew l cs l2
  | grew_append cs l1 c ref l2 :
      grew l cs l1 → el_append c l1 = (Ok ref, l2) → grew l (cs ++ [c]) l2.

Lemma grew_ok l cs l' : grew l cs l' → el_ok l'.
Proof.
  induction 1 as [|cs l1 l2 _ IH|cs l1 c ref l2 _ IH Ha]; [done|done|].
  pose proof (law_append c l1 IH) as Hl. rewrite Ha in Hl. by destruct Hl.
Qed.
End log.

Section rounds.
Context {L D S E : Type} `{EventLogLaws L} `{DecisionDeduperPort D} `{DedupeStoreLaws S}.
Context (deps : RunActorDependencyBundle L D S E).
Abbreviation SV := (services L S E).
Implicit Types sv : SV.

Definition log_of sv : L := ps_event_log (sv_projection sv).

(** [sv] is where the log of [sv0] has grown by [cs]. *)
Definition logged sv0 (cs : list ActionCommit) sv : Prop := grew (log_of sv0) cs (log_of sv).

(** The gate appends nothing. *)
Definition gate_read_only : Prop := ∀ i sv, el_ok (log_of sv) →
  let '(_, sv') := dp_recovery_decide deps i sv in
  el_ok (log_of sv') ∧ ∀ run, el_history (log_of sv') run = el_history (log_of sv) run.

Lemma logged_start sv : el_ok (log_of sv) → logged sv [] sv.
Proof. apply grew_start. Qed.

(** Every collaborator that the actor awaits outside the turn answers; the
    success hook may raise what its caller suppresses. *)
Record available : Prop := {
  av_append c (l : L) : el_ok l → cm_events c ≠ [] → is_ok (el_append c l).1 = true;
  av_load run k (l : L) : el_ok l → is_ok (el_load run k l).1 = true;
  av_gate i sv : is_ok (dp_recovery_decide deps i sv).1 = true;
  av_intents f i (e : E) : dp_turn_intent_log deps = Some f → is_ok (f i e).1 = true;
  av_outcomes f o (e : E) : dp_recovery_outcomes deps = Some f → is_ok (f o e).1 = true;
  av_success f c (e : E) x e' :
    dp_on_action_success deps = Some f → f c e = (Raise x, e') → is_Exception x = true
}.

(** *** Steps that append nothing, and raise only where somebody failed *)
Definition quiet {A} (m : M SV A) : Prop := ∀ sv0 cs sv,
  logged sv0 cs sv → wp m (λ _, logged sv0 cs) (λ _ sv', logged sv0 cs sv' ∧ ¬ available) sv.

Lemma quiet_ret {A} (a : A) : quiet (mret a).
Proof. intros sv0 cs sv Hl. by apply wp_ret. Qed.

Lemma quiet_env {A} (m : M E A) :
  (∀ e, available → is_ok (m e).1 = true) → quiet (sv_on_env (L := L) (S := S) m).
Proof.
  intros Hm sv0 cs sv Hl. apply wp_zoom, wp_zoom. unfold wp.
  specialize (Hm (w_env (sv_world sv))). destruct (m _) as [[a|e] w]; [done|].
  split; [done|]. by intros ?%Hm.
Qed.

Lemma quiet_now : quiet (_utc_now_iso deps).
Proof. apply quiet_env. intros e _. by destruct (dp_utc_now deps e). Qed.

Lemma quiet_optional {A} (port : option (A → M E unit)) a :
  (∀ f e, available → port = Some f → is_ok (f a e).1 = true) →
  quiet (optional (L := L) (S := S) port a).
Proof. intros Hp. destruct port; [apply quiet_env; intros; by apply Hp|apply quiet_ret]. Qed.

(** Running something quiet first. *)
Lemma wp_quiet {A B} (m : M SV A) (f : A → M SV B) sv0 cs (Q : B → SV → Prop) Ex sv :
  quiet m → logged sv0 cs sv →
  (∀ a sv', logged sv0 cs sv' → wp (f a) Q Ex sv') →
  (∀ e sv', logged sv0 cs sv' → ¬ available → Ex e sv') →
  wp (m ≫= f) Q Ex sv.
Proof.
  intros Hm Hl HQ HE. apply wp_bind. eapply wp_mono; [by apply Hm|done|].
  intros e sv' [? ?]. by apply HE.
Qed.

(** Nothing was appended between two states. *)
Definition same_log sv sv' : Prop :=
  el_ok (log_of sv') ∧ ∀ run, el_history (log_of sv') run = el_history (log_of sv) run.

Lemma logged_same sv0 cs sv sv' : logged sv0 cs sv → same_log sv sv' → logged sv0 cs sv'.
Proof. intros Hl [? ?]. by eapply grew_quiet. Qed.

(** The latest offset is a function of the run's history. *)
Definition latest_of (events : list RuntimeEvent) : Z :=
  match after 0 events with
  | [] => 0%Z
  | e :: events' => fold_left Z.max (map ev_commit_offset events') (ev_commit_offset e)
  end.

Lemma latest_spec run sv :
  el_ok (log_of sv) →
  wp (_latest_run_offset (S := S) (E := E) run)
    (λ n sv', same_log sv sv' ∧ n = latest_of (el_history (log_of sv) run))
    (λ _ sv', same_log sv sv' ∧ ¬ available) sv.
Proof.
  intros Hok. apply wp_bind, wp_zoom, wp_zoom.
  pose proof (law_load run 0 (log_of sv) Hok) as Hload.
  assert (available → is_ok (el_load run 0 (log_of sv)).1 = true) as Hav by (intros Ha; by apply av_load).
  unfold wp, log_of in *. destruct (el_load run 0 _) as [[a|e] l']; destruct Hload as (? & ? & Hev).
  - split; [by split|]. by rewrite (Hev a eq_refl).
  - split; [by split|]. by intros ?%Hav.
Qed.

Lemma decide_spec i sv :
  gate_read_only → el_ok (log_of sv) →
  wp (dp_recovery_decide deps i) (λ _, same_log sv) (λ _ sv', same_log sv sv' ∧ ¬ available) sv.
Proof.
  intros Hg Hok. pose proof (Hg i sv Hok) as Hi. unfold wp.
  assert (available → is_ok (dp_recovery_decide deps i sv).1 = true) as Hav by (intros Ha; by apply av_gate).
  destruct (dp_recovery_decide deps i sv) as [[d|e] sv']; [done|].
  split; [done|]. by intros ?%Hav.
Qed.

(** One append. *)
Lemma wp_sv_append c sv0 cs (Q : string → SV → Prop) Ex sv :
  cm_events c ≠ [] → logged sv0 cs sv →
  (∀ ref sv', logged sv0 (cs ++ [c]) sv' → Q ref sv') →
  (∀ e sv', logged sv0 cs sv' → ¬ available → Ex e sv') →
  wp (sv_append c) Q Ex sv.
Proof.
  intros Hc Hl HQ HE. apply wp_zoom, wp_zoom. pose proof (grew_ok _ _ _ Hl) as Hok.
  pose proof (law_append c (log_of sv) Hok) as Ha.
  assert (available → is_ok (el_append c (log_of sv)).1 = true) as Hav by (intros Hv; by apply av_append).
  unfold wp, log_of in *. destruct (el_append c _) as [[ref|e] l'] eqn:Hap.
  - apply HQ. eapply grew_append; [exact Hl|done].
  - apply HE; [destruct Ha; by eapply grew_quiet|]. by intros ?%Hav.
Qed.

(** *** The commits of a round *)
Definition outcome_of (run : string) (action : Action) (offset : Z) (r : TurnResult)
    (c : ActionCommit) : Prop :=
  ∃ t1 t2, c = turn_outcome_commit run (offset + 1) r (Some (act_action_id action)) t1 t2.

Definition recovery_of (run : string) (action : Action) (offset : Z) (c : ActionCommit) : Prop :=
  ∃ d t1 t2 t3, c = recovery_commit run offset d (Some (act_action_id action)) t1 t2 t3.

Lemma append_outcome_spec run action offset r sv0 cs sv :
  logged sv0 cs sv →
  wp (_append_turn_outcome_commit deps run (offset + 1) r (Some (act_action_id action)))
    (λ n sv', n = (offset + 2)%Z ∧ ∃ c, outcome_of run action offset r c ∧ logged sv0 (cs ++ [c]) sv')
    (λ _ sv', logged sv0 cs sv' ∧ ¬ available) sv.
Proof.
  intros Hl. unfold _append_turn_outcome_commit.
  eapply wp_quiet; [apply quiet_now|done| |by split]. intros t1 sv1 Hl1.
  eapply (wp_quiet _ _ sv0 cs); [|done| |by split].
  { destruct (dp_turn_intent_log deps) as [f|] eqn:Hf, (tr_intent_commit_ref r); try apply quiet_ret.
    intros sv2 cs2 sv3 Hl2. eapply wp_quiet; [apply quiet_now|done| |by split]. intros t sv4 Hl4.
    apply quiet_optional; [|done]. intros f' e Ha [= <-]. by eapply av_intents. }
  intros _ sv2 Hl2. eapply wp_quiet; [apply quiet_now|done| |by split]. intros t2 sv3 Hl3.
  apply wp_bind. eapply wp_sv_append; [done|done| |by split].
  intros ref sv4 Hl4. apply wp_ret. split; [lia|]. eexists. split; [|done]. by exists t1, t2.
Qed.

Lemma recovery_type_allowed mode :
  _assert_recovery_event_type_allowed (_recovery_event_type mode) = Ok tt.
Proof.
  unfold _assert_recovery_event_type_allowed, _recovery_event_type.
  repeat case_decide; set_solver.
Qed.

(** Somebody failed, after at most one recovery commit. *)
Definition gave_up run action offset sv0 cs sv : Prop :=
  ¬ available ∧ ∃ recs, logged sv0 (cs ++ recs) sv ∧ length recs ≤ 1 ∧
    Forall (recovery_of run action offset) recs.

Lemma gave_up_none run action offset sv0 cs sv :
  logged sv0 cs sv → ¬ available → gave_up run action offset sv0 cs sv.
Proof.
  intros Hl Hn. split; [done|]. exists []. rewrite app_nil_r. split_and!; [done|simpl; lia|done].
Qed.

Lemma append_recovery_spec run action offset d sv0 cs sv :
  logged sv0 cs sv →
  wp (_append_recovery_event deps run offset d (Some (act_action_id action)))
    (λ _ sv', ∃ c, recovery_of run action offset c ∧ logged sv0 (cs ++ [c]) sv')
    (λ _, gave_up run action offset sv0 cs) sv.
Proof.
  intros Hl. unfold _append_recovery_event.
  pose proof (λ sv', gave_up_none run action offset sv0 cs sv') as Hnone.
  apply wp_bind, wp_lift; rewrite recovery_type_allowed; [intros [] _|done].
  eapply wp_quiet; [apply quiet_now|done| |done]. intros t1 sv1 Hl1.
  eapply wp_quiet; [apply quiet_now|done| |done]. intros t2 sv2 Hl2.
  eapply wp_quiet; [apply quiet_now|done| |done]. intros t3 sv3 Hl3.
  apply wp_bind. eapply wp_sv_append; [done|done| |done]. intros ref sv4 Hl4.
  assert (recovery_of run action offset
    (recovery_commit run offset d (Some (act_action_id action)) t1 t2 t3)) as Hrec by by do 4 eexists.
  eapply wp_quiet; [|done| |].
  - destruct (dp_recovery_outcomes deps) as [f|] eqn:Hf; [|apply quiet_ret].
    intros sv5 cs5 sv6 Hl5. eapply wp_quiet; [apply quiet_now|done| |by split]. intros t sv7 Hl7.
    apply quiet_optional; [|done]. intros f' e Ha [= <-]. by eapply av_outcomes.
  - intros _ sv5 Hl5. apply wp_ret. by eexists.
  - intros e sv5 Hl5 Hn. split; [done|]. eexists. split; [exact Hl5|]. split; [done|by constructor].
Qed.

Lemma recover_spec run action p reason offset sv0 cs sv :
  gate_read_only → logged sv0 cs sv →
  wp (recover deps run action p reason offset)
    (λ _ sv', ∃ c, recovery_of run action offset c ∧ logged sv0 (cs ++ [c]) sv')
    (λ _, gave_up run action offset sv0 cs) sv.
Proof.
  intros Hg Hl. unfold recover.
  pose proof (λ sv', gave_up_none run action offset sv0 cs sv') as Hnone.
  assert (∀ sv', same_log sv sv' ∧ ¬ available → gave_up run action offset sv0 cs sv') as Hsame.
  { intros sv' [Hs ?]. apply Hnone; [by eapply logged_same|done]. }
  assert (∀ sv1 sv2 : SV, same_log sv sv1 → same_log sv1 sv2 → same_log sv sv2) as Htrans.
  { intros sv1 sv2 [_ Hh1] [? Hh2]. split; [done|]. intros r. by rewrite Hh2. }
  apply wp_bind. eapply wp_mono; [apply latest_spec; by eapply grew_ok| |by auto].
  intros n1 sv1 [Hs1 ->]. apply wp_bind.
  eapply wp_mono; [apply decide_spec; [done|by destruct Hs1]| |].
  2:{ intros e sv2 []. apply Hsame. by split; [eapply Htrans|]. }
  intros d sv2 Hs2. pose proof (Htrans _ _ Hs1 Hs2) as Hs. apply wp_bind.
  eapply wp_mono; [apply latest_spec; by destruct Hs| |].
  2:{ intros e sv3 []. apply Hsame. by split; [eapply Htrans|]. }
  intros n3 sv3 [Hs3 ->]. rewrite (proj2 Hs run).
  unfold _assert_recovery_gate_is_read_only. rewrite decide_False by (by intros []).
  apply wp_bind, wp_lift; [intros [] _|done]. apply wp_bind.
  eapply wp_mono; [apply append_recovery_spec; eapply logged_same; [exact Hl|by eapply Htrans]| |].
  - intros n4 sv4 Hc. by apply wp_ret.
  - done.
Qed.

(** The single-dispatch guard never fires: a turn's trace enters [dispatched]
    at most once. *)
Lemma emits_dispatched l s :
  emits l s →
  length (filter (λ e, tse_state e = "dispatched") l) ≤
    if decide (s ∈ ["dispatched"; "dispatch_acknowledged"; "effect_unknown"; "recovery_pending"])
    then 1 else 0.
Proof.
  induction 1 as [|l s e s' Hl IH He Hedge]; [done|].
  apply bool_decide_eq_true in Hedge. rewrite filter_app, length_app, filter_cons, He.
  unfold turn_edges in Hedge. set_unfold in Hedge.
  repeat match goal with H : _ ∨ _ |- _ => destruct H as [H|H] end; try done;
    injection Hedge as -> ->; simpl in *; lia.
Qed.

Lemma single_dispatch r :
  coherent r → _assert_single_dispatch_attempt_in_turn r = Ok tt.
Proof.
  intros Hr. pose proof (emits_dispatched _ _ (coh_trace r Hr)) as Hd.
  unfold _assert_single_dispatch_attempt_in_turn. destruct (1 <? _) eqn:Hlt; [|done].
  apply Nat.ltb_lt in Hlt. case_decide; lia.
Qed.

Lemma record_outcome_spec run action offset r sv0 cs sv :
  logged sv0 cs sv →
  wp (record_outcome deps run (offset + 1) r (act_action_id action))
    (λ n sv', n = (offset + 2)%Z ∧ ∃ c, outcome_of run action offset r c ∧ logged sv0 (cs ++ [c]) sv')
    (λ _ sv', logged sv0 cs sv' ∧ ¬ available) sv.
Proof.
  intros Hl. unfold record_outcome. apply wp_try_except.
  eapply wp_mono; [by apply append_outcome_spec|done|].
  intros e sv1 [Hl1 Hn]. destruct (is_Exception e); [|done].
  assert (∀ (m : M (world S E) unit) (Q : Z → SV → Prop),
    wp (suppress (sv_on_world m);; raise e) Q (λ _ sv', logged sv0 cs sv' ∧ ¬ available) sv1) as Hm.
  { intros m Q. apply wp_bind, wp_suppress, wp_zoom. unfold wp.
    destruct (m (sv_world sv1)) as [[a|e'] w]; [done|]. by destruct (is_Exception e'). }
  destruct (tr_dispatch_dedupe_key r); [apply Hm|by apply wp_bind, wp_ret, wp_raise].
Qed.

(** What a round that ends normally leaves: the outcome and, for a turn that
    awaits recovery, the gate's decision. *)
Definition left_behind run action offset r (cs : list ActionCommit) : Prop :=
  ∃ c rest, outcome_of run action offset r c ∧ cs = c :: rest ∧
    if decide (tr_outcome_kind r = out_recovery_pending)
    then ∃ rc, recovery_of run action (offset + 2) rc ∧ rest = [rc]
    else rest = [].

(** What a round may leave that fails after the turn: the outcome or not, and
    at most two decisions of the gate. *)
Definition partly_left run action offset r (cs : list ActionCommit) : Prop :=
  ∃ outcome recs, cs = outcome ++ recs ∧
    length outcome ≤ 1 ∧ Forall (outcome_of run action offset r) outcome ∧
    length recs ≤ 2 ∧ Forall (λ c, ∃ off, recovery_of run action off c) recs.

Lemma partly_left_one run action offset r outcome recs1 recs2 o1 o2 :
  length outcome ≤ 1 → Forall (outcome_of run action offset r) outcome →
  length recs1 ≤ 1 → Forall (recovery_of run action o1) recs1 →
  length recs2 ≤ 1 → Forall (recovery_of run action o2) recs2 →
  partly_left run action offset r ((outcome ++ recs1) ++ recs2).
Proof.
  intros. exists outcome, (recs1 ++ recs2). rewrite length_app, <- app_assoc.
  split_and!; [done..|lia|]. apply Forall_app. split; (eapply Forall_impl; [done|]); eauto.
Qed.

(** The steps after the turn, inside the [try]. *)
Definition after_turn run action offset projection r : M SV unit :=
  next_offset ← record_outcome deps run (offset + 1) r (act_action_id action);
  lift (_assert_single_dispatch_attempt_in_turn r);;
  (if decide (tr_outcome_kind r = out_dispatched) then
     suppress (optional (dp_on_action_success deps) (act_effect_class action))
   else mret tt);;
  (if decide (tr_outcome_kind r = out_recovery_pending) then
     recover deps run action projection
       (match tr_recovery_input r with Some i => fe_failure_code i | None => "effect_unknown" end)
       next_offset
   else mret tt).

Lemma success_hook_quiet r c :
  quiet (if decide (tr_outcome_kind r = out_dispatched)
         then suppress (optional (L := L) (S := S) (dp_on_action_success deps) c) else mret tt).
Proof.
  case_decide; [|apply quiet_ret]. intros sv0 cs sv Hl. apply wp_suppress. unfold optional.
  destruct (dp_on_action_success deps) as [f|] eqn:Hf; [|by apply wp_ret].
  apply wp_zoom, wp_zoom. unfold wp. destruct (f c (w_env (sv_world sv))) as [[a|e] env] eqn:Hx; [done|].
  destruct (is_Exception e) eqn:He; [done|]. split; [done|]. intros Ha.
  pose proof (av_success Ha f c _ e env Hf Hx). congruence.
Qed.

Lemma after_turn_spec run action offset p r sv0 sv :
  gate_read_only → coherent r → logged sv0 [] sv →
  wp (after_turn run action offset p r)
    (λ _ sv', ∃ cs, logged sv0 cs sv' ∧ left_behind run action offset r cs)
    (λ _ sv', ¬ available ∧ ∃ outcome recs, logged sv0 (outcome ++ recs) sv' ∧
       length outcome ≤ 1 ∧ Forall (outcome_of run action offset r) outcome ∧
       length recs ≤ 1 ∧ Forall (recovery_of run action (offset + 2)) recs) sv.
Proof.
  intros Hg Hco Hl. unfold after_turn. apply wp_bind.
  eapply wp_mono; [by apply record_outcome_spec| |].
  2:{ intros e sv1 [Hl1 Hn]. split; [done|]. exists [], []. simpl. split_and!; by try lia. }
  intros n sv1 (-> & c & Hc & Hl1). simpl in Hl1. rewrite (single_dispatch r Hco).
  apply wp_bind, wp_lift; [intros [] _|done].
  assert (length [c] ≤ 1 ∧ Forall (outcome_of run action offset r) [c]) as [Hn1 Hf1]
    by (split; [done|by constructor]).
  eapply wp_quiet; [apply success_hook_quiet|exact Hl1| |].
  - intros [] sv2 Hl2. unfold left_behind. case_decide as Hk.
    + eapply wp_mono; [by apply recover_spec| |].
      * intros [] sv3 (rc & Hrc & Hl3). exists [c; rc]. split; [done|]. exists c, [rc]. by eauto.
      * intros e sv3 (Hn & recs & Hl3 & ? & ?). split; [done|]. by exists [c], recs.
    + apply wp_ret. exists [c]. split; [done|]. by exists c, [].
  - intros e sv2 Hl2 Hn. split; [done|]. exists [c], []. split_and!; by try (simpl; lia).
Qed.

(** What a whole round leaves, by how its turn ended. *)
Definition round_post run action offset (turn : outcome TurnResult) (o : outcome unit)
    (cs : list ActionCommit) : Prop :=
  match turn with
  | Ok r =>
      (o = Ok tt ∧ left_behind run action offset r cs) ∨
      (¬ available ∧ is_ok o = false ∧ partly_left run action offset r cs)
  | Raise e =>
      if is_Exception e then
        (o = Raise e ∧ ∃ rc, recovery_of run action (offset + 1) rc ∧ cs = [rc]) ∨
        (¬ available ∧ is_ok o = false ∧ length cs ≤ 1 ∧
         Forall (recovery_of run action (offset + 1)) cs)
      else o = Raise e ∧ cs = []
  end.

Lemma decide_round_after run action offset p :
  decide_round deps run action offset p =
  try_except
    (r ← sv_on_world (run_turn (dp_turn_engine deps) (turn_input run offset) (Some action));
     after_turn run action offset p r)
    is_Exception
    (λ err, recover deps run action p (py_lower (exn_name err)) (offset + 1);; raise err).
Proof. done. Qed.

(** A round from the end of its turn, in the world [w]. *)
Lemma round_after_turn run action offset p r sv w :
  gate_read_only → coherent r → el_ok (log_of sv) →
  run_turn (dp_turn_engine deps) (turn_input run offset) (Some action) (sv_world sv) = (Ok r, w) →
  wp (decide_round deps run action offset p)
    (λ _ sv', ∃ cs, logged sv cs sv' ∧ left_behind run action offset r cs)
    (λ _ sv', ∃ cs, logged sv cs sv' ∧ ¬ available ∧ partly_left run action offset r cs) sv.
Proof.
  intros Hg Hco Hok Hrun. rewrite decide_round_after. apply wp_try_except, wp_bind.
  unfold sv_on_world at 1, wp at 1, zoom. rewrite Hrun.
  eapply wp_mono; [apply after_turn_spec; [done|done|by apply logged_start]|done|].
  intros e sv1 (Hn & outcome & recs & Hl1 & Ho & Hfo & Hr & Hfr). destruct (is_Exception e).
  - apply wp_bind. eapply wp_mono; [by apply recover_spec| |].
    + intros _ sv2 (rc & Hrc & Hl2). apply wp_raise. eexists. split; [exact Hl2|]. split; [done|].
      eapply partly_left_one; [done|done|done|done|done|by constructor].
    + intros e2 sv2 (_ & recs2 & Hl2 & ? & ?). eexists. split; [exact Hl2|]. split; [done|].
      by eapply partly_left_one.
  - eexists. split; [exact Hl1|]. split; [done|]. rewrite <- (app_nil_r (outcome ++ recs)).
    eapply (partly_left_one _ _ _ _ _ _ [] _ 0); try done. simpl. lia.
Qed.

Lemma decide_round_spec run action offset p sv :
  gate_read_only → el_ok (log_of sv) → ds_ok (w_store (sv_world sv)) →
  let '(turn, _) :=
    run_turn (dp_turn_engine deps) (turn_input run offset) (Some action) (sv_world sv) in
  let '(o, sv') := decide_round deps run action offset p sv in
  ∃ cs, logged sv cs sv' ∧ round_post run action offset turn o cs.
Proof.
  intros Hg Hok Hds.
  pose proof (run_turn_spec (dp_turn_engine deps) (turn_input run offset) (Some action)
                (sv_world sv) Hds) as Hturn. unfold wp in Hturn.
  destruct (run_turn _ _ _ _) as [[r|e] w] eqn:Hrun; simpl.
  - pose proof (round_after_turn run action offset p r sv w Hg (proj1 Hturn) Hok Hrun) as Hw.
    unfold wp in Hw. destruct (decide_round _ _ _ _ _ _) as [[[]|e] sv']; naive_solver.
  - rewrite decide_round_after. unfold try_except, mbind, M_bind, sv_on_world at 1, zoom. rewrite Hrun.
    assert (logged sv [] (Services (sv_projection sv) w)) as Hl by exact (grew_start _ Hok).
    destruct (is_Exception e) eqn:He; [|by exists []].
    pose proof (recover_spec run action p (py_lower (exn_name e)) (offset + 1) sv [] _ Hg Hl) as Hr.
    unfold wp in Hr. destruct (recover _ _ _ _ _ _ _) as [[u|e2] sv'].
    + destruct Hr as (rc & Hrc & Hl2). exists [rc]. split; [done|]. left. eauto.
    + destruct Hr as (Hn & recs & Hl2 & ? & ?). exists recs. split; [done|]. by right.
Qed.
End rounds.

(** C11: what a decision round leaves in the log, over every lawful event log,
    dedupe store and engine, when the recovery gate appends nothing itself.
    A turn that returned leaves exactly its outcome commit, followed by the
    gate's decision if and only if the turn awaits recovery; a turn that
    raised an ordinary exception leaves exactly the gate's decision, and the
    exception goes on; a cancelled turn leaves nothing.  Only when a
    collaborator outside the turn fails (an append, a load, the gate, a store)
    may a round end otherwise: it then raises, and leaves at most the one
    outcome commit and at most two decisions of the gate, in this order. *)
Theorem round_leaves_outcome {L D S E} `{EventLogLaws L} `{DedupeStoreLaws S}
    (deps : RunActorDependencyBundle L D S E) run action offset p (sv : services L S E) :
  gate_read_only deps → el_ok (log_of sv) → ds_ok (w_store (sv_world sv)) →
  let '(turn, _) :=
    run_turn (dp_turn_engine deps) (turn_input run offset) (Some action) (sv_world sv) in
  let '(o, sv') := decide_round deps run action offset p sv in
  ∃ cs, logged sv cs sv' ∧ round_post deps run action offset turn o cs.
Proof. apply decide_round_spec. Qed.

(** The executor calls made so far. *)
Definition executed {L S E} (sv : services L S E) : list exec_call := w_calls (sv_world sv).

(** ** An outcome that cannot be appended *)
Section lost_outcome.
Context {L D S E : Type} `{EventLogLaws L} `{DedupeStoreLaws S}.
Context (deps : RunActorDependencyBundle L D S E).
Implicit Types sv : services L S E.

(** The store and the executor calls of [w]. *)
Definition same_dispatch (w : world S E) sv : Prop :=
  w_store (sv_world sv) = w_store w ∧ w_calls (sv_world sv) = w_calls w.

Definition keeps_dispatch {A} (m : M (services L S E) A) : Prop := ∀ w sv,
  same_dispatch w sv → wp m (λ _, same_dispatch w) (λ _, same_dispatch w) sv.

Lemma keeps_bind {A B} (m : M (services L S E) A) (f : A → M (services L S E) B) :
  keeps_dispatch m → (∀ a, keeps_dispatch (f a)) → keeps_dispatch (m ≫= f).
Proof.
  intros Hm Hf w sv Hw. apply wp_bind. eapply wp_mono; [by apply Hm| |done].
  intros a sv1 Hw1. by apply Hf.
Qed.

Lemma keeps_ret {A} (a : A) : keeps_dispatch (mret a).
Proof. intros w sv Hw. by apply wp_ret. Qed.

Lemma keeps_env {A} (m : M E A) : keeps_dispatch (sv_on_env m).
Proof.
  intros w sv Hw. apply wp_zoom, wp_zoom. unfold wp. by destruct (m (w_env (sv_world sv))) as [[a|e] env].
Qed.

Lemma keeps_projection {A} (m : M (projection_service L) A) : keeps_dispatch (sv_on_projection m).
Proof.
  intros w sv Hw. apply wp_zoom. unfold wp. by destruct (m (sv_projection sv)) as [[a|e] ps].
Qed.

Lemma keeps_optional {A} (port : option (A → M E unit)) a : keeps_dispatch (optional port a).
Proof. destruct port; [apply keeps_env|apply keeps_ret]. Qed.

Lemma keeps_append_outcome run offset r by_ :
  keeps_dispatch (_append_turn_outcome_commit deps run offset r by_).
Proof.
  repeat first [apply keeps_bind; [|intros ?] | apply keeps_env | apply keeps_projection
               | apply keeps_ret | apply keeps_optional | case_match].
Qed.

Lemma keeps_record_outcome run offset r caused_by w sv :
  same_dispatch w sv →
  let '(_, sv') := record_outcome deps run offset r caused_by sv in
  w_calls (sv_world sv') = w_calls w.
Proof.
  intros Hw. unfold record_outcome, try_except.
  pose proof (keeps_append_outcome run offset r (Some caused_by) w sv Hw) as Ha. unfold wp in Ha.
  destruct (_append_turn_outcome_commit _ _ _ _ _ sv) as [[n|e] sv1]; destruct Ha as [Hs Hc]; [done|].
  destruct (is_Exception e); [|done]. destruct (tr_dispatch_dedupe_key r) as [k|]; [|done].
  unfold suppress, try_except, mbind, M_bind, raise, sv_on_world, on_store, zoom. cbn.
  destruct (ds_mark_unknown_effect k (w_store (sv_world sv1))) as [[[]|e'] s']; simpl; [done|].
  by destruct (is_Exception e').
Qed.

(** Marking an acknowledged key is refused. *)
Lemma mark_unknown_refused k s :
  ds_ok s → in_state (ds_view s) k acknowledged →
  let '(_, s') := ds_mark_unknown_effect k s in ds_ok s' ∧ ds_view s' = ds_view s.
Proof.
  intros Hok (rec & Hk & Hst & _).
  pose proof (law_mark_unknown_effect k s Hok) as Hl.
  destruct (ds_mark_unknown_effect k s) as [[u|e] s'].
  - destruct Hl as [_ Hl]. unfold spec_mark_unit, spec_mark in Hl. rewrite Hk in Hl. simpl in Hl.
    rewrite Hst in Hl. by rewrite decide_False in Hl by set_solver.
  - destruct Hl as (? & _ & ?). by split.
Qed.

Lemma record_outcome_keeps run offset r caused_by k w sv :
  same_dispatch w sv → ds_ok (w_store w) → tr_dispatch_dedupe_key r = Some k →
  in_state (view w) k acknowledged →
  let '(_, sv') := record_outcome deps run offset r caused_by sv in
  w_calls (sv_world sv') = w_calls w ∧ view (sv_world sv') = view w.
Proof.
  intros Hw Hok Hk Hin. unfold record_outcome, try_except. rewrite Hk.
  pose proof (keeps_append_outcome run offset r (Some caused_by) w sv Hw) as Ha. unfold wp in Ha.
  destruct (_append_turn_outcome_commit _ _ _ _ _ sv) as [[n|e] sv1]; destruct Ha as [Hs Hc].
  { unfold view. by rewrite Hs. }
  destruct (is_Exception e); [|unfold view; by rewrite Hs].
  unfold suppress, try_except, mbind, M_bind, raise, sv_on_world, on_store, zoom. cbn.
  pose proof (mark_unknown_refused k (w_store w) Hok Hin) as Hm. rewrite Hs.
  destruct (ds_mark_unknown_effect k (w_store w)) as [[[]|e'] s']; destruct Hm as [_ Hv]; simpl; [done|].
  by destruct (is_Exception e').
Qed.
End lost_outcome.

(** A turn dispatched, and then its outcome commit cannot be appended.
    The handler tries to move the turn's key back to unknown_effect; over
    every lawful store that is refused, because the turn itself has already
    acknowledged the key.  So the key stays acknowledged and the executor is
    entered no further: a later turn for the same key is not dispatched again. *)
Theorem failed_append_keeps_acknowledged {L D S E} `{EventLogLaws L} `{DedupeStoreLaws S}
    (deps : RunActorDependencyBundle L D S E) run action offset ps (w0 w : world S E) r e sv' :
  ds_ok (w_store w0) →
  run_turn (dp_turn_engine deps) (turn_input run offset) (Some action) w0 = (Ok r, w) →
  tr_outcome_kind r = out_dispatched →
  record_outcome deps run (offset + 1) r (act_action_id action) (Services ps w) = (Raise e, sv') →
  executed sv' = w_calls w ∧
  ∃ x, entered_once w0 w x ∧
    (cx_dedupe_available (xc_turn x) = true →
     in_state (view (sv_world sv')) (turn_key (xc_turn x)) acknowledged).
Proof.
  intros Hok Hrun Hk Hrec. pose proof (run_turn_spec (dp_turn_engine deps)
    (turn_input run offset) (Some action) w0 Hok) as Hturn. unfold wp in Hturn. rewrite Hrun in Hturn.
  destruct Hturn as (_ & Hokw & _ & Hpost). rewrite Hk in Hpost.
  destruct Hpost as (x & Hx & Hkey & Hst). rewrite decide_True in Hst by done.
  destruct (cx_dedupe_available (xc_turn x)) eqn:Hc.
  - pose proof (record_outcome_keeps deps run (offset + 1) r (act_action_id action) _ w
      (Services ps w) (conj eq_refl eq_refl) Hokw Hkey (Hst eq_refl)) as Hr.
    rewrite Hrec in Hr. destruct Hr as [Hcalls Hv]. split; [done|]. exists x. split; [done|].
    intros _. rewrite Hv. by apply Hst.
  - split; [|exists x; by rewrite Hc].
    pose proof (keeps_record_outcome deps run (offset + 1) r (act_action_id action) w
      (Services ps w)) as Hr. rewrite Hrec in Hr. by apply Hr.
Qed.

(** ** Decision rounds over time *)
Section claims.
Context {L D S E : Type} `{EventLogPort L} `{DecisionDeduperLaws D} `{DedupeStorePort S}.
Context (deps : RunActorDependencyBundle L D S E).
Implicit Types a : actor L D S E.

Definition marks a : string → Prop := dd_marked (ac_deduper a).

(** One step of the actors of one deduper, labelled with the round it claims.
    A handler is a claim between other steps (its reads and appends, the turn
    it runs, the gate), which leave the deduper alone; so do other handlers in
    between, and a restart that makes a new instance. *)
Inductive actor_step a : option string → actor L D S E → Prop :=
  | step_claim commit l p a' :
      claim_round deps commit a = (Ok (Some (l, p)), a') →
      actor_step a (Some (fingerprint_of commit l)) a'
  | step_no_claim commit o a' :
      claim_round deps commit a = (o, a') → (∀ c, o ≠ Ok (Some c)) → actor_step a None a'
  | step_else a' : ac_deduper a' = ac_deduper a → actor_step a None a'.

Inductive actor_trace a : list string → actor L D S E → Prop :=
  | trace_nil : actor_trace a [] a
  | trace_step fps a1 label a2 :
      actor_trace a fps a1 → actor_step a1 label a2 →
      actor_trace a (fps ++ option_list label) a2.

(** What the rest of a computation may do to the deduper. *)
Definition extends a a' : Prop :=
  dd_ok (ac_deduper a') ∧ ∀ f, marks a f → marks a' f.

Lemma claim_round_spec commit a :
  dd_ok (ac_deduper a) →
  wp (claim_round deps commit)
    (λ c a', extends a a' ∧
       ∀ l p, c = Some (l, p) → ¬ marks a (fingerprint_of commit l) ∧ marks a' (fingerprint_of commit l))
    (λ _, extends a) a.
Proof.
  intros Hok. unfold claim_round.
  set (same := λ a', ac_deduper a' = ac_deduper a).
  assert (Hsame : ∀ a', same a' → extends a a') by (intros a' Ha; unfold extends, marks; by rewrite Ha).
  assert (Hsv : ∀ A (m : M (services L S E) A) (Q : A → actor L D S E → Prop) a1, same a1 →
    (∀ r a', same a' → Q r a') → wp (on_services m) Q (λ _, extends a) a1).
  { intros A m Q a1 Ha HQ. apply wp_zoom. unfold wp. destruct (m (ac_services a1)) as [[r|e] sv].
    - by apply HQ.
    - by apply Hsame. }
  assert (same a) as Ha by done.
  apply wp_bind, wp_lift; [intros [] _|intros; by apply Hsame].
  apply wp_bind, wp_lift; [intros l _|intros; by apply Hsame].
  apply wp_bind, Hsv; [done|]. intros p a1 Ha1. apply wp_bind, wp_zoom, wp_modify.
  apply wp_bind, Hsv; [done|]. intros [|] a2 Ha2; simpl; [|apply wp_ret; split; [by apply Hsame|done]].
  apply wp_bind, wp_zoom. pose proof (law_seen (fingerprint_of commit l) (ac_deduper a2)) as Hseen.
  unfold wp at 1. destruct (dd_seen _ (ac_deduper a2)) as [[seen|e] d3]; rewrite Ha2 in Hseen;
    destruct (Hseen Hok) as (Hok3 & Hm3 & Hb); [|by split].
  destruct seen; [apply wp_ret; by split|]. apply wp_bind, wp_zoom. simpl.
  pose proof (law_mark (fingerprint_of commit l) d3 Hok3) as Hmark. unfold wp at 1.
  destruct (dd_mark _ d3) as [[[]|e] d4]; destruct Hmark as (Hok4 & Hm4 & Hin);
    [|split; [done|]; intros f Hf; by apply Hm4, Hm3].
  apply wp_ret. split; [split; [done|]; intros f Hf; by apply Hm4, Hm3|]. intros l' p' [= <- <-]. split; [|by apply Hin].
  intros Hold%Hm3. by apply (Hb false eq_refl) in Hold.
Qed.

(** A claim touches the turn's world not at all, and is on the commit's last
    event. *)
Lemma claim_round_frame commit a :
  wp (claim_round deps commit)
    (λ c a', sv_world (ac_services a') = sv_world (ac_services a) ∧
       ∀ l p, c = Some (l, p) → last_event commit = Ok l)
    (λ _ a', sv_world (ac_services a') = sv_world (ac_services a)) a.
Proof.
  set (same := λ a', sv_world (ac_services a') = sv_world (ac_services a)).
  assert (Hsv : ∀ A (m : M (projection_service L) A) (Q : A → actor L D S E → Prop) a1, same a1 →
    (∀ r a', same a' → Q r a') → wp (on_services (sv_on_projection m)) Q (λ _, same) a1).
  { intros A m Q a1 Ha HQ. apply wp_zoom, wp_zoom. unfold wp.
    destruct (m _) as [[r|e] ps]; [by apply HQ|exact Ha]. }
  assert (Hdd : ∀ A (m : M D A) (Q : A → actor L D S E → Prop) a1, same a1 →
    (∀ r a', same a' → Q r a') → wp (on_deduper m) Q (λ _, same) a1).
  { intros A m Q a1 Ha HQ. apply wp_zoom. unfold wp.
    destruct (m _) as [[r|e] ps]; [by apply HQ|exact Ha]. }
  unfold claim_round. apply wp_bind, wp_lift; [intros [] _|done].
  apply wp_bind, wp_lift; [intros l Hl|done].
  apply wp_bind, Hsv; [done|]. intros p a1 Ha1. apply wp_bind, wp_zoom, wp_modify.
  apply wp_bind, Hsv; [done|]. intros [|] a2 Ha2; simpl; [|by apply wp_ret].
  apply wp_bind, Hdd; [done|]. intros [|] a3 Ha3; [by apply wp_ret|].
  apply wp_bind, Hdd; [done|]. intros [] a4 Ha4. apply wp_ret. split; [done|]. by intros l' p' [= <- <-].
Qed.

(** Processing a commit is such a history, and enters the executor only in a
    round it has claimed. *)
Lemma process_trace commit a o a' :
  process_action_commit deps commit a = (o, a') →
  ∃ fps, actor_trace a fps a' ∧
    (w_calls (sv_world (ac_services a')) ≠ w_calls (sv_world (ac_services a)) →
     ∃ l, last_event commit = Ok l ∧ fps = [fingerprint_of commit l]).
Proof.
  intros Hp. pose proof (claim_round_frame commit a) as Hf. unfold wp in Hf.
  unfold process_action_commit, mbind, M_bind in Hp.
  destruct (claim_round deps commit a) as [[[[l p]|]|e] a1] eqn:Hc.
  - destruct Hf as [Hw Hl]. exists ([] ++ option_list (Some (fingerprint_of commit l)) ++ option_list None).
    split; [|intros _; exists l; by rewrite (Hl l p)]. rewrite app_assoc.
    eapply trace_step; [eapply trace_step; [apply trace_nil|by eapply step_claim]|].
    apply step_else. destruct (cm_action commit); [|by injection Hp as _ <-].
    unfold on_services, zoom in Hp. destruct (decide_round _ _ _ _ _ _) as [o' sv]. by injection Hp as _ <-.
  - injection Hp as _ <-. destruct Hf as [Hw _]. exists ([] ++ option_list None). split; [|by rewrite Hw].
    eapply trace_step; [apply trace_nil|by eapply step_no_claim].
  - injection Hp as _ <-. exists ([] ++ option_list None). split; [|by rewrite Hf].
    eapply trace_step; [apply trace_nil|by eapply step_no_claim].
Qed.

Lemma actor_step_spec a label a' :
  dd_ok (ac_deduper a) → actor_step a label a' →
  extends a a' ∧ ∀ f, label = Some f → ¬ marks a f ∧ marks a' f.
Proof.
  intros Hok Hstep. destruct Hstep as [commit l p a' Hc|commit o a' Hc Hn|a' Ha].
  - pose proof (claim_round_spec commit a Hok) as Hw. unfold wp in Hw. rewrite Hc in Hw.
    destruct Hw as [Hx Hf]. split; [done|]. intros f [= <-]. by eapply Hf.
  - pose proof (claim_round_spec commit a Hok) as Hw. unfold wp in Hw. rewrite Hc in Hw.
    destruct o; (split; [by try destruct Hw|done]).
  - split; [|done]. unfold extends, marks. by rewrite Ha.
Qed.

Lemma actor_trace_spec a fps a' :
  dd_ok (ac_deduper a) → actor_trace a fps a' →
  extends a a' ∧ NoDup fps ∧ ∀ f, f ∈ fps → ¬ marks a f ∧ marks a' f.
Proof.
  intros Hok. induction 1 as [|fps a1 label a2 Ht IH Hs].
  { split_and!; [done|constructor|by intros f ?%elem_of_nil]. }
  destruct (IH) as ([Hok1 Hm1] & Hnd & Hfps).
  destruct (actor_step_spec _ _ _ Hok1 Hs) as [[Hok2 Hm2] Hl]. split_and!.
  - split; [done|]. auto.
  - apply NoDup_app. split_and!; [done| |].
    + intros f Hf Hf'. destruct label as [f'|]; [|by apply elem_of_nil in Hf'].
      apply list_elem_of_singleton in Hf' as ->. destruct (Hl _ eq_refl) as [Hn _].
      by destruct (Hfps _ Hf).
    + destruct label; [apply NoDup_singleton|constructor].
  - intros f [Hf|Hf]%elem_of_app.
    + destruct (Hfps _ Hf). auto.
    + destruct label as [f'|]; [|by apply elem_of_nil in Hf].
      apply list_elem_of_singleton in Hf as ->. destruct (Hl _ eq_refl). auto.
Qed.
End claims.

(** C12: over any history of the actors that share one deduper (commits
    processed in any order and any number of times, handlers interleaved where
    they wait, restarts), and over every lawful deduper, the in-memory one and
    the SQLite one that other processes write too, no decision round is
    claimed twice: the fingerprints of the rounds entered are all different,
    none was marked before, and all stay marked.  Processing a commit is itself
    such a history, and the executor is entered only after the round of the
    commit's own fingerprint was claimed. *)
Theorem decision_round_once {L D S E} `{EventLogPort L} `{DecisionDeduperLaws D}
    `{DedupeStorePort S} (deps : RunActorDependencyBundle L D S E) (a a' : actor L D S E) fps :
  dd_ok (ac_deduper a) → actor_trace deps a fps a' →
  (NoDup fps ∧ ∀ f, f ∈ fps → ¬ marks a f ∧ marks a' f) ∧
  ∀ commit o a2, process_action_commit deps commit a' = (o, a2) →
  ∃ fps2, actor_trace deps a' fps2 a2 ∧
    (executed (ac_services a2) ≠ executed (ac_services a') →
     ∃ l, last_event commit = Ok l ∧ fps2 = [fingerprint_of commit l]).
Proof.
  intros Hok Ht. split; [by destruct (actor_trace_spec deps a fps a' Hok Ht)|].
  intros commit o a2. apply process_trace.
Qed.

(** ** One signal *)
Section signals.
Context {L D S E : Type} `{EventLogLaws L} `{DecisionDeduperPort D} `{DedupeStorePort S}.
Context (deps : RunActorDependencyBundle L D S E).
Abbreviation A := (actor L D S E).
Implicit Types a : A.

Definition actor_log a : L := log_of (ac_services a).

(** From [a0], while one signal is handled: the commits [cs] appended, the
    tokens [tokens] seen; the ledger and the executor untouched, and the
    buffer and the identity as they were. *)
Record during a0 cs (tokens : gset string) a : Prop := {
  du_log : grew (actor_log a0) cs (actor_log a);
  du_dispatch : same_dispatch (sv_world (ac_services a0)) (ac_services a);
  du_tokens : _seen_signal_tokens (ac_locals a) = tokens;
  du_pending : _pending_signals (ac_locals a) = _pending_signals (ac_locals a0);
  du_run : _run_id (ac_locals a) = _run_id (ac_locals a0);
  du_continued : lc_continued (ac_locals a) = lc_continued (ac_locals a0)
}.

(** Steps that keep all of it. *)
Definition stays {B} (m : M A B) : Prop := ∀ a0 cs tokens a,
  during a0 cs tokens a → wp m (λ _, during a0 cs tokens) (λ _, during a0 cs tokens) a.

Lemma stays_bind {B C} (m : M A B) (f : B → M A C) : stays m → (∀ b, stays (f b)) → stays (m ≫= f).
Proof.
  intros Hm Hf a0 cs tk a Hd. apply wp_bind. eapply wp_mono; [by apply Hm| |done].
  intros b a1 Hd1. by apply Hf.
Qed.

Lemma stays_ret {B} (b : B) : stays (mret b).
Proof. intros a0 cs tk a Hd. by apply wp_ret. Qed.

Lemma stays_lift {B} (o : outcome B) : stays (lift o).
Proof. intros a0 cs tk a Hd. by apply wp_lift. Qed.

Lemma stays_env {B} (m : M E B) : stays (on_services (sv_on_env m)).
Proof.
  intros a0 cs tk a []. apply wp_zoom, wp_zoom, wp_zoom. unfold wp.
  by destruct (m _) as [[b|e] env]; split.
Qed.

Lemma stays_deduper {B} (m : M D B) : stays (on_deduper m).
Proof.
  intros a0 cs tk a []. apply wp_zoom. unfold wp. by destruct (m _) as [[b|e] d]; split.
Qed.

Lemma stays_locals (f : locals → locals) :
  (∀ l, _seen_signal_tokens (f l) = _seen_signal_tokens l ∧
        _pending_signals (f l) = _pending_signals l ∧ _run_id (f l) = _run_id l ∧
        lc_continued (f l) = lc_continued l) →
  stays (on_locals (modify f)).
Proof.
  intros Hf a0 cs tk a []. apply wp_zoom, wp_modify. destruct (Hf (ac_locals a)) as (? & ? & ? & ?).
  split; simpl; congruence || done.
Qed.

Lemma stays_project run t : stays (on_services (sv_on_projection (project (dp_projection deps) run t))).
Proof.
  intros a0 cs tk a Hd. pose proof (du_log _ _ _ _ Hd) as Hl.
  assert (∀ l' cache, el_ok l' → (∀ r, el_history l' r = el_history (actor_log a) r) →
    during a0 cs tk (Actor (Services (Build_projection_service l' cache) (sv_world (ac_services a)))
                       (ac_deduper a) (ac_locals a))) as Hq.
  { intros l' cache Hok Hh. destruct Hd. split; try done. by eapply grew_quiet. }
  apply wp_zoom, wp_zoom. unfold project. apply wp_bind, wp_gets, wp_bind, wp_zoom.
  pose proof (law_load run (pj_projected_offset (default (_default_projection run)
    (_projection_by_run (sv_projection (ac_services a)) !! run))) (actor_log a) (grew_ok _ _ _ Hl)) as Hload.
  unfold actor_log, log_of in Hload. unfold wp at 1. destruct (el_load run _ _) as [[ev|e] l'];
    destruct Hload as (? & ? & _); [|by apply Hq].
  apply wp_bind, wp_lift; [intros p _|intros; by apply Hq].
  apply wp_bind, wp_modify, wp_ret. by apply Hq.
Qed.

Lemma stays_readiness run k :
  stays (on_services (sv_on_projection (readiness (dp_projection deps) run k))).
Proof.
  intros a0 cs tk a Hd. pose proof (stays_project run None a0 cs tk a Hd) as Hp.
  unfold readiness, get, wp, on_services, sv_on_projection, zoom, mbind, M_bind in *.
  by destruct (project _ _ _ _) as [[p|e] ps].
Qed.

Lemma stays_claim commit : stays (claim_round deps commit).
Proof.
  unfold claim_round.
  repeat first [ apply stays_bind; [|intros ?] | apply stays_ret | apply stays_lift
               | apply stays_deduper | apply stays_readiness | apply stays_project
               | apply stays_locals; done | case_match ].
Qed.

(** A commit without an action runs no turn. *)
Lemma stays_process commit : cm_action commit = None → stays (process_action_commit deps commit).
Proof.
  intros Hc. unfold process_action_commit. rewrite Hc.
  apply stays_bind; [apply stays_claim|]. intros [[l p]|]; apply stays_ret.
Qed.

Lemma during_start a : el_ok (actor_log a) → during a [] (_seen_signal_tokens (ac_locals a)) a.
Proof. intros Hok. split; try done. by apply grew_start. Qed.

(** The commits a handled signal may leave, and the tokens then seen. *)
Definition signal_of run (i : ActorSignal) (c : ActionCommit) : Prop :=
  ∃ sequence offset t1 t2, c = signal_commit run i sequence offset t1 t2.

Definition with_token (i : ActorSignal) (tokens : gset string) : gset string :=
  match signal_token i with Some t => {[t]} ∪ tokens | None => tokens end.

(** What handling one signal leaves: its commit or nothing, and the token only
    with the commit; a round that ends returned after its commit, and what it
    carries into a new instance is the identity of the run. *)
Record signal_post run (i : ActorSignal) a (o : outcome unit) a' : Prop := {
  sp_dispatch : same_dispatch (sv_world (ac_services a)) (ac_services a');
  sp_run : _run_id (ac_locals a') = _run_id (ac_locals a);
  sp_pending : _pending_signals (ac_locals a') = _pending_signals (ac_locals a);
  sp_log : ∃ cs, grew (actor_log a) cs (actor_log a') ∧
    ((cs = [] ∧ is_ok o = false ∧
      _seen_signal_tokens (ac_locals a') = _seen_signal_tokens (ac_locals a)) ∨
     (∃ c, cs = [c] ∧ signal_of run i c ∧
      _seen_signal_tokens (ac_locals a') = with_token i (_seen_signal_tokens (ac_locals a))));
  sp_continued : lc_continued (ac_locals a') = lc_continued (ac_locals a) ∨
    ∃ inp, lc_continued (ac_locals a') = Some inp ∧ o = Raise (Exn ContinueAsNewError "") ∧
      Some (rn_run_id inp) = _run_id (ac_locals a) ∧ rn_pending_signals inp = None ∧
      _pending_signals (ac_locals a) = [] ∧ rn_policy_versions inp = None
}.

Lemma during_post run i a o a' cs tokens :
  during a cs tokens a' →
  ((cs = [] ∧ is_ok o = false ∧ tokens = _seen_signal_tokens (ac_locals a)) ∨
   (∃ c, cs = [c] ∧ signal_of run i c ∧
      tokens = with_token i (_seen_signal_tokens (ac_locals a)))) →
  signal_post run i a o a'.
Proof. intros [] Hcs. subst tokens. split; [done|done|done|by exists cs|by left]. Qed.

Lemma continue_spec run i a c a1 :
  signal_of run i c →
  during a [c] (with_token i (_seen_signal_tokens (ac_locals a))) a1 →
  wp (l ← on_locals (gets id);
      if _should_continue_as_new deps l then on_locals (_trigger_continue_as_new deps) else mret tt)
    (λ u, signal_post run i a (Ok u)) (λ e, signal_post run i a (Raise e)) a1.
Proof.
  intros Hc Hd. destruct a1 as [sv1 d1 l1]. apply wp_bind, wp_zoom, wp_gets. simpl.
  assert (∀ o, signal_post run i a o (Actor sv1 d1 l1)) as Hpost
    by (intros o; eapply during_post; [exact Hd|eauto]).
  destruct (_should_continue_as_new deps l1) eqn:Hs; [|by apply wp_ret].
  unfold _should_continue_as_new in Hs. destruct (dp_temporal deps) eqn:Ht; [|done].
  destruct (_ <? _)%Z; [done|]. destruct (_last_projection _); [|done].
  destruct (_pending_signals l1) eqn:Hp; [|done].
  apply wp_zoom. unfold _trigger_continue_as_new. apply wp_bind, wp_gets. rewrite Ht. simpl.
  destruct (_run_id l1) as [run'|] eqn:Hr; [|by apply wp_ret].
  apply wp_bind, wp_modify, wp_raise. destruct Hd. simpl in *. split; simpl.
  - done.
  - done.
  - done.
  - exists [c]. split; [done|]. right. by eauto.
  - right. eexists. split_and!; [done|done|simpl; congruence|simpl; by rewrite Hp|congruence|done].
Qed.

Lemma handle_signal_spec run i a :
  el_ok (actor_log a) → identity (ac_locals a) = Some run →
  peer_rejected (ac_locals a) i = false → already_seen (ac_locals a) i = false →
  wp (_handle_signal deps i)
    (λ u, signal_post run i a (Ok u)) (λ e, signal_post run i a (Raise e)) a.
Proof.
  intros Hok Hid Hpeer Hseen. pose proof (during_start a Hok) as Hd.
  set (tk := _seen_signal_tokens (ac_locals a)) in Hd.
  assert (∀ e a', during a [] tk a' → signal_post run i a (Raise e) a') as Hnone.
  { intros e a' Hd'. eapply during_post; [exact Hd'|by left]. }
  assert (∀ B C (m : M A B) (f : B → M A C) cs t a1 (Q : C → A → Prop) Ex, stays m → during a cs t a1 →
    (∀ b a2, during a cs t a2 → wp (f b) Q Ex a2) → (∀ e a2, during a cs t a2 → Ex e a2) →
    wp (m ≫= f) Q Ex a1) as Hstep.
  { intros B C m f cs t a1 Q Ex Hm Hd1 HQ HE. apply wp_bind. by eapply wp_mono; [by apply Hm|..]. }
  unfold _handle_signal. apply wp_bind, wp_zoom, wp_gets. simpl.
  destruct a as [sv d l]. simpl in *. rewrite Hid, Hpeer, Hseen. simpl.
  eapply Hstep; [by apply stays_locals|exact Hd| |done]. intros [] a1 Hd1.
  eapply Hstep; [apply stays_project|exact Hd1| |done]. intros p a2 Hd2.
  eapply Hstep; [apply stays_env|exact Hd2| |done]. intros t1 a3 Hd3.
  eapply Hstep; [apply stays_env|exact Hd3| |done]. intros t2 a4 Hd4.
  set (c := signal_commit _ _ _ _ _ _). assert (signal_of run i c) as Hc by by do 4 eexists.
  apply wp_bind, wp_zoom, wp_zoom, wp_zoom. pose proof (grew_ok _ _ _ (du_log _ _ _ _ Hd4)) as Hok4.
  pose proof (law_append c (actor_log a4) Hok4) as Happ.
  unfold actor_log, log_of in *. unfold wp at 1.
  destruct (el_append c _) as [[ref|e] l'] eqn:Hel.
  2:{ apply Hnone. destruct Hd4, Happ. split; try done. by eapply grew_quiet. }
  match goal with |- wp _ _ _ ?x => assert (during (Actor sv d l) [c] tk x) as Hd5 end.
  { destruct Hd4. split; try done. by eapply (grew_append _ [] _ c). }
  apply wp_bind. match goal with |- wp _ _ _ ?x => generalize x, Hd5 end. clear Hd5. intros a5 Hd5.
  assert (wp (match signal_token i with
              | Some token => on_locals (modify (add_token token)) | None => mret tt end)
    (λ _, during (Actor sv d l) [c] (with_token i tk)) (λ _, during (Actor sv d l) [c] (with_token i tk)) a5) as Htok.
  { unfold with_token. destruct (signal_token i); [|by apply wp_ret].
    apply wp_zoom, wp_modify. destruct Hd5. split; simpl; congruence || done. }
  assert (∀ o a', during (Actor sv d l) [c] (with_token i tk) a' →
    signal_post run i (Actor sv d l) o a') as Hone.
  { intros o a' Hd'. eapply during_post; [exact Hd'|]. right. by exists c. }
  eapply wp_mono; [exact Htok| |by auto]. intros [] a6 Hd6.
  eapply Hstep; [by apply stays_process|exact Hd6| |by auto]. intros [] a7 Hd7.
  eapply Hstep; [by apply stays_locals|exact Hd7| |by auto]. intros [] a8 Hd8.
  by apply continue_spec with (c := c).
Qed.
End signals.

(** C13: what handling one signal does, once the run has started, over every
    lawful event log.  A signal from a peer that may not signal this run, and
    one whose cause has been seen, change nothing at all.  Any other signal
    leaves the buffer, the ledger and the executor alone (a signal never runs
    a turn), and appends exactly its one commit, whose token is then seen, or
    raises, appends nothing and marks nothing, so that a retry is processed
    again.  Where the handler restarts the workflow it does so after its
    commit, with no signal buffered, and the new input carries the identity of
    the run but not its pinned policy versions. *)
Theorem signal_effect {L D S E} `{EventLogLaws L} `{DecisionDeduperPort D} `{DedupeStorePort S}
    (deps : RunActorDependencyBundle L D S E) run i (a : actor L D S E) :
  el_ok (actor_log a) → identity (ac_locals a) = Some run →
  let '(o, a') := signal deps i a in
  if peer_rejected (ac_locals a) i || already_seen (ac_locals a) i then o = Ok tt ∧ a' = a
  else signal_post run i a o a'.
Proof.
  intros Hok Hid. assert (signal deps i a = _handle_signal deps i a) as ->.
  { destruct a as [sv d l]. unfold signal, mbind, M_bind, on_locals, zoom, gets. simpl in *. by rewrite Hid. }
  destruct (_ || _) eqn:Hpre.
  - destruct a as [sv d l]. unfold _handle_signal, mbind, M_bind, on_locals, zoom, gets. simpl in *.
    by rewrite Hid, Hpre.
  - apply orb_false_iff in Hpre as [Hpeer Hseen].
    pose proof (handle_signal_spec deps run i a Hok Hid Hpeer Hseen) as Hw. unfold wp in Hw.
    by destruct (_handle_signal deps i a) as [[[]|e] a'].
Qed.

(** ** A concrete actor: everything in memory, an engine that acknowledges, a
    gate that aborts. *)
Abbreviation example_services := (services InMemoryKernelRuntimeEventLog.t InMemoryDedupeStore.t unit).
Abbreviation example_actor :=
  (actor InMemoryKernelRuntimeEventLog.t InMemoryDecisionDeduper.t InMemoryDedupeStore.t unit).

Definition example_deps : RunActorDependencyBundle InMemoryKernelRuntimeEventLog.t
    InMemoryDecisionDeduper.t InMemoryDedupeStore.t unit :=
  {| dp_projection := {| _reject_derived_diagnostic_authority_input := true;
                         _event_schema_migrator := None; _target_event_schema_version := None |};
     dp_turn_engine := example_engine;
     dp_recovery_decide i := mret
       {| rd_run_id := ri_run_id i; rd_mode := "abort"; rd_reason := ri_reason_code i;
          rd_compensation_action_id := None; rd_escalation_channel_ref := None;
          rd_corrected_action := None; rd_retry_after_ms := None; rd_failure_count := 1 |};
     dp_on_action_success := None; dp_recovery_outcomes := None; dp_turn_intent_log := None;
     dp_utc_now := λ e, ("2026-01-01T00:00:00Z", e);
     dp_history_event_threshold := 10000; dp_workflow_id_prefix := "run"; dp_temporal := None |}.

Definition example_sv : example_services :=
  Services (Build_projection_service InMemoryKernelRuntimeEventLog.__init__ ∅) example_world.

Definition example_run_input : RunInput :=
  {| rn_run_id := "run-1"; rn_session_id := None; rn_parent_run_id := None; rn_input_ref := None;
     rn_input_json := None; rn_runtime_context_ref := None; rn_trace_context := None;
     rn_pending_signals := None; rn_policy_versions := None; rn_initial_stage_id := None;
     rn_task_contract_ref := None |}.

Definition example_start : example_actor :=
  (run example_deps example_run_input (Actor example_sv InMemoryDecisionDeduper.__init__ new_locals)).2.

Definition example_signal : ActorSignal :=
  {| as_signal_type := "timeout"; as_signal_payload := None; as_caused_by := Some "timer-1";
     as_signal_token := None; as_from_peer_run_id := None |}.

Lemma example_gate_read_only : gate_read_only example_deps.
Proof. intros i sv Hok. by split. Qed.

Lemma round_leaves_outcome_witness :
  let '(turn, _) := run_turn example_engine (turn_input "run-1" 1) (Some example_action) example_world in
  let '(o, sv') := decide_round example_deps "run-1" example_action 1
                     (_default_projection "run-1") example_sv in
  is_ok turn = true ∧ o = Ok tt ∧
  ∃ cs, logged example_sv cs sv' ∧ round_post example_deps "run-1" example_action 1 turn o cs.
Proof.
  pose proof (round_leaves_outcome example_deps "run-1" example_action 1
                (_default_projection "run-1") example_sv example_gate_read_only
                InMemoryKernelRuntimeEventLog.wf_init I) as Hround.
  change (dp_turn_engine example_deps) with example_engine in Hround.
  change (sv_world example_sv) with example_world in Hround.
  assert (is_ok (run_turn example_engine (turn_input "run-1" 1) (Some example_action)
                   example_world).1 = true) as Hturn by (vm_compute; reflexivity).
  assert ((decide_round example_deps "run-1" example_action 1 (_default_projection "run-1")
             example_sv).1 = Ok tt) as Ho by (vm_compute; reflexivity).
  destruct (run_turn _ _ _ _) as [turn w]. destruct (decide_round _ _ _ _ _ _) as [o sv'].
  split; [exact Hturn|]. split; [exact Ho|exact Hround].
Defined.

Definition example_commit : ActionCommit :=
  {| cm_run_id := "run-1"; cm_commit_id := "c1";
     cm_events := [actor_event "run-1" "e1" "run.ready" 0 true "wake_actor" None None "t"];
     cm_created_at := "t"; cm_action := Some example_action; cm_caused_by := None |}.

Definition claimed_once : example_actor := (claim_round example_deps example_commit example_start).2.
Definition claimed_twice : example_actor := (claim_round example_deps example_commit claimed_once).2.

(** The second time the same commit comes it claims nothing. *)
Lemma decision_round_once_witness :
  actor_trace example_deps example_start ["run-1:c1:0"] claimed_twice ∧
  NoDup ["run-1:c1:0"] ∧ marks claimed_twice "run-1:c1:0".
Proof.
  assert (actor_trace example_deps example_start ["run-1:c1:0"] claimed_twice) as Ht.
  { assert (actor_trace example_deps example_start (([] ++ ["run-1:c1:0"]) ++ []) claimed_twice) as H;
      [|exact H].
    refine (trace_step _ _ _ claimed_once None _ _ _).
    - refine (trace_step _ _ _ example_start (Some "run-1:c1:0") _ (trace_nil _ _) _).
      destruct (claim_round example_deps example_commit example_start) as [[[[l p]|]|e] a'] eqn:Hc.
      + assert (claimed_once = a') as -> by (unfold claimed_once; rewrite Hc; reflexivity).
        assert ("run-1:c1:0" = fingerprint_of example_commit l) as ->.
        { pose proof (claim_round_frame example_deps example_commit example_start) as Hf.
          unfold wp in Hf. rewrite Hc in Hf. destruct Hf as [_ Hl]. specialize (Hl l p eq_refl).
          injection Hl as <-. vm_compute. reflexivity. }
        exact (step_claim _ _ _ _ p _ Hc).
      + exfalso. assert (match (claim_round example_deps example_commit example_start).1 with
                         | Ok (Some _) => True | _ => False end) as Hn by (vm_compute; exact I).
        rewrite Hc in Hn. exact Hn.
      + exfalso. assert (match (claim_round example_deps example_commit example_start).1 with
                         | Ok (Some _) => True | _ => False end) as Hn by (vm_compute; exact I).
        rewrite Hc in Hn. exact Hn.
    - destruct (claim_round example_deps example_commit claimed_once) as [o a'] eqn:Hc.
      assert (claimed_twice = a') as -> by (unfold claimed_twice; rewrite Hc; reflexivity).
      refine (step_no_claim _ _ example_commit o a' Hc _).
      assert (o = Ok None) as ->.
      { change o with (o, a').1. rewrite <- Hc. vm_compute. reflexivity. }
      intros c H. discriminate H. }
  split; [exact Ht|].
  assert (dd_ok (ac_deduper example_start)) as Hok by exact I.
  destruct (decision_round_once example_deps example_start claimed_twice ["run-1:c1:0"] Hok Ht)
    as [[Hnd Hm] _].
  split; [exact Hnd|]. apply Hm. left.
Defined.

Lemma signal_effect_witness :
  let '(o, a') := signal example_deps example_signal example_start in
  o = Ok tt ∧ signal_post "run-1" example_signal example_start o a' ∧
  (signal example_deps example_signal a').2 = a'.
Proof.
  pose proof (signal_effect example_deps "run-1" example_signal example_start
                InMemoryKernelRuntimeEventLog.wf_init eq_refl) as Heff.
  assert ((signal example_deps example_signal example_start).1 = Ok tt) as Ho by (vm_compute; reflexivity).
  assert ((signal example_deps example_signal (signal example_deps example_signal example_start).2).2
          = (signal example_deps example_signal example_start).2) as Htwice by (vm_compute; reflexivity).
  destruct (signal example_deps example_signal example_start) as [o a'].
  split; [exact Ho|]. split; [exact Heff|exact Htwice].
Defined.

(** The same actor with a turn intent log that cannot be written. *)
Definition failing_deps : RunActorDependencyBundle InMemoryKernelRuntimeEventLog.t
    InMemoryDecisionDeduper.t InMemoryDedupeStore.t unit :=
  {| dp_projection := dp_projection example_deps;
     dp_turn_engine := example_engine;
     dp_recovery_decide := dp_recovery_decide example_deps;
     dp_on_action_success := None; dp_recovery_outcomes := None;
     dp_turn_intent_log := Some (λ _, raise (Exn (OtherError "OperationalError") "disk I/O error"));
     dp_utc_now := λ e, ("2026-01-01T00:00:00Z", e);
     dp_history_event_threshold := 10000; dp_workflow_id_prefix := "run"; dp_temporal := None |}.

Lemma failed_append_keeps_acknowledged_witness :
  ∃ r w e sv',
    run_turn example_engine (turn_input "run-1" 1) (Some example_action) example_world = (Ok r, w) ∧
    record_outcome failing_deps "run-1" (1 + 1) r "a1" (Services (sv_projection example_sv) w)
      = (Raise e, sv') ∧
    ∃ x, cx_dedupe_available (xc_turn x) = true →
      in_state (view (sv_world sv')) (turn_key (xc_turn x)) acknowledged.
Proof.
  assert (match run_turn example_engine (turn_input "run-1" 1) (Some example_action) example_world with
          | (Ok r, w) =>
              tr_outcome_kind r = out_dispatched ∧
              is_ok (record_outcome failing_deps "run-1" (1 + 1) r "a1"
                       (Services (sv_projection example_sv) w)).1 = false
          | _ => False
          end) as Hrun2 by (vm_compute; split; reflexivity).
  destruct (run_turn example_engine (turn_input "run-1" 1) (Some example_action) example_world)
    as [[r|e] w] eqn:Hrun; [|destruct Hrun2].
  destruct Hrun2 as [Hk Hf].
  destruct (record_outcome failing_deps "run-1" (1 + 1) r "a1" (Services (sv_projection example_sv) w))
    as [[n|e] sv'] eqn:Hrec; [discriminate Hf|].
  exists r, w, e, sv'. split; [reflexivity|]. split; [exact Hrec|].
  assert (ds_ok (w_store example_world)) as Hok by exact I.
  destruct (failed_append_keeps_acknowledged failing_deps "run-1" example_action 1
              (sv_projection example_sv) example_world w r e sv' Hok Hrun Hk Hrec)
    as (_ & x & _ & Hst).
  exists x. exact Hst.
Defined.
