(* ===== verification/RecordStores.v ===== *)
(** * Stores of records ([kernel/persistence/])

    The turn intents (sqlite_turn_intent_log.py), the recovery outcomes
    (sqlite_recovery_outcome_store.py and kernel/minimal_runtime.py) and the
    task views (sqlite_task_view_log.py). *)
From S2P Require Export RunActor Sqlite.

(** ** Tables with an [AUTOINCREMENT] key *)
Record id_table (R : Type) := IdTable { it_next : Z; it_rows : list (Z * R) }.
Arguments IdTable {R}.
Arguments it_next {R}.
Arguments it_rows {R}.

Definition empty_table {R} : id_table R := IdTable 1 [].

Definition insert_row {R} (r : R) (t : id_table R) : id_table R :=
  IdTable (it_next t + 1) (it_rows t ++ [(it_next t, r)]).

(** The row that [ORDER BY ... LIMIT 1] returns. *)
Definition pick {A} (newer : A → A → bool) (l : list A) : option A :=
  fold_left (λ best r, match best with
                       | None => Some r
                       | Some b => if newer r b then Some r else best
                       end) l None.

Section latest.
Context {R : Type} (written : R → string).

(** [ORDER BY written_at DESC, id DESC LIMIT 1]. *)
Definition newer (a b : Z * R) : bool :=
  String.ltb (written (snd b)) (written (snd a))
  || (String.eqb (written (snd a)) (written (snd b)) && (fst b <? fst a)%Z).

Definition latest (rows : list (Z * R)) : option (Z * R) := pick newer rows.
End latest.

(** [try: execute; commit  except Exception: rollback; raise]. *)
Definition write_one {T} (f : T → T) : M (conn T) unit :=
  transaction implicit_begin (exec_write (λ t, Ok (tt, f t))).

(** ** Turn intents *)
Module SQLiteTurnIntentLog.
Abbreviation rows := (id_table TurnIntentRecord).
Abbreviation t := (conn rows).

Definition same_ref (intent : TurnIntentRecord) (row : Z * TurnIntentRecord) : bool :=
  bool_decide (tn_intent_commit_ref (snd row) = tn_intent_commit_ref intent).

(** [INSERT ... ON CONFLICT(intent_commit_ref) DO UPDATE]: the row keeps its id;
    the one made for the insertion is used up. *)
Definition upsert (intent : TurnIntentRecord) (table : rows) : rows :=
  if existsb (same_ref intent) (it_rows table)
  then IdTable (it_next table + 1)
         (map (λ row, if same_ref intent row then (fst row, intent) else row) (it_rows table))
  else insert_row intent table.

Definition write_intent (intent : TurnIntentRecord) : M t unit := write_one (upsert intent).

Definition latest_for_run (run_id : string) : M t (option TurnIntentRecord) :=
  exec_select (λ table : rows,
    snd <$> latest tn_written_at (filter (λ row, tn_run_id (snd row) = run_id) (it_rows table))).
End SQLiteTurnIntentLog.

(** ** Recovery outcomes

    [emitted_event_ids_json] is kept as the list that [_deserialize_ids] reads
    from it, which for a list of [str] is the list itself. *)
Module SQLiteRecoveryOutcomeStore.
Abbreviation rows := (id_table RecoveryOutcome).
Abbreviation t := (conn rows).

Definition write_outcome (outcome : RecoveryOutcome) : M t unit := write_one (insert_row outcome).

Definition latest_for_run (run_id : string) : M t (option RecoveryOutcome) :=
  exec_select (λ table : rows,
    snd <$> latest ro_written_at (filter (λ row, ro_run_id (snd row) = run_id) (it_rows table))).
End SQLiteRecoveryOutcomeStore.

Module InMemoryRecoveryOutcomeStore.
(** [_outcomes_by_run]. *)
Abbreviation t := (gmap string (list RecoveryOutcome)).

Definition __init__ : t := ∅.

Definition write_outcome (outcome : RecoveryOutcome) : M t unit :=
  modify (λ s, <[ro_run_id outcome := default [] (s !! ro_run_id outcome) ++ [outcome]]> s).

Definition latest_for_run (run_id : string) : M t (option RecoveryOutcome) :=
  gets (λ s, last (default [] (s !! run_id))).
End InMemoryRecoveryOutcomeStore.

(** ** Task views *)
Record TaskViewRecord := {
  tv_task_view_id : string;
  tv_run_id : string;
  tv_selected_model_role : string;
  tv_assembled_at : string;
  tv_decision_ref : option string;
  tv_stage_id : option string;
  tv_branch_id : option string;
  tv_task_contract_ref : option string;
  tv_evidence_refs : list string;
  tv_memory_refs : list string;
  tv_knowledge_refs : list string;
  tv_policy_versions : option RunPolicyVersions;
  tv_schema_version : string
}.

Module SQLiteTaskViewLog.
Definition _policy_versions_to_dict (pv : option RunPolicyVersions) : option pydict :=
  (λ v, [ ("route_policy_version", opt_str (route_policy_version v));
          ("skill_policy_version", opt_str (skill_policy_version v));
          ("evaluation_policy_version", opt_str (evaluation_policy_version v));
          ("task_view_policy_version", opt_str (task_view_policy_version v));
          ("pinned_at", PStr (pinned_at v)) ]) <$> pv.

(** A row: the record, with [policy_versions_json] as the value it is read
    back as.  The rows are in the order of their insertion. *)
Record row := Row { row_record : TaskViewRecord; row_policy_versions_json : option pydict }.
Abbreviation rows := (list row).
Abbreviation t := (conn rows).

Definition row_id (r : row) : string := tv_task_view_id (row_record r).

Definition insert_record (record : TaskViewRecord) (table : rows) : rows :=
  if existsb (λ r, bool_decide (row_id r = tv_task_view_id record)) table then table
  else table ++ [Row record (_policy_versions_to_dict (tv_policy_versions record))].

Definition write (record : TaskViewRecord) : M t unit := write_one (insert_record record).

Definition with_decision (decision_ref : option string) (pv : option RunPolicyVersions)
    (r : TaskViewRecord) : TaskViewRecord :=
  {| tv_task_view_id := tv_task_view_id r; tv_run_id := tv_run_id r;
     tv_selected_model_role := tv_selected_model_role r; tv_assembled_at := tv_assembled_at r;
     tv_decision_ref := decision_ref; tv_stage_id := tv_stage_id r; tv_branch_id := tv_branch_id r;
     tv_task_contract_ref := tv_task_contract_ref r; tv_evidence_refs := tv_evidence_refs r;
     tv_memory_refs := tv_memory_refs r; tv_knowledge_refs := tv_knowledge_refs r;
     tv_policy_versions := pv; tv_schema_version := tv_schema_version r |}.

Definition _row_to_record (r : row) : outcome TaskViewRecord :=
  pv ← match row_policy_versions_json r with
       | None | Some [] => Ok None
       | Some d => v ← policy_versions_of d; Ok (Some v)
       end;
  Ok (with_decision (tv_decision_ref (row_record r)) pv (row_record r)).

Fixpoint records_of (rs : rows) : outcome (list TaskViewRecord) :=
  match rs with
  | [] => Ok []
  | r :: rs' => x ← _row_to_record r; xs ← records_of rs'; Ok (x :: xs)
  end.

Definition opt_record (r : option row) : outcome (option TaskViewRecord) :=
  match r with Some r => x ← _row_to_record r; Ok (Some x) | None => Ok None end.

Definition get_by_id (task_view_id : string) : M t (option TaskViewRecord) :=
  found ← exec_select (λ table : rows, head (filter (λ r, row_id r = task_view_id) table));
  lift (opt_record found).

(** Of several with the same time SQL leaves the choice open; here the first
    one inserted. *)
Definition later (a b : row) : bool :=
  String.ltb (tv_assembled_at (row_record b)) (tv_assembled_at (row_record a)).

Definition get_by_decision (run_id decision_ref : string) : M t (option TaskViewRecord) :=
  found ← exec_select (λ table : rows,
    pick later (filter (λ r, tv_run_id (row_record r) = run_id ∧
                             tv_decision_ref (row_record r) = Some decision_ref) table));
  lift (opt_record found).

Definition assembled_le (a b : row) : Prop :=
  String.le (tv_assembled_at (row_record a)) (tv_assembled_at (row_record b)).

#[global] Instance assembled_le_dec : RelDecision assembled_le.
Proof. intros a b. unfold assembled_le. apply _. Defined.

Definition list_for_run (run_id : string) : M t (list TaskViewRecord) :=
  found ← exec_select (λ table : rows,
    merge_sort assembled_le (filter (λ r, tv_run_id (row_record r) = run_id) table));
  lift (records_of found).

Definition rebind (task_view_id decision_ref : string) (r : row) : row :=
  if decide (row_id r = task_view_id)
  then Row (with_decision (Some decision_ref) (tv_policy_versions (row_record r)) (row_record r))
         (row_policy_versions_json r)
  else r.

Definition bind_to_decision (task_view_id decision_ref : string) : M t unit :=
  write_one (map (rebind task_view_id decision_ref)).
End SQLiteTaskViewLog.

(** ** Operations one after the other *)
Definition each {S A} (m : A → M S unit) (l : list A) : M S unit :=
  foldr (λ a rest, m a;; rest) (mret tt) l.

Section quiet.
Context {T : Type}.
Implicit Types c : conn T.

Lemma write_one_quiet (f : T → T) c :
  quiet c → ∃ c', write_one f c = (Ok tt, c') ∧ cn_committed c' = f (cn_committed c) ∧ quiet c'.
Proof.
  intros Hc. unfold write_one.
  by apply (serializable_quiet _ ValueError (λ t, Some (tt, f t)) c tt _
    (one_write_serializable (λ t, (tt, f t)) ValueError) Hc).
Qed.

Lemma select_quiet {A} (f : T → A) c :
  quiet c → ∃ c', exec_select f c = (Ok (f (cn_committed c)), c').
Proof.
  intros Hc.
  destruct (serializable_quiet _ ValueError _ c _ _ (atomic_serializable _ ValueError _ (select_atomic f ValueError))
    Hc eq_refl) as (c' & Hr & _). by exists c'.
Qed.

Lemma each_quiet {A} (m : A → M (conn T) unit) (g : A → T → T) l c :
  (∀ a, m a = write_one (g a)) → quiet c →
  ∃ c', each m l c = (Ok tt, c') ∧ cn_committed c' = fold_left (λ t a, g a t) l (cn_committed c) ∧ quiet c'.
Proof.
  intros Hm. revert c. induction l as [|a l IH]; intros c Hc; [by exists c|].
  simpl. unfold mbind, M_bind. rewrite Hm.
  destruct (write_one_quiet (g a) c Hc) as (c1 & -> & H1 & Hc1).
  destruct (IH c1 Hc1) as (c2 & -> & H2 & Hc2). exists c2. by rewrite H2, H1.
Qed.
End quiet.

(** ** The latest row *)
Section pick_facts.
Context {A : Type} (newer : A → A → bool).

Lemma pick_snoc l r :
  pick newer (l ++ [r]) =
  match pick newer l with None => Some r | Some b => if newer r b then Some r else Some b end.
Proof. unfold pick. rewrite fold_left_app. simpl. by destruct (fold_left _ l None). Qed.

Lemma pick_spec (le : A → A → Prop) `{!PreOrder le} l :
  (∀ a b, if newer a b then le b a else le a b) →
  match pick newer l with
  | None => l = []
  | Some m => m ∈ l ∧ ∀ r, r ∈ l → le r m
  end.
Proof.
  intros Hn. induction l as [|r l IH] using rev_ind; [done|]. rewrite pick_snoc.
  destruct (pick newer l) as [b|].
  - destruct IH as [Hb Hle]. specialize (Hn r b). destruct (newer r b).
    + split; [set_solver|]. intros r' [Hr'| ->%list_elem_of_singleton]%elem_of_app; [|done].
      etrans; [by apply Hle|done].
    + split; [set_solver|]. intros r' [Hr'| ->%list_elem_of_singleton]%elem_of_app; auto.
  - subst. split; [set_solver|]. by intros r' ->%list_elem_of_singleton.
Qed.
End pick_facts.

Lemma ltb_negb s1 s2 : String.ltb s1 s2 = negb (String.leb s2 s1).
Proof.
  unfold String.leb, String.ltb. rewrite (String.compare_antisym s1 s2).
  by destruct (String.compare s2 s1).
Qed.

Lemma not_leb s1 s2 : String.leb s1 s2 = false → String.le s2 s1.
Proof.
  intros Hl. unfold String.le. apply Is_true_true. destruct (String.leb_total s1 s2); congruence.
Qed.

#[export] Instance le_by_preorder {A} (f : A → string) : PreOrder (λ a b, String.le (f a) (f b)).
Proof. split; [by intros a|]. intros a b c H1 H2. by etrans. Qed.

Section latest_facts.
Context {R : Type} (written : R → string).
Implicit Types rows : list (Z * R).

Lemma newer_le a b :
  if newer written a b then String.le (written (snd b)) (written (snd a))
  else String.le (written (snd a)) (written (snd b)).
Proof.
  unfold newer. rewrite ltb_negb. destruct (String.leb _ _) eqn:Hl; simpl; [|by apply not_leb].
  destruct (String.eqb_spec (written (snd a)) (written (snd b))) as [He|]; simpl.
  - rewrite He. by destruct (_ <? _)%Z.
  - by apply Is_true_true.
Qed.

Lemma latest_row_max rows :
  match latest written rows with
  | None => rows = []
  | Some m => m ∈ rows ∧ ∀ r, r ∈ rows → String.le (written (snd r)) (written (snd m))
  end.
Proof. apply (pick_spec _ (λ a b, String.le (written (snd a)) (written (snd b)))). apply newer_le. Qed.

(** In order of their ids, and of their times: the last one. *)
Lemma latest_last rows :
  StronglySorted (λ a b, (fst a < fst b)%Z) rows →
  StronglySorted (λ a b, String.le (written (snd a)) (written (snd b))) rows →
  latest written rows = last rows.
Proof.
  intros Hid Hw. induction rows as [|r rows IH] using rev_ind; [done|].
  unfold latest in *. rewrite pick_snoc, last_snoc.
  apply StronglySorted_app in Hid as (Hx & Hid & _), Hw as (Hy & Hw & _).
  rewrite IH by done. destruct (last rows) as [b|] eqn:Hb; [|done].
  apply last_Some in Hb as [l' ->].
  assert (newer written r b = true) as ->; [|done].
  assert (fst b < fst r)%Z by (apply Hx; set_solver).
  assert (String.le (written (snd b)) (written (snd r))) as Hle by (apply Hy; set_solver).
  unfold newer. rewrite ltb_negb. destruct (String.leb (written (snd r)) (written (snd b))) eqn:Hl; [|done].
  apply Is_true_true in Hle. rewrite (String.leb_antisym _ _ Hl Hle), String.eqb_refl. simpl.
  by apply Z.ltb_lt.
Qed.
End latest_facts.

Lemma each_modify {S A} (g : A → S → S) l s :
  each (λ a, modify (g a)) l s = (Ok tt, fold_left (λ s a, g a s) l s).
Proof. revert s. induction l as [|a l IH]; intros s; [done|]. simpl. unfold mbind, M_bind. simpl. apply IH. Qed.

(** Inserted rows have growing ids, below the next one. *)
Record grown {R} (l : list R) (t : id_table R) : Prop := {
  gr_values : map snd (it_rows t) = l;
  gr_ids : StronglySorted (λ a b, (fst a < fst b)%Z) (it_rows t);
  gr_below : Forall (λ r, (fst r < it_next t)%Z) (it_rows t)
}.

Lemma grown_insert {R} l (r : R) t : grown l t → grown (l ++ [r]) (insert_row r t).
Proof.
  intros [Hv Hs Hb]. split; simpl.
  - by rewrite map_app, Hv.
  - apply StronglySorted_app. split_and!; [|done|repeat constructor].
    intros x y Hx ->%list_elem_of_singleton. simpl. rewrite Forall_forall in Hb. by apply Hb.
  - apply Forall_app. split; [|repeat constructor; simpl; lia].
    eapply Forall_impl; [exact Hb|]. simpl. lia.
Qed.

Lemma grown_empty {R} : @grown R [] empty_table.
Proof. repeat constructor. Qed.

Lemma filter_values {R} (P : R → Prop) `{!∀ x, Decision (P x)} (rows : list (Z * R)) :
  map snd (filter (λ row, P (snd row)) rows) = filter P (map snd rows).
Proof. induction rows as [|r rows IH]; [done|]. simpl. rewrite !filter_cons. case_decide; simpl; by rewrite IH. Qed.

Lemma sorted_values {R} (le : R → R → Prop) (rows : list (Z * R)) :
  StronglySorted le (map snd rows) → StronglySorted (λ a b, le (snd a) (snd b)) rows.
Proof.
  induction rows as [|r rows IH]; [constructor|]. simpl. intros Hs. apply StronglySorted_inv in Hs as [Hs Hf].
  constructor; [by apply IH|]. rewrite Forall_forall in Hf. apply Forall_forall. intros x Hx. apply Hf.
  by apply list_elem_of_fmap_2.
Qed.

Lemma sorted_filter {A} (R : A → A → Prop) (P : A → Prop) `{!∀ x, Decision (P x)} l :
  StronglySorted R l → StronglySorted R (filter P l).
Proof.
  induction 1 as [|x l Hs IH Hf]; [constructor|]. rewrite filter_cons. case_decide; [|done].
  constructor; [done|]. rewrite Forall_forall in Hf. apply Forall_forall. intros y [_ Hy]%list_elem_of_filter. by apply Hf.
Qed.

(** ** Recovery outcomes: the two stores *)
Definition outcomes_of (run : string) (os : list RecoveryOutcome) : list RecoveryOutcome :=
  filter (λ o, ro_run_id o = run) os.

Lemma memory_outcomes run os (s : InMemoryRecoveryOutcomeStore.t) :
  default [] (fold_left (λ s o, <[ro_run_id o := default [] (s !! ro_run_id o) ++ [o]]> s) os s !! run) =
  default [] (s !! run) ++ outcomes_of run os.
Proof.
  revert s. induction os as [|o os IH]; intros s; simpl; [by rewrite app_nil_r|].
  rewrite IH. unfold outcomes_of. rewrite filter_cons. destruct (decide (ro_run_id o = run)) as [->|Hne].
  - rewrite lookup_insert_eq. simpl. by rewrite <- app_assoc.
  - by rewrite lookup_insert_ne.
Qed.

(** On a database of its own and without failing statements, the SQLite
    store answers as the in-memory one after the same writes, when the times of
    a run's outcomes do not go back: the last outcome written. *)
Theorem outcome_stores_agree (os : list RecoveryOutcome) (run : string) (c : SQLiteRecoveryOutcomeStore.t)
    (Hc : quiet c) (Hnew : cn_committed c = empty_table)
    (Hord : StronglySorted (λ a b, String.le (ro_written_at a) (ro_written_at b)) (outcomes_of run os)) :
  ∃ c' s', each SQLiteRecoveryOutcomeStore.write_outcome os c = (Ok tt, c') ∧
    each InMemoryRecoveryOutcomeStore.write_outcome os InMemoryRecoveryOutcomeStore.__init__ = (Ok tt, s') ∧
    (SQLiteRecoveryOutcomeStore.latest_for_run run c').1 = Ok (last (outcomes_of run os)) ∧
    (InMemoryRecoveryOutcomeStore.latest_for_run run s').1 = Ok (last (outcomes_of run os)).
Proof.
  destruct (each_quiet SQLiteRecoveryOutcomeStore.write_outcome insert_row os c (λ _, eq_refl) Hc)
    as (c' & Hw & Ht & Hc').
  unfold InMemoryRecoveryOutcomeStore.write_outcome. rewrite each_modify. eexists _, _.
  split; [done|]. split; [done|]. split.
  - unfold SQLiteRecoveryOutcomeStore.latest_for_run.
    destruct (select_quiet (λ table : SQLiteRecoveryOutcomeStore.rows, snd <$> latest ro_written_at
      (filter (λ row, ro_run_id (snd row) = run) (it_rows table))) c' Hc') as [c2 ->].
    assert (grown os (cn_committed c')) as [Hv Hs Hb].
    { rewrite Ht, Hnew. clear. induction os as [|o os IH] using rev_ind; [apply grown_empty|].
      rewrite fold_left_app. by apply grown_insert. }
    set (l := filter _ _). assert (map snd l = outcomes_of run os) as Hl.
    { unfold outcomes_of. rewrite <- Hv. exact (filter_values (λ o, ro_run_id o = run) _). }
    simpl. rewrite latest_last, <- Hl.
    + f_equal. clear. induction l as [|x l _] using rev_ind; [done|].
      rewrite map_app. simpl. by rewrite !last_snoc.
    + by apply sorted_filter.
    + apply (sorted_values (λ a b, String.le (ro_written_at a) (ro_written_at b))). by rewrite Hl.
  - unfold InMemoryRecoveryOutcomeStore.latest_for_run, gets. simpl. by rewrite memory_outcomes.
Qed.

Lemma quiet_new {T} (t : T) : quiet (Conn t Closed []).
Proof. repeat split; constructor. Qed.

Definition outcome_sample (run : string) (state at_ : string) : RecoveryOutcome :=
  {| ro_run_id := run; ro_action_id := Some "a"; ro_recovery_mode := "static_compensation";
     ro_outcome_state := state; ro_written_at := at_; ro_operator_escalation_ref := None;
     ro_emitted_event_ids := [] |}.

Lemma outcome_stores_agree_witness :
  let os := [outcome_sample "r" "scheduled" "t1"; outcome_sample "q" "scheduled" "t0";
             outcome_sample "r" "executed" "t1"] in
  ∃ c' s', each SQLiteRecoveryOutcomeStore.write_outcome os (Conn empty_table Closed []) = (Ok tt, c') ∧
    each InMemoryRecoveryOutcomeStore.write_outcome os InMemoryRecoveryOutcomeStore.__init__ = (Ok tt, s') ∧
    (SQLiteRecoveryOutcomeStore.latest_for_run "r" c').1 = Ok (last (outcomes_of "r" os)) ∧
    (InMemoryRecoveryOutcomeStore.latest_for_run "r" s').1 = Ok (last (outcomes_of "r" os)).
Proof.
  intros os. apply (outcome_stores_agree os "r" (Conn empty_table Closed [])).
  - apply quiet_new.
  - reflexivity.
  - assert (outcomes_of "r" os = [outcome_sample "r" "scheduled" "t1"; outcome_sample "r" "executed" "t1"])
      as -> by (vm_compute; reflexivity).
    repeat constructor.
Defined.

(** With a clock that goes back they disagree: the table answers with the
    largest time, the list with the last outcome. *)
Lemma outcome_stores_differ :
  let os := [outcome_sample "r" "scheduled" "t2"; outcome_sample "r" "executed" "t1"] in
  (SQLiteRecoveryOutcomeStore.latest_for_run "r"
     (each SQLiteRecoveryOutcomeStore.write_outcome os (Conn empty_table Closed [])).2).1 =
    Ok (Some (outcome_sample "r" "scheduled" "t2")) ∧
  (InMemoryRecoveryOutcomeStore.latest_for_run "r"
     (each InMemoryRecoveryOutcomeStore.write_outcome os InMemoryRecoveryOutcomeStore.__init__).2).1 =
    Ok (Some (outcome_sample "r" "executed" "t1")).
Proof. split; vm_compute; reflexivity. Qed.

(** ** Turn intents *)
Section intents.
Import SQLiteTurnIntentLog.

(** The intent last written under each reference. *)
Definition current (intents : list TurnIntentRecord) : gmap string TurnIntentRecord :=
  fold_left (λ m i, <[tn_intent_commit_ref i := i]> m) intents ∅.

Lemma upsert_values i (table : rows) j :
  j ∈ map snd (it_rows (upsert i table)) ↔
  j = i ∨ (j ∈ map snd (it_rows table) ∧ tn_intent_commit_ref j ≠ tn_intent_commit_ref i).
Proof.
  unfold upsert. destruct (existsb (same_ref i) (it_rows table)) eqn:He; simpl.
  - rewrite map_map. apply existsb_exists in He as ([n k] & Hin%list_elem_of_In & Hk).
    unfold same_ref in *. rewrite bool_decide_eq_true in Hk. simpl in Hk. rewrite !list_elem_of_fmap. split.
    + intros ([n' k'] & -> & Hin'). simpl. case_bool_decide; [by left|right].
      simpl in *. split; [|done]. by exists (n', k').
    + intros [->|[([n' k'] & -> & Hin') Hne]].
      * exists (n, k). simpl. by rewrite bool_decide_true.
      * exists (n', k'). simpl in *. by rewrite bool_decide_false.
  - rewrite map_app, elem_of_app. simpl. rewrite list_elem_of_singleton.
    split; [|naive_solver]. intros [Hj| ->]; [right|by left]. split; [done|]. intros Heq.
    apply list_elem_of_fmap in Hj as ([n k] & -> & Hin).
    apply not_true_iff_false in He. apply He, existsb_exists. exists (n, k). split; [by apply list_elem_of_In|].
    unfold same_ref. simpl. by apply bool_decide_eq_true.
Qed.

Lemma upserted_values intents (j : TurnIntentRecord) :
  j ∈ map snd (it_rows (fold_left (λ t i, upsert i t) intents empty_table)) ↔
  current intents !! tn_intent_commit_ref j = Some j.
Proof.
  unfold current. induction intents as [|i intents IH] using rev_ind; [simpl; set_solver|].
  rewrite !fold_left_app. simpl. rewrite upsert_values, IH, lookup_insert_Some. naive_solver.
Qed.

Lemma current_ref intents ref i : current intents !! ref = Some i → tn_intent_commit_ref i = ref.
Proof.
  unfold current. revert ref i. induction intents as [|j intents IH] using rev_ind; [done|].
  intros ref i. rewrite fold_left_app. simpl. rewrite lookup_insert_Some. naive_solver.
Qed.

(** [latest] of the rows of a run. *)
Lemma latest_of_run (table : rows) run :
  match snd <$> latest tn_written_at (filter (λ row, tn_run_id (snd row) = run) (it_rows table)) with
  | None => ∀ j, j ∈ map snd (it_rows table) → tn_run_id j ≠ run
  | Some i => tn_run_id i = run ∧ i ∈ map snd (it_rows table) ∧
              ∀ j, j ∈ map snd (it_rows table) → tn_run_id j = run →
                   String.le (tn_written_at j) (tn_written_at i)
  end.
Proof.
  pose proof (latest_row_max tn_written_at (filter (λ row, tn_run_id (snd row) = run) (it_rows table))) as Hl.
  destruct (latest _ _) as [[n i]|]; simpl in *.
  - destruct Hl as [[Hr Hin]%list_elem_of_filter Hmax]. simpl in *.
    split_and!; [done|by apply (list_elem_of_fmap_2 snd _ (n, i))|].
    intros j Hj Hjr. apply list_elem_of_fmap in Hj as ([n' j'] & -> & Hj').
    apply (Hmax (n', j')). by apply list_elem_of_filter.
  - intros j Hj Hjr. apply list_elem_of_fmap in Hj as (row & -> & Hj').
    assert (row ∈ ([] : list (Z * TurnIntentRecord))) as Hx by (rewrite <- Hl; by apply list_elem_of_filter).
    by apply not_elem_of_nil in Hx.
Qed.
End intents.

(** Whatever was written, the turn-intent log answers with an intent of the
    run that is the last one written under its reference, of the largest time
    among these; with nothing exactly when no reference was last written by
    the run. *)
Theorem latest_intent (intents : list TurnIntentRecord) (run : string) (c : SQLiteTurnIntentLog.t)
    (Hc : quiet c) (Hnew : cn_committed c = empty_table) :
  ∃ c' found, each SQLiteTurnIntentLog.write_intent intents c = (Ok tt, c') ∧
    (SQLiteTurnIntentLog.latest_for_run run c').1 = Ok found ∧
    match found with
    | None => ∀ ref i, current intents !! ref = Some i → tn_run_id i ≠ run
    | Some i => tn_run_id i = run ∧ current intents !! tn_intent_commit_ref i = Some i ∧
                ∀ ref j, current intents !! ref = Some j → tn_run_id j = run →
                         String.le (tn_written_at j) (tn_written_at i)
    end.
Proof.
  destruct (each_quiet SQLiteTurnIntentLog.write_intent SQLiteTurnIntentLog.upsert intents c
    (λ _, eq_refl) Hc) as (c' & Hw & Ht & Hc').
  destruct (select_quiet (λ table : SQLiteTurnIntentLog.rows, snd <$> latest tn_written_at
    (filter (λ row, tn_run_id (snd row) = run) (it_rows table))) c' Hc') as [c2 Hs].
  rewrite Hnew in Ht. exists c'. eexists. split; [done|].
  split; [unfold SQLiteTurnIntentLog.latest_for_run; by rewrite Hs|].
  pose proof (latest_of_run (cn_committed c') run) as Hl. pose proof (current_ref intents) as Href.
  pose proof (upserted_values intents) as Hv. rewrite <- Ht in Hv.
  destruct (snd <$> _) as [i|].
  - destruct Hl as (Hr & Hin & Hmax). split_and!; [done|by apply Hv|].
    intros ref j Hj Hjr. apply Hmax; [|done]. apply Hv. by rewrite (Href _ _ Hj).
  - intros ref j Hj. apply Hl, Hv. by rewrite (Href _ _ Hj).
Qed.

Definition intent_sample (run ref at_ : string) : TurnIntentRecord :=
  {| tn_run_id := run; tn_intent_commit_ref := ref; tn_decision_ref := "d"; tn_decision_fingerprint := "f";
     tn_dispatch_dedupe_key := None; tn_host_kind := None; tn_outcome_kind := out_dispatched;
     tn_written_at := at_; tn_reflection_round := 0 |}.

Lemma latest_intent_witness :
  let intents := [intent_sample "r" "intent:a:3" "t1"; intent_sample "q" "intent:b:1" "t0";
                  intent_sample "r" "intent:a:5" "t2"] in
  ∃ c' found, each SQLiteTurnIntentLog.write_intent intents (Conn empty_table Closed []) = (Ok tt, c') ∧
    (SQLiteTurnIntentLog.latest_for_run "r" c').1 = Ok found ∧
    match found with
    | None => ∀ ref i, current intents !! ref = Some i → tn_run_id i ≠ "r"
    | Some i => tn_run_id i = "r" ∧ current intents !! tn_intent_commit_ref i = Some i ∧
                ∀ ref j, current intents !! ref = Some j → tn_run_id j = "r" →
                         String.le (tn_written_at j) (tn_written_at i)
    end.
Proof.
  intros intents. apply (latest_intent intents "r" (Conn empty_table Closed [])); [apply quiet_new|reflexivity].
Defined.

(** The reference the turn engine makes does not name the run ... *)
Lemma intent_ref_of_any_run i1 i2 a h1 h2 :
  ti_through_offset i1 = ti_through_offset i2 →
  id_intent_commit_ref (_build_turn_identity i1 a h1) = id_intent_commit_ref (_build_turn_identity i2 a h2).
Proof. simpl. by intros ->. Qed.

(** ... so one run's intent takes the place of another's. *)
Lemma intent_of_other_run_lost :
  let c := (each SQLiteTurnIntentLog.write_intent
              [intent_sample "r" "intent:a:3" "t1"; intent_sample "q" "intent:a:3" "t2"]
              (Conn empty_table Closed [])).2 in
  (SQLiteTurnIntentLog.latest_for_run "r" c).1 = Ok None ∧
  (SQLiteTurnIntentLog.latest_for_run "q" c).1 = Ok (Some (intent_sample "q" "intent:a:3" "t2")).
Proof. split; vm_compute; reflexivity. Qed.

(** ** Task views *)
Section views.
Import SQLiteTaskViewLog.

(** The policy versions that a row keeps. *)
Definition kept (pv : RunPolicyVersions) : RunPolicyVersions :=
  {| route_policy_version := route_policy_version pv; acceptance_policy_version := None;
     memory_policy_version := None; skill_policy_version := skill_policy_version pv;
     evaluation_policy_version := evaluation_policy_version pv;
     task_view_policy_version := task_view_policy_version pv; pinned_at := pinned_at pv |}.

Definition as_stored (r : TaskViewRecord) : TaskViewRecord :=
  with_decision (tv_decision_ref r) (kept <$> tv_policy_versions r) r.

(** What is lost: the acceptance and the memory policy version. *)
Lemma as_stored_same r :
  as_stored r = r ↔ ∀ pv, tv_policy_versions r = Some pv →
    acceptance_policy_version pv = None ∧ memory_policy_version pv = None.
Proof.
  destruct r as [? ? ? ? ? ? ? ? ? ? ? [[]|] ?]; unfold as_stored, with_decision, kept; simpl; [|naive_solver].
  split; [|by intros Hn; destruct (Hn _ eq_refl); simpl in *; subst].
  intros Hr pv [= <-]. by injection Hr as <- <-.
Qed.

Inductive view_op :=
  | ViewWrite (r : TaskViewRecord)
  | ViewBind (task_view_id decision_ref : string).

Definition run_op (op : view_op) : M t unit :=
  match op with ViewWrite r => write r | ViewBind id d => bind_to_decision id d end.

Definition step_op (op : view_op) : rows → rows :=
  match op with ViewWrite r => insert_record r | ViewBind id d => map (rebind id d) end.

(** The log as a map: the first write of an id stays, binding sets the decision. *)
Definition view_step (m : gmap string TaskViewRecord) (op : view_op) : gmap string TaskViewRecord :=
  match op with
  | ViewWrite r => match m !! tv_task_view_id r with
                   | Some _ => m
                   | None => <[tv_task_view_id r := as_stored r]> m
                   end
  | ViewBind id d => alter (λ r, with_decision (Some d) (tv_policy_versions r) r) id m
  end.

Definition views (ops : list view_op) : gmap string TaskViewRecord := fold_left view_step ops ∅.

Definition wf_row (r : row) : Prop :=
  row_policy_versions_json r = _policy_versions_to_dict (tv_policy_versions (row_record r)).

Definition shown (r : row) : TaskViewRecord := as_stored (row_record r).

Lemma row_to_record_ok r : wf_row r → _row_to_record r = Ok (shown r).
Proof.
  unfold wf_row. destruct r as [rec j]. simpl. intros ->. unfold _row_to_record. simpl.
  unfold shown, as_stored. simpl. by destruct (tv_policy_versions rec) as [[[] ? ? [] [] [] ?]|].
Qed.

Lemma records_of_ok l : Forall wf_row l → records_of l = Ok (map shown l).
Proof. induction 1 as [|r l Hr _ IH]; [done|]. simpl. by rewrite row_to_record_ok, IH. Qed.

Lemma opt_record_ok o : (∀ r, o = Some r → wf_row r) → opt_record o = Ok (shown <$> o).
Proof. destruct o as [r|]; [|done]. intros Hr. simpl. by rewrite row_to_record_ok by auto. Qed.

Record rows_show (table : rows) (m : gmap string TaskViewRecord) : Prop := {
  rs_wf : Forall wf_row table;
  rs_ids : NoDup (map row_id table);
  rs_shown : ∀ id, m !! id = shown <$> head (filter (λ r, row_id r = id) table)
}.

Lemma head_filter_none id (table : rows) :
  head (filter (λ r, row_id r = id) table) = None ↔ ∀ r, r ∈ table → row_id r ≠ id.
Proof.
  induction table as [|r table IH]; [set_solver|]. rewrite filter_cons.
  destruct (decide _) as [He|Hne]; simpl; [|rewrite IH; set_solver].
  split; [done|]. intros Hn. by destruct (Hn r); [set_solver|].
Qed.

Lemma head_filter_some (table : rows) id r :
  NoDup (map row_id table) →
  head (filter (λ r, row_id r = id) table) = Some r ↔ r ∈ table ∧ row_id r = id.
Proof.
  induction table as [|r' table IH]; simpl; [set_solver|].
  intros [Hni Hnd]%NoDup_cons. rewrite filter_cons.
  destruct (decide _) as [He|Hne]; simpl; [|rewrite IH by done; set_solver].
  split; [intros [= <-]; set_solver|]. intros [[->|Hr]%elem_of_cons Hid]; [done|].
  destruct Hni. rewrite He, <- Hid. by apply list_elem_of_fmap_2.
Qed.

Lemma insert_shows r table m :
  rows_show table m → rows_show (insert_record r table) (view_step m (ViewWrite r)).
Proof.
  intros [Hwf Hnd Hm]. unfold insert_record. simpl. rewrite Hm.
  destruct (existsb _ table) eqn:He.
  - apply existsb_exists in He as (x & Hx%list_elem_of_In & Hid%bool_decide_eq_true).
    destruct (head (filter _ table)) as [y|] eqn:Hh; [by split|].
    by destruct (proj1 (head_filter_none _ _) Hh x Hx).
  - assert (∀ x, x ∈ table → row_id x ≠ tv_task_view_id r) as Hfree.
    { intros x Hx Hid. apply not_true_iff_false in He. apply He, existsb_exists. exists x.
      by rewrite bool_decide_eq_true, <- list_elem_of_In. }
    pose proof (proj2 (head_filter_none _ _) Hfree) as Hnone. rewrite Hnone. simpl. split.
    + apply Forall_app. by repeat constructor.
    + rewrite map_app. apply NoDup_app. split_and!; [done| |apply NoDup_singleton].
      intros id (x & -> & Hx)%list_elem_of_fmap Hid%list_elem_of_singleton. by destruct (Hfree x).
    + intros id. rewrite filter_app. destruct (decide (id = tv_task_view_id r)) as [->|Hne].
      * rewrite lookup_insert_eq. revert Hnone. destruct (filter _ table) as [|y l]; [intros _|done]. simpl.
        rewrite filter_cons. by rewrite decide_True.
      * rewrite lookup_insert_ne, Hm by done.
        rewrite (filter_cons_False _ (Row r _)), filter_nil, app_nil_r by (intros Hx; by apply Hne). done.
Qed.

Lemma rebind_id id d r : row_id (rebind id d r) = row_id r.
Proof. unfold rebind. by case_decide. Qed.

Lemma rebind_shown id d r :
  shown (rebind id d r) =
  if decide (row_id r = id) then with_decision (Some d) (tv_policy_versions (shown r)) (shown r) else shown r.
Proof. unfold rebind. by case_decide. Qed.

Lemma rebind_shows id d table m :
  rows_show table m → rows_show (map (rebind id d) table) (view_step m (ViewBind id d)).
Proof.
  intros [Hwf Hnd Hm]. split.
  - apply Forall_map. eapply Forall_impl; [exact Hwf|]. intros r Hr. unfold rebind. by case_decide.
  - rewrite map_map. erewrite map_ext; [exact Hnd|]. apply rebind_id.
  - intros id'. simpl.
    assert (head (filter (λ r, row_id r = id') (map (rebind id d) table)) =
            rebind id d <$> head (filter (λ r, row_id r = id') table)) as ->.
    { clear. induction table as [|r table IH]; [done|]. simpl. rewrite !filter_cons, rebind_id.
      by case_decide. }
    assert (∀ r, head (filter (λ r, row_id r = id') table) = Some r → row_id r = id') as Hid.
    { intros r Hr. by apply head_filter_some in Hr as []. }
    destruct (decide (id = id')) as [->|Hne].
    + rewrite lookup_alter_eq, Hm. destruct (head _) as [r|]; [|done]. simpl.
      rewrite rebind_shown, decide_True by auto. done.
    + rewrite lookup_alter_ne, Hm by done. destruct (head _) as [r|]; [|done]. simpl.
      rewrite rebind_shown, decide_False; [done|]. rewrite (Hid r); congruence.
Qed.

Lemma views_shown ops : rows_show (fold_left (λ t op, step_op op t) ops []) (views ops).
Proof.
  unfold views. induction ops as [|op ops IH] using rev_ind; [repeat constructor|].
  rewrite !fold_left_app. simpl. destruct op; [by apply insert_shows|by apply rebind_shows].
Qed.

Lemma in_views table m v :
  rows_show table m → (v ∈ map shown table ↔ m !! tv_task_view_id v = Some v).
Proof.
  intros [Hwf Hnd Hm]. rewrite Hm, fmap_Some, list_elem_of_fmap. split; intros (r & H1 & H2).
  - exists r. split; [|done]. apply head_filter_some; [done|]. by subst.
  - exists r. split; [done|]. by apply head_filter_some in H1 as [].
Qed.

Lemma shown_run r : tv_run_id (shown r) = tv_run_id (row_record r).
Proof. done. Qed.

#[local] Instance assembled_le_total : Total assembled_le.
Proof.
  intros a b. unfold assembled_le, String.le.
  destruct (String.leb_total (tv_assembled_at (row_record a)) (tv_assembled_at (row_record b))) as [->| ->]; auto.
Qed.

Lemma listed table m run :
  rows_show table m →
  let l := map shown (merge_sort assembled_le (filter (λ r, tv_run_id (row_record r) = run) table)) in
  Sorted (λ a b, String.le (tv_assembled_at a) (tv_assembled_at b)) l ∧
  NoDup (map tv_task_view_id l) ∧
  ∀ v, v ∈ l ↔ tv_run_id v = run ∧ m !! tv_task_view_id v = Some v.
Proof.
  intros Hs l. subst l. split_and!.
  - apply (Sorted_fmap _ assembled_le); [by intros a b|]. apply (Sorted_merge_sort assembled_le).
  - rewrite map_map. fold (fmap (M:=list) row_id). rewrite merge_sort_Permutation.
    eapply sublist_NoDup; [apply (rs_ids _ _ Hs)|]. apply fmap_sublist, sublist_filter.
  - intros v. rewrite <- (in_views _ _ _ Hs), !list_elem_of_fmap. setoid_rewrite merge_sort_Permutation.
    setoid_rewrite list_elem_of_filter. split.
    + intros (r & -> & Hr & Hin). split; [done|]. by exists r.
    + intros (Hv & r & -> & Hin). by exists r.
Qed.

Lemma later_le a b : if later a b then assembled_le b a else assembled_le a b.
Proof.
  unfold later, assembled_le. rewrite ltb_negb. destruct (String.leb _ _) eqn:Hl; simpl; [|by apply not_leb].
  by apply Is_true_true.
Qed.

(** The latest of the views of a decision. *)
Definition bound_view (m : gmap string TaskViewRecord) (run dref : string) (v : TaskViewRecord) : Prop :=
  tv_run_id v = run ∧ tv_decision_ref v = Some dref ∧ m !! tv_task_view_id v = Some v.

Lemma picked table m run dref :
  rows_show table m →
  match shown <$> pick later (filter (λ r, tv_run_id (row_record r) = run ∧
                                      tv_decision_ref (row_record r) = Some dref) table) with
  | None => ∀ v, ¬ bound_view m run dref v
  | Some v => bound_view m run dref v ∧
              ∀ w, bound_view m run dref w → String.le (tv_assembled_at w) (tv_assembled_at v)
  end.
Proof.
  intros Hs. assert (∀ v, bound_view m run dref v ↔ ∃ r, v = shown r ∧
    r ∈ filter (λ r, tv_run_id (row_record r) = run ∧ tv_decision_ref (row_record r) = Some dref) table) as Hb.
  { intros v. unfold bound_view. rewrite <- (in_views _ _ _ Hs), list_elem_of_fmap.
    setoid_rewrite list_elem_of_filter. split.
    - intros (H1 & H2 & r & -> & Hin). by exists r.
    - intros (r & -> & [H1 H2] & Hin). split_and!; [done..|]. by exists r. }
  set (l := filter _ _) in *.
  pose proof (pick_spec later assembled_le l later_le) as Hp. destruct (pick later l) as [r|]; simpl.
  - destruct Hp as [Hin Hmax]. split; [apply Hb; by exists r|].
    intros w (r' & -> & Hr')%Hb. by apply (Hmax r').
  - intros v (r & _ & Hr)%Hb. rewrite Hp in Hr. by apply not_elem_of_nil in Hr.
Qed.
End views.

(** Whatever is written and bound, the task-view log answers as the map
    that keeps, for each id, its first record without two of its policy
    versions, under the decision it was last bound to; for a run the views
    by time, for a decision one of the largest time. *)
Theorem task_views_kept (ops : list view_op) (id run dref : string) (c : SQLiteTaskViewLog.t)
    (Hc : quiet c) (Hnew : cn_committed c = []) :
  ∃ c' l found, each run_op ops c = (Ok tt, c') ∧
    (SQLiteTaskViewLog.get_by_id id c').1 = Ok (views ops !! id) ∧
    (SQLiteTaskViewLog.list_for_run run c').1 = Ok l ∧
    Sorted (λ a b, String.le (tv_assembled_at a) (tv_assembled_at b)) l ∧
    NoDup (map tv_task_view_id l) ∧
    (∀ v, v ∈ l ↔ tv_run_id v = run ∧ views ops !! tv_task_view_id v = Some v) ∧
    (SQLiteTaskViewLog.get_by_decision run dref c').1 = Ok found ∧
    match found with
    | None => ∀ v, ¬ bound_view (views ops) run dref v
    | Some v => bound_view (views ops) run dref v ∧
                ∀ w, bound_view (views ops) run dref w → String.le (tv_assembled_at w) (tv_assembled_at v)
    end.
Proof.
  destruct (each_quiet run_op step_op ops c) as (c' & Hw & Ht & Hc'); [by intros []|done|].
  rewrite Hnew in Ht. pose proof (views_shown ops) as Hs. rewrite <- Ht in Hs.
  pose proof (rs_wf _ _ Hs) as Hwf. rewrite Forall_forall in Hwf.
  pose proof (listed _ _ run Hs) as (HS & HN & HM). pose proof (picked _ _ run dref Hs) as Hp.
  exists c'. eexists _, _. split; [done|]. split_and!; [|  |exact HS|exact HN|exact HM| |exact Hp].
  - unfold SQLiteTaskViewLog.get_by_id, mbind, M_bind.
    destruct (select_quiet (λ table, head (filter (λ r, SQLiteTaskViewLog.row_id r = id) table)) c' Hc') as [c2 ->].
    unfold lift. simpl. rewrite opt_record_ok, (rs_shown _ _ Hs); [done|].
    intros r Hr%head_Some_elem_of. apply Hwf. by apply list_elem_of_filter in Hr as [].
  - unfold SQLiteTaskViewLog.list_for_run, mbind, M_bind.
    destruct (select_quiet (λ table, merge_sort SQLiteTaskViewLog.assembled_le
      (filter (λ r, tv_run_id (SQLiteTaskViewLog.row_record r) = run) table)) c' Hc') as [c2 ->].
    unfold lift. simpl. rewrite records_of_ok; [done|]. apply Forall_forall. intros r.
    rewrite merge_sort_Permutation, list_elem_of_filter. intros [_ Hr]. by apply Hwf.
  - unfold SQLiteTaskViewLog.get_by_decision, mbind, M_bind.
    destruct (select_quiet (λ table, pick SQLiteTaskViewLog.later
      (filter (λ r, tv_run_id (SQLiteTaskViewLog.row_record r) = run ∧
                    tv_decision_ref (SQLiteTaskViewLog.row_record r) = Some dref) table)) c' Hc') as [c2 ->].
    unfold lift. simpl. rewrite opt_record_ok; [done|]. intros r Hr.
    match type of Hr with pick _ ?l = _ =>
      pose proof (pick_spec SQLiteTaskViewLog.later _ l later_le) as Hq end.
    rewrite Hr in Hq. destruct Hq as [[_ Hin]%list_elem_of_filter _]. by apply Hwf.
Qed.

Definition view_sample (id at_ : string) (pv : option RunPolicyVersions) : TaskViewRecord :=
  {| tv_task_view_id := id; tv_run_id := "r"; tv_selected_model_role := "evaluation"; tv_assembled_at := at_;
     tv_decision_ref := None; tv_stage_id := None; tv_branch_id := None; tv_task_contract_ref := None;
     tv_evidence_refs := ["e"]; tv_memory_refs := []; tv_knowledge_refs := []; tv_policy_versions := pv;
     tv_schema_version := "1" |}.

Definition pinned_sample : RunPolicyVersions :=
  {| route_policy_version := Some "r1"; acceptance_policy_version := Some "a1"; memory_policy_version := None;
     skill_policy_version := None; evaluation_policy_version := None; task_view_policy_version := None;
     pinned_at := "t0" |}.

Lemma task_views_kept_witness :
  let ops := [ViewWrite (view_sample "v" "t1" (Some pinned_sample)); ViewWrite (view_sample "w" "t0" None);
              ViewBind "v" "d"; ViewWrite (view_sample "v" "t9" None)] in
  ∃ c' l found, each run_op ops (Conn [] Closed []) = (Ok tt, c') ∧
    (SQLiteTaskViewLog.get_by_id "v" c').1 = Ok (views ops !! "v") ∧
    (SQLiteTaskViewLog.list_for_run "r" c').1 = Ok l ∧
    Sorted (λ a b, String.le (tv_assembled_at a) (tv_assembled_at b)) l ∧
    NoDup (map tv_task_view_id l) ∧
    (∀ v, v ∈ l ↔ tv_run_id v = "r" ∧ views ops !! tv_task_view_id v = Some v) ∧
    (SQLiteTaskViewLog.get_by_decision "r" "d" c').1 = Ok found ∧
    match found with
    | None => ∀ v, ¬ bound_view (views ops) "r" "d" v
    | Some v => bound_view (views ops) "r" "d" v ∧
                ∀ w, bound_view (views ops) "r" "d" w → String.le (tv_assembled_at w) (tv_assembled_at v)
    end.
Proof.
  intros ops. apply (task_views_kept ops "v" "r" "d" (Conn [] Closed [])); [apply quiet_new|reflexivity].
Defined.

(** An acceptance policy version does not come back. *)
Lemma policy_version_lost :
  (SQLiteTaskViewLog.get_by_id "v"
     (SQLiteTaskViewLog.write (view_sample "v" "t1" (Some pinned_sample)) (Conn [] Closed [])).2).1 =
  Ok (Some (view_sample "v" "t1" (Some (kept pinned_sample)))) ∧ kept pinned_sample ≠ pinned_sample.
Proof. split; [vm_compute; reflexivity|by intros [=]]. Qed.
