(* ===== verification/Postgres.v ===== *)
(** * PostgreSQL transactions

    The part of asyncpg and PostgreSQL the stores rely on: connections of a
    pool to one database that other sessions write too, statements that may
    fail, and transactions at the default level, READ COMMITTED.  [T] is the
    committed content, [K] names what can be locked.

    - A statement sees what is committed when it starts, under the writes of
      its own transaction; between two statements other sessions commit.
    - A lock, of a row or an advisory one, is held to the end of the
      transaction; a session that would break it waits.
    - A statement that fails, or whose connection breaks, ends its transaction
      without effect; but a connection can also break after the server has
      committed.
    - A number drawn from a sequence stays drawn. *)
From S2P Require Export Prelude.

Inductive pg_fault := pg_fine | pg_error (e : exn) | pg_lost (e : exn).

(** What happens around one statement: other sessions commit before it, then it
    succeeds, fails, or its answer is lost. *)
Record pg_weather (T : Type) := PgWeather { pw_others : option (T → T); pw_fault : pg_fault }.
Arguments PgWeather {T}.
Arguments pw_others {T}.
Arguments pw_fault {T}.

(** The database and the weather ahead, calm once the list has run out. *)
Record pg (T : Type) := Pg { pg_rows : T; pg_ahead : list (pg_weather T) }.
Arguments Pg {T}.
Arguments pg_rows {T}.
Arguments pg_ahead {T}.

(** What a lock forbids the other sessions. *)
Class PgLocks (T K : Type) := {
  permits : K → T → T → Prop;
  permits_dec k t t' :: Decision (permits k t t');
  permits_preorder k :: PreOrder (permits k)
}.

(** A transaction: its own writes as a change to what is committed, and the
    locks it holds. *)
Record session (T K : Type) := Session {
  ss_pg : pg T;
  ss_mine : T → T;
  ss_locks : list K
}.
Arguments Session {T K}.
Arguments ss_pg {T K}.
Arguments ss_mine {T K}.
Arguments ss_locks {T K}.

Section postgres.
Context {T K : Type} `{!PgLocks T K}.
Abbreviation session := (session T K).
Implicit Types (p : pg T) (s : session).

Definition pg_next p : pg_weather T := default (PgWeather None pg_fine) (head (pg_ahead p)).

(** The other sessions' turn; one that meets a lock waits. *)
Definition pg_arrive (locks : list K) p : pg T :=
  let t := match pw_others (pg_next p) with Some f => f (pg_rows p) | None => pg_rows p end in
  Pg (if decide (Forall (λ k, permits k (pg_rows p) t) locks) then t else pg_rows p)
    (tail (pg_ahead p)).

(** A statement of a transaction: what it draws from a sequence, its result and
    its writes, and the locks it takes. *)
Definition pg_statement {A} (draw : T → T) (body : T → outcome (A * (T → T))) (locks : A → list K)
    : M session A := λ s,
  let p := pg_arrive (ss_locks s) (ss_pg s) in
  match pw_fault (pg_next (ss_pg s)) with
  | pg_fine =>
      let p' := Pg (draw (pg_rows p)) (pg_ahead p) in
      match body (ss_mine s (pg_rows p')) with
      | Ok (a, f) => (Ok a, Session p' (f ∘ ss_mine s) (locks a ++ ss_locks s))
      | Raise e => (Raise e, Session p' (ss_mine s) (ss_locks s))
      end
  | pg_error e | pg_lost e => (Raise e, Session p (ss_mine s) (ss_locks s))
  end.

(** A query that neither writes nor locks. *)
Definition pg_query {A} (f : T → A) : M session A :=
  pg_statement id (λ t, Ok (f t, id)) (λ _, []).

(** [async with pool.acquire() as conn, conn.transaction(): body]. *)
Definition pg_transaction {A} (body : M session A) : M (pg T) A := λ p,
  let p1 := pg_arrive [] p in
  match pw_fault (pg_next p) with
  | pg_error e | pg_lost e => (Raise e, p1)
  | pg_fine =>
      let '(o, s) := body (Session p1 id []) in
      let p2 := pg_arrive (ss_locks s) (ss_pg s) in
      let committed := Pg (ss_mine s (pg_rows p2)) (pg_ahead p2) in
      match o, pw_fault (pg_next (ss_pg s)) with
      | Ok a, pg_fine => (Ok a, committed)
      | Ok _, pg_error e => (Raise e, p2)
      | Ok _, pg_lost e => (Raise e, committed)
      | Raise e, pg_fine => (Raise e, p2)
      | Raise _, (pg_error e' | pg_lost e') => (Raise e', p2)
      end
  end.

(** [async with pool.acquire() as conn: conn.execute(...)]: a transaction of its
    own. *)
Definition pg_execute {A} (body : T → outcome (A * T)) : M (pg T) A := λ p,
  let p1 := pg_arrive [] p in
  match pw_fault (pg_next p), body (pg_rows p1) with
  | pg_fine, Ok (a, t) => (Ok a, Pg t (pg_ahead p1))
  | pg_fine, Raise e => (Raise e, p1)
  | pg_lost e, Ok (_, t) => (Raise e, Pg t (pg_ahead p1))
  | pg_error e, _ | pg_lost e, Raise _ => (Raise e, p1)
  end.

(** ** Steps among the others' *)

(** What the other sessions do; what fails, fails with an [Exception]. *)
Section others.
Context (F : (T → T) → Prop).

Definition drift : T → T → Prop := rtc (λ t t', ∃ f, F f ∧ t' = f t).

Definition others_do p : Prop :=
  Forall (λ w, match pw_others w with Some f => F f | None => True end ∧
               match pw_fault w with pg_fine => True | pg_error e | pg_lost e => is_Exception e = true end)
    (pg_ahead p).

(** Neither errors nor lost answers ahead; no lost answers ahead. *)
Definition steady p : Prop := Forall (λ w, pw_fault w = pg_fine) (pg_ahead p).
Definition never_lost p : Prop := Forall (λ w, ∀ e, pw_fault w ≠ pg_lost e) (pg_ahead p).

(** [p] becomes [p'] by steps of the others and one of [step] among them. *)
Definition did {A} (step : T → A → T → Prop) (t : T) (a : A) (t' : T) : Prop :=
  ∃ u u', drift t u ∧ step u a u' ∧ drift u' t'.

Definition refuses (refused : T → exn → Prop) (e : exn) (t : T) (_ : unit) (t' : T) : Prop :=
  t' = t ∧ refused t e.

(** What an operation may come to from a database that satisfies [I]: its step,
    taken at one moment, or an exception.  Then nothing of it is there, or all
    of it where an answer was lost; and nothing but a state in which [step] is
    refused makes it raise in steady weather. *)
Definition linear {A} (I : T → Prop) (step : T → A → T → Prop) (refused : T → exn → Prop)
    (m : M (pg T) A) : Prop :=
  ∀ p, others_do p → I (pg_rows p) →
  wp m (λ a p', pg_ahead p' `suffix_of` pg_ahead p ∧ did step (pg_rows p) a (pg_rows p'))
    (λ e p', is_Exception e = true ∧ pg_ahead p' `suffix_of` pg_ahead p ∧
       (drift (pg_rows p) (pg_rows p') ∨ ¬ never_lost p ∧ ∃ a, did step (pg_rows p) a (pg_rows p')) ∧
       (steady p → did (refuses refused e) (pg_rows p) tt (pg_rows p'))) p.

(** ** Rules *)
#[export] Instance drift_preorder : PreOrder drift.
Proof. split; [by intros t|]. intros t u v. apply transitivity. Qed.

Lemma others_keep (I : T → Prop) t u :
  (∀ f t, F f → I t → I (f t)) → drift t u → I t → I u.
Proof. intros HI. induction 1 as [|t u v (f & Hf & ->) _ IH]; [done|]. intros Ht. by apply IH, HI. Qed.

(** The other sessions' turn, from a database on the way from [p0]. *)
Record since p0 p : Prop := {
  sn_others : others_do p;
  sn_drift : drift (pg_rows p0) (pg_rows p);
  sn_ahead : pg_ahead p `suffix_of` pg_ahead p0
}.

Lemma since_refl p : others_do p → since p p.
Proof. by split. Qed.

Lemma arrive_since p0 p ls :
  since p0 p → since p0 (pg_arrive ls p) ∧ drift (pg_rows p) (pg_rows (pg_arrive ls p)) ∧
  Forall (λ k, permits k (pg_rows p) (pg_rows (pg_arrive ls p))) ls.
Proof.
  intros [Ho Hd Hs]. assert (drift (pg_rows p) (pg_rows (pg_arrive ls p)) ∧
    Forall (λ k, permits k (pg_rows p) (pg_rows (pg_arrive ls p))) ls) as [Hd' Hp].
  { unfold pg_arrive, pg_next. simpl. destruct (decide _) as [Hl|_].
    - split; [|done]. unfold others_do in Ho. destruct (pg_ahead p) as [|w ws]; simpl; [done|].
      apply Forall_cons in Ho as [[Hw _] _]. destruct (pw_others w) as [f|]; [|done].
      apply rtc_once. by exists f.
    - split; [done|]. apply Forall_forall. intros k _. reflexivity. }
  split_and!; [|done..]. split; simpl.
  - eapply Forall_suffix; [apply tail_suffix|done].
  - by etrans.
  - etrans; [apply tail_suffix|done].
Qed.

Lemma next_elem p : pg_next p = PgWeather None pg_fine ∨ pg_next p ∈ pg_ahead p.
Proof. unfold pg_next. destruct (pg_ahead p); [by left|right]. simpl. set_solver. Qed.

Lemma suffix_elem {A} (x : A) l l' : l `suffix_of` l' → x ∈ l → x ∈ l'.
Proof. intros [k ->]. set_solver. Qed.

Lemma not_steady p0 p : since p0 p → pw_fault (pg_next p) ≠ pg_fine → ¬ steady p0.
Proof.
  intros Hs Hf Hst. destruct (next_elem p) as [Hn|Hn]; [by rewrite Hn in Hf|].
  apply (suffix_elem _ _ (pg_ahead p0)) in Hn; [|apply Hs].
  apply Hf. by eapply (proj1 (Forall_forall _ _)) in Hst.
Qed.

Lemma fault_exception p0 p e :
  since p0 p → pw_fault (pg_next p) = pg_error e ∨ pw_fault (pg_next p) = pg_lost e → is_Exception e = true.
Proof.
  intros Hs Hf. destruct (next_elem p) as [Hn|Hn]; [rewrite Hn in Hf; by destruct Hf|].
  pose proof (sn_others _ _ Hs) as Ho. eapply (proj1 (Forall_forall _ _)) in Ho as [_ Ho]; [|exact Hn].
  by destruct Hf as [Hf|Hf]; rewrite Hf in Ho.
Qed.

Lemma answer_lost p0 p e : since p0 p → pw_fault (pg_next p) = pg_lost e → ¬ never_lost p0.
Proof.
  intros Hs Hf Hst. destruct (next_elem p) as [Hn|Hn]; [by rewrite Hn in Hf|].
  apply (suffix_elem _ _ (pg_ahead p0)) in Hn; [|apply Hs].
  eapply (proj1 (Forall_forall _ _)) in Hst; [|exact Hn]. by apply (Hst e).
Qed.

(** Inside a transaction that began on [p0]. *)
Abbreviation inside p0 s := (since p0 (ss_pg s)).

Lemma wp_pg_statement {A} draw (body : T → outcome (A * (T → T))) lk p0 s
    (Q : A → session → Prop) (E : exn → session → Prop) :
  inside p0 s → (draw = id ∨ F draw) →
  (∀ p, since p0 p → drift (pg_rows (ss_pg s)) (pg_rows p) →
     Forall (λ k, permits k (pg_rows (ss_pg s)) (pg_rows p)) (ss_locks s) →
     let p' := Pg (draw (pg_rows p)) (pg_ahead p) in
     since p0 p' →
     match body (ss_mine s (pg_rows p')) with
     | Ok (a, f) => Q a (Session p' (f ∘ ss_mine s) (lk a ++ ss_locks s))
     | Raise e => E e (Session p' (ss_mine s) (ss_locks s))
     end) →
  (∀ e s', is_Exception e = true → inside p0 s' → ¬ steady p0 → E e s') →
  wp (pg_statement draw body lk) Q E s.
Proof.
  intros Hs Hdraw HQ HE. unfold wp, pg_statement.
  destruct (arrive_since p0 (ss_pg s) (ss_locks s) Hs) as (Hs1 & Hd & Hp).
  destruct (pw_fault _) as [|e|e] eqn:Hf.
  - specialize (HQ _ Hs1 Hd Hp). cbv zeta in HQ.
    assert (since p0 (Pg (draw (pg_rows (pg_arrive (ss_locks s) (ss_pg s))))
      (pg_ahead (pg_arrive (ss_locks s) (ss_pg s))))) as Hs2.
    { destruct Hs1 as [H1 H2 H3]. split; [done| |done]. simpl.
      destruct Hdraw as [->|Hdraw]; [done|]. etrans; [exact H2|]. apply rtc_once. by exists draw. }
    specialize (HQ Hs2). destruct (body _) as [[a f]|e]; exact HQ.
  - apply HE; [apply (fault_exception p0 (ss_pg s)); auto|done|].
    apply (not_steady p0 (ss_pg s)); [done|by rewrite Hf].
  - apply HE; [apply (fault_exception p0 (ss_pg s)); auto|done|].
    apply (not_steady p0 (ss_pg s)); [done|by rewrite Hf].
Qed.

Lemma did_drift {A} step t (a : A) t' u : did step t a t' → drift t' u → did step t a u.
Proof. intros (v & v' & H1 & H2 & H3) Hd. exists v, v'. split_and!; [done..|by etrans]. Qed.

Context (I : T → Prop) (HI : ∀ f t, F f → I t → I (f t)).

(** A transaction is one step at its end: whatever the others did since its last
    statement, short of breaking its locks. *)
Lemma linear_transaction {A} (step : T → A → T → Prop) refused (body : M session A) :
  (∀ p0 p, I (pg_rows p0) → since p0 p →
   wp body
     (λ a s, inside p0 s ∧ ∀ t, drift (pg_rows (ss_pg s)) t →
        Forall (λ k, permits k (pg_rows (ss_pg s)) t) (ss_locks s) →
        did step (pg_rows p0) a (ss_mine s t))
     (λ e s, is_Exception e = true ∧ inside p0 s ∧ (steady p0 → did (refuses refused e) (pg_rows p0) tt (pg_rows (ss_pg s))))
     (Session p id [])) →
  linear I step refused (pg_transaction body).
Proof.
  intros Hbody p Ho Hp. unfold wp, pg_transaction.
  destruct (arrive_since p p [] (since_refl p Ho)) as (Hs1 & _ & _).
  destruct (pw_fault (pg_next p)) as [|e|e] eqn:Hf.
  2,3: split_and!; [apply (fault_exception p p); auto using since_refl|apply Hs1|left; apply Hs1|intros Hst;
    by destruct (not_steady p p (since_refl p Ho)); [by rewrite Hf|]].
  specialize (Hbody p _ Hp Hs1). unfold wp in Hbody.
  destruct (body _) as [[a|e] s]; [destruct Hbody as [Hs Hb]|destruct Hbody as (He & Hs & Hb)];
    destruct (arrive_since p (ss_pg s) (ss_locks s) Hs) as (Hs2 & Hd & Hl);
    (destruct (pw_fault (pg_next (ss_pg s))) as [|e'|e'] eqn:Hf';
     [|assert (¬ steady p) by (apply (not_steady p (ss_pg s)); [done|by rewrite Hf']);
       assert (is_Exception e' = true) by (apply (fault_exception p (ss_pg s)); auto)..]).
  - split; [apply Hs2|]. by apply Hb.
  - split_and!; [done|apply Hs2|left; apply Hs2|done].
  - split_and!; [done|apply Hs2| |done]. right. split; [apply (answer_lost p (ss_pg s) e' Hs Hf')|]. exists a. by apply Hb.
  - split_and!; [done|apply Hs2|left; apply Hs2|]. intros Hst. by eapply did_drift; [apply Hb|].
  - split_and!; [done|apply Hs2|left; apply Hs2|done].
  - split_and!; [done|apply Hs2|left; apply Hs2|done].
Qed.

Lemma linear_execute {A} (step : T → A → T → Prop) refused (body : T → outcome (A * T)) :
  (∀ t, I t → match body t with
              | Ok (a, t') => step t a t'
              | Raise e => is_Exception e = true ∧ refused t e
              end) →
  linear I step refused (pg_execute body).
Proof.
  intros Hbody p Ho Hp. unfold wp, pg_execute.
  destruct (arrive_since p p [] (since_refl p Ho)) as (Hs & Hd & _).
  assert (I (pg_rows (pg_arrive [] p))) as Hi by (eapply others_keep; [exact HI|exact Hd|done]).
  specialize (Hbody _ Hi).
  assert (∀ a t, body (pg_rows (pg_arrive [] p)) = Ok (a, t) → did step (pg_rows p) a t) as Hdid.
  { intros a t Hb. rewrite Hb in Hbody. by exists (pg_rows (pg_arrive [] p)), t. }
  assert (pw_fault (pg_next p) ≠ pg_fine → ¬ steady p) as Hns by (by apply (not_steady p p), since_refl).
  assert (∀ e, pw_fault (pg_next p) = pg_lost e → ¬ never_lost p) as Hnl
    by (intros e He; by apply (answer_lost p p e (since_refl p Ho))).
  assert (∀ e, pw_fault (pg_next p) = pg_error e ∨ pw_fault (pg_next p) = pg_lost e → is_Exception e = true)
    as Hex by (intros e He; by apply (fault_exception p p e (since_refl p Ho))).
  destruct (pw_fault (pg_next p)) as [|e|e]; destruct (body _) as [[a t]|e'].
  - split; [apply Hs|by apply Hdid].
  - destruct Hbody as [He Hr]. split_and!; [done|apply Hs|left; apply Hs|]. intros _.
    by exists (pg_rows (pg_arrive [] p)), (pg_rows (pg_arrive [] p)).
  - split_and!; [apply Hex; auto|apply Hs|left; apply Hs|]. intros Hst. by destruct Hns.
  - split_and!; [apply Hex; auto|apply Hs|left; apply Hs|]. intros Hst. by destruct Hns.
  - split_and!; [apply Hex; auto|apply Hs| |intros Hst; by destruct Hns]. right.
    split; [by eapply Hnl|]. eauto.
  - split_and!; [apply Hex; auto|apply Hs|left; apply Hs|]. intros Hst. by destruct Hns.
Qed.

(** The result of an operation, mapped. *)
Lemma linear_map {A B} (f : A → B) (step : T → A → T → Prop) (step' : T → B → T → Prop) refused m :
  (∀ t a t', step t a t' → step' t (f a) t') →
  linear I step refused m → linear I step' refused (a ← m; mret (f a)).
Proof.
  intros Hf Hm p Ho Hp.
  assert (∀ a t t', did step t a t' → did step' t (f a) t') as Hdid.
  { intros a t t' (u & u' & H1 & H2 & H3). exists u, u'. split_and!; [done|by apply Hf|done]. }
  apply wp_bind. eapply wp_mono; [by apply Hm|..].
  - intros a p' [Hs Hd]. apply wp_ret. split; [done|by apply Hdid].
  - intros e p' (He & Hs & Hd & Hst). split_and!; [done|done| |done].
    destruct Hd as [Hd|(Hl & a & Hd)]; [by left|right]. split; [done|]. exists (f a). by apply Hdid.
Qed.
End others.

(** ** A database nobody else writes *)
Definition nobody : (T → T) → Prop := λ _, False.

Lemma drift_nobody t u : drift nobody t u → u = t.
Proof. induction 1 as [|t u v (f & [] & _) _ _]. done. Qed.

Lemma did_nobody {A} (step : T → A → T → Prop) t a t' : did nobody step t a t' → step t a t'.
Proof. by intros (u & u' & ->%drift_nobody & H & ->%drift_nobody). Qed.
End postgres.

(** ** Tables with a primary key *)

(** A locked row stays as it is, a locked key that has no row stays free. *)
#[export] Instance row_locks {R} `{EqDecision R} : PgLocks (gmap string R) string.
Proof.
  refine {| permits k t t' := t' !! k = t !! k |}.
  - intros k t t'. apply _.
  - intros k. split; [by intros t|]. intros t u v H1 H2. by rewrite H2.
Defined.
