(* ===== verification/PgDedupeStore.v ===== *)
(** * The PostgreSQL dedupe store ([kernel/persistence/pg_dedupe_store.py])

    The table [pg_dedupe_store] as a map from its primary key to its rows, one
    definition per method, and the proof that each method is one step of the
    abstract ledger among the steps of other sessions. *)
From S2P Require Export Postgres DedupeStore.

#[export] Instance DedupeRecord_eq_dec : EqDecision DedupeRecord.
Proof. solve_decision. Defined.

Module PostgresDedupeStore.
Abbreviation t := (pg ledger).
Abbreviation tx := (session ledger string).

Definition _row_to_record (row : option DedupeRecord) : outcome DedupeRecord :=
  match row with
  | None => Raise (Exn TypeError "'NoneType' object is not subscriptable")
  | Some r => Ok r
  end.

(** [INSERT ... ON CONFLICT DO NOTHING RETURNING]: whether a row came back. *)
Definition insert_row (r : DedupeRecord) : M tx bool :=
  let key := rec_dispatch_idempotency_key r in
  pg_statement id
    (λ rows, match rows !! key with
             | Some _ => Ok (false, id)
             | None => Ok (true, <[key := r]>)
             end)
    (λ inserted, if inserted : bool then [key] else []).

Definition _get_row (key : string) (for_update : bool) : M tx (option DedupeRecord) :=
  pg_statement id (λ rows, Ok (rows !! key, id)) (λ _, if for_update then [key] else []).

(** What both reservations do in their transaction. *)
Definition reserve_row (envelope : IdempotencyEnvelope) (row : DedupeRecord) : M t DedupeReservation :=
  pg_transaction
    (inserted ← insert_row row;
     if inserted : bool
     then mret {| accepted := true; reason := accepted_reason; existing_record := None |}
     else
       existing ← _get_row (env_dispatch_idempotency_key envelope) false;
       record ← lift (_row_to_record existing);
       mret {| accepted := false; reason := duplicate; existing_record := Some record |}).

Definition _reserve_impl (envelope : IdempotencyEnvelope) : M t DedupeReservation :=
  reserve_row envelope
    {| rec_dispatch_idempotency_key := env_dispatch_idempotency_key envelope;
       rec_operation_fingerprint := env_operation_fingerprint envelope;
       rec_attempt_seq := env_attempt_seq envelope;
       rec_state := reserved;
       rec_peer_operation_id := env_peer_operation_id envelope;
       rec_external_ack_ref := None |}.

Definition _reserve_and_dispatch_impl (envelope : IdempotencyEnvelope)
    (peer_operation_id : option string) : M t DedupeReservation :=
  reserve_row envelope
    {| rec_dispatch_idempotency_key := env_dispatch_idempotency_key envelope;
       rec_operation_fingerprint := env_operation_fingerprint envelope;
       rec_attempt_seq := env_attempt_seq envelope;
       rec_state := dispatched;
       rec_peer_operation_id := str_or peer_operation_id (env_peer_operation_id envelope);
       rec_external_ack_ref := None |}.

Definition cannot (current target : DedupeState) : exn :=
  Exn DedupeStoreStateError
    ("Cannot transition " +:+ dedupe_state_str current +:+ " -> " +:+ dedupe_state_str target +:+ ".").

(** [UPDATE ... WHERE dispatch_idempotency_key = $4]. *)
Definition update_row (target : DedupeState) (peer ack : option string) (key : string) : M tx unit :=
  pg_statement id
    (λ _, Ok (tt, alter (λ r,
       {| rec_dispatch_idempotency_key := rec_dispatch_idempotency_key r;
          rec_operation_fingerprint := rec_operation_fingerprint r;
          rec_attempt_seq := rec_attempt_seq r;
          rec_state := target;
          rec_peer_operation_id := peer;
          rec_external_ack_ref := ack |}) key))
    (λ _, [key]).

Definition _transition_impl (key : string) (allowed : list DedupeState) (target_state : DedupeState)
    (peer_operation_id external_ack_ref : option string) : M t unit :=
  pg_transaction
    (row ← _get_row key true;
     match row with
     | None => raise (Exn DedupeStoreStateError ("Unknown dispatch_idempotency_key: " +:+ key +:+ "."))
     | Some r =>
         if decide (rec_state r ∉ allowed) then raise (cannot (rec_state r) target_state)
         else update_row target_state (str_or peer_operation_id (rec_peer_operation_id r))
                (str_or external_ack_ref (rec_external_ack_ref r)) key
     end).

Definition reserve := _reserve_impl.
Definition reserve_and_dispatch := _reserve_and_dispatch_impl.

Definition mark_dispatched (key : string) (peer_operation_id : option string) : M t unit :=
  _transition_impl key [reserved; dispatched] dispatched peer_operation_id None.
Definition mark_acknowledged (key : string) (external_ack_ref : option string) : M t unit :=
  _transition_impl key [dispatched; acknowledged] acknowledged None external_ack_ref.
Definition mark_succeeded (key : string) (external_ack_ref : option string) : M t unit :=
  _transition_impl key [acknowledged; succeeded] succeeded None external_ack_ref.
Definition mark_unknown_effect (key : string) : M t unit :=
  _transition_impl key [dispatched; unknown_effect] unknown_effect None None.

Definition get (key : string) : M t (option DedupeRecord) :=
  row ← pg_execute (λ rows : ledger, Ok (rows !! key, rows));
  match row with
  | None => mret None
  | Some _ => record ← lift (_row_to_record row); mret (Some record)
  end.

(** The class inherits the body of the protocol, which returns [None]. *)
Definition count_by_run (run_id : string) : M t Z :=
  raise (Exn Unmodelled "count_by_run returns None").

#[global] Instance port : DedupeStorePort t := {|
  ds_reserve := reserve;
  ds_mark_dispatched := mark_dispatched;
  ds_mark_acknowledged := mark_acknowledged;
  ds_mark_succeeded := mark_succeeded;
  ds_mark_unknown_effect := mark_unknown_effect;
  ds_reserve_and_dispatch := reserve_and_dispatch;
  ds_get := get;
  ds_count_by_run := count_by_run
|}.
End PostgresDedupeStore.

(** ** Every method is one step of the ledger *)
Section steps.
Import PostgresDedupeStore.

(** The other sessions delete nothing. *)
Context (F : (ledger → ledger) → Prop).
Context (HF : ∀ f l k, F f → is_Some (l !! k) → is_Some (f l !! k)).

Definition ledger_step {A} (spec : ledger → option (A * ledger)) (l : ledger) (a : A) (l' : ledger)
    : Prop := spec l = Some (a, l').
Definition ledger_refused {A} (spec : ledger → option (A * ledger)) (l : ledger) (e : exn) : Prop :=
  spec l = None ∧ exn_cls e = DedupeStoreStateError.

Abbreviation linear m spec :=
  (linear F (λ _, True) (ledger_step spec) (ledger_refused spec) m).

Lemma pg_transition target k peer ack :
  linear (_transition_impl k (legal_sources target) target peer ack) (spec_mark_unit target k peer ack).
Proof.
  apply linear_transaction. intros p0 p _ Hp. apply wp_bind.
  apply (wp_pg_statement F _ _ _ p0); [done|by left| |].
  2: { intros e s' He Hs Hst. split_and!; [done..|]. by intros ?%Hst. }
  intros p1 Hp1 _ _ p1' Hp1'. subst p1'. simpl.
  assert (∀ e, spec_mark_unit target k peer ack (pg_rows p1) = None → exn_cls e = DedupeStoreStateError →
    did F (refuses (ledger_refused (spec_mark_unit target k peer ack)) e) (pg_rows p0) tt (pg_rows p1)) as Href.
  { intros e Hn He. exists (pg_rows p1), (pg_rows p1). split_and!; [apply Hp1|by split|done]. }
  unfold id. destruct (pg_rows p1 !! k) as [r|] eqn:Hk.
  2: { apply wp_raise. split_and!; [done..|]. intros _. apply Href; [|done].
       unfold spec_mark_unit, spec_mark. by rewrite Hk. }
  destruct (decide (rec_state r ∉ legal_sources target)) as [Hn|Hin%dec_stable].
  { apply wp_raise. split_and!; [done..|]. intros _. apply Href; [|done].
    unfold spec_mark_unit, spec_mark. rewrite Hk. simpl. by rewrite decide_False. }
  apply (wp_pg_statement F _ _ _ p0); [done|by left| |].
  2: { intros e s' He Hs Hst. split_and!; [done..|]. by intros ?%Hst. }
  intros p2 Hp2 _ Hl2 p2' Hp2'. subst p2'. simpl in *. split; [done|]. intros t Ht Hlocks.
  apply Forall_cons in Hl2 as [Hl2 _], Hlocks as [Hl3 _]. simpl in Hl2, Hl3.
  assert (t !! k = Some r) as Hkt by (unfold id in *; congruence).
  eexists t, _. split_and!; [etrans; [apply Hp2|done]| |done].
  unfold ledger_step, spec_mark_unit, spec_mark. rewrite Hkt. simpl. rewrite decide_True by done. simpl.
  do 2 f_equal. apply map_eq. intros k'. destruct (decide (k = k')) as [<-|Hne].
  - by rewrite lookup_insert_eq, lookup_alter_eq, Hkt.
  - by rewrite lookup_insert_ne, lookup_alter_ne by done.
Qed.

Lemma drift_is_Some l l' k : drift F l l' → is_Some (l !! k) → is_Some (l' !! k).
Proof. apply (others_keep F (λ l, is_Some (l !! k))). intros f l1 Hf. by apply HF. Qed.

Lemma pg_reserve st envelope peer :
  linear (reserve_row envelope (new_record envelope st peer)) (Some ∘ spec_reserve st envelope peer).
Proof.
  apply linear_transaction. intros p0 p _ Hp. set (k := env_dispatch_idempotency_key envelope).
  apply wp_bind, (wp_pg_statement F _ _ _ p0); [done|by left| |].
  2: { intros e s' He Hs Hst. split_and!; [done..|]. by intros ?%Hst. }
  intros p1 Hp1 _ _ p1' Hp1'. subst p1'. simpl. unfold id. fold k.
  destruct (pg_rows p1 !! k) as [r|] eqn:Hk.
  - apply wp_bind, (wp_pg_statement F _ _ _ p0); [done|by left| |].
    2: { intros e s' He Hs Hst. split_and!; [done..|]. by intros ?%Hst. }
    intros p2 Hp2 Hd _ p2' Hp2'. subst p2'. simpl in *. unfold id in *. fold k.
    destruct (drift_is_Some _ _ k Hd) as [r' Hk']; [by rewrite Hk|]. rewrite Hk'.
    apply wp_bind, wp_lift; [|done]. intros a [= <-]. apply wp_ret. split; [done|]. intros t Ht _.
    simpl. exists (pg_rows p2), (pg_rows p2). split_and!; [apply Hp2| |done].
    unfold ledger_step, compose, spec_reserve. fold k. by rewrite Hk'.
  - apply wp_ret. split; [done|]. intros t Ht Hl. apply Forall_cons in Hl as [Hl _]. simpl in *.
    assert (t !! k = None) as Hkt by (rewrite <- Hk; exact Hl).
    eexists t, _. split_and!; [etrans; [apply Hp1|done]| |done].
    unfold ledger_step, compose, spec_reserve. fold k. by rewrite Hkt.
Qed.

Lemma pg_get k : linear (get k) (λ l, Some (l !! k, l)).
Proof.
  intros p Ho Hp. apply wp_bind. eapply wp_mono.
  - by apply (linear_execute F (λ _, True) (λ _ _ _ _, I) (ledger_step (λ l, Some (l !! k, l)))
      (ledger_refused (λ l, Some (l !! k, l))) (λ rows, Ok (rows !! k, rows))).
  - intros [r|] p' H; exact H.
  - done.
Qed.

(** An operation, as the history of the ledger has it. *)
Lemma pg_run_op op : linear (run_op op) (spec_op op).
Proof.
  assert (∀ A (m : M t A) spec (f : A → op_result) spec',
    linear m spec → (∀ l, spec' l = (λ al, (f al.1, al.2)) <$> spec l) →
    linear (a ← m; mret (f a)) spec') as Hmap.
  { intros A m spec f spec' Hm Hs p Ho Hp. eapply wp_mono.
    - apply (linear_map F (λ _, True) f (ledger_step spec) (ledger_step spec') (ledger_refused spec) m);
        [|done..]. intros l a l' Hl. unfold ledger_step in *. by rewrite Hs, Hl.
    - done.
    - intros e p' (H0 & H1 & H2 & H3). split_and!; [done..|]. intros Hst.
      destruct (H3 Hst) as (u & u' & ? & [? [Hn ?]] & ?). exists u, u'. split_and!; [done| |done].
      split; [done|]. split; [by rewrite Hs, Hn|done]. }
  destruct op; simpl.
  1: apply (Hmap _ _ _ _ _ (pg_reserve reserved e (env_peer_operation_id e))).
  2: apply (Hmap _ _ _ _ _ (pg_reserve dispatched e (str_or peer (env_peer_operation_id e)))).
  3: apply (Hmap _ _ _ (λ _, ResUnit) _ (pg_transition dispatched k peer None)).
  4: apply (Hmap _ _ _ (λ _, ResUnit) _ (pg_transition acknowledged k None ack)).
  5: apply (Hmap _ _ _ (λ _, ResUnit) _ (pg_transition succeeded k None ack)).
  6: apply (Hmap _ _ _ (λ _, ResUnit) _ (pg_transition unknown_effect k None None)).
  7: apply (Hmap _ _ _ ResRecord _ (pg_get k)).
  all: intros l; simpl; unfold spec_mark_unit, compose;
    try (by destruct (spec_reserve _ _ _ _)); try done; by destruct (spec_mark _ _ _ _ _).
Qed.
End steps.

(** ** A database of one's own is a lawful store *)
Section laws.
Import PostgresDedupeStore.

(** No other session, and no lost answer. *)
Definition own_database (p : t) : Prop := others_do nobody p ∧ never_lost p.

Lemma linear_refines {A} (m : M t A) spec :
  linear nobody (λ _, True) (ledger_step spec) (ledger_refused spec) m → refines own_database pg_rows m spec.
Proof.
  intros Hm p [Ha Hl]. specialize (Hm p Ha I). unfold wp in Hm.
  assert (∀ p', pg_ahead p' `suffix_of` pg_ahead p → own_database p') as Hown
    by (intros p' Hs; split; by eapply Forall_suffix).
  destruct (m p) as [[a|e] p'].
  - destruct Hm as [Hs Hd]. split; [by apply Hown|]. by apply did_nobody in Hd.
  - destruct Hm as (He & Hs & Hd & _). split_and!; [by apply Hown|done|].
    by destruct Hd as [->%drift_nobody|[Hn _]].
Qed.

Lemma nobody_deletes f (l : ledger) k : nobody f → is_Some (l !! k) → is_Some (f l !! k).
Proof. by intros []. Qed.

#[export] Instance pg_dedupe_laws : DedupeStoreLaws t.
Proof.
  refine {| ds_ok := own_database; ds_view := pg_rows |}; intros; apply linear_refines.
  - apply (pg_reserve nobody nobody_deletes reserved).
  - apply (pg_reserve nobody nobody_deletes dispatched).
  - apply (pg_transition nobody dispatched).
  - apply (pg_transition nobody acknowledged).
  - apply (pg_transition nobody succeeded).
  - apply (pg_transition nobody unknown_effect).
  - apply pg_get.
Defined.
End laws.

(** What a session may commit: anything that keeps the keys. *)
Definition deletes_nothing (F : (ledger → ledger) → Prop) : Prop :=
  ∀ f l k, F f → is_Some (l !! k) → is_Some (f l !! k).

(** C27: each operation of the PostgreSQL dedupe store is one step of the
    abstract ledger, taken at one moment among the commits of other sessions
    (which delete nothing).  Where it raises, nothing of it is there, or all of
    it if the answer of a COMMIT was lost; and in steady weather it raises only
    a DedupeStoreStateError, at a moment when the ledger has no step for it. *)
Theorem postgres_dedupe_linearizable (F : (ledger → ledger) → Prop) (op : store_op)
    (p : PostgresDedupeStore.t)
    (HF : deletes_nothing F) (Ho : others_do F p) :
  let '(o, p') := run_op op p in
  match o with
  | Ok r => ∃ u u', drift F (pg_rows p) u ∧ spec_op op u = Some (r, u') ∧ drift F u' (pg_rows p')
  | Raise e =>
      (drift F (pg_rows p) (pg_rows p') ∨
       ¬ never_lost p ∧ ∃ r u u', drift F (pg_rows p) u ∧ spec_op op u = Some (r, u') ∧
         drift F u' (pg_rows p')) ∧
      (steady p → exn_cls e = DedupeStoreStateError ∧
         ∃ u, drift F (pg_rows p) u ∧ spec_op op u = None ∧ drift F u (pg_rows p'))
  end.
Proof.
  pose proof (pg_run_op F HF op p Ho I) as H. unfold wp in H.
  destruct (run_op op p) as [[r|e] p']; [by destruct H|]. destruct H as (_ & _ & Hd & Hst).
  split; [naive_solver|]. intros Hs. destruct (Hst Hs) as (u & u' & H1 & [-> [H2 He]] & H3).
  split; [done|]. by exists u.
Qed.

(** ** A race

    Another session commits the same key just before the INSERT. *)
Definition example_row : DedupeRecord := new_record example_envelope dispatched None.

Definition other_reserve (l : ledger) : ledger :=
  match l !! rec_dispatch_idempotency_key example_row with
  | Some _ => l
  | None => <[rec_dispatch_idempotency_key example_row := example_row]> l
  end.

Definition raced_database : PostgresDedupeStore.t :=
  Pg ∅ [PgWeather None pg_fine; PgWeather (Some other_reserve) pg_fine].

Lemma other_reserve_keeps f l k : f = other_reserve → is_Some (l !! k) → is_Some (f l !! k).
Proof.
  intros -> Hk. unfold other_reserve. destruct (l !! rec_dispatch_idempotency_key example_row); [done|].
  by apply lookup_insert_is_Some'; right.
Qed.

Lemma postgres_dedupe_linearizable_witness :
  let F := λ f, f = other_reserve in
  let '(o, p') := run_op (OpReserve example_envelope) raced_database in
  o = Ok (ResReservation (duplicate_reservation example_row)) ∧
  ∃ u u', drift F ∅ u ∧ spec_op (OpReserve example_envelope) u = Some (ResReservation (duplicate_reservation example_row), u') ∧
    drift F u' (pg_rows p').
Proof.
  intros F. assert (others_do F raced_database) as Ho by (repeat constructor).
  pose proof (postgres_dedupe_linearizable F (OpReserve example_envelope) raced_database
    other_reserve_keeps Ho) as H.
  destruct (run_op (OpReserve example_envelope) raced_database) as [o p'] eqn:Hrun.
  assert (o = Ok (ResReservation (duplicate_reservation example_row))) as ->.
  { assert ((run_op (OpReserve example_envelope) raced_database).1 =
      Ok (ResReservation (duplicate_reservation example_row))) as Ho1 by (vm_compute; reflexivity).
    rewrite Hrun in Ho1. exact Ho1. }
  split; [reflexivity|]. exact H.
Defined.

(** The answer of a COMMIT is lost: the caller sees an exception, and the key is
    taken. *)
Lemma reservation_lost_answer :
  let p := Pg ∅ [PgWeather None pg_fine; PgWeather None pg_fine;
                 PgWeather None (pg_lost (Exn (OtherError "ConnectionDoesNotExistError") ""))] in
  is_ok (PostgresDedupeStore.reserve example_envelope p).1 = false ∧
  is_Some (pg_rows (PostgresDedupeStore.reserve example_envelope p).2 !!
    env_dispatch_idempotency_key example_envelope).
Proof. split; [vm_compute; reflexivity|]. vm_compute. by eexists. Qed.
