(* ===== verification/PgEventLog.v ===== *)
(** * The PostgreSQL event log ([kernel/persistence/pg_event_log.py])

    The same two tables as in SQLite, in transactions that take an advisory
    lock on the run: one definition per method, and the proof that an append
    is one step that extends the history of its run, whatever other sessions
    append meanwhile, those with a transaction open all along included. *)
From S2P Require Export SqliteEventLog.
From S2P Require Export Postgres.

(** The committed rows with the counter of [commit_sequence], a BIGSERIAL, and
    the numbers that transactions of other sessions have drawn and not committed
    yet: they may commit them late, or never. *)
Record pg_tables := PgTables { pt_log :> log_tables; pt_open : gset Z }.

Definition on_log (f : log_tables → log_tables) (l : pg_tables) : pg_tables :=
  PgTables (f l) (pt_open l).

(** [pg_advisory_xact_lock] of a run: those who append take it first, so that
    nobody else numbers events of that stream.  Runs whose ids have the same
    hash share a lock, which only makes more sessions wait. *)
#[export] Instance stream_locks : PgLocks pg_tables string.
Proof.
  refine {| permits run (l l' : pg_tables) := map ev_commit_offset (stream run l') = map ev_commit_offset (stream run l) |}.
  - intros k t t'. apply _.
  - intros k. split; [by intros t|]. intros t u v H1 H2. by rewrite H2.
Defined.

Module PostgresKernelRuntimeEventLog.
Abbreviation t := (pg pg_tables).
Abbreviation tx := (session pg_tables string).

(** The type codec for JSONB that the connections of the pool have, if any: what
    a dictionary bound to a parameter is read back as, where the driver takes
    it.  Without a codec the driver takes texts only, and reads texts. *)
Abbreviation jsonb_codec := (option (pydict → option pydict)).

(** The pool as [_create_pool] makes it: [create_pool] is handed no [init] that
    would set a codec. *)
Definition pool_codec : jsonb_codec := None.

Section codec.
Context (codec : jsonb_codec).

Definition bound (d : pydict) : option pydict := f ← codec; f d.

(** asyncpg's answer to an argument it cannot encode. *)
Definition data_error : exn := Exn (OtherError "DataError") "invalid input for query argument".

Definition integrity_violation : exn :=
  Exn (OtherError "IntegrityConstraintViolationError") "constraint violated".

(** [commit_sequence] is drawn from the sequence of the table. *)
Definition draw_sequence : pg_tables → pg_tables := on_log (λ l,
  {| lt_sequence := lt_sequence l + 1; lt_commits := lt_commits l; lt_events := lt_events l |}).

Definition push_commit (row : commit_row) (l : log_tables) : log_tables :=
  {| lt_sequence := lt_sequence l; lt_commits := lt_commits l ++ [row]; lt_events := lt_events l |}.

Definition insert_commit (commit : ActionCommit) : M tx Z :=
  pg_statement draw_sequence
    (λ l : pg_tables, let n := Z.of_nat (length (cm_events commit)) in
          if (0 <? n)%Z
          then Ok (lt_sequence l, on_log (push_commit
                 {| cr_commit_sequence := lt_sequence l; cr_stream_run_id := cm_run_id commit;
                    cr_commit_id := cm_commit_id commit; cr_created_at := cm_created_at commit;
                    cr_event_count := n |}))
          else Raise integrity_violation)
    (λ _, []).

(** [json.loads(json.dumps(payload, sort_keys=True))], bound to its column. *)
Definition stored_payload (payload : option pydict) : outcome (option pydict) :=
  match SQLiteKernelRuntimeEventLog.stored_payload payload with
  | None => Ok None
  | Some d => match bound d with Some d' => Ok (Some d') | None => Raise data_error end
  end.

(** The event as its row has it: all that changes is its offset and its
    payload. *)
Definition placed (e : RuntimeEvent) (offset : Z) (payload : option pydict) : RuntimeEvent :=
  {| ev_run_id := ev_run_id e; ev_event_id := ev_event_id e; ev_commit_offset := offset;
     ev_event_type := ev_event_type e; ev_event_class := ev_event_class e;
     ev_event_authority := ev_event_authority e; ev_ordering_key := ev_ordering_key e;
     ev_wake_policy := ev_wake_policy e; ev_created_at := ev_created_at e;
     ev_idempotency_key := ev_idempotency_key e; ev_payload_ref := ev_payload_ref e;
     ev_payload_json := payload; ev_schema_version := ev_schema_version e |}.

Definition insert_event (run_id : string) (commit_sequence index offset : Z) (event : RuntimeEvent)
    : M tx unit :=
  payload ← lift (stored_payload (ev_payload_json event));
  let row := {| row_commit_sequence := commit_sequence; row_event_index := index;
                row_stream_run_id := run_id; row_event := placed event offset payload |} in
  pg_statement id
    (λ l : pg_tables, match add_event row l with
          | Ok _ => Ok (tt, on_log (add_rows [row]))
          | Raise _ => Raise integrity_violation
          end)
    (λ _, []).

(** The [for] loop over [enumerate(commit.events)]. *)
Fixpoint insert_events (run_id : string) (commit_sequence next_offset index : Z)
    (events : list RuntimeEvent) : M tx unit :=
  match events with
  | [] => mret tt
  | event :: events =>
      insert_event run_id commit_sequence index (next_offset + index) event;;
      insert_events run_id commit_sequence next_offset (index + 1) events
  end.

Definition _append_action_commit_impl (commit : ActionCommit) : M t string :=
  commit_sequence ← pg_transaction
    (pg_statement id (λ _, Ok (tt, id)) (λ _, [cm_run_id commit]);;
     next_offset ← pg_query (λ l : pg_tables, max_of (stream (cm_run_id commit) l) + 1)%Z;
     commit_sequence ← insert_commit commit;
     insert_events (cm_run_id commit) commit_sequence next_offset 0 (cm_events commit);;
     mret commit_sequence);
  mret ("commit-ref-" +:+ pretty commit_sequence).

Definition append_action_commit (commit : ActionCommit) : M t string :=
  match cm_events commit with
  | [] => raise (Exn ValueError "ActionCommit.events must contain at least one event.")
  | _ => _append_action_commit_impl commit
  end.

(** [ORDER BY commit_offset ASC]. *)
Definition _load_rows (run_id : string) (after_offset : Z) : M t (list RuntimeEvent) :=
  pg_execute (λ l : pg_tables, Ok (merge_sort offset_le (after after_offset (stream run_id l)), l)).

(** A payload that the driver reads as a text is not a dictionary, and [dict] of
    the text of an object raises at its first character. *)
Definition _row_to_runtime_event (row : RuntimeEvent) : outcome RuntimeEvent :=
  match ev_payload_json row, codec with
  | Some _, None =>
      Raise (Exn ValueError "dictionary update sequence element #0 has length 1; 2 is required")
  | _, _ => Ok row
  end.

Definition load (run_id : string) (after_offset : Z) : M t (list RuntimeEvent) :=
  rows ← _load_rows run_id after_offset; lift (mapM _row_to_runtime_event rows).
Definition read_events (run_id : string) : M t (list RuntimeEvent) := load run_id 0.

Definition max_offset (run_id : string) : M t Z :=
  pg_execute (λ l : pg_tables, Ok (max_of (stream run_id l), l)).

Definition port : EventLogPort t := {| el_append := append_action_commit; el_load := load |}.
End codec.
End PostgresKernelRuntimeEventLog.

(** ** An append is one step *)
Section append.
Import PostgresKernelRuntimeEventLog.

Context (codec : jsonb_codec).

Definition pg_normal (e : RuntimeEvent) (offset : Z) : RuntimeEvent :=
  placed e offset
    ((λ d, default d (bound codec d)) <$> SQLiteKernelRuntimeEventLog.stored_payload (ev_payload_json e)).

(** The driver takes the payload of the event. *)
Definition takes (e : RuntimeEvent) : Prop :=
  match SQLiteKernelRuntimeEventLog.stored_payload (ev_payload_json e) with
  | Some d => is_Some (bound codec d)
  | None => True
  end.

(** The events under the offsets from [n] on. *)
Fixpoint number (n : Z) (events : list RuntimeEvent) : list RuntimeEvent :=
  match events with
  | [] => []
  | e :: events => pg_normal e n :: number (n + 1) events
  end.

(** Well-formed tables, whose counter is ahead of the numbers that are out. *)
Record pg_ok (l : pg_tables) : Prop := {
  po_log : log_ok l;
  po_open n : n ∈ pt_open l → (n ≤ lt_sequence l)%Z
}.

(** What other sessions do: draw numbers, and append to the ends of streams
    under numbers that they have drawn, now or in a transaction that was open
    already; their transactions end with or without a commit. *)
Record pg_grows (l l' : pg_tables) : Prop := {
  pgg_ok : pg_ok l';
  pgg_streams run : stream run l `prefix_of` stream run l';
  pgg_sequence : (lt_sequence l ≤ lt_sequence l')%Z;
  pgg_open n : n ∈ pt_open l' → n ∈ pt_open l ∨ (lt_sequence l < n)%Z;
  pgg_rows r : r ∈ lt_events l' →
    r ∈ lt_events l ∨ row_commit_sequence r ∈ pt_open l ∨ (lt_sequence l < row_commit_sequence r)%Z
}.

Definition appends (f : pg_tables → pg_tables) : Prop := ∀ l, pg_ok l → pg_grows l (f l).

Lemma appends_ok f l : appends f → pg_ok l → pg_ok (f l).
Proof. intros Hf Hl. apply Hf, Hl. Qed.

Lemma draw_appends : appends draw_sequence.
Proof.
  intros l [[Hn Hs] Ho]. split; simpl; [|done|lia|by left|by left].
  split; [split|]; simpl; [done|..].
  - intros r Hr. specialize (Hs r Hr). lia.
  - intros n Hin. specialize (Ho n Hin). lia.
Qed.

Lemma drift_grows l l' : drift appends l l' → pg_ok l → pg_grows l l'.
Proof.
  induction 1 as [l|l l1 l2 (f & Hf & ->) _ IH]; intros Hok; [by split; auto; lia|].
  destruct (Hf l Hok) as [Hok1 Hs1 Hq1 Ho1 Hr1]. destruct (IH Hok1) as [Hok2 Hs2 Hq2 Ho2 Hr2].
  split; [done|intros run; exact (transitivity (Hs1 run) (Hs2 run))|lia|..].
  - intros n Hn. destruct (Ho2 n Hn) as [Hin|Hlt]; [by apply Ho1|right; lia].
  - intros r Hr. destruct (Hr2 r Hr) as [Hin|[Hin|Hlt]]; [by apply Hr1| |right; right; lia].
    right. by apply Ho1.
Qed.

(** An append of [cm]: its events at the end of its run's stream, numbered on,
    and its row, whose number the reference has. *)
Record append_step (cm : ActionCommit) (l : pg_tables) (ref : string) (l' : pg_tables) : Prop := {
  ap_ok : pg_ok l';
  ap_taken : Forall takes (cm_events cm);
  ap_streams run : stream run l' = stream run l ++
    (if decide (run = cm_run_id cm) then number (Z.of_nat (length (stream run l)) + 1) (cm_events cm) else []);
  ap_row : ∃ row, row ∈ lt_commits l' ∧ ref = "commit-ref-" +:+ pretty (cr_commit_sequence row) ∧
    cr_stream_run_id row = cm_run_id cm ∧ cr_commit_id row = cm_commit_id cm ∧
    cr_event_count row = Z.of_nat (length (cm_events cm))
}.

(** A commit has no events, or one whose payload the driver refuses. *)
Definition append_refused (cm : ActionCommit) (l : pg_tables) (e : exn) : Prop :=
  (cm_events cm = [] ∧ exn_cls e = ValueError) ∨ (¬ Forall takes (cm_events cm) ∧ e = data_error).

(** ** The rows of one transaction *)
Context (run : string) (seq : Z) (row : commit_row) (Hrow : cr_commit_sequence row = seq) (m : nat).

Definition row_at (index : Z) (e : RuntimeEvent) : event_row :=
  {| row_commit_sequence := seq; row_event_index := index; row_stream_run_id := run;
     row_event := pg_normal e (Z.of_nat m + 1 + index) |}.

Fixpoint rows_at (index : Z) (events : list RuntimeEvent) : list event_row :=
  match events with
  | [] => []
  | e :: events => row_at index e :: rows_at (index + 1) events
  end.

(** The stream is as it was when the lock was taken, and the number ours. *)
Record held (l : pg_tables) : Prop := {
  hd_ok : pg_ok l;
  hd_length : length (stream run l) = m;
  hd_free r : r ∈ lt_events l → row_commit_sequence r ≠ seq;
  hd_mine : seq ∉ pt_open l;
  hd_sequence : (seq ≤ lt_sequence l)%Z
}.

Lemma held_drift l l' : held l → drift appends l l' → permits run l l' → held l'.
Proof.
  intros [Hok Hlen Hfree Hmine Hseq] Hd Hp.
  destruct (drift_grows _ _ Hd Hok) as [Hok' _ Hq Ho Hr]. split; [done| | | |lia].
  - apply (f_equal length) in Hp. rewrite !length_map in Hp. by rewrite Hp.
  - intros r Hin Hs. destruct (Hr r Hin) as [Hin'|[Hin'|Hlt]]; [by apply (Hfree r)| |lia].
    by rewrite Hs in Hin'.
  - intros Hin. destruct (Ho _ Hin); [done|lia].
Qed.

Lemma rows_at_app index es1 es2 :
  rows_at index (es1 ++ es2) = rows_at index es1 ++ rows_at (index + Z.of_nat (length es1)) es2.
Proof.
  revert index. induction es1 as [|e es1 IH]; intros index; simpl; [by rewrite Z.add_0_r|].
  rewrite IH. do 3 f_equal. lia.
Qed.

Lemma rows_at_seq index es r : r ∈ rows_at index es → row_commit_sequence r = seq.
Proof.
  revert index. induction es as [|e es IH]; intros i; simpl; [by intros ?%elem_of_nil|].
  intros [->|Hr]%elem_of_cons; [done|by eapply IH].
Qed.

Lemma add_rows_app rows1 rows2 l : add_rows (rows1 ++ rows2) l = add_rows rows2 (add_rows rows1 l).
Proof. unfold add_rows. simpl. by rewrite app_assoc. Qed.

Lemma add_rows_nil l : add_rows [] l = l.
Proof. destruct l. unfold add_rows. simpl. by rewrite app_nil_r. Qed.

Lemma stream_push l r : stream r (push_commit row l) = stream r l.
Proof. done. Qed.

Lemma stream_rows_at r index es :
  map row_event (filter (λ x, row_stream_run_id x = r) (rows_at index es)) =
  if decide (r = run) then number (Z.of_nat m + 1 + index) es else [].
Proof.
  revert index. induction es as [|e es IH]; intros index; simpl; [by case_decide|].
  rewrite filter_cons. simpl. destruct (decide (r = run)) as [->|Hne].
  - rewrite decide_True by done. simpl. rewrite IH. by rewrite Z.add_assoc.
  - rewrite decide_False by congruence. apply IH.
Qed.

Lemma length_number n es : length (number n es) = length es.
Proof. revert n. induction es as [|e es IH]; intros n; simpl; [done|]. by rewrite IH. Qed.

(** What the transaction has written fits on any such content. *)
Lemma rows_fit l es :
  held l → inserting seq (Z.of_nat (length es)) (add_rows (rows_at 0 es) (push_commit row l)).
Proof.
  intros [[Hok _] Hlen Hfree _ Hseq]. induction es as [|e es IH] using rev_ind.
  - split; simpl.
    + intros r. rewrite stream_add_rows, app_nil_r. apply (lo_numbered _ Hok).
    + apply Exists_app. right. by constructor.
    + intros r Hr Hs. rewrite app_nil_r in Hr. by destruct (Hfree r Hr).
  - rewrite rows_at_app, add_rows_app, length_app. simpl.
    destruct (add_event_next (row_at (Z.of_nat (length es)) e) (add_rows (rows_at 0 es) (push_commit row l)) IH) as [_ Hin].
    + simpl. rewrite stream_add_rows, stream_push, stream_rows_at, decide_True by done.
      rewrite length_app, length_number, Hlen. lia.
    + simpl in Hin. by replace (Z.of_nat (length es + 1)) with (Z.of_nat (length es) + 1)%Z by lia.
Qed.

(** Inside the transaction, with [es] inserted. *)
Record in_append (p0 : t) (es : list RuntimeEvent) (s : tx) : Prop := {
  ia_since : since appends p0 (ss_pg s);
  ia_held : held (pg_rows (ss_pg s));
  ia_mine l : ss_mine s l = on_log (λ l, add_rows (rows_at 0 es) (push_commit row l)) l;
  ia_taken : Forall takes es;
  ia_lock : run ∈ ss_locks s
}.

Lemma held_next p0 es s p :
  in_append p0 es s → drift appends (pg_rows (ss_pg s)) (pg_rows p) →
  Forall (λ k, permits k (pg_rows (ss_pg s)) (pg_rows p)) (ss_locks s) → held (pg_rows p).
Proof.
  intros [_ Hh _ _ Hl] Hd Hp. eapply held_drift; [done..|]. by eapply (proj1 (Forall_forall _ _)) in Hp.
Qed.

(** The payload as it is bound, where the driver takes it. *)
Lemma stored_payload_cases e :
  (takes e ∧ stored_payload codec (ev_payload_json e) = Ok ((λ d, default d (bound codec d)) <$>
     SQLiteKernelRuntimeEventLog.stored_payload (ev_payload_json e))) ∨
  (¬ takes e ∧ stored_payload codec (ev_payload_json e) = Raise data_error).
Proof.
  unfold takes, stored_payload. destruct (SQLiteKernelRuntimeEventLog.stored_payload _) as [d|]; [|by left].
  simpl. destruct (bound codec d) as [d'|]; simpl; [left; split; [by eexists|done]|right; split; [|done]].
  by intros [? ?].
Qed.

Lemma insert_events_spec p0 es ds s :
  in_append p0 ds s →
  wp (insert_events codec run seq (Z.of_nat m + 1) (Z.of_nat (length ds)) es)
    (λ _ s', in_append p0 (ds ++ es) s')
    (λ e s', is_Exception e = true ∧ since appends p0 (ss_pg s') ∧
       (steady p0 → ¬ Forall takes (ds ++ es) ∧ e = data_error)) s.
Proof.
  revert ds s. induction es as [|e es IH]; intros ds s Hs; simpl; [apply wp_ret; by rewrite app_nil_r|].
  apply wp_bind. unfold insert_event. apply wp_bind.
  destruct (stored_payload_cases e) as [[Ht ->]|[Ht ->]].
  2: { unfold wp. split_and!; [done|apply Hs|]. intros _. split; [|done].
       intros [_ [Hh _]%Forall_cons]%Forall_app. done. }
  unfold wp at 1. cbn [lift fst snd].
  apply (wp_pg_statement appends _ _ _ p0); [apply Hs|by left| |by intros].
  intros p Hp Hd Hl p' Hp'. subst p'. pose proof (held_next _ _ _ _ Hs Hd Hl) as Hh.
  simpl pg_rows. unfold id. rewrite (ia_mine _ _ _ Hs).
  match goal with |- context [add_event ?x _] => change x with (row_at (Z.of_nat (length ds)) e) end.
  set (r := row_at _ e).
  destruct (add_event_next r (add_rows (rows_at 0 ds) (push_commit row (pg_rows p))) (rows_fit _ ds Hh))
    as [Hadd _].
  { simpl. rewrite stream_add_rows, stream_push, stream_rows_at, decide_True by done.
    rewrite length_app, length_number, (hd_length _ Hh). lia. }
  cbn [on_log pt_log]. rewrite Hadd. assert (in_append p0 (ds ++ [e]) (Session (Pg (pg_rows p) (pg_ahead p))
    (on_log (add_rows [r]) ∘ ss_mine s) ([] ++ ss_locks s))) as Hs'.
  { split; [done|done| | |apply Hs].
    - intros l. simpl. unfold compose. rewrite (ia_mine _ _ _ Hs). unfold on_log. simpl.
      by rewrite rows_at_app, add_rows_app.
    - apply Forall_app. split; [apply Hs|by apply Forall_singleton]. }
  specialize (IH _ _ Hs'). rewrite length_app in IH. simpl in IH.
  replace (Z.of_nat (length ds + 1)) with (Z.of_nat (length ds) + 1)%Z in IH by lia.
  by rewrite <- app_assoc in IH.
Qed.
End append.

Section linear_append.
Import PostgresKernelRuntimeEventLog.
Context (codec : jsonb_codec).

Lemma held_step run seq row m cm l :
  cr_commit_sequence row = seq → cm_run_id cm = run → cr_stream_run_id row = run →
  cr_commit_id row = cm_commit_id cm → cr_event_count row = Z.of_nat (length (cm_events cm)) →
  held run seq m l → Forall (takes codec) (cm_events cm) →
  append_step codec cm l ("commit-ref-" +:+ pretty seq)
    (on_log (λ l, add_rows (rows_at codec run seq m 0 (cm_events cm)) (push_commit row l)) l).
Proof.
  intros Hseq Hrun Hr1 Hr2 Hr3 Hh Ht. pose proof (rows_fit codec run seq row Hseq m l (cm_events cm) Hh) as [Hn _ _].
  split.
  - split; [split; [exact Hn|]|].
    + simpl. intros r [Hr|Hr]%elem_of_app.
      * by apply (lo_sequence _ (po_log _ (hd_ok _ _ _ _ Hh))).
      * assert (row_commit_sequence r = seq) as -> by (by eapply rows_at_seq). apply (hd_sequence _ _ _ _ Hh).
    + intros n. apply (po_open _ (hd_ok _ _ _ _ Hh)).
  - done.
  - intros r. cbn [on_log pt_log]. rewrite stream_add_rows, stream_push, stream_rows_at, Z.add_0_r, Hrun.
    case_decide; [|done]. subst r. by rewrite (hd_length _ _ _ _ Hh).
  - exists row. split_and!; [simpl; set_solver|by subst seq|congruence|done..].
Qed.

Lemma append_linear cm :
  linear appends pg_ok (append_step codec cm) (append_refused codec cm) (append_action_commit codec cm).
Proof.
  unfold append_action_commit. destruct (cm_events cm) as [|e0 es0] eqn:Hes.
  { intros p Ho Hok. apply wp_raise. split_and!; [done|done|by left|].
    intros _. exists (pg_rows p), (pg_rows p). split_and!; [done| |done]. split; [done|by left]. }
  assert (cm_events cm ≠ []) as Hne by by rewrite Hes. clear Hes.
  apply (linear_map appends pg_ok (λ seq, "commit-ref-" +:+ pretty seq)
    (λ l (seq : Z), append_step codec cm l ("commit-ref-" +:+ pretty seq))); [done|].
  apply linear_transaction. intros p0 p Hok0 Hp.
  set (run := cm_run_id cm).
  assert (∀ l, drift appends (pg_rows p0) l → pg_ok l) as Hok.
  { intros l Hl. eapply (others_keep appends pg_ok); [apply appends_ok|exact Hl|done]. }
  assert (∀ (e : exn) (s : tx), is_Exception e = true → since appends p0 (ss_pg s) → ¬ steady p0 →
    is_Exception e = true ∧ since appends p0 (ss_pg s) ∧
    (steady p0 → did appends (refuses (append_refused codec cm) e) (pg_rows p0) tt (pg_rows (ss_pg s)))) as Hfault.
  { intros e s He Hs Hst. split_and!; [done..|]. by intros ?%Hst. }
  apply wp_bind, (wp_pg_statement appends _ _ _ p0); [done|by left| |exact Hfault].
  intros p1 _ _ _ p1' Hp1. subst p1'.
  apply wp_bind, (wp_pg_statement appends _ _ _ p0); [done|by left| |exact Hfault].
  intros p2 Hp2 _ _ p2' Hp2'. subst p2'. simpl.
  apply wp_bind, (wp_pg_statement appends _ _ _ p0); [done|right; apply draw_appends| |exact Hfault].
  intros p3 Hp3 Hd3 Hl3 p3' Hp3'. subst p3'. simpl in *. unfold id in *.
  rewrite (proj2 (Z.ltb_lt _ _)) by (destruct (cm_events cm); simpl in *; [done|lia]).
  set (m := length (stream run (pg_rows p2))). set (seq := (lt_sequence (pg_rows p3) + 1)%Z).
  set (row := {| cr_commit_sequence := _; cr_stream_run_id := _; cr_commit_id := _; cr_created_at := _;
                 cr_event_count := _ |}).
  rewrite max_of_consecutive by apply (po_log _ (Hok _ (sn_drift _ _ _ Hp2))).
  assert (held run seq m (draw_sequence (pg_rows p3))) as Hh.
  { pose proof (Hok _ (sn_drift _ _ _ Hp3)) as Hok3. split; simpl.
    - apply (appends_ok draw_sequence); [apply draw_appends|exact Hok3].
    - apply Forall_cons in Hl3 as [Hl3 _]. simpl in Hl3. apply (f_equal length) in Hl3.
      rewrite !length_map in Hl3. done.
    - intros r Hr. pose proof (lo_sequence _ (po_log _ Hok3) r Hr). lia.
    - intros Hin. pose proof (po_open _ Hok3 _ Hin). lia.
    - done. }
  apply wp_bind. eapply wp_mono.
  - apply (insert_events_spec codec run seq row eq_refl m p0 (cm_events cm) []).
    split; simpl; [done|exact Hh| |done|set_solver]. intros l. unfold on_log. by rewrite add_rows_nil.
  - intros [] s [Hs Hh' Hm Ht Hl]. apply wp_ret. split; [done|]. intros l Hd Hp'. simpl in Hm. rewrite Hm.
    exists l. eexists. split_and!; [etrans; [apply Hs|done]| |done].
    apply held_step; try done. eapply held_drift; [done..|]. exact (proj1 (Forall_forall _ _) Hp' run Hl).
  - intros e s (He & Hs & Hst). split_and!; [done..|]. intros Hsteady.
    exists (pg_rows (ss_pg s)), (pg_rows (ss_pg s)). split_and!; [apply Hs| |done].
    split; [done|right]. by apply Hst.
Qed.

(** Without a codec no payload is taken. *)
Lemma pool_takes_none cm :
  Forall (takes pool_codec) (cm_events cm) → Exists (λ e, ev_payload_json e ≠ None) (cm_events cm) → False.
Proof.
  intros Ht (e & He & Hp)%Exists_exists. eapply (proj1 (Forall_forall _ _)) in Ht; [|exact He].
  unfold takes, SQLiteKernelRuntimeEventLog.stored_payload in Ht. destruct (ev_payload_json e); [|done].
  by destruct Ht.
Qed.
End linear_append.

Section linear_reads.
Import PostgresKernelRuntimeEventLog.

(** A read: its value, and nothing else. *)
Definition reads {A} (f : pg_tables → A) (l : pg_tables) (a : A) (l' : pg_tables) : Prop :=
  a = f l ∧ l' = l.

Lemma rows_linear run k :
  linear appends pg_ok (reads (λ l, after k (stream run l))) (λ _ _, False) (_load_rows run k).
Proof.
  apply linear_execute; [intros f l; apply appends_ok|]. intros l Hl.
  by rewrite (sort_consecutive 1) by apply (po_log _ Hl).
Qed.

Lemma rows_read f rows : mapM (_row_to_runtime_event (Some f)) rows = Ok rows.
Proof.
  induction rows as [|e rows IH]; [done|].
  change (mapM (_row_to_runtime_event (Some f)) (e :: rows)) with
    (e' ← _row_to_runtime_event (Some f) e; es ← mapM (_row_to_runtime_event (Some f)) rows; mret (e' :: es)).
  rewrite IH. unfold _row_to_runtime_event. by destruct (ev_payload_json e).
Qed.

(** With a codec a load is the rest of the history at one moment; *)
Lemma load_linear f run k :
  linear appends pg_ok (reads (λ l, after k (stream run l))) (λ _ _, False) (load (Some f) run k).
Proof.
  intros p Ho Hok. unfold load. apply wp_bind. eapply wp_mono; [by apply rows_linear|..].
  - intros rows p' Hp'. apply wp_lift; rewrite rows_read; by intros ? [= <-].
  - done.
Qed.

(** without one it does not get past a payload. *)
Lemma load_stops rows e :
  e ∈ rows → ev_payload_json e ≠ None →
  ∃ x, mapM (_row_to_runtime_event pool_codec) rows = Raise x ∧ exn_cls x = ValueError.
Proof.
  induction rows as [|e' rows IH]; [by intros ?%elem_of_nil|]. intros He Hp.
  change (mapM (_row_to_runtime_event pool_codec) (e' :: rows)) with
    (e0 ← _row_to_runtime_event pool_codec e'; es ← mapM (_row_to_runtime_event pool_codec) rows; mret (e0 :: es)).
  destruct (_row_to_runtime_event pool_codec e') as [e0|x] eqn:Hr.
  2: { exists x. split; [done|]. unfold _row_to_runtime_event in Hr. destruct (ev_payload_json e'); by simplify_eq/=. }
  apply elem_of_cons in He as [->|He].
  { unfold _row_to_runtime_event in Hr. by destruct (ev_payload_json e'). }
  destruct (IH He Hp) as (x & -> & Hx). by exists x.
Qed.

Lemma max_offset_linear run :
  linear appends pg_ok (reads (λ l, Z.of_nat (length (stream run l)))) (λ _ _, False) (max_offset run).
Proof.
  apply linear_execute; [intros f l; apply appends_ok|]. intros l Hl.
  by rewrite max_of_consecutive by apply (po_log _ Hl).
Qed.
End linear_reads.

(** C28: an append to the PostgreSQL log is one step among what other sessions
    do, also those that had drawn a number before and commit after it: at one
    moment the commit's events are put at the end of the stream of its run and
    numbered on, and the reference names its row.  Where it raises, nothing of
    it is there, or all of it if the answer of the COMMIT was lost; in steady
    weather it raises only the ValueError for a commit without events and the
    driver's DataError for a payload that the type codec of the pool does not
    take.  The pool is made without a codec: every commit with a payload then
    raises and leaves nothing. *)
Theorem postgres_append_linearizable (codec : option (pydict → option pydict))
    (cm : ActionCommit) (p : PostgresKernelRuntimeEventLog.t)
    (Ho : others_do appends p) (Hok : pg_ok (pg_rows p)) :
  let '(o, p') := PostgresKernelRuntimeEventLog.append_action_commit codec cm p in
  pg_ok (pg_rows p') ∧
  match o with
  | Ok ref => did appends (append_step codec cm) (pg_rows p) ref (pg_rows p')
  | Raise e =>
      (drift appends (pg_rows p) (pg_rows p') ∨
       ¬ never_lost p ∧ ∃ ref, did appends (append_step codec cm) (pg_rows p) ref (pg_rows p')) ∧
      (steady p → append_refused codec cm (pg_rows p) e)
  end ∧
  (codec = PostgresKernelRuntimeEventLog.pool_codec →
   Exists (λ e, ev_payload_json e ≠ None) (cm_events cm) →
   ∃ e, o = Raise e ∧ drift appends (pg_rows p) (pg_rows p')).
Proof.
  pose proof (append_linear codec cm p Ho Hok) as H. unfold wp in H.
  assert (∀ u, drift appends (pg_rows p) u → pg_ok u) as Hd.
  { intros u Hu. eapply (others_keep appends pg_ok); [apply appends_ok|exact Hu|done]. }
  assert (∀ ref t, did appends (append_step codec cm) (pg_rows p) ref t → pg_ok t) as Hdid.
  { intros ref t (u & u' & _ & [Hu' _ _ _] & Ht).
    eapply (others_keep appends pg_ok); [apply appends_ok|exact Ht|done]. }
  assert (codec = PostgresKernelRuntimeEventLog.pool_codec →
    Exists (λ e, ev_payload_json e ≠ None) (cm_events cm) →
    ∀ ref t, ¬ did appends (append_step codec cm) (pg_rows p) ref t) as Hpool.
  { intros -> He ref t (u & u' & _ & [_ Ht _ _] & _). by apply (pool_takes_none cm). }
  destruct (PostgresKernelRuntimeEventLog.append_action_commit codec cm p) as [[ref|e] p'].
  - destruct H as [_ H]. split_and!; [by eapply Hdid|done|]. intros Hc He. by destruct (Hpool Hc He ref (pg_rows p')).
  - destruct H as (_ & _ & H & Hst). split_and!; [|exact H| |].
    + destruct H as [H|(_ & ref & H)]; [by apply Hd|by eapply Hdid].
    + intros Hs. by destruct (Hst Hs) as (u & u' & _ & [_ Hr] & _).
    + intros Hc He. exists e. split; [done|]. destruct H as [H|(_ & ref & H)]; [done|by destruct (Hpool Hc He ref (pg_rows p'))].
Qed.

(** ** A race

    Another session appends to the run before the lock is taken, and tries to
    once more while it is held.  (In SQLite the same race makes the append
    fail.)  A third one draws its number before us and commits after we have
    drawn ours. *)
Lemma committed_appends normal cm : appends (on_log (committed_rows normal cm)).
Proof.
  intros l [Hl Ho]. destruct (decide (cm_events cm = [])) as [Hc|Hc].
  { unfold on_log, committed_rows, add_commit. rewrite Hc. simpl. split; simpl; [by split|done|lia|by left|by left]. }
  assert (lt_sequence (committed_rows normal cm l) = lt_sequence l + 1)%Z as Hq.
  { unfold committed_rows, add_commit. destruct (Z.ltb_spec 0 (Z.of_nat (length (cm_events cm)))); [done|].
    destruct (cm_events cm); simpl in *; [done|lia]. }
  split; simpl.
  - split; simpl; [by apply log_ok_committed|]. intros n Hn. rewrite Hq. specialize (Ho n Hn). lia.
  - intros run. rewrite stream_committed_rows by done. by apply prefix_app_r.
  - lia.
  - by left.
  - intros r. unfold committed_rows, add_commit. destruct (_ <? _)%Z; simpl; [|by left].
    intros [Hr|Hr%rows_from_seq]%elem_of_app; [by left|right; right]. rewrite Hr. lia.
Qed.

(** A transaction of another session that draws a number and stays open, *)
Definition draw_and_wait (l : pg_tables) : pg_tables :=
  PgTables (PostgresKernelRuntimeEventLog.draw_sequence l) ({[lt_sequence l + 1]} ∪ pt_open l)%Z.

Lemma draw_and_wait_appends : appends draw_and_wait.
Proof.
  intros l [[Hn Hs] Ho]. split; simpl; [|done|lia| |by left].
  - split; [split|]; simpl; [done|..].
    + intros r Hr. specialize (Hs r Hr). lia.
    + intros n [->%elem_of_singleton|Hin]%elem_of_union; [lia|]. specialize (Ho n Hin). lia.
  - intros n [->%elem_of_singleton|Hin]%elem_of_union; [right; lia|by left].
Qed.

(** and commits under it in the end. *)
Definition commit_open (seq : Z) (cm : ActionCommit) (l : pg_tables) : pg_tables :=
  if decide (seq ∈ pt_open l) then
    PgTables
      (add_rows (rows_from SQLiteKernelRuntimeEventLog.normal (cm_run_id cm) seq (cm_events cm) 0
                   (Z.of_nat (length (stream (cm_run_id cm) l)) + 1))
         (PostgresKernelRuntimeEventLog.push_commit {| cr_commit_sequence := seq; cr_stream_run_id := cm_run_id cm;
                         cr_commit_id := cm_commit_id cm; cr_created_at := cm_created_at cm;
                         cr_event_count := Z.of_nat (length (cm_events cm)) |} l))
      (pt_open l ∖ {[seq]})
  else l.

Lemma commit_open_appends seq cm : appends (commit_open seq cm).
Proof.
  intros l [[Hn Hs] Ho]. unfold commit_open. case_decide as Hseq; [|split; [by split|done|lia|by left|by left]].
  assert (∀ run, stream run (commit_open seq cm l) = stream run l ++
    (if decide (run = cm_run_id cm)
     then renumber (Z.of_nat (length (stream run l)) + 1) (map SQLiteKernelRuntimeEventLog.normal (cm_events cm))
     else [])) as Hst.
  { intros run. unfold commit_open. rewrite decide_True by done. cbn [pt_log].
    rewrite stream_add_rows, stream_rows_from, Z.add_0_r, stream_push. case_decide; [by subst|done]. }
  unfold commit_open in Hst. rewrite decide_True in Hst by done. cbn [pt_log] in Hst.
  split; cbn [pt_log pt_open].
  - split; [split|]; cbn [pt_log pt_open].
    + intros run. rewrite Hst. apply consecutive_app. split; [done|].
      rewrite Z.add_comm. case_decide; [apply consecutive_renumber|done].
    + simpl. intros r [Hr|Hr%rows_from_seq]%elem_of_app; [by apply Hs|]. rewrite Hr. by apply Ho.
    + simpl. intros n [Hin _]%elem_of_difference. by apply Ho.
  - intros run. rewrite Hst. by apply prefix_app_r.
  - simpl. lia.
  - intros n [Hin _]%elem_of_difference. by left.
  - simpl. intros r [Hr|Hr%rows_from_seq]%elem_of_app; [by left|]. right. left. by rewrite Hr.
Qed.

Definition far_commit : ActionCommit :=
  {| cm_run_id := "run-2"; cm_commit_id := "c2"; cm_events := cm_events (log_commit ["far"]);
     cm_caused_by := None; cm_action := None; cm_created_at := "t" |}.

Definition pg_raced : PostgresKernelRuntimeEventLog.t :=
  Pg (PgTables empty_tables ∅)
    [PgWeather None pg_fine; PgWeather (Some (on_log other_append)) pg_fine; PgWeather (Some draw_and_wait) pg_fine;
     PgWeather (Some (on_log other_append)) pg_fine; PgWeather (Some (commit_open 2 far_commit)) pg_fine].

Lemma pg_raced_others : others_do appends pg_raced.
Proof.
  assert (appends (on_log other_append)) as H by apply committed_appends.
  pose proof draw_and_wait_appends as H1. pose proof (commit_open_appends 2 far_commit) as H2.
  unfold others_do, pg_raced. simpl pg_ahead. rewrite !Forall_cons.
  split_and!; try exact I; try exact H; try exact H1; try exact H2. by apply Forall_nil.
Qed.

Lemma pg_empty_ok : pg_ok (PgTables empty_tables ∅).
Proof. split; [apply empty_log_ok|]. by intros n ?%elem_of_empty. Qed.

Definition offsets_of (run_id : string) (l : pg_tables) : list (string * Z) :=
  map (λ e, (ev_event_id e, ev_commit_offset e)) (stream run_id l).

Lemma postgres_append_linearizable_witness :
  let '(o, p') := PostgresKernelRuntimeEventLog.append_action_commit (Some Some) (log_commit ["a"; "b"]) pg_raced in
  o = Ok "commit-ref-3" ∧
  did appends (append_step (Some Some) (log_commit ["a"; "b"])) (PgTables empty_tables ∅) "commit-ref-3" (pg_rows p') ∧
  offsets_of "run-1" (pg_rows p') = [("other", 1%Z); ("a", 2%Z); ("b", 3%Z)] ∧
  offsets_of "run-2" (pg_rows p') = [("far", 1%Z)] ∧
  map cr_commit_sequence (lt_commits (pg_rows p')) = [1; 2; 3]%Z.
Proof.
  pose proof (postgres_append_linearizable (Some Some) (log_commit ["a"; "b"]) pg_raced
    pg_raced_others pg_empty_ok) as H.
  assert (match PostgresKernelRuntimeEventLog.append_action_commit (Some Some) (log_commit ["a"; "b"]) pg_raced with
    | (Ok ref, p') => (String.eqb ref "commit-ref-3") = true ∧
        offsets_of "run-1" (pg_rows p') = [("other", 1%Z); ("a", 2%Z); ("b", 3%Z)] ∧
        offsets_of "run-2" (pg_rows p') = [("far", 1%Z)] ∧
        map cr_commit_sequence (lt_commits (pg_rows p')) = [1; 2; 3]%Z
    | _ => False
    end) as Hc by (vm_compute; repeat split; reflexivity).
  revert H Hc. destruct (PostgresKernelRuntimeEventLog.append_action_commit _ _ _) as [[ref|e] p']; [|intros _ []].
  intros (_ & H & _) [Href Hs]. apply String.eqb_eq in Href. subst ref. split; [reflexivity|]. split; [exact H|exact Hs].
Defined.

(** With the pool as it is made, an event with a payload is refused and one
    without goes in. *)
Definition bare_commit : ActionCommit :=
  {| cm_run_id := "run-1"; cm_commit_id := "c"; cm_caused_by := None; cm_action := None; cm_created_at := "t";
     cm_events := map (λ e, PostgresKernelRuntimeEventLog.placed e 0 None) (cm_events (log_commit ["a"])) |}.

Lemma pool_refuses_payload :
  let append cm := (PostgresKernelRuntimeEventLog.append_action_commit
    PostgresKernelRuntimeEventLog.pool_codec cm (Pg (PgTables empty_tables ∅) [])).1 in
  append (log_commit ["a"]) = Raise PostgresKernelRuntimeEventLog.data_error ∧
  append bare_commit = Ok "commit-ref-1".
Proof. split; vm_compute; reflexivity. Qed.
