(* ===== verification/Heartbeat.v ===== *)
(** * Heartbeats and health ([runtime/heartbeat.py, runtime/health.py,
      runtime/drain_coordinator.py])

    The per-run liveness monitor and its watchdog, the cached self check of
    the kernel, the health probe that aggregates checks, and the counter that
    draining waits for; and what the watchdog's signal does to a run, through
    the run actor and the projection.  Times are milliseconds; a comparison of
    float seconds is read as the exact comparison of the milliseconds. *)
From S2P Require Export RunActorSafety.

Local Open Scope Z_scope.

(** ** Policy *)
Record HeartbeatPolicy := {
  state_timeout_s : odict Z;
  min_heartbeat_interval_s : Z;
  stale_check_age_s : Z
}.

Definition default_heartbeat_policy : HeartbeatPolicy :=
  {| state_timeout_s := []; min_heartbeat_interval_s := 5; stale_check_age_s := 60 |}.

Definition _MONITORED_STATES : list string :=
  ["dispatching"; "waiting_result"; "waiting_external"; "waiting_human_input"; "recovering"].

Definition _DEFAULT_STATE_TIMEOUTS : odict Z :=
  [ ("dispatching", 300); ("waiting_result", 600); ("waiting_external", 3600);
    ("waiting_human_input", 86400); ("recovering", 180) ].

Definition timeout_for (policy : HeartbeatPolicy) (lifecycle_state : string) : option Z :=
  if decide (lifecycle_state ∉ _MONITORED_STATES) then None
  else Some (default (default 600 (od_get lifecycle_state _DEFAULT_STATE_TIMEOUTS))
               (od_get lifecycle_state (state_timeout_s policy))).

(** ** The monitor *)
Record _RunHeartbeatEntry := {
  hb_run_id : string;
  hb_last_seen_ms : Z;
  hb_lifecycle_state : string;
  hb_heartbeat_count : Z
}.

Module RunHeartbeatMonitor.
Record t := { _policy : HeartbeatPolicy; _entries : odict _RunHeartbeatEntry; _timed_out : gset string }.

Definition __init__ (policy : option HeartbeatPolicy) : t :=
  {| _policy := default default_heartbeat_policy policy; _entries := []; _timed_out := ∅ |}.

Definition set_timed_out (runs : gset string) (m : t) : t :=
  {| _policy := _policy m; _entries := _entries m; _timed_out := runs |}.

(** [lifecycle_state or "ready"] for a new entry. *)
Definition touched (run_id : string) (lifecycle_state : option string) (timestamp_ms : Z)
    (entry : option _RunHeartbeatEntry) : _RunHeartbeatEntry :=
  match entry with
  | None =>
      {| hb_run_id := run_id; hb_last_seen_ms := timestamp_ms;
         hb_lifecycle_state := default "ready" (str_or lifecycle_state None);
         hb_heartbeat_count := 1 |}
  | Some e =>
      {| hb_run_id := hb_run_id e; hb_last_seen_ms := timestamp_ms;
         hb_lifecycle_state := default (hb_lifecycle_state e) lifecycle_state;
         hb_heartbeat_count := hb_heartbeat_count e + 1 |}
  end.

Definition _touch (run_id : string) (lifecycle_state : option string) (timestamp_ms : Z) (m : t) : t :=
  {| _policy := _policy m;
     _entries := od_set run_id (touched run_id lifecycle_state timestamp_ms (od_get run_id (_entries m)))
                   (_entries m);
     _timed_out := _timed_out m ∖ {[run_id]} |}.

Definition clear (run_id : string) (m : t) : t :=
  {| _policy := _policy m; _entries := od_del run_id (_entries m);
     _timed_out := _timed_out m ∖ {[run_id]} |}.

(** *** The hooks *)
Definition on_turn_state_transition (run_id : string) (timestamp_ms : Z) (m : t) : t :=
  _touch run_id None timestamp_ms m.

Definition on_run_lifecycle_transition (run_id to_state : string) (timestamp_ms : Z) (m : t) : t :=
  let m := _touch run_id (Some to_state) timestamp_ms m in
  if decide (to_state ∈ ["completed"; "aborted"]) then clear run_id m else m.

(** [on_llm_call], [on_action_dispatch] and [record_heartbeat] at time [now]. *)
Definition record_heartbeat (run_id : string) (now : Z) (m : t) : t := _touch run_id None now m.

Definition on_recovery_triggered (m : t) : t := m.

(** *** Queries *)
Definition overdue (m : t) (now : Z) (e : _RunHeartbeatEntry) : bool :=
  match timeout_for (_policy m) (hb_lifecycle_state e) with
  | None => false
  | Some timeout_s => 1000 * timeout_s <=? now - hb_last_seen_ms e
  end.

Definition is_alive (run_id : string) (now : Z) (m : t) : bool :=
  match od_get run_id (_entries m) with
  | None => true
  | Some e => negb (overdue m now e)
  end.

Definition last_seen_age_ms (run_id : string) (now : Z) (m : t) : option Z :=
  (λ e, now - hb_last_seen_ms e) <$> od_get run_id (_entries m).

(** The loop of [get_timed_out_runs]. *)
Fixpoint sweep_entries (m : t) (now : Z) (entries : odict _RunHeartbeatEntry) (runs : gset string)
    : list string * gset string :=
  match entries with
  | [] => ([], runs)
  | (run_id, e) :: entries' =>
      if bool_decide (run_id ∈ runs) then sweep_entries m now entries' runs
      else if overdue m now e then
        let '(out, runs') := sweep_entries m now entries' ({[run_id]} ∪ runs) in
        (run_id :: out, runs')
      else sweep_entries m now entries' runs
  end.

Definition get_timed_out_runs (now : Z) (m : t) : list string * t :=
  let '(out, runs) := sweep_entries m now (_entries m) (_timed_out m) in
  (out, set_timed_out runs m).

(** A delivery that failed: the run is due again. *)
Definition retry_delivery (run_id : string) (m : t) : t :=
  set_timed_out (_timed_out m ∖ {[run_id]}) m.
End RunHeartbeatMonitor.

(** ** The watchdog *)

(** [kernel/contracts.py]. *)
Record SignalRunRequest := {
  sr_run_id : string;
  sr_signal_type : string;
  sr_signal_payload : option pydict;
  sr_caused_by : option string
}.

(** [round(ms / 1000.0, 1)]: the double nearest to the decimal that is nearest
    to the quotient's double, ties to even. *)
Definition div_half_even (n d : Z) : Z :=
  let q := n / d in
  let r := 2 * (n mod d) in
  if r <? d then q else if d <? r then q + 1 else if Z.even q then q else q + 1.

Definition round_tenth_of_ms (ms : Z) : spec_float :=
  match float_of_decimal (ms <? 0) (Z.abs ms) (-3) with
  | S754_finite s m e =>
      let tenths := if 0 <=? e then Zpos m * 2 ^ e * 10
                    else div_half_even (Zpos m * 10) (2 ^ (- e)) in
      float_of_decimal s tenths (-1)
  | f => f
  end.

Definition heartbeat_signal (run_id : string) (age_ms : Z) : SignalRunRequest :=
  {| sr_run_id := run_id; sr_signal_type := "heartbeat_timeout";
     sr_signal_payload := Some [("silent_s", PFloat (round_tenth_of_ms age_ms))];
     sr_caused_by := Some ("heartbeat_monitor:" +:+ run_id) |}.

(** One sweep over the monitor and the gateway's environment, whose clock is
    read by [now]; a delivery that raises is retried by the next sweep. *)
Section watchdog.
Context {E : Type} (now : E → Z) (signal_workflow : string → SignalRunRequest → M E unit).
Abbreviation W := (RunHeartbeatMonitor.t * E)%type.

Definition on_gateway {A} (m : M E A) : M W A := zoom snd (λ e w, (fst w, e)) m.

Fixpoint deliver (runs : list string) : M W unit :=
  match runs with
  | [] => mret tt
  | run_id :: runs' =>
      w ← gets id;
      let age := default 0 (RunHeartbeatMonitor.last_seen_age_ms run_id (now (snd w)) (fst w)) in
      try_except (on_gateway (signal_workflow run_id (heartbeat_signal run_id age))) is_Exception
        (λ _, modify (λ w, (RunHeartbeatMonitor.retry_delivery run_id (fst w), snd w)));;
      deliver runs'
  end.

Definition watchdog_once : M W unit :=
  w ← gets id;
  let '(timed_out, m) := RunHeartbeatMonitor.get_timed_out_runs (now (snd w)) (fst w) in
  modify (λ w, (m, snd w));;
  deliver timed_out.
End watchdog.

(** ** Health *)
Inductive HealthStatus := health_ok | DEGRADED | UNHEALTHY.

#[export] Instance HealthStatus_eq_dec : EqDecision HealthStatus.
Proof. solve_decision. Defined.

Definition list_repr (l : list string) : string := py_repr (PList (map PStr l)).

(** The check the monitor registers: the runs past their timeout and already
    signalled, else those past 80% of it. *)
Definition heartbeat_health (now : Z) (m : RunHeartbeatMonitor.t) : HealthStatus * string :=
  let late run_id e timeout_s :=
    (1000 * timeout_s <=? now - hb_last_seen_ms e)
    && bool_decide (run_id ∈ RunHeartbeatMonitor._timed_out m) in
  let near e timeout_s := 800 * timeout_s <=? now - hb_last_seen_ms e in
  let pick (p : string → _RunHeartbeatEntry → Z → bool) :=
    map fst (filter (λ kv : string * _RunHeartbeatEntry,
      from_option (p (fst kv) (snd kv)) false
        (timeout_for (RunHeartbeatMonitor._policy m) (hb_lifecycle_state (snd kv))) = true)
      (RunHeartbeatMonitor._entries m)) in
  match pick late, pick (λ r e s, negb (late r e s) && near e s) with
  | (_ :: _) as l, _ => (UNHEALTHY, "Runs timed out (signal injected): " +:+ list_repr l)
  | [], (_ :: _) as l => (DEGRADED, "Runs approaching heartbeat timeout: " +:+ list_repr l)
  | [], [] => (health_ok, "All monitored runs within heartbeat policy")
  end.

(** *** The cached self check *)
Module KernelSelfHeartbeat.
Record t := {
  _stale_age_s : Z;
  event_log_status : HealthStatus * string;
  projection_status : HealthStatus * string;
  last_refresh_at_ms : Z
}.

Definition __init__ (stale_age_s : Z) : t :=
  {| _stale_age_s := stale_age_s; event_log_status := (UNHEALTHY, "not yet checked");
     projection_status := (UNHEALTHY, "not yet checked"); last_refresh_at_ms := 0 |}.

Definition _PROBE_RUN_ID : string := "__kernel_self_probe__".

(** [try: m; OK  except Exception as exc: UNHEALTHY]. *)
Definition probe {S A} (m : M S A) (responsive failed : string) : M S (HealthStatus * string) :=
  try_except (m;; mret (health_ok, responsive)) is_Exception
    (λ exc, mret (UNHEALTHY, failed +:+ exn_msg exc)).

Definition refresh {L} `{EventLogPort L} (cfg : projection_config) (ts : Z) (h : t)
    : M (projection_service L) t :=
  el ← probe (on_log (el_load _PROBE_RUN_ID 0)) "event log read path responsive"
         "event log probe failed: ";
  pr ← probe (get cfg _PROBE_RUN_ID) "projection service responsive" "projection probe failed: ";
  mret {| _stale_age_s := _stale_age_s h; event_log_status := el; projection_status := pr;
          last_refresh_at_ms := ts |}.

Definition is_stale (now : Z) (h : t) : bool :=
  (last_refresh_at_ms h =? 0) || (1000 * _stale_age_s h <? now - last_refresh_at_ms h).

(** [f"{age_s:.0f}"]. *)
Definition seconds (age_ms : Z) : string := pretty (div_half_even age_ms 1000).

Definition cached_check (what : string) (status : t → HealthStatus * string) (now : Z) (h : t)
    : HealthStatus * string :=
  if last_refresh_at_ms h =? 0 then (UNHEALTHY, "kernel self-check has not run yet")
  else if 1000 * _stale_age_s h <? now - last_refresh_at_ms h then
    (DEGRADED, what +:+ " check is stale (" +:+ seconds (now - last_refresh_at_ms h)
                 +:+ "s old); call refresh()")
  else status h.

Definition event_log_check := cached_check "event log" event_log_status.
Definition projection_check := cached_check "projection" projection_status.
End KernelSelfHeartbeat.

(** *** The probe *)
Module KernelHealthProbe.
(** A check may raise, and reads an environment [E]. *)
Record t (E : Type) := {
  component_name : string;
  _checks : odict (M E (HealthStatus * string) * bool)
}.
Arguments component_name {E}.
Arguments _checks {E}.

Definition register_check {E} (name : string) (check_fn : M E (HealthStatus * string))
    (required_for_startup : bool) (p : t E) : outcome (t E) :=
  match od_get name (_checks p) with
  | Some _ => Raise (Exn ValueError ("Health check '" +:+ name +:+ "' is already registered."))
  | None => Ok {| component_name := component_name p;
                  _checks := od_set name (check_fn, required_for_startup) (_checks p) |}
  end.

Definition _run_one {E} (check_fn : M E (HealthStatus * string)) : M E (HealthStatus * string) :=
  try_except check_fn is_Exception (λ exc, mret (UNHEALTHY, exn_msg exc)).

Fixpoint run_checks {E} (checks : odict (M E (HealthStatus * string) * bool))
    : M E (odict (HealthStatus * string)) :=
  match checks with
  | [] => mret []
  | (name, (check_fn, _)) :: checks' =>
      r ← _run_one check_fn;
      rs ← run_checks checks';
      mret ((name, r) :: rs)
  end.

(** The aggregate status and the results. *)
Definition response : Type := HealthStatus * odict (HealthStatus * string).

Definition statuses (results : odict (HealthStatus * string)) : list HealthStatus :=
  map (λ kv, fst (snd kv)) results.

Definition liveness {E} (p : t E) : M E response :=
  results ← run_checks (_checks p);
  mret (if decide (UNHEALTHY ∈ statuses results) then UNHEALTHY else health_ok, results).

Definition readiness {E} (p : t E) : M E response :=
  results ← run_checks (_checks p);
  mret (if decide (Forall (λ s, s = health_ok) (statuses results)) then health_ok
        else if decide (UNHEALTHY ∈ statuses results) then UNHEALTHY else DEGRADED, results).

Definition startup {E} (p : t E) : M E response :=
  match filter (λ kv, snd (snd kv) = true) (_checks p) with
  | [] => mret (health_ok, [])
  | required =>
      results ← run_checks required;
      mret (if decide (Forall (λ s, s = health_ok) (statuses results)) then health_ok
            else UNHEALTHY, results)
  end.
End KernelHealthProbe.

(** ** Draining: the counter, and the event that [wait] waits for. *)
Module DrainCoordinator.
Record t := { _in_flight_count : Z; _drained : bool }.

Definition __init__ : t := {| _in_flight_count := 0; _drained := true |}.

Definition enter (c : t) : t :=
  let n := _in_flight_count c + 1 in
  {| _in_flight_count := n; _drained := if 0 <? n then false else _drained c |}.

Definition exit (c : t) : t :=
  let n := Z.max (_in_flight_count c - 1) 0 in
  {| _in_flight_count := n; _drained := if n =? 0 then true else _drained c |}.
End DrainCoordinator.

(** ** The monitor over time

    A history of the monitor: hooks, clean-ups, sweeps and failed deliveries,
    each under the lock, in any order. *)
Inductive monitor_op :=
  | MTouch (run_id : string) (lifecycle_state : option string) (timestamp_ms : Z)
  | MClear (run_id : string)
  | MSweep (now : Z)
  | MRetry (run_id : string).

Section monitor.
Import RunHeartbeatMonitor.
Implicit Types m : t.

Definition run_monitor_op m (op : monitor_op) : t :=
  match op with
  | MTouch r st ts => _touch r st ts m
  | MClear r => clear r m
  | MSweep now => (get_timed_out_runs now m).2
  | MRetry r => retry_delivery r m
  end.

Definition run_monitor (ops : list monitor_op) m : t := fold_left run_monitor_op ops m.

(** The operations that make a run due for a signal again. *)
Definition rearms (r : string) (op : monitor_op) : Prop :=
  match op with MTouch r' _ _ | MClear r' | MRetry r' => r' = r | MSweep _ => False end.

Lemma sweep_entries_spec m now entries runs out runs' :
  NoDup (map fst entries) → sweep_entries m now entries runs = (out, runs') →
  NoDup out ∧
  (∀ r, r ∈ out ↔ ∃ e, (r, e) ∈ entries ∧ overdue m now e = true ∧ r ∉ runs) ∧
  runs' = list_to_set out ∪ runs.
Proof.
  revert runs out runs'. induction entries as [|[k e] entries IH]; intros runs out runs' Hnd; simpl.
  { intros [= <- <-]. split_and!; [constructor| |set_solver].
    intros r. split; [by intros ?%elem_of_nil|by intros (? & ?%elem_of_nil & _)]. }
  apply NoDup_cons in Hnd as [Hk Hnd]. simpl in Hk.
  assert (∀ e', (k, e') ∉ entries) as Hke.
  { intros e' He. apply Hk. apply list_elem_of_fmap. by exists (k, e'). }
  assert (∀ r e', (r, e') ∈ (k, e) :: entries → r ≠ k → (r, e') ∈ entries) as Htail.
  { intros r e' [[= -> ->]|?]%elem_of_cons ?; done. }
  case_bool_decide as Hin; [|destruct (overdue m now e) eqn:Ho].
  - intros Hs. apply IH in Hs as (? & Hr & ->); [|done]. split_and!; [done| |done].
    intros r. rewrite Hr. split; intros (e' & He & ? & Hn); exists e'; split_and!; try done.
    + by right.
    + apply Htail; [done|]. by intros ->.
  - destruct (sweep_entries m now entries _) as [out' runs''] eqn:Hs. intros [= <- <-].
    apply IH in Hs as (Hnd' & Hr & ->); [|done]. split_and!.
    + apply NoDup_cons. split; [|done]. rewrite Hr. set_solver.
    + intros r. rewrite elem_of_cons, Hr. split.
      * intros [->|(e' & ? & ? & ?)]; [exists e|exists e']; split_and!; try done; [by left|by right|set_solver].
      * intros (e' & He & ? & ?). destruct (decide (r = k)) as [->|Hne]; [by left|]. right.
        exists e'. split_and!; [by apply Htail|done|set_solver].
    + rewrite list_to_set_cons. set_solver.
  - intros Hs. apply IH in Hs as (? & Hr & ->); [|done]. split_and!; [done| |done].
    intros r. rewrite Hr. split; intros (e' & He & ? & ?); exists e'; split_and!; try done.
    + by right.
    + apply elem_of_cons in He as [[= -> ->]|?]; [congruence|done].
Qed.

(** The entries of a monitor have distinct keys. *)
Definition monitor_wf m : Prop := NoDup (map fst (_entries m)).

Lemma monitor_wf_op m op : monitor_wf m → monitor_wf (run_monitor_op m op).
Proof.
  unfold monitor_wf. intros Hm. destruct op as [r st ts|r|now|r]; simpl; [| | |done].
  - rewrite od_set_keys. case_decide; [done|]. apply NoDup_app.
    split_and!; [done|set_solver|apply NoDup_singleton].
  - rewrite od_del_keys. by apply NoDup_filter.
  - unfold get_timed_out_runs. by destruct (sweep_entries _ _ _ _).
Qed.

Lemma monitor_wf_run ops m : monitor_wf m → monitor_wf (run_monitor ops m).
Proof.
  revert m. induction ops as [|op ops IH]; intros m Hm; [done|]. by apply IH, monitor_wf_op.
Qed.

(** What one sweep reports, and records as reported. *)
Lemma sweep_spec m now :
  monitor_wf m →
  let '(out, m') := get_timed_out_runs now m in
  NoDup out ∧ _timed_out m' = list_to_set out ∪ _timed_out m ∧
  ∀ r, r ∈ out ↔ is_alive r now m = false ∧ r ∉ _timed_out m.
Proof.
  intros Hm. unfold get_timed_out_runs.
  destruct (sweep_entries m now (_entries m) (_timed_out m)) as [out runs] eqn:Hs.
  apply sweep_entries_spec in Hs as (Hnd & Hr & ->); [|done]. split_and!; [done|done|].
  intros r. rewrite Hr. unfold is_alive. split.
  - intros (e & He & Ho & Hn). apply od_get_elem_iff in He; [|done]. by rewrite He, Ho.
  - intros [Ha Hn]. destruct (od_get r (_entries m)) as [e|] eqn:He; [|done].
    exists e. apply od_get_elem_iff in He; [|done]. split_and!; [done| |done].
    by destruct (overdue m now e).
Qed.

(** A reported run stays reported until it is re-armed. *)
Lemma reported_op r m op :
  monitor_wf m → r ∈ _timed_out m → ¬ rearms r op → r ∈ _timed_out (run_monitor_op m op).
Proof.
  intros Hm Hr Hop. destruct op as [r' st ts|r'|now|r']; simpl in *; try set_solver.
  pose proof (sweep_spec m now Hm) as Hs. destruct (get_timed_out_runs now m) as [out m'].
  simpl. destruct Hs as (_ & -> & _). set_solver.
Qed.

Lemma reported_run r ops m :
  monitor_wf m → r ∈ _timed_out m → Forall (λ op, ¬ rearms r op) ops →
  r ∈ _timed_out (run_monitor ops m).
Proof.
  intros Hm Hr Hops. revert m Hm Hr. induction Hops as [|op ops Hop _ IH]; intros m Hm Hr; [done|].
  apply IH; [by apply monitor_wf_op|by apply reported_op].
Qed.
End monitor.

(** C15: over any history of a monitor (activity, clean-ups, sweeps, failed
    deliveries), a sweep reports exactly the runs that are not alive at its
    time and have not been reported yet, each once; and a run it reports is
    not reported again, by however many sweeps, until the run shows activity,
    is cleared, or the delivery of its signal fails. *)
Theorem heartbeat_no_storm policy ops now :
  let m := run_monitor ops (RunHeartbeatMonitor.__init__ policy) in
  let '(out, m') := RunHeartbeatMonitor.get_timed_out_runs now m in
  NoDup out ∧
  (∀ r, r ∈ out ↔ RunHeartbeatMonitor.is_alive r now m = false ∧
                  r ∉ RunHeartbeatMonitor._timed_out m) ∧
  ∀ r ops' now', r ∈ out → Forall (λ op, ¬ rearms r op) ops' →
    r ∉ (RunHeartbeatMonitor.get_timed_out_runs now' (run_monitor ops' m')).1.
Proof.
  intros m. assert (monitor_wf m) as Hm by (apply monitor_wf_run; constructor).
  pose proof (sweep_spec m now Hm) as Hs. pose proof (monitor_wf_op m (MSweep now) Hm) as Hm'.
  simpl in Hm'. destruct (RunHeartbeatMonitor.get_timed_out_runs now m) as [out m'].
  destruct Hs as (Hnd & Ht & Hr). split_and!; [done|done|]. intros r ops' now' Hout Hops.
  pose proof (sweep_spec (run_monitor ops' m') now' (monitor_wf_run ops' m' Hm')) as Hs'.
  destruct (RunHeartbeatMonitor.get_timed_out_runs now' _) as [out' m2]. destruct Hs' as (_ & _ & Hr').
  rewrite Hr'. intros [_ Hn]. apply Hn. apply reported_run; [done| |done]. rewrite Ht. set_solver.
Qed.

(** ** What the watchdog's signal does to its run *)

(** [signal_workflow] of both gateways ([substrate/local/adaptor.py],
    [substrate/temporal/gateway.py]). *)
Definition actor_signal_of_request (r : SignalRunRequest) : ActorSignal :=
  {| as_signal_type := sr_signal_type r; as_signal_payload := sr_signal_payload r;
     as_caused_by := sr_caused_by r; as_signal_token := None; as_from_peer_run_id := None |}.

Definition heartbeat_actor_signal (run_id : string) (age_ms : Z) : ActorSignal :=
  actor_signal_of_request (heartbeat_signal run_id age_ms).

Lemma heartbeat_event p e :
  ev_event_type e = _signal_event_type "heartbeat_timeout" →
  pj_lifecycle_state p ∉ [completed; aborted] →
  _resolve_projection_transition p e = ((ready, false, true, None), pj_recovery_reason p).
Proof.
  intros He Hp. unfold _resolve_projection_transition, _is_lower_priority_operational_conflict.
  rewrite He. change (_event_operational_priority _) with (@None operational_class).
  rewrite (bool_decide_false (pj_lifecycle_state p = completed)) by set_solver.
  rewrite (bool_decide_false (pj_lifecycle_state p = aborted ∧ _)) by set_solver.
  by destruct (_projection_operational_priority p).
Qed.

Lemma heartbeat_token run_id age_ms :
  signal_token (heartbeat_actor_signal run_id age_ms) =
  Some ("heartbeat_timeout:heartbeat_monitor:" +:+ run_id).
Proof. done. Qed.

(** What the watchdog's signal does.  Its event makes a run that has not
    ended ready for dispatch, whatever state it is stuck in, and takes it out
    of waiting and of recovery; and once a run actor has taken one such
    signal, every later one for the same run, after however long a silence,
    changes nothing at all. *)
Theorem heartbeat_timeout_effect {L D S E} `{EventLogLaws L} `{DecisionDeduperPort D}
    `{DedupeStorePort S} (deps : RunActorDependencyBundle L D S E) run age1 age2 p e
    (a a1 : actor L D S E) :
  el_ok (actor_log a) → identity (ac_locals a) = Some run →
  signal deps (heartbeat_actor_signal run age1) a = (Ok tt, a1) →
  ev_event_type e = _signal_event_type (as_signal_type (heartbeat_actor_signal run age1)) →
  pj_lifecycle_state p ∉ [completed; aborted] →
  (let p' := _apply_projection_event p e in
   pj_lifecycle_state p' = ready ∧ pj_ready_for_dispatch p' = true ∧
   pj_waiting_external p' = false ∧ pj_recovery_mode p' = None) ∧
  signal deps (heartbeat_actor_signal run age2) a1 = (Ok tt, a1).
Proof.
  intros Hok Hid Hsig He Hp. split.
  { unfold _apply_projection_event. by rewrite (heartbeat_event p e He Hp). }
  assert (∀ i b, peer_rejected (ac_locals b) i || already_seen (ac_locals b) i = true →
    identity (ac_locals b) = Some run → signal deps i b = (Ok tt, b)) as Hskip.
  { intros i [sv d l] Hpre Hi. unfold signal, _handle_signal, mbind, M_bind, on_locals, zoom, gets.
    simpl in *. rewrite Hi. simpl. by rewrite Hi, Hpre. }
  destruct (already_seen (ac_locals a) (heartbeat_actor_signal run age1)) eqn:Hseen.
  - rewrite Hskip in Hsig by (try done; by rewrite Hseen). injection Hsig as <-.
    apply Hskip; [|done]. by unfold already_seen in *; rewrite heartbeat_token in *.
  - pose proof (handle_signal_spec deps run (heartbeat_actor_signal run age1) a Hok Hid eq_refl Hseen) as Hw.
    assert (_handle_signal deps (heartbeat_actor_signal run age1) a = (Ok tt, a1)) as Hh.
    { rewrite <- Hsig. destruct a as [sv d l]. unfold signal, mbind, M_bind, on_locals, zoom, gets.
      simpl in *. by rewrite Hid. }
    unfold wp in Hw. rewrite Hh in Hw. destruct Hw as [_ Hrun _ (cs & _ & [(_ & Hf & _)|(c & _ & _ & Ht)]) _]; [done|].
    apply Hskip.
    + unfold already_seen, with_token in *. rewrite heartbeat_token in *. rewrite Ht.
      simpl. apply bool_decide_eq_true. set_solver.
    + unfold identity in *. by rewrite Hrun.
Qed.

(** A stuck run in recovery, and two signals an hour apart. *)
Lemma heartbeat_timeout_effect_witness :
  let p := {| pj_run_id := "run-1"; pj_lifecycle_state := recovering; pj_projected_offset := 7;
              pj_waiting_external := false; pj_ready_for_dispatch := false;
              pj_current_action_id := None; pj_recovery_mode := Some "static_compensation";
              pj_recovery_reason := None; pj_active_child_runs := []; pj_policy_versions := None;
              pj_task_contract_ref := None |} in
  let e := actor_event "run-1" "e" "signal.heartbeat_timeout" 8 true "wake_actor" None None "t" in
  let a1 := (signal example_deps (heartbeat_actor_signal "run-1" 200000) example_start).2 in
  pj_lifecycle_state (_apply_projection_event p e) = ready ∧
  signal example_deps (heartbeat_actor_signal "run-1" 3800000) a1 = (Ok tt, a1).
Proof.
  intros p e a1.
  assert (signal example_deps (heartbeat_actor_signal "run-1" 200000) example_start = (Ok tt, a1)) as Hs.
  { assert ((signal example_deps (heartbeat_actor_signal "run-1" 200000) example_start).1 = Ok tt)
      as Ho by (vm_compute; reflexivity).
    unfold a1. destruct (signal _ _ example_start) as [o a']. simpl in Ho. rewrite Ho. reflexivity. }
  assert (pj_lifecycle_state p ∉ [completed; aborted]) as Hp.
  { intros Hin. apply elem_of_cons in Hin as [Hin|Hin]; [discriminate Hin|].
    apply elem_of_cons in Hin as [Hin|Hin]; [discriminate Hin|]. by apply elem_of_nil in Hin. }
  assert (el_ok (actor_log example_start)) as Hok by exact InMemoryKernelRuntimeEventLog.wf_init.
  destruct (heartbeat_timeout_effect example_deps "run-1" 200000 3800000 p e example_start a1
              Hok eq_refl Hs eq_refl Hp) as [[Hst _] H2].
  split; [exact Hst|exact H2].
Defined.

(** ** Health and draining *)
Section probe.
Import KernelHealthProbe.
Context {E : Type}.
Implicit Types (p : KernelHealthProbe.t E) (env : E).

(** The checks run once each, in order, and a raising check counts as
    unhealthy: only a cancellation ends a probe without a response. *)
Lemma readiness_implies_liveness p env r env' :
  readiness p env = (Ok r, env') → liveness p env = (Ok
    (if decide (UNHEALTHY ∈ statuses (snd r)) then UNHEALTHY else health_ok, snd r), env') ∧
  (fst r = health_ok ↔ Forall (λ s, s = health_ok) (statuses (snd r))).
Proof.
  unfold readiness, liveness, mbind, M_bind.
  destruct (run_checks (_checks p) env) as [[rs|e] env1]; [|done]. intros [= <- <-]. split; [done|].
  simpl. repeat case_decide; done.
Qed.
End probe.

Inductive drain_op := DrainEnter | DrainExit.

Definition run_drain (ops : list drain_op) : DrainCoordinator.t :=
  fold_left (λ c op, match op with DrainEnter => DrainCoordinator.enter c
                                 | DrainExit => DrainCoordinator.exit c end)
    ops DrainCoordinator.__init__.

(** The event is set exactly when nothing is in flight. *)
Lemma drained_iff ops :
  0 ≤ DrainCoordinator._in_flight_count (run_drain ops) ∧
  DrainCoordinator._drained (run_drain ops) =
    bool_decide (DrainCoordinator._in_flight_count (run_drain ops) = 0).
Proof.
  unfold run_drain. assert (∀ c, 0 ≤ DrainCoordinator._in_flight_count c →
    DrainCoordinator._drained c = bool_decide (DrainCoordinator._in_flight_count c = 0) →
    let c' := fold_left (λ c op, match op with DrainEnter => DrainCoordinator.enter c
                                 | DrainExit => DrainCoordinator.exit c end) ops c in
    0 ≤ DrainCoordinator._in_flight_count c' ∧
    DrainCoordinator._drained c' = bool_decide (DrainCoordinator._in_flight_count c' = 0)) as H.
  { induction ops as [|op ops IH]; intros c Hc Hd; [done|]. apply IH; destruct op; simpl.
    - lia.
    - lia.
    - destruct (0 <? _) eqn:Hlt; [by rewrite bool_decide_false by lia|lia].
    - destruct (_ =? 0) eqn:Heq; [by rewrite bool_decide_true by lia|].
      rewrite Hd, !bool_decide_false by lia. done. }
  by apply H.
Qed.
