(* ===== verification/FacadeAdapters.v ===== *)
(** * The adapters around the facade ([adapters/agent_core/context_adapter.py],
      [adapters/agent_core/checkpoint_adapter.py],
      [adapters/facade/workflow_gateway_adapter.py])

    Context bindings, checkpoint views and resume requests, and the proxy that
    gives every gateway the one signal method the facade calls. *)
From S2P Require Export Heartbeat.
From S2P Require Import Sha256.
From Stdlib Require Import Ascii.

(** ** The gateway's signal methods *)

(** The two names a gateway may offer; calling one says whether the result was
    awaitable, and has awaited it when it was. *)
Record signal_api (W : Type) := {
  ga_signal_workflow : option (string → SignalRunRequest → M W bool);
  ga_signal_run : option (SignalRunRequest → M W bool)
}.
Arguments ga_signal_workflow {W}.
Arguments ga_signal_run {W}.

Definition no_signal_method : exn :=
  Exn RuntimeError
    "workflow_gateway must provide signal_workflow(run_id, request) or signal_run(request).".

Definition signal_workflow {W} (gateway : signal_api W) (run_id : string)
    (request : SignalRunRequest) : M W unit :=
  awaited ←
    match ga_signal_workflow gateway with
    | Some f => f run_id request
    | None => mret false
    end;
  if (awaited : bool) then mret tt
  else
    match ga_signal_run gateway with
    | Some f => f request;; mret tt
    | None => raise no_signal_method
    end.

(** ** Context bindings *)
Record AgentCoreContextInput := {
  xi_session_id : option string;
  xi_context_ref : option string;
  xi_context_json : option pydict
}.

Record RuntimeContextBinding := {
  xb_binding_ref : string;
  xb_hot_context_ref : option string;
  xb_warm_context_ref : option string;
  xb_content_hash : option string;
  xb_workspace_rules_md_ref : option string;
  xb_workspace_summary_md_ref : option string
}.

Record AgentCoreContextExport := {
  xe_run_id : string;
  xe_context_ref : string;
  xe_summary_ref : option string
}.

Module AgentCoreContextAdapter.
Record t := {
  _binding_by_run : gmap string string;
  _context_by_binding : gmap string string
}.

Definition __init__ : t := {| _binding_by_run := ∅; _context_by_binding := ∅ |}.

Definition _build_context_content_hash (i : AgentCoreContextInput) : string :=
  sha256_hex (utf8_encode (json_dumps true (PDict
    [ ("session_id", opt_str (xi_session_id i));
      ("context_ref", opt_str (xi_context_ref i));
      ("context_json", PDict (default [] (xi_context_json i))) ]))).

(** [f"ctx:{session_id}"]: a session that is [None] is printed as such. *)
Definition session_text (session_id : option string) : string := default "None" session_id.

Definition bind_context (i : AgentCoreContextInput) (a : t) : RuntimeContextBinding * t :=
  let binding_ref := "ctx:" +:+ session_text (xi_session_id i) in
  ({| xb_binding_ref := binding_ref;
      xb_hot_context_ref := xi_context_ref i;
      xb_warm_context_ref := xi_context_ref i;
      xb_content_hash := Some (_build_context_content_hash i);
      xb_workspace_rules_md_ref := Some ("ctx-rules:" +:+ session_text (xi_session_id i));
      xb_workspace_summary_md_ref := Some ("ctx-summary:" +:+ session_text (xi_session_id i)) |},
   {| _binding_by_run := _binding_by_run a;
      _context_by_binding :=
        match xi_context_ref i with
        | Some context_ref => <[binding_ref := context_ref]> (_context_by_binding a)
        | None => _context_by_binding a
        end |}).

Definition bind_run_context (run_id binding_ref : string) (a : t) : t :=
  {| _binding_by_run := <[run_id := binding_ref]> (_binding_by_run a);
     _context_by_binding := _context_by_binding a |}.

Definition resolve_run_context (run_id : string) (a : t) : option string :=
  _binding_by_run a !! run_id.

Definition export_context (run_id : string) (a : t) : AgentCoreContextExport :=
  let binding_ref := default "" (_binding_by_run a !! run_id) in
  {| xe_run_id := run_id;
     xe_context_ref := default ("ctx:" +:+ run_id) (_context_by_binding a !! binding_ref);
     xe_summary_ref := Some ("ctx-summary:" +:+ run_id) |}.
End AgentCoreContextAdapter.

(** ** Checkpoints *)
Record AgentCoreCheckpointView := {
  kv_run_id : string;
  kv_snapshot_id : option string;
  kv_projected_offset : Z;
  kv_lifecycle_state : RunLifecycleState
}.

Record AgentCoreResumeInput := { ki_run_id : string; ki_snapshot_id : option string }.

Record KernelResumeRequest := {
  kr_run_id : string;
  kr_snapshot_id : option string;
  kr_snapshot_offset : option Z
}.

Module AgentCoreCheckpointAdapter.
Definition t := gmap string RunProjection.

Definition __init__ : t := ∅.

Definition bind_projection (projection : RunProjection) (a : t) : t :=
  <[pj_run_id projection := projection]> a.

Definition snapshot_id_of (run_id : string) (offset : Z) : string :=
  "snapshot:" +:+ run_id +:+ ":" +:+ pretty offset.

Definition export_checkpoint_view (run_id : string) (a : t) : AgentCoreCheckpointView :=
  match a !! run_id with
  | None =>
      {| kv_run_id := run_id; kv_snapshot_id := None; kv_projected_offset := 0;
         kv_lifecycle_state := created |}
  | Some projection =>
      {| kv_run_id := run_id;
         kv_snapshot_id := Some (snapshot_id_of run_id (pj_projected_offset projection));
         kv_projected_offset := pj_projected_offset projection;
         kv_lifecycle_state := pj_lifecycle_state projection |}
  end.

(** [s.rpartition(":")]: the text before and after the last colon, or [None]
    without one. *)
Fixpoint rpartition_colon (s : string) : option (string * string) :=
  match s with
  | "" => None
  | String c s' =>
      match rpartition_colon s' with
      | Some (before, behind) => Some (String c before, behind)
      | None => if decide (c = ":"%char) then Some ("", s') else None
      end
  end.

(** [str.isdigit]: the decimal digits and the superscripts one, two, three. *)
Definition py_isdigit_char (c : ascii) : bool :=
  let n := N_of_ascii c in
  ((48 <=? n) && (n <=? 57) || (n =? 178) || (n =? 179) || (n =? 185))%N.
Fixpoint all_chars (p : ascii → bool) (s : string) : bool :=
  match s with "" => true | String c s' => p c && all_chars p s' end.
Definition py_isdigit (s : string) : bool :=
  negb (bool_decide (s = "")) && all_chars py_isdigit_char s.

Definition decimal_value (c : ascii) : option Z :=
  let n := Z.of_N (N_of_ascii c) in
  if ((48 <=? n) && (n <=? 57))%Z then Some (n - 48)%Z else None.

(** [int(s)] on a text of digits: a superscript is no decimal digit, and
    CPython reads at most 4300 digits. *)
Fixpoint read_digits (s : string) (acc : Z) : option Z :=
  match s with
  | "" => Some acc
  | String c s' => d ← decimal_value c; read_digits s' (10 * acc + d)%Z
  end.
Definition int_max_str_digits : nat := Z.to_nat 4300.
Definition py_int_of_digits (s : string) : outcome Z :=
  if int_max_str_digits <? String.length s
  then Raise (Exn ValueError "Exceeds the limit (4300 digits) for integer string conversion")
  else match read_digits s 0 with
       | Some z => Ok z
       | None => Raise (Exn ValueError ("invalid literal for int() with base 10: " +:+ str_repr s))
       end.

Definition invalid_format : exn :=
  Exn ValueError "Invalid snapshot_id format. Expected 'snapshot:<run_id>:<offset>'.".

Definition parse_snapshot_id (snapshot_id : string) : outcome (string * Z) :=
  if negb (py_startswith snapshot_id "snapshot:") then Raise invalid_format
  else
    match rpartition_colon (string_drop (String.length "snapshot:") snapshot_id) with
    | None => Raise invalid_format
    | Some (run_id, offset_value) =>
        if decide (run_id = "")
        then Raise (Exn ValueError "Invalid snapshot_id: run_id must be non-empty.")
        else if negb (py_isdigit offset_value)
        then Raise (Exn ValueError
               "Invalid snapshot_id: offset must be a non-negative integer.")
        else offset ← py_int_of_digits offset_value; Ok (run_id, offset)
    end.

Definition import_resume_request (i : AgentCoreResumeInput) : outcome KernelResumeRequest :=
  snapshot_offset ←
    match ki_snapshot_id i with
    | None => Ok None
    | Some snapshot_id =>
        '(parsed_run_id, parsed_offset) ← parse_snapshot_id snapshot_id;
        if decide (parsed_run_id ≠ ki_run_id i)
        then Raise (Exn ValueError "snapshot_id run_id does not match resume request run_id.")
        else Ok (Some parsed_offset)
    end;
  Ok {| kr_run_id := ki_run_id i; kr_snapshot_id := ki_snapshot_id i;
        kr_snapshot_offset := snapshot_offset |}.
End AgentCoreCheckpointAdapter.

Import AgentCoreCheckpointAdapter.

(** ** The text of a number *)
Lemma decimal_value_char x :
  (x < 10)%N → decimal_value (pretty_N_char x) = Some (Z.of_N x).
Proof.
  intros Hx. assert (x = 0 ∨ x = 1 ∨ x = 2 ∨ x = 3 ∨ x = 4 ∨ x = 5 ∨ x = 6 ∨ x = 7 ∨ x = 8
    ∨ x = 9)%N as H by lia. by repeat (destruct H as [->|H]; [done|]); subst.
Qed.

Lemma read_digits_go x s : read_digits (pretty_N_go x s) 0 = read_digits s (Z.of_N x).
Proof.
  revert x s. apply pretty_N_go_ind; [done|]. intros x s Hx IH.
  rewrite pretty_N_go_step by done. rewrite IH. simpl.
  rewrite decimal_value_char by (apply N.mod_lt; lia). simpl. f_equal.
  rewrite N2Z.inj_div, N2Z.inj_mod. pose proof (Z.div_mod (Z.of_N x) 10 ltac:(lia)). lia.
Qed.

Lemma all_digits_go p x s :
  (∀ n, (n < 10)%N → p (pretty_N_char n) = true) →
  all_chars p (pretty_N_go x s) = all_chars p s.
Proof.
  intros Hp. revert x s. apply pretty_N_go_ind; [done|]. intros x s Hx IH.
  rewrite pretty_N_go_step by done. rewrite IH. simpl. rewrite Hp; [done|]. apply N.mod_lt. lia.
Qed.

(** Two facts about every digit character, by cases. *)
Lemma digit_chars (p : ascii → bool) :
  forallb p (map pretty_N_char [0; 1; 2; 3; 4; 5; 6; 7; 8; 9]%N) = true →
  ∀ n, (n < 10)%N → p (pretty_N_char n) = true.
Proof.
  intros H n Hn. eapply forallb_forall; [exact H|]. apply in_map.
  assert (n = 0 ∨ n = 1 ∨ n = 2 ∨ n = 3 ∨ n = 4 ∨ n = 5 ∨ n = 6 ∨ n = 7 ∨ n = 8 ∨ n = 9)%N as Hc
    by lia. simpl. intuition.
Qed.

Lemma read_pretty n : (0 ≤ n)%Z → read_digits (pretty n) 0 = Some n.
Proof.
  intros Hn. rewrite pretty_nonneg by done. case_decide as H0; [by subst|].
  rewrite read_digits_go. simpl. f_equal. lia.
Qed.

Lemma all_digits_pretty p n :
  forallb p (map pretty_N_char [0; 1; 2; 3; 4; 5; 6; 7; 8; 9]%N) = true → (0 ≤ n)%Z →
  all_chars p (pretty n) = true.
Proof.
  intros Hp Hn. rewrite pretty_nonneg by done. case_decide.
  - simpl in Hp |- *. by destruct (p "0"%char).
  - rewrite all_digits_go; [done|]. by apply digit_chars.
Qed.

Lemma isdigit_pretty n : (0 ≤ n)%Z → py_isdigit (pretty n) = true.
Proof.
  intros Hn. unfold py_isdigit. rewrite all_digits_pretty by done. rewrite bool_decide_eq_false_2; [done|].
  intros Hp. pose proof (read_pretty n Hn) as Hr. rewrite Hp in Hr. simpl in Hr.
  assert (n = 0)%Z as -> by congruence. done.
Qed.

Lemma rpartition_colon_none t :
  all_chars (λ c, bool_decide (c ≠ ":"%char)) t = true → rpartition_colon t = None.
Proof.
  induction t as [|c t IH]; simpl; [done|].
  intros [Hc%bool_decide_eq_true Ht]%andb_prop. rewrite IH by done. by rewrite decide_False.
Qed.

Lemma rpartition_colon_app r t :
  all_chars (λ c, bool_decide (c ≠ ":"%char)) t = true →
  rpartition_colon (r +:+ ":" +:+ t) = Some (r, t).
Proof.
  intros Ht. induction r as [|c r IH].
  - simpl. by rewrite rpartition_colon_none.
  - simpl. simpl in IH. by rewrite IH.
Qed.

(** What the adapter prints it reads back. *)
Lemma parse_snapshot_id_of run_id offset :
  run_id ≠ "" → (0 ≤ offset)%Z → String.length (pretty offset) ≤ int_max_str_digits →
  parse_snapshot_id (snapshot_id_of run_id offset) = Ok (run_id, offset).
Proof.
  intros Hr Ho Hl. unfold parse_snapshot_id, snapshot_id_of.
  change (py_startswith ("snapshot:" +:+ run_id +:+ ":" +:+ pretty offset) "snapshot:")
    with (String.prefix "" (run_id +:+ ":" +:+ pretty offset)).
  replace (String.prefix "" (run_id +:+ ":" +:+ pretty offset)) with true by (by destruct run_id).
  change (string_drop (String.length "snapshot:") ("snapshot:" +:+ run_id +:+ ":" +:+ pretty offset))
    with (run_id +:+ ":" +:+ pretty offset).
  rewrite rpartition_colon_app by (by apply all_digits_pretty). rewrite decide_False by done.
  rewrite isdigit_pretty by done. unfold py_int_of_digits.
  destruct (Nat.ltb_spec int_max_str_digits (String.length (pretty offset))); [lia|].
  by rewrite read_pretty.
Qed.

(** ** The theorem *)

(** A checkpoint exported for a run, given back in a resume request, is
    read as that run and that offset, whatever colons the run id holds; in a
    request for another run it is rejected. *)
Theorem checkpoint_round_trip (a : AgentCoreCheckpointAdapter.t) (p : RunProjection)
    (Hrun : pj_run_id p ≠ "") (Hoff : (0 ≤ pj_projected_offset p)%Z)
    (Hlen : String.length (pretty (pj_projected_offset p)) ≤ int_max_str_digits) :
  let v := export_checkpoint_view (pj_run_id p) (bind_projection p a) in
  kv_lifecycle_state v = pj_lifecycle_state p ∧ kv_projected_offset v = pj_projected_offset p ∧
  ∀ run_id,
    import_resume_request {| ki_run_id := run_id; ki_snapshot_id := kv_snapshot_id v |} =
    if decide (run_id = pj_run_id p)
    then Ok {| kr_run_id := run_id; kr_snapshot_id := kv_snapshot_id v;
               kr_snapshot_offset := Some (pj_projected_offset p) |}
    else Raise (Exn ValueError "snapshot_id run_id does not match resume request run_id.").
Proof.
  unfold export_checkpoint_view, bind_projection, t. rewrite lookup_insert_eq. cbn zeta. simpl.
  split; [done|]. split; [done|]. intros run_id. unfold import_resume_request. simpl.
  rewrite parse_snapshot_id_of by done. simpl. repeat case_decide; naive_solver.
Qed.

(** A checkpoint of a child run, whose id holds colons. *)
Lemma checkpoint_round_trip_witness :
  let p := {| pj_run_id := "run:1:child"; pj_lifecycle_state := waiting_external;
              pj_projected_offset := 120; pj_waiting_external := true;
              pj_ready_for_dispatch := false; pj_current_action_id := None;
              pj_recovery_mode := None; pj_recovery_reason := None; pj_active_child_runs := [];
              pj_policy_versions := None; pj_task_contract_ref := None |} in
  let v := export_checkpoint_view (pj_run_id p) (bind_projection p __init__) in
  kv_snapshot_id v = Some "snapshot:run:1:child:120" ∧
  import_resume_request {| ki_run_id := "run:1:child"; ki_snapshot_id := kv_snapshot_id v |} =
    Ok {| kr_run_id := "run:1:child"; kr_snapshot_id := kv_snapshot_id v;
          kr_snapshot_offset := Some 120%Z |}.
Proof.
  intros p v. split; [reflexivity|].
  destruct (checkpoint_round_trip __init__ p) as (_ & _ & H); [done|simpl; lia| |].
  - assert (length_ok : (String.length (pretty 120%Z) <=? int_max_str_digits) = true)
      by (vm_compute; reflexivity). by apply Nat.leb_le.
  - exact (H "run:1:child").
Defined.
