(* ===== verification/Facade.v ===== *)
(** * The kernel facade ([adapters/facade/kernel_facade.py])

    The platform's only entry point: it forwards requests to the workflow
    gateway and keeps, per run, the branches, stages and human gates that the
    platform opened.  These registries live in the instance; each change is
    also appended to the event log as a [trace.*] event, from which another
    instance merges it.  The gateway is a parameter. *)
From S2P Require Export FacadeAdapters TaskRegistry.
From Stdlib Require Import SpecFloat Ascii.

(** ** Data ([kernel/contracts.py]) *)
Record StartRunRequest := {
  st_initiator : string;
  st_run_kind : string;
  st_session_id : option string;
  st_input_ref : option string;
  st_input_json : option pydict;
  st_context_ref : option string;
  st_parent_run_id : option string;
  st_trace_context : option string;
  st_task_contract_ref : option string;
  st_initial_stage_id : option string;
  st_route_policy_version : option string;
  st_skill_policy_version : option string;
  st_evaluation_policy_version : option string;
  st_task_view_policy_version : option string
}.

Record StartRunResponse := {
  so_run_id : string;
  so_temporal_workflow_id : string;
  so_lifecycle_state : string
}.

Record CancelRunRequest := {
  cn_run_id : string; cn_reason : string; cn_caused_by : option string
}.

Record ResumeRunRequest := {
  rs_run_id : string; rs_snapshot_id : option string; rs_caused_by : option string
}.

Record SpawnChildRunRequest := {
  sc_parent_run_id : string;
  sc_child_kind : string;
  sc_input_ref : option string;
  sc_input_json : option pydict;
  sc_context_ref : option string;
  sc_task_id : option string;
  sc_inherit_policy_versions : bool;
  sc_policy_version_overrides : option (odict string);
  sc_notify_parent_on_complete : bool
}.

Record QueryRunResponse := {
  qr_run_id : string;
  qr_lifecycle_state : RunLifecycleState;
  qr_projected_offset : Z;
  qr_waiting_external : bool;
  qr_current_action_id : option string;
  qr_recovery_mode : option string;
  qr_recovery_reason : option string;
  qr_active_child_runs : list string;
  qr_policy_versions : option RunPolicyVersions;
  qr_active_stage_id : option string
}.

Record QueryRunDashboardResponse := {
  qd_run_id : string;
  qd_lifecycle_state : RunLifecycleState;
  qd_projected_offset : Z;
  qd_waiting_external : bool;
  qd_recovery_mode : option string;
  qd_recovery_reason : option string;
  qd_active_child_runs_count : nat;
  qd_correlation_hint : string
}.

Record TraceBranchView := {
  bv_branch_id : string;
  bv_stage_id : string;
  bv_state : string;
  bv_opened_at : string;
  bv_parent_branch_id : option string;
  bv_proposed_by : option string;
  bv_failure_code : option string
}.

Record TraceStageView := {
  gv_stage_id : string;
  gv_state : string;
  gv_entered_at : string;
  gv_exited_at : option string;
  gv_branch_id : option string;
  gv_failure_code : option string
}.

Inductive TraceFailureCode :=
  | MISSING_EVIDENCE | INVALID_CONTEXT | HARNESS_DENIED | MODEL_OUTPUT_INVALID | MODEL_REFUSAL
  | CALLBACK_TIMEOUT | NO_PROGRESS | CONTRADICTORY_EVIDENCE | UNSAFE_ACTION_BLOCKED
  | EXPLORATION_BUDGET_EXHAUSTED | EXECUTION_BUDGET_EXHAUSTED.

Definition failure_code_value (c : TraceFailureCode) : string :=
  match c with
  | MISSING_EVIDENCE => "missing_evidence"
  | INVALID_CONTEXT => "invalid_context"
  | HARNESS_DENIED => "harness_denied"
  | MODEL_OUTPUT_INVALID => "model_output_invalid"
  | MODEL_REFUSAL => "model_refusal"
  | CALLBACK_TIMEOUT => "callback_timeout"
  | NO_PROGRESS => "no_progress"
  | CONTRADICTORY_EVIDENCE => "contradictory_evidence"
  | UNSAFE_ACTION_BLOCKED => "unsafe_action_blocked"
  | EXPLORATION_BUDGET_EXHAUSTED => "exploration_budget_exhausted"
  | EXECUTION_BUDGET_EXHAUSTED => "execution_budget_exhausted"
  end.

Record OpenBranchRequest := {
  ob_run_id : string;
  ob_branch_id : string;
  ob_stage_id : string;
  ob_parent_branch_id : option string;
  ob_proposed_by : option string
}.

Record BranchStateUpdateRequest := {
  bu_run_id : string;
  bu_branch_id : string;
  bu_new_state : string;
  bu_failure_code : option TraceFailureCode;
  bu_reason : option string
}.

Record HumanGateRequest := {
  hg_gate_ref : string;
  hg_gate_type : string;
  hg_run_id : string;
  hg_trigger_reason : string;
  hg_trigger_source : string;
  hg_stage_id : option string;
  hg_branch_id : option string;
  hg_artifact_ref : option string;
  hg_caused_by : option string
}.

Record ApprovalRequest := {
  ap_run_id : string;
  ap_approval_ref : string;
  ap_approved : bool;
  ap_reviewer_id : string;
  ap_reason : option string;
  ap_caused_by : option string
}.

Inductive TraceReviewState := not_required | requested | in_review | approved | rejected.

#[export] Instance TraceReviewState_eq_dec : EqDecision TraceReviewState.
Proof. solve_decision. Defined.

Record TraceRuntimeView := {
  rv_run_id : string;
  rv_run_state : string;
  rv_wait_state : string;
  rv_review_state : TraceReviewState;
  rv_active_stage_id : option string;
  rv_branches : list TraceBranchView;
  rv_policy_versions : option RunPolicyVersions;
  rv_projected_at : option string;
  rv_stages : list TraceStageView
}.

Record HumanGateResolution := {
  hr_gate_ref : string; hr_gate_type : string; hr_resolution : string
}.

Record RunPostmortemView := {
  pm_run_id : string;
  pm_task_id : option string;
  pm_run_kind : string;
  pm_outcome : string;
  pm_stages : list TraceStageView;
  pm_branches : list TraceBranchView;
  pm_total_action_count : Z;
  pm_failure_codes : list string;
  pm_duration_ms : Z;
  pm_human_gate_resolutions : list HumanGateResolution;
  pm_policy_versions : option RunPolicyVersions;
  pm_event_count : Z;
  pm_created_at : option string;
  pm_completed_at : option string
}.

Record ChildRunSummary := {
  cc_child_run_id : string;
  cc_child_kind : string;
  cc_task_id : option string;
  cc_lifecycle_state : RunLifecycleState;
  cc_outcome : option RunLifecycleState;
  cc_created_at : option string;
  cc_completed_at : option string;
  cc_query_error : option string
}.

(** ** The state of one instance *)

(** The registries that are kept per run and purged together. *)
Record registries := Registries {
  _branch_registry : gmap string (odict TraceBranchView);
  _stage_registry : gmap string (odict TraceStageView);
  _submitted_approvals : gset (string * string);
  _open_human_gates : gmap string (gset string);
  _resolved_human_gates : gmap string (gset string);
  _gate_types : gmap string (gmap string string);
  _gate_resolutions : gmap string (gmap string string);
  _rebuild_offsets : gmap string Z
}.

Record KernelFacade := Facade {
  fc_registries : registries;
  _tracked_run_order : list string;
  _tracked_run_set : gset string;
  _run_created_at : gmap string string;
  _run_completed_at : gmap string string;
  _child_kind : gmap string string;
  _all_child_runs : gmap string (list string);
  _draining : bool
}.

Definition no_registries : registries := Registries ∅ ∅ ∅ ∅ ∅ ∅ ∅ ∅.
Definition new_facade : KernelFacade := Facade no_registries [] ∅ ∅ ∅ ∅ ∅ false.

Definition set_branches b (r : registries) : registries :=
  Registries b (_stage_registry r) (_submitted_approvals r) (_open_human_gates r)
    (_resolved_human_gates r) (_gate_types r) (_gate_resolutions r) (_rebuild_offsets r).
Definition set_stages s (r : registries) : registries :=
  Registries (_branch_registry r) s (_submitted_approvals r) (_open_human_gates r)
    (_resolved_human_gates r) (_gate_types r) (_gate_resolutions r) (_rebuild_offsets r).
Definition set_approvals a (r : registries) : registries :=
  Registries (_branch_registry r) (_stage_registry r) a (_open_human_gates r)
    (_resolved_human_gates r) (_gate_types r) (_gate_resolutions r) (_rebuild_offsets r).
Definition set_open_gates g (r : registries) : registries :=
  Registries (_branch_registry r) (_stage_registry r) (_submitted_approvals r) g
    (_resolved_human_gates r) (_gate_types r) (_gate_resolutions r) (_rebuild_offsets r).
Definition set_resolved_gates g (r : registries) : registries :=
  Registries (_branch_registry r) (_stage_registry r) (_submitted_approvals r)
    (_open_human_gates r) g (_gate_types r) (_gate_resolutions r) (_rebuild_offsets r).
Definition set_gate_types g (r : registries) : registries :=
  Registries (_branch_registry r) (_stage_registry r) (_submitted_approvals r)
    (_open_human_gates r) (_resolved_human_gates r) g (_gate_resolutions r) (_rebuild_offsets r).
Definition set_gate_resolutions g (r : registries) : registries :=
  Registries (_branch_registry r) (_stage_registry r) (_submitted_approvals r)
    (_open_human_gates r) (_resolved_human_gates r) (_gate_types r) g (_rebuild_offsets r).
Definition set_offsets o (r : registries) : registries :=
  Registries (_branch_registry r) (_stage_registry r) (_submitted_approvals r)
    (_open_human_gates r) (_resolved_human_gates r) (_gate_types r) (_gate_resolutions r) o.

Definition set_registries r (f : KernelFacade) : KernelFacade :=
  Facade r (_tracked_run_order f) (_tracked_run_set f) (_run_created_at f) (_run_completed_at f)
    (_child_kind f) (_all_child_runs f) (_draining f).
Definition set_tracked order runs (f : KernelFacade) : KernelFacade :=
  Facade (fc_registries f) order runs (_run_created_at f) (_run_completed_at f)
    (_child_kind f) (_all_child_runs f) (_draining f).
Definition set_created_at c (f : KernelFacade) : KernelFacade :=
  Facade (fc_registries f) (_tracked_run_order f) (_tracked_run_set f) c (_run_completed_at f)
    (_child_kind f) (_all_child_runs f) (_draining f).
Definition set_completed_at c (f : KernelFacade) : KernelFacade :=
  Facade (fc_registries f) (_tracked_run_order f) (_tracked_run_set f) (_run_created_at f) c
    (_child_kind f) (_all_child_runs f) (_draining f).
Definition set_child_runs kinds runs (f : KernelFacade) : KernelFacade :=
  Facade (fc_registries f) (_tracked_run_order f) (_tracked_run_set f) (_run_created_at f)
    (_run_completed_at f) kinds runs (_draining f).
Definition set_draining (draining : bool) (f : KernelFacade) : KernelFacade :=
  Facade (fc_registries f) (_tracked_run_order f) (_tracked_run_set f) (_run_created_at f)
    (_run_completed_at f) (_child_kind f) (_all_child_runs f) draining.

(** A run's part of each registry, absent or empty alike. *)
Definition run_branches (run_id : string) (r : registries) : odict TraceBranchView :=
  default [] (_branch_registry r !! run_id).
Definition run_stages (run_id : string) (r : registries) : odict TraceStageView :=
  default [] (_stage_registry r !! run_id).
Definition run_open_gates (run_id : string) (r : registries) : gset string :=
  default ∅ (_open_human_gates r !! run_id).
Definition run_resolved_gates (run_id : string) (r : registries) : gset string :=
  default ∅ (_resolved_human_gates r !! run_id).
Definition run_gate_types (run_id : string) (r : registries) : gmap string string :=
  default ∅ (_gate_types r !! run_id).
Definition run_gate_resolutions (run_id : string) (r : registries) : gmap string string :=
  default ∅ (_gate_resolutions r !! run_id).

(** ** Clean-up and bounded tracking *)
Definition _purge_run_state (run_id : string) (r : registries) : registries :=
  Registries (delete run_id (_branch_registry r)) (delete run_id (_stage_registry r))
    (filter (λ k, fst k ≠ run_id) (_submitted_approvals r))
    (delete run_id (_open_human_gates r)) (delete run_id (_resolved_human_gates r))
    (delete run_id (_gate_types r)) (delete run_id (_gate_resolutions r))
    (delete run_id (_rebuild_offsets r)).

(** [_evict_oldest_run] on a non-empty order. *)
Definition _evict_oldest_run (oldest : string) (order : list string) (f : KernelFacade)
    : KernelFacade :=
  set_registries (_purge_run_state oldest (fc_registries f))
    (set_tracked order (_tracked_run_set f ∖ {[oldest]}) f).

(** The [while] loop over the limit.  With an empty order [_evict_oldest_run]
    returns at once, and the loop would never end: [None]. *)
Fixpoint evict_while (max_tracked_runs : Z) (order : list string) (f : KernelFacade)
    : option KernelFacade :=
  if (Z.of_nat (size (_tracked_run_set f)) <=? max_tracked_runs)%Z then Some f
  else
    match order with
    | [] => None
    | oldest :: order' => evict_while max_tracked_runs order' (_evict_oldest_run oldest order' f)
    end.

Definition endless_loop : exn := Exn Unmodelled "the eviction loop does not end".

Definition _touch_run (max_tracked_runs : Z) (run_id : string) : M KernelFacade unit :=
  f ← gets id;
  if decide (run_id ∈ _tracked_run_set f) then mret tt
  else
    let order := _tracked_run_order f ++ [run_id] in
    match evict_while max_tracked_runs order
            (set_tracked order ({[run_id]} ∪ _tracked_run_set f) f) with
    | Some f' => modify (λ _, f')
    | None => raise endless_loop
    end.

(** [list.remove] takes the first occurrence; [ValueError] is suppressed. *)
Fixpoint remove_first (x : string) (l : list string) : list string :=
  match l with
  | [] => []
  | y :: l' => if decide (x = y) then l' else y :: remove_first x l'
  end.

Definition cleanup_completed_run (run_id : string) (f : KernelFacade) : KernelFacade :=
  set_registries (_purge_run_state run_id (fc_registries f))
    (set_tracked (remove_first run_id (_tracked_run_order f)) (_tracked_run_set f ∖ {[run_id]}) f).

(** ** Merging the event log *)

(** [p[k]], [p.get(k)] and [p.get(k, d)] where the value is a text; another
    type would be stored as it is, outside the declared types. *)
Definition other_type : exn := Exn Unmodelled "a field of another type".
Definition field_text (v : pyval) : outcome string :=
  match v with PStr s => Ok s | _ => Raise other_type end.
Definition field_opt (k : string) (p : pydict) : outcome (option string) :=
  match py_get k p with PStr s => Ok (Some s) | PNone => Ok None | _ => Raise other_type end.
Definition field_req (k : string) (p : pydict) : outcome string :=
  if py_in k p then field_text (py_get k p) else Raise (Exn KeyError k).
Definition field_or (k d : string) (p : pydict) : outcome string :=
  if py_in k p then field_text (py_get k p) else Ok d.

Definition opened_branch (p : pydict) (ev : RuntimeEvent) : outcome TraceBranchView :=
  branch_id ← field_req "branch_id" p;
  stage_id ← field_req "stage_id" p;
  state ← field_or "state" "active" p;
  opened_at ← field_or "opened_at" (ev_created_at ev) p;
  parent_branch_id ← field_opt "parent_branch_id" p;
  proposed_by ← field_opt "proposed_by" p;
  Ok {| bv_branch_id := branch_id; bv_stage_id := stage_id; bv_state := state;
        bv_opened_at := opened_at; bv_parent_branch_id := parent_branch_id;
        bv_proposed_by := proposed_by; bv_failure_code := None |}.

Definition opened_stage (p : pydict) (ev : RuntimeEvent) : outcome TraceStageView :=
  stage_id ← field_req "stage_id" p;
  state ← field_or "state" "active" p;
  entered_at ← field_or "entered_at" (ev_created_at ev) p;
  branch_id ← field_opt "branch_id" p;
  Ok {| gv_stage_id := stage_id; gv_state := state; gv_entered_at := entered_at;
        gv_exited_at := None; gv_branch_id := branch_id; gv_failure_code := None |}.

(** [replace(existing, ...)] on a branch and on a stage. *)
Definition move_branch (state : string) (failure_code : option string) (v : TraceBranchView)
    : TraceBranchView :=
  {| bv_branch_id := bv_branch_id v; bv_stage_id := bv_stage_id v; bv_state := state;
     bv_opened_at := bv_opened_at v; bv_parent_branch_id := bv_parent_branch_id v;
     bv_proposed_by := bv_proposed_by v; bv_failure_code := failure_code |}.
Definition move_stage (state : string) (exited_at failure_code : option string)
    (v : TraceStageView) : TraceStageView :=
  {| gv_stage_id := gv_stage_id v; gv_state := state; gv_entered_at := gv_entered_at v;
     gv_exited_at := exited_at; gv_branch_id := gv_branch_id v;
     gv_failure_code := failure_code |}.

(** [d.setdefault(run_id, {})] and then the key, only where it is missing. *)
Definition add_missing {V} (run_id k : string) (v : V) (d : gmap string (odict V))
    : gmap string (odict V) :=
  let run := default [] (d !! run_id) in
  <[run_id := match od_get k run with Some _ => run | None => od_set k v run end]> d.

(** [d.setdefault(run_id, set()).add(x)]: the set is there before [x] is read. *)
Definition ensure_run {V} `{Empty V} (run_id : string) (d : gmap string V) : gmap string V :=
  <[run_id := default ∅ (d !! run_id)]> d.
Definition add_gate (run_id x : string) (d : gmap string (gset string)) : gmap string (gset string) :=
  <[run_id := {[x]} ∪ default ∅ (d !! run_id)]> d.

(** One trace event into the registries. *)
Definition merge_event (run_id : string) (ev : RuntimeEvent) : M registries unit :=
  let p := default [] (ev_payload_json ev) in
  if decide (ev_event_type ev = "trace.branch_opened") then
    view ← lift (opened_branch p ev);
    modify (λ r, set_branches
      (add_missing run_id (bv_branch_id view) view (_branch_registry r)) r)
  else if decide (ev_event_type ev = "trace.branch_state_changed") then
    branch_id ← lift (field_req "branch_id" p);
    r ← gets id;
    match od_get branch_id (run_branches run_id r) with
    | None => mret tt
    | Some existing =>
        new_state ← lift (field_req "new_state" p);
        failure_code ← lift (field_opt "failure_code" p);
        modify (set_branches (<[run_id := od_set branch_id
          (move_branch new_state (str_or failure_code (bv_failure_code existing)) existing)
          (run_branches run_id r)]> (_branch_registry r)))
    end
  else if decide (ev_event_type ev = "trace.stage_opened") then
    view ← lift (opened_stage p ev);
    modify (λ r, set_stages (add_missing run_id (gv_stage_id view) view (_stage_registry r)) r)
  else if decide (ev_event_type ev = "trace.stage_state_changed") then
    stage_id ← lift (field_req "stage_id" p);
    r ← gets id;
    match od_get stage_id (run_stages run_id r) with
    | None => mret tt
    | Some existing =>
        new_state ← lift (field_req "new_state" p);
        exited_at ← lift (field_opt "exited_at" p);
        failure_code ← lift (field_opt "failure_code" p);
        modify (set_stages (<[run_id := od_set stage_id
          (move_stage new_state (str_or exited_at (gv_exited_at existing))
             (str_or failure_code (gv_failure_code existing)) existing)
          (run_stages run_id r)]> (_stage_registry r)))
    end
  else if decide (ev_event_type ev = "trace.human_gate_opened") then
    modify (λ r, set_open_gates (ensure_run run_id (_open_human_gates r)) r);;
    gate_ref ← lift (field_req "gate_ref" p);
    modify (λ r, set_open_gates (add_gate run_id gate_ref (_open_human_gates r)) r)
  else if decide (ev_event_type ev = "trace.human_gate_resolved") then
    modify (λ r, set_open_gates (ensure_run run_id (_open_human_gates r)) r);;
    gate_ref ← lift (field_req "gate_ref" p);
    modify (λ r, set_open_gates (add_gate run_id gate_ref (_open_human_gates r)) r);;
    modify (λ r, set_resolved_gates (add_gate run_id gate_ref (_resolved_human_gates r)) r)
  else mret tt.

Fixpoint merge_events (run_id : string) (events : list RuntimeEvent) : M registries unit :=
  match events with
  | [] => mret tt
  | ev :: events' => merge_event run_id ev;; merge_events run_id events'
  end.

Definition is_trace_event (e : RuntimeEvent) : bool := py_startswith (ev_event_type e) "trace.".

(** The merge of what [load] returned, and the offset it moves to. *)
Definition newest_offset (after : Z) (events : list RuntimeEvent) : Z :=
  fold_left Z.max (map ev_commit_offset events) after.

Definition merge_loaded (run_id : string) (after : Z) (events : list RuntimeEvent)
    : M registries unit :=
  let trace_events := filter (λ e, is_trace_event e = true) events in
  merge_events run_id trace_events;;
  modify (λ r, set_offsets (<[run_id := newest_offset after trace_events]> (_rebuild_offsets r)) r).

(** ** Timestamps

    [datetime.fromisoformat] on what [datetime.now(UTC).isoformat()] prints,
    YYYY-MM-DDTHH:MM:SS[.ffffff]+00:00, as microseconds since 1970; [None] for
    the [ValueError] of a text that is no such date.  Other forms that the
    parser accepts are not stored by the facade. *)
Definition digits_value (s : string) : option Z :=
  if AgentCoreCheckpointAdapter.all_chars
       (λ c, bool_decide (is_Some (AgentCoreCheckpointAdapter.decimal_value c))) s
  then AgentCoreCheckpointAdapter.read_digits s 0 else None.
Definition slice (from len : nat) (s : string) : string := string_take len (string_drop from s).

Definition is_leap (y : Z) : bool :=
  ((y mod 4 =? 0) && (negb (y mod 100 =? 0) || (y mod 400 =? 0)))%Z.
Definition days_in_month (y m : Z) : Z :=
  if (m =? 2)%Z then (if is_leap y then 29 else 28)%Z
  else if bool_decide (m ∈ [4; 6; 9; 11]%Z) then 30%Z else 31%Z.

(** Days from 1970-01-01 in the Gregorian calendar. *)
Definition days_from_civil (y m d : Z) : Z :=
  let y' := if (m <=? 2)%Z then (y - 1)%Z else y in
  let era := (y' / 400)%Z in
  let yoe := (y' - era * 400)%Z in
  let doy := ((153 * (m + (if (m <=? 2)%Z then 9 else -3)) + 2) / 5 + d - 1)%Z in
  let doe := (yoe * 365 + yoe / 4 - yoe / 100 + doy)%Z in
  (era * 146097 + doe - 719468)%Z.

Definition iso_fraction (s : string) : option Z :=
  if decide (s = "+00:00") then Some 0%Z
  else
    if bool_decide (String.length s = 13) && bool_decide (slice 0 1 s = ".")
       && bool_decide (slice 7 6 s = "+00:00")
    then digits_value (slice 1 6 s) else None.

Definition fromisoformat (s : string) : option Z :=
  y ← digits_value (slice 0 4 s);
  mo ← digits_value (slice 5 2 s);
  d ← digits_value (slice 8 2 s);
  h ← digits_value (slice 11 2 s);
  mi ← digits_value (slice 14 2 s);
  se ← digits_value (slice 17 2 s);
  us ← iso_fraction (string_drop 19 s);
  if bool_decide (slice 4 1 s = "-") && bool_decide (slice 7 1 s = "-")
     && bool_decide (slice 10 1 s = "T") && bool_decide (slice 13 1 s = ":")
     && bool_decide (slice 16 1 s = ":")
     && ((1 <=? y) && (1 <=? mo) && (mo <=? 12) && (1 <=? d) && (d <=? days_in_month y mo)
         && (h <=? 23) && (mi <=? 59) && (se <=? 59))%Z
  then Some ((((days_from_civil y mo d * 24 + h) * 60 + mi) * 60 + se) * 1000000 + us)%Z
  else None.

(** [int(x)] on a finite double. *)
Definition float_trunc (f : spec_float) : Z :=
  match f with
  | S754_finite s m e =>
      let a := if (0 <=? e)%Z then (Zpos m * 2 ^ e)%Z else (Zpos m / 2 ^ (- e))%Z in
      if s then (- a)%Z else a
  | _ => 0%Z
  end.

(** [max(0, int((end - start).total_seconds() * 1000))], in doubles. *)
Definition elapsed_ms (start_us end_us : Z) : Z :=
  let us := (end_us - start_us)%Z in
  let seconds := float_of_decimal (us <? 0)%Z (Z.abs us) (-6) in
  Z.max 0 (float_trunc (SFmul prec64 emax64 seconds (float_of_decimal false 1000 0))).

Definition duration_ms (created_at completed_at : option string) : Z :=
  match created_at, completed_at with
  | Some c, Some e =>
      match fromisoformat c, fromisoformat e with
      | Some start_us, Some end_us => elapsed_ms start_us end_us
      | _, _ => 0%Z
      end
  | _, _ => 0%Z
  end.

(** ** The facade over its collaborators *)

(** The gateway behind the adapter: its methods run on the environment [E],
    which also answers for the clock and [uuid4]. *)
Record workflow_gateway (E : Type) := {
  gw_signal : signal_api E;
  gw_start_workflow : StartRunRequest → M E (odict string);
  gw_cancel_workflow : string → string → M E unit;
  gw_query_projection : string → M E RunProjection;
  gw_start_child_workflow : string → SpawnChildRunRequest → M E (odict string);
  gw_stream_run_events : string → M E (list RuntimeEvent);
  gw_execute_turn : string → Action → string → M E TurnResult;
  gw_utc_now : E → string * E;
  gw_uuid4 : E → string * E
}.
Arguments gw_signal {E}.
Arguments gw_start_workflow {E}.
Arguments gw_cancel_workflow {E}.
Arguments gw_query_projection {E}.
Arguments gw_start_child_workflow {E}.
Arguments gw_stream_run_events {E}.
Arguments gw_execute_turn {E}.
Arguments gw_utc_now {E}.
Arguments gw_uuid4 {E}.

(** The instance with its optional collaborators. *)
Record facade_world (L S E : Type) := FacadeWorld {
  fw_facade : KernelFacade;
  fw_event_log : option L;
  fw_dedupe_store : option S;
  fw_context_adapter : option AgentCoreContextAdapter.t;
  fw_checkpoint_adapter : option AgentCoreCheckpointAdapter.t;
  fw_drain_coordinator : option DrainCoordinator.t;
  fw_task_registry : option TaskRegistry.t;
  fw_env : E
}.
Arguments FacadeWorld {L S E}.
Arguments fw_facade {L S E}.
Arguments fw_event_log {L S E}.
Arguments fw_dedupe_store {L S E}.
Arguments fw_context_adapter {L S E}.
Arguments fw_checkpoint_adapter {L S E}.
Arguments fw_drain_coordinator {L S E}.
Arguments fw_task_registry {L S E}.
Arguments fw_env {L S E}.

(** Run on an optional collaborator; [None] without it. *)
Definition when_some {S A} (m : M S A) : M (option S) (option A) :=
  λ o, match o with
       | None => (Ok None, None)
       | Some s => match m s with
                   | (Ok a, s') => (Ok (Some a), Some s')
                   | (Raise e, s') => (Raise e, Some s')
                   end
       end.

(** [str(error)]: of a [KeyError] it is the [repr] of its argument. *)
Definition exn_str (e : exn) : string :=
  if decide (exn_cls e = KeyError) then str_repr (exn_msg e) else exn_msg e.

(** [try: m  finally: fin]. *)
Definition try_finally {S A} (m : M S A) (fin : M S unit) : M S A :=
  λ s, match m s with
       | (Ok a, s') => (fin;; mret a) s'
       | (Raise e, s') => (fin;; raise e) s'
       end.

Section facade.
Context {L S E : Type} `{EventLogPort L} `{DedupeStorePort S}.
Context (gw : workflow_gateway E) (max_tracked_runs : Z).
Abbreviation W := (facade_world L S E).

Definition on_facade {A} (m : M KernelFacade A) : M W A :=
  zoom fw_facade (λ f w, FacadeWorld f (fw_event_log w) (fw_dedupe_store w) (fw_context_adapter w)
    (fw_checkpoint_adapter w) (fw_drain_coordinator w) (fw_task_registry w) (fw_env w)) m.
Definition on_registries {A} (m : M registries A) : M W A :=
  on_facade (zoom fc_registries set_registries m).
Definition on_event_log {A} (m : M L A) : M W (option A) :=
  zoom fw_event_log (λ l w, FacadeWorld (fw_facade w) l (fw_dedupe_store w) (fw_context_adapter w)
    (fw_checkpoint_adapter w) (fw_drain_coordinator w) (fw_task_registry w) (fw_env w))
    (when_some m).
Definition on_dedupe_store {A} (m : M S A) : M W (option A) :=
  zoom fw_dedupe_store (λ d w, FacadeWorld (fw_facade w) (fw_event_log w) d (fw_context_adapter w)
    (fw_checkpoint_adapter w) (fw_drain_coordinator w) (fw_task_registry w) (fw_env w))
    (when_some m).
Definition on_context {A} (m : M AgentCoreContextAdapter.t A) : M W (option A) :=
  zoom fw_context_adapter (λ c w, FacadeWorld (fw_facade w) (fw_event_log w) (fw_dedupe_store w) c
    (fw_checkpoint_adapter w) (fw_drain_coordinator w) (fw_task_registry w) (fw_env w))
    (when_some m).
Definition on_checkpoint {A} (m : M AgentCoreCheckpointAdapter.t A) : M W (option A) :=
  zoom fw_checkpoint_adapter (λ c w, FacadeWorld (fw_facade w) (fw_event_log w)
    (fw_dedupe_store w) (fw_context_adapter w) c (fw_drain_coordinator w) (fw_task_registry w)
    (fw_env w)) (when_some m).
Definition on_drain {A} (m : M DrainCoordinator.t A) : M W (option A) :=
  zoom fw_drain_coordinator (λ c w, FacadeWorld (fw_facade w) (fw_event_log w)
    (fw_dedupe_store w) (fw_context_adapter w) (fw_checkpoint_adapter w) c (fw_task_registry w)
    (fw_env w)) (when_some m).
Definition on_tasks {A} (m : M TaskRegistry.t A) : M W (option A) :=
  zoom fw_task_registry (λ c w, FacadeWorld (fw_facade w) (fw_event_log w) (fw_dedupe_store w)
    (fw_context_adapter w) (fw_checkpoint_adapter w) (fw_drain_coordinator w) c (fw_env w))
    (when_some m).
Definition on_gw {A} (m : M E A) : M W A :=
  zoom fw_env (λ e w, FacadeWorld (fw_facade w) (fw_event_log w) (fw_dedupe_store w)
    (fw_context_adapter w) (fw_checkpoint_adapter w) (fw_drain_coordinator w) (fw_task_registry w)
    e) m.

Definition utc_now : M W string := on_gw (λ e, let '(t, e') := gw_utc_now gw e in (Ok t, e')).
Definition uuid4 : M W string := on_gw (λ e, let '(u, e') := gw_uuid4 gw e in (Ok u, e')).
Definition send (run_id : string) (request : SignalRunRequest) : M W unit :=
  on_gw (signal_workflow (gw_signal gw) run_id request).
Definition touch_run (run_id : string) : M W unit :=
  on_facade (_touch_run max_tracked_runs run_id).

(** *** Trace events *)
Definition trace_event (run_id event_id event_type now : string) (payload : pydict)
    : RuntimeEvent :=
  {| ev_run_id := run_id; ev_event_id := event_id; ev_commit_offset := 0;
     ev_event_type := event_type; ev_event_class := "derived";
     ev_event_authority := derived_replayable; ev_ordering_key := now;
     ev_wake_policy := "projection_only"; ev_created_at := now; ev_idempotency_key := None;
     ev_payload_ref := None; ev_payload_json := Some payload; ev_schema_version := "1" |}.

Definition _append_trace_event (run_id event_type : string) (payload : pydict) : M W unit :=
  w ← gets id;
  match fw_event_log w with
  | None => mret tt
  | Some _ =>
      now ← utc_now;
      event_id ← uuid4;
      commit_id ← uuid4;
      on_event_log (el_append
        {| cm_run_id := run_id; cm_commit_id := commit_id;
           cm_events := [trace_event run_id event_id event_type now payload];
           cm_created_at := now; cm_action := None;
           cm_caused_by := Some ("kernel_facade." +:+ event_type) |});;
      mret tt
  end.

Definition _rebuild_trace_state_from_events (run_id : string) : M W unit :=
  w ← gets id;
  let after := default 0%Z (_rebuild_offsets (fc_registries (fw_facade w)) !! run_id) in
  loaded ← on_event_log (el_load run_id after);
  match loaded with
  | None => mret tt
  | Some events => on_registries (merge_loaded run_id after events)
  end.

(** *** Guards and observability *)
Definition draining_error (operation : string) : exn :=
  Exn RuntimeError
    ("Kernel is draining; '" +:+ operation +:+ "' is temporarily unavailable.").

Definition _guard_write_operation {A} (operation : string) (body : M W A) : M W A :=
  w ← gets id;
  if _draining (fw_facade w) then raise (draining_error operation)
  else
    on_drain (modify DrainCoordinator.enter);;
    try_finally body (on_drain (modify DrainCoordinator.exit);; mret tt).

Definition _build_signal_observability (operation run_id : string) (caused_by : option string)
    : pydict :=
  [ ("correlation_id", PStr (default (operation +:+ ":" +:+ run_id) (str_or caused_by None)));
    ("event_ref", PStr ("facade:" +:+ operation +:+ ":" +:+ run_id)) ].

Definition facade_signal (run_id signal_type : string) (payload : option pydict)
    (caused_by : option string) : SignalRunRequest :=
  {| sr_run_id := run_id; sr_signal_type := signal_type; sr_signal_payload := payload;
     sr_caused_by := caused_by |}.

(** *** Stages, branches, human gates and approvals

    Each of these operations first updates the registries, then awaits the
    gateway and the event log: [begin_*] is the part up to the first [await],
    and [finish] the rest.  Other tasks run in between. *)
Record pending := Pending {
  pd_run_id : string;
  pd_signal : SignalRunRequest;
  pd_event_type : string;
  pd_payload : pydict
}.

Definition finish (p : pending) : M W unit :=
  send (pd_run_id p) (pd_signal p);;
  _append_trace_event (pd_run_id p) (pd_event_type p) (pd_payload p).

Definition begin_open_stage (stage_id run_id : string) (branch_id : option string)
    : M W pending :=
  touch_run run_id;;
  entered_at ← utc_now;
  let view :=
    {| gv_stage_id := stage_id; gv_state := "active"; gv_entered_at := entered_at;
       gv_exited_at := None; gv_branch_id := branch_id; gv_failure_code := None |} in
  on_registries (modify (λ r, set_stages
    (<[run_id := od_set stage_id view (run_stages run_id r)]> (_stage_registry r)) r));;
  mret (Pending run_id
    (facade_signal run_id "stage_opened"
       (Some [("stage_id", PStr stage_id); ("branch_id", opt_str branch_id)])
       (Some "kernel_facade.open_stage"))
    "trace.stage_opened"
    [ ("stage_id", PStr stage_id); ("state", PStr "active"); ("entered_at", PStr entered_at);
      ("branch_id", opt_str branch_id) ]).

Definition open_stage (stage_id run_id : string) (branch_id : option string) : M W unit :=
  p ← begin_open_stage stage_id run_id branch_id; finish p.

(** [x if x is not None else y] on optional texts. *)
Definition or_existing (x y : option string) : option string :=
  match x with Some _ => x | None => y end.

Definition begin_mark_stage (run_id stage_id new_state : string) (failure_code : option string)
    : M W pending :=
  touch_run run_id;;
  r ← on_registries (gets id);
  match od_get stage_id (run_stages run_id r) with
  | None =>
      raise (Exn KeyError
        ("Stage " +:+ str_repr stage_id +:+ " not found for run " +:+ str_repr run_id +:+ "."))
  | Some existing =>
      exited_at ←
        (if decide (new_state ∈ ["completed"; "failed"])
         then t ← utc_now; mret (Some t) else mret None);
      let updated :=
        move_stage new_state (str_or exited_at (gv_exited_at existing))
          (or_existing failure_code (gv_failure_code existing)) existing in
      on_registries (modify (λ r, set_stages
        (<[run_id := od_set stage_id updated (run_stages run_id r)]> (_stage_registry r)) r));;
      mret (Pending run_id
        (facade_signal run_id "stage_state_updated"
           (Some [ ("stage_id", PStr stage_id); ("new_state", PStr new_state);
                   ("failure_code", opt_str failure_code) ])
           (Some "kernel_facade.mark_stage_state"))
        "trace.stage_state_changed"
        [ ("stage_id", PStr stage_id); ("new_state", PStr new_state);
          ("exited_at", opt_str exited_at); ("failure_code", opt_str failure_code) ])
  end.

Definition mark_stage_state (run_id stage_id new_state : string) (failure_code : option string)
    : M W unit :=
  p ← begin_mark_stage run_id stage_id new_state failure_code; finish p.

Definition begin_open_branch (q : OpenBranchRequest) : M W pending :=
  touch_run (ob_run_id q);;
  opened_at ← utc_now;
  let view :=
    {| bv_branch_id := ob_branch_id q; bv_stage_id := ob_stage_id q; bv_state := "active";
       bv_opened_at := opened_at; bv_parent_branch_id := ob_parent_branch_id q;
       bv_proposed_by := ob_proposed_by q; bv_failure_code := None |} in
  on_registries (modify (λ r, set_branches
    (<[ob_run_id q := od_set (ob_branch_id q) view (run_branches (ob_run_id q) r)]>
       (_branch_registry r)) r));;
  mret (Pending (ob_run_id q)
    (facade_signal (ob_run_id q) "branch_opened"
       (Some [ ("branch_id", PStr (ob_branch_id q)); ("stage_id", PStr (ob_stage_id q));
               ("parent_branch_id", opt_str (ob_parent_branch_id q));
               ("proposed_by", opt_str (ob_proposed_by q)) ])
       (Some "kernel_facade.open_branch"))
    "trace.branch_opened"
    [ ("branch_id", PStr (ob_branch_id q)); ("stage_id", PStr (ob_stage_id q));
      ("state", PStr "active"); ("opened_at", PStr opened_at);
      ("parent_branch_id", opt_str (ob_parent_branch_id q));
      ("proposed_by", opt_str (ob_proposed_by q)) ]).

Definition open_branch (q : OpenBranchRequest) : M W unit :=
  p ← begin_open_branch q; finish p.

Definition begin_mark_branch (q : BranchStateUpdateRequest) : M W pending :=
  touch_run (bu_run_id q);;
  r ← on_registries (gets id);
  match od_get (bu_branch_id q) (run_branches (bu_run_id q) r) with
  | None =>
      raise (Exn KeyError
        ("Branch " +:+ str_repr (bu_branch_id q) +:+ " not found for run "
         +:+ str_repr (bu_run_id q) +:+ "."))
  | Some existing =>
      let failure_code := failure_code_value <$> bu_failure_code q in
      let updated :=
        move_branch (bu_new_state q) (or_existing failure_code (bv_failure_code existing))
          existing in
      on_registries (modify (λ r, set_branches
        (<[bu_run_id q := od_set (bu_branch_id q) updated (run_branches (bu_run_id q) r)]>
           (_branch_registry r)) r));;
      mret (Pending (bu_run_id q)
        (facade_signal (bu_run_id q) "branch_state_updated"
           (Some [ ("branch_id", PStr (bu_branch_id q)); ("new_state", PStr (bu_new_state q));
                   ("failure_code", opt_str failure_code); ("reason", opt_str (bu_reason q)) ])
           (Some "kernel_facade.mark_branch_state"))
        "trace.branch_state_changed"
        [ ("branch_id", PStr (bu_branch_id q)); ("new_state", PStr (bu_new_state q));
          ("failure_code", opt_str failure_code) ])
  end.

Definition mark_branch_state (q : BranchStateUpdateRequest) : M W unit :=
  p ← begin_mark_branch q; finish p.

Definition begin_open_gate (q : HumanGateRequest) : M W pending :=
  touch_run (hg_run_id q);;
  on_registries (modify (λ r, set_open_gates
    (add_gate (hg_run_id q) (hg_gate_ref q) (_open_human_gates r)) r));;
  on_registries (modify (λ r, set_gate_types
    (<[hg_run_id q := <[hg_gate_ref q := hg_gate_type q]> (run_gate_types (hg_run_id q) r)]>
       (_gate_types r)) r));;
  mret (Pending (hg_run_id q)
    (facade_signal (hg_run_id q) "human_gate_opened"
       (Some [ ("gate_ref", PStr (hg_gate_ref q)); ("gate_type", PStr (hg_gate_type q));
               ("trigger_reason", PStr (hg_trigger_reason q));
               ("trigger_source", PStr (hg_trigger_source q));
               ("stage_id", opt_str (hg_stage_id q)); ("branch_id", opt_str (hg_branch_id q));
               ("artifact_ref", opt_str (hg_artifact_ref q));
               ("caused_by", opt_str (hg_caused_by q)) ])
       (Some "kernel_facade.open_human_gate"))
    "trace.human_gate_opened"
    [("gate_ref", PStr (hg_gate_ref q)); ("gate_type", PStr (hg_gate_type q))]).

Definition open_human_gate (q : HumanGateRequest) : M W unit :=
  p ← begin_open_gate q; finish p.

Definition resolution_text (approved : bool) : string :=
  if approved then "approved" else "rejected".

Definition approval_signal (q : ApprovalRequest) : SignalRunRequest :=
  facade_signal (ap_run_id q) "approval_submitted"
    (Some ([ ("approval_ref", PStr (ap_approval_ref q)); ("approved", PBool (ap_approved q));
             ("reviewer_id", PStr (ap_reviewer_id q)); ("reason", opt_str (ap_reason q)) ]
           ++ _build_signal_observability "submit_approval" (ap_run_id q) (ap_caused_by q)))
    (str_or (ap_caused_by q) (Some ("approval:" +:+ ap_approval_ref q))).

(** [None] where the pair was submitted before. *)
Definition begin_approval (q : ApprovalRequest) : M W (option pending) :=
  touch_run (ap_run_id q);;
  r ← on_registries (gets id);
  if decide ((ap_run_id q, ap_approval_ref q) ∈ _submitted_approvals r) then mret None
  else
    on_registries (modify (λ r, set_approvals
      ({[(ap_run_id q, ap_approval_ref q)]} ∪ _submitted_approvals r) r));;
    on_registries (modify (λ r, set_resolved_gates
      (add_gate (ap_run_id q) (ap_approval_ref q) (_resolved_human_gates r)) r));;
    on_registries (modify (λ r, set_gate_resolutions
      (<[ap_run_id q := <[ap_approval_ref q := resolution_text (ap_approved q)]>
           (run_gate_resolutions (ap_run_id q) r)]> (_gate_resolutions r)) r));;
    mret (Some (Pending (ap_run_id q) (approval_signal q) "trace.human_gate_resolved"
      [("gate_ref", PStr (ap_approval_ref q)); ("approved", PBool (ap_approved q))])).

Definition submit_approval (q : ApprovalRequest) : M W unit :=
  _guard_write_operation "submit_approval"
    (p ← begin_approval q;
     match p with Some p => finish p | None => mret tt end).

Definition begin_resolve_escalation (run_id : string) (resolution_notes caused_by : option string)
    : M W pending :=
  touch_run run_id;;
  mret (Pending run_id
    (facade_signal run_id "recovery_succeeded"
       (match str_or resolution_notes None with
        | Some notes => Some [("resolution_notes", PStr notes)]
        | None => None
        end)
       (str_or caused_by (Some ("resolve_escalation:" +:+ run_id))))
    "trace.escalation_resolved" [("resolution_notes", opt_str resolution_notes)]).

Definition resolve_escalation (run_id : string) (resolution_notes caused_by : option string)
    : M W unit :=
  p ← begin_resolve_escalation run_id resolution_notes caused_by; finish p.

(** *** Runs *)
Definition workflow_run_id (workflow : odict string) : string :=
  default (default "" (od_get "workflow_id" workflow))
    (str_or (od_get "run_id" workflow) None).

Definition with_context_ref (context_ref : option string) (q : StartRunRequest)
    : StartRunRequest :=
  {| st_initiator := st_initiator q; st_run_kind := st_run_kind q;
     st_session_id := st_session_id q; st_input_ref := st_input_ref q;
     st_input_json := st_input_json q; st_context_ref := context_ref;
     st_parent_run_id := st_parent_run_id q; st_trace_context := st_trace_context q;
     st_task_contract_ref := st_task_contract_ref q;
     st_initial_stage_id := st_initial_stage_id q;
     st_route_policy_version := st_route_policy_version q;
     st_skill_policy_version := st_skill_policy_version q;
     st_evaluation_policy_version := st_evaluation_policy_version q;
     st_task_view_policy_version := st_task_view_policy_version q |}.

Definition start_run (q : StartRunRequest) : M W StartRunResponse :=
  binding ← on_context (λ a,
    let '(b, a') := AgentCoreContextAdapter.bind_context
      {| xi_session_id := st_session_id q; xi_context_ref := st_context_ref q;
         xi_context_json := None |} a in (Ok (xb_binding_ref b), a'));
  let request_for_gateway :=
    match binding with Some b => with_context_ref (Some b) q | None => q end in
  workflow ← on_gw (gw_start_workflow gw request_for_gateway);
  let workflow_id := default "" (od_get "workflow_id" workflow) in
  let run_id := workflow_run_id workflow in
  t ← utc_now;
  on_facade (modify (λ f, set_created_at (<[run_id := t]> (_run_created_at f)) f));;
  (match binding with
   | Some b =>
       on_context (modify (AgentCoreContextAdapter.bind_run_context run_id b));; mret tt
   | None => mret tt
   end);;
  mret {| so_run_id := run_id; so_temporal_workflow_id := workflow_id;
          so_lifecycle_state := "created" |}.

Definition signal_run (q : SignalRunRequest) : M W unit := send (sr_run_id q) q.

Definition _is_stream_event_exposed (include_derived_diagnostic : bool) (e : RuntimeEvent)
    : bool :=
  bool_decide (ev_event_authority e = authoritative_fact)
  || include_derived_diagnostic && bool_decide (ev_event_authority e = derived_diagnostic).

(** The stream as the list of what it yields. *)
Definition stream_run_events (run_id : string) (include_derived_diagnostic : bool)
    : M W (list RuntimeEvent) :=
  events ← on_gw (gw_stream_run_events gw run_id);
  mret (filter (λ e, _is_stream_event_exposed include_derived_diagnostic e = true) events).

Definition _is_expected_cancel_race_error (error : exn) : bool :=
  existsb (λ token, py_contains token (py_lower (exn_str error)))
    ["not found"; "already completed"; "not running"; "closed"].

Definition cancel_run (q : CancelRunRequest) : M W unit :=
  send (cn_run_id q) (facade_signal (cn_run_id q) "cancel_requested"
    (Some (("reason", PStr (cn_reason q))
           :: _build_signal_observability "cancel" (cn_run_id q) (cn_caused_by q)))
    (cn_caused_by q));;
  try_except (on_gw (gw_cancel_workflow gw (cn_run_id q) (cn_reason q))) is_Exception
    (λ error, if _is_expected_cancel_race_error error then mret tt else raise error).

Definition no_checkpoint_adapter : exn :=
  Exn RuntimeError "checkpoint_adapter is required for resume_run.".

Definition resume_run (q : ResumeRunRequest) : M W unit :=
  imported ← on_checkpoint (lift (AgentCoreCheckpointAdapter.import_resume_request
    {| ki_run_id := rs_run_id q; ki_snapshot_id := rs_snapshot_id q |}));
  match imported with
  | None => raise no_checkpoint_adapter
  | Some k =>
      send (kr_run_id k) (facade_signal (kr_run_id k) "resume_from_snapshot"
        (Some ((("snapshot_id", opt_str (kr_snapshot_id k))
                :: _build_signal_observability "resume" (kr_run_id k) (rs_caused_by q))
               ++ match kr_snapshot_offset k with
                  | Some n => [("snapshot_offset", PInt n)]
                  | None => []
                  end))
        (rs_caused_by q))
  end.

Definition escalate_recovery (run_id reason : string) (caused_by : option string) : M W unit :=
  send run_id (facade_signal run_id "recovery_escalation"
    (Some (("reason", PStr reason)
           :: _build_signal_observability "recovery_escalation" run_id caused_by))
    caused_by).

(** [RunProjection] has no field [active_stage_id]: the [getattr] gives [None]. *)
Definition query_run (run_id : string) : M W QueryRunResponse :=
  projection ← on_gw (gw_query_projection gw run_id);
  on_checkpoint (modify (AgentCoreCheckpointAdapter.bind_projection projection));;
  mret {| qr_run_id := pj_run_id projection;
          qr_lifecycle_state := pj_lifecycle_state projection;
          qr_projected_offset := pj_projected_offset projection;
          qr_waiting_external := pj_waiting_external projection;
          qr_current_action_id := pj_current_action_id projection;
          qr_recovery_mode := pj_recovery_mode projection;
          qr_recovery_reason := pj_recovery_reason projection;
          qr_active_child_runs := pj_active_child_runs projection;
          qr_policy_versions := pj_policy_versions projection;
          qr_active_stage_id := None |}.

Definition _build_dashboard_correlation_hint (r : QueryRunResponse) : string :=
  match str_or (qr_current_action_id r) None, str_or (qr_recovery_reason r) None with
  | Some action_id, _ => "action:" +:+ action_id
  | None, Some reason => "recovery:" +:+ reason
  | None, None =>
      if qr_waiting_external r
      then "external_wait:" +:+ qr_run_id r +:+ ":" +:+ pretty (qr_projected_offset r)
      else "state:" +:+ lifecycle_value (qr_lifecycle_state r) +:+ ":" +:+ qr_run_id r
  end.

Definition query_run_dashboard (run_id : string) : M W QueryRunDashboardResponse :=
  r ← query_run run_id;
  mret {| qd_run_id := qr_run_id r; qd_lifecycle_state := qr_lifecycle_state r;
          qd_projected_offset := qr_projected_offset r;
          qd_waiting_external := qr_waiting_external r;
          qd_recovery_mode := qr_recovery_mode r; qd_recovery_reason := qr_recovery_reason r;
          qd_active_child_runs_count := length (qr_active_child_runs r);
          qd_correlation_hint := _build_dashboard_correlation_hint r |}.

(** *** Child runs *)
Definition policy_fields (v : RunPolicyVersions) : odict (option string) :=
  [ ("route_policy_version", route_policy_version v);
    ("acceptance_policy_version", acceptance_policy_version v);
    ("memory_policy_version", memory_policy_version v);
    ("skill_policy_version", skill_policy_version v);
    ("evaluation_policy_version", evaluation_policy_version v);
    ("task_view_policy_version", task_view_policy_version v) ].

(** [RunPolicyVersions( **d )]; [d] holds texts. *)
Definition policy_names : list string :=
  [ "route_policy_version"; "acceptance_policy_version"; "memory_policy_version";
    "skill_policy_version"; "evaluation_policy_version"; "task_view_policy_version";
    "pinned_at" ].
Definition policy_versions_of_kwargs (d : odict string) : outcome RunPolicyVersions :=
  if existsb (λ k, negb (bool_decide (k ∈ policy_names))) (map fst d)
  then Raise (Exn TypeError "RunPolicyVersions.__init__() got an unexpected keyword argument")
  else Ok {| route_policy_version := od_get "route_policy_version" d;
             acceptance_policy_version := od_get "acceptance_policy_version" d;
             memory_policy_version := od_get "memory_policy_version" d;
             skill_policy_version := od_get "skill_policy_version" d;
             evaluation_policy_version := od_get "evaluation_policy_version" d;
             task_view_policy_version := od_get "task_view_policy_version" d;
             pinned_at := default "" (od_get "pinned_at" d) |}.

(** [inherited] without the absent versions, then [inherited.update(overrides)]. *)
Definition present_versions (v : RunPolicyVersions) : odict string :=
  omap (λ kv, (λ x, (fst kv, x)) <$> snd kv) (policy_fields v).
Definition child_versions (parent : RunPolicyVersions) (overrides : option (odict string))
    : outcome RunPolicyVersions :=
  match overrides with
  | Some (_ :: _ as o) =>
      policy_versions_of_kwargs
        (fold_left (λ d kv, od_set (fst kv) (snd kv) d) o (present_versions parent))
  | _ => Ok parent
  end.

Definition with_input_json (input_json : option pydict) (q : SpawnChildRunRequest)
    : SpawnChildRunRequest :=
  {| sc_parent_run_id := sc_parent_run_id q; sc_child_kind := sc_child_kind q;
     sc_input_ref := sc_input_ref q; sc_input_json := input_json;
     sc_context_ref := sc_context_ref q; sc_task_id := sc_task_id q;
     sc_inherit_policy_versions := sc_inherit_policy_versions q;
     sc_policy_version_overrides := sc_policy_version_overrides q;
     sc_notify_parent_on_complete := sc_notify_parent_on_complete q |}.
Definition with_child_context (context_ref : option string) (q : SpawnChildRunRequest)
    : SpawnChildRunRequest :=
  {| sc_parent_run_id := sc_parent_run_id q; sc_child_kind := sc_child_kind q;
     sc_input_ref := sc_input_ref q; sc_input_json := sc_input_json q;
     sc_context_ref := context_ref; sc_task_id := sc_task_id q;
     sc_inherit_policy_versions := sc_inherit_policy_versions q;
     sc_policy_version_overrides := sc_policy_version_overrides q;
     sc_notify_parent_on_complete := sc_notify_parent_on_complete q |}.

(** The block under [if request.inherit_policy_versions], whose failures are
    logged and leave the request as it was. *)
Definition inherit_versions (q : SpawnChildRunRequest) : M W SpawnChildRunRequest :=
  try_except
    (parent ← query_run (sc_parent_run_id q);
     match qr_policy_versions parent with
     | None => mret q
     | Some parent_pvs =>
         child_pvs ← lift (child_versions parent_pvs (sc_policy_version_overrides q));
         mret (with_input_json
           (Some (od_set "_inherited_policy_versions"
              (PDict (od_map opt_str (policy_fields child_pvs))) (default [] (sc_input_json q))))
           q)
     end)
    is_Exception (λ _, mret q).

Definition _resolve_child_lifecycle_state (child_run_id : string) : M W RunLifecycleState :=
  try_except (p ← on_gw (gw_query_projection gw child_run_id); mret (pj_lifecycle_state p))
    is_Exception (λ _, mret created).

Definition register_child (parent child kind now : string) (f : KernelFacade) : KernelFacade :=
  let f := set_created_at (<[child := now]> (_run_created_at f)) f in
  let registry := default [] (_all_child_runs f !! parent) in
  set_child_runs (<[child := kind]> (_child_kind f))
    (<[parent := if decide (child ∈ registry) then registry else registry ++ [child]]>
       (_all_child_runs f)) f.

Definition spawn_child_run (q : SpawnChildRunRequest) : M W (string * RunLifecycleState) :=
  q1 ←
    match sc_context_ref q with
    | Some _ => mret q
    | None =>
        parent_binding ←
          on_context (gets (AgentCoreContextAdapter.resolve_run_context (sc_parent_run_id q)));
        mret (match parent_binding with
              | Some (Some b) => with_child_context (Some b) q
              | _ => q
              end)
    end;
  q2 ← (if sc_inherit_policy_versions q then inherit_versions q1 else mret q1);
  workflow ← on_gw (gw_start_child_workflow gw (sc_parent_run_id q) q2);
  let child_run_id := workflow_run_id workflow in
  t ← utc_now;
  on_facade (modify (register_child (sc_parent_run_id q) child_run_id (sc_child_kind q) t));;
  send (sc_parent_run_id q) (facade_signal (sc_parent_run_id q) "child_spawned"
    (Some (("child_run_id", PStr child_run_id)
           :: _build_signal_observability "spawn_child" (sc_parent_run_id q) None))
    (Some "kernel_facade.spawn_child_run"));;
  lifecycle_state ← _resolve_child_lifecycle_state child_run_id;
  mret (child_run_id, lifecycle_state).

(** *** Read models *)
Definition trace_run_state (s : RunLifecycleState) : string :=
  match s with
  | created => "created"
  | ready | dispatching | waiting_result | recovering => "active"
  | waiting_external => "waiting"
  | completed => "completed"
  | failed => "failed"
  | aborted => "aborted"
  end.

Definition review_state (run_id : string) (r : registries) : TraceReviewState :=
  let open_gates := run_open_gates run_id r in
  let resolved_gates := run_resolved_gates run_id r in
  if decide (open_gates = ∅) then not_required
  else if decide (open_gates ∖ resolved_gates ≠ ∅) then requested
  else if existsb (λ g, bool_decide (run_gate_resolutions run_id r !! g = Some "rejected"))
            (elements resolved_gates)
  then rejected else approved.

Definition query_trace_runtime (run_id : string) : M W TraceRuntimeView :=
  _rebuild_trace_state_from_events run_id;;
  response ← query_run run_id;
  r ← on_registries (gets id);
  mret {| rv_run_id := run_id;
          rv_run_state := trace_run_state (qr_lifecycle_state response);
          rv_wait_state := if qr_waiting_external response then "external_callback" else "none";
          rv_review_state := review_state run_id r;
          rv_active_stage_id := qr_active_stage_id response;
          rv_branches := map snd (run_branches run_id r);
          rv_policy_versions := qr_policy_versions response;
          rv_projected_at := None;
          rv_stages := map snd (run_stages run_id r) |}.

(** The terminal timestamp: the first time the facade sees the run ended. *)
Definition completed_once (run_id : string) : M W string :=
  f ← on_facade (gets id);
  match _run_completed_at f !! run_id with
  | Some t => mret t
  | None =>
      t ← utc_now;
      on_facade (modify (λ f, set_completed_at (<[run_id := t]> (_run_completed_at f)) f));;
      mret t
  end.

Definition is_NotImplementedError (e : exn) : bool :=
  bool_decide (exn_cls e = OtherError "NotImplementedError").

Definition nonempty_text (o : option string) : option string := str_or o None.

(** A Python set has no order of its own: the gates are listed in some order. *)
Definition gate_resolutions_of (run_id : string) (r : registries) : list HumanGateResolution :=
  map (λ g,
    {| hr_gate_ref := g;
       hr_gate_type := default "final_approval" (run_gate_types run_id r !! g);
       hr_resolution := default "approved" (run_gate_resolutions run_id r !! g) |})
    (elements (run_resolved_gates run_id r)).

Definition query_run_postmortem (run_id : string) : M W RunPostmortemView :=
  response ← query_run run_id;
  trace ← query_trace_runtime run_id;
  r ← on_registries (gets id);
  total_action_count ←
    try_except (on_dedupe_store (ds_count_by_run run_id)) is_NotImplementedError (λ _, mret None);
  f ← on_facade (gets id);
  completed_at ←
    (if decide (rv_run_state trace ∈ ["completed"; "failed"; "aborted"])
     then t ← completed_once run_id; mret (Some t) else mret None);
  let created_at := _run_created_at f !! run_id in
  mret {| pm_run_id := run_id; pm_task_id := None; pm_run_kind := "default";
          pm_outcome := rv_run_state trace;
          pm_stages := rv_stages trace; pm_branches := rv_branches trace;
          pm_total_action_count := default 0%Z total_action_count;
          pm_failure_codes :=
            omap (λ s, nonempty_text (gv_failure_code s)) (rv_stages trace)
            ++ omap (λ b, nonempty_text (bv_failure_code b)) (rv_branches trace);
          pm_duration_ms := duration_ms created_at completed_at;
          pm_human_gate_resolutions := gate_resolutions_of run_id r;
          pm_policy_versions := rv_policy_versions trace;
          pm_event_count := qr_projected_offset response;
          pm_created_at := created_at; pm_completed_at := completed_at |}.

(** The active children of the projection, then the other spawned ones. *)
Fixpoint append_unseen (seen : gset string) (ids : list string) : list string :=
  match ids with
  | [] => []
  | cid :: ids' =>
      if decide (cid ∈ seen) then append_unseen seen ids'
      else cid :: append_unseen ({[cid]} ∪ seen) ids'
  end.

Definition child_summary (child_id : string) : M W ChildRunSummary :=
  let kind f := default "child" (_child_kind f !! child_id) in
  try_except
    (resp ← query_run child_id;
     let outcome :=
       if decide (qr_lifecycle_state resp ∈ [completed; failed; aborted])
       then Some (qr_lifecycle_state resp) else None in
     completed_at ←
       match outcome with
       | Some _ => t ← completed_once child_id; mret (Some t)
       | None => mret None
       end;
     f ← on_facade (gets id);
     mret {| cc_child_run_id := child_id; cc_child_kind := kind f; cc_task_id := None;
             cc_lifecycle_state := qr_lifecycle_state resp; cc_outcome := outcome;
             cc_created_at := _run_created_at f !! child_id; cc_completed_at := completed_at;
             cc_query_error := None |})
    is_Exception
    (λ exc,
      f ← on_facade (gets id);
      mret {| cc_child_run_id := child_id; cc_child_kind := kind f; cc_task_id := None;
              cc_lifecycle_state := created; cc_outcome := None;
              cc_created_at := _run_created_at f !! child_id; cc_completed_at := None;
              cc_query_error := Some (exn_str exc) |}).

Fixpoint child_summaries (ids : list string) : M W (list ChildRunSummary) :=
  match ids with
  | [] => mret []
  | child_id :: ids' =>
      summary ← child_summary child_id;
      summaries ← child_summaries ids';
      mret (summary :: summaries)
  end.

Definition query_child_runs (parent_run_id : string) : M W (list ChildRunSummary) :=
  response ← query_run parent_run_id;
  f ← on_facade (gets id);
  let active_ids := qr_active_child_runs response in
  child_summaries (active_ids ++ append_unseen (list_to_set active_ids)
                     (default [] (_all_child_runs f !! parent_run_id))).

(** *** Turns, tasks, action states *)
Definition execute_turn (run_id : string) (action : Action) (idempotency_key : string)
    : M W TurnResult :=
  _guard_write_operation "execute_turn"
    (on_gw (gw_execute_turn gw run_id action idempotency_key)).

(** A collaborator the method cannot do without. *)
Definition required {A} (message : string) (m : M W (option A)) : M W A :=
  o ← m;
  match o with Some a => mret a | None => raise (Exn RuntimeError message) end.

Definition register_task (descriptor : TaskDescriptor) : M W unit :=
  required "register_task() requires a task_registry injected at KernelFacade construction."
    (on_tasks (TaskRegistry.register descriptor)).
Definition get_task_status (now_ms : Z) (task_id : string) : M W (option TaskHealthStatus) :=
  required "get_task_status() requires a task_registry injected at KernelFacade construction."
    (on_tasks (gets (TaskRegistry.get_health now_ms task_id))).
Definition list_session_tasks (session_id : string) : M W (list TaskDescriptor) :=
  required "list_session_tasks() requires a task_registry injected at KernelFacade construction."
    (on_tasks (gets (TaskRegistry.list_session_tasks session_id))).

Definition get_action_state (key : string) : M W (option string) :=
  record ← required
    "get_action_state called but no dedupe_store was injected — idempotency protection is disabled."
    (on_dedupe_store (ds_get key));
  mret (dedupe_state_str ∘ rec_state <$> record).
End facade.
