(* ===== verification/KindRegistries.v ===== *)
(** * Registries of kinds ([kernel/event_registry.py, action_type_registry.py,
      failure_code_registry.py, failure_mappings.py])

    The catalogues of event types and action types with their built-in entries,
    the validators, and the registry of what a failure code recommends.  Descriptions, which nothing reads, and warnings are
    left out. *)
From S2P Require Export RunActor Facade.

(** ** Data *)
Definition _CURRENT_EVENT_SCHEMA_VERSION : string := "1".

Record EventTypeDescriptor := {
  et_event_type : string;
  et_authority : string;
  et_affects_replay : bool;
  et_recovery_path_allowed : bool;
  et_schema_version : string
}.

Definition event_type (name authority : string) (affects_replay recovery_path_allowed : bool)
    : EventTypeDescriptor :=
  {| et_event_type := name; et_authority := authority; et_affects_replay := affects_replay;
     et_recovery_path_allowed := recovery_path_allowed;
     et_schema_version := _CURRENT_EVENT_SCHEMA_VERSION |}.

Record ActionTypeDescriptor := {
  at_action_type : string;
  at_executor_hint : string;
  at_is_idempotent : bool;
  at_supports_dedupe : bool;
  at_allowed_effect_classes : list string
}.

(** ** The two registries *)
Module EventTypeRegistry.
Record t := { _entries : odict EventTypeDescriptor }.

Definition duplicate_type (name : string) : exn :=
  Exn ValueError ("Event type '" +:+ name +:+ "' is already registered. "
    +:+ "Use a unique event_type string or update the existing entry.").

Definition register (descriptor : EventTypeDescriptor) : M t unit :=
  r ← gets id;
  match od_get (et_event_type descriptor) (_entries r) with
  | Some _ => raise (duplicate_type (et_event_type descriptor))
  | None => modify (λ r, {| _entries := od_set (et_event_type descriptor) descriptor (_entries r) |})
  end.

Definition get (name : string) (r : t) : option EventTypeDescriptor := od_get name (_entries r).

Definition type_le (a b : EventTypeDescriptor) : Prop :=
  String.le (et_event_type a) (et_event_type b).
#[global] Instance type_le_dec : RelDecision type_le.
Proof. intros a b. unfold type_le. apply _. Defined.

Definition all (r : t) : list EventTypeDescriptor := merge_sort type_le (map snd (_entries r)).
Definition known_types (r : t) : list string := map fst (_entries r).
End EventTypeRegistry.

Module ActionTypeRegistry.
Record t := { _entries : odict ActionTypeDescriptor }.

Definition duplicate_type (name : string) : exn :=
  Exn ValueError ("Action type '" +:+ name +:+ "' is already registered. "
    +:+ "Use a unique action_type string or update the existing entry.").

Definition register (descriptor : ActionTypeDescriptor) : M t unit :=
  r ← gets id;
  match od_get (at_action_type descriptor) (_entries r) with
  | Some _ => raise (duplicate_type (at_action_type descriptor))
  | None => modify (λ r, {| _entries := od_set (at_action_type descriptor) descriptor (_entries r) |})
  end.

Definition get (name : string) (r : t) : option ActionTypeDescriptor := od_get name (_entries r).

Definition type_le (a b : ActionTypeDescriptor) : Prop :=
  String.le (at_action_type a) (at_action_type b).
#[global] Instance type_le_dec : RelDecision type_le.
Proof. intros a b. unfold type_le. apply _. Defined.

Definition all (r : t) : list ActionTypeDescriptor := merge_sort type_le (map snd (_entries r)).
Definition known_types (r : t) : list string := map fst (_entries r).
End ActionTypeRegistry.

(** A failure code is a string; both tables are keyed by it.  A gate may be
    registered as [None]. *)
Module FailureCodeRegistry.
Record t := { _recovery_map : odict string; _gate_map : odict (option string) }.

Definition empty : t := {| _recovery_map := []; _gate_map := [] |}.

Definition register_recovery (code : TraceFailureCode) (action : string) (r : t) : t :=
  {| _recovery_map := od_set (failure_code_value code) action (_recovery_map r);
     _gate_map := _gate_map r |}.

Definition register_gate (code : TraceFailureCode) (gate_type : option string) (r : t) : t :=
  {| _recovery_map := _recovery_map r;
     _gate_map := od_set (failure_code_value code) gate_type (_gate_map r) |}.

(** [dict.update]; an absent batch is an empty one. *)
Definition register_batch (recovery : list (TraceFailureCode * string))
    (gates : list (TraceFailureCode * option string)) (r : t) : t :=
  let r := foldl (λ r kv, register_recovery (fst kv) (snd kv) r) r recovery in
  foldl (λ r kv, register_gate (fst kv) (snd kv) r) r gates.

Definition get_recovery (code : TraceFailureCode) (r : t) : option string :=
  od_get (failure_code_value code) (_recovery_map r).

Definition get_gate (code : TraceFailureCode) (r : t) : option string :=
  mjoin (od_get (failure_code_value code) (_gate_map r)).

Definition has_mapping (code : TraceFailureCode) (r : t) : bool :=
  bool_decide (is_Some (od_get (failure_code_value code) (_recovery_map r)))
  || bool_decide (is_Some (od_get (failure_code_value code) (_gate_map r))).
End FailureCodeRegistry.

(** A module body that registers descriptors one after the other. *)
Fixpoint register_all {S A} (register : A → M S unit) (l : list A) : M S unit :=
  match l with
  | [] => mret tt
  | d :: l' => register d;; register_all register l'
  end.

(** ** The built-in entries *)
Definition _KERNEL_EVENTS : list EventTypeDescriptor := [
  event_type "run.created" "RunActor" true false;
  event_type "run.started" "RunActor" true false;
  event_type "run.completed" "RunActor" true false;
  event_type "run.aborted" "RunActor" true false;
  event_type "run.child_completed" "RunActor" true false;
  event_type "turn.intent_committed" "TurnEngine" true false;
  event_type "turn.snapshot_built" "TurnEngine" true false;
  event_type "turn.admission_checked" "Admission" true false;
  event_type "turn.dispatch_blocked" "Admission" true false;
  event_type "turn.dispatched" "Executor" true false;
  event_type "turn.dispatch_acknowledged" "Executor" true false;
  event_type "turn.effect_unknown" "Executor" true false;
  event_type "turn.effect_recorded" "Executor" true false;
  event_type "turn.completed_noop" "TurnEngine" true false;
  event_type "turn.recovery_pending" "Recovery" true false;
  event_type "turn.branch_dispatched" "Executor" false false;
  event_type "turn.branch_acknowledged" "Executor" false false;
  event_type "turn.branch_failed" "Executor" false false;
  event_type "turn.parallel_joined" "TurnEngine" true false;
  event_type "turn.branch_rollback_intent" "Executor" false false;
  event_type "recovery.plan_selected" "Recovery" false true;
  event_type "recovery.outcome_recorded" "Recovery" true false;
  event_type "recovery.human_escalation" "Recovery" true false;
  event_type "signal.received" "RunActor" true false;
  event_type "signal.child_completed" "RunActor" true false;
  event_type "run.dispatching" "RunActor" true false;
  event_type "run.recovering" "RunActor" true true;
  event_type "run.ready" "RunActor" true false;
  event_type "run.waiting_result" "RunActor" true false;
  event_type "run.recovery_aborted" "Recovery" true true;
  event_type "run.waiting_external" "RunActor" true true;
  event_type "run.waiting_human_input" "RunActor" true true;
  event_type "run.cancel_requested" "RunActor" true false;
  event_type "run.resume_requested" "RunActor" true false;
  event_type "run.approval_submitted" "RunActor" true false;
  event_type "run.recovery_succeeded" "Recovery" true false;
  event_type "run.heartbeat" "RunHeartbeatMonitor" false false;
  event_type "run.heartbeat_timeout" "RunHeartbeatMonitor" true false;
  event_type "derived_diagnostic" "ObservabilityHook" false false;
  event_type "task.registered" "TaskManager" true false;
  event_type "task.attempt_started" "TaskManager" true false;
  event_type "task.attempt_completed" "TaskManager" true false;
  event_type "task.attempt_failed" "TaskManager" true false;
  event_type "task.restarting" "TaskManager" true false;
  event_type "task.reflecting" "TaskManager" true false;
  event_type "task.completed" "TaskManager" true false;
  event_type "task.escalated" "TaskManager" true false;
  event_type "task.aborted" "TaskManager" true false;
  event_type "run.child_run_completed" "RunActor" true false
].

(** Registered one by one after the list. *)
Definition branch_events : list EventTypeDescriptor := [
  event_type "branch.opened" "RunActor" true false;
  event_type "branch.state_updated" "RunActor" true false;
  event_type "branch.pruned" "RunActor" true false;
  event_type "branch.succeeded" "RunActor" true false;
  event_type "branch.failed" "RunActor" true false;
  event_type "task_view.recorded" "RunActor" true false;
  event_type "human_gate.opened" "RunActor" true false;
  event_type "run.policy_versions_pinned" "RunActor" true false
].

Definition _FACADE_TRACE_EVENTS : list EventTypeDescriptor := [
  event_type "trace.branch_opened" "derived_replayable" true false;
  event_type "trace.branch_state_changed" "derived_replayable" true false;
  event_type "trace.stage_opened" "derived_replayable" true false;
  event_type "trace.stage_state_changed" "derived_replayable" true false;
  event_type "trace.human_gate_opened" "derived_replayable" true false;
  event_type "trace.human_gate_resolved" "derived_replayable" true false
].

Definition _KERNEL_ACTION_TYPES : list ActionTypeDescriptor := [
  {| at_action_type := "tool_call"; at_executor_hint := "local_process";
     at_is_idempotent := false; at_supports_dedupe := true; at_allowed_effect_classes := [] |};
  {| at_action_type := "mcp_call"; at_executor_hint := "local_process";
     at_is_idempotent := false; at_supports_dedupe := true; at_allowed_effect_classes := [] |};
  {| at_action_type := "skill_script"; at_executor_hint := "local_process";
     at_is_idempotent := false; at_supports_dedupe := true; at_allowed_effect_classes := [] |};
  {| at_action_type := "sub_agent"; at_executor_hint := "remote_service";
     at_is_idempotent := true; at_supports_dedupe := true; at_allowed_effect_classes := [] |};
  {| at_action_type := "noop"; at_executor_hint := "local_process";
     at_is_idempotent := true; at_supports_dedupe := false; at_allowed_effect_classes := [] |}
].

(** What importing the module comes to, and the registry it leaves. *)
Definition import_event_registry : outcome unit * EventTypeRegistry.t :=
  register_all EventTypeRegistry.register (_KERNEL_EVENTS ++ branch_events ++ _FACADE_TRACE_EVENTS)
    {| EventTypeRegistry._entries := [] |}.
Definition KERNEL_EVENT_REGISTRY : EventTypeRegistry.t := import_event_registry.2.

Definition import_action_type_registry : outcome unit * ActionTypeRegistry.t :=
  register_all ActionTypeRegistry.register _KERNEL_ACTION_TYPES
    {| ActionTypeRegistry._entries := [] |}.
Definition KERNEL_ACTION_TYPE_REGISTRY : ActionTypeRegistry.t := import_action_type_registry.2.

Definition KNOWN_EFFECT_CLASSES : list string :=
  ["read_only"; "compensatable_write"; "fire_forget"; "irreversible_write"].

(** What the platform may register for each failure code. *)
Definition FAILURE_RECOVERY_MAP : list (TraceFailureCode * string) := [
  (MISSING_EVIDENCE, "task_view_degradation");
  (INVALID_CONTEXT, "pre_call_abort");
  (HARNESS_DENIED, "approval_escalation");
  (MODEL_OUTPUT_INVALID, "retry_or_downgrade_model");
  (MODEL_REFUSAL, "alternate_model_or_human");
  (CALLBACK_TIMEOUT, "recovery_path");
  (NO_PROGRESS, "watchdog_handling");
  (CONTRADICTORY_EVIDENCE, "human_gate_c");
  (UNSAFE_ACTION_BLOCKED, "human_gate_approval");
  (EXPLORATION_BUDGET_EXHAUSTED, "cts_termination_or_gate_b");
  (EXECUTION_BUDGET_EXHAUSTED, "cts_termination_or_gate_b")
].

Definition FAILURE_GATE_MAP : list (TraceFailureCode * option string) := [
  (MISSING_EVIDENCE, None);
  (INVALID_CONTEXT, None);
  (HARNESS_DENIED, Some "gate_d");
  (MODEL_OUTPUT_INVALID, None);
  (MODEL_REFUSAL, None);
  (CALLBACK_TIMEOUT, None);
  (NO_PROGRESS, Some "gate_b");
  (CONTRADICTORY_EVIDENCE, Some "gate_a");
  (UNSAFE_ACTION_BLOCKED, Some "gate_d");
  (EXPLORATION_BUDGET_EXHAUSTED, Some "gate_b");
  (EXECUTION_BUDGET_EXHAUSTED, Some "gate_b")
].

(** ** Validators *)
Definition recovery_allowed_event_types : list string :=
  map et_event_type
    (filter (λ d, et_recovery_path_allowed d = true) (EventTypeRegistry.all KERNEL_EVENT_REGISTRY)).

(** Known, else refused with [msg] where [strict]. *)
Definition validated (known strict : bool) (msg : string) : outcome bool :=
  if known then Ok true else if strict then Raise (Exn ValueError msg) else Ok false.

Definition validate_event_type (name : string) (strict : bool) : outcome bool :=
  validated
    (bool_decide (name ∈ EventTypeRegistry.known_types KERNEL_EVENT_REGISTRY)
     || py_startswith name "signal.") strict
    ("Event type '" +:+ name +:+ "' is not registered in KERNEL_EVENT_REGISTRY. "
     +:+ "Call KERNEL_EVENT_REGISTRY.register() at module import time to prevent "
     +:+ "semantic pollution across teams.").

Definition validate_event_schema_version (schema_version : string) (strict : bool) : outcome bool :=
  validated (bool_decide (schema_version = _CURRENT_EVENT_SCHEMA_VERSION)) strict
    ("RuntimeEvent schema_version=" +:+ str_repr schema_version
     +:+ " does not match current version=" +:+ str_repr _CURRENT_EVENT_SCHEMA_VERSION +:+ ". "
     +:+ "Events from older deployments may be missing fields or carry "
     +:+ "incompatible payload shapes.").

Definition current_event_schema_version : string := _CURRENT_EVENT_SCHEMA_VERSION.

Definition validate_effect_class (effect_class : string) (strict : bool) : outcome bool :=
  validated (bool_decide (effect_class ∈ KNOWN_EFFECT_CLASSES)) strict
    ("Effect class '" +:+ effect_class +:+ "' is not in KNOWN_EFFECT_CLASSES "
     +:+ "(" +:+ py_repr (str_list (merge_sort String.le KNOWN_EFFECT_CLASSES)) +:+ "). "
     +:+ "Add it to KNOWN_EFFECT_CLASSES or accept reduced admission heuristics for this class.").

Definition validate_action_type (action_type : string) (strict : bool) : outcome bool :=
  validated (bool_decide (action_type ∈ ActionTypeRegistry.known_types KERNEL_ACTION_TYPE_REGISTRY))
    strict
    ("Action type '" +:+ action_type +:+ "' is not registered in KERNEL_ACTION_TYPE_REGISTRY. "
     +:+ "Call KERNEL_ACTION_TYPE_REGISTRY.register() at module import time to prevent "
     +:+ "semantic pollution across teams.").

(** ** Registering *)

(** Registrations whose errors the caller handles. *)
Fixpoint register_each (l : list EventTypeDescriptor) (r : EventTypeRegistry.t)
    : list bool * EventTypeRegistry.t :=
  match l with
  | [] => ([], r)
  | d :: l' =>
      let '(o, r1) := EventTypeRegistry.register d r in
      let '(os, r2) := register_each l' r1 in
      (is_ok o :: os, r2)
  end.

Definition first_of_type (name : string) (l : list EventTypeDescriptor) : option EventTypeDescriptor :=
  first_some (λ d, if decide (et_event_type d = name) then Some d else None) l.

Lemma register_get d r name :
  EventTypeRegistry.get name (EventTypeRegistry.register d r).2 =
  match EventTypeRegistry.get name r with
  | Some d0 => Some d0
  | None => if decide (et_event_type d = name) then Some d else None
  end.
Proof.
  unfold EventTypeRegistry.register, EventTypeRegistry.get, mbind, M_bind, gets, modify, raise, id.
  destruct (od_get (et_event_type d) (EventTypeRegistry._entries r)) as [d1|] eqn:Hd; simpl.
  - destruct (od_get name _) eqn:Hn; [done|]. rewrite decide_False; [done|]. intros <-. congruence.
  - rewrite od_get_set. destruct (decide (name = et_event_type d)) as [->|Hne].
    + by rewrite Hd, decide_True.
    + destruct (od_get name _); [done|]. by rewrite decide_False.
Qed.

Lemma register_keys d r :
  NoDup (EventTypeRegistry.known_types r) →
  NoDup (EventTypeRegistry.known_types (EventTypeRegistry.register d r).2).
Proof.
  unfold EventTypeRegistry.register, EventTypeRegistry.known_types, mbind, M_bind, gets, modify,
    raise, id. intros Hnd.
  destruct (od_get (et_event_type d) (EventTypeRegistry._entries r)) as [d1|] eqn:Hd; [done|].
  simpl. rewrite od_set_keys. case_decide; [done|].
  apply NoDup_app. split_and!; [done| |apply NoDup_singleton]. set_solver.
Qed.

#[local] Instance type_le_total : Total EventTypeRegistry.type_le.
Proof. intros a b. unfold EventTypeRegistry.type_le. apply (total String.le). Qed.

(** After any registrations into an empty registry, a type is known by the
    first descriptor that was registered for it, whatever was tried later; no
    type is listed twice, and [all] lists the entries in the order of their
    types. *)
Theorem event_registry_first_wins l :
  let r := (register_each l {| EventTypeRegistry._entries := [] |}).2 in
  (∀ name, EventTypeRegistry.get name r = first_of_type name l) ∧
  NoDup (EventTypeRegistry.known_types r) ∧
  Sorted EventTypeRegistry.type_le (EventTypeRegistry.all r).
Proof.
  cut (∀ r0, NoDup (EventTypeRegistry.known_types r0) →
    (∀ name, EventTypeRegistry.get name (register_each l r0).2 =
       match EventTypeRegistry.get name r0 with Some d => Some d | None => first_of_type name l end) ∧
    NoDup (EventTypeRegistry.known_types (register_each l r0).2)).
  { intros Hcut r. destruct (Hcut {| EventTypeRegistry._entries := [] |}) as [Hg Hn]; [constructor|].
    split_and!; [exact Hg|exact Hn|]. apply (Sorted_merge_sort EventTypeRegistry.type_le). }
  induction l as [|d l IH]; intros r0 Hnd; [split; [|done]; intros name; simpl; by case_match|].
  cbn [register_each]. pose proof (register_keys d r0 Hnd) as Hnd1.
  pose proof (λ name, register_get d r0 name) as Hget.
  destruct (EventTypeRegistry.register d r0) as [o r1].
  destruct (IH r1 Hnd1) as [IHg IHn]. destruct (register_each l r1) as [os r2].
  simpl in *. split; [|done]. intros name. rewrite IHg, Hget. unfold first_of_type. simpl.
  destruct (EventTypeRegistry.get name r0); [done|]. by case_decide.
Qed.

(** ** The types the kernel emits *)
Lemma import_succeeds :
  import_event_registry.1 = Ok tt ∧ import_action_type_registry.1 = Ok tt.
Proof. split; vm_compute; reflexivity. Qed.

Lemma signal_prefix_valid s strict : validate_event_type ("signal." +:+ s) strict = Ok true.
Proof. unfold validate_event_type. rewrite orb_comm. by destruct s. Qed.

(** Every event type the run actor gives an outcome, a recovery or a signal is
    in the catalogue, but for the two signals that the catalogue forgot; and a
    type the recovery path may write is one the catalogue allows there. *)
Theorem actor_types_registered strict :
  (∀ signal_type,
     signal_type ∉ ["plan_submitted"; "speculation_committed"] →
     validate_event_type (_signal_event_type signal_type) strict = Ok true) ∧
  (∀ outcome_kind, validate_event_type (_turn_outcome_event_type outcome_kind) strict = Ok true) ∧
  (∀ mode, validate_event_type (_recovery_event_type mode) strict = Ok true ∧
           _assert_recovery_event_type_allowed (_recovery_event_type mode) = Ok tt) ∧
  ∀ ty, _assert_recovery_event_type_allowed ty = Ok tt → ty ∈ recovery_allowed_event_types.
Proof.
  split_and!.
  - intros s Hs. unfold _signal_event_type.
    destruct (od_get s _) as [ty|] eqn:Hty; [|apply signal_prefix_valid].
    apply od_get_elem in Hty. repeat (apply elem_of_cons in Hty as [[= -> ->]|Hty];
      [first [destruct strict; vm_compute; reflexivity | set_solver]|]).
    by apply elem_of_nil in Hty.
  - intros []; destruct strict; vm_compute; reflexivity.
  - intros mode. unfold _recovery_event_type. do 2 try case_decide; destruct strict;
      vm_compute; done.
  - intros ty. unfold _assert_recovery_event_type_allowed. case_decide as Hin; [done|]. intros _.
    repeat (apply elem_of_cons in Hin as [->|Hin]; [vm_compute; repeat constructor|]).
    by apply elem_of_nil in Hin.
Qed.

(** What the catalogues leave out. *)
Example types_left_out :
  validate_event_type (_signal_event_type "plan_submitted") true ≠ Ok true ∧
  validate_event_type (_signal_event_type "speculation_committed") true ≠ Ok true ∧
  validate_event_type "trace.escalation_resolved" true ≠ Ok true ∧
  validate_effect_class (effect_class_str IDEMPOTENT_WRITE) true ≠ Ok true ∧
  "fire_forget" ∈ KNOWN_EFFECT_CLASSES ∧
  length recovery_allowed_event_types = 5.
Proof. split_and!; try (vm_compute; discriminate); [|vm_compute; reflexivity]. set_solver. Qed.

(** ** Failure codes *)

(** The last registration of a code decides, whatever was registered before;
    codes a batch leaves out keep what they had. *)
Section failure_codes.
Import FailureCodeRegistry.

Definition last_of {A} (code : TraceFailureCode) (l : list (TraceFailureCode * A)) : option A :=
  foldl (λ found kv, if decide (failure_code_value (fst kv) = failure_code_value code)
                     then Some (snd kv) else found) None l.

Lemma last_of_from {A} code (l : list (TraceFailureCode * A)) found :
  foldl (λ found kv, if decide (failure_code_value (fst kv) = failure_code_value code)
                     then Some (snd kv) else found) found l
  = match last_of code l with Some a => Some a | None => found end.
Proof.
  unfold last_of. induction l as [|kv l IH] using rev_ind; [done|]. rewrite !foldl_app. simpl.
  by case_decide.
Qed.

Lemma recovery_after l code r :
  od_get (failure_code_value code)
    (_recovery_map (foldl (λ r kv, register_recovery (fst kv) (snd kv) r) r l))
  = match last_of code l with Some a => Some a | None => get_recovery code r end.
Proof.
  rewrite <- last_of_from. induction l as [|kv l IH] using rev_ind; [done|]. rewrite !foldl_app. simpl.
  rewrite od_get_set. repeat case_decide; congruence.
Qed.

Lemma gates_after l code r :
  od_get (failure_code_value code)
    (_gate_map (foldl (λ r kv, register_gate (fst kv) (snd kv) r) r l))
  = match last_of code l with Some a => Some a | None => od_get (failure_code_value code) (_gate_map r) end.
Proof.
  rewrite <- last_of_from. induction l as [|kv l IH] using rev_ind; [done|]. rewrite !foldl_app. simpl.
  rewrite od_get_set. repeat case_decide; congruence.
Qed.

Lemma gates_keep_recovery l r :
  _recovery_map (foldl (λ r kv, register_gate (fst kv) (snd kv) r) r l) = _recovery_map r.
Proof. revert r. induction l as [|kv l IH]; intros r; [done|]. simpl. by rewrite IH. Qed.

Lemma recoveries_keep_gate l r :
  _gate_map (foldl (λ r kv, register_recovery (fst kv) (snd kv) r) r l) = _gate_map r.
Proof. revert r. induction l as [|kv l IH]; intros r; [done|]. simpl. by rewrite IH. Qed.

Theorem failure_batch_outcome recovery gates code r :
  get_recovery code (register_batch recovery gates r) =
    match last_of code recovery with Some a => Some a | None => get_recovery code r end ∧
  get_gate code (register_batch recovery gates r) =
    match last_of code gates with Some g => g | None => get_gate code r end.
Proof.
  unfold register_batch, get_recovery at 1, get_gate. split.
  - by rewrite gates_keep_recovery, recovery_after.
  - rewrite gates_after, recoveries_keep_gate. by destruct last_of.
Qed.

(** The reference tables name an action for every code. *)
Lemma reference_tables_total code r :
  let r' := register_batch FAILURE_RECOVERY_MAP FAILURE_GATE_MAP r in
  is_Some (get_recovery code r') ∧ has_mapping code r' = true ∧ has_mapping code empty = false.
Proof.
  intros r'. destruct (failure_batch_outcome FAILURE_RECOVERY_MAP FAILURE_GATE_MAP code r) as [Hr _].
  fold r' in Hr. assert (is_Some (get_recovery code r')) as Hsome.
  { rewrite Hr. destruct code; vm_compute; by eexists. }
  split; [done|]. split; [|done]. unfold has_mapping. by rewrite bool_decide_eq_true_2.
Qed.
End failure_codes.
