(* ===== verification/FacadeTrace.v ===== *)
(** * Facades over one event log ([adapters/facade/kernel_facade.py])

    Several facade instances share an event log.  Each keeps its own
    registries of stages, branches and human gates, and merges what the log
    holds when it is queried.  The theorem: however their operations,
    rebuilds, evictions and clean-ups interleave, once no operation on a run is
    in flight every instance that rebuilds holds what the log says, where the
    callers kept the discipline of the trace ([disciplined]); histories in which
    they did not, and the instances stay apart, are at the end. *)
From S2P Require Export Facade SqliteEventLog.

(** ** Cells

    One entry of a registry: opened once, then marked.  Opening an entry that
    is there has no effect, nor has marking one that is not. *)
Inductive cell_op (V U : Type) := COpen (v : V) | CMark (u : U).
Arguments COpen {V U} v.
Arguments CMark {V U} u.

Section cells.
Context {V U : Type} (upd : U → V → V).

Definition cell_step (o : option V) (x : cell_op V U) : option V :=
  match x with
  | COpen v => match o with Some w => Some w | None => Some v end
  | CMark u => upd u <$> o
  end.
Definition cell_run (s : list (cell_op V U)) (o : option V) : option V := fold_left cell_step s o.

Lemma cell_run_app s1 s2 o : cell_run (s1 ++ s2) o = cell_run s2 (cell_run s1 o).
Proof. apply fold_left_app. Qed.

(** Two values that an update makes equal, whatever happens to both before. *)
Class Absorbs (sim : U → V → V → Prop) := {
  sim_refl u v : sim u v v;
  sim_upd u v : sim u (upd u v) v;
  sim_step u w v v' : sim u v v' → sim u (upd w v) (upd w v');
  sim_eq u v v' : sim u v v' → upd u v = upd u v'
}.

Lemma absorb_sim `{Absorbs sim} u s v v' :
  CMark u ∈ s → sim u v v' → cell_run s (Some v) = cell_run s (Some v').
Proof.
  revert v v'. induction s as [|[w|w] s IH]; intros v v'; simpl; [by intros ?%elem_of_nil|..].
  - intros [Hw|Hs]%elem_of_cons Hv; [done|]. by apply IH.
  - intros [[= ->]|Hs]%elem_of_cons Hv; [by rewrite (sim_eq w v v')|].
    apply IH; [done|]. by apply sim_step.
Qed.

(** An update that a later sequence repeats may as well have been made first. *)
Lemma absorb_mark `{Absorbs sim} u s v :
  CMark u ∈ s → cell_run s (Some (upd u v)) = cell_run s (Some v).
Proof. intros Hs. by eapply absorb_sim; [|apply sim_upd]. Qed.

Lemma absorb_open v s : cell_run (COpen v :: s) (Some v) = cell_run (COpen v :: s) None.
Proof. done. Qed.

Lemma cell_run_present s o : is_Some o → is_Some (cell_run s o).
Proof.
  revert o. induction s as [|[v|u] s IH]; intros o [w ->]; simpl; [done|..]; by apply IH.
Qed.
End cells.

(** ** Trace operations *)
Inductive trace_op :=
  | BranchOpened (v : TraceBranchView)
  | BranchMarked (branch_id state : string) (failure_code : option string)
  | StageOpened (v : TraceStageView)
  | StageMarked (stage_id state : string) (exited_at failure_code : option string)
  | GateOpened (gate_ref : string)
  | GateResolved (gate_ref : string).

Definition decode_branch_mark (p : pydict) : outcome trace_op :=
  branch_id ← field_req "branch_id" p;
  state ← field_req "new_state" p;
  failure_code ← field_opt "failure_code" p;
  Ok (BranchMarked branch_id state failure_code).
Definition decode_stage_mark (p : pydict) : outcome trace_op :=
  stage_id ← field_req "stage_id" p;
  state ← field_req "new_state" p;
  exited_at ← field_opt "exited_at" p;
  failure_code ← field_opt "failure_code" p;
  Ok (StageMarked stage_id state exited_at failure_code).

Definition ok_of {A} (o : outcome A) : option A := match o with Ok a => Some a | Raise _ => None end.

(** What a trace event says, when it is one that says something. *)
Definition decode (ev : RuntimeEvent) : option trace_op :=
  let p := default [] (ev_payload_json ev) in
  if decide (ev_event_type ev = "trace.branch_opened") then BranchOpened <$> ok_of (opened_branch p ev)
  else if decide (ev_event_type ev = "trace.branch_state_changed") then ok_of (decode_branch_mark p)
  else if decide (ev_event_type ev = "trace.stage_opened") then StageOpened <$> ok_of (opened_stage p ev)
  else if decide (ev_event_type ev = "trace.stage_state_changed") then ok_of (decode_stage_mark p)
  else if decide (ev_event_type ev = "trace.human_gate_opened") then
    GateOpened <$> ok_of (field_req "gate_ref" p)
  else if decide (ev_event_type ev = "trace.human_gate_resolved") then
    GateResolved <$> ok_of (field_req "gate_ref" p)
  else None.

(** ** The registries of a run as cells *)
Inductive cell_id :=
  | CStage (k : string) | CBranch (k : string) | COpenGate (g : string) | CResolvedGate (g : string).
#[global] Instance cell_id_eq_dec : EqDecision cell_id.
Proof. solve_decision. Defined.
Inductive cell_val := VStage (v : TraceStageView) | VBranch (v : TraceBranchView) | VGate.
Inductive cell_upd :=
  | UStage (state : string) (exited_at failure_code : option string)
  | UBranch (state : string) (failure_code : option string).

Definition merge_upd (u : cell_upd) (v : cell_val) : cell_val :=
  match u, v with
  | UStage st ex fc, VStage w =>
      VStage (move_stage st (str_or ex (gv_exited_at w)) (str_or fc (gv_failure_code w)) w)
  | UBranch st fc, VBranch w => VBranch (move_branch st (str_or fc (bv_failure_code w)) w)
  | _, _ => v
  end.

Definition cell (c : cell_id) (run_id : string) (r : registries) : option cell_val :=
  match c with
  | CStage k => VStage <$> od_get k (run_stages run_id r)
  | CBranch k => VBranch <$> od_get k (run_branches run_id r)
  | COpenGate g => if decide (g ∈ run_open_gates run_id r) then Some VGate else None
  | CResolvedGate g => if decide (g ∈ run_resolved_gates run_id r) then Some VGate else None
  end.

Definition cellop (c : cell_id) (x : trace_op) : option (cell_op cell_val cell_upd) :=
  match c, x with
  | CStage k, StageOpened v => if decide (gv_stage_id v = k) then Some (COpen (VStage v)) else None
  | CStage k, StageMarked k' st ex fc => if decide (k' = k) then Some (CMark (UStage st ex fc)) else None
  | CBranch k, BranchOpened v => if decide (bv_branch_id v = k) then Some (COpen (VBranch v)) else None
  | CBranch k, BranchMarked k' st fc => if decide (k' = k) then Some (CMark (UBranch st fc)) else None
  | COpenGate g, GateOpened g' => if decide (g' = g) then Some (COpen VGate) else None
  | COpenGate g, GateResolved g' => if decide (g' = g) then Some (COpen VGate) else None
  | CResolvedGate g, GateResolved g' => if decide (g' = g) then Some (COpen VGate) else None
  | _, _ => None
  end.
Definition cellops (c : cell_id) (s : list trace_op) : list (cell_op cell_val cell_upd) :=
  omap (cellop c) s.

(** Field by field, the last text that is not empty wins. *)
Definition set_text (o : option string) : Prop := str_or o None ≠ None.

Definition upd_sim (u : cell_upd) (v v' : cell_val) : Prop :=
  match u, v, v' with
  | UStage _ ex fc, VStage w, VStage w' =>
      gv_stage_id w = gv_stage_id w' ∧ gv_entered_at w = gv_entered_at w' ∧
      gv_branch_id w = gv_branch_id w' ∧
      (¬ set_text ex → gv_exited_at w = gv_exited_at w') ∧
      (¬ set_text fc → gv_failure_code w = gv_failure_code w')
  | UBranch _ fc, VBranch w, VBranch w' =>
      bv_branch_id w = bv_branch_id w' ∧ bv_stage_id w = bv_stage_id w' ∧
      bv_opened_at w = bv_opened_at w' ∧ bv_parent_branch_id w = bv_parent_branch_id w' ∧
      bv_proposed_by w = bv_proposed_by w' ∧
      (¬ set_text fc → bv_failure_code w = bv_failure_code w')
  | _, _, _ => v = v'
  end.

Lemma str_or_set o a : set_text o → str_or o a = o.
Proof. unfold set_text. destruct o; simpl; [|done]. by case_decide. Qed.
Lemma str_or_unset o a : ¬ set_text o → str_or o a = a.
Proof. unfold set_text. destruct o; simpl; [|done]. case_decide; [done|]. naive_solver. Qed.
#[global] Instance set_text_dec o : Decision (set_text o).
Proof. unfold set_text. apply _. Defined.

#[global] Instance merge_absorbs : Absorbs merge_upd upd_sim.
Proof.
  split.
  - intros [] []; simpl; naive_solver.
  - intros [st ex fc|st fc] [w|w|]; simpl; repeat split; intros; by rewrite str_or_unset.
  - intros [st ex fc|st fc] [st' ex' fc'|st' fc'] [w|w|] [w'|w'|]; simpl; try done; try naive_solver.
    + intros (? & ? & ? & He & Hf). repeat split; try done; intros; f_equal; auto.
    + intros (? & ? & ? & ? & ? & Hf). repeat split; try done; intros; f_equal; auto.
  - intros [st ex fc|st fc] [w|w|] [w'|w'|]; simpl; try done; try naive_solver.
    + intros (H1 & H2 & H3 & He & Hf). unfold move_stage. rewrite H1, H2, H3. do 2 f_equal.
      * destruct (decide (set_text ex)); [by rewrite !str_or_set|]. rewrite !str_or_unset; auto.
      * destruct (decide (set_text fc)); [by rewrite !str_or_set|]. rewrite !str_or_unset; auto.
    + intros (H1 & H2 & H3 & H4 & H5 & Hf). unfold move_branch. rewrite H1, H2, H3, H4, H5.
      do 2 f_equal.
      destruct (decide (set_text fc)); [by rewrite !str_or_set|]. rewrite !str_or_unset; auto.
Qed.

(** ** What merging an event does to the cells *)
Record changes (run_id : string) (step : cell_id → option cell_val → option cell_val)
    (r r' : registries) : Prop := {
  ch_offsets : _rebuild_offsets r' = _rebuild_offsets r;
  ch_others c run : run ≠ run_id → cell c run r' = cell c run r;
  ch_run c : cell c run_id r' = step c (cell c run_id r)
}.

Definition merge_step (x : trace_op) (c : cell_id) (o : option cell_val) : option cell_val :=
  match cellop c x with Some y => cell_step merge_upd o y | None => o end.

(** The cells of a run in one registry, when that registry is replaced. *)
Lemma run_insert {V} (m : gmap string V) run_id (d x : V) run :
  default d (<[run_id := x]> m !! run) = if decide (run = run_id) then x else default d (m !! run).
Proof.
  destruct (decide (run = run_id)) as [->|Hr]; [by rewrite lookup_insert_eq|].
  by rewrite lookup_insert_ne.
Qed.

Ltac cell_cases :=
  repeat match goal with
  | |- context [decide ?P] => destruct (decide P); simplify_eq/=; try done
  | H : context [decide ?P] |- _ => destruct (decide P); simplify_eq/=; try done
  end.

Lemma od_get_add_missing {V} run_id k (v : V) m run k' :
  od_get k' (default [] (add_missing run_id k v m !! run)) =
  if decide (run = run_id) then
    if decide (k' = k) then
      match od_get k (default [] (m !! run)) with Some w => Some w | None => Some v end
    else od_get k' (default [] (m !! run))
  else od_get k' (default [] (m !! run)).
Proof.
  unfold add_missing. rewrite run_insert. destruct (decide (run = run_id)) as [->|]; [|done].
  destruct (od_get k (default [] (m !! run_id))) as [w|] eqn:Hk.
  - destruct (decide (k' = k)); by simplify_eq.
  - rewrite od_get_set. by destruct (decide (k' = k)).
Qed.

Lemma run_add_gate run_id g m run :
  default ∅ (add_gate run_id g m !! run) =
  if decide (run = run_id) then {[g]} ∪ default ∅ (m !! run) else default ∅ (m !! run : option (gset string)).
Proof. unfold add_gate. rewrite run_insert. destruct (decide (run = run_id)) as [->|]; done. Qed.

Lemma run_ensure run_id (m : gmap string (gset string)) run :
  default ∅ (ensure_run run_id m !! run) = default ∅ (m !! run).
Proof. unfold ensure_run. rewrite run_insert. destruct (decide (run = run_id)) as [->|]; done. Qed.

Lemma changes_branches run_id r k (f : option TraceBranchView → option TraceBranchView) m' step :
  (∀ run k', od_get k' (default [] (m' !! run)) =
     if decide (run = run_id ∧ k' = k) then f (od_get k (run_branches run_id r))
     else od_get k' (run_branches run r)) →
  (∀ c o, c ≠ CBranch k → step c o = o) →
  (∀ o, step (CBranch k) (VBranch <$> o) = VBranch <$> f o) →
  changes run_id step r (set_branches m' r).
Proof.
  intros Hm Hs Hk. split; [done|..].
  - intros [k'|k'|g|g] run Hr; try done. simpl. unfold run_branches at 1. simpl. rewrite Hm.
    rewrite decide_False; [done|naive_solver].
  - intros [k'|k'|g|g]; [by rewrite Hs| |by rewrite Hs..].
    simpl. unfold run_branches at 1. simpl. rewrite Hm. destruct (decide (k' = k)) as [->|Hne].
    + by rewrite decide_True, Hk.
    + rewrite decide_False by naive_solver. rewrite Hs; [done|]. congruence.
Qed.

Lemma changes_stages run_id r k (f : option TraceStageView → option TraceStageView) m' step :
  (∀ run k', od_get k' (default [] (m' !! run)) =
     if decide (run = run_id ∧ k' = k) then f (od_get k (run_stages run_id r))
     else od_get k' (run_stages run r)) →
  (∀ c o, c ≠ CStage k → step c o = o) →
  (∀ o, step (CStage k) (VStage <$> o) = VStage <$> f o) →
  changes run_id step r (set_stages m' r).
Proof.
  intros Hm Hs Hk. split; [done|..].
  - intros [k'|k'|g|g] run Hr; try done. simpl. unfold run_stages at 1. simpl. rewrite Hm.
    rewrite decide_False; [done|naive_solver].
  - intros [k'|k'|g|g]; [|by rewrite Hs..].
    simpl. unfold run_stages at 1. simpl. rewrite Hm. destruct (decide (k' = k)) as [->|Hne].
    + by rewrite decide_True, Hk.
    + rewrite decide_False by naive_solver. rewrite Hs; [done|]. congruence.
Qed.

Lemma changes_trans run_id s1 s2 r1 r2 r3 :
  changes run_id s1 r1 r2 → changes run_id s2 r2 r3 → changes run_id (λ c o, s2 c (s1 c o)) r1 r3.
Proof.
  intros [A1 A2 A3] [B1 B2 B3]. split; [congruence|..].
  - intros c run Hr. by rewrite B2, A2.
  - intros c. by rewrite B3, A3.
Qed.

Lemma changes_ext run_id s1 s2 r1 r2 :
  (∀ c o, s1 c o = s2 c o) → changes run_id s1 r1 r2 → changes run_id s2 r1 r2.
Proof. intros Hs [A1 A2 A3]. split; [done|done|]. intros c. by rewrite A3, Hs. Qed.

(** The same registries as far as cells and offsets go. *)
Definition same_cells (r r' : registries) : Prop :=
  _rebuild_offsets r' = _rebuild_offsets r ∧ ∀ c run, cell c run r' = cell c run r.

Lemma changes_same_cells run_id s r1 r1' r2 r2' :
  same_cells r1 r1' → same_cells r2 r2' → changes run_id s r1 r2 → changes run_id s r1' r2'.
Proof.
  intros [O1 C1] [O2 C2] [A1 A2 A3]. split.
  - congruence.
  - intros c run Hr. by rewrite C2, C1, A2.
  - intros c. by rewrite C2, C1, A3.
Qed.

Lemma changes_same run_id r r' :
  _rebuild_offsets r' = _rebuild_offsets r → (∀ c run, cell c run r' = cell c run r) →
  changes run_id (λ _ o, o) r r'.
Proof. intros Ho Hc. by split. Qed.

Definition add_open (g : string) (c : cell_id) (o : option cell_val) : option cell_val :=
  if decide (c = COpenGate g) then Some (default VGate o) else o.
Definition add_resolved (g : string) (c : cell_id) (o : option cell_val) : option cell_val :=
  if decide (c = CResolvedGate g) then Some (default VGate o) else o.

Lemma changes_open_gate run_id g r :
  changes run_id (add_open g) r (set_open_gates (add_gate run_id g (_open_human_gates r)) r).
Proof.
  split; [done|..].
  - intros [k|k|g'|g'] run Hr; try done. simpl. unfold run_open_gates. simpl. rewrite run_add_gate.
    by rewrite (decide_False _ _ Hr).
  - intros [k|k|g'|g']; try done. simpl. unfold run_open_gates, add_open. simpl.
    rewrite run_add_gate, (decide_True _ _ eq_refl). destruct (decide (g' = g)) as [->|Hg].
    + rewrite !decide_True by set_solver. by case_decide.
    + rewrite (decide_False (P:=COpenGate g' = COpenGate g)) by congruence.
      by apply decide_ext; set_solver.
Qed.

Lemma changes_resolved_gate run_id g r :
  changes run_id (add_resolved g) r
    (set_resolved_gates (add_gate run_id g (_resolved_human_gates r)) r).
Proof.
  split; [done|..].
  - intros [k|k|g'|g'] run Hr; try done. simpl. unfold run_resolved_gates. simpl. rewrite run_add_gate.
    by rewrite (decide_False _ _ Hr).
  - intros [k|k|g'|g']; try done. simpl. unfold run_resolved_gates, add_resolved. simpl.
    rewrite run_add_gate, (decide_True _ _ eq_refl). destruct (decide (g' = g)) as [->|Hg].
    + rewrite !decide_True by set_solver. by case_decide.
    + rewrite (decide_False (P:=CResolvedGate g' = CResolvedGate g)) by congruence.
      by apply decide_ext; set_solver.
Qed.

Lemma changes_ensure run_id run r :
  changes run_id (λ _ o, o) r (set_open_gates (ensure_run run (_open_human_gates r)) r).
Proof.
  apply changes_same; [done|]. intros [k|k|g|g] run'; try done. simpl. unfold run_open_gates. simpl.
  by rewrite run_ensure.
Qed.

(** The equations of [merge_event], one per kind of event. *)
Lemma str_or_none_l o : str_or None o = o.
Proof. done. Qed.

Lemma merge_step_other x c o : cellop c x = None → merge_step x c o = o.
Proof. unfold merge_step. by intros ->. Qed.

Lemma changes_add_branch run_id v r :
  changes run_id (merge_step (BranchOpened v)) r
    (set_branches (add_missing run_id (bv_branch_id v) v (_branch_registry r)) r).
Proof.
  apply (changes_branches run_id r (bv_branch_id v)
           (λ o, match o with Some w => Some w | None => Some v end)).
  - intros run k'. rewrite od_get_add_missing. unfold run_branches. cell_cases; naive_solver.
  - intros [k|k|g|g] o Hc; try done. apply merge_step_other. simpl. rewrite decide_False; congruence.
  - intros o. unfold merge_step. simpl. rewrite (decide_True _ _ eq_refl). by destruct o.
Qed.

Lemma changes_add_stage run_id v r :
  changes run_id (merge_step (StageOpened v)) r
    (set_stages (add_missing run_id (gv_stage_id v) v (_stage_registry r)) r).
Proof.
  apply (changes_stages run_id r (gv_stage_id v)
           (λ o, match o with Some w => Some w | None => Some v end)).
  - intros run k'. rewrite od_get_add_missing. unfold run_stages. cell_cases; naive_solver.
  - intros [k|k|g|g] o Hc; try done. apply merge_step_other. simpl. rewrite decide_False; congruence.
  - intros o. unfold merge_step. simpl. rewrite (decide_True _ _ eq_refl). by destruct o.
Qed.

(** An entry replaced by a function of itself. *)
Lemma changes_set_branch run_id k w step r :
  (∀ c o, c ≠ CBranch k → step c o = o) →
  step (CBranch k) (VBranch <$> od_get k (run_branches run_id r)) = Some (VBranch w) →
  changes run_id step r
    (set_branches (<[run_id := od_set k w (run_branches run_id r)]> (_branch_registry r)) r).
Proof.
  intros Hs Hk. split; [done|..].
  - intros [k'|k'|g|g] run Hr; try done. simpl. unfold run_branches at 1. simpl.
    by rewrite run_insert, decide_False.
  - intros [k'|k'|g|g]; [by rewrite Hs| |by rewrite Hs..].
    simpl. unfold run_branches at 1. simpl. rewrite run_insert, (decide_True _ _ eq_refl), od_get_set.
    destruct (decide (k' = k)) as [->|Hne]; [by rewrite Hk|]. rewrite Hs; [done|congruence].
Qed.

Lemma changes_set_stage run_id k w step r :
  (∀ c o, c ≠ CStage k → step c o = o) →
  step (CStage k) (VStage <$> od_get k (run_stages run_id r)) = Some (VStage w) →
  changes run_id step r
    (set_stages (<[run_id := od_set k w (run_stages run_id r)]> (_stage_registry r)) r).
Proof.
  intros Hs Hk. split; [done|..].
  - intros [k'|k'|g|g] run Hr; try done. simpl. unfold run_stages at 1. simpl.
    by rewrite run_insert, decide_False.
  - intros [k'|k'|g|g]; [|by rewrite Hs..].
    simpl. unfold run_stages at 1. simpl. rewrite run_insert, (decide_True _ _ eq_refl), od_get_set.
    destruct (decide (k' = k)) as [->|Hne]; [by rewrite Hk|]. rewrite Hs; [done|congruence].
Qed.

(** A mark on an entry that is not there. *)
Lemma changes_absent run_id c x r u :
  cellop c x = Some (CMark u) → (∀ c', c' ≠ c → cellop c' x = None) → cell c run_id r = None →
  changes run_id (merge_step x) r r.
Proof.
  intros Hx Ho Hc. split; [done|done|]. intros c'. destruct (decide (c' = c)) as [->|Hne].
  - unfold merge_step. by rewrite Hx, Hc.
  - by rewrite merge_step_other by auto.
Qed.

Lemma ok_of_Some {A} (o : outcome A) a : ok_of o = Some a → o = Ok a.
Proof. destruct o; naive_solver. Qed.

Lemma outcome_bind_ok {A B} (o : outcome A) (f : A → outcome B) b :
  o ≫= f = Ok b → ∃ a, o = Ok a ∧ f a = Ok b.
Proof. destruct o; simpl; [eauto|done]. Qed.

Ltac inv_ok :=
  repeat match goal with
  | H : ok_of _ = Some _ |- _ => apply ok_of_Some in H
  | H : _ ≫= _ = Ok _ |- _ => apply outcome_bind_ok in H as (? & ? & ?)
  | H : Ok _ = Ok _ |- _ => injection H as <-
  | H : _ <$> _ = Some _ |- _ => apply fmap_Some in H as (? & ? & ->)
  end.

(** Run a computation whose readings are known. *)
Ltac run_known :=
  unfold lift, gets, modify, mbind, M_bind, mret, M_ret, id;
  repeat match goal with H : ?o = Ok _ |- context [?o] => rewrite H; clear H end.

(** A cell other than the one an operation is about. *)
Ltac other_cell :=
  intros [k'|k'|g'|g'] **; try done; try apply merge_step_other; simpl;
  rewrite decide_False; congruence.

Lemma merge_event_spec run_id ev x r :
  decode ev = Some x →
  ∃ r', merge_event run_id ev r = (Ok tt, r') ∧ changes run_id (merge_step x) r r'.
Proof.
  unfold decode, merge_event. set (p := default [] (ev_payload_json ev)). cbn zeta.
  repeat case_decide; intros Hx; try done.
  - inv_ok. eexists. run_known. split; [done|]. apply changes_add_branch.
  - unfold decode_branch_mark in Hx. inv_ok. run_known.
    destruct (od_get _ (run_branches run_id r)) as [w|] eqn:Hw.
    + run_known. eexists. split; [done|]. apply changes_set_branch; [other_cell|].
      rewrite Hw. unfold merge_step. simpl. by rewrite (decide_True _ _ eq_refl).
    + eexists. split; [done|]. eapply (changes_absent _ (CBranch _)); simpl.
      * by rewrite (decide_True _ _ eq_refl).
      * other_cell.
      * by rewrite Hw.
  - inv_ok. eexists. run_known. split; [done|]. apply changes_add_stage.
  - unfold decode_stage_mark in Hx. inv_ok. run_known.
    destruct (od_get _ (run_stages run_id r)) as [w|] eqn:Hw.
    + run_known. eexists. split; [done|]. apply changes_set_stage; [other_cell|].
      rewrite Hw. unfold merge_step. simpl. by rewrite (decide_True _ _ eq_refl).
    + eexists. split; [done|]. eapply (changes_absent _ (CStage _)); simpl.
      * by rewrite (decide_True _ _ eq_refl).
      * other_cell.
      * by rewrite Hw.
  - inv_ok. run_known. eexists. split; [done|].
    eapply changes_ext, changes_trans; [|apply changes_ensure|apply changes_open_gate].
    intros [k|k|g|g] o; try done. unfold merge_step, add_open. simpl.
    repeat case_decide; simplify_eq; by destruct o.
  - inv_ok. run_known. eexists. split; [done|].
    eapply changes_ext, changes_trans; [|apply changes_ensure|].
    2: eapply changes_trans; [apply changes_open_gate|apply changes_resolved_gate].
    intros [k|k|g|g] o; try done; unfold merge_step, add_open, add_resolved; simpl;
      repeat case_decide; simplify_eq; by destruct o.
Qed.

(** ** Merging a stretch of the log *)
Definition said (events : list RuntimeEvent) : list trace_op := omap decode events.

(** A trace event that a facade wrote. *)
Definition well_said (ev : RuntimeEvent) : Prop :=
  is_trace_event ev = true → is_Some (decode ev) ∨ ev_event_type ev = "trace.escalation_resolved".

Definition run_cells (s : list trace_op) (c : cell_id) (o : option cell_val) : option cell_val :=
  cell_run merge_upd (cellops c s) o.

Lemma decode_trace ev x : decode ev = Some x → is_trace_event ev = true.
Proof.
  unfold decode, is_trace_event. repeat case_decide; intros Hx; try done;
    match goal with H : ev_event_type ev = _ |- _ => by rewrite H end.
Qed.

Lemma cellops_app c s1 s2 : cellops c (s1 ++ s2) = cellops c s1 ++ cellops c s2.
Proof. apply omap_app. Qed.

Lemma cellops_cons c x s :
  cellops c (x :: s) = match cellop c x with Some y => y :: cellops c s | None => cellops c s end.
Proof. done. Qed.

Lemma run_cells_app s1 s2 c o : run_cells (s1 ++ s2) c o = run_cells s2 c (run_cells s1 c o).
Proof. unfold run_cells. by rewrite cellops_app, cell_run_app. Qed.

Lemma run_cells_cons x s c o : run_cells (x :: s) c o = run_cells s c (merge_step x c o).
Proof. unfold run_cells, merge_step, cellops. simpl. by destruct (cellop c x). Qed.

Lemma said_app l1 l2 : said (l1 ++ l2) = said l1 ++ said l2.
Proof. apply omap_app. Qed.

Lemma said_cons e events :
  said (e :: events) = match decode e with Some x => x :: said events | None => said events end.
Proof. done. Qed.

Lemma said_trace events : said (filter (λ e, is_trace_event e = true) events) = said events.
Proof.
  induction events as [|e events IH]; [done|]. rewrite filter_cons.
  destruct (decide (is_trace_event e = true)) as [He|He]; rewrite ?said_cons, IH; [done|].
  destruct (decode e) eqn:Hd; [|done]. by apply decode_trace in Hd.
Qed.

Lemma merge_event_silent run_id ev r :
  ev_event_type ev = "trace.escalation_resolved" → merge_event run_id ev r = (Ok tt, r).
Proof. intros He. unfold merge_event. by rewrite He. Qed.

Lemma silent_decode ev : ev_event_type ev = "trace.escalation_resolved" → decode ev = None.
Proof. intros He. unfold decode. by rewrite He. Qed.

Lemma merge_events_spec run_id events r :
  Forall (λ e, is_trace_event e = true ∧ well_said e) events →
  ∃ r', merge_events run_id events r = (Ok tt, r') ∧ changes run_id (run_cells (said events)) r r'.
Proof.
  revert r. induction events as [|e events IH]; intros r.
  { intros _. exists r. split; [done|]. by apply changes_same. }
  cbn [merge_events]. intros [[He Hw] Hev]%Forall_cons. destruct (Hw He) as [[x Hx]|Hs].
  - destruct (merge_event_spec run_id e x r Hx) as (r1 & Hr1 & Hc).
    destruct (IH r1 Hev) as (r2 & Hr2 & Hc2). exists r2. unfold mbind, M_bind. rewrite Hr1.
    split; [done|]. eapply changes_ext, changes_trans; [|exact Hc|exact Hc2].
    intros c o. by rewrite said_cons, Hx, run_cells_cons.
  - destruct (IH r Hev) as (r2 & Hr2 & Hc2). exists r2. unfold mbind, M_bind.
    rewrite merge_event_silent by done. split; [done|].
    by rewrite said_cons, (silent_decode e Hs).
Qed.

Lemma merge_loaded_spec run_id k events r :
  Forall well_said events →
  ∃ r', merge_loaded run_id k events r = (Ok tt, r') ∧
    _rebuild_offsets r' =
      <[run_id := newest_offset k (filter (λ e, is_trace_event e = true) events)]>
        (_rebuild_offsets r) ∧
    (∀ c run, run ≠ run_id → cell c run r' = cell c run r) ∧
    ∀ c, cell c run_id r' = run_cells (said events) c (cell c run_id r).
Proof.
  intros Hw. unfold merge_loaded.
  destruct (merge_events_spec run_id (filter (λ e, is_trace_event e = true) events) r)
    as (r1 & Hr1 & [Ho Hx Hc]).
  { apply Forall_forall. intros e [He Hin]%list_elem_of_filter. split; [done|].
    by eapply (proj1 (Forall_forall _ _) Hw). }
  eexists. unfold mbind, M_bind, modify. rewrite Hr1. split; [done|]. simpl.
  rewrite Ho. split; [done|]. split.
  - intros c run Hr. rewrite <- (Hx c run Hr). by destruct c.
  - intros c. rewrite <- (said_trace events). rewrite <- Hc. by destruct c.
Qed.

(** ** What an operation does before its first [await] *)
Inductive facade_op :=
  | FOpenStage (stage_id run_id : string) (branch_id : option string)
  | FMarkStage (run_id stage_id new_state : string) (failure_code : option string)
  | FOpenBranch (q : OpenBranchRequest)
  | FMarkBranch (q : BranchStateUpdateRequest)
  | FOpenGate (q : HumanGateRequest)
  | FApprove (q : ApprovalRequest)
  | FResolveEscalation (run_id : string) (notes caused_by : option string).

Definition begin {L S E} (gw : workflow_gateway E) (max_tracked_runs : Z) (op : facade_op)
    : M (facade_world L S E) (option pending) :=
  match op with
  | FOpenStage s r b => p ← begin_open_stage gw max_tracked_runs s r b; mret (Some p)
  | FMarkStage r s st fc => p ← begin_mark_stage gw max_tracked_runs r s st fc; mret (Some p)
  | FOpenBranch q => p ← begin_open_branch gw max_tracked_runs q; mret (Some p)
  | FMarkBranch q => p ← begin_mark_branch max_tracked_runs q; mret (Some p)
  | FOpenGate q => p ← begin_open_gate max_tracked_runs q; mret (Some p)
  | FApprove q => begin_approval max_tracked_runs q
  | FResolveEscalation r n c => p ← begin_resolve_escalation max_tracked_runs r n c; mret (Some p)
  end.

(** The payloads the facade writes. *)
Inductive written : string → pydict → Prop :=
  | written_branch b s t pb pr :
      written "trace.branch_opened"
        [ ("branch_id", PStr b); ("stage_id", PStr s); ("state", PStr "active");
          ("opened_at", PStr t); ("parent_branch_id", opt_str pb); ("proposed_by", opt_str pr) ]
  | written_branch_mark b st fc :
      written "trace.branch_state_changed"
        [ ("branch_id", PStr b); ("new_state", PStr st);
          ("failure_code", opt_str (failure_code_value <$> fc)) ]
  | written_stage s t b :
      written "trace.stage_opened"
        [ ("stage_id", PStr s); ("state", PStr "active"); ("entered_at", PStr t);
          ("branch_id", opt_str b) ]
  | written_stage_mark s st ex fc :
      written "trace.stage_state_changed"
        [ ("stage_id", PStr s); ("new_state", PStr st); ("exited_at", opt_str ex);
          ("failure_code", opt_str fc) ]
  | written_gate g ty :
      written "trace.human_gate_opened" [("gate_ref", PStr g); ("gate_type", PStr ty)]
  | written_resolved g a :
      written "trace.human_gate_resolved" [("gate_ref", PStr g); ("approved", PBool a)]
  | written_escalation n :
      written "trace.escalation_resolved" [("resolution_notes", opt_str n)].

Definition pending_event (p : pending) (event_id now : string) : RuntimeEvent :=
  trace_event (pd_run_id p) event_id (pd_event_type p) now (pd_payload p).
Definition says (p : pending) : option trace_op := decode (pending_event p "" "").

Lemma written_says p event_id now :
  written (pd_event_type p) (pd_payload p) → decode (pending_event p event_id now) = says p.
Proof.
  destruct p as [run sig ty pl]. unfold says, pending_event. simpl. intros Hw.
  by destruct Hw as [? ? ? [] []|? ? []|? ? []|? ? [] []| | |].
Qed.

Lemma written_well_said e :
  (∃ p event_id now, written (pd_event_type p) (pd_payload p) ∧
     ev_event_type e = ev_event_type (pending_event p event_id now) ∧
     decode e = decode (pending_event p event_id now)) → well_said e.
Proof.
  intros (p & i & now & Hw & Ht & Hd) _. rewrite Hd, Ht. unfold pending_event. simpl.
  destruct p as [run sig ty pl]. simpl in *.
  destruct Hw as [? ? ? [] []|? ? []|? ? []|? ? [] []| | |];
    first [by right|left; vm_compute; by eexists].
Qed.

(** The operation on the instance's own registries: an opening overwrites, and
    an approval does not count as an opening. *)
Definition local_upd (u : cell_upd) (v : cell_val) : cell_val :=
  match u, v with
  | UStage st ex fc, VStage w =>
      VStage (move_stage st (str_or ex (gv_exited_at w)) (or_existing fc (gv_failure_code w)) w)
  | UBranch st fc, VBranch w =>
      VBranch (move_branch st (or_existing fc (bv_failure_code w)) w)
  | _, _ => v
  end.

Definition local_step (x : trace_op) (c : cell_id) (o : option cell_val) : option cell_val :=
  match x, c with
  | GateResolved _, COpenGate _ => o
  | _, _ =>
      match cellop c x with
      | Some (COpen VGate) => Some (default VGate o)
      | Some (COpen v) => Some v
      | Some (CMark u) => local_upd u <$> o
      | None => o
      end
  end.

Definition local_effect (p : pending) (r r' : registries) : Prop :=
  match says p with
  | Some x =>
      changes (pd_run_id p) (local_step x) r r' ∧
      ∀ c u, cellop c x = Some (CMark u) → is_Some (cell c (pd_run_id p) r)
  | None => changes (pd_run_id p) (λ _ o, o) r r'
  end.

(** Some runs may have been evicted, and nothing else has changed. *)
Definition purged (r r' : registries) : Prop :=
  ∀ run,
    (_rebuild_offsets r' !! run = _rebuild_offsets r !! run ∧ ∀ c, cell c run r' = cell c run r) ∨
    (_rebuild_offsets r' !! run = None ∧ ∀ c, cell c run r' = None).

Lemma purged_refl r : purged r r.
Proof. by left. Qed.

Lemma purged_trans r1 r2 r3 : purged r1 r2 → purged r2 r3 → purged r1 r3.
Proof.
  intros H1 H2 run. destruct (H2 run) as [[E2 C2]|[E2 C2]]; [|by right].
  destruct (H1 run) as [[E1 C1]|[E1 C1]].
  - left. split; [congruence|]. intros c. by rewrite C2.
  - right. split; [congruence|]. intros c. by rewrite C2.
Qed.

Lemma purge_purged run_id r : purged r (_purge_run_state run_id r).
Proof.
  intros run. destruct (decide (run = run_id)) as [->|Hr]; [right|left]; split; simpl;
    rewrite ?lookup_delete_eq, ?lookup_delete_ne by done; try done;
    intros [k|k|g|g]; simpl; unfold run_stages, run_branches, run_open_gates, run_resolved_gates;
    simpl; rewrite ?lookup_delete_eq, ?lookup_delete_ne by done; done.
Qed.

Lemma evict_while_purged max order f f' :
  evict_while max order f = Some f' → purged (fc_registries f) (fc_registries f').
Proof.
  revert f. induction order as [|oldest order IH]; intros f; simpl; case_match; try done;
    try (intros [= <-]; apply purged_refl).
  intros Hf'. eapply purged_trans, IH, Hf'. apply purge_purged.
Qed.

Section local.
Context {L S E : Type} (gw : workflow_gateway E) (max_tracked_runs : Z).
Abbreviation W := (facade_world L S E).
Implicit Types w : W.

Definition regs w : registries := fc_registries (fw_facade w).

Lemma wp_registries {A} (m : M registries A) Q Ex w :
  wp m (λ a r, Q a (FacadeWorld (set_registries r (fw_facade w)) (fw_event_log w)
                      (fw_dedupe_store w) (fw_context_adapter w) (fw_checkpoint_adapter w)
                      (fw_drain_coordinator w) (fw_task_registry w) (fw_env w)))
       (λ e r, Ex e (FacadeWorld (set_registries r (fw_facade w)) (fw_event_log w)
                      (fw_dedupe_store w) (fw_context_adapter w) (fw_checkpoint_adapter w)
                      (fw_drain_coordinator w) (fw_task_registry w) (fw_env w))) (regs w) →
  wp (on_registries m) Q Ex w.
Proof. intros H. apply wp_zoom, wp_zoom. exact H. Qed.

Lemma get_registries_spec (Q : registries → W → Prop) Ex w :
  Q (regs w) w → wp (on_registries (gets id)) Q Ex w.
Proof. intros HQ. destruct w as [[]]. exact HQ. Qed.

Lemma touch_spec run_id w Q Ex :
  (∀ w', fw_event_log w' = fw_event_log w → purged (regs w) (regs w') → Q tt w') →
  (∀ e w', fw_event_log w' = fw_event_log w → purged (regs w) (regs w') → Ex e w') →
  wp (touch_run max_tracked_runs run_id) Q Ex w.
Proof.
  intros HQ HE. apply wp_zoom. unfold _touch_run. apply wp_bind, wp_gets. simpl.
  case_decide; [apply HQ; [done|apply purged_refl]|].
  destruct (evict_while _ _ _) as [f'|] eqn:Hf.
  - apply wp_modify, HQ; [done|]. by apply evict_while_purged in Hf.
  - apply wp_raise, HE; [done|apply purged_refl].
Qed.

Lemma utc_now_spec w Q Ex :
  (∀ t w', fw_event_log w' = fw_event_log w → fw_facade w' = fw_facade w → Q t w') →
  wp (utc_now gw) Q Ex w.
Proof.
  intros HQ. unfold utc_now. apply wp_zoom. unfold wp. destruct (gw_utc_now gw (fw_env w)).
  by apply HQ.
Qed.

(** Replacing one registry's entry, as the operations do. *)
Lemma local_step_other x c o : cellop c x = None → local_step x c o = o.
Proof. unfold local_step. intros ->. by destruct x, c. Qed.

Lemma local_set_stage run_id k v x r :
  (∀ c, c ≠ CStage k → cellop c x = None) →
  local_step x (CStage k) (VStage <$> od_get k (run_stages run_id r)) = Some (VStage v) →
  changes run_id (local_step x) r
    (set_stages (<[run_id := od_set k v (run_stages run_id r)]> (_stage_registry r)) r).
Proof.
  intros Ho Hx. apply changes_set_stage; [|done]. intros c o Hc. by apply local_step_other, Ho.
Qed.

Lemma local_set_branch run_id k v x r :
  (∀ c, c ≠ CBranch k → cellop c x = None) →
  local_step x (CBranch k) (VBranch <$> od_get k (run_branches run_id r)) = Some (VBranch v) →
  changes run_id (local_step x) r
    (set_branches (<[run_id := od_set k v (run_branches run_id r)]> (_branch_registry r)) r).
Proof.
  intros Ho Hx. apply changes_set_branch; [|done]. intros c o Hc. by apply local_step_other, Ho.
Qed.

(** The one cell of an operation. *)
Ltac own_cell := unfold local_step; simpl; rewrite (decide_True _ _ eq_refl); simpl.

(** The world after a change of the registries. *)
Ltac on_regs := apply wp_registries; simpl.

Definition began w (p : option pending) w' : Prop :=
  fw_event_log w' = fw_event_log w ∧ ∃ r1, purged (regs w) r1 ∧
  match p with
  | Some p => written (pd_event_type p) (pd_payload p) ∧ local_effect p r1 (regs w')
  | None => r1 = regs w'
  end.
Definition not_begun w (_ : exn) w' : Prop :=
  fw_event_log w' = fw_event_log w ∧ purged (regs w) (regs w').

Lemma begin_open_stage_spec s r b w :
  wp (begin_open_stage gw max_tracked_runs s r b) (λ p, began w (Some p)) (not_begun w) w.
Proof.
  unfold begin_open_stage. apply wp_bind, touch_spec; [|done]. intros w1 Hl1 Hp1.
  apply wp_bind, utc_now_spec. intros t w2 Hl2 Hf2. apply wp_bind. on_regs.
  apply wp_modify. simpl. apply wp_ret. unfold began, regs. simpl. rewrite Hl2, Hl1, Hf2.
  split; [done|]. exists (regs w1). split; [done|]. split; [apply written_stage|].
  unfold local_effect. destruct b; simpl; (split; [|by intros [] u; simpl; try case_decide]);
    (apply local_set_stage; [other_cell|by own_cell]).
Qed.

Lemma begin_open_branch_spec q w :
  wp (begin_open_branch gw max_tracked_runs q) (λ p, began w (Some p)) (not_begun w) w.
Proof.
  unfold begin_open_branch. apply wp_bind, touch_spec; [|done]. intros w1 Hl1 Hp1.
  apply wp_bind, utc_now_spec. intros t w2 Hl2 Hf2. apply wp_bind. on_regs.
  apply wp_modify. simpl. apply wp_ret. unfold began, regs. simpl. rewrite Hl2, Hl1, Hf2.
  split; [done|]. exists (regs w1). split; [done|]. split; [apply written_branch|].
  destruct q as [? ? ? [] []]; unfold local_effect; simpl;
    (split; [|by intros [] u; simpl; try case_decide]);
    (apply local_set_branch; [other_cell|by own_cell]).
Qed.

Lemma begin_mark_stage_spec run_id s st fc w :
  wp (begin_mark_stage gw max_tracked_runs run_id s st fc) (λ p, began w (Some p))
    (not_begun w) w.
Proof.
  unfold begin_mark_stage. apply wp_bind, touch_spec; [|done]. intros w1 Hl1 Hp1.
  apply wp_bind, get_registries_spec.
  destruct (od_get s (run_stages run_id (regs w1))) as [v|] eqn:Hv; [|by apply wp_raise].
  apply wp_bind.
  apply (wp_mono _ (λ _ w2, fw_event_log w2 = fw_event_log w1 ∧ regs w2 = regs w1)
                   _ (λ _ _, False)); [|intros ex w2 [Hl2 Hf2]|done].
  { case_decide; [|by apply wp_ret]. apply wp_bind, utc_now_spec. intros t w2 Hl2 Hf2.
    apply wp_ret. unfold regs. simpl. by rewrite Hl2, Hf2. }
  apply wp_bind. on_regs. apply wp_modify. simpl. apply wp_ret. unfold began. simpl.
  rewrite Hl2, Hf2. split; [done|]. exists (regs w1). split; [done|].
  split; [apply written_stage_mark|].
  unfold local_effect. destruct ex, fc; simpl;
    (split; [apply local_set_stage; [other_cell|own_cell; by rewrite Hv]|]);
    intros [k|k|g|g] u Hu; simpl in Hu |- *; try done; case_decide; try done; subst; rewrite Hv; eauto.
Qed.

Lemma begin_mark_branch_spec q w :
  wp (begin_mark_branch max_tracked_runs q) (λ p, began w (Some p)) (not_begun w) w.
Proof.
  unfold begin_mark_branch. apply wp_bind, touch_spec; [|done]. intros w1 Hl1 Hp1.
  apply wp_bind, get_registries_spec.
  destruct (od_get (bu_branch_id q) (run_branches (bu_run_id q) (regs w1))) as [v|] eqn:Hv;
    [|by apply wp_raise].
  apply wp_bind. on_regs. apply wp_modify. simpl. apply wp_ret. unfold began. simpl.
  split; [done|]. exists (regs w1). split; [done|].
  split; [apply written_branch_mark|]. destruct q as [run b st [fc|] rn]; unfold local_effect; simpl in *;
    (split; [apply local_set_branch; [other_cell|own_cell; by rewrite Hv]|]);
    intros [k|k|g|g] u Hu; simpl in Hu |- *; try done; case_decide; try done; subst; rewrite Hv; eauto.
Qed.

Lemma begin_open_gate_spec q w :
  wp (begin_open_gate max_tracked_runs q) (λ p, began w (Some p)) (not_begun w) w.
Proof.
  unfold begin_open_gate. apply wp_bind, touch_spec; [|done]. intros w1 Hl1 Hp1.
  apply wp_bind. on_regs. apply wp_modify. apply wp_bind. on_regs. apply wp_modify. apply wp_ret.
  unfold began. simpl. split; [done|]. exists (regs w1). split; [done|]. split; [apply written_gate|].
  unfold local_effect. simpl. split; [|by intros [] u; simpl; try case_decide].
  apply (changes_same_cells _ _ (regs w1) (regs w1)
    (set_open_gates (add_gate (hg_run_id q) (hg_gate_ref q) (_open_human_gates (regs w1)))
       (regs w1))); [done|by split; [|intros []]|].
  eapply changes_ext, changes_open_gate.
  intros [k|k|g|g] o; try done. unfold add_open, local_step. simpl. repeat case_decide; naive_solver.
Qed.

Lemma begin_approval_spec q w :
  wp (begin_approval max_tracked_runs q) (began w) (not_begun w) w.
Proof.
  unfold begin_approval. apply wp_bind, touch_spec; [|done]. intros w1 Hl1 Hp1.
  apply wp_bind, get_registries_spec. case_decide.
  { apply wp_ret. split; [done|]. by exists (regs w1). }
  apply wp_bind. on_regs. apply wp_modify. apply wp_bind. on_regs. apply wp_modify.
  apply wp_bind. on_regs. apply wp_modify. apply wp_ret.
  unfold began. simpl. split; [done|]. exists (regs w1). split; [done|].
  split; [apply written_resolved|].
  unfold local_effect. simpl. split; [|by intros [] u; simpl; try case_decide].
  apply (changes_same_cells _ _ (regs w1) (regs w1)
    (set_resolved_gates (add_gate (ap_run_id q) (ap_approval_ref q)
       (_resolved_human_gates (regs w1))) (regs w1))); [done|by split; [|intros []]|].
  eapply changes_ext, changes_resolved_gate.
  intros [k|k|g|g] o; try done. unfold add_resolved, local_step. simpl.
  repeat case_decide; naive_solver.
Qed.

Theorem begin_spec op w : wp (begin gw max_tracked_runs op) (began w) (not_begun w) w.
Proof.
  destruct op; simpl.
  - apply wp_bind. eapply wp_mono; [apply begin_open_stage_spec| |done]. by intros p w' Hb.
  - apply wp_bind. eapply wp_mono; [apply begin_mark_stage_spec| |done]. by intros p w' Hb.
  - apply wp_bind. eapply wp_mono; [apply begin_open_branch_spec| |done]. by intros p w' Hb.
  - apply wp_bind. eapply wp_mono; [apply begin_mark_branch_spec| |done]. by intros p w' Hb.
  - apply wp_bind. eapply wp_mono; [apply begin_open_gate_spec| |done]. by intros p w' Hb.
  - apply begin_approval_spec.
  - apply wp_bind, wp_bind, touch_spec; [|done]. intros w1 Hl1 Hp1. apply wp_ret, wp_ret. split; [done|].
    exists (regs w1). split; [done|]. split; [apply written_escalation|].
    unfold local_effect. simpl. by apply changes_same.
Qed.
End local.

(** ** Causal sequences

    An entry of a registry is opened once and marked after; gates may be opened
    and resolved at any time. *)
Definition cell_causal (c : cell_id) (l : list (cell_op cell_val cell_upd)) : Prop :=
  match c with
  | CStage _ | CBranch _ => l = [] ∨ ∃ v us, l = COpen v :: map CMark us
  | COpenGate _ | CResolvedGate _ => ∀ x, x ∈ l → x = COpen VGate
  end.
Definition causal (s : list trace_op) : Prop := ∀ c, cell_causal c (cellops c s).
Definition opened (c : cell_id) (s : list trace_op) : Prop := ∃ v, COpen v ∈ cellops c s.

Lemma cellops_elem c x y s : cellop c x = Some y → x ∈ s → y ∈ cellops c s.
Proof. intros Hx Hs. apply list_elem_of_omap. eauto. Qed.

Lemma cellops_subseteq c s s' : s ⊆ s' → cellops c s ⊆ cellops c s'.
Proof. intros Hs y (x & Hx & Hy)%list_elem_of_omap. apply list_elem_of_omap. exists x. auto. Qed.

Lemma opened_mono c s s' : s ⊆ s' → opened c s → opened c s'.
Proof. intros Hs [v Hv]. exists v. by apply (cellops_subseteq c s s' Hs). Qed.

Lemma causal_app_l s1 s2 : causal (s1 ++ s2) → causal s1.
Proof.
  intros Hs c. specialize (Hs c). rewrite cellops_app in Hs. destruct c; simpl in *.
  1,2: destruct Hs as [[-> ?]%app_eq_nil|(v & us & Hs)]; [by left|];
    destruct (cellops _ s1) as [|y l]; [by left|]; right; exists v; injection Hs as -> Hl;
    symmetry in Hl; apply map_eq_app in Hl as (us1 & us2 & -> & <- & _); by exists us1.
  all: intros x Hx; apply Hs; apply elem_of_app; by left.
Qed.

(** A cell that is not opened in a causal sequence does not occur in it. *)
Lemma not_opened_nil c s : causal s → ¬ opened c s → cellops c s = [].
Proof.
  intros Hs Ho. specialize (Hs c). unfold opened in Ho. destruct (cellops c s) as [|y l] eqn:Hl; [done|].
  destruct Ho. destruct c; simpl in Hs.
  1,2: destruct Hs as [?|(v & us & Hv)]; [done|]; simplify_eq; exists v; by left.
  all: exists VGate; rewrite <- (Hs y); by left.
Qed.

(** One more operation anywhere after its entry was opened, or an opening of a
    fresh entry, keeps a sequence causal. *)
Lemma causal_insert_cell c s1 s2 x :
  cell_causal c (cellops c (s1 ++ s2)) →
  match cellop c x with
  | None => True
  | Some (COpen v) =>
      match c with CStage _ | CBranch _ => cellops c (s1 ++ s2) = [] | _ => v = VGate end
  | Some (CMark _) => opened c s1
  end →
  cell_causal c (cellops c (s1 ++ x :: s2)).
Proof.
  rewrite !cellops_app, cellops_cons. unfold opened.
  destruct (cellop c x) as [[v|u]|] eqn:Hx; [| |done].
  - intros Hs Hf. destruct c; simpl in *.
    1,2: apply app_eq_nil in Hf as [-> ->]; right; by exists v, [].
    all: subst v; intros y [Hy|[->|Hy]%elem_of_cons]%elem_of_app; [|done|];
      apply Hs, elem_of_app; auto.
  - intros Hs [v Hv]. destruct c; simpl in Hs; try (by destruct x; simpl in Hx; repeat case_decide).
    1,2: destruct Hs as [[Hs ?]%app_eq_nil|(w & us & Hs)];
      [by rewrite Hs in Hv; apply elem_of_nil in Hv|];
      right; destruct (cellops _ s1) as [|y l]; [by apply elem_of_nil in Hv|];
      injection Hs as -> Hl; symmetry in Hl; apply map_eq_app in Hl as (us1 & us2 & -> & <- & <-);
      exists w, (us1 ++ u :: us2); by rewrite map_app.
Qed.

(** ** Coherence of one instance with the log

    For a run with history [h] and operations [ps] in flight: merging what the
    instance has not seen, and then whatever comes, gives what the whole log
    gives. *)
Definition offset_of (run_id : string) (r : registries) : Z :=
  default 0%Z (_rebuild_offsets r !! run_id).

Record coherent (h : list RuntimeEvent) (ps : list trace_op) (run_id : string) (r : registries)
    : Prop := {
  co_offset : (0 ≤ offset_of run_id r ≤ Z.of_nat (length h))%Z;
  co_cells c s : ps ⊆ s → causal (said h ++ s) →
    run_cells (said (after (offset_of run_id r) h) ++ s) c (cell c run_id r) =
    run_cells (said h ++ s) c None;
  co_opened c : is_Some (cell c run_id r) → opened c (said h ++ ps)
}.

Lemma coherent_same h ps run_id r r' :
  _rebuild_offsets r' !! run_id = _rebuild_offsets r !! run_id →
  (∀ c, cell c run_id r' = cell c run_id r) → coherent h ps run_id r → coherent h ps run_id r'.
Proof.
  intros Ho Hc [H1 H2 H3]. assert (offset_of run_id r' = offset_of run_id r) as Ho'.
  { unfold offset_of. by rewrite Ho. }
  split; [by rewrite Ho'|..].
  - intros c s Hs Hcs. rewrite Ho', Hc. by apply H2.
  - intros c. rewrite Hc. apply H3.
Qed.

Lemma coherent_none h ps run_id r :
  consecutive 1 h → _rebuild_offsets r !! run_id = None → (∀ c, cell c run_id r = None) →
  coherent h ps run_id r.
Proof.
  intros Hh Ho Hc. assert (offset_of run_id r = 0%Z) as Ho'. { unfold offset_of. by rewrite Ho. }
  split; rewrite ?Ho'; [lia|..].
  - intros c s _ _. rewrite Hc, after_all; [done|]. intros e He.
    pose proof (consecutive_ge 1 h e Hh He). lia.
  - intros c. rewrite Hc. by intros [].
Qed.

Lemma coherent_purged h ps run_id r r' :
  consecutive 1 h → purged r r' → coherent h ps run_id r → coherent h ps run_id r'.
Proof.
  intros Hh Hp Hc. destruct (Hp run_id) as [[Ho Hs]|[Ho Hs]].
  - by eapply coherent_same.
  - by apply coherent_none.
Qed.

Lemma coherent_more h ps ps' run_id r : ps ⊆ ps' → coherent h ps run_id r → coherent h ps' run_id r.
Proof.
  intros Hp [H1 H2 H3]. split; [done|..].
  - intros c s Hs. apply H2. by etrans.
  - intros c Hc. eapply opened_mono, H3, Hc. intros x. rewrite !elem_of_app. naive_solver.
Qed.

Lemma said_after k h : said (after k h) ⊆ said h.
Proof.
  intros x (e & He & Hx)%list_elem_of_omap. apply list_elem_of_omap.
  exists e. split; [|done]. by apply list_elem_of_filter in He as [_ He].
Qed.

(** What an operation needs of its caller: an entry is marked after its
    opening is in the log, and opened once; a failure code is not empty. *)
Definition admissible (logged inflight : list trace_op) (x : trace_op) : Prop :=
  match x with
  | StageOpened v => ¬ opened (CStage (gv_stage_id v)) (logged ++ inflight)
  | BranchOpened v => ¬ opened (CBranch (bv_branch_id v)) (logged ++ inflight)
  | StageMarked k _ _ fc => opened (CStage k) logged ∧ fc ≠ Some ""
  | BranchMarked k _ fc => opened (CBranch k) logged ∧ fc ≠ Some ""
  | GateOpened _ | GateResolved _ => True
  end.

Lemma admissible_cell logged inflight x c y :
  admissible logged inflight x → cellop c x = Some y →
  match y with
  | COpen v => match c with CStage _ | CBranch _ => ¬ opened c (logged ++ inflight) | _ => v = VGate end
  | CMark u => opened c logged ∧ ∀ w, local_upd u w = merge_upd u w
  end.
Proof.
  intros Ha Hy. destruct c, x; simpl in Hy; try done; case_decide; simplify_eq/=; try done.
  - destruct Ha as [Ho Hf]. split; [done|]. intros [w|w|]; simpl; try done.
    destruct failure_code as [t|]; simpl; [|done]. rewrite decide_False; [done|congruence].
  - destruct Ha as [Ho Hf]. split; [done|]. intros [w|w|]; simpl; try done.
    destruct failure_code as [t|]; simpl; [|done]. rewrite decide_False; [done|congruence].
Qed.

(** The unseen part of the log and what comes begin with the opening of a
    fresh entry. *)
Lemma opening_first h ps k c s x v :
  causal (said h) → admissible (said h) ps x → cellop c x = Some (COpen v) →
  x ∈ s → causal (said h ++ s) → ∃ l, cellops c (said (after k h) ++ s) = COpen v :: l.
Proof.
  intros Hh Ha Hy Hx Hs. pose proof (admissible_cell _ _ _ _ _ Ha Hy) as Hv.
  pose proof (cellops_elem c x _ s Hy Hx) as Hin. specialize (Hs c).
  assert (Hsub : cellops c (said (after k h) ++ s) ⊆ cellops c (said h ++ s)).
  { apply cellops_subseteq. intros y. rewrite !elem_of_app. pose proof (said_after k h y). naive_solver. }
  assert (Hfresh : ¬ opened c (said h) → cellops c (said (after k h) ++ s) = cellops c s ∧
    cellops c (said h ++ s) = cellops c s).
  { intros Ho. pose proof (not_opened_nil c (said h) Hh Ho) as Hn. rewrite !cellops_app, Hn.
    assert (cellops c (said (after k h)) = []) as ->; [|done]. apply list_nil_subseteq.
    rewrite <- Hn. apply cellops_subseteq, said_after. }
  destruct c; simpl in Hs, Hv.
  1,2: destruct Hfresh as [-> Hf];
    [intros Ho; apply Hv; eapply opened_mono, Ho; intros ?; rewrite elem_of_app; auto|];
    rewrite Hf in Hs; destruct Hs as [Hs|(v' & us & Hs)]; rewrite Hs in Hin |- *;
    [by apply elem_of_nil in Hin|];
    apply elem_of_cons in Hin as [[= ->]|(? & ? & ?)%list_elem_of_fmap]; [by eexists|done].
  all: subst v; destruct (cellops _ (said (after k h) ++ s)) as [|y l] eqn:Hl;
    [rewrite cellops_app in Hl; apply app_eq_nil in Hl as [_ Hl]; rewrite Hl in Hin;
     by apply elem_of_nil in Hin|];
    exists l; f_equal; apply Hs, Hsub; by left.
Qed.

(** The local update is absorbed by any sequence in which the operation comes. *)
Lemma local_absorbed h ps run_id r x c s :
  coherent h ps run_id r → causal (said h) → admissible (said h) ps x →
  (∀ c u, cellop c x = Some (CMark u) → is_Some (cell c run_id r)) →
  x ∈ s → causal (said h ++ s) →
  run_cells (said (after (offset_of run_id r) h) ++ s) c (local_step x c (cell c run_id r)) =
  run_cells (said (after (offset_of run_id r) h) ++ s) c (cell c run_id r).
Proof.
  intros Hco Hh Ha Hm Hx Hs. destruct (cellop c x) as [[v|u]|] eqn:Hy.
  - pose proof (admissible_cell _ _ _ _ _ Ha Hy) as Hv.
    destruct (opening_first h ps (offset_of run_id r) c s x v Hh Ha Hy Hx Hs) as [l Hl].
    unfold run_cells. rewrite Hl. unfold local_step. rewrite Hy.
    destruct (cell c run_id r) as [w|] eqn:Hw; [|by destruct v, x, c].
    destruct c.
    1,2: destruct Hv; apply (co_opened _ _ _ _ Hco); by rewrite Hw.
    all: subst v; by destruct x.
  - destruct (Hm c u Hy) as [w Hw]. rewrite Hw.
    pose proof (admissible_cell _ _ _ _ _ Ha Hy) as [_ Hu].
    assert (local_step x c (Some w) = Some (merge_upd u w)) as ->.
    { unfold local_step. rewrite Hy. simpl. rewrite Hu. destruct x, c; try done.
      simpl in Hy. by case_decide. }
    apply (absorb_mark merge_upd (sim:=upd_sim)). eapply cellops_elem; [done|].
    apply elem_of_app. by right.
  - unfold local_step. rewrite Hy. by destruct x, c.
Qed.

(** *** Coherence is kept *)
Lemma coherent_begin h ps run_id r r' x :
  coherent h ps run_id r → causal (said h) → admissible (said h) ps x →
  (∀ c u, cellop c x = Some (CMark u) → is_Some (cell c run_id r)) →
  changes run_id (local_step x) r r' → coherent h (x :: ps) run_id r'.
Proof.
  intros Hco Hh Ha Hm [Ho _ Hc].
  assert (offset_of run_id r' = offset_of run_id r) as Ho'. { unfold offset_of. by rewrite Ho. }
  split; rewrite ?Ho'; [apply (co_offset _ _ _ _ Hco)|..].
  - intros c s Hs Hcs. rewrite Hc, (local_absorbed h ps) by
      (try done; apply Hs; by left).
    apply (co_cells _ _ _ _ Hco); [|done]. intros y Hy. apply Hs. by right.
  - intros c. rewrite Hc. destruct (cellop c x) as [[v|u]|] eqn:Hy.
    + intros _. exists v. apply (cellops_elem c x); [done|]. apply elem_of_app. right. by left.
    + intros _. destruct (admissible_cell _ _ _ _ _ Ha Hy) as [Hop _].
      eapply opened_mono, Hop. intros y. rewrite elem_of_app. auto.
    + replace (local_step x c (cell c run_id r)) with (cell c run_id r)
        by (unfold local_step; rewrite Hy; by destruct x, c).
      intros Hs. eapply opened_mono, (co_opened _ _ _ _ Hco), Hs.
      intros y. rewrite !elem_of_app, elem_of_cons. naive_solver.
Qed.

Lemma coherent_append h events us ps run_id r :
  consecutive 1 (h ++ events) → said events = us → coherent h (us ++ ps) run_id r →
  coherent (h ++ events) ps run_id r.
Proof.
  intros Hcons Hu [H1 H2 H3].
  apply consecutive_app in Hcons as [_ Hev].
  assert (after (offset_of run_id r) (h ++ events) = after (offset_of run_id r) h ++ events) as Haf.
  { unfold after. rewrite filter_app. f_equal. apply after_all. intros e He.
    pose proof (consecutive_ge _ _ e Hev He). lia. }
  split.
  - rewrite length_app. lia.
  - intros c s Hs Hc. rewrite Haf, !said_app, Hu, <- !app_assoc in *. apply H2; [|done].
    intros y. rewrite !elem_of_app. specialize (Hs y). naive_solver.
  - intros c Hc. rewrite said_app, Hu, <- app_assoc. by apply H3.
Qed.

Lemma newest_offset_spec k events :
  (k ≤ newest_offset k events)%Z ∧
  (∀ e, e ∈ events → (ev_commit_offset e ≤ newest_offset k events)%Z) ∧
  (newest_offset k events = k ∨ ∃ e, e ∈ events ∧ newest_offset k events = ev_commit_offset e).
Proof.
  unfold newest_offset. revert k. induction events as [|e events IH]; intros k; simpl.
  - split; [lia|]. split; [by intros e ?%elem_of_nil|by left].
  - destruct (IH (Z.max k (ev_commit_offset e))) as (H1 & H2 & H3). split; [lia|]. split.
    + intros e' [->|He']%elem_of_cons; [lia|auto].
    + destruct H3 as [H3|(e' & He' & H3)].
      * destruct (Z.max_spec k (ev_commit_offset e)) as [[? Hm]|[? Hm]]; rewrite Hm in H3 |- *;
          [right|left; done]. exists e. split; [by left|done].
      * right. exists e'. split; [by right|done].
Qed.

Lemma consecutive_below n l e :
  consecutive n l → e ∈ l → (ev_commit_offset e < n + Z.of_nat (length l))%Z.
Proof.
  revert n. induction l as [|e' l IH]; intros n; simpl; [by intros _ ?%elem_of_nil|].
  intros [<- Hl] [->|He]%elem_of_cons; [lia|]. specialize (IH _ Hl He). lia.
Qed.

Lemma run_cells_opened s c : is_Some (run_cells s c None) → opened c s.
Proof.
  unfold run_cells, opened. induction (cellops c s) as [|[v|u] l IH]; simpl; [by intros []|..].
  - intros _. exists v. by left.
  - intros Hl. destruct (IH Hl) as [v Hv]. exists v. by right.
Qed.

(** Past its new offset the log says nothing to an instance that has rebuilt. *)
Lemma said_after_rebuild k h :
  said (after (newest_offset k (filter (λ e, is_trace_event e = true) (after k h))) h) = [].
Proof.
  destruct (newest_offset_spec k (filter (λ e, is_trace_event e = true) (after k h))) as (Hk & Hm & _).
  set (m := newest_offset _ _) in *. apply list_nil_subseteq. intros x (e & He & Hx)%list_elem_of_omap.
  apply list_elem_of_filter in He as [Hem He].
  assert (ev_commit_offset e ≤ m)%Z; [|lia]. apply Hm, list_elem_of_filter.
  split; [by eapply decode_trace|]. apply list_elem_of_filter. split; [lia|done].
Qed.

Lemma coherent_rebuild h ps run_id r :
  consecutive 1 h → Forall well_said h → coherent h ps run_id r →
  ∃ r', merge_loaded run_id (offset_of run_id r) (after (offset_of run_id r) h) r = (Ok tt, r') ∧
    coherent h ps run_id r' ∧
    (∀ run, run ≠ run_id → _rebuild_offsets r' !! run = _rebuild_offsets r !! run ∧
       ∀ c, cell c run r' = cell c run r) ∧
    (ps = [] → causal (said h) → ∀ c, cell c run_id r' = run_cells (said h) c None).
Proof.
  intros Hcons Hw Hco.
  destruct (merge_loaded_spec run_id (offset_of run_id r) (after (offset_of run_id r) h) r)
    as (r' & Hr' & Ho & Hx & Hc).
  { apply Forall_forall. intros e [_ He]%list_elem_of_filter. by eapply (proj1 (Forall_forall _ _) Hw). }
  exists r'. split; [done|].
  set (m := newest_offset (offset_of run_id r) (filter (λ e, is_trace_event e = true)
              (after (offset_of run_id r) h))) in *.
  assert (offset_of run_id r' = m) as Ho'. { unfold offset_of. by rewrite Ho, lookup_insert_eq. }
  destruct Hco as [Hoff Hcells Hop]. split; [split; rewrite ?Ho'|].
  - unfold m. destruct (newest_offset_spec (offset_of run_id r) (filter (λ e, is_trace_event e = true)
      (after (offset_of run_id r) h))) as (? & _ & [->|(e & He & ->)]); [done|].
    apply list_elem_of_filter in He as [_ He]. apply list_elem_of_filter in He as [? He].
    pose proof (consecutive_below 1 h e Hcons He). lia.
  - intros c s Hs Hcs. unfold m. rewrite said_after_rebuild, Hc. simpl. rewrite <- run_cells_app. auto.
  - intros c. rewrite Hc. destruct (cell c run_id r) as [w|] eqn:Hcell.
    + intros _. apply Hop. by rewrite Hcell.
    + intros Hs. apply run_cells_opened in Hs. eapply opened_mono, Hs.
      intros y Hy. apply elem_of_app. left. by apply said_after in Hy.
  - split.
    + intros run Hr. split; [by rewrite Ho, lookup_insert_ne|]. intros c. by apply Hx.
    + intros -> Hca c. rewrite Hc. specialize (Hcells c []). rewrite !app_nil_r in Hcells.
      apply Hcells; [done|done].
Qed.

(** ** The network

    Instances that share the log [l]; an operation in flight has updated its
    instance and is still to be sent and appended. *)
Class TraceLogLaws (L : Type) `{EventLogLaws L} := {
  law_normal_type e : ev_event_type (el_normal e) = ev_event_type e;
  law_normal_trace e payload :
    ev_payload_json e = Some payload → written (ev_event_type e) payload →
    decode (el_normal e) = decode e
}.

Record network (L S E : Type) := Network {
  nt_facades : list (facade_world L S E);
  nt_log : L;
  nt_pending : list (nat * pending)
}.
Arguments Network {L S E}.
Arguments nt_facades {L S E}.
Arguments nt_log {L S E}.
Arguments nt_pending {L S E}.

Definition with_log {L S E} (l : L) (w : facade_world L S E) : facade_world L S E :=
  FacadeWorld (fw_facade w) (Some l) (fw_dedupe_store w) (fw_context_adapter w)
    (fw_checkpoint_adapter w) (fw_drain_coordinator w) (fw_task_registry w) (fw_env w).

(** What is said by the operations on a run that are in flight. *)
Definition inflight (run_id : string) (ps : list (nat * pending)) : list trace_op :=
  omap (λ ip, if decide (pd_run_id ip.2 = run_id) then says ip.2 else None) ps.

Definition pending_admissible {L} `{EventLogLaws L} (l : L) (ps : list (nat * pending))
    (p : pending) : Prop :=
  match says p with
  | Some x => admissible (said (el_history l (pd_run_id p))) (inflight (pd_run_id p) ps) x
  | None => True
  end.

(** The log releases no run, not even the one it appends to. *)
Definition keeps {L} `{EventLogLaws L} (run_id : string) (l l' : L) : Prop :=
  ∀ run, run = run_id ∨ el_history l run ≠ [] → el_history l' run ≠ [].

Section network.
Context {L S E : Type} `{EventLogLaws L} `{DedupeStorePort S}.
Context (gw : workflow_gateway E) (max_tracked_runs : Z).

Inductive net_step : network L S E → network L S E → Prop :=
  | net_start ws l ps w :
      fw_facade w = new_facade →
      net_step (Network ws l ps) (Network (ws ++ [w]) l ps)
  | net_begin i ws l ps w op p w' :
      ws !! i = Some w → begin gw max_tracked_runs op (with_log l w) = (Ok (Some p), w') →
      net_step (Network ws l ps) (Network (<[i:=w']> ws) l ((i, p) :: ps))
  | net_idle i ws l ps w op o w' :
      (* an approval submitted before, or an operation that raises *)
      ws !! i = Some w → begin gw max_tracked_runs op (with_log l w) = (o, w') →
      (∀ p, o ≠ Ok (Some p)) →
      net_step (Network ws l ps) (Network (<[i:=w']> ws) l ps)
  | net_finish i ws l ps1 ps2 p w w' l' :
      ws !! i = Some w → finish gw p (with_log l w) = (Ok tt, w') →
      fw_event_log w' = Some l' → keeps (pd_run_id p) l l' →
      net_step (Network ws l (ps1 ++ (i, p) :: ps2)) (Network (<[i:=w']> ws) l' (ps1 ++ ps2))
  | net_rebuild i ws l ps w run_id o w' l' :
      ws !! i = Some w → _rebuild_trace_state_from_events run_id (with_log l w) = (o, w') →
      fw_event_log w' = Some l' →
      net_step (Network ws l ps) (Network (<[i:=w']> ws) l' ps)
  | net_cleanup i ws l ps w run_id :
      ws !! i = Some w →
      net_step (Network ws l ps)
        (Network (<[i := FacadeWorld (cleanup_completed_run run_id (fw_facade w)) (fw_event_log w)
                          (fw_dedupe_store w) (fw_context_adapter w) (fw_checkpoint_adapter w)
                          (fw_drain_coordinator w) (fw_task_registry w) (fw_env w)]> ws) l ps)
  | net_other i ws l ps w w' :
      (* the other operations leave the registries alone *)
      ws !! i = Some w → fc_registries (fw_facade w') = fc_registries (fw_facade w) →
      net_step (Network ws l ps) (Network (<[i:=w']> ws) l ps)
  | net_commit ws l ps c ref l' :
      (* a commit of the run actor *)
      el_append c l = (Ok ref, l') → keeps (cm_run_id c) l l' →
      Forall (λ e, is_trace_event e = false) (cm_events c) →
      net_step (Network ws l ps) (Network ws l' ps).

(** The network takes whatever request a caller makes.  The callers keep the
    discipline of the trace when a run's stage or branch is opened once over
    all the instances, is marked only after its opening is in the log, and no
    mark carries an empty failure code ([admissible]); gates are free. *)
Definition disciplined (n n' : network L S E) : Prop :=
  ∀ i p, nt_pending n' = (i, p) :: nt_pending n →
    pending_admissible (nt_log n) (nt_pending n) p.

Definition kept_step (n n' : network L S E) : Prop := net_step n n' ∧ disciplined n n'.

Record net_ok (n : network L S E) : Prop := {
  no_log : el_ok (nt_log n);
  no_said run : Forall well_said (el_history (nt_log n) run);
  no_written i p : (i, p) ∈ nt_pending n → written (pd_event_type p) (pd_payload p);
  no_causal run s : s ≡ₚ inflight run (nt_pending n) →
    causal (said (el_history (nt_log n) run) ++ s);
  no_coherent i w run : nt_facades n !! i = Some w →
    coherent (el_history (nt_log n) run) (inflight run (nt_pending n)) run
      (fc_registries (fw_facade w))
}.

(** *** What a step does to the log *)
Lemma inflight_cons run_id i p ps :
  inflight run_id ((i, p) :: ps) =
  (if decide (pd_run_id p = run_id) then option_list (says p) else []) ++ inflight run_id ps.
Proof. unfold inflight. simpl. case_decide; [|done]. by destruct (says p). Qed.

Lemma inflight_perm run_id i p ps1 ps2 :
  inflight run_id (ps1 ++ (i, p) :: ps2) ≡ₚ
  (if decide (pd_run_id p = run_id) then option_list (says p) else []) ++ inflight run_id (ps1 ++ ps2).
Proof.
  rewrite <- (inflight_cons run_id i). unfold inflight. apply omap_Permutation. symmetry. apply Permutation_middle.
Qed.

Lemma appended c ref l l' :
  el_ok l → el_append c l = (Ok ref, l') → keeps (cm_run_id c) l l' →
  el_ok l' ∧ ∀ run, el_history l' run = el_history l run ++
    (if decide (run = cm_run_id c)
     then renumber (Z.of_nat (length (el_history l run)) + 1) (map el_normal (cm_events c)) else []).
Proof.
  intros Hok Ha Hk. pose proof (law_append c l Hok) as HL. rewrite Ha in HL. destruct HL as [Hok' HL].
  split; [done|]. intros run. destruct (HL run) as [Hn|?]; [|done].
  destruct (decide (run = cm_run_id c)) as [->|Hr]; [by destruct (Hk (cm_run_id c)); auto|].
  destruct (el_history l run) as [|e h] eqn:Hh; [by rewrite Hn|].
  destruct (Hk run); [right; by rewrite Hh|done].
Qed.

Definition appended_by (p : pending) (l : L) (w w' : facade_world L S E) : Prop :=
  fw_facade w' = fw_facade w ∧
  ∃ event_id now c ref l', el_append c l = (Ok ref, l') ∧ fw_event_log w' = Some l' ∧
    cm_run_id c = pd_run_id p ∧ cm_events c = [pending_event p event_id now].

Lemma env_spec {A} (f : E → A * E) (w : facade_world L S E) Q Ex :
  (∀ a w', fw_event_log w' = fw_event_log w → fw_facade w' = fw_facade w → Q a w') →
  wp (on_gw (λ e, let '(a, e') := f e in (Ok a, e'))) Q Ex w.
Proof. intros HQ. apply wp_zoom. unfold wp. destruct (f (fw_env w)). by apply HQ. Qed.

Lemma finish_spec p l w :
  wp (finish gw p) (λ _, appended_by p l w) (λ _ _, True) (with_log l w).
Proof.
  unfold finish. apply wp_bind.
  apply (wp_mono _ (λ _ w1, fw_event_log w1 = Some l ∧ fw_facade w1 = fw_facade w) _ (λ _ _, True));
    [|intros [] w1 [Hl1 Hf1]|done].
  { apply wp_zoom. unfold wp. by destruct (signal_workflow _ _ _ _) as [[]]. }
  apply wp_bind, wp_gets. unfold id. rewrite Hl1.
  apply wp_bind, env_spec. intros now w2 Hl2 Hf2. apply wp_bind, env_spec. intros i w3 Hl3 Hf3.
  apply wp_bind, env_spec. intros k w4 Hl4 Hf4. apply wp_bind, wp_zoom. unfold wp, when_some.
  rewrite Hl4, Hl3, Hl2, Hl1. destruct (el_append _ l) as [[ref|e] l'] eqn:Ha; [|done].
  cbn. split; [simpl; congruence|]. exists i, now. eexists. exists ref, l'. split; [exact Ha|done].
Qed.

Lemma rebuild_trace_spec run_id l (w w' : facade_world L S E) o l' :
  el_ok l → _rebuild_trace_state_from_events run_id (with_log l w) = (o, w') →
  fw_event_log w' = Some l' →
  el_ok l' ∧ (∀ run, el_history l' run = el_history l run) ∧
  (fw_facade w' = fw_facade w ∨
   ∃ r', (o, r') = merge_loaded run_id (offset_of run_id (fc_registries (fw_facade w)))
             (after (offset_of run_id (fc_registries (fw_facade w))) (el_history l run_id))
             (fc_registries (fw_facade w)) ∧
         fw_facade w' = set_registries r' (fw_facade w)).
Proof.
  intros Hok Hr Hl'. unfold _rebuild_trace_state_from_events, gets, id, mbind, M_bind in Hr.
  simpl in Hr. fold (offset_of run_id (fc_registries (fw_facade w))) in Hr.
  unfold on_event_log, zoom, when_some in Hr. simpl in Hr.
  pose proof (law_load run_id (offset_of run_id (fc_registries (fw_facade w))) l Hok) as HL.
  destruct (el_load _ _ l) as [[events|e] l1]; destruct HL as (Hok1 & Hh & Hev).
  - rewrite (Hev _ eq_refl) in Hr. unfold on_registries, on_facade, zoom in Hr. simpl in Hr.
    destruct (merge_loaded _ _ _ _) as [o1 r1] eqn:Hm. simplify_eq/=. split; [done|]. split; [done|].
    right. by exists r1.
  - simplify_eq/=. split; [done|]. split; [done|]. by left.
Qed.

(** *** Every step keeps the network coherent *)
Lemma begun_coherent h ps p r r1 r' run i :
  consecutive 1 h → causal (said h) → purged r r1 →
  match says p with
  | Some x => pd_run_id p = run → admissible (said h) (inflight run ps) x
  | None => True
  end →
  local_effect p r1 r' →
  coherent h (inflight run ps) run r → coherent h (inflight run ((i, p) :: ps)) run r'.
Proof.
  intros Hh Hca Hp Ha Hl Hco. apply (coherent_purged _ _ _ _ r1) in Hco; [|done|done].
  rewrite inflight_cons. unfold local_effect in Hl. destruct (says p) as [x|]; simpl.
  - destruct Hl as [Hl Hm]. destruct (decide (pd_run_id p = run)) as [<-|Hr]; simpl.
    + by eapply coherent_begin; [..|apply Ha|exact Hm|exact Hl].
    + eapply coherent_same, Hco; [by rewrite (ch_offsets _ _ _ _ Hl)|].
      intros c. by apply (ch_others _ _ _ _ Hl).
  - replace ((if decide (pd_run_id p = run) then [] else []) ++ inflight run ps)
      with (inflight run ps) by (by case_decide).
    eapply coherent_same, Hco; [by rewrite (ch_offsets _ _ _ _ Hl)|].
    intros c. destruct (decide (run = pd_run_id p)) as [->|Hr];
      [apply (ch_run _ _ _ _ Hl)|by apply (ch_others _ _ _ _ Hl)].
Qed.

Lemma begun_causal h ps p run i s :
  causal (said h) → (∀ s, s ≡ₚ inflight run ps → causal (said h ++ s)) →
  match says p with
  | Some x => pd_run_id p = run → admissible (said h) (inflight run ps) x
  | None => True
  end →
  s ≡ₚ inflight run ((i, p) :: ps) → causal (said h ++ s).
Proof.
  intros Hh Hca Ha. rewrite inflight_cons. destruct (decide (pd_run_id p = run)) as [Hr|Hr]; [|apply Hca].
  destruct (says p) as [x|]; simpl; [|apply Hca]. intros Hs.
  assert (x ∈ s) as Hx by (rewrite Hs; by left).
  apply list_elem_of_split in Hx as (s1 & s2 & ->).
  assert (s1 ++ s2 ≡ₚ inflight run ps) as Hs12.
  { eapply Permutation_cons_inv. rewrite <- Hs. apply Permutation_middle. }
  intros c. rewrite app_assoc. apply causal_insert_cell.
  - rewrite <- app_assoc. by apply Hca.
  - rewrite <- app_assoc. destruct (cellop c x) as [[v|u]|] eqn:Hy; [| |done];
      pose proof (admissible_cell _ _ _ _ _ (Ha Hr) Hy) as Hv.
    + assert (¬ opened c (said h ++ inflight run ps) → cellops c (said h ++ s1 ++ s2) = []) as Hf.
      { intros Ho. apply not_opened_nil; [by apply Hca|]. intros Ho'. apply Ho.
        eapply opened_mono, Ho'. intros y. by rewrite Hs12. }
      destruct c; auto.
    + destruct Hv as [Ho _]. eapply opened_mono, Ho. intros y. rewrite elem_of_app. auto.
Qed.

Lemma appended_coherent h e us ps ps' run r :
  consecutive 1 (h ++ e) → said e = us → ps ≡ₚ us ++ ps' →
  coherent h ps run r → coherent (h ++ e) ps' run r.
Proof.
  intros Hc Hs Hp Hco. eapply coherent_append; [done|exact Hs|].
  eapply coherent_more, Hco. intros y. by rewrite Hp.
Qed.

Lemma appended_causal h e us ps ps' s :
  said e = us → ps ≡ₚ us ++ ps' → (∀ s, s ≡ₚ ps → causal (said h ++ s)) →
  s ≡ₚ ps' → causal (said (h ++ e) ++ s).
Proof.
  intros He Hp Hca Hs. rewrite said_app, He, <- app_assoc. apply Hca. by rewrite Hp, Hs.
Qed.

Lemma no_causal_said n run : net_ok n → causal (said (el_history (nt_log n) run)).
Proof. intros [_ _ _ Hca _]. by eapply causal_app_l, Hca. Qed.

(** The instance that takes a step, and the others. *)
Lemma facades_insert (P : facade_world L S E → Prop) i (ws : list (facade_world L S E)) w' :
  (∀ j w, ws !! j = Some w → P w) → P w' → ∀ j w, <[i:=w']> ws !! j = Some w → P w.
Proof.
  intros Hws Hw' j w Hj. destruct (decide (i = j)) as [->|Hij].
  - destruct (decide (j < length ws)) as [Hlt|Hge].
    + rewrite list_lookup_insert_eq in Hj by done. by simplify_eq.
    + rewrite list_insert_ge in Hj by lia. eauto.
  - rewrite list_lookup_insert_ne in Hj by done. eauto.
Qed.

Lemma begin_ok i ws l ps w op p w' :
  net_ok (Network ws l ps) → ws !! i = Some w →
  begin gw max_tracked_runs op (with_log l w) = (Ok (Some p), w') → pending_admissible l ps p →
  net_ok (Network (<[i:=w']> ws) l ((i, p) :: ps)).
Proof.
  intros Hok Hi Hb Ha. pose proof (begin_spec gw max_tracked_runs op (with_log l w)) as Hs.
  unfold wp in Hs. rewrite Hb in Hs. destruct Hs as (_ & r1 & Hp & Hw & Hl).
  pose proof (λ run, no_causal_said _ run Hok) as Hca. destruct Hok as [Hl0 Hsd Hwr Hcau Hco]. simpl in *.
  assert (∀ run, match says p with
    | Some x => pd_run_id p = run → admissible (said (el_history l run)) (inflight run ps) x
    | None => True end) as Ha'.
  { intros run. unfold pending_admissible in Ha. destruct (says p); [|done]. by intros <-. }
  split; cbn [nt_log nt_facades nt_pending]; [done|done|..].
  - intros j q [[= -> ->]|Hq]%elem_of_cons; eauto.
  - intros run s. apply (begun_causal _ _ _ _ i); [apply Hca|apply Hcau|apply Ha'].
  - intros j wj run. revert j wj.
    apply (facades_insert (λ w, coherent _ _ run (fc_registries (fw_facade w)))).
    + intros k wk Hk. eapply coherent_more, Hco, Hk. rewrite inflight_cons. intros y.
      rewrite elem_of_app. auto.
    + eapply begun_coherent; [by apply law_numbered|apply Hca|exact Hp|apply Ha'|exact Hl|]. exact (Hco i w run Hi).
Qed.

Lemma insert_ok i ws l ps w w' :
  net_ok (Network ws l ps) → ws !! i = Some w →
  purged (fc_registries (fw_facade w)) (fc_registries (fw_facade w')) →
  net_ok (Network (<[i:=w']> ws) l ps).
Proof.
  intros [Hl0 Hsd Hwr Hcau Hco] Hi Hp. simpl in *. split; simpl; try done.
  intros j wj run. revert j wj.
  apply (facades_insert (λ w, coherent _ _ run (fc_registries (fw_facade w)))); [intros j wj; apply Hco|].
  eapply coherent_purged; [by apply law_numbered|exact Hp|]. by eapply Hco.
Qed.

Lemma idle_ok i ws l ps w op o w' :
  net_ok (Network ws l ps) → ws !! i = Some w →
  begin gw max_tracked_runs op (with_log l w) = (o, w') → (∀ p, o ≠ Ok (Some p)) →
  net_ok (Network (<[i:=w']> ws) l ps).
Proof.
  intros Hok Hi Hb Ho. eapply insert_ok; [done|exact Hi|].
  pose proof (begin_spec gw max_tracked_runs op (with_log l w)) as Hs. unfold wp in Hs. rewrite Hb in Hs.
  destruct o as [[p|]|e]; [by destruct (Ho p)| |].
  - by destruct Hs as (_ & r1 & Hp & ->).
  - by destruct Hs as [_ Hp].
Qed.

(** A commit in the log, of an operation in flight or of the run actor. *)
Lemma commit_ok ws l ps ps' c ref l' :
  net_ok (Network ws l ps) → el_append c l = (Ok ref, l') → keeps (cm_run_id c) l l' →
  (∀ i p, (i, p) ∈ ps' → (i, p) ∈ ps) →
  (∀ n, Forall well_said (renumber n (map el_normal (cm_events c)))) →
  (∀ run n, inflight run ps ≡ₚ
     (if decide (run = cm_run_id c) then said (renumber n (map el_normal (cm_events c))) else [])
     ++ inflight run ps') →
  net_ok (Network ws l' ps').
Proof.
  intros [Hl0 Hsd Hwr Hcau Hco] Ha Hk Hps Hws Hin. simpl in *.
  destruct (appended c ref l l' Hl0 Ha Hk) as [Hl' Hh]. split; simpl.
  - done.
  - intros run. rewrite Hh. apply Forall_app. split; [done|]. by case_decide.
  - eauto.
  - intros run s Hs. rewrite Hh.
    eapply appended_causal; [done| |apply Hcau|exact Hs].
    rewrite Hin. by case_decide.
  - intros i w run Hi. pose proof (law_numbered l' run Hl') as Hn. rewrite Hh in Hn |- *.
    eapply appended_coherent; [done|done| |by eapply Hco]. rewrite Hin. by case_decide.
Qed.


Context `{!TraceLogLaws L}.

(** The event of an operation as the log stores it. *)
Lemma stored_said p event_id now n :
  written (pd_event_type p) (pd_payload p) →
  decode (stored_event (el_normal (pending_event p event_id now)) n) = says p ∧
  well_said (stored_event (el_normal (pending_event p event_id now)) n).
Proof.
  intros Hw. set (e := pending_event p event_id now).
  assert (decode (stored_event (el_normal e) n) = decode e) as Hd.
  { change (decode (el_normal e) = decode e). by apply (law_normal_trace e (pd_payload p)). }
  split; [rewrite Hd; by apply written_says|]. apply written_well_said.
  exists p, event_id, now. split; [done|]. split; [apply (law_normal_type e)|done].
Qed.

Lemma finish_ok i ws l ps1 ps2 p w w' l' :
  net_ok (Network ws l (ps1 ++ (i, p) :: ps2)) → ws !! i = Some w →
  finish gw p (with_log l w) = (Ok tt, w') → fw_event_log w' = Some l' → keeps (pd_run_id p) l l' →
  net_ok (Network (<[i:=w']> ws) l' (ps1 ++ ps2)).
Proof.
  intros Hok Hi Hf Hl' Hk. pose proof (finish_spec p l w) as Hs. unfold wp in Hs. rewrite Hf in Hs.
  destruct Hs as (Hfc & e & now & c & ref & l1 & Ha & Hl1 & Hr & Hev). simplify_eq.
  assert (written (pd_event_type p) (pd_payload p)) as Hw.
  { eapply (no_written _ Hok i). apply elem_of_app. right. by left. }
  apply (insert_ok i ws l' (ps1 ++ ps2) w w'); [|done|rewrite Hfc; apply purged_refl].
  eapply commit_ok; [exact Hok|exact Ha|by rewrite Hr|..].
  - intros j q. rewrite !elem_of_app, elem_of_cons. naive_solver.
  - intros n. rewrite Hev. apply Forall_singleton, stored_said, Hw.
  - intros run n. rewrite inflight_perm, Hev, Hr. cbn [map renumber].
    rewrite said_cons. destruct (stored_said p e now n Hw) as [-> _].
    destruct (decide (pd_run_id p = run)); destruct (decide (run = pd_run_id p)); try congruence.
    all: by destruct (says p).
Qed.

Lemma actor_commit_ok ws l ps c ref l' :
  net_ok (Network ws l ps) → el_append c l = (Ok ref, l') → keeps (cm_run_id c) l l' →
  Forall (λ e, is_trace_event e = false) (cm_events c) → net_ok (Network ws l' ps).
Proof.
  intros Hok Ha Hk Hn.
  assert (∀ n e, e ∈ renumber n (map el_normal (cm_events c)) → is_trace_event e = false) as Hq.
  { induction Hn as [|e es He Hes IH]; simpl; [by intros n e ?%elem_of_nil|].
    intros n e' [->|He']%elem_of_cons; [|by eapply IH].
    unfold is_trace_event in *. simpl. by rewrite (law_normal_type e). }
  assert (∀ n, said (renumber n (map el_normal (cm_events c))) = []) as Hs.
  { intros n. apply list_nil_subseteq. intros x (e & He & Hx)%list_elem_of_omap.
    apply Hq in He. apply decode_trace in Hx. congruence. }
  eapply commit_ok; [exact Hok|exact Ha|exact Hk|done|..].
  - intros n. apply Forall_forall. intros e He Ht. apply Hq in He. congruence.
  - intros run n. rewrite Hs. by case_decide.
Qed.

Lemma rebuild_ok i ws l ps w run_id o w' l' :
  net_ok (Network ws l ps) → ws !! i = Some w →
  _rebuild_trace_state_from_events run_id (with_log l w) = (o, w') → fw_event_log w' = Some l' →
  net_ok (Network (<[i:=w']> ws) l' ps).
Proof.
  intros Hok Hi Hr Hl'.
  destruct (rebuild_trace_spec run_id l w w' o l' (no_log _ Hok) Hr Hl') as (Hok' & Hh & Hw).
  assert (net_ok (Network ws l' ps)) as Hnet.
  { destruct Hok as [Hl0 Hsd Hwr Hcau Hco]. simpl in *. split; simpl; [done|..].
    - intros run. by rewrite Hh.
    - done.
    - intros run s. rewrite Hh. apply Hcau.
    - intros j wj run. rewrite Hh. apply Hco. }
  destruct Hw as [Hw|(r' & Hm & Hw)].
  { eapply insert_ok; [done|exact Hi|]. rewrite Hw. apply purged_refl. }
  destruct Hnet as [Hl0 Hsd Hwr Hcau Hco]. simpl in *. split; simpl; try done.
  intros j wj run. revert j wj.
  apply (facades_insert (λ w, coherent _ _ run (fc_registries (fw_facade w)))); [intros j wj; apply Hco|].
  rewrite Hw. simpl. rewrite <- (Hh run_id) in Hm.
  destruct (coherent_rebuild (el_history l' run_id) (inflight run_id ps) run_id
              (fc_registries (fw_facade w))) as (r1 & Hr1 & Hc1 & Hx & _).
  { by apply law_numbered. } { apply Hsd. } { by eapply Hco. }
  rewrite Hr1 in Hm. injection Hm as _ ->.
  destruct (decide (run = run_id)) as [->|Hrun]; [done|].
  destruct (Hx run Hrun) as [Ho Hc]. eapply coherent_same; [exact Ho|exact Hc|]. by eapply Hco.
Qed.

Lemma kept_step_ok n n' : net_ok n → kept_step n n' → net_ok n'.
Proof.
  intros Hok [Hs Hd]. destruct Hs.
  - destruct Hok as [Hl0 Hsd Hwr Hcau Hco]. simpl in *. split; simpl; try done.
    intros j wj run [Hj|[Hlen Hj]]%lookup_app_Some; [by eapply Hco|].
    apply list_lookup_singleton_Some in Hj as [_ <-].
    match goal with Hn : fw_facade _ = new_facade |- _ => rewrite Hn end.
    apply coherent_none; [by apply law_numbered|done|]. by intros [].
  - eapply begin_ok; [done|done|done|]. by apply (Hd i p).
  - by eapply idle_ok.
  - by eapply finish_ok.
  - by eapply rebuild_ok.
  - eapply insert_ok; [done|done|]. apply purge_purged.
  - eapply insert_ok; [done|done|].
    match goal with Hn : fc_registries _ = fc_registries _ |- _ => rewrite Hn end.
    apply purged_refl.
  - by eapply actor_commit_ok.
Qed.

(** Everything starts with a lawful log in which no facade has written. *)
Definition net_starts (n : network L S E) : Prop :=
  nt_facades n = [] ∧ nt_pending n = [] ∧ el_ok (nt_log n) ∧
  ∀ run, Forall (λ e, is_trace_event e = false) (el_history (nt_log n) run).

Lemma net_starts_ok n : net_starts n → net_ok n.
Proof.
  destruct n as [ws l ps]. unfold net_starts. simpl. intros (-> & -> & Hl & Hh). split; simpl.
  - done.
  - intros run. eapply Forall_impl; [apply Hh|]. intros e He Ht. congruence.
  - by intros i p ?%elem_of_nil.
  - intros run s Hs. apply Permutation_nil_r in Hs as ->. rewrite app_nil_r.
    assert (said (el_history l run) = []) as ->.
    { apply list_nil_subseteq. intros x (e & He & Hx)%list_elem_of_omap.
      eapply Forall_forall in He; [|apply Hh]. apply decode_trace in Hx. congruence. }
    intros []; simpl; [by left|by left|by intros x ?%elem_of_nil|by intros x ?%elem_of_nil].
  - done.
Qed.

Lemma reachable_ok n n' : net_starts n → rtc kept_step n n' → net_ok n'.
Proof.
  intros Hs Hr. assert (net_ok n) as Hok by by apply net_starts_ok. clear Hs.
  induction Hr; [done|]. eauto using kept_step_ok.
Qed.

(** ** The theorem *)
Definition same_trace (run_id : string) (r r' : registries) : Prop :=
  (∀ k, od_get k (run_stages run_id r) = od_get k (run_stages run_id r')) ∧
  (∀ k, od_get k (run_branches run_id r) = od_get k (run_branches run_id r')) ∧
  run_open_gates run_id r = run_open_gates run_id r' ∧
  run_resolved_gates run_id r = run_resolved_gates run_id r'.

Lemma cells_same_trace run_id r r' :
  (∀ c, cell c run_id r = cell c run_id r') → same_trace run_id r r'.
Proof.
  intros Hc. split; [|split; [|split]].
  - intros k. specialize (Hc (CStage k)). simpl in Hc.
    destruct (od_get k (run_stages run_id r)), (od_get k (run_stages run_id r')); simpl in Hc; congruence.
  - intros k. specialize (Hc (CBranch k)). simpl in Hc.
    destruct (od_get k (run_branches run_id r)), (od_get k (run_branches run_id r')); simpl in Hc; congruence.
  - apply set_eq. intros g. specialize (Hc (COpenGate g)). simpl in Hc. repeat case_decide; naive_solver.
  - apply set_eq. intros g. specialize (Hc (CResolvedGate g)). simpl in Hc.
    repeat case_decide; naive_solver.
Qed.

(** The load of a rebuild succeeds. *)
Definition load_ok (run_id : string) (l : L) (w : facade_world L S E) : bool :=
  is_ok (el_load run_id (offset_of run_id (fc_registries (fw_facade w))) l).1.

Lemma rebuild_denotes n run_id i w :
  net_ok n → inflight run_id (nt_pending n) = [] → nt_facades n !! i = Some w →
  load_ok run_id (nt_log n) w = true →
  let '(o, w') := _rebuild_trace_state_from_events run_id (with_log (nt_log n) w) in
  o = Ok tt ∧ ∀ c, cell c run_id (fc_registries (fw_facade w')) =
    run_cells (said (el_history (nt_log n) run_id)) c None.
Proof.
  intros Hok Hq Hi Hl. pose proof (no_causal_said n run_id Hok) as Hca.
  destruct Hok as [Hl0 Hsd _ _ Hco].
  unfold load_ok in Hl. unfold _rebuild_trace_state_from_events, gets, id, mbind, M_bind. simpl.
  fold (offset_of run_id (fc_registries (fw_facade w))).
  unfold on_event_log, zoom, when_some. simpl.
  pose proof (law_load run_id (offset_of run_id (fc_registries (fw_facade w))) (nt_log n) Hl0) as HL.
  destruct (el_load _ _ _) as [[events|e] l1]; [|done]. destruct HL as (_ & _ & Hev).
  rewrite (Hev _ eq_refl). unfold on_registries, on_facade, zoom. simpl.
  change (from_option (λ x : Z, x) 0%Z (_rebuild_offsets (fc_registries (fw_facade w)) !! run_id))
    with (offset_of run_id (fc_registries (fw_facade w))).
  destruct (coherent_rebuild (el_history (nt_log n) run_id) (inflight run_id (nt_pending n)) run_id
              (fc_registries (fw_facade w))) as (r1 & Hr1 & _ & _ & Hc).
  { by apply law_numbered. } { apply Hsd. } { by eapply Hco. }
  rewrite Hr1. simpl. split; [done|]. by apply Hc.
Qed.
End network.

(** C14: facades that share a lawful event log converge when their callers
    open a run's stage or branch once over all the instances, mark it only
    after its opening is in the log and pass no empty failure code.  Whatever
    operations, rebuilds, evictions, clean-ups and starts of instances and
    commits of the run actor came before in any interleaving in which no
    signal and no append was lost, once nothing on a run is in flight any two
    instances that rebuild it hold the same stages, branches and gates: what
    the log says.  [facades_diverge] shows that each of the three conditions
    is needed. *)
Theorem facades_converge {L S E : Type} `{DedupeStorePort S} `{EventLogLaws L} `{!TraceLogLaws L}
    (gw : workflow_gateway E) (max_tracked_runs : Z) (n0 n : network L S E) (run_id : string)
    (i j : nat) (wi wj : facade_world L S E)
    (Hstart : net_starts n0) (Hreach : rtc (kept_step gw max_tracked_runs) n0 n)
    (Hquiet : inflight run_id (nt_pending n) = [])
    (Hi : nt_facades n !! i = Some wi) (Hj : nt_facades n !! j = Some wj)
    (Hli : load_ok run_id (nt_log n) wi = true) (Hlj : load_ok run_id (nt_log n) wj = true) :
  let '(oi, wi') := _rebuild_trace_state_from_events run_id (with_log (nt_log n) wi) in
  let '(oj, wj') := _rebuild_trace_state_from_events run_id (with_log (nt_log n) wj) in
  oi = Ok tt ∧ oj = Ok tt ∧
  same_trace run_id (fc_registries (fw_facade wi')) (fc_registries (fw_facade wj')) ∧
  ∀ c, cell c run_id (fc_registries (fw_facade wi')) =
    run_cells (said (el_history (nt_log n) run_id)) c None.
Proof.
  pose proof (reachable_ok gw max_tracked_runs n0 n Hstart Hreach) as Hok.
  pose proof (rebuild_denotes n run_id i wi Hok Hquiet Hi Hli) as Hwi.
  pose proof (rebuild_denotes n run_id j wj Hok Hquiet Hj Hlj) as Hwj.
  destruct (_rebuild_trace_state_from_events run_id (with_log (nt_log n) wi)) as [oi wi'].
  destruct (_rebuild_trace_state_from_events run_id (with_log (nt_log n) wj)) as [oj wj'].
  destruct Hwi as [-> Hci], Hwj as [-> Hcj]. do 3 (split; [try done|]); [|done].
  apply cells_same_trace. intros c. by rewrite Hci, Hcj.
Qed.

(** Both logs keep what a facade writes. *)
#[export] Instance in_memory_trace_log : TraceLogLaws InMemoryKernelRuntimeEventLog.t.
Proof. by split. Qed.

#[export] Instance sqlite_trace_log : TraceLogLaws SQLiteKernelRuntimeEventLog.t.
Proof.
  split; [done|]. intros e payload He Hw.
  destruct e; simpl in He, Hw. subst.
  by inversion Hw as [? ? ? [] []|? ? []|? ? []|? ? [] []| | |[]]; subst; vm_compute.
Qed.

(** ** Executable histories *)
Section execute.
Context {L S E : Type} `{EventLogLaws L} `{DedupeStorePort S}.
Context (gw : workflow_gateway E) (max_tracked_runs : Z).
Implicit Types n : network L S E.

Definition fresh (w : facade_world L S E) : facade_world L S E :=
  FacadeWorld new_facade (fw_event_log w) (fw_dedupe_store w) (fw_context_adapter w)
    (fw_checkpoint_adapter w) (fw_drain_coordinator w) (fw_task_registry w) (fw_env w).

Inductive choice :=
  | PickStart (w : facade_world L S E)
  | PickBegin (i : nat) (op : facade_op)
  | PickFinish (* the operation in flight that began last *)
  | PickRebuild (i : nat) (run_id : string).

Definition at_facade {A} (n : network L S E) (i : nat) (d : A)
    (f : facade_world L S E → A) : A :=
  match nt_facades n !! i with Some w => f w | None => d end.

Definition execute (c : choice) n : network L S E :=
  let l := nt_log n in
  match c with
  | PickStart w => Network (nt_facades n ++ [fresh w]) l (nt_pending n)
  | PickBegin i op =>
      at_facade n i n (λ w,
        match begin gw max_tracked_runs op (with_log l w) with
        | (Ok (Some p), w') => Network (<[i:=w']> (nt_facades n)) l ((i, p) :: nt_pending n)
        | (_, w') => Network (<[i:=w']> (nt_facades n)) l (nt_pending n)
        end)
  | PickFinish =>
      match nt_pending n with
      | [] => n
      | (i, p) :: ps =>
          at_facade n i n (λ w,
            let w' := (finish gw p (with_log l w)).2 in
            Network (<[i:=w']> (nt_facades n)) (default l (fw_event_log w')) ps)
      end
  | PickRebuild i run_id =>
      at_facade n i n (λ w,
        let w' := (_rebuild_trace_state_from_events run_id (with_log l w)).2 in
        Network (<[i:=w']> (nt_facades n)) (default l (fw_event_log w')) (nt_pending n))
  end.

(** What makes the choice a step. *)
Definition legal (c : choice) n : Prop :=
  let l := nt_log n in
  match c with
  | PickStart w => True
  | PickBegin i op => at_facade n i False (λ _, True)
  | PickFinish =>
      match nt_pending n with
      | [] => False
      | (i, p) :: ps =>
          at_facade n i False (λ w,
            let '(o, w') := finish gw p (with_log l w) in
            o = Ok tt ∧ match fw_event_log w' with
                        | Some l' => keeps (pd_run_id p) l l'
                        | None => False
                        end)
      end
  | PickRebuild i run_id =>
      at_facade n i False (λ w,
        is_Some (fw_event_log (_rebuild_trace_state_from_events run_id (with_log l w)).2))
  end.

(** What keeps it within the callers' discipline. *)
Definition polite (c : choice) n : Prop :=
  match c with
  | PickBegin i op =>
      at_facade n i True (λ w,
        match begin gw max_tracked_runs op (with_log (nt_log n) w) with
        | (Ok (Some p), _) => pending_admissible (nt_log n) (nt_pending n) p
        | _ => True
        end)
  | _ => True
  end.

Lemma execute_net_step c n : legal c n → net_step gw max_tracked_runs n (execute c n).
Proof.
  destruct n as [ws l ps]. destruct c as [w|i op| |i run_id]; unfold legal, execute, at_facade; simpl.
  - intros _. by apply net_start.
  - destruct (ws !! i) as [w|] eqn:Hi; [|done]. intros _.
    destruct (begin gw max_tracked_runs op (with_log l w)) as [[[p|]|e] w'] eqn:Hb.
    + by eapply net_begin.
    + by eapply net_idle.
    + by eapply net_idle.
  - destruct ps as [|[i p] ps]; [done|]. destruct (ws !! i) as [w|] eqn:Hi; [|done].
    destruct (finish gw p (with_log l w)) as [o w'] eqn:Hf. intros [-> Hl]. simpl.
    destruct (fw_event_log w') as [l'|] eqn:Hl'; [|done].
    by apply (net_finish gw max_tracked_runs i ws l [] ps p w).
  - destruct (ws !! i) as [w|] eqn:Hi; [|done].
    destruct (_rebuild_trace_state_from_events run_id (with_log l w)) as [o w'] eqn:Hr. simpl.
    intros [l' Hl']. rewrite Hl'. simpl. by eapply net_rebuild.
Qed.

(** An operation that completes or a rebuild begins nothing. *)
Lemma nothing_begins (n n' : network L S E) :
  length (nt_pending n') ≤ length (nt_pending n) → disciplined n n'.
Proof. intros Hlen i p Hp. rewrite Hp in Hlen. simpl in Hlen. lia. Qed.

Lemma execute_kept_step c n :
  legal c n → polite c n → kept_step gw max_tracked_runs n (execute c n).
Proof.
  intros Hl Hp. split; [by apply execute_net_step|]. clear Hl. revert Hp.
  destruct n as [ws l ps]. destruct c as [w|i op| |i run_id]; unfold polite, execute, at_facade; simpl.
  - intros _. by apply nothing_begins.
  - destruct (ws !! i) as [w|]; [|intros _; by apply nothing_begins].
    destruct (begin gw max_tracked_runs op (with_log l w)) as [[[p|]|e] w'];
      [|intros _; by apply nothing_begins..].
    by intros Hp j q [= -> ->].
  - intros _. destruct ps as [|[i p] ps]; [by apply nothing_begins|].
    apply nothing_begins. destruct (ws !! i); simpl; lia.
  - intros _. apply nothing_begins. by destruct (ws !! i).
Qed.

Fixpoint all_along (P : choice → network L S E → Prop) (cs : list choice) n : Prop :=
  match cs with
  | [] => True
  | c :: cs => P c n ∧ all_along P cs (execute c n)
  end.

Lemma execute_reaches (R : relation (network L S E)) (P : choice → network L S E → Prop) cs n :
  (∀ c n, P c n → R n (execute c n)) → all_along P cs n →
  rtc R n (fold_left (λ n c, execute c n) cs n).
Proof.
  intros HP. revert n. induction cs as [|c cs IH]; intros n; simpl; [done|].
  intros [Hc Hcs]. eapply rtc_l; [by apply HP|]. by apply IH.
Qed.
End execute.

(** A gateway that accepts every signal, over a clock that stands still. *)
Definition quiet_gateway : workflow_gateway unit :=
  {| gw_signal := {| ga_signal_workflow := Some (λ _ _, mret true); ga_signal_run := None |};
     gw_start_workflow _ := mret [("run_id", "run-1")];
     gw_cancel_workflow _ _ := mret tt;
     gw_query_projection run_id := raise (Exn ValueError ("unknown run " +:+ run_id));
     gw_start_child_workflow _ _ := mret [];
     gw_stream_run_events _ := mret [];
     gw_execute_turn _ _ _ := raise (Exn (OtherError "NotImplementedError") "");
     gw_utc_now e := ("2025-01-01T00:00:00+00:00", e);
     gw_uuid4 e := ("id", e) |}.

Definition quiet_world : facade_world InMemoryKernelRuntimeEventLog.t InMemoryDedupeStore.t unit :=
  FacadeWorld new_facade None None None None None None tt.

Definition quiet_network : network InMemoryKernelRuntimeEventLog.t InMemoryDedupeStore.t unit :=
  Network [] InMemoryKernelRuntimeEventLog.__init__ [].

(** The first instance opens a stage, fails it and has a gate approved, the
    second one merges and opens a branch of its own. *)
Definition quiet_history : list choice :=
  [ PickStart quiet_world; PickStart quiet_world;
    PickBegin 0 (FOpenStage "route" "run-1" None); PickFinish;
    PickBegin 0 (FMarkStage "run-1" "route" "failed" (Some "no_progress")); PickFinish;
    PickRebuild 1 "run-1";
    PickBegin 1 (FOpenBranch {| ob_run_id := "run-1"; ob_branch_id := "b"; ob_stage_id := "route";
                                ob_parent_branch_id := None; ob_proposed_by := None |});
    PickBegin 0 (FApprove {| ap_run_id := "run-1"; ap_approval_ref := "g"; ap_approved := true;
                             ap_reviewer_id := "r"; ap_reason := None; ap_caused_by := None |});
    PickFinish; PickFinish ].
Definition quiet_end := fold_left (λ n c, execute quiet_gateway 100 c n) quiet_history quiet_network.

(** *** Deciding that a history is legal *)
#[global] Instance opened_dec c s : Decision (opened c s).
Proof.
  refine (cast_if (decide (existsb (λ y, match y with COpen _ => true | CMark _ => false end)
                             (cellops c s) = true))); unfold opened.
  - destruct (proj1 (existsb_exists _ _) e) as (y & Hy & Ho).
    destruct y as [v|]; [|done]. exists v. by apply list_elem_of_In.
  - intros [v Hv]. apply n. apply existsb_exists. exists (COpen v). by rewrite <- list_elem_of_In.
Defined.

#[global] Instance admissible_dec logged infl x : Decision (admissible logged infl x).
Proof. destruct x; simpl; apply _. Defined.

Section decide_legal.
Abbreviation Log := InMemoryKernelRuntimeEventLog.t.
Abbreviation Net := (network Log InMemoryDedupeStore.t unit).

Definition history_present (l : Log) (run_id : string) : bool :=
  match el_history l run_id with [] => false | _ => true end.
Definition keepsb (run_id : string) (l l' : Log) : bool :=
  forallb (history_present l')
    (run_id :: filter (λ k, history_present l k = true)
                 (map fst (InMemoryKernelRuntimeEventLog._events_by_run l))).

Lemma keepsb_keeps run_id l l' : keepsb run_id l l' = true → keeps run_id l l'.
Proof.
  unfold keepsb. rewrite forallb_forall. intros Hf run Hrun.
  assert (history_present l' run = true) as Hp.
  { apply Hf. destruct Hrun as [->|Hrun]; [by left|]. right. apply list_elem_of_In.
    apply list_elem_of_filter. simpl in Hrun. unfold history_present. simpl.
    unfold InMemoryKernelRuntimeEventLog.history in *.
    destruct (od_get run (InMemoryKernelRuntimeEventLog._events_by_run l)) as [evs|] eqn:Hg; [|done].
    simpl in *. split; [by destruct evs|]. apply list_elem_of_fmap. exists (run, evs).
    split; [done|]. by apply od_get_elem. }
  unfold history_present in Hp. intros Hn. by rewrite Hn in Hp.
Qed.

Definition legalb (gw : workflow_gateway unit) (max_tracked_runs : Z) (c : @choice Log InMemoryDedupeStore.t unit) (n : Net) : bool :=
  let l := nt_log n in
  match c with
  | PickStart w => true
  | PickBegin i op => at_facade n i false (λ _, true)
  | PickFinish =>
      match nt_pending n with
      | [] => false
      | (i, p) :: ps =>
          at_facade n i false (λ w,
            let '(o, w') := finish gw p (with_log l w) in
            is_ok o && match fw_event_log w' with
                       | Some l' => keepsb (pd_run_id p) l l'
                       | None => false
                       end)
      end
  | PickRebuild i run_id =>
      at_facade n i false (λ w,
        match fw_event_log (_rebuild_trace_state_from_events run_id (with_log l w)).2 with
        | Some _ => true | None => false end)
  end.

Definition politeb (gw : workflow_gateway unit) (max_tracked_runs : Z) (c : @choice Log InMemoryDedupeStore.t unit) (n : Net) : bool :=
  match c with
  | PickBegin i op =>
      at_facade n i true (λ w,
        match begin gw max_tracked_runs op (with_log (nt_log n) w) with
        | (Ok (Some p), _) =>
            match says p with
            | Some x => bool_decide (admissible (said (el_history (nt_log n) (pd_run_id p)))
                                       (inflight (pd_run_id p) (nt_pending n)) x)
            | None => true
            end
        | _ => true
        end)
  | _ => true
  end.

Lemma legalb_legal gw max_tracked_runs c n :
  legalb gw max_tracked_runs c n = true → legal gw c n.
Proof.
  destruct c as [w|i op| |i run_id]; unfold legalb, legal, at_facade; [done|..].
  - by destruct (nt_facades n !! i).
  - destruct (nt_pending n) as [|[i p] ps]; [done|]. destruct (nt_facades n !! i) as [w|]; [|done].
    destruct (finish _ _ _) as [[[]|e] w']; [|done]. simpl.
    destruct (fw_event_log w'); [|done]. intros Hk. split; [done|]. by apply keepsb_keeps.
  - destruct (nt_facades n !! i) as [w|]; [|done].
    destruct (fw_event_log _); [|done]. eauto.
Qed.

Lemma politeb_polite gw max_tracked_runs c n :
  politeb gw max_tracked_runs c n = true → polite gw max_tracked_runs c n.
Proof.
  destruct c as [w|i op| |i run_id]; unfold politeb, polite, at_facade; [done| |done..].
  destruct (nt_facades n !! i) as [w|]; [|done].
  destruct (begin _ _ _ _) as [[[p|]|e] w']; [|done|done]. unfold pending_admissible.
  destruct (says p); [|done]. by intros ?%bool_decide_eq_true.
Qed.

Fixpoint all_alongb (gw : workflow_gateway unit) (max_tracked_runs : Z)
    (b : @choice Log InMemoryDedupeStore.t unit → Net → bool)
    (cs : list (@choice Log InMemoryDedupeStore.t unit)) (n : Net) : bool :=
  match cs with
  | [] => true
  | c :: cs => b c n && all_alongb gw max_tracked_runs b cs (execute gw max_tracked_runs c n)
  end.

Lemma all_alongb_all gw max_tracked_runs b (P : choice → Net → Prop) cs n :
  (∀ c n, b c n = true → P c n) → all_alongb gw max_tracked_runs b cs n = true →
  all_along gw max_tracked_runs P cs n.
Proof.
  intros HP. revert n. induction cs as [|c cs IH]; intros n; simpl; [done|].
  intros [Hc Hcs]%andb_prop. split; [by apply HP|]. by apply IH.
Qed.

Lemma legal_reaches gw max_tracked_runs cs n :
  all_alongb gw max_tracked_runs (legalb gw max_tracked_runs) cs n = true →
  rtc (net_step gw max_tracked_runs) n (fold_left (λ n c, execute gw max_tracked_runs c n) cs n).
Proof.
  intros Hl. eapply execute_reaches; [intros c m; apply execute_net_step|].
  by eapply all_alongb_all, Hl; intros c m; apply legalb_legal.
Qed.

Definition kept_choice (gw : workflow_gateway unit) (max_tracked_runs : Z) (c : @choice Log InMemoryDedupeStore.t unit) (n : Net) : bool :=
  legalb gw max_tracked_runs c n && politeb gw max_tracked_runs c n.

Lemma kept_reaches gw max_tracked_runs cs n :
  all_alongb gw max_tracked_runs (kept_choice gw max_tracked_runs) cs n = true →
  rtc (kept_step gw max_tracked_runs) n (fold_left (λ n c, execute gw max_tracked_runs c n) cs n).
Proof.
  intros Hl. eapply (execute_reaches _ _ _ (λ c n, legal gw c n ∧ polite gw max_tracked_runs c n)).
  - intros c m [Hc Hp]. by apply execute_kept_step.
  - eapply all_alongb_all, Hl. intros c m [Hc Hp]%andb_prop.
    split; [by eapply legalb_legal|by eapply politeb_polite].
Qed.
End decide_legal.

Lemma facades_converge_witness :
  match nt_facades quiet_end with
  | [wi; wj] =>
      let '(oi, wi') := _rebuild_trace_state_from_events "run-1" (with_log (nt_log quiet_end) wi) in
      let '(oj, wj') := _rebuild_trace_state_from_events "run-1" (with_log (nt_log quiet_end) wj) in
      same_trace "run-1" (fc_registries (fw_facade wi')) (fc_registries (fw_facade wj'))
  | _ => False
  end.
Proof.
  assert (Hl : all_alongb quiet_gateway 100 (kept_choice quiet_gateway 100) quiet_history quiet_network = true)
    by (vm_compute; reflexivity).
  assert (Hreach : rtc (kept_step quiet_gateway 100) quiet_network quiet_end).
  { unfold quiet_end. exact (kept_reaches quiet_gateway 100 quiet_history quiet_network Hl). }
  assert (Hq : match nt_facades quiet_end with
               | [wi; wj] =>
                   match inflight "run-1" (nt_pending quiet_end) with [] => true | _ => false end
                   && load_ok "run-1" (nt_log quiet_end) wi && load_ok "run-1" (nt_log quiet_end) wj
               | _ => false
               end = true) by (vm_compute; reflexivity).
  clear Hl. revert Hreach Hq. generalize quiet_end. intros n Hreach Hq.
  destruct (nt_facades n) as [|wi [|wj [|]]] eqn:Hws; try discriminate Hq.
  apply andb_prop in Hq as [[Hq Hli]%andb_prop Hlj].
  destruct (inflight "run-1" (nt_pending n)) eqn:Hi; try discriminate Hq.
  pose proof (facades_converge quiet_gateway 100 quiet_network n "run-1" 0 1 wi wj) as H.
  destruct (_rebuild_trace_state_from_events "run-1" (with_log (nt_log n) wi)) as [oi wi'].
  destruct (_rebuild_trace_state_from_events "run-1" (with_log (nt_log n) wj)) as [oj wj'].
  apply H; try assumption; [|by rewrite Hws..].
  split; [reflexivity|]. split; [reflexivity|].
  split; [exact InMemoryKernelRuntimeEventLog.wf_init|]. intros run. constructor.
Defined.

(** ** Without the discipline

    The facade takes an id another instance has opened, a mark of a branch
    whose opening is not in the log yet, and an empty failure code, which it
    keeps itself and a rebuild passes over.  A rebuild leaves the entries an
    instance holds as they are and drops a mark that comes before the opening.
    Instances then stay apart though they have merged the whole log. *)
Definition open_b (stage_id : string) : facade_op :=
  FOpenBranch {| ob_run_id := "run-1"; ob_branch_id := "b"; ob_stage_id := stage_id;
                 ob_parent_branch_id := None; ob_proposed_by := None |}.

(** Both instances open the branch, each in a stage of its own. *)
Definition opened_twice : list choice :=
  [ PickStart quiet_world; PickStart quiet_world;
    PickBegin 0 (open_b "here"); PickBegin 1 (open_b "there"); PickFinish; PickFinish;
    PickRebuild 0 "run-1"; PickRebuild 1 "run-1" ].

(** The first instance opens it and marks it while the opening is under way;
    the mark reaches the log first. *)
Definition marked_early : list choice :=
  [ PickStart quiet_world; PickStart quiet_world;
    PickBegin 0 (open_b "here");
    PickBegin 0 (FMarkBranch {| bu_run_id := "run-1"; bu_branch_id := "b"; bu_new_state := "failed";
                                bu_failure_code := None; bu_reason := None |});
    PickFinish; PickFinish; PickRebuild 0 "run-1"; PickRebuild 1 "run-1" ].

(** The first instance has merged a mark when the next one carries an empty
    failure code. *)
Definition emptied_code : list choice :=
  [ PickStart quiet_world; PickStart quiet_world;
    PickBegin 0 (FOpenStage "route" "run-1" None); PickFinish;
    PickBegin 0 (FMarkStage "run-1" "route" "failed" (Some "no_progress")); PickFinish;
    PickRebuild 0 "run-1";
    PickBegin 0 (FMarkStage "run-1" "route" "failed" (Some "")); PickFinish;
    PickRebuild 0 "run-1"; PickRebuild 1 "run-1" ].

Definition after_history (cs : list choice) :=
  fold_left (λ n c, execute quiet_gateway 100 c n) cs quiet_network.

(** The branch and the stage as the instance holds them once it has merged the
    log again. *)
Definition rebuilt_views (i : nat) (cs : list choice)
    : outcome unit * (option TraceBranchView * option TraceStageView) :=
  at_facade (after_history cs) i (Ok tt, (None, None)) (λ w,
    let '(o, w') := _rebuild_trace_state_from_events "run-1" (with_log (nt_log (after_history cs)) w) in
    let r := fc_registries (fw_facade w') in
    (o, (od_get "b" (run_branches "run-1" r), od_get "route" (run_stages "run-1" r)))).

Lemma facades_diverge cs :
  cs ∈ [opened_twice; marked_early; emptied_code] →
  rtc (net_step quiet_gateway 100) quiet_network (after_history cs) ∧
  nt_pending (after_history cs) = [] ∧
  (rebuilt_views 0 cs).1 = Ok tt ∧ (rebuilt_views 1 cs).1 = Ok tt ∧
  (rebuilt_views 0 cs).2 ≠ (rebuilt_views 1 cs).2.
Proof.
  rewrite !elem_of_cons, elem_of_nil. intros [-> |[-> |[-> | []]]].
  all: split; [apply legal_reaches; vm_compute; reflexivity|].
  all: split; [vm_compute; reflexivity|]; split; [vm_compute; reflexivity|].
  all: split; [vm_compute; reflexivity|vm_compute; discriminate].
Qed.
