(* ===== verification/FacadeSafety.v ===== *)
(** * What the facade promises ([adapters/facade/kernel_facade.py])

    Bounded tracking of runs, approvals that are forwarded once, cancellation,
    the policy versions a child run inherits, the review state of a run. *)
From S2P Require Export FacadeTrace.

(** ** Bounded tracking

    The order list and the set hold the same runs, each once, and a run has an
    entry in a registry that operations write only while it is tracked. *)
Definition written_runs (r : registries) : gset string :=
  dom (_branch_registry r) ∪ dom (_stage_registry r) ∪ dom (_open_human_gates r)
  ∪ dom (_resolved_human_gates r) ∪ dom (_gate_types r) ∪ dom (_gate_resolutions r)
  ∪ set_map fst (_submitted_approvals r).

Record tracked_ok (max_tracked_runs : Z) (f : KernelFacade) : Prop := {
  tr_nodup : NoDup (_tracked_run_order f);
  tr_set : _tracked_run_set f = list_to_set (_tracked_run_order f);
  tr_bound : (Z.of_nat (length (_tracked_run_order f)) ≤ max_tracked_runs)%Z;
  tr_written : written_runs (fc_registries f) ⊆ _tracked_run_set f
}.

Lemma size_tracked (order : list string) :
  NoDup order → size (list_to_set order : gset string) = length order.
Proof. apply size_list_to_set. Qed.

Lemma written_purge run_id r :
  written_runs (_purge_run_state run_id r) ⊆ written_runs r ∖ {[run_id]}.
Proof.
  intros x. unfold written_runs. simpl. rewrite !dom_delete_L.
  rewrite !elem_of_union, !elem_of_difference, !elem_of_union, !elem_of_singleton, !elem_of_map.
  setoid_rewrite elem_of_filter. naive_solver.
Qed.

(** The loop of [_touch_run]: it ends, and evicts exactly the oldest runs. *)
Lemma evict_while_spec max order f :
  NoDup order → _tracked_run_set f = list_to_set order → (0 ≤ max)%Z →
  _tracked_run_order f = order →
  written_runs (fc_registries f) ⊆ _tracked_run_set f →
  ∃ f', evict_while max order f = Some f' ∧
    _tracked_run_order f' = drop (length order - Z.to_nat max) order ∧
    NoDup (_tracked_run_order f') ∧ _tracked_run_set f' = list_to_set (_tracked_run_order f') ∧
    written_runs (fc_registries f') ⊆ _tracked_run_set f'.
Proof.
  revert f. induction order as [|oldest order IH]; intros f Hnd Hset Hmax Ho Hw;
    simpl evict_while; rewrite Hset, size_tracked by done.
  - destruct (Z.leb_spec (Z.of_nat (length ([] : list string))) max); simpl in *; [|lia].
    exists f. rewrite Ho, Hset. rewrite <- Hset. by rewrite Hset in *.
  - destruct (Z.leb_spec (Z.of_nat (length (oldest :: order))) max) as [Hle|Hgt].
    + exists f. rewrite Ho. replace (length (oldest :: order) - Z.to_nat max) with 0 by lia.
      by rewrite Hset in *.
    + apply NoDup_cons in Hnd as [Hnin Hnd].
      destruct (IH (_evict_oldest_run oldest order f)) as (f' & Hf' & Hord & Hrest); try done.
      * simpl. rewrite Hset. simpl. set_solver.
      * simpl. pose proof (written_purge oldest (fc_registries f)). set_solver.
      * exists f'. split; [done|]. split; [|done]. rewrite Hord. simpl length.
        replace (S (length order) - Z.to_nat max) with (S (length order - Z.to_nat max))
          by (simpl length in Hgt; lia). done.
Qed.

Lemma touch_tracked max run_id f :
  (1 ≤ max)%Z → tracked_ok max f →
  wp (_touch_run max run_id)
    (λ _ f', tracked_ok max f' ∧ run_id ∈ _tracked_run_set f') (λ _ _, False) f.
Proof.
  intros Hmax [Hnd Hset Hb Hw]. unfold _touch_run. apply wp_bind, wp_gets. unfold id.
  destruct (decide (run_id ∈ _tracked_run_set f)) as [Hin|Hnin]; [by apply wp_ret|].
  assert (run_id ∉ _tracked_run_order f) as Hno by (rewrite Hset in Hnin; set_solver).
  destruct (evict_while_spec max (_tracked_run_order f ++ [run_id])
    (set_tracked (_tracked_run_order f ++ [run_id]) ({[run_id]} ∪ _tracked_run_set f) f))
    as (f' & -> & Hord & Hnd' & Hset' & Hw').
  - apply NoDup_app. split; [done|]. split; [set_solver|apply NoDup_singleton].
  - simpl. rewrite Hset, list_to_set_app_L. set_solver.
  - lia.
  - done.
  - simpl. set_solver.
  - apply wp_modify. rewrite length_app in Hord. simpl in Hord. split.
    + split; [done|done| |done]. rewrite Hord, length_drop, length_app. simpl. lia.
    + rewrite Hset', Hord. apply elem_of_list_to_set. rewrite drop_app_le by lia.
      apply elem_of_app. right. by left.
Qed.

Section own.
Context {L S E : Type} (gw : workflow_gateway E) (max_tracked_runs : Z).
Abbreviation W := (facade_world L S E).
Implicit Types w : W.

Definition fw_tracked w : Prop := tracked_ok max_tracked_runs (fw_facade w).

(** Writing the registries of a tracked run. *)
Lemma written_tracked run_id r' f :
  tracked_ok max_tracked_runs f → run_id ∈ _tracked_run_set f →
  written_runs r' ⊆ {[run_id]} ∪ written_runs (fc_registries f) →
  tracked_ok max_tracked_runs (set_registries r' f) ∧ run_id ∈ _tracked_run_set (set_registries r' f).
Proof. intros [H1 H2 H3 H4] Hr Hw. split; [|done]. split; simpl; try done. set_solver. Qed.

Ltac written_solver :=
  unfold written_runs, add_gate; simpl; rewrite ?dom_insert_L, ?set_map_union_L, ?set_map_singleton_L;
  set_solver.

Definition tracked_after {A} (m : M W A) w : Prop :=
  wp m (λ _ w', fw_tracked w') (λ e w', fw_tracked w' ∧ e ≠ endless_loop) w.

Lemma touch_run_tracked run_id w (Q : unit → W → Prop) Ex :
  (1 ≤ max_tracked_runs)%Z → fw_tracked w →
  (∀ w', fw_tracked w' → run_id ∈ _tracked_run_set (fw_facade w') → Q tt w') →
  wp (touch_run max_tracked_runs run_id) Q Ex w.
Proof.
  intros Hmax Hw HQ. apply wp_zoom. eapply wp_mono; [by apply touch_tracked| |done].
  intros [] f' [Hf Hr]. by apply HQ.
Qed.

Lemma modify_tracked g run_id w (Q : unit → W → Prop) Ex :
  fw_tracked w → run_id ∈ _tracked_run_set (fw_facade w) →
  written_runs (g (regs w)) ⊆ {[run_id]} ∪ written_runs (regs w) →
  (∀ w', fw_tracked w' → run_id ∈ _tracked_run_set (fw_facade w') →
     fc_registries (fw_facade w') = g (regs w) → Q tt w') →
  wp (on_registries (modify g)) Q Ex w.
Proof.
  intros Hw Hr Hg HQ. apply wp_registries, wp_modify.
  destruct (written_tracked run_id (g (regs w)) (fw_facade w) Hw Hr Hg). by apply HQ.
Qed.

Lemma clock_tracked run_id w (Q : string → W → Prop) Ex :
  fw_tracked w → run_id ∈ _tracked_run_set (fw_facade w) →
  (∀ t w', fw_tracked w' → run_id ∈ _tracked_run_set (fw_facade w') → Q t w') →
  wp (utc_now gw) Q Ex w.
Proof.
  intros Hw Hr HQ. apply utc_now_spec. intros t w' _ Hf. apply HQ; [unfold fw_tracked|]; by rewrite Hf.
Qed.

(** The steps of the operations' first parts. *)
Ltac touch_first := apply touch_run_tracked; [done|done|]; intros w1 H1 R1.
Ltac then_clock := apply wp_bind; eapply clock_tracked; [done|done|]; intros ?t ?w ?H ?R.
Ltac then_write := apply wp_bind; eapply modify_tracked; [done|done|written_solver|]; intros ?w ?H ?R _.

Lemma begin_tracked op w :
  (1 ≤ max_tracked_runs)%Z → fw_tracked w → tracked_after (begin gw max_tracked_runs op) w.
Proof.
  intros Hmax Hw. unfold tracked_after. destruct op; simpl; unfold begin_open_stage, begin_mark_stage,
    begin_open_branch, begin_mark_branch, begin_open_gate, begin_approval, begin_resolve_escalation.
  - do 2 apply wp_bind. touch_first. then_clock. then_write. by do 2 apply wp_ret.
  - do 2 apply wp_bind. touch_first.
    apply wp_bind, get_registries_spec. destruct (od_get _ _); [|by apply wp_raise].
    apply wp_bind.
    apply (wp_mono _ (λ _ w', fw_tracked w' ∧ run_id ∈ _tracked_run_set (fw_facade w')) _ (λ _ _, False));
      [|intros ex w2 [H2 R2]|done].
    { case_decide; [then_clock; by apply wp_ret|by apply wp_ret]. }
    then_write. by do 2 apply wp_ret.
  - do 2 apply wp_bind. touch_first. then_clock. then_write. by do 2 apply wp_ret.
  - do 2 apply wp_bind. touch_first.
    apply wp_bind, get_registries_spec. destruct (od_get _ _); [|by apply wp_raise].
    then_write. by do 2 apply wp_ret.
  - do 2 apply wp_bind. touch_first. then_write. then_write. by do 2 apply wp_ret.
  - apply wp_bind. touch_first.
    apply wp_bind, get_registries_spec. case_decide; [by apply wp_ret|].
    then_write. then_write. then_write. by apply wp_ret.
  - do 2 apply wp_bind. touch_first. by do 2 apply wp_ret.
Qed.

Lemma remove_first_spec x l :
  NoDup l → NoDup (remove_first x l) ∧ (∀ y, y ∈ remove_first x l ↔ y ∈ l ∧ y ≠ x) ∧
  length (remove_first x l) ≤ length l.
Proof.
  induction l as [|z l IH]; simpl; [intros _; split; [constructor|]; split; [set_solver|lia]|].
  intros [Hz Hl]%NoDup_cons. destruct (IH Hl) as (H1 & H2 & H3). case_decide as Hx; subst.
  - split; [done|]. split; [set_solver|lia].
  - split; [apply NoDup_cons; set_solver|]. split; [set_solver|simpl; lia].
Qed.

Lemma cleanup_tracked run_id f :
  tracked_ok max_tracked_runs f → tracked_ok max_tracked_runs (cleanup_completed_run run_id f).
Proof.
  intros [H1 H2 H3 H4]. destruct (remove_first_spec run_id _ H1) as (R1 & R2 & R3).
  pose proof (written_purge run_id (fc_registries f)). split; simpl; try done.
  - rewrite H2. apply set_eq. intros y. rewrite elem_of_difference, !elem_of_list_to_set, R2. set_solver.
  - lia.
  - set_solver.
Qed.

(** The life of one instance: first parts of operations, clean-ups, and
    everything that leaves its registries and its tracking alone. *)
Inductive own_step : W → W → Prop :=
  | own_begin op o w w' : begin gw max_tracked_runs op w = (o, w') → own_step w w'
  | own_cleanup run_id w w' :
      fw_facade w' = cleanup_completed_run run_id (fw_facade w) → own_step w w'
  | own_other w w' :
      fc_registries (fw_facade w') = fc_registries (fw_facade w) →
      _tracked_run_order (fw_facade w') = _tracked_run_order (fw_facade w) →
      _tracked_run_set (fw_facade w') = _tracked_run_set (fw_facade w) → own_step w w'.

Lemma own_step_tracked w w' : (1 ≤ max_tracked_runs)%Z → own_step w w' → fw_tracked w → fw_tracked w'.
Proof.
  intros Hmax Hs Hw. destruct Hs as [op o w w' Hb|run_id w w' Hf|w w' Hr Ho Hset].
  - pose proof (wp_run _ _ _ _ _ _ (begin_tracked op w Hmax Hw) Hb). destruct o; [done|by destruct H].
  - unfold fw_tracked. rewrite Hf. by apply cleanup_tracked.
  - destruct Hw as [H1 H2 H3 H4]. split; rewrite ?Ho, ?Hset, ?Hr; done.
Qed.
End own.

(** C16: over any history of the writing operations, clean-ups and steps that
    leave the registries alone, an instance with a limit of at least one run
    holds registry entries of at most that many runs, and the eviction loop
    always ends.  Queries that read the log are not in the history: they add
    entries of runs that are not tracked ([query_leaves_untracked_entry]). *)
Theorem tracked_runs_bounded {L S E : Type} (gw : workflow_gateway E) (max_tracked_runs : Z)
    (w0 w : facade_world L S E)
    (Hmax : (1 ≤ max_tracked_runs)%Z) (Hnew : fw_facade w0 = new_facade)
    (Hlife : rtc (own_step gw max_tracked_runs) w0 w) :
  (Z.of_nat (size (written_runs (fc_registries (fw_facade w)))) ≤ max_tracked_runs)%Z ∧
  (Z.of_nat (size (_tracked_run_set (fw_facade w))) ≤ max_tracked_runs)%Z ∧
  ∀ op, (begin gw max_tracked_runs op w).1 ≠ Raise endless_loop.
Proof.
  assert (fw_tracked max_tracked_runs w) as Hw.
  { assert (fw_tracked max_tracked_runs w0) as Hw0.
    { unfold fw_tracked. rewrite Hnew. split; simpl; [constructor|done|lia|set_solver]. }
    clear Hnew. induction Hlife; [done|]. eauto using own_step_tracked. }
  assert (Z.of_nat (size (_tracked_run_set (fw_facade w))) ≤ max_tracked_runs)%Z as Hs.
  { destruct Hw as [H1 -> H3 _]. by rewrite size_tracked. }
  split; [|split; [done|]].
  - etrans; [|exact Hs]. apply inj_le, subseteq_size, Hw.
  - intros op. pose proof (begin_tracked gw max_tracked_runs op w Hmax Hw) as Hb. unfold tracked_after, wp in Hb.
    destruct (begin gw max_tracked_runs op w) as [[p|e] w']; simpl; [done|]. naive_solver.
Qed.

(** ** Approvals *)
Section approvals.
Context {L S E : Type} `{EventLogPort L} (gw : workflow_gateway E) (max_tracked_runs : Z).
Abbreviation W := (facade_world L S E).
Implicit Types w : W.

(** Sending and appending leave the instance alone, whatever their outcome. *)
Lemma finish_facade p w :
  wp (finish gw p) (λ _ w', fw_facade w' = fw_facade w) (λ _ w', fw_facade w' = fw_facade w) w.
Proof.
  unfold finish. apply wp_bind.
  apply (wp_mono _ (λ _ w1, fw_facade w1 = fw_facade w) _ (λ _ w1, fw_facade w1 = fw_facade w));
    [|intros [] w1 Hf1|done].
  { apply wp_zoom. unfold wp. by destruct (signal_workflow _ _ _ _) as [[]]. }
  apply wp_bind, wp_gets. unfold id. destruct (fw_event_log w1) as [l|]; [|by apply wp_ret].
  apply wp_bind, env_spec. intros now w2 _ Hf2. apply wp_bind, env_spec. intros i w3 _ Hf3.
  apply wp_bind, env_spec. intros k w4 _ Hf4. apply wp_bind, wp_zoom. unfold wp, when_some.
  destruct (fw_event_log w4) as [l4|]; [|cbn; congruence].
  destruct (el_append _ l4) as [[ref|e] l']; cbn; congruence.
Qed.

(** The guard around an operation, when the facade is not draining. *)
Lemma guard_spec {A} name (body : M W A) Q Ex w :
  _draining (fw_facade w) = false →
  (∀ d, wp body
     (λ a w', ∀ d', Q a (FacadeWorld (fw_facade w') (fw_event_log w') (fw_dedupe_store w')
        (fw_context_adapter w') (fw_checkpoint_adapter w') d' (fw_task_registry w') (fw_env w')))
     (λ e w', ∀ d', Ex e (FacadeWorld (fw_facade w') (fw_event_log w') (fw_dedupe_store w')
        (fw_context_adapter w') (fw_checkpoint_adapter w') d' (fw_task_registry w') (fw_env w')))
     (FacadeWorld (fw_facade w) (fw_event_log w) (fw_dedupe_store w) (fw_context_adapter w)
        (fw_checkpoint_adapter w) d (fw_task_registry w) (fw_env w))) →
  wp (_guard_write_operation name body) Q Ex w.
Proof.
  intros Hd Hb. unfold _guard_write_operation. apply wp_bind, wp_gets. unfold id. rewrite Hd.
  apply wp_bind, wp_zoom. unfold wp at 1, when_some at 1.
  assert (∀ d, wp (try_finally body (on_drain (modify DrainCoordinator.exit);; mret tt)) Q Ex
    (FacadeWorld (fw_facade w) (fw_event_log w) (fw_dedupe_store w) (fw_context_adapter w)
        (fw_checkpoint_adapter w) d (fw_task_registry w) (fw_env w))) as Hf.
  { intros d. specialize (Hb d). unfold wp in Hb |- *. unfold try_finally.
    destruct (body _) as [[a|e] w']; unfold on_drain, zoom, when_some, mbind, M_bind; simpl;
      destruct (fw_drain_coordinator w'); apply Hb. }
  destruct (fw_drain_coordinator w); apply Hf.
Qed.

Definition submitted (q : ApprovalRequest) w : Prop :=
  (ap_run_id q, ap_approval_ref q) ∈ _submitted_approvals (regs w).

Lemma submit_records q w :
  (1 ≤ max_tracked_runs)%Z → fw_tracked max_tracked_runs w → _draining (fw_facade w) = false →
  wp (submit_approval gw max_tracked_runs q) (λ _, submitted q) (λ _, submitted q) w.
Proof.
  intros Hmax Hw Hd. apply guard_spec; [done|]. intros d. apply wp_bind.
  apply (wp_mono _ (λ _, submitted q) _ (λ _ _, False)); [|intros p w1 Hp|done].
  - unfold begin_approval. apply wp_bind. apply touch_run_tracked; [done|done|]. intros w1 H1 R1.
    apply wp_bind, get_registries_spec. case_decide; [by apply wp_ret|].
    do 3 (apply wp_bind, wp_registries, wp_modify). apply wp_ret. unfold submitted. simpl. set_solver.
  - destruct p as [p|]; [|by apply wp_ret].
    eapply wp_mono; [apply finish_facade|..]; unfold submitted, regs in *; simpl;
      intros x w' Hf; by rewrite Hf.
Qed.

Lemma submit_again q w :
  fw_tracked max_tracked_runs w → _draining (fw_facade w) = false → submitted q w →
  wp (submit_approval gw max_tracked_runs q)
    (λ _ w', fw_env w' = fw_env w ∧ fw_event_log w' = fw_event_log w ∧ regs w' = regs w)
    (λ _ _, False) w.
Proof.
  intros Hw Hd Hs. apply guard_spec; [done|]. intros d.
  assert (ap_run_id q ∈ _tracked_run_set (fw_facade w)) as Hr.
  { apply (tr_written _ _ Hw). unfold written_runs. apply elem_of_union_r, elem_of_map.
    by exists (ap_run_id q, ap_approval_ref q). }
  apply wp_bind, wp_bind, wp_zoom. unfold _touch_run. apply wp_bind, wp_gets. simpl.
  rewrite (decide_True _ _ Hr). apply wp_ret, wp_bind, get_registries_spec.
  rewrite decide_True by done. apply wp_ret, wp_ret. done.
Qed.
End approvals.

(** C17: an approval reaches the gateway at most once per instance.  Whatever
    the first submission of a pair did, even when sending or appending it
    raised, a later submission of the pair returns normally and neither sends
    nor appends anything, as long as the pair has not been purged. *)
Theorem approval_forwarded_once {L S E : Type} `{EventLogPort L} (gw : workflow_gateway E)
    (max_tracked_runs : Z) (q q' : ApprovalRequest) (w : facade_world L S E)
    (Hmax : (1 ≤ max_tracked_runs)%Z) (Hw : fw_tracked max_tracked_runs w)
    (Hd : _draining (fw_facade w) = false)
    (Hrun : ap_run_id q' = ap_run_id q) (Href : ap_approval_ref q' = ap_approval_ref q) :
  let '(o1, w1) := submit_approval gw max_tracked_runs q w in
  ∀ w2 : facade_world L S E,
    fw_tracked max_tracked_runs w2 → _draining (fw_facade w2) = false →
    _submitted_approvals (regs w1) ⊆ _submitted_approvals (regs w2) →
    let '(o2, w2') := submit_approval gw max_tracked_runs q' w2 in
    o2 = Ok tt ∧ fw_env w2' = fw_env w2 ∧ fw_event_log w2' = fw_event_log w2.
Proof.
  pose proof (submit_records gw max_tracked_runs q w Hmax Hw Hd) as H1. unfold wp in H1.
  destruct (submit_approval gw max_tracked_runs q w) as [o1 w1].
  assert (submitted q w1) as Hs by (by destruct o1). intros w2 Hw2 Hd2 Hsub.
  assert (submitted q' w2) as Hs2. { unfold submitted. rewrite Hrun, Href. by apply Hsub. }
  pose proof (submit_again gw max_tracked_runs q' w2 Hw2 Hd2 Hs2) as H2. unfold wp in H2.
  destruct (submit_approval gw max_tracked_runs q' w2) as [[[]|e] w2']; [|done]. naive_solver.
Qed.

(** ** The review state *)
Lemma opened_run_cells s c : opened c s → is_Some (run_cells s c None).
Proof.
  unfold opened, run_cells. intros [v Hv]. induction (cellops c s) as [|[w|u] l IH]; simpl.
  - by apply elem_of_nil in Hv.
  - apply cell_run_present. eauto.
  - apply IH. by apply elem_of_cons in Hv as [?|?].
Qed.

Lemma opened_gate g s :
  opened (COpenGate g) s ↔ GateOpened g ∈ s ∨ GateResolved g ∈ s.
Proof.
  unfold opened, cellops. setoid_rewrite list_elem_of_omap. split.
  - intros (v & x & Hx & Hv). destruct x; simpl in Hv; try done; case_decide; subst; try done; auto.
  - intros [Hx|Hx]; exists VGate; eexists; (split; [exact Hx|]); simpl; by rewrite decide_True.
Qed.

Lemma opened_resolved g s : opened (CResolvedGate g) s ↔ GateResolved g ∈ s.
Proof.
  unfold opened, cellops. setoid_rewrite list_elem_of_omap. split.
  - intros (v & x & Hx & Hv). destruct x; simpl in Hv; try done; case_decide; subst; done.
  - intros Hx; exists VGate; eexists; (split; [exact Hx|]); simpl; by rewrite decide_True.
Qed.

(** The gates of an instance that holds what the log says. *)
Lemma gates_of_log s run_id r :
  (∀ c, cell c run_id r = run_cells s c None) →
  (∀ g, g ∈ run_open_gates run_id r ↔ GateOpened g ∈ s ∨ GateResolved g ∈ s) ∧
  (∀ g, g ∈ run_resolved_gates run_id r ↔ GateResolved g ∈ s).
Proof.
  intros Hc. split; intros g.
  - rewrite <- opened_gate. pose proof (Hc (COpenGate g)) as Hg. simpl in Hg. split.
    + intros Hin. apply run_cells_opened. rewrite <- Hg. by rewrite decide_True.
    + intros Ho%opened_run_cells. rewrite <- Hg in Ho. case_decide; [done|by destruct Ho].
  - rewrite <- opened_resolved. pose proof (Hc (CResolvedGate g)) as Hg. simpl in Hg. split.
    + intros Hin. apply run_cells_opened. rewrite <- Hg. by rewrite decide_True.
    + intros Ho%opened_run_cells. rewrite <- Hg in Ho. case_decide; [done|by destruct Ho].
Qed.

Lemma review_not_required run_id r :
  review_state run_id r = not_required ↔ run_open_gates run_id r = ∅.
Proof. unfold review_state. repeat case_decide; try done; by destruct (existsb _ _). Qed.

Lemma review_requested run_id r :
  review_state run_id r = requested ↔
  ∃ g, g ∈ run_open_gates run_id r ∧ g ∉ run_resolved_gates run_id r.
Proof.
  unfold review_state. destruct (decide (run_open_gates run_id r = ∅)) as [He|He].
  { split; [done|]. intros (g & Hg & _). rewrite He in Hg. set_solver. }
  destruct (decide (run_open_gates run_id r ∖ run_resolved_gates run_id r ≠ ∅)) as [Hn|Hn].
  - split; [|done]. intros _. apply set_choose_L in Hn as [g Hg]. exists g. set_solver.
  - split; [by destruct (existsb _ _)|]. intros (g & Hg & Hg'). destruct Hn. set_solver.
Qed.

Lemma review_rejected run_id r :
  review_state run_id r = rejected →
  ∃ g, g ∈ run_resolved_gates run_id r ∧ run_gate_resolutions run_id r !! g = Some "rejected".
Proof.
  unfold review_state. repeat case_decide; try done.
  destruct (existsb _ _) eqn:Hx; [|done]. intros _. apply existsb_exists in Hx as (g & Hg & Hr).
  apply bool_decide_eq_true in Hr. exists g. split; [|done]. by apply elem_of_elements, list_elem_of_In.
Qed.

(** A gate the log has seen opened and not resolved. *)
Definition awaits_review (s : list trace_op) (g : string) : Prop :=
  GateOpened g ∈ s ∧ GateResolved g ∉ s.

(** In a network of facades whose callers keep the discipline of the trace,
    once nothing on a run is in flight and an instance has merged the log, its review state is that of the log: no review
    is required when no gate was opened or resolved, one is requested exactly
    when some gate was opened and not resolved, and it is decided otherwise. *)
Theorem review_state_of_log {L S E : Type} `{DedupeStorePort S} `{EventLogLaws L} `{!TraceLogLaws L}
    (gw : workflow_gateway E) (max_tracked_runs : Z) (n0 n : network L S E) (run_id : string)
    (i : nat) (w : facade_world L S E)
    (Hstart : net_starts n0) (Hreach : rtc (kept_step gw max_tracked_runs) n0 n)
    (Hquiet : inflight run_id (nt_pending n) = []) (Hi : nt_facades n !! i = Some w)
    (Hl : load_ok run_id (nt_log n) w = true) :
  let s := said (el_history (nt_log n) run_id) in
  let r := regs (_rebuild_trace_state_from_events run_id (with_log (nt_log n) w)).2 in
  (review_state run_id r = not_required ↔ ∀ g, GateOpened g ∉ s ∧ GateResolved g ∉ s) ∧
  (review_state run_id r = requested ↔ ∃ g, awaits_review s g).
Proof.
  pose proof (reachable_ok gw max_tracked_runs n0 n Hstart Hreach) as Hok.
  pose proof (rebuild_denotes n run_id i w Hok Hquiet Hi Hl) as Hd.
  destruct (_rebuild_trace_state_from_events run_id (with_log (nt_log n) w)) as [o w'].
  destruct Hd as [_ Hc]. apply gates_of_log in Hc as [Ho Hr]. simpl. unfold regs.
  rewrite review_not_required, review_requested. split.
  - split.
    + intros He g. specialize (Ho g). rewrite He in Ho. set_solver.
    + intros Hn. apply set_eq. intros g. rewrite Ho. specialize (Hn g). set_solver.
  - unfold awaits_review. split; intros (g & Hg1 & Hg2); exists g; revert Hg1 Hg2; rewrite Ho, Hr; naive_solver.
Qed.

(** ** What the composition with the other components shows *)

(** A rejected gate is resolved for every instance that merges the log, and
    rejected only for the one that submitted it: merging keeps no outcome. *)
Lemma merge_event_resolutions run_id ev r :
  _gate_resolutions (merge_event run_id ev r).2 = _gate_resolutions r.
Proof.
  unfold merge_event, lift, gets, modify, mbind, M_bind, mret, M_ret, id.
  repeat (case_match; simpl; try done).
Qed.

Lemma merge_events_resolutions run_id events r :
  _gate_resolutions (merge_events run_id events r).2 = _gate_resolutions r.
Proof.
  revert r. induction events as [|ev events IH]; intros r; [done|]. simpl. unfold mbind, M_bind.
  pose proof (merge_event_resolutions run_id ev r) as He.
  destruct (merge_event run_id ev r) as [[[]|e] r1]; simpl in *; [by rewrite IH|done].
Qed.

Theorem rejection_not_shared run_id k events r :
  run_gate_resolutions run_id r = ∅ →
  review_state run_id (merge_loaded run_id k events r).2 ≠ rejected.
Proof.
  intros Hr [g [_ Hg]]%review_rejected. unfold run_gate_resolutions in *.
  unfold merge_loaded, mbind, M_bind in Hg.
  pose proof (merge_events_resolutions run_id (filter (λ e, is_trace_event e = true) events) r) as Hm.
  destruct (merge_events _ _ r) as [[[]|e] r1]; simpl in *; rewrite Hm, Hr in Hg; by rewrite lookup_empty in Hg.
Qed.

(** Two signals of one kind from the facade have one token, and the run actor
    drops the second: a second stage, branch or child of a run never reaches
    its event log. *)
Theorem constant_cause_dropped {L D S E : Type} `{EventLogPort L} `{DecisionDeduperPort D}
    `{DedupeStorePort S} (deps : RunActorDependencyBundle L D S E) (a : actor L D S E)
    (run_id ty cause run : string) (p1 p2 : option pydict) :
  cause ≠ "" → identity (ac_locals a) = Some run →
  let first := actor_signal_of_request (facade_signal run_id ty p1 (Some cause)) in
  let second := actor_signal_of_request (facade_signal run_id ty p2 (Some cause)) in
  (∃ token, signal_token first = Some token ∧ token ∈ _seen_signal_tokens (ac_locals a)) →
  _handle_signal deps second a = (Ok tt, a).
Proof.
  intros Hc Hid first second (token & Ht & Hin).
  assert (already_seen (ac_locals a) second = true) as Hs.
  { unfold already_seen. replace (signal_token second) with (signal_token first) by done.
    rewrite Ht. by apply bool_decide_eq_true_2. }
  unfold _handle_signal, on_locals, zoom, gets, mbind, M_bind, id. simpl. rewrite Hid, Hs.
  by destruct a.
Qed.

(** The projection of a run carries no policy versions, so that a child run
    inherits none. *)
Theorem projection_pins_nothing cfg t events p p' :
  pj_policy_versions p = None → replay_loop cfg t events p = Ok p' → pj_policy_versions p' = None.
Proof.
  revert p. induction events as [|e events IH]; intros p Hp; simpl; [by intros [= <-]|].
  case_match; [by intros [= <-]|]. intros (e' & _ & He)%outcome_bind_ok.
  case_match; [|by eapply IH]. eapply IH, He. unfold _apply_projection_event. by repeat case_match.
Qed.

Lemma inherit_nothing {L S E : Type} (gw : workflow_gateway E) (q : SpawnChildRunRequest)
    (w : facade_world L S E) :
  match gw_query_projection gw (sc_parent_run_id q) (fw_env w) with
  | (Ok p, _) => pj_policy_versions p = None
  | (Raise e, _) => is_Exception e = true
  end →
  (inherit_versions gw q w).1 = Ok q.
Proof.
  unfold inherit_versions, try_except, query_run, on_gw, on_checkpoint, zoom, when_some, mbind, M_bind.
  destruct (gw_query_projection gw _ _) as [[p|e] e']; simpl.
  - intros Hp. destruct (fw_checkpoint_adapter w); simpl; by rewrite Hp.
  - by intros ->.
Qed.

(** Draining stops turns and approvals only: a run is still started. *)
Lemma draining_starts_runs :
  let w := FacadeWorld (L:=InMemoryKernelRuntimeEventLog.t) (S:=InMemoryDedupeStore.t)
             (set_draining true new_facade) None None None None None None tt in
  let q := {| st_initiator := "user"; st_run_kind := "task"; st_session_id := None;
              st_input_ref := None; st_input_json := None; st_context_ref := None;
              st_parent_run_id := None; st_trace_context := None; st_task_contract_ref := None;
              st_initial_stage_id := None; st_route_policy_version := None;
              st_skill_policy_version := None; st_evaluation_policy_version := None;
              st_task_view_policy_version := None |} in
  is_ok (start_run quiet_gateway q w).1 = true.
Proof. vm_compute. reflexivity. Qed.

(** A query of a run that no operation touched leaves an entry that nothing
    will evict. *)
Lemma query_leaves_untracked_entry :
  let w := FacadeWorld (S:=InMemoryDedupeStore.t) new_facade
             (Some InMemoryKernelRuntimeEventLog.__init__) None None None None None tt in
  let w' := (_rebuild_trace_state_from_events "run-1" w).2 in
  is_Some (_rebuild_offsets (regs w') !! "run-1") ∧ "run-1" ∉ _tracked_run_set (fw_facade w').
Proof.
  split; [vm_compute; by eexists|].
  assert (bool_decide ("run-1" ∈ _tracked_run_set (fw_facade
    (_rebuild_trace_state_from_events "run-1" (FacadeWorld (S:=InMemoryDedupeStore.t) new_facade
             (Some InMemoryKernelRuntimeEventLog.__init__) None None None None None tt)).2)) = false)
    as Hd by (vm_compute; reflexivity). by apply bool_decide_eq_false in Hd.
Qed.

(** 1001 milliseconds are reported as 1000. *)
Lemma duration_truncated : elapsed_ms 0 1001000 = 1000%Z.
Proof. vm_compute. reflexivity. Qed.

(** ** Witnesses *)
Definition example_approval (approved : bool) : ApprovalRequest :=
  {| ap_run_id := "run-1"; ap_approval_ref := "gate"; ap_approved := approved;
     ap_reviewer_id := "r"; ap_reason := None; ap_caused_by := None |}.

Lemma tracked_runs_bounded_witness :
  let w1 := (begin quiet_gateway 1 (FOpenStage "route" "run-1" None) quiet_world).2 in
  let w2 := (begin quiet_gateway 1 (FOpenStage "route" "run-2" None) w1).2 in
  (Z.of_nat (size (written_runs (fc_registries (fw_facade w2)))) ≤ 1)%Z.
Proof.
  intros w1 w2.
  destruct (tracked_runs_bounded quiet_gateway 1 quiet_world w2) as [H _]; [lia|reflexivity| |exact H].
  eapply rtc_l; [eapply (own_begin quiet_gateway 1 (FOpenStage "route" "run-1" None) _ quiet_world w1),
    surjective_pairing|].
  eapply rtc_l; [eapply (own_begin quiet_gateway 1 (FOpenStage "route" "run-2" None) _ w1 w2),
    surjective_pairing|].
  apply rtc_refl.
Defined.

(** A gateway that is down loses the approval for good. *)
Definition failing_gateway : workflow_gateway unit :=
  {| gw_signal := {| ga_signal_workflow := Some (λ _ _, raise (Exn RuntimeError "unavailable"));
                     ga_signal_run := None |};
     gw_start_workflow := gw_start_workflow quiet_gateway;
     gw_cancel_workflow := gw_cancel_workflow quiet_gateway;
     gw_query_projection := gw_query_projection quiet_gateway;
     gw_start_child_workflow := gw_start_child_workflow quiet_gateway;
     gw_stream_run_events := gw_stream_run_events quiet_gateway;
     gw_execute_turn := gw_execute_turn quiet_gateway;
     gw_utc_now := gw_utc_now quiet_gateway;
     gw_uuid4 := gw_uuid4 quiet_gateway |}.

Definition after_failed_approval := submit_approval failing_gateway 10 (example_approval true) quiet_world.

#[global] Instance tracked_ok_dec max f : Decision (tracked_ok max f).
Proof.
  refine (cast_if (decide (NoDup (_tracked_run_order f) ∧
    _tracked_run_set f = list_to_set (_tracked_run_order f) ∧
    (Z.of_nat (length (_tracked_run_order f)) ≤ max)%Z ∧
    written_runs (fc_registries f) ⊆ _tracked_run_set f))).
  - by destruct a as (? & ? & ? & ?).
  - intros [? ? ? ?]. by destruct n.
Defined.

Lemma approval_forwarded_once_witness :
  after_failed_approval.1 = Raise (Exn RuntimeError "unavailable") ∧
  let w2 := after_failed_approval.2 in
  (submit_approval failing_gateway 10 (example_approval true) w2).1 = Ok tt.
Proof.
  split; [vm_compute; reflexivity|].
  assert (Hw : fw_tracked 10 quiet_world) by (apply (bool_decide_unpack _); vm_compute; exact I).
  assert (Hw2 : fw_tracked 10 after_failed_approval.2) by (apply (bool_decide_unpack _); vm_compute; exact I).
  pose proof (approval_forwarded_once failing_gateway 10 (example_approval true) (example_approval true)
    quiet_world ltac:(lia) Hw eq_refl eq_refl eq_refl) as H.
  unfold after_failed_approval in *.
  destruct (submit_approval failing_gateway 10 (example_approval true) quiet_world) as [o1 w1] eqn:H1.
  specialize (H w1 Hw2). simpl in *.
  destruct (submit_approval failing_gateway 10 (example_approval true) w1) as [o2 w2'].
  apply H; [|reflexivity]. change w1 with (o1, w1).2. rewrite <- H1. vm_compute. reflexivity.
Defined.

Lemma review_state_of_log_witness :
  match nt_facades quiet_end with
  | [wi; wj] =>
      review_state "run-1"
        (regs (_rebuild_trace_state_from_events "run-1" (with_log (nt_log quiet_end) wj)).2) ≠ requested
  | _ => False
  end.
Proof.
  assert (Hl : all_alongb quiet_gateway 100 (kept_choice quiet_gateway 100) quiet_history quiet_network = true)
    by (vm_compute; reflexivity).
  assert (Hreach : rtc (kept_step quiet_gateway 100) quiet_network quiet_end).
  { unfold quiet_end. exact (kept_reaches quiet_gateway 100 quiet_history quiet_network Hl). }
  assert (Hq : match nt_facades quiet_end with
               | [wi; wj] =>
                   match inflight "run-1" (nt_pending quiet_end) with [] => true | _ => false end
                   && load_ok "run-1" (nt_log quiet_end) wj
                   && forallb (λ x, match x with GateOpened _ => false | _ => true end)
                        (said (el_history (nt_log quiet_end) "run-1"))
               | _ => false
               end = true) by (vm_compute; reflexivity).
  clear Hl. revert Hreach Hq. generalize quiet_end. intros n Hreach Hq.
  destruct (nt_facades n) as [|wi [|wj [|]]] eqn:Hws; try discriminate Hq.
  apply andb_prop in Hq as [[Hq Hlj]%andb_prop Hno].
  destruct (inflight "run-1" (nt_pending n)) eqn:Hi; try discriminate Hq.
  destruct (review_state_of_log quiet_gateway 100 quiet_network n "run-1" 1 wj) as [_ H]; try assumption.
  - split; [reflexivity|]. split; [reflexivity|].
    split; [exact InMemoryKernelRuntimeEventLog.wf_init|]. intros run. constructor.
  - by rewrite Hws.
  - intros Hr. apply H in Hr as (g & Hg & _). apply list_elem_of_In in Hg.
    by apply (proj1 (forallb_forall _ _) Hno) in Hg.
Defined.
