(* ===== verification/LocalSubstrate.v ===== *)
(** * The local substrate ([substrate/local/adaptor.py])

    The gateway that runs every run actor in the process.  Workflow instances
    and their start-up tasks are objects that the registries refer to; a task
    is ready until the event loop runs it, which it does the next time a
    coroutine suspends.  Logging is left out. *)
From S2P Require Export Facade RunActor.

Module LocalWorkflowGateway.
(** ** State *)

(** A start-up task that has not run is [task_cancelling] once cancelled: its
    coroutine then ends without having begun. *)
Inductive task_state := task_ready | task_cancelling | task_done.

#[global] Instance task_state_eq_dec : EqDecision task_state.
Proof. solve_decision. Defined.

(** A [RunActorWorkflow] object with the task of its [run] coroutine, which
    [start_workflow] makes together. *)
Record started_run := StartedRun {
  sd_locals : locals;
  sd_input : RunInput;
  sd_task : task_state
}.

(** [_deps] is the shared services and deduper; [_workflows] and [_run_tasks]
    refer to [lg_started] by creation number. *)
Record t (L D S E : Type) := LocalGateway {
  lg_services : services L S E;
  lg_deduper : D;
  lg_started : list started_run;
  _workflows : gmap string nat;
  _run_tasks : odict nat;
  _execute_turn_cache : odict TurnResult
}.
Arguments LocalGateway {L D S E}.
Arguments lg_services {L D S E}.
Arguments lg_deduper {L D S E}.
Arguments lg_started {L D S E}.
Arguments _workflows {L D S E}.
Arguments _run_tasks {L D S E}.
Arguments _execute_turn_cache {L D S E}.

Definition new_gateway {L D S E} (sv : services L S E) (d : D) : t L D S E :=
  LocalGateway sv d [] ∅ [] [].

(** ** Identifiers *)

(** An [input_json] that is absent or empty is false. *)
Definition nonempty_json (o : option pydict) : option pydict :=
  match o with Some [] | None => None | Some d => Some d end.

Definition _resolve_run_id (q : StartRunRequest) : string :=
  match py_get "run_id" <$> nonempty_json (st_input_json q) with
  | Some (PStr run_id) => run_id
  | _ =>
      match str_or (st_parent_run_id q) None, str_or (st_session_id q) None with
      | Some parent, _ => parent +:+ ":" +:+ st_run_kind q
      | None, Some session => session +:+ ":" +:+ st_run_kind q
      | None, None => st_run_kind q
      end
  end.

Definition duplicate_run (run_id : string) : exn :=
  Exn ValueError
    ("LocalWorkflowGateway: duplicate run_id " +:+ str_repr run_id +:+ " is not allowed").

(** The message has a mis-encoded dash in the source, kept here byte by byte. *)
Definition run_not_found (run_id : string) : exn :=
  Exn KeyError ("LocalWorkflowGateway: run not found 鈥?run_id=" +:+ str_repr run_id).

Definition run_input_of (run_id : string) (q : StartRunRequest) : RunInput :=
  {| rn_run_id := run_id; rn_session_id := st_session_id q;
     rn_parent_run_id := st_parent_run_id q; rn_input_ref := st_input_ref q;
     rn_input_json := st_input_json q; rn_runtime_context_ref := st_context_ref q;
     rn_trace_context := None; rn_pending_signals := None; rn_policy_versions := None;
     rn_initial_stage_id := None; rn_task_contract_ref := None |}.

(** [TurnResult(...)] with the fields [execute_turn] sets. *)
Definition turn_record (idempotency_key : string) (output : pyval) : TurnResult :=
  {| tr_state := effect_recorded; tr_outcome_kind := out_dispatched;
     tr_decision_ref := idempotency_key; tr_decision_fingerprint := idempotency_key;
     tr_dispatch_dedupe_key := None; tr_intent_commit_ref := None; tr_host_kind := None;
     tr_remote_policy_decision := None; tr_action_commit := Some [("output", output)];
     tr_recovery_input := None; tr_emitted_events := [] |}.

(** Storing a result and dropping the oldest entry when there are too many. *)
Definition cache_turn (max_cache_size : Z) (idempotency_key : string) (result : TurnResult)
    (cache : odict TurnResult) : odict TurnResult :=
  let cache := od_set idempotency_key result cache in
  if (max_cache_size <? Z.of_nat (length cache))%Z then tail cache else cache.

(** ** Operations *)
Section gateway.
Context {L D S E : Type} `{EventLogPort L} `{DecisionDeduperPort D} `{DedupeStorePort S}.
Context (deps : RunActorDependencyBundle L D S E).
Context (workflow_id_prefix : string) (max_cache_size : Z).
Abbreviation G := (t L D S E).

Definition set_started (l : list started_run) (g : G) : G :=
  LocalGateway (lg_services g) (lg_deduper g) l (_workflows g) (_run_tasks g)
    (_execute_turn_cache g).
Definition set_tables (w : gmap string nat) (ts : odict nat) (g : G) : G :=
  LocalGateway (lg_services g) (lg_deduper g) (lg_started g) w ts (_execute_turn_cache g).
Definition set_cache (c : odict TurnResult) (g : G) : G :=
  LocalGateway (lg_services g) (lg_deduper g) (lg_started g) (_workflows g) (_run_tasks g) c.
Definition lg_on_services {A} (m : M (services L S E) A) : M G A :=
  zoom lg_services (λ sv g, LocalGateway sv (lg_deduper g) (lg_started g) (_workflows g)
    (_run_tasks g) (_execute_turn_cache g)) m.

(** Run a method of the workflow object [ref]. *)
Definition locals_of (ref : nat) (g : G) : locals :=
  from_option sd_locals new_locals (lg_started g !! ref).
Definition on_workflow {A} (ref : nat) (m : M (actor L D S E) A) : M G A :=
  zoom (λ g, Actor (lg_services g) (lg_deduper g) (locals_of ref g))
    (λ a g, LocalGateway (ac_services a) (ac_deduper a)
       (alter (λ s, StartedRun (ac_locals a) (sd_input s) (sd_task s)) ref (lg_started g))
       (_workflows g) (_run_tasks g) (_execute_turn_cache g)) m.

Definition set_task (ref : nat) (st : task_state) (g : G) : G :=
  set_started (alter (λ s, StartedRun (sd_locals s) (sd_input s) st) ref (lg_started g)) g.

(** The event loop runs one start-up task, to its end: with the event logs of
    the repository [run] does not suspend.  An exception stays in the task. *)
Definition step_task (ref : nat) : M G unit :=
  g ← gets id;
  match lg_started g !! ref with
  | Some s =>
      match sd_task s with
      | task_ready =>
          reify (on_workflow ref (run deps (sd_input s)));;
          modify (set_task ref task_done)
      | task_cancelling => modify (set_task ref task_done)
      | task_done => mret tt
      end
  | None => mret tt
  end.

(** A coroutine suspends: every task that waits runs, in order of creation. *)
Fixpoint run_tasks (refs : list nat) : M G unit :=
  match refs with
  | [] => mret tt
  | ref :: refs' => step_task ref;; run_tasks refs'
  end.
Definition suspend : M G unit :=
  g ← gets id;
  run_tasks (seq 0 (length (lg_started g))).

Definition _workflow_id_for (run_id : string) : string := workflow_id_prefix +:+ ":" +:+ run_id.

(** [start_workflow] up to its [await]; the new task's number. *)
Definition begin_start (q : StartRunRequest) : M G string :=
  g ← gets id;
  let run_id := _resolve_run_id q in
  if decide (is_Some (_workflows g !! run_id)) then raise (duplicate_run run_id)
  else
    let ref := length (lg_started g) in
    modify (set_started (lg_started g ++ [StartedRun new_locals (run_input_of run_id q) task_ready]));;
    modify (set_tables (<[run_id := ref]> (_workflows g)) (od_set run_id ref (_run_tasks g)));;
    mret run_id.

Definition start_workflow (q : StartRunRequest) : M G (odict string) :=
  run_id ← begin_start q;
  suspend;;
  mret [("run_id", run_id); ("workflow_id", _workflow_id_for run_id)].

(** [execute_turn] on both sides of its [await]; the handler is the caller's. *)
Definition cached_turn (idempotency_key : string) : M G (option TurnResult) :=
  gets (λ g, od_get idempotency_key (_execute_turn_cache g)).

Definition finish_turn (idempotency_key : string) (output : pyval) : M G TurnResult :=
  let result := turn_record idempotency_key output in
  modify (λ g, set_cache (cache_turn max_cache_size idempotency_key result
                            (_execute_turn_cache g)) g);;
  mret result.

Definition execute_turn (run_id : string) (action : Action) (handler : Action → M G pyval)
    (idempotency_key : string) : M G TurnResult :=
  cached ← cached_turn idempotency_key;
  match cached with
  | Some r => mret r
  | None =>
      output ← handler action;
      finish_turn idempotency_key output
  end.

Definition signal_workflow (run_id : string) (request : SignalRunRequest) : M G unit :=
  g ← gets id;
  match _workflows g !! run_id with
  | None => raise (run_not_found run_id)
  | Some ref => on_workflow ref (signal deps (actor_signal_of_request request))
  end.

(** [cancel_workflow] on both sides of its [await]: whether there is one. *)
Definition cancel_task (ref : nat) : M G bool :=
  g ← gets id;
  match lg_started g !! ref with
  | Some s =>
      if decide (sd_task s = task_done) then mret false
      else modify (set_task ref task_cancelling);; mret true
  | None => mret false
  end.

Definition begin_cancel (run_id : string) : M G bool :=
  g ← gets id;
  match od_get run_id (_run_tasks g) with
  | Some ref => cancel_task ref
  | None => mret false
  end.

Definition end_cancel (run_id : string) : M G unit :=
  modify (λ g, set_tables (delete run_id (_workflows g)) (od_del run_id (_run_tasks g)) g).

Definition cancel_workflow (run_id reason : string) : M G unit :=
  awaits ← begin_cancel run_id;
  (if (awaits : bool) then suspend else mret tt);;
  end_cancel run_id.

Definition query_projection (run_id : string) : M G RunProjection :=
  let current := lg_on_services (sv_on_projection (get (dp_projection deps) run_id)) in
  g ← gets id;
  match _workflows g !! run_id with
  | None => current
  | Some ref =>
      match query (locals_of ref g) with
      | Ok p => mret p
      | Raise e => if decide (exn_cls e = RuntimeError) then current else raise e
      end
  end.

(** [(request.input_json or {}).get("_session_id") or None]. *)
Definition child_session (input_json : option pydict) : outcome (option string) :=
  match py_get "_session_id" (default [] input_json) with
  | PStr s => Ok (str_or (Some s) None)
  | v => if py_truthy v then Raise (Exn Unmodelled "a session id of another type") else Ok None
  end.

Definition child_run_id_of (parent_run_id : string) (q : SpawnChildRunRequest) : string :=
  match py_get "child_run_id" <$> nonempty_json (sc_input_json q) with
  | Some (PStr s) => if decide (s = "") then parent_run_id +:+ ":" +:+ sc_child_kind q else s
  | _ => parent_run_id +:+ ":" +:+ sc_child_kind q
  end.

Definition child_start_request (parent_run_id : string) (q : SpawnChildRunRequest)
    (session_id : option string) : StartRunRequest :=
  {| st_initiator := "kernel"; st_run_kind := sc_child_kind q; st_session_id := session_id;
     st_input_ref := sc_input_ref q;
     st_input_json := Some (od_set "child_run_id" (PStr (child_run_id_of parent_run_id q))
                              (default [] (sc_input_json q)));
     st_context_ref := None; st_parent_run_id := Some parent_run_id; st_trace_context := None;
     st_task_contract_ref := None; st_initial_stage_id := None; st_route_policy_version := None;
     st_skill_policy_version := None; st_evaluation_policy_version := None;
     st_task_view_policy_version := None |}.

Definition start_child_workflow (parent_run_id : string) (q : SpawnChildRunRequest)
    : M G (odict string) :=
  session_id ← lift (child_session (sc_input_json q));
  start_workflow (child_start_request parent_run_id q session_id).

(** [_stream_events], as the list of what it yields. *)
Definition stream_events (run_id : string) : M G (list RuntimeEvent) :=
  lg_on_services (sv_on_projection (on_log (el_load run_id 0))).

Fixpoint shutdown_tasks (refs : list nat) : M G unit :=
  match refs with
  | [] => mret tt
  | ref :: refs' =>
      awaits ← cancel_task ref;
      (if (awaits : bool) then suspend else mret tt);;
      shutdown_tasks refs'
  end.

Definition shutdown : M G unit :=
  g ← gets id;
  shutdown_tasks (map snd (_run_tasks g));;
  modify (set_tables ∅ []).

(** The gateway as the facade sees it.  Its coroutines are awaitable; the
    facade's caller brings the handler of [execute_turn]; the clock is that of
    the services, and [uuid4] an oracle on their environment. *)
Context (handler : Action → M G pyval) (next_uuid : E → string * E).

Definition env_value {A} (f : E → A * E) (g : G) : A * G :=
  let sv := lg_services g in
  let w := sv_world sv in
  let '(a, e) := f (w_env w) in
  (a, LocalGateway (Services (sv_projection sv) (World (w_store w) e (w_calls w))) (lg_deduper g)
        (lg_started g) (_workflows g) (_run_tasks g) (_execute_turn_cache g)).

Definition as_workflow_gateway : workflow_gateway G :=
  {| gw_signal := {| ga_signal_workflow :=
                       Some (λ run_id request, signal_workflow run_id request;; mret true);
                     ga_signal_run := None |};
     gw_start_workflow := start_workflow;
     gw_cancel_workflow := cancel_workflow;
     gw_query_projection := query_projection;
     gw_start_child_workflow := start_child_workflow;
     gw_stream_run_events := stream_events;
     gw_execute_turn run_id action key := execute_turn run_id action handler key;
     gw_utc_now := env_value (dp_utc_now deps);
     gw_uuid4 := env_value next_uuid |}.
End gateway.
End LocalWorkflowGateway.

(** ** The process-level dependency bundle

    [RunActorWorkflow()] takes its services from here, and not from the gateway
    that makes it: from a context variable, else a process-wide fallback, else
    new in-memory services.  A context is a number; bundles compare by
    identity. *)
Module RunActorConfig.
Record t (B : Type) := Config {
  _RUN_ACTOR_CONFIG : gmap nat B;
  _RUN_ACTOR_CONFIG_FALLBACK : option B
}.
Arguments Config {B}.
Arguments _RUN_ACTOR_CONFIG {B}.
Arguments _RUN_ACTOR_CONFIG_FALLBACK {B}.

Section config.
Context {B : Type} `{EqDecision B} (default_bundle : B).
Implicit Types c : t B.

Definition configure_run_actor_dependencies (context : nat) (dependencies : option B) c : t B :=
  Config (partial_alter (λ _, dependencies) context (_RUN_ACTOR_CONFIG c)) dependencies.

Definition clear_run_actor_dependencies (context : nat) (token : option B) c : t B :=
  if decide (_RUN_ACTOR_CONFIG_FALLBACK c = token)
  then Config (delete context (_RUN_ACTOR_CONFIG c)) None
  else c.

Definition _resolve_run_actor_dependencies (context : nat) c : B :=
  default default_bundle
    (match _RUN_ACTOR_CONFIG c !! context with
     | Some configured => Some configured
     | None => _RUN_ACTOR_CONFIG_FALLBACK c
     end).
End config.
End RunActorConfig.

(** ** The adaptor

    It makes the gateway and registers its bundle; it runs in the process whose
    dependency registry it changes. *)
Module LocalFSMAdaptor.
Record t (G B : Type) := Adaptor {
  _gateway_instance : option G;
  _deps : option B
}.
Arguments Adaptor {G B}.
Arguments _gateway_instance {G B}.
Arguments _deps {G B}.

Section adaptor.
Context {G B : Type} `{EqDecision B}.
Abbreviation P := (RunActorConfig.t B * t G B)%type.

Definition __init__ : t G B := Adaptor None None.

Definition start (context : nat) (deps : B) (new_gateway : G) : M P unit :=
  modify (λ p, (RunActorConfig.configure_run_actor_dependencies context (Some deps) p.1,
                Adaptor (Some new_gateway) (Some deps))).

Definition on_gateway {A} (m : M G A) : M P (option A) :=
  zoom (λ p, _gateway_instance p.2) (λ o p, (p.1, Adaptor o (_deps p.2))) (when_some m).

Definition stop (context : nat) (shutdown : M G unit) : M P unit :=
  on_gateway shutdown;;
  modify (λ p,
    match _deps p.2 with
    | Some deps =>
        (RunActorConfig.clear_run_actor_dependencies context (Some deps) p.1, p.2)
    | None => p
    end).

Definition not_started_adaptor : exn :=
  Exn RuntimeError "LocalFSMAdaptor.gateway accessed before start() was called.".

Definition gateway (p : P) : outcome G :=
  match _gateway_instance p.2 with Some g => Ok g | None => Raise not_started_adaptor end.
End adaptor.
End LocalFSMAdaptor.
