(* ===== verification/RetainingLog.v ===== *)
(** * Logs that release none of a set of runs

    The interface for theorems about what a log keeps: the SQLite log has it
    for any runs, the in-memory one for no more than it retains. *)
From S2P Require Export EventLog SqliteEventLog.

Class RetainingLog (L : Type) `{EventLogLaws L} (runs : gset string) := {
  rt_ok : L → Prop;
  rt_lawful l : rt_ok l → el_ok l;
  rt_load run k l : rt_ok l → rt_ok (el_load run k l).2;
  rt_append c l : rt_ok l → cm_run_id c ∈ runs →
    rt_ok (el_append c l).2 ∧
    (is_ok (el_append c l).1 = true → ∀ run,
       el_history (el_append c l).2 run = el_history l run ++
         (if decide (run = cm_run_id c)
          then renumber (Z.of_nat (length (el_history l run)) + 1) (map el_normal (cm_events c))
          else []));
  rt_authority e : ev_event_authority (el_normal e) = ev_event_authority e;
  rt_type e : ev_event_type (el_normal e) = ev_event_type e
}.

(** The in-memory log, for no more runs than it retains. *)
Section in_memory.
Import InMemoryKernelRuntimeEventLog.
Context (runs : gset string) (Hsize : size runs ≤ _MAX_RETAINED_RUNS).

Definition within (l : InMemoryKernelRuntimeEventLog.t) : Prop :=
  wf l ∧ ∀ run, run ∈ map fst (_events_by_run l) → run ∈ runs.

Lemma within_no_victim l run : within l → run ∈ runs → victim l run = None.
Proof.
  intros [Hwf Hkeys] Hrun. unfold victim. case_decide as Hd; [|done]. destruct Hd as [Hn Hlen].
  assert (size ({[run]} ∪ list_to_set (map fst (_events_by_run l)) : gset string) ≤ size runs) as Hs.
  { apply subseteq_size. set_solver. }
  rewrite size_union, size_singleton, size_list_to_set, length_map in Hs by (apply Hwf || set_solver).
  lia.
Qed.

Lemma within_append c l :
  within l → cm_run_id c ∈ runs → within (append_action_commit c l).2.
Proof.
  intros Hl Hc. pose proof (within_no_victim l _ Hl Hc) as Hv. destruct Hl as [Hwf Hkeys].
  destruct (decide (cm_events c = [])) as [Hes|Hes].
  { unfold append_action_commit. by rewrite Hes. }
  destruct (append_spec c l Hwf Hes) as (ref & l' & Ha & Hwf' & _ & _). rewrite Ha. split; [done|].
  revert Ha. unfold append_action_commit. destruct (cm_events c) as [|e es]; [done|].
  unfold gets, mbind, M_bind. cbn beta iota zeta. change (@id t l) with l.
  destruct (evict _ _) as [d n] eqn:He.
  destruct (evict_victim l (cm_run_id c) _ _ _ _ Hwf He) as [_ Hd]. rewrite Hv in Hd.
  destruct Hd as [-> _]. intros [= _ <-] run. simpl. rewrite od_set_keys. case_decide; set_solver.
Qed.

Definition in_memory_retains : RetainingLog InMemoryKernelRuntimeEventLog.t runs.
Proof.
  refine {| rt_ok := within |}.
  - by intros l [].
  - done.
  - intros c l Hl Hc. split; [by apply within_append|]. cbn. intros Hok run.
    pose proof (within_no_victim l _ Hl Hc) as Hv. destruct Hl as [Hwf _].
    destruct (decide (cm_events c = [])) as [Hes|Hes].
    { unfold append_action_commit in Hok. by rewrite Hes in Hok. }
    destruct (append_spec c l Hwf Hes) as (ref & l' & -> & _ & _ & Hh). rewrite Hh, Hv, map_id.
    by rewrite decide_False.
  - done.
  - done.
Defined.
End in_memory.

(** The SQLite log, for any runs. *)
#[export] Instance sqlite_retains (runs : gset string) :
  RetainingLog SQLiteKernelRuntimeEventLog.t runs.
Proof.
  refine {| rt_ok := el_ok |}.
  - done.
  - intros run k l Hl. pose proof (law_load run k l Hl). destruct (el_load run k l). naive_solver.
  - intros c l Hl Hc. pose proof (law_append c l Hl) as Ha.
    destruct Hl as (Hi & Hal & Hok).
    pose proof (table_append_spec whole SQLiteKernelRuntimeEventLog.normal
      SQLiteKernelRuntimeEventLog.append_action_commit append_serial c l Hi Hok
      (alone_grows whole l Hal)) as Hs.
    change (SQLiteKernelRuntimeEventLog.append_action_commit c l) with (el_append c l) in Hs.
    destruct (el_append c l) as [[ref|e] l']; [|by destruct Ha].
    split; [by destruct Ha|]. intros _ run.
    destruct Hs as (_ & _ & _ & _ & v & Hp & Hst). cbn. rewrite Hst.
    by rewrite (passes_alone l v Hal Hp).
  - done.
  - done.
Qed.

(** ** One run *)
Definition example_runs : gset string := {["run-1"]}.

Lemma example_retained : size example_runs ≤ InMemoryKernelRuntimeEventLog._MAX_RETAINED_RUNS.
Proof. apply (bool_decide_unpack _). vm_compute. exact I. Qed.

Definition example_retaining := in_memory_retains example_runs example_retained.
