(* ===== verification/TemporalGateway.v ===== *)
(** * The Temporal gateways ([substrate/temporal/gateway.py], [activity_gateway.py])

    The gateway that turns the facade's requests into calls of a Temporal
    client, and the one that routes activities to handlers.  The client is a
    third-party package: its calls are a parameter, and what is assumed of
    them is the class [TemporalClientLaws].  Logging is left out. *)
From S2P Require Import Admission.
From S2P Require Export LocalSubstrate Scripts.
From S2P Require Import ProjectionCache.

(** ** [int(v)] and [list(v)] of a payload value *)
Definition py_int_of_str (raw : string) : outcome Z :=
  let bad := Raise (Exn ValueError ("invalid literal for int() with base 10: " +:+ str_repr raw)) in
  let '(neg, s) := scan_sign (py_strip raw) in
  match scan_digits s 0 0 false with
  | Some (z, n, "") =>
      if (n =? 0)%nat then bad
      else if AgentCoreCheckpointAdapter.int_max_str_digits <? n
      then Raise (Exn ValueError "Exceeds the limit (4300 digits) for integer string conversion")
      else Ok (if neg : bool then (- z)%Z else z)
  | _ => bad
  end.

Definition py_int (v : pyval) : outcome Z :=
  match v with
  | PInt z => Ok z
  | PBool b => Ok (if b then 1 else 0)%Z
  | PFloat S754_nan => Raise (Exn ValueError "cannot convert float NaN to integer")
  | PFloat (S754_infinity _) =>
      Raise (Exn OverflowError "cannot convert float infinity to integer")
  | PFloat f => Ok (float_trunc f)
  | PStr s => py_int_of_str s
  | _ => Raise (Exn TypeError "int() argument must be a string, a bytes-like object or a real number")
  end.

Definition other_field_type : exn := Exn Unmodelled "a field of another type".

Definition opt_text (v : pyval) : outcome (option string) :=
  match v with PNone => Ok None | PStr s => Ok (Some s) | _ => Raise other_field_type end.

Definition texts_of (l : list pyval) : outcome (list string) :=
  match mapM is_str l with Some ss => Ok ss | None => Raise other_field_type end.

(** [list(v)], as the list of texts it has to be. *)
Definition py_list_of_texts (v : pyval) : outcome (list string) :=
  match v with
  | PList l => texts_of l
  | PDict d => Ok (map fst d)
  | PStr s => Ok (map (λ c, String c "") (String.list_ascii_of_string s))
  | _ => Raise (Exn TypeError "object is not iterable")
  end.

(** ** Activity handlers *)
Module TemporalSDKActivityGateway.
Section gateway.
Context {E : Type}.

(** The handler tables and the one optional binding of the DTOs modelled. *)
Record t := ActivityGateway {
  _tool_handlers : odict (ToolActivityInput → M E pyval);
  _mcp_handlers : list (string * string * (MCPActivityInput → M E pyval));
  _script_activity : option (ScriptActivityInput → M E ScriptResult)
}.

Definition ActivityHandlerNotRegisteredError (route identifier : string) : exn :=
  Exn (OtherError "ActivityHandlerNotRegisteredError")
    ("No registered " +:+ route +:+ " activity handler for '" +:+ identifier
     +:+ "'. Register an explicit handler before execution.").

Definition register_tool_handler (tool_name : string) (handler : ToolActivityInput → M E pyval)
    (g : t) : t :=
  ActivityGateway (od_set tool_name handler (_tool_handlers g)) (_mcp_handlers g)
    (_script_activity g).

Definition get_tool_handler (tool_name : string) (g : t) : outcome (ToolActivityInput → M E pyval) :=
  match od_get tool_name (_tool_handlers g) with
  | None => Raise (ActivityHandlerNotRegisteredError "tool" tool_name)
  | Some handler => Ok handler
  end.

(** A dictionary keyed by pairs. *)
Fixpoint mcp_get (key : string * string)
    (d : list (string * string * (MCPActivityInput → M E pyval))) :=
  match d with
  | [] => None
  | (key', handler) :: d' => if decide (key = key') then Some handler else mcp_get key d'
  end.

Fixpoint mcp_set (key : string * string) (handler : MCPActivityInput → M E pyval)
    (d : list (string * string * (MCPActivityInput → M E pyval))) :=
  match d with
  | [] => [(key, handler)]
  | (key', handler') :: d' =>
      if decide (key = key') then (key, handler) :: d' else (key', handler') :: mcp_set key handler d'
  end.

Definition register_mcp_handler (server_name capability : string)
    (handler : MCPActivityInput → M E pyval) (g : t) : t :=
  ActivityGateway (_tool_handlers g) (mcp_set (server_name, capability) handler (_mcp_handlers g))
    (_script_activity g).

Definition get_mcp_handler (server_name capability : string) (g : t)
    : outcome (MCPActivityInput → M E pyval) :=
  match mcp_get (server_name, capability) (_mcp_handlers g) with
  | None =>
      Raise (ActivityHandlerNotRegisteredError "mcp" (server_name +:+ "/" +:+ capability))
  | Some handler => Ok handler
  end.

(** [_invoke] awaits what the callable returns. *)
Definition execute_tool (g : t) (request : ToolActivityInput) : M E pyval :=
  handler ← lift (get_tool_handler (tool_tool_name request) g);
  handler request.

Definition execute_mcp (g : t) (request : MCPActivityInput) : M E pyval :=
  handler ← lift (get_mcp_handler (mcp_server_name request) (mcp_operation request) g);
  handler request.

Definition execute_skill_script (g : t) (request : ScriptActivityInput) : M E ScriptResult :=
  match _script_activity g with
  | None =>
      raise (Exn RuntimeError "No script_activity callable registered in TemporalActivityBindings.")
  | Some script_activity => script_activity request
  end.
End gateway.
Arguments t : clear implicits.
End TemporalSDKActivityGateway.

(** ** The client *)

(** What a workflow query answers, after the data converter. *)
Inductive query_answer :=
  | AnswerProjection (p : RunProjection)
  | AnswerResponse (r : QueryRunResponse)
  | AnswerEvents (items : list (RuntimeEvent + pyval))
  | AnswerValue (v : pyval).

(** [client.start_workflow(..., id=, task_queue=)], and [signal], [cancel] and
    [query] of the handle of a workflow id. *)
Record temporal_client (E : Type) := {
  tc_start_workflow : string → string → RunInput → M E unit;
  tc_signal : string → string → pydict → M E unit;
  tc_cancel : string → option string → M E unit;
  tc_query : string → string → M E query_answer
}.
Arguments tc_start_workflow {E}.
Arguments tc_signal {E}.
Arguments tc_cancel {E}.
Arguments tc_query {E}.

(** ** The workflow gateway *)
Module TemporalSDKWorkflowGateway.
(** [TemporalGatewayConfig]; the workflow that is started is the run actor. *)
Record config := {
  task_queue : string;
  workflow_id_prefix : string;
  child_workflow_suffix : string;
  signal_method_name : string;
  query_method_name : string;
  event_stream_query_method_name : option string
}.

Definition default_config : config :=
  {| task_queue := "agent-kernel"; workflow_id_prefix := "run"; child_workflow_suffix := "child";
     signal_method_name := "signal"; query_method_name := "query";
     event_stream_query_method_name := None |}.

(** *** Identifiers *)
Definition given_run_id (input_json : option pydict) : option string :=
  match input_json with
  | Some ((_ :: _) as d) => is_str (py_get "run_id" d)
  | _ => None
  end.

Definition _build_run_id (q : StartRunRequest) : string :=
  match given_run_id (st_input_json q), st_parent_run_id q, st_session_id q with
  | Some run_id, _, _ => run_id
  | None, Some ((String _ _) as parent), _ => parent +:+ ":" +:+ st_run_kind q
  | None, _, Some ((String _ _) as session) => session +:+ ":" +:+ st_run_kind q
  | None, _, _ => st_run_kind q
  end.

Definition child_run_id_of (parent_run_id : string) (q : SpawnChildRunRequest) : string :=
  match sc_input_json q with
  | Some ((_ :: _) as d) =>
      match py_get "child_run_id" d with
      | PStr ((String _ _) as child_run_id) => child_run_id
      | _ => parent_run_id +:+ ":" +:+ sc_child_kind q
      end
  | _ => parent_run_id +:+ ":" +:+ sc_child_kind q
  end.

Definition _workflow_id_for_run (cfg : config) (run_id : string) : string :=
  workflow_id_prefix cfg +:+ ":" +:+ run_id.

Definition _workflow_id_for_child (cfg : config) (parent_run_id child_run_id : string) : string :=
  workflow_id_prefix cfg +:+ ":" +:+ child_workflow_suffix cfg +:+ ":" +:+ parent_run_id
  +:+ ":" +:+ child_run_id.

(** *** What the run actor is started with *)
Definition run_input_of (run_id : string) (q : StartRunRequest) : RunInput :=
  {| rn_run_id := run_id; rn_session_id := st_session_id q;
     rn_parent_run_id := st_parent_run_id q; rn_input_ref := st_input_ref q;
     rn_input_json := st_input_json q; rn_runtime_context_ref := st_context_ref q;
     rn_trace_context := None; rn_pending_signals := None;
     (* [getattr(request, "policy_versions", None)]: the request has none *)
     rn_policy_versions := None;
     rn_initial_stage_id := st_initial_stage_id q;
     rn_task_contract_ref := st_task_contract_ref q |}.

Definition child_input_of (parent_run_id child_run_id : string) (q : SpawnChildRunRequest)
    (session_id : option string) : RunInput :=
  {| rn_run_id := child_run_id; rn_session_id := session_id;
     rn_parent_run_id := Some parent_run_id; rn_input_ref := sc_input_ref q;
     rn_input_json := sc_input_json q; rn_runtime_context_ref := None;
     rn_trace_context := None; rn_pending_signals := None; rn_policy_versions := None;
     rn_initial_stage_id := None; rn_task_contract_ref := None |}.

Definition signal_dict (signal : SignalRunRequest) : pydict :=
  [("signal_type", PStr (sr_signal_type signal));
   ("signal_payload", match sr_signal_payload signal with Some d => PDict d | None => PNone end);
   ("caused_by", opt_str (sr_caused_by signal))].

(** *** Answers *)
Definition projection_of_response (r : QueryRunResponse) : RunProjection :=
  {| pj_run_id := qr_run_id r; pj_lifecycle_state := qr_lifecycle_state r;
     pj_projected_offset := qr_projected_offset r; pj_waiting_external := qr_waiting_external r;
     pj_ready_for_dispatch := false; pj_current_action_id := qr_current_action_id r;
     pj_recovery_mode := qr_recovery_mode r; pj_recovery_reason := qr_recovery_reason r;
     pj_active_child_runs := qr_active_child_runs r; pj_policy_versions := None;
     pj_task_contract_ref := None |}.

Definition projection_of_dict (run_id : string) (d : pydict) : outcome RunProjection :=
  lifecycle_state ←
    match py_get_or "lifecycle_state" d (PStr "created") with
    | PStr s => match parse_lifecycle s with Some st => Ok st | None => Raise other_field_type end
    | _ => Raise other_field_type
    end;
  projected_offset ← py_int (py_get_or "projected_offset" d (PInt 0));
  current_action_id ← opt_text (py_get "current_action_id" d);
  recovery_mode ← opt_text (py_get "recovery_mode" d);
  recovery_reason ← opt_text (py_get "recovery_reason" d);
  active_child_runs ← py_list_of_texts (py_get_or "active_child_runs" d (PList []));
  Ok {| pj_run_id := py_str (py_get_or "run_id" d (PStr run_id));
        pj_lifecycle_state := lifecycle_state; pj_projected_offset := projected_offset;
        pj_waiting_external := py_truthy (py_get_or "waiting_external" d (PBool false));
        pj_ready_for_dispatch := py_truthy (py_get_or "ready_for_dispatch" d (PBool false));
        pj_current_action_id := current_action_id; pj_recovery_mode := recovery_mode;
        pj_recovery_reason := recovery_reason; pj_active_child_runs := active_child_runs;
        pj_policy_versions := None; pj_task_contract_ref := None |}.

Definition unsupported_projection : exn :=
  Exn TypeError "Unsupported projection payload returned by Temporal query.".

Definition projection_of_answer (run_id : string) (a : query_answer) : outcome RunProjection :=
  match a with
  | AnswerProjection p => Ok p
  | AnswerResponse r => Ok (projection_of_response r)
  | AnswerValue (PDict d) => projection_of_dict run_id d
  | _ => Raise unsupported_projection
  end.

(** The authorities are the literals of the contract. *)
Definition parse_authority (s : string) : outcome EventAuthority :=
  if decide (s = "authoritative_fact") then Ok authoritative_fact
  else if decide (s = "derived_replayable") then Ok derived_replayable
  else if decide (s = "derived_diagnostic") then Ok derived_diagnostic
  else Raise other_field_type.

Definition _coerce_runtime_event (run_id : string) (item : RuntimeEvent + pyval)
    : outcome RuntimeEvent :=
  match item with
  | inl e => Ok e
  | inr (PDict d) =>
      let text k default := py_str (py_get_or k d (PStr default)) in
      commit_offset ← py_int (py_get_or "commit_offset" d (PInt 0));
      authority ← parse_authority (text "event_authority" "authoritative_fact");
      Ok {| ev_run_id := text "run_id" run_id; ev_event_id := text "event_id" "";
            ev_commit_offset := commit_offset; ev_event_type := text "event_type" "";
            ev_event_class := text "event_class" "fact"; ev_event_authority := authority;
            ev_ordering_key := text "ordering_key" run_id;
            ev_wake_policy := text "wake_policy" "projection_only";
            ev_created_at := text "created_at" "";
            ev_idempotency_key := is_str (py_get "idempotency_key" d);
            ev_payload_ref := is_str (py_get "payload_ref" d);
            ev_payload_json := is_dict (py_get "payload_json" d);
            ev_schema_version := "1" |}
  | inr _ => Raise (Exn TypeError "Unsupported runtime event item returned by Temporal query.")
  end.

Definition unsupported_stream : exn :=
  Exn TypeError "Unsupported runtime event stream payload returned by Temporal query.".

Definition _normalize_event_stream_payload (run_id : string) (a : query_answer)
    : outcome (list RuntimeEvent) :=
  let coerce_all (items : list (RuntimeEvent + pyval)) :=
    mapM (_coerce_runtime_event run_id) items in
  match a with
  | AnswerEvents items => coerce_all items
  | AnswerValue PNone => Ok []
  | AnswerValue (PDict d) =>
      match py_get "events" d with
      | PList l => coerce_all (map inr l)
      | _ => Raise unsupported_stream
      end
  | AnswerValue (PList l) => coerce_all (map inr l)
  | _ => Raise unsupported_stream
  end.

(** *** Operations *)
Section gateway.
Context {E : Type} (client : temporal_client E).
Context (activity_gateway : option (TemporalSDKActivityGateway.t E)) (cfg : config).

Definition start_workflow (q : StartRunRequest) : M E (odict string) :=
  let run_id := _build_run_id q in
  let workflow_id := _workflow_id_for_run cfg run_id in
  tc_start_workflow client workflow_id (task_queue cfg) (run_input_of run_id q);;
  mret [("workflow_id", workflow_id); ("run_id", run_id)].

Definition signal_workflow (run_id : string) (signal : SignalRunRequest) : M E unit :=
  tc_signal client (_workflow_id_for_run cfg run_id) (signal_method_name cfg) (signal_dict signal).

(** A client whose [cancel] takes no reason raises [TypeError]. *)
Definition cancel_workflow (run_id reason : string) : M E unit :=
  let cancel := tc_cancel client (_workflow_id_for_run cfg run_id) in
  try_except (cancel (Some reason)) (λ e, bool_decide (exn_cls e = TypeError)) (λ _, cancel None).

Definition query_projection (run_id : string) : M E RunProjection :=
  projection_like ← tc_query client (_workflow_id_for_run cfg run_id) (query_method_name cfg);
  lift (projection_of_answer run_id projection_like).

Definition start_child_workflow (parent_run_id : string) (q : SpawnChildRunRequest)
    : M E (odict string) :=
  let child_run_id := child_run_id_of parent_run_id q in
  let workflow_id := _workflow_id_for_child cfg parent_run_id child_run_id in
  session_id ← lift (LocalWorkflowGateway.child_session (sc_input_json q));
  tc_start_workflow client workflow_id (task_queue cfg)
    (child_input_of parent_run_id child_run_id q session_id);;
  mret [("workflow_id", workflow_id); ("run_id", child_run_id)].

(** An [Action] has none of the attributes [tool_name], [mcp_server],
    [mcp_capability] and [arguments], so [getattr] answers its default. *)
Definition execute_turn (run_id : string) (action : Action)
    (handler : option (Action → M E pyval)) (idempotency_key : string) : M E pyval :=
  match activity_gateway with
  | None =>
      raise (Exn RuntimeError ("execute_turn requires an activity_gateway; "
               +:+ "pass activity_gateway= to TemporalSDKWorkflowGateway."))
  | Some g =>
      if decide (act_action_type action = "tool_call") then
        TemporalSDKActivityGateway.execute_tool g
          {| tool_run_id := run_id; tool_action_id := idempotency_key; tool_tool_name := "";
             tool_arguments := [] |}
      else if decide (act_action_type action = "mcp_call") then
        TemporalSDKActivityGateway.execute_mcp g
          {| mcp_run_id := run_id; mcp_action_id := idempotency_key; mcp_server_name := "";
             mcp_operation := ""; mcp_arguments := [] |}
      else
        match handler with
        | Some handler => handler action
        | None =>
            raise (Exn ValueError ("execute_turn: unsupported action_type="
                     +:+ str_repr (act_action_type action)
                     +:+ ". TemporalSDKWorkflowGateway routes only 'tool_call' (via execute_tool) "
                     +:+ "and 'mcp_call' (via execute_mcp) through activity_gateway. "
                     +:+ "For other action types either provide a handler= at call time, register "
                     +:+ "a dedicated Temporal activity and route it through activity_gateway, or "
                     +:+ "use LocalWorkflowGateway for in-process dispatch."))
        end
  end.

(** [_stream_run_events], as the list of what it yields. *)
Definition stream_run_events (run_id : string) : M E (list RuntimeEvent) :=
  match event_stream_query_method_name cfg with
  | None =>
      raise (Exn RuntimeError ("stream_run_events is not operational: "
               +:+ "TemporalGatewayConfig.event_stream_query_method_name is not set. "
               +:+ "Configure this field to the Temporal workflow query method that "
               +:+ "exposes the runtime event log (e.g. 'query_runtime_events'). "
               +:+ "run_id=" +:+ str_repr run_id))
  | Some query_name =>
      stream_payload ← tc_query client (_workflow_id_for_run cfg run_id) query_name;
      lift (_normalize_event_stream_payload run_id stream_payload)
  end.
End gateway.
End TemporalSDKWorkflowGateway.

(** The gateway [TemporalAdaptor.start] makes. *)
Module TemporalAdaptor.
Import TemporalSDKWorkflowGateway.

Definition gateway_config (queue prefix : string) : config :=
  {| task_queue := queue; workflow_id_prefix := prefix; child_workflow_suffix := "child";
     signal_method_name := "signal"; query_method_name := "query";
     event_stream_query_method_name := None |}.

Section adaptor.
Context {E : Type} (client : temporal_client E) (queue prefix : string).

Definition execute_turn := TemporalSDKWorkflowGateway.execute_turn (E := E) None.
Definition stream_run_events :=
  TemporalSDKWorkflowGateway.stream_run_events client (gateway_config queue prefix).
End adaptor.
End TemporalAdaptor.

(** ** What is assumed of a client

    The workflows that were started, by workflow id: the input, the signals
    delivered and whether cancellation was requested.  An operation that
    raises did nothing, or was done and its answer was lost; one on a workflow
    that was never started does not succeed. *)
Record workflow_history := History {
  wh_input : RunInput;
  wh_signals : list (string * pydict);
  wh_cancelled : bool
}.

Abbreviation workflows := (gmap string workflow_history).

Definition add_signal (name : string) (d : pydict) (h : workflow_history) : workflow_history :=
  History (wh_input h) (wh_signals h ++ [(name, d)]) (wh_cancelled h).
Definition request_cancel (h : workflow_history) : workflow_history :=
  History (wh_input h) (wh_signals h) true.

(** Change the history at [id], which must be there. *)
Definition at_workflow (id : string) (f : workflow_history → workflow_history) (ws : workflows)
    : option workflows :=
  (λ h, <[id := f h]> ws) <$> ws !! id.

Definition rpc {E A} (view : E → workflows) (m : M E A) (step : workflows → option workflows)
    : Prop :=
  ∀ e, match m e with
       | (Ok _, e') => step (view e) = Some (view e')
       | (Raise _, e') => view e' = view e ∨ step (view e) = Some (view e')
       end.

Class TemporalClientLaws {E} (client : temporal_client E) := {
  tl_view : E → workflows;
  law_start id queue i :
    rpc tl_view (tc_start_workflow client id queue i) (λ ws, Some (<[id := History i [] false]> ws));
  law_signal id name d :
    rpc tl_view (tc_signal client id name d) (at_workflow id (add_signal name d));
  law_cancel id reason :
    rpc tl_view (tc_cancel client id reason) (at_workflow id request_cancel);
  law_query id name :
    rpc tl_view (tc_query client id name) (at_workflow id (λ h, h))
}.

(** ** The gateway as a table of runs *)
Inductive gateway_op :=
  | GoStart (q : StartRunRequest)
  | GoSignal (run_id : string) (signal : SignalRunRequest)
  | GoCancel (run_id reason : string)
  | GoQuery (run_id : string)
  | GoChild (parent_run_id : string) (q : SpawnChildRunRequest).

(** An operation and the run id that it told its caller. *)
Definition run_gateway_op {E} (client : temporal_client E) (cfg : TemporalSDKWorkflowGateway.config)
    (op : gateway_op) : M E (option string) :=
  match op with
  | GoStart q =>
      d ← TemporalSDKWorkflowGateway.start_workflow client cfg q; mret (od_get "run_id" d)
  | GoSignal run_id signal =>
      TemporalSDKWorkflowGateway.signal_workflow client cfg run_id signal;; mret None
  | GoCancel run_id reason =>
      TemporalSDKWorkflowGateway.cancel_workflow client cfg run_id reason;; mret None
  | GoQuery run_id => TemporalSDKWorkflowGateway.query_projection client cfg run_id;; mret None
  | GoChild parent_run_id q =>
      d ← TemporalSDKWorkflowGateway.start_child_workflow client cfg parent_run_id q;
      mret (od_get "run_id" d)
  end.

Fixpoint run_gateway_ops {E} (client : temporal_client E) (cfg : TemporalSDKWorkflowGateway.config)
    (ops : list gateway_op) (e : E) : list (outcome (option string)) * E :=
  match ops with
  | [] => ([], e)
  | op :: ops' =>
      let '(o, e1) := run_gateway_op client cfg op e in
      let '(os, e2) := run_gateway_ops client cfg ops' e1 in
      (o :: os, e2)
  end.

(** The name under which a child is registered. *)
Definition child_name (cfg : TemporalSDKWorkflowGateway.config) (parent_run_id child_run_id : string)
    : string :=
  TemporalSDKWorkflowGateway.child_workflow_suffix cfg +:+ ":" +:+ parent_run_id +:+ ":"
  +:+ child_run_id.

(** The name of the run that an operation starts or is aimed at. *)
Definition addressee (cfg : TemporalSDKWorkflowGateway.config) (op : gateway_op) : string :=
  match op with
  | GoStart q => TemporalSDKWorkflowGateway._build_run_id q
  | GoSignal run_id _ | GoCancel run_id _ | GoQuery run_id => run_id
  | GoChild parent q => child_name cfg parent (TemporalSDKWorkflowGateway.child_run_id_of parent q)
  end.
Definition starts (op : gateway_op) : bool :=
  match op with GoStart _ | GoChild _ _ => true | _ => false end.

(** The operation on a table from names of runs to histories. *)
Definition spec_gateway_op (cfg : TemporalSDKWorkflowGateway.config) (op : gateway_op)
    (runs : workflows) : option (option string * workflows) :=
  let quiet (o : option workflows) := (λ runs', (None, runs')) <$> o in
  match op with
  | GoStart q =>
      let run_id := TemporalSDKWorkflowGateway._build_run_id q in
      Some (Some run_id,
            <[run_id := History (TemporalSDKWorkflowGateway.run_input_of run_id q) [] false]> runs)
  | GoSignal run_id signal =>
      quiet (at_workflow run_id
        (add_signal (TemporalSDKWorkflowGateway.signal_method_name cfg)
           (TemporalSDKWorkflowGateway.signal_dict signal)) runs)
  | GoCancel run_id _ => quiet (at_workflow run_id request_cancel runs)
  | GoQuery run_id => quiet (at_workflow run_id (λ h, h) runs)
  | GoChild parent_run_id q =>
      let child_run_id := TemporalSDKWorkflowGateway.child_run_id_of parent_run_id q in
      match LocalWorkflowGateway.child_session (sc_input_json q) with
      | Ok session_id =>
          Some (Some child_run_id,
                <[child_name cfg parent_run_id child_run_id :=
                  History (TemporalSDKWorkflowGateway.child_input_of parent_run_id child_run_id q
                             session_id) [] false]> runs)
      | Raise _ => None
      end
  end.

(** The runs among the workflows: those with the gateway's prefix. *)
Definition represents (cfg : TemporalSDKWorkflowGateway.config) (ws runs : workflows) : Prop :=
  ∀ run_id, ws !! TemporalSDKWorkflowGateway._workflow_id_for_run cfg run_id = runs !! run_id.

Section refinement.
Context {E : Type} (client : temporal_client E) `{!TemporalClientLaws client}.
Context (cfg : TemporalSDKWorkflowGateway.config).
Import TemporalSDKWorkflowGateway.

Lemma workflow_id_inj run_id run_id' :
  _workflow_id_for_run cfg run_id = _workflow_id_for_run cfg run_id' → run_id = run_id'.
Proof. unfold _workflow_id_for_run. by intros ?%app_inj%app_inj. Qed.

Lemma child_workflow_id parent child :
  _workflow_id_for_child cfg parent child = _workflow_id_for_run cfg (child_name cfg parent child).
Proof. done. Qed.

Lemma child_name_other parent child : child_name cfg parent child ≠ child.
Proof.
  intros Heq%(f_equal String.length). revert Heq. unfold child_name.
  rewrite !length_str_app. simpl. lia.
Qed.

Lemma represents_insert ws runs run_id h :
  represents cfg ws runs →
  represents cfg (<[_workflow_id_for_run cfg run_id := h]> ws) (<[run_id := h]> runs).
Proof.
  intros Hr run_id'. destruct (decide (run_id = run_id')) as [<-|Hne].
  - by rewrite !lookup_insert_eq.
  - rewrite !lookup_insert_ne; [apply Hr|done|]. by intros ?%workflow_id_inj.
Qed.

(** A step at a workflow id is the step at its name. *)
Lemma represents_at ws ws' runs run_id f :
  represents cfg ws runs → at_workflow (_workflow_id_for_run cfg run_id) f ws = Some ws' →
  ∃ runs', at_workflow run_id f runs = Some runs' ∧ represents cfg ws' runs'.
Proof.
  intros Hr (h & Hh & ->)%fmap_Some. unfold at_workflow. rewrite Hr in Hh. rewrite Hh.
  eexists. split; [done|]. by apply represents_insert.
Qed.

Lemma rpc_mono {A} view (m : M E A) (step step' : workflows → option workflows) :
  (∀ ws ws', step ws = Some ws' → step' ws = Some ws') → rpc view m step → rpc view m step'.
Proof. intros Hs Hm e. specialize (Hm e). destruct (m e) as [[]]; naive_solver. Qed.

(** After a call come pure steps, which may raise. *)
Lemma rpc_then {A B} view (m : M E A) (f : A → outcome B) step :
  rpc view m step → rpc view (a ← m; lift (f a)) step.
Proof.
  intros Hm e. specialize (Hm e). unfold mbind, M_bind, lift.
  destruct (m e) as [[a|x] e']; [|done]. destruct (f a); auto.
Qed.

Lemma request_cancel_twice id ws ws' :
  at_workflow id request_cancel ws = Some ws' → at_workflow id request_cancel ws' = Some ws'.
Proof.
  intros (h & Hh & ->)%fmap_Some. unfold at_workflow. rewrite lookup_insert_eq. simpl.
  by rewrite insert_insert_eq.
Qed.

Lemma cancel_rpc run_id reason :
  rpc tl_view (cancel_workflow client cfg run_id reason)
    (at_workflow (_workflow_id_for_run cfg run_id) request_cancel).
Proof.
  intros e. unfold cancel_workflow, try_except. set (id := _workflow_id_for_run cfg run_id).
  pose proof (law_cancel id (Some reason) e) as H1.
  destruct (tc_cancel client id (Some reason) e) as [[[]|x] e1]; [done|].
  destruct (bool_decide _); [|done].
  pose proof (law_cancel id None e1) as H2.
  destruct (tc_cancel client id None e1) as [[[]|y] e2].
  - destruct H1 as [H1|H1]; [by rewrite <- H1|].
    rewrite (request_cancel_twice _ _ _ H1) in H2. congruence.
  - destruct H1 as [H1|H1].
    + destruct H2 as [H2|H2]; [left|right]; congruence.
    + right. destruct H2 as [H2|H2]; [congruence|].
      rewrite (request_cancel_twice _ _ _ H1) in H2. congruence.
Qed.

(** The calls of an operation as one step at a workflow id. *)
Lemma rpc_unit {A} view (m : M E A) step (B : Type) (b : B) :
  rpc view m step → rpc view (m;; mret b) step.
Proof. intros Hm. exact (rpc_then view m (λ _, Ok b) step Hm). Qed.

Definition gateway_step (op : gateway_op) (ws : workflows) : option workflows :=
  match op with
  | GoStart q =>
      let run_id := _build_run_id q in
      Some (<[_workflow_id_for_run cfg run_id := History (run_input_of run_id q) [] false]> ws)
  | GoSignal run_id signal =>
      at_workflow (_workflow_id_for_run cfg run_id)
        (add_signal (signal_method_name cfg) (signal_dict signal)) ws
  | GoCancel run_id _ => at_workflow (_workflow_id_for_run cfg run_id) request_cancel ws
  | GoQuery run_id => at_workflow (_workflow_id_for_run cfg run_id) (λ h, h) ws
  | GoChild parent q =>
      let child := child_run_id_of parent q in
      match LocalWorkflowGateway.child_session (sc_input_json q) with
      | Ok session =>
          Some (<[_workflow_id_for_child cfg parent child :=
                  History (child_input_of parent child q session) [] false]> ws)
      | Raise _ => None
      end
  end.

(** The run id an operation tells. *)
Definition told (op : gateway_op) : option string :=
  match op with
  | GoStart q => Some (_build_run_id q)
  | GoChild parent q => Some (child_run_id_of parent q)
  | _ => None
  end.

Lemma gateway_op_rpc op : rpc tl_view (run_gateway_op client cfg op) (gateway_step op).
Proof.
  destruct op as [q|run_id s|run_id reason|run_id|parent q]; simpl.
  - intros e. unfold start_workflow, mbind, M_bind.
    match goal with |- context [tc_start_workflow client ?i ?q ?x] =>
      pose proof (law_start i q x e) as H; destruct (tc_start_workflow client i q x e) as [[[]|x'] e']
    end; apply H.
  - apply rpc_unit, law_signal.
  - apply rpc_unit, cancel_rpc.
  - apply rpc_unit. apply rpc_then, law_query.
  - intros e. unfold start_child_workflow, mbind, M_bind, lift, gateway_step.
    destruct (LocalWorkflowGateway.child_session _) as [session|x]; [|by left].
    match goal with |- context [tc_start_workflow client ?i ?q ?x] =>
      pose proof (law_start i q x e) as H; destruct (tc_start_workflow client i q x e) as [[[]|x'] e']
    end; apply H.
Qed.

Lemma gateway_op_told op e o e' : run_gateway_op client cfg op e = (Ok o, e') → o = told op.
Proof.
  destruct op; simpl; unfold start_workflow, start_child_workflow, mbind, M_bind, lift;
    unfold mret, M_ret; repeat case_match; intros; by simplify_eq/=.
Qed.

Lemma gateway_step_spec op ws ws' runs :
  represents cfg ws runs → gateway_step op ws = Some ws' →
  ∃ runs', spec_gateway_op cfg op runs = Some (told op, runs') ∧ represents cfg ws' runs'.
Proof.
  intros Hr Hs. destruct op as [q|run_id s|run_id reason|run_id|parent q]; simpl in *.
  2-4: destruct (represents_at _ _ _ _ _ Hr Hs) as (runs' & -> & ?); by eexists.
  - simplify_eq. eexists. split; [done|]. by apply represents_insert.
  - destruct (LocalWorkflowGateway.child_session _) as [session|]; simplify_eq.
    eexists. split; [done|]. rewrite child_workflow_id. by apply represents_insert.
Qed.

(** An operation leaves alone every workflow but that of its addressee, and
    unless it starts that one it succeeds only where it is there. *)
Lemma addressee_step op ws ws' :
  gateway_step op ws = Some ws' →
  (∀ name, addressee cfg op ≠ name →
     ws' !! _workflow_id_for_run cfg name = ws !! _workflow_id_for_run cfg name) ∧
  (starts op = false → is_Some (ws !! _workflow_id_for_run cfg (addressee cfg op))).
Proof.
  assert (∀ n n' h, n ≠ n' → <[_workflow_id_for_run cfg n := h]> ws !! _workflow_id_for_run cfg n'
                             = ws !! _workflow_id_for_run cfg n') as Hne.
  { intros n n' h Hn. apply lookup_insert_ne. by intros ?%workflow_id_inj. }
  destruct op as [q|run_id s|run_id reason|run_id|parent q]; simpl.
  2-4: intros (h & Hh & ->)%fmap_Some; split; [by intros; apply Hne|by exists h].
  - intros [= <-]. split; [by intros; apply Hne|done].
  - destruct (LocalWorkflowGateway.child_session _); [|done]. intros [= <-]. split; [|done].
    intros name Hn. rewrite child_workflow_id. by apply Hne.
Qed.

Lemma run_op_cases op e :
  let '(o, e') := run_gateway_op client cfg op e in
  (tl_view e' = tl_view e ∧ is_ok o = false) ∨ gateway_step op (tl_view e) = Some (tl_view e').
Proof. pose proof (gateway_op_rpc op e) as H. destruct (run_gateway_op client cfg op e) as [[]]; naive_solver. Qed.

Lemma others_untouched name ops e :
  Forall (λ op, addressee cfg op ≠ name) ops →
  tl_view (run_gateway_ops client cfg ops e).2 !! _workflow_id_for_run cfg name
  = tl_view e !! _workflow_id_for_run cfg name.
Proof.
  intros Hops. revert e. induction Hops as [|op ops Hop _ IH]; intros e; simpl; [done|].
  pose proof (run_op_cases op e) as Hc. destruct (run_gateway_op client cfg op e) as [o e1].
  specialize (IH e1). destruct (run_gateway_ops client cfg ops e1) as [answers e2]. simpl in *.
  rewrite IH. destruct Hc as [[-> _]|Hs]; [done|]. by apply (addressee_step op).
Qed.

Lemma absent_refused name ops e :
  Forall (λ op, starts op = true → addressee cfg op ≠ name) ops →
  tl_view e !! _workflow_id_for_run cfg name = None →
  Forall2 (λ op o, addressee cfg op = name → is_ok o = false) ops
    (run_gateway_ops client cfg ops e).1.
Proof.
  intros Hops. revert e. induction Hops as [|op ops Hop _ IH]; intros e Hn; simpl; [constructor|].
  pose proof (run_op_cases op e) as Hc. destruct (run_gateway_op client cfg op e) as [o e1].
  specialize (IH e1). destruct (run_gateway_ops client cfg ops e1) as [answers e2]. simpl in *.
  destruct Hc as [[Hv Ho]|Hs]; [constructor; [done|apply IH; by rewrite Hv]|].
  destruct (addressee_step _ _ _ Hs) as [Hf Hthere].
  assert (addressee cfg op ≠ name) as Hne.
  { intros <-. destruct (starts op); [by apply Hop|]. destruct (Hthere eq_refl) as [h Hh]. congruence. }
  constructor; [done|]. apply IH. by rewrite Hf.
Qed.
End refinement.

(** C29: over a client that obeys the laws, the gateway is a table of runs: a
    start registers the run under the id it tells, with the input of the
    request; signals, cancellations and queries reach the run of their id, and
    succeed only where it was started; a child is registered under its parent's
    and its own id, which is not the id it tells.  An operation that raises did
    nothing or the whole of it. *)
Theorem temporal_gateway_refines {E} (client : temporal_client E) `{!TemporalClientLaws client}
    cfg op e runs :
  represents cfg (tl_view e) runs →
  match run_gateway_op client cfg op e with
  | (Ok told, e') =>
      ∃ runs', spec_gateway_op cfg op runs = Some (told, runs') ∧ represents cfg (tl_view e') runs'
  | (Raise _, e') =>
      represents cfg (tl_view e') runs ∨
      ∃ told runs', spec_gateway_op cfg op runs = Some (told, runs') ∧
        represents cfg (tl_view e') runs'
  end.
Proof.
  intros Hr. pose proof (gateway_op_rpc client cfg op e) as Hop.
  pose proof (gateway_op_told client cfg op e) as Htold.
  destruct (run_gateway_op client cfg op e) as [[o|x] e'].
  - rewrite (Htold _ _ eq_refl). by eapply gateway_step_spec.
  - destruct Hop as [->|Hop]; [by left|right]. exists (told op). by eapply gateway_step_spec.
Qed.

(** C30: the run id that the start of a child tells is not that of its workflow.
    Whatever starts, signals, cancellations and queries follow, for this and for
    any other run and in any order, the workflow of the child stays as it was
    started, except by a request that spells out the name under which it was
    registered (suffix, parent and child id), which is never the id that was
    told; and while no run was started under that id by itself, every signal,
    cancellation and query of it raises, whatever else happens in between. *)
Theorem child_workflow_unreachable {E} (client : temporal_client E) `{!TemporalClientLaws client}
    cfg parent q e d e1 ops :
  TemporalSDKWorkflowGateway.start_child_workflow client cfg parent q e = (Ok d, e1) →
  let child := TemporalSDKWorkflowGateway.child_run_id_of parent q in
  let '(answers, e2) := run_gateway_ops client cfg ops e1 in
  od_get "run_id" d = Some child ∧ child_name cfg parent child ≠ child ∧
  (Forall (λ op, addressee cfg op ≠ child_name cfg parent child) ops →
   ∃ session,
     tl_view e2 !! TemporalSDKWorkflowGateway._workflow_id_for_child cfg parent child =
       Some (History (TemporalSDKWorkflowGateway.child_input_of parent child q session) [] false)) ∧
  (tl_view e !! TemporalSDKWorkflowGateway._workflow_id_for_run cfg child = None →
   Forall (λ op, starts op = true → addressee cfg op ≠ child) ops →
   Forall2 (λ op o, addressee cfg op = child → is_ok o = false) ops answers).
Proof.
  intros Hstart child.
  pose proof (run_op_cases client cfg (GoChild parent q) e) as Hop.
  pose proof (gateway_op_told client cfg (GoChild parent q) e) as Htold.
  simpl in Hop, Htold. unfold mbind, M_bind in Hop, Htold. rewrite Hstart in Hop, Htold.
  specialize (Htold _ _ eq_refl). fold child in Hop. destruct Hop as [[_ ?]|Hop]; [done|].
  destruct (LocalWorkflowGateway.child_session (sc_input_json q)) as [session|]; [|done].
  injection Hop as Hv. rewrite child_workflow_id in *.
  pose proof (child_name_other cfg parent child) as Hne.
  pose proof (others_untouched client cfg (child_name cfg parent child) ops e1) as Hstay.
  pose proof (absent_refused client cfg child ops e1) as Hraise.
  destruct (run_gateway_ops client cfg ops e1) as [answers e2].
  split_and!; [done|done| |].
  - intros Hops. exists session. simpl in Hstay. rewrite Hstay, <- Hv by done. apply lookup_insert_eq.
  - intros Hn Hops. apply Hraise; [done|]. rewrite <- Hv, lookup_insert_ne; [done|].
    by intros ?%workflow_id_inj.
Qed.

(** ** The two substrates *)

(** Both gateways derive the same run id from a request. *)
Lemma run_ids_agree q :
  TemporalSDKWorkflowGateway._build_run_id q = LocalWorkflowGateway._resolve_run_id q.
Proof.
  unfold TemporalSDKWorkflowGateway._build_run_id, LocalWorkflowGateway._resolve_run_id,
    TemporalSDKWorkflowGateway.given_run_id, LocalWorkflowGateway.nonempty_json.
  destruct (st_input_json q) as [[|kv d]|]; cbn -[py_get];
    [|destruct (py_get "run_id" (kv :: d)); cbn; try done|];
    destruct (st_parent_run_id q) as [[|]|], (st_session_id q) as [[|]|]; simpl;
    repeat case_decide; simplify_eq/=; try done.
Qed.

(** They derive the same child run id, but the local gateway starts the child
    under an id of its own. *)
Lemma child_ids_agree parent q :
  TemporalSDKWorkflowGateway.child_run_id_of parent q = LocalWorkflowGateway.child_run_id_of parent q.
Proof.
  unfold TemporalSDKWorkflowGateway.child_run_id_of, LocalWorkflowGateway.child_run_id_of,
    LocalWorkflowGateway.nonempty_json.
  destruct (sc_input_json q) as [[|kv d]|]; cbn -[py_get]; try done.
  destruct (py_get "child_run_id" (kv :: d)) as [| | | |[|]| |]; simpl; by repeat case_decide.
Qed.

(** The gateway that the adaptor makes executes no turn and streams nothing. *)
Lemma adaptor_executes_no_turn {E} run_id action handler key (e : E) :
  (TemporalAdaptor.execute_turn run_id action handler key e).1 =
  Raise (Exn RuntimeError ("execute_turn requires an activity_gateway; "
    +:+ "pass activity_gateway= to TemporalSDKWorkflowGateway.")).
Proof. done. Qed.

Lemma adaptor_streams_nothing {E} (client : temporal_client E) queue prefix run_id e :
  ∃ msg, TemporalAdaptor.stream_run_events client queue prefix run_id e =
         (Raise (Exn RuntimeError msg), e).
Proof. by eexists. Qed.

(** With an activity gateway, every tool call of an [Action] asks for the tool
    without a name. *)
Lemma tool_calls_unnamed {E} (g : TemporalSDKActivityGateway.t E) run_id action handler key (e : E) :
  act_action_type action = "tool_call" →
  od_get "" (TemporalSDKActivityGateway._tool_handlers g) = None →
  ∃ msg, TemporalSDKWorkflowGateway.execute_turn (Some g) run_id action handler key e =
    (Raise (Exn (OtherError "ActivityHandlerNotRegisteredError") msg), e).
Proof.
  intros Hty Hg. unfold TemporalSDKWorkflowGateway.execute_turn. rewrite decide_True by done.
  unfold TemporalSDKActivityGateway.execute_tool, TemporalSDKActivityGateway.get_tool_handler. simpl.
  rewrite Hg. by eexists.
Qed.

(** ** A concrete client: a server in memory *)
Definition served {A} (f : workflows → option workflows) (answer : A) : M workflows A := λ ws,
  match f ws with
  | Some ws' => (Ok answer, ws')
  | None => (Raise (Exn (OtherError "RPCError") "workflow not found"), ws)
  end.

Definition memory_client : temporal_client workflows := {|
  tc_start_workflow id queue i := served (λ ws, Some (<[id := History i [] false]> ws)) tt;
  tc_signal id name d := served (at_workflow id (add_signal name d)) tt;
  tc_cancel id reason := served (at_workflow id request_cancel) tt;
  tc_query id name := served (at_workflow id (λ h, h)) (AnswerValue (PDict []))
|}.

Lemma served_rpc {A} f (answer : A) : rpc id (served f answer) f.
Proof. intros ws. unfold served. destruct (f ws) eqn:Hf; [exact Hf|by left]. Qed.

#[export] Instance memory_client_laws : TemporalClientLaws memory_client.
Proof. refine {| tl_view := id |}; intros; apply served_rpc. Defined.

Definition example_child_request : SpawnChildRunRequest := {|
  sc_parent_run_id := "p"; sc_child_kind := "worker"; sc_input_ref := None;
  sc_input_json := Some [("child_run_id", PStr "c1")]; sc_context_ref := None; sc_task_id := None;
  sc_inherit_policy_versions := false; sc_policy_version_overrides := None;
  sc_notify_parent_on_complete := true |}.

Definition example_gateway_signal : SignalRunRequest := {|
  sr_run_id := "c1"; sr_signal_type := "go"; sr_signal_payload := None; sr_caused_by := None |}.

Definition example_gateway_config : TemporalSDKWorkflowGateway.config :=
  TemporalAdaptor.gateway_config "agent-kernel" "run".

Lemma temporal_gateway_refines_witness :
  let e := (TemporalSDKWorkflowGateway.start_child_workflow memory_client example_gateway_config "p"
              example_child_request ∅).2 in
  (∃ runs', spec_gateway_op example_gateway_config (GoQuery "child:p:c1")
      {["child:p:c1" := History (TemporalSDKWorkflowGateway.child_input_of "p" "c1"
                                   example_child_request None) [] false]} = Some (None, runs')) ∧
  is_ok (run_gateway_op memory_client example_gateway_config (GoQuery "child:p:c1") e).1 = true.
Proof.
  intros e. split; [|vm_compute; reflexivity].
  pose proof (temporal_gateway_refines memory_client example_gateway_config (GoQuery "child:p:c1") e
    {["child:p:c1" := History (TemporalSDKWorkflowGateway.child_input_of "p" "c1"
                                 example_child_request None) [] false]}) as H.
  assert (represents example_gateway_config (tl_view e)
    {["child:p:c1" := History (TemporalSDKWorkflowGateway.child_input_of "p" "c1"
                                 example_child_request None) [] false]}) as Hr.
  { intros run_id.
    assert (tl_view e = <[TemporalSDKWorkflowGateway._workflow_id_for_run example_gateway_config
      "child:p:c1" := History (TemporalSDKWorkflowGateway.child_input_of "p" "c1"
                                 example_child_request None) [] false]> ∅) as -> by
      (vm_compute; reflexivity).
    apply (represents_insert example_gateway_config ∅ ∅ "child:p:c1"). intros r.
    by rewrite !lookup_empty. }
  specialize (H Hr).
  assert (run_gateway_op memory_client example_gateway_config (GoQuery "child:p:c1") e =
    (Ok None, e)) as Hrun by (vm_compute; reflexivity).
  rewrite Hrun in H. destruct H as (runs' & Hs & _). by exists runs'.
Defined.

(** Another run is started and signalled, and a sibling of the same parent,
    between the requests for the child. *)
Definition example_busy_ops : list gateway_op :=
  let sibling := {| sc_parent_run_id := "p"; sc_child_kind := "worker"; sc_input_ref := None;
                    sc_input_json := Some [("child_run_id", PStr "c2")]; sc_context_ref := None;
                    sc_task_id := None; sc_inherit_policy_versions := false;
                    sc_policy_version_overrides := None; sc_notify_parent_on_complete := true |} in
  [GoSignal "c1" example_gateway_signal; GoChild "p" sibling; GoQuery "c1";
   GoSignal "child:p:c2" example_gateway_signal; GoCancel "c1" "late"].

Lemma child_workflow_unreachable_witness :
  let start := TemporalSDKWorkflowGateway.start_child_workflow memory_client example_gateway_config
                 "p" example_child_request ∅ in
  let '(answers, e2) := run_gateway_ops memory_client example_gateway_config example_busy_ops start.2 in
  map is_ok answers = [false; true; false; true; false] ∧
  (∃ session, e2 !! "run:child:p:c1" =
     Some (History (TemporalSDKWorkflowGateway.child_input_of "p" "c1" example_child_request session)
             [] false)) ∧
  Forall2 (λ op o, addressee example_gateway_config op = "c1" → is_ok o = false)
    example_busy_ops answers.
Proof.
  intros start.
  assert (start = (Ok [("workflow_id", "run:child:p:c1"); ("run_id", "c1")], start.2)) as Hstart
    by (vm_compute; reflexivity).
  pose proof (child_workflow_unreachable memory_client example_gateway_config "p"
    example_child_request ∅ [("workflow_id", "run:child:p:c1"); ("run_id", "c1")] start.2
    example_busy_ops Hstart) as H.
  assert (map is_ok (run_gateway_ops memory_client example_gateway_config example_busy_ops start.2).1
            = [false; true; false; true; false]) as Hanswers by (vm_compute; reflexivity).
  destruct (run_gateway_ops memory_client example_gateway_config example_busy_ops start.2)
    as [answers e2].
  destruct H as (_ & _ & Hstay & Hraise). split; [exact Hanswers|]. split.
  - apply Hstay. repeat constructor; vm_compute; discriminate.
  - apply Hraise; [reflexivity|]. repeat constructor; vm_compute; discriminate.
Defined.
