(* ===== verification/LocalSafety.v ===== *)
(** * What the local substrate promises ([substrate/local/adaptor.py])

    Over any interleaving of its operations, start-up tasks and other writers
    of the log, a query never reports a state that the run's log does not
    have; a signal that was taken is seen by the next query; a turn is
    executed once per key while its result is cached. *)
From S2P Require Export LocalSubstrate RunActorSafety RetainingLog.
Import LocalWorkflowGateway.

(** ** What a projection never loses

    A property of the projection of each run that the service keeps while it
    applies events: it holds again of the projection that it starts from, and
    after every event. *)
Record absorbing (good : string → option RunProjection → Prop) : Prop := {
  ab_start run o : good run o → good run (Some (default (_default_projection run) o));
  ab_step run p e : good run (Some p) → good run (Some (_apply_projection_event p e))
}.

Lemma absorbing_replay good cfg run t events p p' :
  absorbing good → good run (Some p) → replay_loop cfg t events p = Ok p' → good run (Some p').
Proof.
  intros Hg. revert p. induction events as [|e events IH]; intros p Hp; simpl; [by intros [= <-]|].
  destruct (match t with Some b => _ | None => _ end); [by intros [= <-]|].
  destruct (_maybe_migrate_event cfg e) as [e'|x]; simpl; [|done].
  case_match; [|by apply IH]. apply IH. by apply (ab_step _ Hg).
Qed.

Definition anything (run : string) (o : option RunProjection) : Prop := True.

Lemma absorbing_anything : absorbing anything.
Proof. by split. Qed.

(** Once a run is aborted, its projection stays so. *)
Definition aborted_run (owner run : string) (o : option RunProjection) : Prop :=
  run = owner → ∃ p, o = Some p ∧ pj_lifecycle_state p = aborted.

Lemma aborted_step p e :
  pj_lifecycle_state p = aborted → pj_lifecycle_state (_apply_projection_event p e) = aborted.
Proof.
  intros Hp. unfold _apply_projection_event, _resolve_projection_transition. rewrite Hp.
  rewrite (bool_decide_false (aborted = completed)) by done. simpl.
  destruct (_is_lower_priority_operational_conflict p e); simpl; [done|].
  case_bool_decide as Hc; simpl; [done|].
  by rewrite decide_True by (apply dec_stable; naive_solver).
Qed.

Lemma absorbing_aborted owner : absorbing (aborted_run owner).
Proof.
  split.
  - intros run o Ho Hr. destruct (Ho Hr) as (p & -> & Hp). by exists p.
  - intros run p e Ho Hr. destruct (Ho Hr) as (q & [= <-] & Hp). eexists. split; [done|]. by apply aborted_step.
Qed.

(** ** One workflow object

    Its last projection is the replay of a prefix of its run's history. *)
Section workflow.
Context {L D S E : Type} `{EventLogLaws L} `{DecisionDeduperPort D} `{DedupeStorePort S}.
Context (deps : RunActorDependencyBundle L D S E) (runs : gset string) `{!RetainingLog L runs}.
Abbreviation A := (actor L D S E).
Abbreviation cfg := (dp_projection deps).
Context (good : string → option RunProjection → Prop) (Hgood : absorbing good).
Context (Hmig : migrator_keeps_offset cfg).
Implicit Types a : A.

Definition history_of a (run : string) : list RuntimeEvent := el_history (actor_log a) run.

(** The projections of prefixes only. *)
Definition last_ok (owner : string) (h : list RuntimeEvent) (l : locals) : Prop :=
  (_run_id l = None ∨ _run_id l = Some owner) ∧
  ∀ p, _last_projection l = Some p → (∃ k, cached_at cfg owner h k p) ∧ good owner (Some p).

Record services_ok (sv : services L S E) : Prop := {
  so_log : rt_ok (runs := runs) (log_of sv);
  so_service : service_inv cfg (sv_projection sv);
  so_good run : good run (_projection_by_run (sv_projection sv) !! run)
}.

Record current (owner : string) a : Prop := {
  cu_services : services_ok (ac_services a);
  cu_last : last_ok owner (history_of a owner) (ac_locals a)
}.

Definition grown (sv sv' : services L S E) : Prop :=
  ∀ run, el_history (log_of sv) run `prefix_of` el_history (log_of sv') run.

Lemma grown_refl sv : grown sv sv.
Proof. by intros run. Qed.

Lemma grown_trans sv1 sv2 sv3 : grown sv1 sv2 → grown sv2 sv3 → grown sv1 sv3.
Proof. intros Hg1 Hg2 run. etrans; eauto. Qed.

Lemma cached_at_grown run h h' k p :
  h `prefix_of` h' → cached_at cfg run h k p → cached_at cfg run h' k p.
Proof.
  intros [tl ->] [Hk Hr]. split; [rewrite length_app; lia|]. by rewrite take_app_le.
Qed.

Lemma last_ok_grown owner h h' l : h `prefix_of` h' → last_ok owner h l → last_ok owner h' l.
Proof.
  intros Hh [Hr Hl]. split; [done|]. intros p Hp. destruct (Hl p Hp) as [[k Hk] Hg].
  split; [|done]. exists k. by eapply cached_at_grown.
Qed.

(** *** Steps that keep it *)
Definition after_step (owner : string) a a' : Prop :=
  current owner a' ∧ grown (ac_services a) (ac_services a').

Definition safe {B} (owner : string) (m : M A B) : Prop := ∀ a,
  current owner a → wp m (λ _, after_step owner a) (λ _, after_step owner a) a.

Lemma after_step_refl owner a : current owner a → after_step owner a a.
Proof. split; [done|apply grown_refl]. Qed.

Lemma after_step_trans owner a a1 a2 :
  after_step owner a a1 → after_step owner a1 a2 → after_step owner a a2.
Proof. intros [? ?] [? ?]. split; [done|]. by eapply grown_trans. Qed.

Lemma safe_bind {B C} owner (m : M A B) (f : B → M A C) :
  safe owner m → (∀ b, safe owner (f b)) → safe owner (m ≫= f).
Proof.
  intros Hm Hf a Ha. apply wp_bind. eapply wp_mono; [by apply Hm| |done].
  intros b a1 Ha1. simpl in Ha1.
  eapply wp_mono; [apply Hf, Ha1|intros c a2 Ha2|intros e a2 Ha2]; exact (after_step_trans _ _ _ _ Ha1 Ha2).
Qed.

Lemma safe_ret {B} owner (b : B) : safe owner (mret b).
Proof. intros a Ha. by apply wp_ret, after_step_refl. Qed.

Lemma safe_raise {B} owner e : safe owner (raise e : M A B).
Proof. intros a Ha. by apply wp_raise, after_step_refl. Qed.

Lemma safe_lift {B} owner (o : outcome B) : safe owner (lift o).
Proof. intros a Ha. apply wp_lift; intros; by apply after_step_refl. Qed.

(** A step that leaves the projection service alone. *)
Lemma after_step_same owner a a' :
  current owner a →
  sv_projection (ac_services a') = sv_projection (ac_services a) →
  _last_projection (ac_locals a') = _last_projection (ac_locals a) →
  _run_id (ac_locals a') = _run_id (ac_locals a) ∨ _run_id (ac_locals a') = Some owner →
  after_step owner a a'.
Proof.
  intros [[Hlog Hinv Hgd] [Hrun Hlast]] Hp Hl Hr.
  assert (log_of (ac_services a') = log_of (ac_services a)) as Hsame by (unfold log_of; by rewrite Hp).
  split; [|intros run; by rewrite Hsame]. split.
  - split; [by rewrite Hsame|by rewrite Hp|by rewrite Hp].
  - unfold history_of, actor_log in *. rewrite Hsame. split; [|by rewrite Hl].
    destruct Hr as [-> | ->]; [done|by right].
Qed.

Lemma safe_env {B} owner (m : M E B) : safe owner (on_services (sv_on_env m)).
Proof.
  intros a Ha. apply wp_zoom, wp_zoom, wp_zoom. unfold wp.
  destruct (m _) as [[b|e] env]; apply after_step_same; auto.
Qed.

Lemma safe_deduper {B} owner (m : M D B) : safe owner (on_deduper m).
Proof.
  intros a Ha. apply wp_zoom. unfold wp. destruct (m _) as [[b|e] d']; apply after_step_same; auto.
Qed.

Lemma safe_locals_read owner : safe owner (on_locals (gets id)).
Proof. intros a Ha. apply wp_zoom, wp_gets, after_step_same; auto. Qed.

(** Assignments that keep the projection, or set the run's identity. *)
Lemma safe_locals owner (f : locals → locals) :
  (∀ l, _last_projection (f l) = _last_projection l ∧
        (_run_id (f l) = _run_id l ∨ _run_id (f l) = Some owner)) →
  safe owner (on_locals (modify f)).
Proof.
  intros Hf a Ha. apply wp_zoom, wp_modify. destruct (Hf (ac_locals a)). by apply after_step_same.
Qed.

(** A pass of the projection service. *)
Lemma project_frame run t sv :
  services_ok sv →
  wp (sv_on_projection (project cfg run t))
    (λ p sv', services_ok sv' ∧ (∀ r, el_history (log_of sv') r = el_history (log_of sv) r) ∧
       good run (Some p) ∧
       _projection_by_run (sv_projection sv') = <[run := p]> (_projection_by_run (sv_projection sv)) ∧
       let h := el_history (log_of sv) run in
       ∃ k, cached_at cfg run h k p ∧ (t = None → k = length h) ∧
         ∀ b, t = Some b → ∀ e, e ∈ drop k h → (b < ev_commit_offset e)%Z)
    (λ _ sv', services_ok sv' ∧ (∀ r, el_history (log_of sv') r = el_history (log_of sv) r)) sv.
Proof.
  intros [Hlog Hinv Hgd]. apply wp_zoom. unfold wp.
  destruct (project cfg run t (sv_projection sv)) as [o s'] eqn:Hp.
  pose proof (project_spec cfg Hmig run t _ _ _ Hinv Hp) as [Hinv' Ho].
  assert (rt_ok (runs := runs) (ps_event_log s') ∧
    (∀ r, el_history (ps_event_log s') r = el_history (log_of sv) r) ∧
    (∀ r, good r (_projection_by_run s' !! r)) ∧ ∀ p, o = Ok p → good run (Some p) ∧
      _projection_by_run s' = <[run := p]> (_projection_by_run (sv_projection sv)))
    as (Hlog' & Hh & Hgd' & Hgp).
  { revert Hp. unfold project, gets, mbind, M_bind, on_log, zoom, lift, modify. cbn beta iota zeta.
    set (p0 := default _ _).
    pose proof (rt_load run (pj_projected_offset p0) (log_of sv) Hlog) as Hr.
    pose proof (law_load run (pj_projected_offset p0) (log_of sv) (rt_lawful _ Hlog)) as Hl.
    assert (good run (Some p0)) as Hp0 by apply (ab_start _ Hgood), Hgd.
    unfold log_of in *. destruct (el_load run _ _) as [[ev|e] l']; simpl in Hr;
      destruct Hl as (_ & Hh & _); [|intros [= <- <-]; split_and!; done || (intros ? [=])].
    destruct (replay_loop _ _ _ _) as [p|e] eqn:Hrp; cbn; intros [= <- <-].
    - pose proof (absorbing_replay _ _ _ _ _ _ _ Hgood Hp0 Hrp) as Hgp. split_and!; try done.
      + intros r. simpl. rewrite lookup_insert. case_decide; by subst.
      + by intros ? [= <-].
    - split_and!; done || (intros ? [=]). }
  destruct o as [p|e]; [|by split]. destruct (Hgp p eq_refl). by repeat (split; [done|]).
Qed.

Lemma same_history_grown sv sv' :
  (∀ r, el_history (log_of sv') r = el_history (log_of sv) r) → grown sv sv'.
Proof. intros Hh run. by rewrite Hh. Qed.

Lemma safe_project owner run t : safe owner (on_services (sv_on_projection (project cfg run t))).
Proof.
  intros [sv d l] [Hs Hl]. apply wp_zoom. eapply wp_mono; [by apply project_frame| |]; simpl.
  - intros p sv' (Hs' & Hh & _). split; [|by apply same_history_grown]. split; [done|].
    unfold history_of, actor_log in *. simpl in *. by rewrite Hh.
  - intros e sv' [Hs' Hh]. split; [|by apply same_history_grown]. split; [done|].
    unfold history_of, actor_log in *. simpl in *. by rewrite Hh.
Qed.

(** Its result assigned to [_last_projection]. *)
Lemma safe_cached {C} owner t (f : RunProjection → M A C) :
  (∀ p, safe owner (f p)) →
  safe owner (p ← on_services (sv_on_projection (project cfg owner t));
              on_locals (modify (set_projection p));; f p).
Proof.
  intros Hf [sv d l] [Hs Hl]. apply wp_bind, wp_zoom.
  eapply wp_mono; [by apply project_frame| |]; simpl.
  - intros p sv' (Hs' & Hh & Hgp & _ & k & Hk & _). apply wp_bind, wp_zoom, wp_modify. simpl.
    set (a1 := Actor sv' d (set_projection p l)).
    assert (current owner a1) as Ha1.
    { split; [done|]. unfold history_of, actor_log. simpl. rewrite Hh. split; [apply Hl|].
      intros p' [= <-]. split; [by exists k|done]. }
    eapply wp_mono; [by apply Hf|intros c a2 [Hc Hg]|intros e a2 [Hc Hg]]; (split; [done|]);
      (eapply grown_trans; [by apply same_history_grown|exact Hg]).
  - intros e sv' [Hs' Hh]. split; [|by apply same_history_grown]. split; [done|].
    unfold history_of, actor_log in *. simpl in *. by rewrite Hh.
Qed.

Lemma safe_readiness owner run k :
  safe owner (on_services (sv_on_projection (readiness cfg run k))).
Proof.
  intros a Ha. pose proof (safe_project owner run None a Ha) as Hp.
  unfold readiness, get, wp, on_services, sv_on_projection, zoom, mbind, M_bind in *.
  by destruct (project _ _ _ _) as [[p|e] ps].
Qed.

Lemma append_frame c sv :
  services_ok sv → cm_run_id c ∈ runs →
  wp (sv_append c)
    (λ _ sv', services_ok sv' ∧ ∀ run, el_history (log_of sv') run = el_history (log_of sv) run ++
       (if decide (run = cm_run_id c)
        then renumber (Z.of_nat (length (el_history (log_of sv) run)) + 1) (map el_normal (cm_events c))
        else []))
    (λ _ sv', services_ok sv' ∧ ∀ run, el_history (log_of sv') run = el_history (log_of sv) run) sv.
Proof.
  intros [Hlog [Hok Hcache] Hgd] Hc. apply wp_zoom, wp_zoom. unfold wp, log_of in *.
  pose proof (rt_append c _ Hlog Hc) as [Hlog' Hh]. pose proof (law_append c _ Hok) as Hl.
  destruct (el_append c _) as [[ref|e] l']; simpl in *.
  - specialize (Hh eq_refl). split; [|done]. split; [done| |done]. split; [by destruct Hl|]. simpl.
    intros run p Hp. destruct (Hcache run p Hp) as [k Hk]. exists k.
    eapply cached_at_grown; [|exact Hk]. rewrite Hh. by eexists.
  - destruct Hl as [Hok' Hh']. split; [|done]. split; [done| |done]. split; [done|]. simpl.
    intros run p Hp. rewrite Hh'. by apply Hcache.
Qed.

Lemma safe_append owner c : cm_run_id c ∈ runs → safe owner (on_services (sv_append c)).
Proof.
  intros Hc [sv d l] [Hs Hl]. apply wp_zoom.
  eapply wp_mono; [by apply append_frame| |]; simpl; intros ? sv' [Hs' Hh];
    (split; [split; [done|]|]; [|intros run; simpl; rewrite Hh; first [by eexists|reflexivity]]).
  - eapply last_ok_grown; [|exact Hl]. unfold history_of, actor_log in *. simpl in *.
    rewrite Hh. by eexists.
  - unfold history_of, actor_log in *. simpl in *. by rewrite Hh.
Qed.
End workflow.

Create HintDb safe discriminated.
#[export] Hint Resolve safe_bind safe_ret safe_raise safe_lift safe_env safe_deduper
  safe_locals_read safe_project safe_readiness safe_append : safe.

(** *** The handlers of a workflow outside Temporal *)
Section handlers.
Context {L D S E : Type} `{EventLogLaws L} `{DecisionDeduperPort D} `{DedupeStorePort S}.
Context (deps : RunActorDependencyBundle L D S E) (runs : gset string) `{!RetainingLog L runs}.
Context (good : string → option RunProjection → Prop) (Hgood : absorbing good).
Context (Hmig : migrator_keeps_offset (dp_projection deps)) (Htemporal : dp_temporal deps = None).
Context (owner : string) (Howner : owner ∈ runs).
Abbreviation safe' := (safe deps runs good owner).

Lemma safe_assign (f : locals → locals) :
  (∀ l, _last_projection (f l) = _last_projection l ∧ _run_id (f l) = _run_id l) →
  safe' (on_locals (modify f)).
Proof. intros Hf. apply safe_locals. intros l. destruct (Hf l). auto. Qed.

Lemma safe_claim commit :
  cm_run_id commit = owner → safe' (claim_round deps commit).
Proof.
  intros Hc. unfold claim_round. apply safe_bind; [apply safe_lift|intros _].
  apply safe_bind; [apply safe_lift|intros last]. rewrite Hc. unfold catch_up.
  apply safe_cached; [done..|]. intros p. apply safe_bind; [by apply safe_readiness|].
  intros [|]; simpl; [|apply safe_ret]. apply safe_bind; [apply safe_deduper|].
  intros [|]; [apply safe_ret|]. apply safe_bind; [apply safe_deduper|]. intros _. apply safe_ret.
Qed.

Lemma safe_process commit :
  cm_run_id commit = owner → cm_action commit = None → safe' (process_action_commit deps commit).
Proof.
  intros Hr Hc. unfold process_action_commit. rewrite Hc.
  apply safe_bind; [by apply safe_claim|]. intros [[l p]|]; apply safe_ret.
Qed.

(** A handler reads the identity, which is its owner's. *)
Lemma safe_handle i : safe' (_handle_signal deps i).
Proof.
  intros [sv d l] Ha. unfold _handle_signal. apply wp_bind, wp_zoom, wp_gets. simpl.
  assert (∀ run, identity l = Some run → run = owner) as Hid.
  { destruct Ha as [_ [Hr _]]. simpl in Hr. unfold identity. intros run.
    destruct Hr as [-> | ->]; simpl; [done|]. destruct owner; simpl; congruence. }
  destruct (identity l) as [run|]; [|by apply (safe_raise deps runs good owner)].
  rewrite (Hid run eq_refl).
  assert (safe' (if peer_rejected l i || already_seen l i then mret tt else
    on_locals (modify next_sequence);;
    projection ← on_services (sv_on_projection (get (dp_projection deps) owner));
    t1 ← on_services (_utc_now_iso deps);
    t2 ← on_services (_utc_now_iso deps);
    let commit := signal_commit owner i (_signal_sequence l + 1) (pj_projected_offset projection + 1) t1 t2 in
    on_services (sv_append commit);;
    (match signal_token i with
     | Some token => on_locals (modify (add_token token))
     | None => mret tt end);;
    process_action_commit deps commit;;
    on_locals (modify count_round);;
    l' ← on_locals (gets id);
    if _should_continue_as_new deps l' then on_locals (_trigger_continue_as_new deps) else mret tt)) as Hsafe.
  { destruct (_ || _); [apply safe_ret|].
    apply safe_bind; [by apply safe_assign|intros _].
    apply safe_bind; [by apply safe_project|intros p].
    apply safe_bind; [apply safe_env|intros t1]. apply safe_bind; [apply safe_env|intros t2].
    apply safe_bind; [by apply safe_append|intros _].
    apply safe_bind; [by destruct (signal_token i); [apply safe_assign|apply safe_ret]|intros _].
    apply safe_bind; [by apply safe_process|intros _].
    apply safe_bind; [by apply safe_assign|intros _].
    apply safe_bind; [apply safe_locals_read|intros l'].
    unfold _should_continue_as_new. rewrite Htemporal. apply safe_ret. }
  by apply Hsafe.
Qed.

Lemma safe_signal i : safe' (signal deps i).
Proof.
  apply safe_bind; [apply safe_locals_read|intros l].
  destruct (identity l); [apply safe_handle|by apply safe_assign].
Qed.

Lemma safe_handle_all signals : safe' (handle_all deps signals).
Proof.
  induction signals as [|i signals IH]; [apply safe_ret|].
  apply safe_bind; [apply safe_handle|done].
Qed.

(** [run] as the gateway starts it. *)
Lemma safe_run input :
  rn_run_id input = owner → rn_policy_versions input = None → rn_pending_signals input = None →
  safe' (run deps input).
Proof.
  intros Hr Hpv Hps. unfold run. rewrite Hr.
  apply safe_bind; [apply safe_locals; intros l; simpl; rewrite Hr; auto|intros _].
  assert (safe' (refresh deps owner)) as Hrefresh.
  { intros a Ha. pose proof (safe_cached deps runs good Hgood Hmig owner None (λ _, mret tt)
      (λ _, safe_ret deps runs good owner tt) a Ha) as Hw. revert Hw.
    unfold refresh, get, wp, mbind, M_bind, on_locals, zoom, modify, mret, M_ret.
    by destruct (on_services _ _) as [[p|e] a1]. }
  apply safe_bind; [done|intros _].
  apply safe_bind; [unfold pin_policy_versions; rewrite Hpv; apply safe_ret|intros _].
  apply safe_bind; [rewrite Hps; apply safe_ret|intros _].
  apply safe_bind; [apply safe_locals_read|intros l].
  apply safe_bind; [by apply safe_assign|intros _].
  apply safe_bind; [apply safe_handle_all|intros _].
  apply safe_bind; [unfold await_terminal; rewrite Htemporal; apply safe_ret|intros _].
  apply safe_bind; [apply safe_locals_read|intros l'].
  apply safe_bind; [|intros _; apply safe_ret].
  unfold _notify_parent_child_completed. apply safe_bind; [apply safe_locals_read|intros l''].
  rewrite Htemporal. destruct (str_or _ _), (identity l''); apply safe_ret.
Qed.
End handlers.

(** ** The gateway over time *)
Section gateway.
Context {L D S E : Type} `{EventLogLaws L} `{DecisionDeduperPort D} `{DedupeStorePort S}.
Context (deps : RunActorDependencyBundle L D S E) (runs : gset string) `{!RetainingLog L runs}.
Context (good : string → option RunProjection → Prop) (Hgood : absorbing good).
Context (Hmig : migrator_keeps_offset (dp_projection deps)) (Htemporal : dp_temporal deps = None).
Context (max_cache_size : Z).
Abbreviation G := (LocalWorkflowGateway.t L D S E).
Abbreviation cfg := (dp_projection deps).
Implicit Types g : G.

Definition run_history g (run : string) : list RuntimeEvent :=
  el_history (log_of (lg_services g)) run.

(** One step of the event loop or of another writer of the log.  The handler
    of a turn runs between two of them. *)
Inductive gateway_step : G → G → Prop :=
  | gs_start q o g g' :
      _resolve_run_id q ∈ runs → begin_start q g = (o, g') → gateway_step g g'
  | gs_task ref o g g' : step_task deps ref g = (o, g') → gateway_step g g'
  | gs_signal run_id request o g g' :
      signal_workflow deps run_id request g = (o, g') → gateway_step g g'
  | gs_begin_cancel run_id o g g' : begin_cancel run_id g = (o, g') → gateway_step g g'
  | gs_cancel_task ref o g g' : cancel_task ref g = (o, g') → gateway_step g g'
  | gs_end_cancel run_id o g g' : end_cancel run_id g = (o, g') → gateway_step g g'
  | gs_query run_id o g g' : query_projection deps run_id g = (o, g') → gateway_step g g'
  | gs_stream run_id o g g' : stream_events run_id g = (o, g') → gateway_step g g'
  | gs_turn key output o g g' : finish_turn max_cache_size key output g = (o, g') → gateway_step g g'
  | gs_env w g :
      (* the clock, a handler, another user of the dedupe store *)
      gateway_step g (LocalGateway (Services (sv_projection (lg_services g)) w) (lg_deduper g)
                        (lg_started g) (_workflows g) (_run_tasks g) (_execute_turn_cache g))
  | gs_append c o g g' :
      (* another writer of the log *)
      cm_run_id c ∈ runs → lg_on_services (sv_append c) g = (o, g') → gateway_step g g'
  | gs_shutdown g : gateway_step g (set_tables ∅ [] g).

Record started_ok g (s : started_run) : Prop := {
  st_owner : rn_run_id (sd_input s) ∈ runs;
  st_unpinned : rn_policy_versions (sd_input s) = None;
  st_unsignalled : rn_pending_signals (sd_input s) = None;
  st_last : last_ok deps good (rn_run_id (sd_input s)) (run_history g (rn_run_id (sd_input s))) (sd_locals s)
}.

(** An object that something may still call: it waits to run, or is registered. *)
Definition live g (ref : nat) (s : started_run) : Prop :=
  sd_task s ≠ task_done ∨ _workflows g !! rn_run_id (sd_input s) = Some ref.

(** A registered run refers to an object that was started for it. *)
Record gateway_inv g : Prop := {
  gi_services : services_ok deps runs good (lg_services g);
  gi_started ref s : lg_started g !! ref = Some s → live g ref s → started_ok g s;
  gi_workflows run ref : _workflows g !! run = Some ref →
    ∃ s, lg_started g !! ref = Some s ∧ rn_run_id (sd_input s) = run;
  gi_tables run : od_get run (_run_tasks g) = _workflows g !! run
}.

Definition gateway_grown g g' : Prop := grown (lg_services g) (lg_services g').

Lemma started_ok_grown g g' s :
  grown (lg_services g) (lg_services g') → started_ok g s → started_ok g' s.
Proof.
  intros Hg []. split; [done..|]. eapply last_ok_grown; [apply Hg|done].
Qed.

(** What every step keeps. *)
Definition kept g g' : Prop := gateway_inv g' ∧ grown (lg_services g) (lg_services g').
Definition keeps_inv {A} (m : M G A) : Prop := ∀ g,
  gateway_inv g → wp m (λ _, kept g) (λ _, kept g) g.

Lemma kept_refl g : gateway_inv g → kept g g.
Proof. split; [done|apply grown_refl]. Qed.

(** A change of the services alone. *)
Lemma kept_services g sv :
  gateway_inv g → services_ok deps runs good sv → grown (lg_services g) sv →
  kept g (LocalGateway sv (lg_deduper g) (lg_started g) (_workflows g) (_run_tasks g)
            (_execute_turn_cache g)).
Proof.
  intros [Hsv Hst Hwf Ht] Hs Hg. split; [|done]. split; simpl; [done| |done|done].
  intros ref s Hs' Hlive. eapply (started_ok_grown g); [|by eapply Hst]. done.
Qed.

(** A change of the tables alone. *)
Lemma kept_tables g g' :
  gateway_inv g → lg_services g' = lg_services g → lg_started g' = lg_started g →
  (∀ run ref, _workflows g' !! run = Some ref → _workflows g !! run = Some ref) →
  (∀ run, od_get run (_run_tasks g') = _workflows g' !! run) →
  kept g g'.
Proof.
  intros [Hsv Hst Hwf _] Hs Hl Hw Ht. split; [|intros run; by rewrite Hs]. split; rewrite ?Hs, ?Hl; [done| | |done].
  - intros ref s Hs' Hlive. eapply (started_ok_grown g); [intros run; by rewrite Hs|].
    eapply Hst; [done|]. destruct Hlive as [?|?]; [by left|right; by apply Hw].
  - intros run ref Hr. by apply Hwf, Hw.
Qed.

(** An assignment to one task's state. *)
Lemma kept_task g ref st :
  gateway_inv g →
  (∀ s, lg_started g !! ref = Some s → sd_task s = task_done → st = task_done) →
  kept g (set_task ref st g).
Proof.
  intros [Hsv Hst Hwf Ht] Htask. split; [|apply grown_refl]. split; simpl; [done| | |done].
  - intros ref' s. rewrite list_lookup_alter. case_decide.
    2: { intros Hs Hlive. eapply (started_ok_grown g); [apply grown_refl|by eapply Hst]. }
    subst ref'. destruct (lg_started g !! ref) as [s0|] eqn:Hs0; simpl; intros [= <-] Hlive.
    destruct (Hst _ _ Hs0); [|by split]. destruct Hlive as [Hl|Hl]; [|by right].
    left. intros Hd. by apply Hl, (Htask s0).
  - intros run ref' Hr. destruct (Hwf run ref' Hr) as (s & Hs & Ho). rewrite list_lookup_alter.
    case_decide; subst; rewrite Hs; simpl; eauto.
Qed.

Lemma on_workflow_keeps {A} ref s (m : M (actor L D S E) A) g :
  gateway_inv g → lg_started g !! ref = Some s → live g ref s →
  safe deps runs good (rn_run_id (sd_input s)) m →
  wp (on_workflow ref m) (λ _, kept g) (λ _, kept g) g.
Proof.
  intros [Hsv Hst Hwf Ht] Hs Hlive Hm. apply wp_zoom. unfold locals_of. rewrite Hs. simpl.
  destruct (Hst ref s Hs Hlive) as [Ho Hpv Hps Hl].
  assert (current deps runs good (rn_run_id (sd_input s))
            (Actor (lg_services g) (lg_deduper g) (sd_locals s))) as Hc by done.
  assert (∀ a', after_step deps runs good (rn_run_id (sd_input s))
            (Actor (lg_services g) (lg_deduper g) (sd_locals s)) a' →
    kept g (LocalGateway (ac_services a') (ac_deduper a')
       (alter (λ s, StartedRun (ac_locals a') (sd_input s) (sd_task s)) ref (lg_started g))
       (_workflows g) (_run_tasks g) (_execute_turn_cache g))) as Hpost.
  { intros [sv d l] [[Hsv' Hl'] Hg]. simpl in *. split; [|done]. split; simpl; [done| | |done].
    - intros ref' s'. rewrite list_lookup_alter. case_decide as Hr.
      + subst ref'. rewrite Hs. simpl. intros [= <-] _. by split.
      + intros Hs' Hlive'. eapply (started_ok_grown g); [|by eapply Hst]. done.
    - intros run ref' Hr. destruct (Hwf run ref' Hr) as (s' & Hs' & Ho'). rewrite list_lookup_alter.
      case_decide; subst; rewrite Hs'; simpl; eauto. }
  eapply wp_mono; [by apply Hm| |]; intros; by apply Hpost.
Qed.

Lemma keeps_services {A} (m : M (services L S E) A) g :
  gateway_inv g →
  wp m (λ _ sv, services_ok deps runs good sv ∧ grown (lg_services g) sv)
    (λ _ sv, services_ok deps runs good sv ∧ grown (lg_services g) sv) (lg_services g) →
  wp (lg_on_services m) (λ _, kept g) (λ _, kept g) g.
Proof.
  intros Hg Hm. apply wp_zoom. eapply wp_mono; [exact Hm| |]; simpl;
    intros ? sv [? ?]; by apply kept_services.
Qed.

Lemma keeps_project run t : keeps_inv (lg_on_services (sv_on_projection (project cfg run t))).
Proof.
  intros g Hg. apply keeps_services; [done|].
  eapply wp_mono; [apply (project_frame deps runs good Hgood Hmig), (gi_services g Hg)| |]; simpl.
  - intros p sv (Hs & Hh & _). split; [done|]. by apply same_history_grown.
  - intros e sv [Hs Hh]. split; [done|]. by apply same_history_grown.
Qed.

Lemma keeps_task ref : keeps_inv (step_task deps ref).
Proof.
  intros g Hg. apply wp_bind, wp_gets. change (@id G g) with g.
  destruct (lg_started g !! ref) as [s|] eqn:Hs; [|by apply wp_ret, kept_refl].
  assert (∀ g1, gateway_inv g1 → kept g1 (set_task ref task_done g1)) as Hset
    by (intros g1 Hg1; by apply kept_task).
  destruct (sd_task s) eqn:Htask; [|by apply wp_modify, Hset|by apply wp_ret, kept_refl].
  assert (live g ref s) as Hlive by (left; by rewrite Htask).
  destruct (gi_started g Hg ref s Hs Hlive) as [Ho Hpv Hps _].
  apply wp_bind, wp_reify.
  assert (∀ g1, kept g g1 → kept g (set_task ref task_done g1)) as Hdone.
  { intros g1 [Hg1 Hgr]. destruct (Hset g1 Hg1). split; [done|].
    by eapply grown_trans. }
  eapply wp_mono; [eapply on_workflow_keeps; [done|exact Hs|done|by apply safe_run]| |];
    intros ? g1 Hk; by apply wp_modify, Hdone.
Qed.

Lemma keeps_signal run_id request : keeps_inv (signal_workflow deps run_id request).
Proof.
  intros g Hg. apply wp_bind, wp_gets. change (@id G g) with g.
  destruct (_workflows g !! run_id) as [ref|] eqn:Hr; [|by apply wp_raise, kept_refl].
  destruct (gi_workflows g Hg run_id ref Hr) as (s & Hs & Ho).
  assert (live g ref s) as Hlive by (right; by rewrite Ho).
  eapply on_workflow_keeps; [done|exact Hs|done|]. apply safe_signal; [done..|].
  by destruct (gi_started g Hg ref s Hs Hlive).
Qed.

Lemma keeps_query run_id : keeps_inv (query_projection deps run_id).
Proof.
  intros g Hg. unfold query_projection. apply wp_bind, wp_gets. change (@id G g) with g.
  destruct (_workflows g !! run_id) as [ref|]; [|by apply keeps_project].
  destruct (query _) as [p|e]; [by apply wp_ret, kept_refl|].
  case_decide; [by apply keeps_project|by apply wp_raise, kept_refl].
Qed.

Lemma keeps_stream run_id : keeps_inv (stream_events run_id).
Proof.
  intros g Hg. apply keeps_services; [done|]. apply wp_zoom, wp_zoom.
  destruct (gi_services g Hg) as [Hlog [Hok Hcache] Hgd]. unfold log_of in *.
  pose proof (rt_load run_id 0 _ Hlog) as Hr. pose proof (law_load run_id 0 _ Hok) as Hl.
  unfold wp. destruct (el_load run_id 0 _) as [[ev|e] l']; simpl in *;
    destruct Hl as (Hok' & Hh & _); (split; [|intros run; unfold log_of; simpl; by rewrite Hh]);
    (split; [done|split; [done|]|done]); intros run p Hp; simpl; rewrite Hh; by apply Hcache.
Qed.

Lemma keeps_cancel_task ref : keeps_inv (cancel_task ref).
Proof.
  intros g Hg. apply wp_bind, wp_gets. change (@id G g) with g.
  destruct (lg_started g !! ref) as [s|] eqn:Hs; [|by apply wp_ret, kept_refl].
  case_decide; [by apply wp_ret, kept_refl|].
  apply wp_bind, wp_modify, wp_ret, kept_task; [done|]. intros s'. rewrite Hs. by intros [= <-].
Qed.

Lemma keeps_start q : _resolve_run_id q ∈ runs → keeps_inv (begin_start q).
Proof.
  intros Hq g Hg. apply wp_bind, wp_gets. change (@id G g) with g.
  cbv zeta. case_decide as Hd; [by apply wp_raise, kept_refl|].
  apply wp_bind, wp_modify, wp_bind, wp_modify, wp_ret. destruct Hg as [Hsv Hst Hwf Ht].
  split; [|apply grown_refl]. split; simpl; [done| | |].
  - intros ref s. rewrite lookup_app. destruct (lg_started g !! ref) as [s'|] eqn:Hs.
    + intros [= <-] Hlive. eapply (started_ok_grown g); [apply grown_refl|]. eapply Hst; [done|].
      destruct Hlive as [Hl|Hl]; [by left|]. right. simpl in Hl.
      apply lookup_insert_Some in Hl as [[_ Hr]|[_ Hl]]; [|done].
      apply lookup_lt_Some in Hs. lia.
    + intros Hs'%list_lookup_singleton_Some _. destruct Hs' as [_ <-].
      split; simpl; [done..|]. split; [by left|done].
  - intros run ref [[<- <-]|[Hr Hw]]%lookup_insert_Some.
    + eexists. rewrite lookup_app_r, Nat.sub_diag by lia. simpl. split; [done|done].
    + destruct (Hwf run ref Hw) as (s & Hs & Ho). exists s. split; [|done].
      by apply lookup_app_l_Some.
  - intros run. rewrite od_get_set, lookup_insert. repeat case_decide; congruence || by rewrite Ht.
Qed.

Lemma gateway_step_kept g g' : gateway_inv g → gateway_step g g' → kept g g'.
Proof.
  assert (∀ A (m : M G A) g o g', keeps_inv m → gateway_inv g → m g = (o, g') → kept g g') as Hrun.
  { intros A m g0 o g1 Hm Hg He. pose proof (wp_run _ _ _ _ _ _ (Hm g0 Hg) He). by destruct o. }
  intros Hg Hs. destruct Hs as [q o g g' Hq He|ref o g g' He|run_id request o g g' He|run_id o g g' He
    |ref o g g' He|run_id o g g' He|run_id o g g' He|run_id o g g' He|key output o g g' He|w g|c o g g' Hc He|g].
  - eapply Hrun; [by apply keeps_start|done|done].
  - eapply Hrun; [by apply keeps_task|done|done].
  - eapply Hrun; [by apply keeps_signal|done|done].
  - eapply Hrun; [|done|done]. intros g0 Hg0. apply wp_bind, wp_gets. change (@id G g0) with g0.
    destruct (od_get run_id _); [by apply keeps_cancel_task|by apply wp_ret, kept_refl].
  - eapply Hrun; [by apply keeps_cancel_task|done|done].
  - eapply Hrun; [|done|done]. intros g0 Hg0. apply wp_modify, kept_tables; try done.
    + intros run ref. simpl. rewrite lookup_delete_Some. by intros [].
    + intros run. simpl. rewrite od_get_del, lookup_delete, (gi_tables _ Hg0).
      repeat case_decide; congruence.
  - eapply Hrun; [by apply keeps_query|done|done].
  - eapply Hrun; [by apply keeps_stream|done|done].
  - eapply Hrun; [|done|done]. intros g0 Hg0. apply wp_bind, wp_modify, wp_ret, kept_tables; try done. apply (gi_tables g0 Hg0).
  - apply kept_services; [done| |by intros run]. by destruct Hg as [[] _ _ _].
  - eapply Hrun; [|done|done]. intros g0 Hg0. apply keeps_services; [done|].
    eapply wp_mono; [apply (append_frame deps runs good), Hc; apply (gi_services g0 Hg0)| |];
      simpl; intros ? sv [Hsv Hh]; (split; [done|]); intros run; rewrite Hh; first [by eexists|reflexivity].
  - apply kept_tables; try done.
Qed.

Lemma gateway_reachable g g' : gateway_inv g → rtc gateway_step g g' → kept g g'.
Proof.
  intros Hg Hr. induction Hr as [g|g g1 g2 Hs _ IH]; [by apply kept_refl|].
  destruct (gateway_step_kept g g1 Hg Hs) as [Hg1 Hgr]. destruct (IH Hg1) as [Hg2 Hgr2].
  split; [done|]. by eapply grown_trans.
Qed.

(** The gateway as the adaptor makes it, over services that have cached nothing. *)
Lemma new_gateway_inv sv (d : D) :
  (∀ run, good run None) →
  rt_ok (runs := runs) (log_of sv) → _projection_by_run (sv_projection sv) = ∅ →
  gateway_inv (new_gateway sv d).
Proof.
  intros Hnone Hlog Hc. split; simpl; [|done| |done].
  - split; [done| |intros run; rewrite Hc, lookup_empty; apply Hnone].
    split; [by apply (rt_lawful (runs := runs))|]. intros run p. rewrite Hc.
    by rewrite lookup_empty.
  - intros run ref. by rewrite lookup_empty.
Qed.
End gateway.

(** ** A signal that was taken *)
Section taken.
Context {L D S E : Type} `{EventLogLaws L} `{DecisionDeduperPort D} `{DedupeStorePort S}.
Context (deps : RunActorDependencyBundle L D S E) (runs : gset string) `{!RetainingLog L runs}.
Context (Hmig : migrator_keeps_offset (dp_projection deps)) (Htemporal : dp_temporal deps = None).
Abbreviation A := (actor L D S E).
Abbreviation cfg := (dp_projection deps).
Implicit Types a : A.

(** From here on: the histories [hs], the last projection [p], which is the
    cached one of the run [owner] too, and the identity. *)
Record holding (owner : string) (hs : string → list RuntimeEvent) (p : RunProjection)
    (o : option string) a : Prop := {
  ho_services : services_ok deps runs anything (ac_services a);
  ho_histories run : history_of a run = hs run;
  ho_replay : replay cfg owner (hs owner) = Ok p;
  ho_cached : _projection_by_run (sv_projection (ac_services a)) !! owner = Some p;
  ho_last : _last_projection (ac_locals a) = Some p;
  ho_run : _run_id (ac_locals a) = o
}.

Definition holds {B} (m : M A B) : Prop := ∀ owner hs p o a,
  holding owner hs p o a → wp m (λ _, holding owner hs p o) (λ _ _, True) a.

Lemma holds_bind {B C} (m : M A B) (f : B → M A C) : holds m → (∀ b, holds (f b)) → holds (m ≫= f).
Proof.
  intros Hm Hf owner hs p o a Ha. apply wp_bind. eapply wp_mono; [by apply Hm| |done].
  intros b a1 Ha1. by apply Hf.
Qed.

Lemma holds_ret {B} (b : B) : holds (mret b).
Proof. intros owner hs p o a Ha. by apply wp_ret. Qed.

Lemma holds_read : holds (on_locals (gets id)).
Proof. intros owner hs p o [sv d l] []. by apply wp_zoom, wp_gets. Qed.

Lemma holds_assign (f : locals → locals) :
  (∀ l, _last_projection (f l) = _last_projection l ∧ _run_id (f l) = _run_id l) →
  holds (on_locals (modify f)).
Proof.
  intros Hf owner hs p o [sv d l] []. apply wp_zoom, wp_modify. destruct (Hf l). simpl in *.
  split; simpl; congruence || done.
Qed.

Lemma holds_deduper {B} (m : M D B) : holds (on_deduper m).
Proof. intros owner hs p o [sv d l] []. apply wp_zoom. unfold wp. by destruct (m _) as [[b|e] d']. Qed.

Lemma holds_readiness run k : holds (on_services (sv_on_projection (readiness cfg run k))).
Proof.
  intros owner hs p o [sv d l] [Hs Hh Hp Hc Hl Hr]. apply wp_zoom. unfold readiness, get.
  pose proof (project_frame deps runs anything absorbing_anything Hmig run None sv Hs) as Hw.
  unfold wp, sv_on_projection, zoom, mbind, M_bind in *.
  simpl. destruct (project _ _ _ _) as [[q|e] ps]; [|done].
  destruct Hw as (Hs' & Hh' & _ & Hc' & n & [_ Hn] & Hfull & _). simpl in *.
  split; simpl; [done| |done| |done|done].
  - intros r. unfold history_of, actor_log in *. simpl in *. by rewrite Hh'.
  - rewrite Hc', lookup_insert. case_decide as Hrun; [|done]. subst run.
    rewrite (Hfull eq_refl), firstn_all in Hn. unfold history_of, actor_log in Hh. simpl in Hh.
    rewrite Hh in Hn. congruence.
Qed.

(** The round on a commit whose last event is the latest of its run: the
    workflow's last projection is then that of the whole history. *)
Lemma claim_catches_up commit ev a run hs o :
  services_ok deps runs anything (ac_services a) → (∀ r, history_of a r = hs r) →
  _run_id (ac_locals a) = o →
  cm_run_id commit = run → last_event commit = Ok ev → cm_action commit = None →
  ev_commit_offset ev = Z.of_nat (length (hs run)) →
  wp (process_action_commit deps commit)
    (λ _ a', ∃ p, holding run hs p o a') (λ _ _, True) a.
Proof.
  intros Hs Hh Hr Hrun Hev Hact Hoff. unfold process_action_commit. rewrite Hact.
  assert (wp (claim_round deps commit) (λ _ a', ∃ p, holding run hs p o a') (λ _ _, True) a) as Hc.
  2: { apply wp_bind. eapply wp_mono; [exact Hc| |done]. intros [[l p]|] a' Ha'; by apply wp_ret. }
  unfold claim_round. apply wp_bind, wp_lift; [intros _ _|done].
  apply wp_bind, wp_lift; [|done]. rewrite Hev. intros ? [= <-]. rewrite Hrun.
  destruct a as [sv d l]. apply wp_bind, wp_zoom. unfold catch_up.
  eapply wp_mono; [by apply (project_frame deps runs anything absorbing_anything Hmig)| |done]. simpl.
  intros p sv' (Hs' & Hh' & _ & Hc' & k & [Hk Hrep] & _ & Hd). apply wp_bind, wp_zoom, wp_modify. simpl.
  assert (el_history (log_of sv) run = hs run) as Hhr by apply Hh.
  rewrite Hhr in *.
  assert (k = length (hs run)) as ->.
  { destruct (drop k (hs run)) as [|e tl] eqn:Hdrop.
    - apply (f_equal length) in Hdrop. rewrite length_drop in Hdrop. simpl in Hdrop. lia.
    - exfalso. specialize (Hd _ eq_refl e ltac:(by left)).
      pose proof (law_numbered (log_of sv) run (rt_lawful _ (so_log _ _ _ _ Hs))) as Hnum.
      rewrite Hhr in Hnum. rewrite <- (take_drop k (hs run)), Hdrop in Hnum.
      apply consecutive_app in Hnum as [_ [He _]]. rewrite length_take in He.
      apply (f_equal length) in Hdrop. rewrite length_drop in Hdrop. simpl in Hdrop. lia. }
  rewrite firstn_all in Hrep.
  match goal with |- wp _ _ _ ?x => assert (holding run hs p o x) as Hx end.
  { split; simpl; [done| |done| |done|done].
    - intros r. unfold history_of, actor_log in *. simpl in *. by rewrite Hh', Hh.
    - by rewrite Hc', lookup_insert_eq. }
  assert (∀ B (m : M A B) a', holds m → holding run hs p o a' →
    wp m (λ _ a', ∃ p, holding run hs p o a') (λ _ _, True) a') as Hrest.
  { intros B m a' Hm Ha'. eapply wp_mono; [by apply Hm|simpl; eauto|done]. }
  apply Hrest; [|exact Hx].
  apply holds_bind; [apply holds_readiness|]. intros [|]; simpl; [|apply holds_ret].
  apply holds_bind; [apply holds_deduper|]. intros [|]; [apply holds_ret|].
  apply holds_bind; [apply holds_deduper|]. intros _. apply holds_ret.
Qed.

(** What one signal adds to the log. *)
Definition signal_events (run : string) (i : ActorSignal) (h : list RuntimeEvent) (sequence : Z)
    (t1 t2 : string) : list RuntimeEvent :=
  renumber (Z.of_nat (length h) + 1)
    (map (el_normal (L := L))
       (cm_events (signal_commit run i sequence (Z.of_nat (length h) + 1) t1 t2))).

(** A history whose last event the projection took. *)
Definition settled (run : string) (h : list RuntimeEvent) : Prop :=
  ∃ p, replay cfg run h = Ok p ∧ pj_projected_offset p = Z.of_nat (length h).

Lemma signal_seen owner i a :
  owner ∈ runs → services_ok deps runs anything (ac_services a) →
  identity (ac_locals a) = Some owner → peer_rejected (ac_locals a) i = false →
  already_seen (ac_locals a) i = false → settled owner (history_of a owner) →
  wp (signal deps i)
    (λ _ a', ∃ sequence t1 t2 p,
       let h' := history_of a owner ++ signal_events owner i (history_of a owner) sequence t1 t2 in
       holding owner (λ r, if decide (r = owner) then h' else history_of a r) p
         (_run_id (ac_locals a)) a')
    (λ _ _, True) a.
Proof.
  intros Hrun Hs Hid Hpeer Hseen (p0 & Hrep & Hoff). destruct a as [sv d l]. simpl in Hs, Hid, Hpeer, Hseen.
  unfold signal. apply wp_bind, wp_zoom, wp_gets. simpl. rewrite Hid.
  unfold _handle_signal. apply wp_bind, wp_zoom, wp_gets. simpl. rewrite Hid, Hpeer, Hseen. simpl.
  apply wp_bind, wp_zoom, wp_modify, wp_bind, wp_zoom. simpl.
  eapply wp_mono; [by apply (project_frame deps runs anything absorbing_anything Hmig)| |done]. simpl.
  intros p sv1 ([Hlog1 Hinv1] & Hh1 & _ & _ & k & [Hk Hp] & Hfull & _). rewrite Hfull, firstn_all in Hp by done.
  assert (history_of (Actor sv d l) owner = el_history (log_of sv) owner) as Hhist by done.
  rewrite Hhist in *. rewrite Hrep in Hp. injection Hp as <-. clear Hfull Hk k.
  assert (∀ B (m : M E B) (f : B → M A unit) w l1 Q, 
    (∀ b w', wp (f b) Q (λ _ _, True) (Actor (Services (sv_projection sv1) w') d l1)) →
    wp (b ← on_services (sv_on_env m); f b) Q (λ _ _, True) (Actor (Services (sv_projection sv1) w) d l1))
    as Henv.
  { intros B m f w l1 Q Hf. apply wp_bind, wp_zoom, wp_zoom, wp_zoom. unfold wp.
    by destruct (m _) as [[b|e] env]; [apply Hf|]. }
  destruct sv1 as [ps1 w1]. apply Henv. intros t1 w2. apply Henv. intros t2 w3. clear Henv.
  set (sequence := (_signal_sequence l + 1)%Z). rewrite Hoff.
  set (commit := signal_commit _ _ _ _ _ _). apply wp_bind, wp_zoom.
  eapply wp_mono; [by apply (append_frame deps runs anything)| |done]. simpl.
  intros _ sv2 [Hs2 Hh2]. apply wp_bind.
  assert (∀ r, history_of (Actor sv2 d (next_sequence l)) r =
    if decide (r = owner)
    then el_history (log_of sv) owner ++ signal_events owner i (el_history (log_of sv) owner) sequence t1 t2
    else history_of (Actor sv d l) r) as Hh.
  { intros r. unfold history_of, actor_log. simpl. rewrite Hh2.
    change (log_of {| sv_projection := ps1; sv_world := w3 |}) with (log_of (Services ps1 w1)).
    rewrite Hh1. change (cm_run_id commit) with owner.
    case_decide; [subst r; done|by rewrite app_nil_r]. }
  assert (∀ l1, _last_projection l1 = _last_projection l1 ∧ _run_id l1 = _run_id l →
    wp (process_action_commit deps commit;; on_locals (modify count_round);;
        l' ← on_locals (gets id);
        if _should_continue_as_new deps l' then on_locals (_trigger_continue_as_new deps) else mret tt)
      (λ _ a', ∃ sequence t1 t2 p,
         let h' := el_history (log_of sv) owner ++ signal_events owner i (el_history (log_of sv) owner) sequence t1 t2 in
         holding owner (λ r, if decide (r = owner) then h' else history_of (Actor sv d l) r) p (_run_id l) a')
      (λ _ _, True) (Actor sv2 d l1)) as Hrest.
  { intros l1 [_ Hl1]. apply wp_bind. eapply wp_mono; [eapply (claim_catches_up commit _ _ owner _ (_run_id l))| |done].
    - exact Hs2.
    - exact Hh.
    - exact Hl1.
    - done.
    - done.
    - done.
    - simpl. rewrite decide_True by done. rewrite length_app. unfold signal_events.
      rewrite length_renumber, length_map. simpl. lia.
    - simpl. intros _ a' (p & Ha').
      assert (holds (on_locals (modify count_round);;
        l' ← on_locals (gets id);
        if _should_continue_as_new deps l' then on_locals (_trigger_continue_as_new deps) else mret tt)) as Hm.
      { apply holds_bind; [by apply holds_assign|]. intros _. apply holds_bind; [apply holds_read|].
        intros l'. unfold _should_continue_as_new. rewrite Htemporal. apply holds_ret. }
      eapply wp_mono; [by apply Hm| |done]. simpl. intros _ a2 Ha2. by exists sequence, t1, t2, p. }
  destruct (signal_token i); [apply wp_zoom, wp_modify|apply wp_ret]; by apply Hrest.
Qed.

(** The signal's event is a fact: the projection takes it. *)
Lemma settled_signal run i h sequence t1 t2 :
  _event_schema_migrator cfg = None → settled run h →
  settled run (h ++ signal_events run i h sequence t1 t2).
Proof.
  intros Hnone (p & Hp & Ho). unfold settled, replay in *. unfold signal_events, signal_commit. simpl.
  rewrite replay_loop_app, Hp. cbn [mbind outcome_bind].
  assert (∀ e, _maybe_migrate_event cfg e = Ok e) as Hm by (intros e; unfold _maybe_migrate_event; by rewrite Hnone).
  cbn [replay_loop]. rewrite Hm. cbn [mbind outcome_bind].
  unfold _validate_projection_authority_input. simpl. rewrite (rt_authority (runs := runs)). simpl.
  rewrite andb_false_r. simpl. eexists. split; [done|]. rewrite apply_offset. simpl.
  rewrite length_app. simpl. lia.
Qed.
End taken.

(** A workflow object that has its identity and its last projection answers a
    query from it. *)
Lemma query_known l run p :
  identity l = Some run → _last_projection l = Some p → query l = Ok p.
Proof. intros Hi Hp. unfold query. by rewrite Hi, Hp. Qed.

(** C18: whatever starts, start-up tasks, signals, cancellations, turns, queries
    and other writers of the log did before, in any interleaving, what a query
    returns is the replay of a prefix of the run's history in the log, of the
    whole history where no workflow of the run is registered; and a query
    raises only where the projection service itself does. *)
Theorem queries_replay_log {L D S E : Type} `{EventLogLaws L} `{DecisionDeduperPort D}
    `{DedupeStorePort S} (deps : RunActorDependencyBundle L D S E) (runs : gset string)
    `{!RetainingLog L runs} (max_cache_size : Z) (sv : services L S E) (d : D)
    (g : LocalWorkflowGateway.t L D S E) (run_id : string)
    (Hmig : migrator_keeps_offset (dp_projection deps)) (Htemporal : dp_temporal deps = None)
    (Hlog : rt_ok (runs := runs) (log_of sv)) (Hnew : _projection_by_run (sv_projection sv) = ∅)
    (Hreach : rtc (gateway_step deps runs max_cache_size) (new_gateway sv d) g) :
  match query_projection deps run_id g with
  | (Ok p, g') =>
      (∃ k, k ≤ length (run_history g run_id) ∧
         replay (dp_projection deps) run_id (take k (run_history g run_id)) = Ok p ∧
         (_workflows g !! run_id = None → k = length (run_history g run_id))) ∧
      ∀ run, run_history g' run = run_history g run
  | (Raise e, g') =>
      (get (dp_projection deps) run_id (sv_projection (lg_services g))).1 = Raise e
  end.
Proof.
  pose proof (new_gateway_inv deps runs anything sv d (λ _, I) Hlog Hnew) as Hinv.
  destruct (gateway_reachable deps runs anything absorbing_anything Hmig Htemporal max_cache_size _ _ Hinv Hreach) as [Hg _].
  assert (Hcur : match lg_on_services (sv_on_projection (get (dp_projection deps) run_id)) g with
    | (Ok p, g') => (∃ k, k ≤ length (run_history g run_id) ∧
         replay (dp_projection deps) run_id (take k (run_history g run_id)) = Ok p ∧
         k = length (run_history g run_id)) ∧ ∀ run, run_history g' run = run_history g run
    | (Raise e, g') => (get (dp_projection deps) run_id (sv_projection (lg_services g))).1 = Raise e
    end).
  { pose proof (project_frame deps runs anything absorbing_anything Hmig run_id None _ (gi_services _ _ _ g Hg)) as Hp. revert Hp.
    unfold wp, lg_on_services, sv_on_projection, zoom, get.
    destruct (project _ run_id None _) as [[p|e] ps]; simpl; [|done].
    intros (_ & Hh & _ & _ & k & [Hk Hr] & Hfull & _). split; [exists k; auto|]. done. }
  unfold query_projection, gets, mbind, M_bind. change (@id _ g) with g.
  destruct (_workflows g !! run_id) as [ref|] eqn:Hr.
  2: { revert Hcur. cbv zeta. destruct (lg_on_services _ g) as [[p|e] g']; [|done].
       intros [(k & ? & ? & ?) ?]. split; [|done]. exists k. auto. }
  destruct (gi_workflows _ _ _ g Hg run_id ref Hr) as (s & Hs & Ho).
  destruct (gi_started _ _ _ g Hg ref s Hs) as [_ _ _ [_ Hl]]; [right; by rewrite Ho|]. unfold locals_of. rewrite Hs. simpl.
  assert (query (sd_locals s) = Raise not_started ∨
    query (sd_locals s) = Raise (Exn RuntimeError "RunActorWorkflow projection is not initialized.") ∨
    ∃ p, query (sd_locals s) = Ok p ∧ _last_projection (sd_locals s) = Some p) as Hq.
  { unfold query. destruct (identity _); [|by left]. destruct (_last_projection _); eauto. }
  assert (Hfall : match lg_on_services (sv_on_projection (get (dp_projection deps) run_id)) g with
    | (Ok p, g') => (∃ k, k ≤ length (run_history g run_id) ∧
         replay (dp_projection deps) run_id (take k (run_history g run_id)) = Ok p ∧
         (Some ref = None → k = length (run_history g run_id))) ∧ ∀ run, run_history g' run = run_history g run
    | (Raise e, g') => (get (dp_projection deps) run_id (sv_projection (lg_services g))).1 = Raise e
    end).
  { destruct (lg_on_services _ g) as [[p|e] g']; [|done].
    destruct Hcur as [(k & ? & ? & ?) ?]. split; [|done]. exists k. auto. }
  destruct Hq as [-> | [-> | (p & -> & Hp)]]; [exact Hfall|exact Hfall|].
  split; [|done]. destruct (Hl p Hp) as [(k & Hk & Hrep) _]. rewrite Ho in *. by exists k.
Qed.

Section gateway_signal.
Context {L D S E : Type} `{EventLogLaws L} `{DecisionDeduperPort D} `{DedupeStorePort S}.
Context (deps : RunActorDependencyBundle L D S E) (runs : gset string) `{!RetainingLog L runs}.
Context (Hmig : _event_schema_migrator (dp_projection deps) = None) (Htemporal : dp_temporal deps = None).

Lemma none_keeps_offset : migrator_keeps_offset (dp_projection deps).
Proof. intros e e'. unfold _maybe_migrate_event. rewrite Hmig. by intros [= <-]. Qed.

(** What the gateway is after it took a signal: the services, the deduper and
    the object of the run have changed, nothing else. *)
Lemma signal_taken (g g' : LocalWorkflowGateway.t L D S E) run_id ref request :
  gateway_inv deps runs anything g →
  _workflows g !! run_id = Some ref → identity (locals_of ref g) = Some run_id →
  already_seen (locals_of ref g) (actor_signal_of_request request) = false →
  settled deps run_id (run_history g run_id) →
  signal_workflow deps run_id request g = (Ok tt, g') →
  ∃ sequence t1 t2 p sv d l,
    let h' := run_history g run_id ++
      signal_events run_id (actor_signal_of_request request) (run_history g run_id) sequence t1 t2 in
    holding deps runs run_id (λ r, if decide (r = run_id) then h' else run_history g r) p
      (_run_id (locals_of ref g)) (Actor sv d l) ∧
    g' = LocalGateway sv d (alter (λ s, StartedRun l (sd_input s) (sd_task s)) ref (lg_started g))
           (_workflows g) (_run_tasks g) (_execute_turn_cache g).
Proof.
  intros Hg Href Hid Hseen Hsettled Hsig.
  destruct (gi_workflows _ _ _ g Hg run_id ref Href) as (s & Hs & Ho).
  destruct (gi_started _ _ _ g Hg ref s Hs) as [Hrun _ _ _]; [right; by rewrite Ho|]. rewrite Ho in Hrun.
  pose proof (signal_seen deps runs none_keeps_offset Htemporal run_id (actor_signal_of_request request)
    (Actor (lg_services g) (lg_deduper g) (locals_of ref g)) Hrun (gi_services _ _ _ g Hg) Hid
    eq_refl Hseen Hsettled) as Hw.
  unfold signal_workflow, gets, mbind, M_bind in Hsig. change (@id _ g) with g in Hsig.
  rewrite Href in Hsig. unfold on_workflow, zoom in Hsig. unfold wp in Hw.
  destruct (signal deps _ _) as [o [sv' d' l']]. injection Hsig as -> Hg'.
  destruct Hw as (sequence & t1 & t2 & p & Ha). by exists sequence, t1, t2, p, sv', d', l'.
Qed.
End gateway_signal.

(** A signal that the gateway took is seen by the next query.  Where the
    history of a started run ends with an event that the projection took, and
    the signal's cause is new, [signal_workflow] appends exactly the signal's
    event to that run and to no other, the query that follows returns the
    replay of the whole history, and the history ends again with an event that
    the projection took. *)
Theorem signal_is_seen {L D S E : Type} `{EventLogLaws L} `{DecisionDeduperPort D}
    `{DedupeStorePort S} (deps : RunActorDependencyBundle L D S E) (runs : gset string)
    `{!RetainingLog L runs} (max_cache_size : Z) (sv : services L S E) (d : D)
    (g g' : LocalWorkflowGateway.t L D S E) (run_id : string) (ref : nat) (request : SignalRunRequest)
    (Hmig : _event_schema_migrator (dp_projection deps) = None) (Htemporal : dp_temporal deps = None)
    (Hlog : rt_ok (runs := runs) (log_of sv)) (Hnew : _projection_by_run (sv_projection sv) = ∅)
    (Hreach : rtc (gateway_step deps runs max_cache_size) (new_gateway sv d) g)
    (Href : _workflows g !! run_id = Some ref) (Hstarted : identity (locals_of ref g) = Some run_id)
    (Hseen : already_seen (locals_of ref g) (actor_signal_of_request request) = false)
    (Hsettled : settled deps run_id (run_history g run_id))
    (Hsig : signal_workflow deps run_id request g = (Ok tt, g')) :
  ∃ sequence t1 t2 p,
    let h' := run_history g run_id ++
      signal_events run_id (actor_signal_of_request request) (run_history g run_id) sequence t1 t2 in
    (∀ r, run_history g' r = if decide (r = run_id) then h' else run_history g r) ∧
    settled deps run_id h' ∧
    replay (dp_projection deps) run_id h' = Ok p ∧
    query_projection deps run_id g' = (Ok p, g').
Proof.
  pose proof (none_keeps_offset deps Hmig) as Hkeep.
  pose proof (new_gateway_inv deps runs anything sv d (λ _, I) Hlog Hnew) as Hinv.
  destruct (gateway_reachable deps runs anything absorbing_anything Hkeep Htemporal max_cache_size _ _ Hinv Hreach) as [Hg _].
  destruct (gi_workflows _ _ _ g Hg run_id ref Href) as (s & Hs & Ho).
  destruct (signal_taken deps runs Hmig Htemporal g g' run_id ref request Hg Href Hstarted Hseen Hsettled Hsig)
    as (sequence & t1 & t2 & p & sv' & d' & l' & Ha & ->).
  pose proof (ho_replay _ _ _ _ _ _ _ Ha) as Hp. cbv beta in Hp. rewrite decide_True in Hp by done.
  exists sequence, t1, t2, p. split; [|split; [|split; [exact Hp|]]].
  - exact (ho_histories _ _ _ _ _ _ _ Ha).
  - by apply (settled_signal deps runs).
  - unfold query_projection, gets, mbind, M_bind. simpl.
    rewrite Href. unfold locals_of. simpl. rewrite list_lookup_alter, decide_True, Hs by done. simpl.
    rewrite (query_known _ run_id p); [done| |exact (ho_last _ _ _ _ _ _ _ Ha)].
    pose proof (ho_run _ _ _ _ _ _ _ Ha) as Hrr. simpl in Hrr. unfold identity. by rewrite Hrr.
Qed.

(** ** Turns

    The cache of [execute_turn] over time: a call that finds its key returns
    the cached result; any other starts the handler, and stores the result
    where the handler returns.  [strict] histories have no two calls of one
    key in flight at once. *)
Section turns.
Context {L D S E : Type} (max_cache_size : Z).
Abbreviation G := (LocalWorkflowGateway.t L D S E).

Record turn_run := TurnRun {
  tu_gateway : G;
  tu_flight : list string;
  tu_started : list string;
  tu_done : list (string * pyval);
  tu_returned : list (string * TurnResult)
}.

Inductive turn_step (strict : bool) : turn_run → turn_run → Prop :=
  | tu_hit key r g fl st dn rt :
      cached_turn key g = (Ok (Some r), g) →
      turn_step strict (TurnRun g fl st dn rt) (TurnRun g fl st dn (rt ++ [(key, r)]))
  | tu_miss key g fl st dn rt :
      cached_turn key g = (Ok None, g) → (strict = true → key ∉ fl) →
      turn_step strict (TurnRun g fl st dn rt) (TurnRun g (key :: fl) (st ++ [key]) dn rt)
  | tu_finish key output r g g' fl1 fl2 st dn rt :
      finish_turn max_cache_size key output g = (Ok r, g') →
      turn_step strict (TurnRun g (fl1 ++ key :: fl2) st dn rt)
        (TurnRun g' (fl1 ++ fl2) st (dn ++ [(key, output)]) (rt ++ [(key, r)]))
  | tu_fail key g fl1 fl2 st dn rt :
      turn_step strict (TurnRun g (fl1 ++ key :: fl2) st dn rt) (TurnRun g (fl1 ++ fl2) st dn rt)
  | tu_else g g' fl st dn rt :
      _execute_turn_cache g' = _execute_turn_cache g →
      turn_step strict (TurnRun g fl st dn rt) (TurnRun g' fl st dn rt).

Definition cache_of (t : turn_run) : odict TurnResult := _execute_turn_cache (tu_gateway t).

Record turns_ok (t : turn_run) : Prop := {
  to_keys : NoDup (map fst (cache_of t));
  to_bound : (Z.of_nat (length (cache_of t)) ≤ Z.max 0 max_cache_size)%Z;
  to_cached key r : (key, r) ∈ cache_of t →
    ∃ output, r = turn_record key output ∧ (key, output) ∈ tu_done t;
  to_returned key r : (key, r) ∈ tu_returned t →
    ∃ output, r = turn_record key output ∧ (key, output) ∈ tu_done t;
  to_started key : key ∈ tu_flight t ∨ key ∈ map fst (tu_done t) → key ∈ tu_started t
}.

Lemma tail_elem {X} (x : X) l : x ∈ tail l → x ∈ l.
Proof. destruct l; [done|]. by right. Qed.

Lemma cache_turn_ok key r cache :
  NoDup (map fst cache) → (Z.of_nat (length cache) ≤ Z.max 0 max_cache_size)%Z →
  NoDup (map fst (cache_turn max_cache_size key r cache)) ∧
  (Z.of_nat (length (cache_turn max_cache_size key r cache)) ≤ Z.max 0 max_cache_size)%Z ∧
  ∀ k' r', (k', r') ∈ cache_turn max_cache_size key r cache → (k', r') = (key, r) ∨ (k', r') ∈ cache.
Proof.
  intros Hnd Hlen.
  assert (NoDup (map fst (od_set key r cache))) as Hnd'.
  { rewrite od_set_keys. case_decide; [done|]. apply NoDup_app. split_and!; [done|set_solver|apply NoDup_singleton]. }
  assert (length (od_set key r cache) ≤ Datatypes.S (length cache)) as Hl.
  { rewrite <- (length_map fst (od_set _ _ _)), <- (length_map fst cache), od_set_keys.
    case_decide; [lia|]. rewrite length_app. simpl. lia. }
  unfold cache_turn. destruct (Z.ltb_spec max_cache_size (Z.of_nat (length (od_set key r cache)))) as [Hlt|Hge].
  - split_and!.
    + destruct (od_set key r cache); [done|]. by apply NoDup_cons in Hnd' as [_ ?].
    + destruct (od_set key r cache); simpl in *; lia.
    + intros k' r' Hin%tail_elem. by apply od_set_elem.
  - split_and!; [done|lia|]. intros k' r'. apply od_set_elem.
Qed.

Lemma turns_ok_step strict t t' : turns_ok t → turn_step strict t t' → turns_ok t'.
Proof.
  intros [Hk Hb Hc Hr Hs] Hstep. destruct Hstep as [key r g fl st dn rt Hhit|key g fl st dn rt Hmiss Hfl
    |key output r g g' fl1 fl2 st dn rt Hf|key g fl1 fl2 st dn rt|g g' fl st dn rt Hg]; unfold cache_of in *; simpl in *.
  - split; try done. simpl. intros k' r' [Hin|Hin%list_elem_of_singleton]%elem_of_app; [by apply Hr|].
    injection Hin as -> ->. apply Hc. injection Hhit as Hhit. by apply od_get_elem.
  - split; try done. simpl. intros k' [[->|Hin]%elem_of_cons|Hin]; apply elem_of_app; [by right; left|left|left]; auto.
  - injection Hf as <- <-. simpl in *.
    destruct (cache_turn_ok key (turn_record key output) _ Hk Hb) as (Hk' & Hb' & Hin').
    assert (∀ k o, (k, o) ∈ dn → (k, o) ∈ dn ++ [(key, output)]) as Hdn by (intros; apply elem_of_app; by left).
    split; try done; simpl.
    + intros k' r' [[= -> ->]|Hin]%Hin'; [exists output; split; [done|]; apply elem_of_app; by right; left|].
      destruct (Hc _ _ Hin) as (o & ? & ?). exists o. auto.
    + intros k' r' [Hin|Hin%list_elem_of_singleton]%elem_of_app.
      * destruct (Hr _ _ Hin) as (o & ? & ?). exists o. auto.
      * injection Hin as -> ->. exists output. split; [done|]. apply elem_of_app. by right; left.
    + intros k' [Hin|Hin]; apply Hs.
      * left. rewrite elem_of_app in *. set_solver.
      * rewrite map_app in Hin. apply elem_of_app in Hin as [Hin|Hin]; [by right|].
        apply list_elem_of_singleton in Hin as ->. left. apply elem_of_app. right. by left.
  - split; try done. simpl. intros k' [Hin|Hin]; apply Hs; [left|by right]. rewrite elem_of_app in *. set_solver.
  - split; unfold cache_of; simpl; rewrite ?Hg; done.
Qed.

(** Without overlap, and while all keys fit, nothing is evicted: a key that is
    done stays cached. *)
Record turns_once (t : turn_run) : Prop := {
  tc_flight : NoDup (tu_flight t);
  tc_done : NoDup (map fst (tu_done t));
  tc_cached key : key ∈ map fst (tu_done t) ↔ key ∈ map fst (cache_of t);
  tc_apart key : key ∈ tu_flight t → key ∉ map fst (tu_done t)
}.

Lemma od_get_elem_map {V} (key : string) (d : odict V) : od_get key d = None → key ∉ map fst d.
Proof. apply od_get_None. Qed.

Lemma turns_once_step t t' :
  (Z.of_nat (size (list_to_set (tu_started t) : gset string)) ≤ max_cache_size)%Z →
  turns_ok t → turns_once t → turn_step true t t' → turns_once t'.
Proof.
  intros Hfit [Hk Hb Hc Hr Hst] [Hf Hd Hin Hap] Hstep. destruct Hstep as [key r g fl st dn rt Hhit|key g fl st dn rt Hmiss Hfl
    |key output r g g' fl1 fl2 st dn rt Hfin|key g fl1 fl2 st dn rt|g g' fl st dn rt Hg]; unfold cache_of in *; simpl in *.
  - by split.
  - injection Hmiss as Hmiss%od_get_None. split; simpl; try done.
    + apply NoDup_cons. by split; [apply Hfl|].
    + intros k' [->|Hk']%elem_of_cons; [by rewrite Hin|by apply Hap].
  - injection Hfin as <- <-. unfold cache_of. simpl.
    assert (key ∉ map fst dn) as Hkd by (apply Hap, elem_of_app; right; by left).
    assert (key ∉ fl1 ++ fl2 ∧ NoDup (fl1 ++ fl2)) as [Hkf Hf'].
    { apply NoDup_app in Hf as (H1 & H2 & [H3 H4]%NoDup_cons).
      split; [|apply NoDup_app; split_and!; [done| |done]]; set_solver. }
    assert (map fst (cache_turn max_cache_size key (turn_record key output) (_execute_turn_cache g)) =
            map fst (_execute_turn_cache g) ++ [key]) as Hkeys.
    { unfold cache_turn. destruct (Z.ltb_spec max_cache_size (Z.of_nat (length (od_set key
        (turn_record key output) (_execute_turn_cache g))))) as [Hlt|_].
      - exfalso. rewrite <- (length_map fst), od_set_keys in Hlt.
        rewrite decide_False in Hlt by (by rewrite <- Hin).
        assert (size (list_to_set (map fst (_execute_turn_cache g) ++ [key]) : gset string) ≤
                size (list_to_set st : gset string)) as Hsz.
        { apply subseteq_size. intros k'. rewrite !elem_of_list_to_set, elem_of_app.
          intros [Hk'|Hk'%list_elem_of_singleton]; apply Hst; [right; by apply Hin|].
          left. subst k'. apply elem_of_app. right. by left. }
        rewrite size_list_to_set in Hsz; [lia|]. apply NoDup_app.
        split_and!; [done|set_solver|apply NoDup_singleton].
      - rewrite od_set_keys. by rewrite decide_False by (by rewrite <- Hin). }
    split; simpl; [done| | |].
    + rewrite map_app. apply NoDup_app. split_and!; [done|set_solver|apply NoDup_singleton].
    + intros k'. unfold cache_of. simpl. rewrite Hkeys, map_app, !elem_of_app, Hin. done.
    + intros k' Hk'. rewrite map_app, elem_of_app. simpl.
      intros [Hx|Hx%list_elem_of_singleton]; [|by subst k'].
      apply (Hap k'); [|done]. rewrite elem_of_app in *. set_solver.
  - split; simpl; try done.
    + apply NoDup_app in Hf as (? & ? & [? ?]%NoDup_cons). apply NoDup_app. split_and!; [done|set_solver|done].
    + intros k' Hk'. apply Hap. rewrite elem_of_app in *. set_solver.
  - split; unfold cache_of; simpl; rewrite ?Hg; done.
Qed.

Definition no_turns (g : G) : turn_run := TurnRun g [] [] [] [].

Lemma started_grows strict t t' :
  turn_step strict t t' → (list_to_set (tu_started t) : gset string) ⊆ list_to_set (tu_started t').
Proof. intros Hs. destruct Hs; simpl; set_solver. Qed.

Lemma turns_life strict g0 t :
  _execute_turn_cache g0 = [] → rtc (turn_step strict) (no_turns g0) t →
  turns_ok t ∧
  (strict = true →
   (Z.of_nat (size (list_to_set (tu_started t) : gset string)) ≤ max_cache_size)%Z → turns_once t).
Proof.
  intros Hnew. revert t.
  refine (rtc_ind_r (λ t, turns_ok t ∧ (strict = true →
   (Z.of_nat (size (list_to_set (tu_started t) : gset string)) ≤ max_cache_size)%Z → turns_once t)) _ _ _).
  - split.
    + split; unfold cache_of; simpl; rewrite ?Hnew; simpl; [constructor|lia| | |]; set_solver.
    + intros _ _. split; unfold cache_of; simpl; rewrite ?Hnew; simpl; [constructor|constructor|done|]; set_solver.
  - intros t t' _ Hstep [Hok Honce]. split; [by eapply turns_ok_step|]. intros Hstrict Hfit.
    rewrite Hstrict in *.
    pose proof (subseteq_size _ _ (started_grows _ _ _ Hstep)) as Hsz.
    eapply (turns_once_step t); [lia|done|apply Honce; [done|lia]|done].
Qed.
End turns.

(** C19: over any history of overlapping calls of [execute_turn], failing
    handlers and other operations, the cache keeps at most its limit of
    results, and what a call returns is the record of an output that a handler
    of the call's key gave.  Where no two calls of one key overlap and the keys
    in use fit the cache, the handlers of a key return at most once, and all
    calls of a key that return give the same result. *)
Theorem turns_executed_once {L D S E : Type} (max_cache_size : Z) (strict : bool)
    (g0 : LocalWorkflowGateway.t L D S E) (t : turn_run)
    (Hnew : _execute_turn_cache g0 = [])
    (Hlife : rtc (turn_step max_cache_size strict) (no_turns g0) t) :
  (Z.of_nat (length (_execute_turn_cache (tu_gateway t))) ≤ Z.max 0 max_cache_size)%Z ∧
  (∀ key r, (key, r) ∈ tu_returned t →
     ∃ output, r = turn_record key output ∧ (key, output) ∈ tu_done t) ∧
  (strict = true →
   (Z.of_nat (size (list_to_set (tu_started t) : gset string)) ≤ max_cache_size)%Z →
   NoDup (map fst (tu_done t)) ∧
   ∀ key r r', (key, r) ∈ tu_returned t → (key, r') ∈ tu_returned t → r = r').
Proof.
  destruct (turns_life max_cache_size strict g0 t Hnew Hlife) as [[Hk Hb Hc Hr Hst] Honce].
  split; [exact Hb|]. split; [exact Hr|]. intros Hs Hfit.
  destruct (Honce Hs Hfit) as [_ Hd _ _]. split; [done|]. intros key r r' H1 H2.
  destruct (Hr _ _ H1) as (o & -> & Ho), (Hr _ _ H2) as (o' & -> & Ho').
  f_equal. apply (od_get_elem_iff key o (tu_done t) Hd) in Ho.
  apply (od_get_elem_iff key o' (tu_done t) Hd) in Ho'. congruence.
Qed.

(** ** Concrete gateways *)
Abbreviation example_gateway := (LocalWorkflowGateway.t InMemoryKernelRuntimeEventLog.t
  InMemoryDecisionDeduper.t InMemoryDedupeStore.t unit).

Definition start_request (kind : string) (input_json : option pydict) : StartRunRequest :=
  {| st_initiator := "user"; st_run_kind := kind; st_session_id := None; st_input_ref := None;
     st_input_json := input_json; st_context_ref := None; st_parent_run_id := None;
     st_trace_context := None; st_task_contract_ref := None; st_initial_stage_id := None;
     st_route_policy_version := None; st_skill_policy_version := None;
     st_evaluation_policy_version := None; st_task_view_policy_version := None |}.

Definition timeout_request : SignalRunRequest :=
  {| sr_run_id := "run-1"; sr_signal_type := "timeout"; sr_signal_payload := None;
     sr_caused_by := Some "timer-1" |}.

Definition example_new := new_gateway example_sv InMemoryDecisionDeduper.__init__.
Definition example_begun := (begin_start (start_request "run-1" None) example_new).2.
Definition example_started := (step_task example_deps 0 example_begun).2.
Definition example_signalled := (signal_workflow example_deps "run-1" timeout_request example_started).2.

Lemma example_log_ok : rt_ok (RetainingLog := example_retaining) (log_of example_sv).
Proof. split; [exact InMemoryKernelRuntimeEventLog.wf_init|]. intros run Hr. by apply elem_of_nil in Hr. Qed.

Lemma example_started_reached :
  rtc (gateway_step example_deps example_runs 100) example_new example_started.
Proof.
  eapply rtc_l; [eapply (gs_start example_deps example_runs 100 (start_request "run-1" None) _ _ example_begun)|].
  - apply (bool_decide_unpack _). vm_compute. exact I.
  - apply surjective_pairing.
  - eapply rtc_l; [eapply (gs_task example_deps example_runs 100 0), surjective_pairing|apply rtc_refl].
Qed.

Lemma queries_replay_log_witness :
  match query_projection example_deps "run-1" example_signalled with
  | (Ok p, _) => ∃ k, replay (dp_projection example_deps) "run-1"
      (take k (run_history example_signalled "run-1")) = Ok p ∧ run_history example_signalled "run-1" ≠ []
  | (Raise _, _) => False
  end.
Proof.
  assert (Hreach : rtc (gateway_step example_deps example_runs 100) example_new example_signalled).
  { eapply rtc_r; [exact example_started_reached|].
    eapply (gs_signal example_deps example_runs 100 "run-1" timeout_request), surjective_pairing. }
  assert (Hmig : migrator_keeps_offset (dp_projection example_deps)) by (intros e e'; by intros [= <-]).
  pose proof (queries_replay_log (RetainingLog0 := example_retaining) example_deps example_runs 100
    example_sv InMemoryDecisionDeduper.__init__ example_signalled "run-1" Hmig eq_refl
    example_log_ok eq_refl Hreach) as H.
  assert (Hok : is_ok (query_projection example_deps "run-1" example_signalled).1 = true)
    by (vm_compute; reflexivity).
  assert (Hne : Nat.eqb (length (run_history example_signalled "run-1")) 0 = false)
    by (vm_compute; reflexivity).
  destruct (query_projection example_deps "run-1" example_signalled) as [[p|e] g']; [|discriminate Hok].
  destruct H as [(k & _ & Hk & _) _]. exists k. split; [exact Hk|].
  intros Hnil. rewrite Hnil in Hne. discriminate Hne.
Defined.

Lemma signal_is_seen_witness :
  (query_projection example_deps "run-1" example_started).1 ≠
    (query_projection example_deps "run-1" example_signalled).1 ∧
  ∃ e p, run_history example_signalled "run-1" = run_history example_started "run-1" ++ [e] ∧
    replay (dp_projection example_deps) "run-1" (run_history example_signalled "run-1") = Ok p ∧
    (query_projection example_deps "run-1" example_signalled).1 = Ok p.
Proof.
  split.
  { intros H. apply (f_equal (λ o, match o with Ok p => pj_projected_offset p | Raise _ => 0%Z end)) in H.
    vm_compute in H. discriminate H. }
  assert (Hseen : already_seen (locals_of 0 example_started) (actor_signal_of_request timeout_request) = false)
    by (vm_compute; reflexivity).
  assert (Hid : identity (locals_of 0 example_started) = Some "run-1") by (vm_compute; reflexivity).
  assert (Href : _workflows example_started !! "run-1" = Some 0) by (vm_compute; reflexivity).
  assert (Hset : match replay (dp_projection example_deps) "run-1" (run_history example_started "run-1") with
    | Ok p => Z.eqb (pj_projected_offset p) (Z.of_nat (length (run_history example_started "run-1")))
    | Raise _ => false end = true) by (vm_compute; reflexivity).
  assert (Hsettled : settled example_deps "run-1" (run_history example_started "run-1")).
  { unfold settled. destruct (replay _ _ _) as [p|e]; [|discriminate Hset].
    exists p. split; [reflexivity|]. by apply Z.eqb_eq. }
  assert (Hok : (signal_workflow example_deps "run-1" timeout_request example_started).1 = Ok tt)
    by (vm_compute; reflexivity).
  destruct (signal_is_seen (RetainingLog0 := example_retaining) example_deps example_runs 100
    example_sv InMemoryDecisionDeduper.__init__ example_started example_signalled "run-1" 0 timeout_request
    eq_refl eq_refl example_log_ok eq_refl example_started_reached Href Hid Hseen Hsettled)
    as (sequence & t1 & t2 & p & Hh & _ & Hp & Hq).
  - unfold example_signalled. rewrite <- Hok. apply surjective_pairing.
  - specialize (Hh "run-1"). cbv zeta in Hh. rewrite decide_True in Hh by reflexivity. rewrite <- Hh in Hp.
    eexists _, p. split; [exact Hh|]. split; [exact Hp|]. by rewrite Hq.
Defined.

(** Two calls of one key, one after the other: the handler runs once. *)
Lemma turns_executed_once_witness :
  ∃ t : turn_run (L:=InMemoryKernelRuntimeEventLog.t) (D:=InMemoryDecisionDeduper.t)
          (S:=InMemoryDedupeStore.t) (E:=unit),
    tu_returned t = [("k", turn_record "k" (PInt 1)); ("k", turn_record "k" (PInt 1))] ∧
    NoDup (map fst (tu_done t)).
Proof.
  set (g1 := (finish_turn 2 "k" (PInt 1) example_new).2).
  set (t := TurnRun g1 [] ["k"] [("k", PInt 1)]
              [("k", turn_record "k" (PInt 1)); ("k", turn_record "k" (PInt 1))]).
  assert (Hlife : rtc (turn_step 2 true) (no_turns example_new) t).
  { eapply rtc_l; [apply (tu_miss 2 true "k"); [reflexivity|intros _; apply not_elem_of_nil]|].
    eapply rtc_l; [apply (tu_finish 2 true "k" (PInt 1) (turn_record "k" (PInt 1)) example_new g1 [] []); reflexivity|].
    eapply rtc_l; [apply (tu_hit 2 true "k" (turn_record "k" (PInt 1)) g1 [] ["k"]
      [("k", PInt 1)] [("k", turn_record "k" (PInt 1))]); reflexivity|apply rtc_refl]. }
  exists t. split; [reflexivity|].
  destruct (turns_executed_once 2 true example_new t eq_refl Hlife) as (_ & _ & H).
  apply H; [reflexivity|]. apply (bool_decide_unpack _). vm_compute. exact I.
Defined.

(** ** Where it goes wrong *)

(** Overlapping calls of one key both run the handler, and differ. *)
Lemma overlapping_turns_run_twice :
  ∃ t : turn_run (L:=InMemoryKernelRuntimeEventLog.t) (D:=InMemoryDecisionDeduper.t)
          (S:=InMemoryDedupeStore.t) (E:=unit),
    rtc (turn_step 2 false) (no_turns example_new) t ∧
    tu_returned t = [("k", turn_record "k" (PInt 1)); ("k", turn_record "k" (PInt 2))].
Proof.
  set (g1 := (finish_turn 2 "k" (PInt 1) example_new).2).
  set (g2 := (finish_turn 2 "k" (PInt 2) g1).2).
  eexists. split.
  { eapply rtc_l; [apply (tu_miss 2 false "k"); [reflexivity|discriminate]|].
    eapply rtc_l; [apply (tu_miss 2 false "k"); [reflexivity|discriminate]|].
    eapply rtc_l; [apply (tu_finish 2 false "k" (PInt 1) (turn_record "k" (PInt 1)) example_new g1 [] ["k"]); reflexivity|].
    eapply rtc_l; [apply (tu_finish 2 false "k" (PInt 2) (turn_record "k" (PInt 2)) g1 g2 [] []); reflexivity|apply rtc_refl]. }
  reflexivity.
Qed.

Definition child_request (run_id : string) : SpawnChildRunRequest :=
  {| sc_parent_run_id := "p"; sc_child_kind := "child"; sc_input_ref := None;
     sc_input_json := Some [("child_run_id", PStr run_id)]; sc_context_ref := None; sc_task_id := None;
     sc_inherit_policy_versions := true; sc_policy_version_overrides := None;
     sc_notify_parent_on_complete := true |}.

(** The identifier asked for a child is not used, so a second child of a kind
    is a duplicate. *)
Lemma second_child_is_duplicate :
  match start_child_workflow example_deps "run" "p" (child_request "c1") example_new with
  | (Ok r, g) => od_get "run_id" r = Some "p:child" ∧
      (start_child_workflow example_deps "run" "p" (child_request "c2") g).1 =
        Raise (duplicate_run "p:child")
  | _ => False
  end.
Proof. vm_compute. by split. Qed.

(** A signal whose cause was seen is dropped without an error. *)
Lemma repeated_signal_dropped :
  run_history (signal_workflow example_deps "run-1" timeout_request example_signalled).2 "run-1" =
  run_history example_signalled "run-1".
Proof. vm_compute. reflexivity. Qed.

(** ** The registry of dependencies *)

(** A context that configured its own bundle keeps it, whoever configures
    another; one that did not resolves to whatever was configured last. *)
Lemma last_configured_is_shared {B} `{EqDecision B} (fresh b1 b2 : B) c1 c2 c3 s :
  c1 ≠ c2 → c3 ≠ c1 → c3 ≠ c2 → RunActorConfig._RUN_ACTOR_CONFIG s !! c3 = None →
  let s1 := RunActorConfig.configure_run_actor_dependencies c1 (Some b1) s in
  let s2 := RunActorConfig.configure_run_actor_dependencies c2 (Some b2) s1 in
  let resolve c := RunActorConfig._resolve_run_actor_dependencies fresh c s2 in
  resolve c1 = b1 ∧ resolve c2 = b2 ∧ resolve c3 = b2.
Proof.
  intros H12 H31 H32 Hs. unfold RunActorConfig._resolve_run_actor_dependencies. simpl.
  rewrite lookup_partial_alter_ne, lookup_partial_alter_eq by done. simpl.
  rewrite lookup_partial_alter_eq. simpl.
  rewrite !lookup_partial_alter_ne by done. by rewrite Hs.
Qed.

(** In one context the second runtime takes the registry over, and its stop
    leaves the first with new in-memory services. *)
Lemma second_runtime_takes_over {B} `{EqDecision B} (fresh b1 b2 : B) c s :
  let s2 := RunActorConfig.configure_run_actor_dependencies c (Some b2)
              (RunActorConfig.configure_run_actor_dependencies c (Some b1) s) in
  RunActorConfig._resolve_run_actor_dependencies fresh c s2 = b2 ∧
  RunActorConfig._resolve_run_actor_dependencies fresh c
    (RunActorConfig.clear_run_actor_dependencies c (Some b2) s2) = fresh.
Proof.
  unfold RunActorConfig._resolve_run_actor_dependencies, RunActorConfig.clear_run_actor_dependencies.
  simpl. rewrite lookup_partial_alter_eq, decide_True by done. simpl. by rewrite lookup_delete_eq.
Qed.
