(* ===== verification/EventExport.v ===== *)
(** * Event export ([kernel/event_export.py])

    The log that hands every commit to a platform's sink in the background, and
    the reference sink, which keeps one trace per run.  Logging is left out. *)
From S2P Require Export RetainingLog Projection SchemaMigration.

(** ** Traces *)
Definition _TERMINAL_EVENT_TYPES : list string := ["run.completed"; "run.aborted"].

Record TurnTrace := {
  tt_action_id : string;
  tt_action_type : string;
  tt_effect_class : EffectClass;
  tt_host_kind : option string;
  tt_outcome_kind : option string;
  tt_recovery_mode : option string;
  tt_turn_event_types : list string;
  tt_committed_at : string;
  tt_dedupe_outcome : option string
}.

Record RunTrace := {
  ru_run_id : string;
  ru_turns : list TurnTrace;
  ru_lifecycle_event_types : list string;
  ru_failure_count : Z;
  ru_is_terminal : bool;
  ru_terminal_state : option string;
  ru_first_commit_at : option string;
  ru_last_commit_at : option string
}.

Definition new_trace (run_id : string) : RunTrace :=
  {| ru_run_id := run_id; ru_turns := []; ru_lifecycle_event_types := []; ru_failure_count := 0;
     ru_is_terminal := false; ru_terminal_state := None; ru_first_commit_at := None;
     ru_last_commit_at := None |}.

Definition one_of (names : list string) (event_types : list string) : bool :=
  existsb (λ name, bool_decide (name ∈ event_types)) names.

Definition _infer_outcome_kind (event_types : list string) : option string :=
  if one_of ["turn.recovery_pending"; "turn.effect_unknown"] event_types then Some "recovery_pending"
  else if one_of ["turn.dispatch_acknowledged"; "turn.effect_recorded"; "turn.dispatched"] event_types
  then Some "dispatched"
  else if one_of ["turn.dispatch_blocked"] event_types then Some "blocked"
  else if one_of ["turn.completed_noop"] event_types then Some "noop"
  else None.

Definition _infer_dedupe_outcome (event_types : list string) : option string :=
  if one_of ["turn.dispatched"] event_types then
    if one_of ["turn.dedupe_degraded"] event_types then Some "degraded" else Some "accepted"
  else if one_of ["turn.dispatch_blocked"] event_types then Some "duplicate"
  else None.

(** The first event of one of the types whose payload has a string there. *)
Definition first_payload_string (types : list string) (key : string) (events : list RuntimeEvent)
    : option string :=
  first_some (λ event,
    if decide (ev_event_type event ∈ types) then
      match py_get key (default [] (ev_payload_json event)) with PStr s => Some s | _ => None end
    else None) events.

Definition _infer_recovery_mode (event_types : list string) (events : list RuntimeEvent)
    : option string :=
  match first_payload_string ["recovery.plan_selected"] "planned_mode" events with
  | Some planned_mode => Some planned_mode
  | None =>
      if one_of ["run.waiting_external"; "run.waiting_human_input"] event_types
      then Some "human_escalation"
      else if one_of ["run.recovery_aborted"] event_types then Some "abort"
      else if one_of ["run.recovery_succeeded"] event_types then Some "static_compensation"
      else None
  end.

Definition _infer_host_kind (events : list RuntimeEvent) : option string :=
  first_payload_string ["turn.dispatched"; "turn.dispatch_acknowledged"; "turn.effect_unknown"]
    "host_kind" events.

Definition _build_turn_trace (commit : ActionCommit) (action : Action) (event_types : list string)
    : TurnTrace :=
  {| tt_action_id := act_action_id action; tt_action_type := act_action_type action;
     tt_effect_class := act_effect_class action; tt_host_kind := _infer_host_kind (cm_events commit);
     tt_outcome_kind := _infer_outcome_kind event_types;
     tt_recovery_mode := _infer_recovery_mode event_types (cm_events commit);
     tt_turn_event_types := event_types; tt_committed_at := cm_created_at commit;
     tt_dedupe_outcome := _infer_dedupe_outcome event_types |}.

(** The loop over lifecycle types, and the one that detects the end; what
    [et.split(".")[1]] is for the terminal types. *)
Definition add_lifecycle (seen : list string) (et : string) : list string :=
  if py_startswith et "run." && bool_decide (et ∉ seen) then seen ++ [et] else seen.

Definition detect_terminal (st : bool * option string) (et : string) : bool * option string :=
  if bool_decide (et ∈ _TERMINAL_EVENT_TYPES) && negb (fst st)
  then (true, Some (py_removeprefix et "run.")) else st.

Definition absorb (commit : ActionCommit) (tr : RunTrace) : RunTrace :=
  let event_types := map ev_event_type (cm_events commit) in
  let '(is_terminal, terminal_state) :=
    fold_left detect_terminal event_types (ru_is_terminal tr, ru_terminal_state tr) in
  let turn := (λ action, _build_turn_trace commit action event_types) <$> cm_action commit in
  {| ru_run_id := ru_run_id tr;
     ru_turns := ru_turns tr ++ match turn with Some t => [t] | None => [] end;
     ru_lifecycle_event_types := fold_left add_lifecycle event_types (ru_lifecycle_event_types tr);
     ru_failure_count := ru_failure_count tr +
       (if decide ((turn ≫= tt_outcome_kind) = Some "recovery_pending") then 1 else 0);
     ru_is_terminal := is_terminal; ru_terminal_state := terminal_state;
     ru_first_commit_at := match ru_first_commit_at tr with
                           | Some t => Some t | None => Some (cm_created_at commit) end;
     ru_last_commit_at := Some (cm_created_at commit) |}.

(** ** The reference sink *)
Module InMemoryRunTraceStore.
Definition t := odict RunTrace.

Definition __init__ : t := [].

Definition get (run_id : string) (s : t) : option RunTrace := od_get run_id s.

Definition export_commit (commit : ActionCommit) : M t unit :=
  modify (λ s,
    od_set (cm_run_id commit)
      (absorb commit (default (new_trace (cm_run_id commit)) (od_get (cm_run_id commit) s))) s).

Definition run_id_le (a b : RunTrace) : Prop := String.le (ru_run_id a) (ru_run_id b).

#[global] Instance run_id_le_dec a b : Decision (run_id_le a b).
Proof. unfold run_id_le. apply _. Defined.

Definition all (s : t) : list RunTrace := merge_sort run_id_le (map snd s).
Definition terminal_runs (s : t) : list RunTrace := filter (λ tr, ru_is_terminal tr = true) (map snd s).
Definition failed_runs (s : t) : list RunTrace := filter (λ tr, (0 < ru_failure_count tr)%Z) (map snd s).
End InMemoryRunTraceStore.

(** ** The exporting log *)
Module EventExportingEventLog.
(** The sink is a collaborator with a state [P].  A task that has not run is
    the commit it will export. *)
Record t (L P : Type) := Exporting {
  _inner : L;
  _export_port : P;
  _background_tasks : list ActionCommit
}.
Arguments Exporting {L P}.
Arguments _inner {L P}.
Arguments _export_port {L P}.
Arguments _background_tasks {L P}.

Section exporting.
Context {L P : Type} `{EventLogPort L} (export_commit : ActionCommit → M P unit).
(** [migrate_batch] of the migrator with the target version, where both are set. *)
Context (migrate_batch : option (list RuntimeEvent → outcome (list RuntimeEvent))).
Abbreviation X := (t L P).

Definition __init__ (inner : L) (port : P) : X := Exporting inner port [].

Definition on_inner {A} (m : M L A) : M X A :=
  zoom _inner (λ l s, Exporting l (_export_port s) (_background_tasks s)) m.
Definition on_port {A} (m : M P A) : M X A :=
  zoom _export_port (λ p s, Exporting (_inner s) p (_background_tasks s)) m.
Definition set_tasks (ts : list ActionCommit) (s : X) : X := Exporting (_inner s) (_export_port s) ts.

Definition _maybe_migrate_commit (commit : ActionCommit) : outcome ActionCommit :=
  match migrate_batch with
  | None => Ok commit
  | Some migrate =>
      migrated_events ← migrate (cm_events commit);
      Ok {| cm_run_id := cm_run_id commit; cm_commit_id := cm_commit_id commit;
            cm_events := migrated_events; cm_created_at := cm_created_at commit;
            cm_action := cm_action commit; cm_caused_by := cm_caused_by commit |}
  end.

Definition append_action_commit (commit : ActionCommit) : M X string :=
  commit_ref ← on_inner (el_append commit);
  export_commit ← lift (_maybe_migrate_commit commit);
  modify (λ s, set_tasks (_background_tasks s ++ [export_commit]) s);;
  mret commit_ref.

Definition load (run_id : string) (after_offset : Z) : M X (list RuntimeEvent) :=
  on_inner (el_load run_id after_offset).

Definition _safe_export (commit : ActionCommit) : M X unit :=
  try_except (wait_for true (on_port (export_commit commit))) is_Exception (λ _, mret tt).

(** The event loop runs the oldest task that waits, to its end. *)
Definition run_oldest : M X unit :=
  s ← gets id;
  match _background_tasks s with
  | [] => mret tt
  | commit :: rest => modify (set_tasks rest);; reify (_safe_export commit);; mret tt
  end.

(** Cancelled before they began, the tasks export nothing. *)
Definition close : M X unit := modify (set_tasks []).
End exporting.
End EventExportingEventLog.

(** ** The exporting log is a log

    Without a migrator its operations are those of the inner log, for the
    event-log laws and for what is retained, so that whatever holds of a run
    over a lawful log holds where commits are exported too. *)
Section lawful.
Context {L P : Type}.
Abbreviation X := (EventExportingEventLog.t L P).
Import EventExportingEventLog.

#[export] Instance exporting_port `{EventLogPort L} : EventLogPort X :=
  {| el_append := append_action_commit None; el_load := load |}.

Lemma append_plain `{EventLogPort L} c (s : X) :
  append_action_commit None c s =
    match el_append c (_inner s) with
    | (Ok ref, l) => (Ok ref, Exporting l (_export_port s) (_background_tasks s ++ [c]))
    | (Raise e, l) => (Raise e, Exporting l (_export_port s) (_background_tasks s))
    end.
Proof.
  unfold append_action_commit, on_inner, zoom, mbind, M_bind. by destruct (el_append c (_inner s)) as [[ref|e] l].
Qed.

#[export] Instance exporting_laws `{EventLogLaws L} : EventLogLaws X.
Proof.
  refine {| el_ok s := el_ok (_inner s); el_history s := el_history (_inner s);
            el_normal := el_normal (L := L) |}.
  - intros s run. apply law_numbered.
  - intros run k s Hs. pose proof (law_load run k (_inner s) Hs) as Hl. simpl.
    unfold load, on_inner, zoom. by destruct (el_load run k (_inner s)).
  - intros c s Hs. pose proof (law_append c (_inner s) Hs) as Ha.
    change (el_append c s) with (append_action_commit None c s). rewrite append_plain.
    by destruct (el_append c (_inner s)) as [[ref|e] l].
Defined.

#[export] Instance exporting_retains `{EventLogLaws L} (runs : gset string) `{!RetainingLog L runs} :
  RetainingLog X runs.
Proof.
  refine {| rt_ok s := rt_ok (runs := runs) (_inner s) |}.
  - intros s Hs. exact (rt_lawful (runs := runs) (_inner s) Hs).
  - intros run k s Hs. pose proof (rt_load (runs := runs) run k (_inner s) Hs) as Hl. simpl.
    unfold load, on_inner, zoom. by destruct (el_load run k (_inner s)).
  - intros c s Hs Hc. pose proof (rt_append (runs := runs) c (_inner s) Hs Hc) as Ha.
    change (el_append c s) with (append_action_commit None c s). rewrite append_plain.
    by destruct (el_append c (_inner s)) as [[ref|e] l].
  - intros e. exact (rt_authority (L := L) (runs := runs) e).
  - intros e. exact (rt_type (L := L) (runs := runs) e).
Defined.
End lawful.

(** ** What a trace says

    The first occurrences of the elements of a list, in order. *)
Definition keep_first (l : list string) : list string := reverse (remove_dups (reverse l)).

Definition is_terminal_type (et : string) : bool := bool_decide (et ∈ _TERMINAL_EVENT_TYPES).
Definition is_run_type (et : string) : bool := py_startswith et "run.".

(** The summary of a run whose events had these types. *)
Record summarises (types : list string) (tr : RunTrace) : Prop := {
  sm_lifecycle : ru_lifecycle_event_types tr = keep_first (filter is_run_type types);
  sm_terminal : ru_is_terminal tr = existsb is_terminal_type types;
  sm_state : ru_terminal_state tr =
    (λ et, py_removeprefix et "run.") <$> head (filter is_terminal_type types)
}.

Definition commit_types (c : ActionCommit) : list string := map ev_event_type (cm_events c).

Lemma keep_first_snoc l x :
  keep_first (l ++ [x]) = if decide (x ∈ keep_first l) then keep_first l else keep_first l ++ [x].
Proof.
  unfold keep_first. rewrite reverse_snoc. simpl.
  assert (x ∈ reverse (remove_dups (reverse l)) ↔ x ∈ reverse l) as Hx.
  { by rewrite elem_of_reverse, elem_of_remove_dups. }
  destruct (decide_rel _ x (reverse l)) as [Hd|Hd].
  - rewrite decide_True by by apply Hx. done.
  - rewrite decide_False by by rewrite Hx. by rewrite reverse_cons.
Qed.

Lemma add_lifecycle_fold types seen :
  fold_left add_lifecycle types (keep_first (filter is_run_type seen)) =
  keep_first (filter is_run_type (seen ++ types)).
Proof.
  revert seen. induction types as [|et types IH]; intros seen; simpl; [by rewrite app_nil_r|].
  replace (seen ++ et :: types) with ((seen ++ [et]) ++ types) by by rewrite <- app_assoc.
  rewrite <- IH. f_equal. rewrite filter_app, filter_cons, filter_nil. unfold add_lifecycle.
  change (py_startswith et "run.") with (is_run_type et).
  destruct (is_run_type et) eqn:Het.
  - rewrite decide_True by done. simpl. rewrite keep_first_snoc.
    by case_bool_decide; case_decide.
  - rewrite decide_False by (by intros []). simpl. by rewrite app_nil_r.
Qed.

Definition terminal_view (types : list string) : bool * option string :=
  (existsb is_terminal_type types,
   (λ et, py_removeprefix et "run.") <$> head (filter is_terminal_type types)).

Lemma detect_terminal_fold types seen :
  fold_left detect_terminal types (terminal_view seen) = terminal_view (seen ++ types).
Proof.
  revert seen. induction types as [|et types IH]; intros seen; simpl; [by rewrite app_nil_r|].
  replace (seen ++ et :: types) with ((seen ++ [et]) ++ types) by by rewrite <- app_assoc.
  rewrite <- IH. f_equal. unfold terminal_view, detect_terminal.
  rewrite existsb_app, filter_app, filter_cons, filter_nil. simpl. rewrite orb_false_r.
  change (bool_decide (et ∈ _TERMINAL_EVENT_TYPES)) with (is_terminal_type et).
  assert (existsb is_terminal_type seen = match filter is_terminal_type seen with [] => false | _ => true end) as Hs.
  { clear. induction seen as [|x seen IH]; [done|]. simpl. rewrite filter_cons.
    destruct (is_terminal_type x); [by rewrite decide_True|by rewrite decide_False by (by intros [])]. }
  rewrite Hs. destruct (is_terminal_type et) eqn:Het.
  - rewrite decide_True by done. by destruct (filter is_terminal_type seen).
  - rewrite decide_False by (by intros []). simpl. rewrite app_nil_r, orb_false_r. done.
Qed.

Lemma absorb_summary types c tr :
  summarises types tr → summarises (types ++ commit_types c) (absorb c tr).
Proof.
  intros [Hl Ht Hs]. unfold absorb. fold (commit_types c).
  assert ((ru_is_terminal tr, ru_terminal_state tr) = terminal_view types) as Hv
    by (unfold terminal_view; congruence).
  rewrite Hv, detect_terminal_fold. unfold terminal_view at 1.
  split; simpl; [|done|done]. by rewrite Hl, add_lifecycle_fold.
Qed.

Lemma new_summary run : summarises [] (new_trace run).
Proof. by split. Qed.

(** A commit without an action adds no turn and no failure. *)
Lemma absorb_no_action c tr :
  cm_action c = None →
  ru_turns (absorb c tr) = ru_turns tr ∧ ru_failure_count (absorb c tr) = ru_failure_count tr.
Proof.
  intros Ha. unfold absorb. rewrite Ha. destruct (fold_left detect_terminal _ _). simpl.
  by rewrite app_nil_r, Z.add_0_r.
Qed.

(** A failing migration surfaces from the append, whose commit the inner log
    has already taken. *)
Lemma append_migration_fails {L P} `{EventLogPort L} migrate c (s : EventExportingEventLog.t L P) ref l e :
  el_append c (EventExportingEventLog._inner s) = (Ok ref, l) →
  migrate (cm_events c) = Raise e →
  EventExportingEventLog.append_action_commit (Some migrate) c s =
    (Raise e, EventExportingEventLog.Exporting l (EventExportingEventLog._export_port s)
                (EventExportingEventLog._background_tasks s)).
Proof.
  intros Ha Hm. unfold EventExportingEventLog.append_action_commit, EventExportingEventLog.on_inner,
    zoom, mbind, M_bind. rewrite Ha. simpl. by rewrite Hm.
Qed.

(** ** The sink over time *)
Section over_time.
Import EventExportingEventLog.
Context {L : Type} `{EventLogLaws L} (runs : gset string) `{!RetainingLog L runs}.
Abbreviation X := (EventExportingEventLog.t L InMemoryRunTraceStore.t).
Implicit Types s : X.

Inductive export_step : X → X → Prop :=
  | xs_append c o s s' :
      cm_run_id c ∈ runs → append_action_commit None c s = (o, s') → export_step s s'
  | xs_load run k o s s' : load run k s = (o, s') → export_step s s'
  | xs_task o s s' : run_oldest InMemoryRunTraceStore.export_commit s = (o, s') → export_step s s'.

Definition of_run (run : string) (cs : list ActionCommit) : list ActionCommit :=
  filter (λ c, cm_run_id c = run) cs.
Definition types_of (cs : list ActionCommit) : list string := concat (map commit_types cs).
Definition trace_of (run : string) (cs : list ActionCommit) : RunTrace :=
  fold_left (λ tr c, absorb c tr) cs (new_trace run).

(** The sink has absorbed the commits [dl], and the log has them and those that
    wait. *)
Record exported (dl : list ActionCommit) s : Prop := {
  ex_ok : rt_ok (runs := runs) (_inner s);
  ex_types run : map ev_event_type (el_history (_inner s) run) =
    types_of (of_run run (dl ++ _background_tasks s));
  ex_traces run : default (new_trace run) (InMemoryRunTraceStore.get run (_export_port s)) =
    trace_of run (of_run run dl)
}.

Lemma types_of_app cs1 cs2 : types_of (cs1 ++ cs2) = types_of cs1 ++ types_of cs2.
Proof. unfold types_of. by rewrite map_app, concat_app. Qed.

Lemma types_renumber n events : map ev_event_type (renumber n (map (el_normal (L := L)) events)) =
  map ev_event_type events.
Proof.
  revert n. induction events as [|e events IH]; intros n; simpl; [done|].
  by rewrite IH, (rt_type (L := L) (runs := runs)).
Qed.

Lemma exported_append dl c s :
  exported dl s → cm_run_id c ∈ runs → exported dl (append_action_commit None c s).2.
Proof.
  intros [Hok Hty Htr] Hc. rewrite append_plain.
  destruct (rt_append (runs := runs) c (_inner s) Hok Hc) as [Hok' Hh].
  pose proof (law_append c (_inner s) (rt_lawful (runs := runs) _ Hok)) as Hl.
  destruct (el_append c (_inner s)) as [[ref|e] l]; simpl in *.
  - split; simpl; [done| |done]. intros run. rewrite (Hh eq_refl), map_app, Hty.
    unfold of_run. rewrite app_assoc, (filter_app _ (dl ++ _)), types_of_app, filter_cons, filter_nil.
    f_equal. destruct (decide (run = cm_run_id c)) as [Hr|Hr].
    + rewrite (decide_True _ _ (eq_sym Hr)), types_renumber. unfold types_of. simpl.
      by rewrite app_nil_r.
    + by rewrite decide_False by congruence.
  - destruct Hl as [_ Hl]. split; simpl; [done| |done]. intros run. rewrite Hl. apply Hty.
Qed.

Lemma exported_task dl s :
  exported dl s → ∃ dl', exported dl' (run_oldest InMemoryRunTraceStore.export_commit s).2.
Proof.
  intros Hs. unfold run_oldest, gets, mbind, M_bind. change (@id X s) with s.
  destruct (_background_tasks s) as [|c rest] eqn:Hts; [by exists dl|].
  destruct Hs as [Hok Hty Htr]. rewrite Hts in Hty.
  exists (dl ++ [c]). split; simpl; [done| |].
  - intros run. rewrite Hty. by rewrite <- app_assoc.
  - intros run. unfold InMemoryRunTraceStore.get in *. rewrite od_get_set.
    unfold of_run. rewrite filter_app, filter_cons, filter_nil. unfold trace_of in *.
    case_decide as Hr; subst.
    + rewrite decide_True by done. simpl. rewrite fold_left_app. simpl. f_equal. apply Htr.
    + rewrite decide_False by done. rewrite app_nil_r. apply Htr.
Qed.

Lemma exported_step dl s s' : exported dl s → export_step s s' → ∃ dl', exported dl' s'.
Proof.
  intros Hs Hstep. destruct Hstep as [c o s s' Hc He|run k o s s' He|o s s' He].
  - exists dl. pose proof (exported_append dl c s Hs Hc) as Hx. by rewrite He in Hx.
  - exists dl. destruct Hs as [Hok Hty Htr]. unfold load, on_inner, zoom in He.
    pose proof (rt_load (runs := runs) run k _ Hok) as Hr.
    pose proof (law_load run k _ (rt_lawful (runs := runs) _ Hok)) as Hl.
    destruct (el_load run k (_inner s)) as [o' l]. injection He as _ <-.
    destruct Hl as (_ & Hl & _). split; simpl; [done| |done]. intros r. rewrite Hl. apply Hty.
  - destruct (exported_task dl s Hs) as [dl' Hx]. exists dl'. by rewrite He in Hx.
Qed.

Lemma exported_reach inner s :
  rt_ok (runs := runs) inner → (∀ run, el_history inner run = []) →
  rtc export_step (__init__ inner InMemoryRunTraceStore.__init__) s → ∃ dl, exported dl s.
Proof.
  intros Hok Hnew Hr.
  assert (∃ dl, exported dl (__init__ inner InMemoryRunTraceStore.__init__)) as Hi.
  { exists []. split; simpl; [done| |done]. intros run. by rewrite Hnew. }
  revert Hi. induction Hr as [s|s s1 s2 Hs _ IH]; [done|]. intros [dl Hdl]. apply IH.
  by eapply exported_step.
Qed.

Lemma trace_summary run cs : summarises (types_of cs) (trace_of run cs).
Proof.
  induction cs as [|c cs IH] using rev_ind; [apply new_summary|].
  unfold trace_of in *. rewrite fold_left_app, types_of_app. unfold types_of at 2. simpl.
  rewrite app_nil_r. by apply absorb_summary.
Qed.

Lemma trace_run run cs : ru_run_id (trace_of run cs) = run.
Proof.
  induction cs as [|c cs IH] using rev_ind; [done|]. unfold trace_of in *. rewrite fold_left_app.
  simpl. unfold absorb. by destruct (fold_left detect_terminal _ _).
Qed.
End over_time.

(** C24: whatever is appended, loaded and exported, in any interleaving, the
    trace that the sink has of a run summarises a prefix of the run's history
    in the log, and all of it where no export waits: the lifecycle types are
    the first occurrences of its run events, the run is terminal exactly where
    the prefix has a terminal event, and the terminal state is the first one's. *)
Theorem traces_follow_log {L : Type} `{EventLogLaws L} (runs : gset string) `{!RetainingLog L runs}
    (inner : L) (s : EventExportingEventLog.t L InMemoryRunTraceStore.t) (run : string)
    (Hok : rt_ok (runs := runs) inner) (Hnew : ∀ r, el_history inner r = [])
    (Hreach : rtc (export_step runs)
                (EventExportingEventLog.__init__ inner InMemoryRunTraceStore.__init__) s) :
  let h := el_history (EventExportingEventLog._inner s) run in
  let tr := default (new_trace run) (InMemoryRunTraceStore.get run (EventExportingEventLog._export_port s)) in
  ru_run_id tr = run ∧
  ∃ k, k ≤ length h ∧ summarises (map ev_event_type (take k h)) tr ∧
    (EventExportingEventLog._background_tasks s = [] → k = length h).
Proof.
  cbv zeta. destruct (exported_reach runs inner s Hok Hnew Hreach) as [dl [_ Hty Htr]].
  rewrite Htr. split; [apply trace_run|]. specialize (Hty run).
  unfold of_run in Hty. rewrite filter_app, types_of_app in Hty.
  pose proof (f_equal length Hty) as Hlen. rewrite length_map, length_app in Hlen.
  exists (length (types_of (of_run run dl))). split; [unfold of_run; lia|]. split.
  - assert (map ev_event_type (take (length (types_of (of_run run dl)))
      (el_history (EventExportingEventLog._inner s) run)) = types_of (of_run run dl)) as ->.
    { rewrite <- firstn_map, Hty. apply take_app_length. }
    apply trace_summary.
  - intros Hts. rewrite Hts in Hlen. simpl in Hlen. unfold of_run. lia.
Qed.

(** ** A concrete sink *)
Definition example_commit (types : list string) : ActionCommit :=
  {| cm_run_id := "run-1"; cm_commit_id := "c-1"; cm_events := map example_fact types;
     cm_created_at := "2024-01-01T00:00:00Z"; cm_action := None; cm_caused_by := None |}.

Definition example_log : InMemoryKernelRuntimeEventLog.t := InMemoryKernelRuntimeEventLog.__init__.
(** Two commits, the second still to be exported. *)
Definition example_commits : list ActionCommit :=
  [example_commit ["run.started"; "run.ready"; "run.completed"]; example_commit ["run.ready"; "run.aborted"]].

Definition example_sink : EventExportingEventLog.t InMemoryKernelRuntimeEventLog.t InMemoryRunTraceStore.t :=
  let s := fold_left (λ s c, (EventExportingEventLog.append_action_commit None c s).2) example_commits
             (EventExportingEventLog.__init__ example_log InMemoryRunTraceStore.__init__) in
  (EventExportingEventLog.run_oldest InMemoryRunTraceStore.export_commit s).2.

Lemma traces_follow_log_witness :
  let h := el_history (EventExportingEventLog._inner example_sink) "run-1" in
  let tr := default (new_trace "run-1")
    (InMemoryRunTraceStore.get "run-1" (EventExportingEventLog._export_port example_sink)) in
  length h = 5 ∧ ru_terminal_state tr = Some "completed" ∧
  ∃ k, k ≤ length h ∧ summarises (map ev_event_type (take k h)) tr.
Proof.
  assert (Hreach : rtc (export_step example_runs)
    (EventExportingEventLog.__init__ example_log InMemoryRunTraceStore.__init__) example_sink).
  { assert (Hrun : "run-1" ∈ example_runs) by (apply (bool_decide_unpack _); vm_compute; exact I).
    eapply rtc_l; [|eapply rtc_l; [|apply rtc_once]].
    - eapply (xs_append example_runs (example_commit ["run.started"; "run.ready"; "run.completed"]));
        [exact Hrun|apply surjective_pairing].
    - eapply (xs_append example_runs (example_commit ["run.ready"; "run.aborted"]));
        [exact Hrun|apply surjective_pairing].
    - eapply xs_task, surjective_pairing. }
  assert (Hok : rt_ok (RetainingLog := example_retaining) example_log).
  { split; [exact InMemoryKernelRuntimeEventLog.wf_init|]. intros run Hr. by apply elem_of_nil in Hr. }
  destruct (traces_follow_log (RetainingLog0 := example_retaining) example_runs example_log example_sink
    "run-1" Hok (λ r, eq_refl) Hreach) as (_ & k & Hk & Hsum & _).
  split; [vm_compute; reflexivity|]. split; [vm_compute; reflexivity|]. by exists k.
Defined.
