(* ===== verification/CompensationRegistry.v ===== *)
(** * Compensation handlers ([kernel/recovery/compensation_registry.py])

    The registry of rollback handlers and [execute], which runs one handler
    with retries, at most once per idempotency key over the dedupe store.
    Handlers are arbitrary computations over their own environment; they do
    not reach into the dedupe store. *)
From S2P Require Export DedupeStore IdempotencyKey.

Record CompensationEntry (E : Type) := {
  ce_effect_class : string;
  ce_compensate : Action → M E unit;
  ce_description : string;
  ce_timeout_ms : Z;
  ce_max_attempts : Z;
  ce_backoff_base_ms : Z
}.
Arguments ce_effect_class {E}.
Arguments ce_compensate {E}.
Arguments ce_description {E}.
Arguments ce_timeout_ms {E}.
Arguments ce_max_attempts {E}.
Arguments ce_backoff_base_ms {E}.

(** The dedupe store, the handlers' environment, and the handler calls made. *)
Record comp_world (S E : Type) := CompWorld {
  cw_store : S; cw_env : E; cw_calls : list Action }.
Arguments CompWorld {S E}.
Arguments cw_store {S E}.
Arguments cw_env {S E}.
Arguments cw_calls {S E}.

(** [random.randint(0, 100)] and [asyncio.sleep]. *)
Record comp_runtime (E : Type) := {
  rt_randint : E → Z;
  rt_sleep : Z → M E unit
}.
Arguments rt_randint {E}.
Arguments rt_sleep {E}.

(** In milliseconds; the source divides by 1000 for [asyncio.sleep]. *)
Definition _retry_delay_ms (base_ms attempt jitter : Z) : Z :=
  (Z.max base_ms 1 * 2 ^ Z.max (attempt - 1) 0 + jitter)%Z.

Module CompensationRegistry.
Section registry.
Context {S E : Type} `{DedupeStorePort S}.

Definition t : Type := odict (CompensationEntry E).

Definition register (effect_class : string) (compensate : Action → M E unit)
    (description : string) (timeout_ms max_attempts backoff_base_ms : Z) (r : t) : t :=
  od_set effect_class
    {| ce_effect_class := effect_class; ce_compensate := compensate;
       ce_description := description; ce_timeout_ms := timeout_ms;
       ce_max_attempts := max_attempts; ce_backoff_base_ms := backoff_base_ms |} r.

Definition lookup (effect_class : string) (r : t) : option (CompensationEntry E) :=
  od_get effect_class r.

Definition has_handler (effect_class : string) (r : t) : bool :=
  bool_decide (is_Some (od_get effect_class r)).

Definition registered_effect_classes (r : t) : list string :=
  merge_sort String.le (map fst r).

Definition comp_key (action : Action) : string :=
  IdempotencyKeyPolicy.generate_compensation_key (effect_class_str (act_effect_class action))
    (act_action_id action).

Definition comp_envelope (action : Action) : IdempotencyEnvelope := {|
  env_dispatch_idempotency_key := comp_key action;
  env_operation_fingerprint := comp_key action;
  env_attempt_seq := 1;
  env_effect_scope := effect_class_str (act_effect_class action);
  env_capability_snapshot_hash := "compensation";
  env_host_kind := local_process;
  env_peer_operation_id := None;
  env_policy_snapshot_ref := None;
  env_rule_bundle_hash := None |}.

Definition on_store {A} (m : M S A) : M (comp_world S E) A :=
  zoom cw_store (λ s w, CompWorld s (cw_env w) (cw_calls w)) m.
Definition on_env {A} (m : M E A) : M (comp_world S E) A :=
  zoom cw_env (λ e w, CompWorld (cw_store w) e (cw_calls w)) m.

(** [entry.compensate(action)]: the call is recorded when it is made. *)
Definition call_handler (entry : CompensationEntry E) (action : Action)
    : M (comp_world S E) unit :=
  modify (λ w, CompWorld (cw_store w) (cw_env w) (cw_calls w ++ [action]));;
  on_env (ce_compensate entry action).

(** [except TimeoutError] and [except TransientCompensationError]. *)
Definition is_retryable (e : exn) : bool :=
  is_TimeoutError e || bool_decide (exn_cls e = TransientCompensationError).

(** The [except] clauses of attempt [attempt]: give up, or sleep and go on. *)
Definition after_failure (rt : comp_runtime E) (entry : CompensationEntry E) (attempt : Z)
    (retry : M (comp_world S E) bool) (e : exn) : M (comp_world S E) bool :=
  if is_retryable e then
    if (ce_max_attempts entry <=? attempt)%Z then mret false
    else
      on_env (λ s, rt_sleep rt
        (_retry_delay_ms (ce_backoff_base_ms entry) attempt (rt_randint rt s)) s);;
      retry
  else if is_Exception e then mret false
  else raise e.

(** The [while] loop after [attempt] attempts, [remaining] being what is left
    of [max(entry.max_attempts, 1)]; true where it returns, false where it
    ends by [break] or by its condition. *)
Fixpoint attempts (rt : comp_runtime E) (use_store : bool) (entry : CompensationEntry E)
    (action : Action) (remaining : nat) (attempt : Z) : M (comp_world S E) bool :=
  match remaining with
  | O => mret false
  | Datatypes.S remaining =>
      let attempt := (attempt + 1)%Z in
      o ← reify
        (wait_for true (call_handler entry action);;
         if use_store then on_store (ds_mark_acknowledged (comp_key action) None) else mret tt);
      match o with
      | Ok _ => mret true
      | Raise e =>
          after_failure rt entry attempt (attempts rt use_store entry action remaining attempt) e
      end
  end.

Definition exhausted (entry : CompensationEntry E) (action : Action) : exn :=
  Exn CompensationExhaustedError
    ("compensation attempts exhausted effect_class=" +:+
       effect_class_str (act_effect_class action) +:+ " action_id=" +:+ act_action_id action
       +:+ " attempts=" +:+ pretty (ce_max_attempts entry)).

(** Whether the handler is to be called: the reservation was accepted. *)
Definition claim (use_store : bool) (action : Action) : M (comp_world S E) bool :=
  if use_store then
    reservation ← on_store (ds_reserve (comp_envelope action));
    if negb (accepted reservation) then mret false
    else on_store (ds_mark_dispatched (comp_key action) None);; mret true
  else mret true.

Definition execute (rt : comp_runtime E) (r : t) (use_store : bool) (action : Action)
    (raise_on_failure : bool) : M (comp_world S E) bool :=
  match lookup (effect_class_str (act_effect_class action)) r with
  | None => mret false
  | Some entry =>
      claimed ← claim use_store action;
      if negb claimed then mret true
      else
        done ← attempts rt use_store entry action (Z.to_nat (Z.max (ce_max_attempts entry) 1)) 0;
        if done : bool then mret true
        else
          (if use_store then suppress (on_store (ds_mark_unknown_effect (comp_key action)))
           else mret tt);;
          if raise_on_failure then raise (exhausted entry action) else mret false
  end.
End registry.
Arguments t : clear implicits.
End CompensationRegistry.

(** ** What [execute] does *)
Section execution.
Import CompensationRegistry.
Context {S E : Type} `{DedupeStoreLaws S}.
Context (rt : comp_runtime E) (r : CompensationRegistry.t E).
Abbreviation W := (comp_world S E).

(** [asyncio.sleep] is left early by a cancellation only. *)
Hypothesis sleep_only_cancelled : ∀ d s e s', rt_sleep rt d s = (Raise e, s') → is_Exception e = false.

Definition view (w : W) : ledger := ds_view (cw_store w).

Definition comp_record (action : Action) (st : DedupeState) : DedupeRecord :=
  new_record (comp_envelope action) st None.

Definition bound (entry : CompensationEntry E) : nat := Z.to_nat (Z.max (ce_max_attempts entry) 1).

(** The runs of [execute] for a registered handler: the outcome, the number of
    handler calls and the ledger left behind. *)
Inductive executed (entry : CompensationEntry E) (action : Action) (raise_on_failure : bool)
    (v : ledger) : outcome bool → nat → ledger → Prop :=
  | ex_already rec :
      v !! comp_key action = Some rec → executed entry action raise_on_failure v (Ok true) 0 v
  | ex_no_reservation e :
      ¬ DedupeStoreAvailable S → is_Exception e = true →
      executed entry action raise_on_failure v (Raise e) 0 v
  | ex_not_dispatched e :
      ¬ DedupeStoreAvailable S → is_Exception e = true → v !! comp_key action = None →
      executed entry action raise_on_failure v (Raise e) 0
        (<[comp_key action := comp_record action reserved]> v)
  | ex_done n :
      v !! comp_key action = None → 1 ≤ n ≤ bound entry →
      executed entry action raise_on_failure v (Ok true) n
        (<[comp_key action := comp_record action acknowledged]> v)
  | ex_failed n st :
      v !! comp_key action = None → 1 ≤ n ≤ bound entry →
      st = unknown_effect ∨ (st = dispatched ∧ ¬ DedupeStoreAvailable S) →
      executed entry action raise_on_failure v
        (if raise_on_failure then Raise (exhausted entry action) else Ok false) n
        (<[comp_key action := comp_record action st]> v)
  | ex_cancelled n e :
      v !! comp_key action = None → 1 ≤ n ≤ bound entry → is_Exception e = false →
      executed entry action raise_on_failure v (Raise e) n
        (<[comp_key action := comp_record action dispatched]> v).

Lemma wp_comp_store {A} (m : M S A) spec (Q : A → W → Prop) (Ex : exn → W → Prop) w :
  refines ds_ok ds_view m spec → (DedupeStoreAvailable S → total_on ds_ok ds_view m spec) →
  ds_ok (cw_store w) →
  (∀ a s', ds_ok s' → spec (view w) = Some (a, ds_view s') →
     Q a (CompWorld s' (cw_env w) (cw_calls w))) →
  (∀ e s', ds_ok s' → ds_view s' = view w → is_Exception e = true →
     (DedupeStoreAvailable S → spec (view w) = None) →
     Ex e (CompWorld s' (cw_env w) (cw_calls w))) →
  wp (on_store m) Q Ex w.
Proof. intros Hm Ht Hok HQ HE. by apply wp_zoom, (wp_refines m spec). Qed.

(** A state in which the handler was called [n] times since [w] and the ledger
    is [v]. *)
Definition after_calls (w : W) (action : Action) (n : nat) (v : ledger) (w' : W) : Prop :=
  ds_ok (cw_store w') ∧ view w' = v ∧ cw_calls w' = cw_calls w ++ replicate n action.

(** Marking the record of the action, from a state that allows it. *)
Lemma mark_record action st target v :
  st ∈ legal_sources target → v !! comp_key action = Some (comp_record action st) →
  spec_mark_unit target (comp_key action) None None v =
    Some (tt, <[comp_key action := comp_record action target]> v).
Proof.
  intros Hst Hv. unfold spec_mark_unit, spec_mark. rewrite Hv. simpl. by rewrite decide_True.
Qed.

Lemma wp_call entry action (Q : unit → W → Prop) (Ex : exn → W → Prop) w :
  (∀ env, Q tt (CompWorld (cw_store w) env (cw_calls w ++ [action]))) →
  (∀ e env, Ex e (CompWorld (cw_store w) env (cw_calls w ++ [action]))) →
  wp (wait_for true (call_handler entry action)) Q Ex w.
Proof.
  intros HQ HE. apply wp_try_except, wp_bind, wp_modify, wp_zoom. unfold wp. simpl.
  destruct (ce_compensate entry action (cw_env w)) as [[[]|e] env]; [done|].
  case_match; apply HE.
Qed.

(** The loop, from a dispatched record. *)
Definition loop_ran (w : W) (action : Action) (remaining : nat) (v : ledger) (w' : W) : Prop :=
  ∃ n, n ≤ remaining ∧ (remaining ≠ 0 → 1 ≤ n) ∧ after_calls w action n v w'.

Lemma after_calls_cons w action n v env s w' :
  after_calls (CompWorld s env (cw_calls w ++ [action])) action n v w' →
  after_calls w action (Datatypes.S n) v w'.
Proof. intros (? & ? & Hc). split_and!; [done..|]. rewrite Hc. simpl. by rewrite <- app_assoc. Qed.

Lemma loop_ran_one w action remaining v s env :
  ds_ok s → ds_view s = v →
  loop_ran w action (Datatypes.S remaining) v (CompWorld s env (cw_calls w ++ [action])).
Proof. intros ??. exists 1. split_and!; [lia..|]. by split_and!. Qed.

Lemma loop_ran_cons w action remaining v s env w' :
  loop_ran (CompWorld s env (cw_calls w ++ [action])) action remaining v w' →
  loop_ran w action (Datatypes.S remaining) v w'.
Proof.
  intros (n & ? & ? & ?). exists (Datatypes.S n). split_and!; [lia..|]. by eapply after_calls_cons.
Qed.

Lemma attempts_spec entry action remaining attempt (w : W) v :
  ds_ok (cw_store w) → view w = v →
  v !! comp_key action = Some (comp_record action dispatched) →
  wp (attempts rt true entry action remaining attempt)
    (λ (b : bool) w',
       loop_ran w action remaining
         (if b then <[comp_key action := comp_record action acknowledged]> v else v) w' ∧
       (b = true → remaining ≠ 0))
    (λ e w', is_Exception e = false ∧ remaining ≠ 0 ∧ loop_ran w action remaining v w') w.
Proof.
  revert attempt w. induction remaining as [|remaining IH]; intros attempt w Hok Hw Hv.
  { simpl. apply wp_ret. split; [|done]. exists 0. split_and!; [lia..|].
    split_and!; [done..|]. by rewrite app_nil_r. }
  cbn [attempts].
  assert (∀ e s env, ds_ok s → ds_view s = v →
    wp (after_failure rt entry (attempt + 1) (attempts rt true entry action remaining (attempt + 1)) e)
      (λ (b : bool) w',
         loop_ran w action (Datatypes.S remaining)
           (if b then <[comp_key action := comp_record action acknowledged]> v else v) w' ∧
         (b = true → Datatypes.S remaining ≠ 0))
      (λ e' w', is_Exception e' = false ∧ Datatypes.S remaining ≠ 0 ∧
         loop_ran w action (Datatypes.S remaining) v w')
      (CompWorld s env (cw_calls w ++ [action]))) as Hfail.
  { intros e s env Hs Hvs. unfold after_failure.
    pose proof (loop_ran_one w action remaining v s env Hs Hvs) as H1.
    destruct (is_retryable e).
    - case_match; [by apply wp_ret|].
      apply wp_bind, wp_zoom. unfold wp at 1. simpl.
      destruct (rt_sleep rt _ env) as [[[]|e'] env'] eqn:Hsl;
        [|split_and!; [by eapply sleep_only_cancelled|done|by apply loop_ran_one]].
      eapply wp_mono; [by apply (IH _ (CompWorld s env' (cw_calls w ++ [action])))|..].
      + intros b w' [Hr _]. split; [by eapply loop_ran_cons|done].
      + intros e' w' (? & _ & Hr). split_and!; [done..|by eapply loop_ran_cons].
    - destruct (is_Exception e) eqn:He; [by apply wp_ret|]. by apply wp_raise. }
  apply wp_bind, wp_reify, wp_bind, wp_call; [|intros e env; by apply Hfail].
  intros env. apply wp_comp_store with (spec := spec_mark_unit acknowledged (comp_key action) None None);
    [apply law_mark_acknowledged|intros; apply avail_mark_acknowledged|done| |].
  - intros a s' Hs'. unfold view. simpl. fold (view w). rewrite Hw, (mark_record _ dispatched) by set_solver.
    intros [= _ Hs]. apply wp_ret. split; [|done]. by apply loop_ran_one.
  - intros e s' Hs' Hvs' _ _. apply Hfail; [done|]. by rewrite Hvs'.
Qed.

(** [claim]: the key was free and is dispatched, or it was taken, or the store
    failed. *)
Lemma claim_spec action w v (Q : bool → W → Prop) (Ex : exn → W → Prop) :
  ds_ok (cw_store w) → view w = v →
  (∀ s, ds_ok s → ∀ rec, v !! comp_key action = Some rec → ds_view s = v →
     Q false (CompWorld s (cw_env w) (cw_calls w))) →
  (∀ s, ds_ok s → v !! comp_key action = None →
     ds_view s = <[comp_key action := comp_record action dispatched]> v →
     Q true (CompWorld s (cw_env w) (cw_calls w))) →
  (∀ e s, ds_ok s → ¬ DedupeStoreAvailable S → is_Exception e = true →
     ds_view s = v ∨ (v !! comp_key action = None ∧
       ds_view s = <[comp_key action := comp_record action reserved]> v) →
     Ex e (CompWorld s (cw_env w) (cw_calls w))) →
  wp (claim true action) Q Ex w.
Proof.
  intros Hok Hw HF HT HE. unfold claim. apply wp_bind.
  eapply wp_comp_store; [apply law_reserve|intros; apply avail_reserve|done| |].
  - intros a s Hs. unfold compose, spec_reserve, view. simpl. fold (view w). rewrite Hw.
    destruct (v !! comp_key action) as [rec|] eqn:Hv; intros [= <- Hvs]; simpl.
    { apply wp_ret. by eapply HF. }
    set (w1 := CompWorld s (cw_env w) (cw_calls w)). apply wp_bind.
    assert (view w1 = <[comp_key action := comp_record action reserved]> v) as Hw1 by done.
    eapply (wp_comp_store _ (spec_mark_unit dispatched (comp_key action) None None) _ _ w1);
      [apply law_mark_dispatched|intros; apply avail_mark_dispatched|done| |];
      rewrite Hw1, (mark_record _ reserved) by (first [apply lookup_insert_eq | left]).
    + intros a s' Hs' [= _ Hvs']. apply wp_ret, HT; [done..|].
      rewrite <- Hvs'. by rewrite insert_insert_eq.
    + intros e s' Hs' Hvs' He Hav. apply HE; [done| |done|by right].
      intros Hav'. by specialize (Hav Hav').
  - intros e s Hs Hvs He Hav. apply HE; [done| |done|left; by rewrite <- Hw].
    intros Hav'. by specialize (Hav Hav').
Qed.

Lemma execute_executed entry action raise_on_failure w :
  lookup (effect_class_str (act_effect_class action)) r = Some entry →
  ds_ok (cw_store w) →
  ∃ n v', executed entry action raise_on_failure (view w)
            (execute rt r true action raise_on_failure w).1 n v' ∧
          after_calls w action n v' (execute rt r true action raise_on_failure w).2.
Proof.
  intros Hent Hok.
  cut (wp (execute rt r true action raise_on_failure)
    (λ b w', ∃ n v', executed entry action raise_on_failure (view w) (Ok b) n v' ∧
       after_calls w action n v' w')
    (λ e w', ∃ n v', executed entry action raise_on_failure (view w) (Raise e) n v' ∧
       after_calls w action n v' w') w).
  { unfold wp. by destruct (execute _ _ _ _ _ w) as [[b|e] w']. }
  unfold execute. rewrite Hent. apply wp_bind.
  assert (∀ v s, ds_ok s → ds_view s = v →
    after_calls w action 0 v (CompWorld s (cw_env w) (cw_calls w))) as Hzero.
  { intros v s ??. split_and!; [done..|]. simpl. by rewrite app_nil_r. }
  apply (claim_spec action w (view w)); [done..| | |].
  - intros s Hs rec Hrec Hv. apply wp_ret. exists 0, (view w). split; [by eapply ex_already|]. by apply Hzero.
  - intros s Hs Hfree Hv. simpl. apply wp_bind.
    set (w1 := CompWorld s (cw_env w) (cw_calls w)).
    assert (bound entry ≠ 0) as Hb by (unfold bound; lia).
    assert (∀ v w', loop_ran w1 action (bound entry) v w' →
      ∃ n, 1 ≤ n ≤ bound entry ∧ after_calls w action n v w') as Hn.
    { intros v' w' (n & ? & Hn1 & Hac). exists n. split; [|done]. specialize (Hn1 Hb). lia. }
    eapply wp_mono; [apply (attempts_spec entry action _ 0 w1 _ Hs Hv), lookup_insert_eq|..].
    + intros [] w' [Hran _]; apply Hn in Hran as (n & Hn' & Hac).
      { apply wp_ret. exists n. eexists. split; [by apply ex_done|].
        by rewrite insert_insert_eq in Hac. }
      destruct Hac as (Hs' & Hv' & Hc'). apply wp_bind, wp_suppress.
      assert (∀ st s', st = unknown_effect ∨ (st = dispatched ∧ ¬ DedupeStoreAvailable S) →
        ds_ok s' → ds_view s' = <[comp_key action := comp_record action st]> (view w) →
        wp (if raise_on_failure then raise (exhausted entry action) else mret false)
          (λ (b : bool) w', ∃ n v', executed entry action raise_on_failure (view w) (Ok b) n v' ∧
             after_calls w action n v' w')
          (λ e w', ∃ n v', executed entry action raise_on_failure (view w) (Raise e) n v' ∧
             after_calls w action n v' w')
          (CompWorld s' (cw_env w') (cw_calls w'))) as Hfin.
      { intros st s' Hst Hs1 Hv1.
        pose proof (ex_failed entry action raise_on_failure (view w) n st Hfree Hn' Hst) as Hx.
        destruct raise_on_failure; (apply wp_raise || apply wp_ret); by do 2 eexists. }
      eapply (wp_comp_store _ (spec_mark_unit unknown_effect (comp_key action) None None));
        [apply law_mark_unknown_effect|intros; apply avail_mark_unknown_effect|done| |];
        rewrite Hv', (mark_record _ dispatched) by (first [apply lookup_insert_eq | left]);
        rewrite insert_insert_eq.
      * intros a s' Hs1 [= _ Hv1]. by apply (Hfin unknown_effect); [left|..].
      * intros e s' Hs1 Hv1 -> Hav. apply (Hfin dispatched); [|done|done].
        right. split; [done|]. intros Hav'. by specialize (Hav Hav').
    + intros e w' (He & _ & Hran). apply Hn in Hran as (n & Hn' & Hac). exists n. eexists.
      split; [by apply ex_cancelled|done].
  - intros e s Hs Hav He [Hv|[Hfree Hv]]; exists 0; eexists; (split; [|by apply Hzero]).
    + by apply ex_no_reservation.
    + by apply ex_not_dispatched.
Qed.

Lemma execute_no_handler use_store action raise_on_failure w :
  lookup (effect_class_str (act_effect_class action)) r = None →
  execute rt r use_store action raise_on_failure w = (Ok false, w).
Proof. unfold execute. by intros ->. Qed.

Lemma executed_ledger entry action raise_on_failure v o n v' :
  executed entry action raise_on_failure v o n v' →
  ledger_le v v' ∧ n ≤ bound entry ∧
  (0 < n → v !! comp_key action = None ∧ is_Some (v' !! comp_key action)).
Proof.
  assert (∀ st, v !! comp_key action = None →
    ledger_le v (<[comp_key action := comp_record action st]> v)) as Hins.
  { intros st Hv k rec Hrec. exists rec. split; [|done].
    rewrite lookup_insert_ne; [done|]. congruence. }
  intros []; split_and!; try done; try lia; eauto; intros _; by rewrite lookup_insert_eq.
Qed.

(** Compensations and other uses of the store, in any order. *)
Inductive comp_op := OpExecute (action : Action) (raise_on_failure : bool) | OpStore (op : store_op).

(** The executions with the number of handler calls each made. *)
Fixpoint run_comp (ops : list comp_op) (w : W) : list (Action * nat) * W :=
  match ops with
  | [] => ([], w)
  | OpExecute action flag :: ops =>
      let w1 := (execute rt r true action flag w).2 in
      let '(trace, w2) := run_comp ops w1 in
      ((action, length (cw_calls w1) - length (cw_calls w)) :: trace, w2)
  | OpStore op :: ops => run_comp ops (on_store (run_op op) w).2
  end.

(** The executions that called their handler. *)
Definition active (trace : list (Action * nat)) : list (Action * nat) :=
  filter (λ an, 0 < an.2) trace.

Lemma execute_step action flag w :
  ds_ok (cw_store w) →
  let w1 := (execute rt r true action flag w).2 in
  let n := length (cw_calls w1) - length (cw_calls w) in
  ds_ok (cw_store w1) ∧ ledger_le (view w) (view w1) ∧
  (0 < n → view w !! comp_key action = None ∧ is_Some (view w1 !! comp_key action) ∧
     ∃ entry, lookup (effect_class_str (act_effect_class action)) r = Some entry ∧
              n ≤ bound entry).
Proof.
  intros Hok. destruct (lookup (effect_class_str (act_effect_class action)) r) as [entry|] eqn:Hent.
  - destruct (execute_executed entry action flag w Hent Hok) as (n & v' & Hex & Hs & Hv & Hc).
    apply executed_ledger in Hex as (Hle & Hn & Hk). cbv zeta. rewrite Hc, length_app, length_replicate, Hv.
    split_and!; [done..|]. intros Hpos. destruct Hk as [? ?]; [lia|]. split_and!; [done..|].
    exists entry. split; [done|lia].
  - cbv zeta. rewrite (execute_no_handler true action flag w Hent). simpl. split_and!; [done..|lia].
Qed.

Lemma run_comp_fresh ops w trace w' :
  ds_ok (cw_store w) → run_comp ops w = (trace, w') →
  NoDup (map (comp_key ∘ fst) (active trace)) ∧
  ∀ action n, (action, n) ∈ active trace →
    view w !! comp_key action = None ∧
    ∃ entry, lookup (effect_class_str (act_effect_class action)) r = Some entry ∧ n ≤ bound entry.
Proof.
  revert w trace. induction ops as [|[action flag|op] ops IH]; intros w trace Hok; simpl.
  - intros [= <- <-]. split; [constructor|]. intros ?? []%elem_of_nil.
  - destruct (execute_step action flag w Hok) as (Hok1 & Hle & Hn).
    set (w1 := (execute rt r true action flag w).2) in *.
    destruct (run_comp ops w1) as [trace1 w2] eqn:Hrun. intros [= <- <-].
    destruct (IH w1 trace1 Hok1 Hrun) as [Hnd Hfresh].
    assert (∀ k, view w1 !! k = None → view w !! k = None) as Hback.
    { intros k Hk. destruct (view w !! k) as [rec|] eqn:Hrec; [|done].
      destruct (Hle k rec Hrec) as (? & ? & _). congruence. }
    unfold active. rewrite filter_cons. simpl. case_decide as Hpos.
    + destruct (Hn Hpos) as (Hnone & [rec Hrec] & Hent). split.
      * constructor; [|exact Hnd]. intros ([a m] & Hk & Hin)%list_elem_of_fmap.
        apply Hfresh in Hin as [Hin _]. simpl in Hk. rewrite <- Hk in Hin. congruence.
      * intros a m [[= -> ->]|Hin]%elem_of_cons; [by split|].
        apply Hfresh in Hin as [? ?]. split; [by apply Hback|done].
    + split; [exact Hnd|]. intros a m Hin. apply Hfresh in Hin as [? ?].
      split; [by apply Hback|done].
  - intros Hrun. destruct (run_op op (cw_store w)) as [o s] eqn:Hop.
    destruct (run_op_le op _ _ _ Hok Hop) as [Hs Hle].
    assert ((on_store (run_op op) w).2 = CompWorld s (cw_env w) (cw_calls w)) as Hw.
    { unfold on_store, zoom. by rewrite Hop. }
    rewrite Hw in Hrun. destruct (IH (CompWorld s (cw_env w) (cw_calls w)) trace Hs Hrun) as [Hnd Hfresh]. split; [done|].
    intros a m Hin. apply Hfresh in Hin as [Hnone ?]. split; [|done].
    destruct (view w !! comp_key a) as [rec|] eqn:Hrec; [|done].
    destruct (Hle _ rec Hrec) as (? & Hrec' & _). unfold view in Hnone. simpl in Hnone. congruence.
Qed.
End execution.

(** ** Properties *)

(** C6: compensation runs at most once.  Over any lawful dedupe store, however
    executions (of the same or of different actions) and other uses of the
    store follow one another, at most one execution per idempotency key calls
    its handler; it does so at most [max(max_attempts, 1)] times, and only
    where the store held no record for the key beforehand. *)
Theorem compensation_at_most_once {S E} `{DedupeStoreLaws S} (rt : comp_runtime E)
    (r : CompensationRegistry.t E) ops (w : comp_world S E) :
  (∀ d s e s', rt_sleep rt d s = (Raise e, s') → is_Exception e = false) →
  ds_ok (cw_store w) →
  let trace := (run_comp rt r ops w).1 in
  NoDup (map (CompensationRegistry.comp_key ∘ fst) (active trace)) ∧
  ∀ action n, (action, n) ∈ active trace →
    ds_view (cw_store w) !! CompensationRegistry.comp_key action = None ∧
    ∃ entry,
      CompensationRegistry.lookup (effect_class_str (act_effect_class action)) r = Some entry ∧
      n ≤ bound entry.
Proof.
  intros Hsleep Hok trace. eapply (run_comp_fresh rt r Hsleep ops w trace); [done|].
  apply surjective_pairing.
Qed.

(** What [execute] does, on every path.  Without a handler it returns
    False and touches nothing.  With one, it takes exactly one of the paths of
    [executed]: a key that already has a record (also the record of a
    compensation that failed) gives True without calling the handler; a free
    key is reserved and dispatched, the handler is called between one and
    [max(max_attempts, 1)] times, and the record ends acknowledged (True),
    unknown_effect (False or CompensationExhaustedError) or, when the task was
    cancelled, dispatched; nothing else of the ledger changes.  Only a store
    that fails leaves a record reserved or a failed one dispatched. *)
Theorem compensation_execute_outcome {S E} `{DedupeStoreLaws S} (rt : comp_runtime E)
    (r : CompensationRegistry.t E) action flag (w : comp_world S E) :
  (∀ d s e s', rt_sleep rt d s = (Raise e, s') → is_Exception e = false) →
  ds_ok (cw_store w) →
  let '(o, w') := CompensationRegistry.execute rt r true action flag w in
  match CompensationRegistry.lookup (effect_class_str (act_effect_class action)) r with
  | None => o = Ok false ∧ w' = w
  | Some entry =>
      ∃ n, cw_calls w' = cw_calls w ++ replicate n action ∧
        executed (S := S) entry action flag (ds_view (cw_store w)) o n (ds_view (cw_store w'))
  end.
Proof.
  intros Hsleep Hok.
  destruct (CompensationRegistry.lookup _ r) as [entry|] eqn:Hent.
  - destruct (execute_executed rt r Hsleep entry action flag w Hent Hok) as (n & v' & Hex & _ & Hv & Hc).
    destruct (CompensationRegistry.execute rt r true action flag w) as [o w']. simpl in *.
    exists n. split; [done|]. unfold view in *. by rewrite Hv.
  - rewrite execute_no_handler by done. split; done.
Qed.

(** ** Instances *)
Definition example_comp_action (action_id : string) : Action := {|
  act_action_id := action_id; act_run_id := "run-1"; act_action_type := "tool_call";
  act_effect_class := COMPENSATABLE_WRITE; act_external_idempotency_level := None;
  act_interaction_target := None; act_input_ref := None; act_input_json := None;
  act_policy_tags := []; act_timeout_ms := None; act_side_effect_class := None |}.

(** A handler that fails transiently a number of times, then succeeds. *)
Definition flaky_handler (_ : Action) : M nat unit := λ failures,
  match failures with
  | O => (Ok tt, O)
  | Datatypes.S n => (Raise (Exn TransientCompensationError "busy"), n)
  end.

Definition example_runtime : comp_runtime nat :=
  {| rt_randint := λ _, 7%Z; rt_sleep := λ _, mret tt |}.

Lemma example_runtime_sleep d s e s' :
  rt_sleep example_runtime d s = (Raise e, s') → is_Exception e = false.
Proof. done. Qed.

Definition example_registry : CompensationRegistry.t nat :=
  CompensationRegistry.register "compensatable_write" flaky_handler "undo" 30000 2 1000 [].

Definition example_comp_world (failures : nat) : comp_world InMemoryDedupeStore.t nat :=
  CompWorld InMemoryDedupeStore.__init__ failures [].

(** One retry succeeds; a second request for the same action does nothing; a
    compensation that fails for good is never retried, and reported as done. *)
Lemma compensation_at_most_once_witness :
  let ops := [ OpExecute (example_comp_action "a1") true;
               OpExecute (example_comp_action "a1") true;
               OpExecute (example_comp_action "a2") true ] in
  map snd (run_comp example_runtime example_registry ops (example_comp_world 1)).1 = [2; 0; 1] ∧
  NoDup (map (CompensationRegistry.comp_key ∘ fst)
    (active (run_comp example_runtime example_registry ops (example_comp_world 1)).1)).
Proof.
  intros ops. split; [vm_compute; reflexivity|].
  apply (compensation_at_most_once example_runtime example_registry ops (example_comp_world 1)
    example_runtime_sleep). exact I.
Defined.

Lemma compensation_execute_outcome_witness :
  let a := example_comp_action "a1" in
  let '(o, w) := CompensationRegistry.execute example_runtime example_registry true a false
                   (example_comp_world 5) in
  o = Ok false ∧
  (CompensationRegistry.execute example_runtime example_registry true a false w).1 = Ok true ∧
  ∃ n (entry : CompensationEntry nat), executed (S := InMemoryDedupeStore.t) entry a false ∅ o n (ds_view (cw_store w)).
Proof.
  pose proof (compensation_execute_outcome example_runtime example_registry
    (example_comp_action "a1") false (example_comp_world 5) example_runtime_sleep) as H.
  specialize (H I).
  cbv zeta. destruct (CompensationRegistry.execute _ _ _ _ _ (example_comp_world 5)) as [o w] eqn:Hx.
  destruct (CompensationRegistry.lookup _ example_registry) as [entry|] eqn:Hl; [|discriminate Hl].
  destruct H as (n & _ & He).
  assert (w = (CompensationRegistry.execute example_runtime example_registry true
    (example_comp_action "a1") false (example_comp_world 5)).2) as Hw by (rewrite Hx; reflexivity).
  assert (o = (CompensationRegistry.execute example_runtime example_registry true
    (example_comp_action "a1") false (example_comp_world 5)).1) as Ho by (rewrite Hx; reflexivity).
  split; [rewrite Ho; vm_compute; reflexivity|].
  split; [rewrite Hw; vm_compute; reflexivity|]. by exists n, entry.
Defined.
