(* ===== verification/CircuitBreaker.v ===== *)
(** * The circuit breaker's store and probe

    The [CircuitBreakerStore] protocol of [kernel/contracts.py], the table
    behind [kernel/persistence/sqlite_circuit_breaker_store.py], and the sweep
    of [kernel/recovery/circuit_breaker_probe.py].  Times are nanoseconds. *)
From S2P Require Export Prelude.

Record CircuitBreakerPolicy := { threshold : Z; half_open_after_ms : Z }.

Definition default_circuit_breaker_policy : CircuitBreakerPolicy :=
  {| threshold := 5; half_open_after_ms := 30000 |}.

(** [get_state], [record_failure] (which reads the clock itself), [reset] and,
    where the store has it, [list_effect_classes]. *)
Class CircuitBreakerStore (C : Type) := {
  cb_get_state : string → M C (Z * Z);
  cb_record_failure : Z → string → M C Z;
  cb_reset : string → M C unit;
  cb_list_effect_classes : option (M C (list string))
}.

(** What a circuit holds: the failures since the last success, and the time of
    the last one; nothing recorded is [(0, 0)]. *)
Abbreviation circuits := (string → Z * Z).

Definition record_spec (now : Z) (effect_class : string) (v : circuits) : circuits :=
  λ c, if decide (c = effect_class) then ((v c).1 + 1, now)%Z else v c.

Definition reset_spec (effect_class : string) (v : circuits) : circuits :=
  λ c, if decide (c = effect_class) then (0, 0)%Z else v c.

(** A step either behaves as specified or raises and leaves the circuits. *)
Definition circuit_step {C A} (ok : C → Prop) (view : C → circuits) (m : M C A)
    (spec : circuits → A * circuits) : Prop :=
  ∀ s, ok s →
  match m s with
  | (Ok a, s') => ok s' ∧ a = (spec (view s)).1 ∧ ∀ c, view s' c = (spec (view s)).2 c
  | (Raise e, s') => ok s' ∧ ∀ c, view s' c = view s c
  end.

Class CircuitBreakerLaws (C : Type) `{CircuitBreakerStore C} := {
  cb_ok : C → Prop;
  cb_view : C → circuits;
  law_get_state c : circuit_step cb_ok cb_view (cb_get_state c) (λ v, (v c, v));
  law_record_failure now c :
    circuit_step cb_ok cb_view (cb_record_failure now c)
      (λ v, ((v c).1 + 1, record_spec now c v)%Z);
  law_reset c : circuit_step cb_ok cb_view (cb_reset c) (λ v, (tt, reset_spec c v));
  law_list m :
    cb_list_effect_classes = Some m →
    ∀ s, cb_ok s → cb_ok (m s).2 ∧ ∀ c, cb_view (m s).2 c = cb_view s c
}.

(** ** The table

    [circuit_breaker_state(effect_class PRIMARY KEY, failure_count,
    last_failure_ts)]; an SQL statement is its effect on the rows. *)
Module SQLiteCircuitBreakerStore.
Abbreviation t := (gmap string (Z * Z)).

Definition get_state (effect_class : string) : M t (Z * Z) :=
  gets (λ rows, match rows !! effect_class with
                | None => (0, 0)%Z
                | Some row => row
                end).

(** The UPSERT, then the SELECT of the new count. *)
Definition record_failure (now : Z) (effect_class : string) : M t Z :=
  modify (λ rows, match rows !! effect_class with
                  | None => <[effect_class := (1, now)%Z]> rows
                  | Some (failure_count, _) => <[effect_class := (failure_count + 1, now)%Z]> rows
                  end);;
  row ← gets (λ rows, rows !! effect_class);
  match row with
  | None =>
      raise (Exn RuntimeError ("circuit_breaker_store: row for effect_class=" +:+
               effect_class +:+ " disappeared after UPSERT"))
  | Some (failure_count, _) => mret failure_count
  end.

Definition reset (effect_class : string) : M t unit := modify (delete effect_class).

(** [ORDER BY effect_class ASC]. *)
Definition list_effect_classes : M t (list string) :=
  gets (λ rows, merge_sort String.le (map fst (map_to_list rows))).

#[global] Instance store : CircuitBreakerStore t := {|
  cb_get_state := get_state;
  cb_record_failure := record_failure;
  cb_reset := reset;
  cb_list_effect_classes := Some list_effect_classes
|}.

Definition view (rows : t) : circuits := λ c, default (0, 0)%Z (rows !! c).

Lemma record_failure_run now c rows :
  record_failure now c rows =
    (Ok ((view rows c).1 + 1)%Z, <[c := ((view rows c).1 + 1, now)%Z]> rows).
Proof.
  unfold record_failure, view, modify, gets, mbind, M_bind.
  destruct (rows !! c) as [[n ts]|]; simpl; by rewrite lookup_insert_eq.
Qed.

#[global] Program Instance laws : CircuitBreakerLaws t := {| cb_ok := λ _, True; cb_view := view |}.
Next Obligation. intros c s _. simpl. split_and!; [done| |done]. unfold view. by destruct (s !! c). Qed.
Next Obligation.
  intros now c s _. simpl. rewrite record_failure_run. split_and!; [done..|].
  intros c'. unfold view, record_spec. case_decide as Hc; [subst; by rewrite lookup_insert_eq|].
  by rewrite lookup_insert_ne.
Qed.
Next Obligation.
  intros c s _. simpl. split_and!; [done..|]. intros c'. unfold view, reset_spec.
  case_decide as Hc; [subst; by rewrite lookup_delete_eq|]. by rewrite lookup_delete_ne.
Qed.
Next Obligation. intros m [= <-] s _. done. Qed.
End SQLiteCircuitBreakerStore.

(** ** When a circuit rejects *)
Definition circuit_open (policy : CircuitBreakerPolicy) (now : Z) (state : Z * Z) : bool :=
  (threshold policy <=? state.1)%Z &&
  ((now - state.2) <? half_open_after_ms policy * 1000000)%Z.

(** ** The probe sweep *)
Section probe.
Context {C E : Type} `{CircuitBreakerStore C}.

(** The health checks; the store and the environment of the checks. *)
Context (policy : CircuitBreakerPolicy) (probe_fns : odict (M E bool)).

Definition on_breaker {A} (m : M C A) : M (C * E) A := zoom fst (λ c w, (c, w.2)) m.
Definition on_checks {A} (m : M E A) : M (C * E) A := zoom snd (λ e w, (w.1, e)) m.

(** [sorted(set(...))]. *)
Definition sorted_set (l : list string) : list string :=
  merge_sort String.le (remove_dups l).

Definition _iter_effect_classes : M (C * E) (list string) :=
  let classes := map fst probe_fns in
  listed ← match cb_list_effect_classes with
           | None => mret []
           | Some list_classes => suppress_or [] (on_breaker list_classes)
           end;
  mret (sorted_set (classes ++ listed)).

(** One round of the loop: whether the circuit was closed. *)
Definition probe_class (now : Z) (effect_class : string) : M (C * E) bool :=
  match od_get effect_class probe_fns with
  | None => mret false
  | Some probe =>
      '(count, last_failure_ts) ← on_breaker (cb_get_state effect_class);
      if (count <? threshold policy)%Z then mret false
      else if (now - last_failure_ts <? half_open_after_ms policy * 1000000)%Z then mret false
      else
        probe_ok ← on_checks probe;
        if probe_ok : bool then on_breaker (cb_reset effect_class);; mret true
        else mret false
  end.

Fixpoint probe_loop (now : Z) (classes : list string) : M (C * E) (list string) :=
  match classes with
  | [] => mret []
  | effect_class :: classes =>
      is_closed ← probe_class now effect_class;
      closed ← probe_loop now classes;
      mret (if is_closed : bool then effect_class :: closed else closed)
  end.

Definition probe_once (now : Z) : M (C * E) (list string) :=
  classes ← _iter_effect_classes;
  probe_loop now classes.
End probe.

Lemma sublist_StronglySorted {A} (R : relation A) l k :
  l `sublist_of` k → StronglySorted R k → StronglySorted R l.
Proof.
  induction 1 as [|x l k Hlk IH|x l k Hlk IH]; [done|..];
    intros [Hk Hx]%StronglySorted_inv; [|by apply IH].
  constructor; [by apply IH|]. apply Forall_forall. intros y Hy.
  eapply Forall_forall in Hx; [exact Hx|]. by apply (elem_of_submseteq l), sublist_submseteq.
Qed.

Lemma sorted_set_spec l : NoDup (sorted_set l) ∧ StronglySorted String.le (sorted_set l).
Proof.
  unfold sorted_set. split; [|apply StronglySorted_merge_sort; apply _].
  rewrite merge_sort_Permutation. apply NoDup_remove_dups.
Qed.

Section probe_spec.
Context {C E : Type} `{CircuitBreakerLaws C}.
Context (policy : CircuitBreakerPolicy) (probe_fns : odict (M E bool)) (now : Z).
Implicit Types w : C * E.

Lemma wp_on_breaker {A} (m : M C A) spec (Q : A → C * E → Prop) Ex w :
  circuit_step cb_ok cb_view m spec → cb_ok w.1 →
  (∀ s, cb_ok s → (∀ c, cb_view s c = (spec (cb_view w.1)).2 c) →
     Q (spec (cb_view w.1)).1 (s, w.2)) →
  (∀ e s, cb_ok s → (∀ c, cb_view s c = cb_view w.1 c) → Ex e (s, w.2)) →
  wp (on_breaker m) Q Ex w.
Proof.
  intros Hm Hok HQ HE. apply wp_zoom. unfold wp. specialize (Hm _ Hok).
  destruct (m w.1) as [[a|e] s]; [destruct Hm as (? & -> & ?); by apply HQ|].
  destruct Hm. by apply HE.
Qed.

(** A class whose health check the sweep consults. *)
Record eligible (v : circuits) (c : string) : Prop := {
  el_probe : is_Some (od_get c probe_fns);
  el_open : (threshold policy ≤ (v c).1)%Z;
  el_cooled : (half_open_after_ms policy * 1000000 ≤ now - (v c).2)%Z
}.

(** The sweep has closed the circuits in [closed], and no other. *)
Record swept (v : circuits) (classes closed : list string) (w : C * E) : Prop := {
  sw_ok : cb_ok w.1;
  sw_among : closed `sublist_of` classes;
  sw_eligible : Forall (eligible v) closed;
  sw_view c : cb_view w.1 c = if decide (c ∈ closed) then (0, 0)%Z else v c
}.

Lemma swept_nil v classes w :
  cb_ok w.1 → (∀ c, cb_view w.1 c = v c) → swept v classes [] w.
Proof. intros Hok Hv. split; [done|apply sublist_nil_l|constructor|]. intros c. by rewrite Hv. Qed.

Lemma swept_ext v v' classes closed w :
  (∀ c, v' c = v c) → swept v' classes closed w → swept v classes closed w.
Proof.
  intros Hext [? ? Hel Hv]. split; [done..| |].
  - eapply Forall_impl; [exact Hel|]. intros c []. split; by rewrite <- ?Hext.
  - intros c. by rewrite Hv, Hext.
Qed.

Lemma iter_classes_spec w :
  cb_ok w.1 →
  wp (_iter_effect_classes probe_fns)
    (λ classes w', NoDup classes ∧ StronglySorted String.le classes ∧ cb_ok w'.1 ∧
       ∀ c, cb_view w'.1 c = cb_view w.1 c)
    (λ _ w', cb_ok w'.1 ∧ ∀ c, cb_view w'.1 c = cb_view w.1 c) w.
Proof.
  intros Hok. unfold _iter_effect_classes. apply wp_bind.
  assert (∀ listed w', cb_ok w'.1 → (∀ c, cb_view w'.1 c = cb_view w.1 c) →
    wp (mret (M:=M (C * E)) (sorted_set (map fst probe_fns ++ listed)))
      (λ classes w', NoDup classes ∧ StronglySorted String.le classes ∧ cb_ok w'.1 ∧
         ∀ c, cb_view w'.1 c = cb_view w.1 c)
      (λ _ w', cb_ok w'.1 ∧ ∀ c, cb_view w'.1 c = cb_view w.1 c) w') as Hret.
  { intros listed w' ? ?. apply wp_ret. by destruct (sorted_set_spec (map fst probe_fns ++ listed)). }
  destruct cb_list_effect_classes as [m|] eqn:Hm; [|by apply wp_ret, Hret].
  destruct (law_list m Hm w.1 Hok) as [Hok' Hv'].
  apply wp_try_except, wp_zoom. unfold wp at 1. destruct (m w.1) as [[l|e] s]; simpl in *.
  - by apply Hret.
  - destruct (is_Exception e); [by apply wp_ret, Hret|done].
Qed.

Lemma probe_class_spec c (Q : bool → C * E → Prop) Ex w :
  cb_ok w.1 →
  (∀ w', cb_ok w'.1 → (∀ d, cb_view w'.1 d = cb_view w.1 d) → Q false w') →
  (∀ w', cb_ok w'.1 → eligible (cb_view w.1) c →
     (∀ d, cb_view w'.1 d = reset_spec c (cb_view w.1) d) → Q true w') →
  (∀ e w', cb_ok w'.1 → (∀ d, cb_view w'.1 d = cb_view w.1 d) → Ex e w') →
  wp (probe_class policy probe_fns now c) Q Ex w.
Proof.
  intros Hok HF HT HE. unfold probe_class. destruct (od_get c probe_fns) as [probe|] eqn:Hp;
    [|by apply wp_ret, HF].
  apply wp_bind, (wp_on_breaker _ _ _ _ _ (law_get_state c) Hok).
  - intros s Hs Hv. simpl. simpl in Hv. destruct (cb_view w.1 c) as [count ts] eqn:Hc.
    case_match eqn:Hcount; [by apply wp_ret, HF|]. case_match eqn:Hts; [by apply wp_ret, HF|].
    assert (eligible (cb_view w.1) c) as Hel.
    { split; [by rewrite Hp|rewrite Hc; simpl; lia..]. }
    apply wp_bind, wp_zoom. unfold wp at 1. simpl.
    destruct (probe w.2) as [[[]|e] env]; [|by apply wp_ret, HF|by apply HE].
    apply wp_bind, (wp_on_breaker _ _ _ _ (s, env) (law_reset c) Hs).
    + intros s' Hs' Hv'. apply wp_ret, HT; [done..|]. intros d. simpl. rewrite Hv'. simpl.
      unfold reset_spec. by rewrite Hv.
    + intros e s' Hs' Hv'. apply HE; [done|]. intros d. simpl. rewrite Hv'. apply Hv.
  - intros e s Hs Hv. by apply HE.
Qed.

Lemma probe_loop_spec classes w :
  NoDup classes → cb_ok w.1 →
  wp (probe_loop policy probe_fns now classes)
    (λ closed w', swept (cb_view w.1) classes closed w')
    (λ _ w', ∃ closed, swept (cb_view w.1) classes closed w') w.
Proof.
  intros Hnd. revert w. induction Hnd as [|c classes Hc Hnd IH]; intros w Hok; cbn [probe_loop].
  { by apply wp_ret, swept_nil. }
  apply wp_bind, probe_class_spec; [done|..].
  - intros w1 Hok1 Hv1. apply wp_bind. eapply wp_mono; [by apply IH|..].
    + intros closed w' [? ? Hel Hv]. apply wp_ret. split; [done|by apply sublist_cons| |].
      * eapply Forall_impl; [exact Hel|]. intros d []. split; by rewrite <- ?Hv1.
      * intros d. rewrite Hv. by rewrite Hv1.
    + intros e w' (closed & [? ? Hel Hv]). exists closed. split; [done|by apply sublist_cons| |].
      * eapply Forall_impl; [exact Hel|]. intros d []. split; by rewrite <- ?Hv1.
      * intros d. rewrite Hv. by rewrite Hv1.
  - intros w1 Hok1 Hel Hv1.
    assert (∀ closed w', swept (cb_view w1.1) classes closed w' →
      swept (cb_view w.1) (c :: classes) (c :: closed) w') as Hcons.
    { intros closed w' [? Hsub Hels Hv]. split; [done|by apply sublist_skip| |].
      - constructor; [done|]. apply Forall_forall. intros d Hd.
        assert (d ≠ c) as Hne by (intros ->; by apply Hc, (elem_of_submseteq closed); [|apply sublist_submseteq]).
        eapply Forall_forall in Hels as [Hp Ho Hcool]; [|exact Hd].
        rewrite Hv1 in Ho, Hcool. unfold reset_spec in Ho, Hcool. rewrite decide_False in Ho, Hcool by done.
        by split.
      - intros d. rewrite Hv, Hv1. unfold reset_spec.
        repeat case_decide; set_solver. }
    apply wp_bind. eapply wp_mono; [by apply IH|..].
    + intros closed w' Hs. by apply wp_ret, Hcons.
    + intros e w' (closed & Hs). exists (c :: closed). by apply Hcons.
  - intros e w1 Hok1 Hv1. exists []. by apply swept_nil.
Qed.
End probe_spec.

(** What a probe sweep does.  Whatever the health checks and the store
    do, the circuits that differ afterwards are exactly those of a sorted,
    duplicate-free list, now back at zero failures; each of them had a health
    check, had reached the threshold and was past its cooldown, so a sweep
    never touches a circuit in its cooldown.  A sweep that ends normally
    returns that list; one that an unhealthy check or store ends early has
    still closed only such circuits. *)
Theorem probe_sweep {C E} `{CircuitBreakerLaws C} policy (probe_fns : odict (M E bool)) now
    (w : C * E) :
  cb_ok w.1 →
  let '(o, w') := probe_once policy probe_fns now w in
  ∃ closed,
    (∀ l, o = Ok l → l = closed) ∧ NoDup closed ∧ StronglySorted String.le closed ∧
    Forall (eligible policy probe_fns now (cb_view w.1)) closed ∧
    ∀ c, cb_view w'.1 c = if decide (c ∈ closed) then (0, 0)%Z else cb_view w.1 c.
Proof.
  intros Hok.
  cut (wp (probe_once policy probe_fns now)
    (λ l w', ∃ classes, NoDup classes ∧ StronglySorted String.le classes ∧
       swept policy probe_fns now (cb_view w.1) classes l w')
    (λ _ w', ∃ classes closed, NoDup classes ∧ StronglySorted String.le classes ∧
       swept policy probe_fns now (cb_view w.1) classes closed w') w).
  { unfold wp. destruct (probe_once policy probe_fns now w) as [[l|e] w'].
    - intros (classes & Hnd & Hsort & [_ Hsub Hel Hv]). exists l. split_and!; [congruence| | |done..].
      + by eapply sublist_NoDup.
      + by eapply sublist_StronglySorted.
    - intros (classes & closed & Hnd & Hsort & [_ Hsub Hel Hv]). exists closed.
      split_and!; [done| | |done..].
      + by eapply sublist_NoDup.
      + by eapply sublist_StronglySorted. }
  unfold probe_once. apply wp_bind. eapply wp_mono; [by apply iter_classes_spec|..].
  - intros classes w1 (Hnd & Hsort & Hok1 & Hv1).
    eapply wp_mono; [by apply probe_loop_spec|..].
    + intros l w' Hs. exists classes. split_and!; [done..|]. by eapply swept_ext.
    + intros e w' (closed & Hs). exists classes, closed. split_and!; [done..|]. by eapply swept_ext.
  - intros e w' [Hok1 Hv1]. exists [], []. split_and!; [constructor..|]. by apply swept_nil.
Qed.

Definition example_rows : SQLiteCircuitBreakerStore.t :=
  {["read_only" := (7, 0)%Z; "idempotent_write" := (5, 29000000000)%Z]}.

Definition example_checks : odict (M unit bool) :=
  [("read_only", mret true); ("idempotent_write", mret true)].

(** At 30 s the first circuit is past its cooldown, the second is not. *)
Lemma probe_sweep_witness :
  ∃ w' : SQLiteCircuitBreakerStore.t * unit,
    probe_once default_circuit_breaker_policy example_checks 30000000000 (example_rows, tt)
      = (Ok ["read_only"], w') ∧
    cb_view w'.1 "read_only" = (0, 0)%Z ∧
    cb_view w'.1 "idempotent_write" = (5, 29000000000)%Z.
Proof.
  pose proof (probe_sweep default_circuit_breaker_policy example_checks 30000000000
    (example_rows, tt)) as H. specialize (H I).
  destruct (probe_once _ _ _ _) as [o w'] eqn:Hp.
  assert (o = Ok ["read_only"]) as ->.
  { replace o with (probe_once default_circuit_breaker_policy example_checks 30000000000
      (example_rows, tt)).1; [vm_compute; reflexivity|by rewrite Hp]. }
  destruct H as (closed & Hl & _ & _ & _ & Hv). exists w'.
  rewrite !Hv, <- (Hl _ eq_refl). split_and!; reflexivity.
Defined.
