(* ===== verification/PgStores.v ===== *)
(** * The PostgreSQL circuit-breaker and recovery-outcome stores

    ([kernel/persistence/pg_circuit_breaker_store.py],
    [pg_recovery_outcome_store.py]): every method is one statement, a
    transaction of its own. *)
From S2P Require Export Postgres CircuitBreaker RecordStores.

Module PostgresCircuitBreakerStore.
Abbreviation rows := (gmap string (Z * Z)).
Abbreviation t := (pg rows).

(** A statement of its own on a table with a primary key. *)
Definition execute {A} (body : rows → A * rows) : M t A :=
  pg_execute (K := string) (λ l, Ok (body l)).

Definition get_state (effect_class : string) : M t (Z * Z) :=
  row ← execute (λ l, (l !! effect_class, l));
  mret (match row with None => (0, 0)%Z | Some row => row end).

(** [INSERT ... ON CONFLICT DO UPDATE SET failure_count = failure_count + 1
    ... RETURNING failure_count]; the times are in nanoseconds. *)
Definition record_failure (now : Z) (effect_class : string) : M t Z :=
  execute (λ l,
    let failure_count := match l !! effect_class with
                         | None => 1%Z
                         | Some (failure_count, _) => (failure_count + 1)%Z
                         end in
    (failure_count, <[effect_class := (failure_count, now)]> l)).

Definition reset (effect_class : string) : M t unit := execute (λ l, (tt, delete effect_class l)).

Definition list_effect_classes : M t (list string) :=
  execute (λ l, (merge_sort String.le (map fst (map_to_list l)), l)).

Definition get_failure_count (effect_class : string) : M t Z :=
  state ← get_state effect_class; mret (fst state).
Definition increment_failure := record_failure.
Definition get_last_failure_ts (effect_class : string) : M t (option Z) :=
  state ← get_state effect_class;
  mret (if (snd state <=? 0)%Z then None else Some (snd state)).

#[global] Instance store : CircuitBreakerStore t := {|
  cb_get_state := get_state;
  cb_record_failure := record_failure;
  cb_reset := reset;
  cb_list_effect_classes := Some list_effect_classes
|}.

Definition view (l : rows) : circuits := λ c, default (0, 0)%Z (l !! c).
End PostgresCircuitBreakerStore.

(** [emitted_event_ids_json] is kept as the list that is read from it. *)
Module PostgresRecoveryOutcomeStore.
Abbreviation rows := (id_table RecoveryOutcome).
Abbreviation t := (pg rows).

(** No statement here locks anything. *)
#[global] Instance no_locks : PgLocks rows Empty_set.
Proof.
  refine {| permits k t t' := True |}. intros [].
Defined.

Definition write_outcome (outcome : RecoveryOutcome) : M t unit :=
  pg_execute (λ table : rows, Ok (tt, insert_row outcome table)).

Definition latest_for_run (run_id : string) : M t (option RecoveryOutcome) :=
  pg_execute (λ table : rows,
    Ok (snd <$> latest ro_written_at (filter (λ row, ro_run_id (snd row) = run_id) (it_rows table)), table)).
End PostgresRecoveryOutcomeStore.

(** ** Failures are counted once each *)
Section circuits.
Import PostgresCircuitBreakerStore.
Context (F : (rows → rows) → Prop).

(** A step of the circuits: its value, and the new state of every class. *)
Definition circuit_does {A} (spec : circuits → A * circuits) (l : rows) (a : A) (l' : rows) : Prop :=
  a = (spec (view l)).1 ∧ ∀ c, view l' c = (spec (view l)).2 c.

Abbreviation linear m spec := (linear F (λ _, True) (circuit_does spec) (λ _ _, False) m).

Lemma execute_linear {A} (body : rows → A * rows) spec :
  (∀ l, circuit_does spec l (body l).1 (body l).2) → linear (execute body) spec.
Proof.
  intros Hb. apply linear_execute; [done|]. intros l _. specialize (Hb l). by destruct (body l).
Qed.

Lemma pg_get_state c : linear (get_state c) (λ v, (v c, v)).
Proof.
  unfold get_state. intros p Ho Hp. eapply wp_mono.
  - apply (linear_map F (λ _, True) (λ row, match row with None => (0, 0)%Z | Some row => row end)
      (λ l row l', row = l !! c ∧ l' = l) (circuit_does (λ v, (v c, v))) (λ _ _, False)); [|
      by apply linear_execute|done..].
    intros l row l' [-> ->]. split; [|done]. simpl. unfold view. by destruct (l !! c).
  - done.
  - done.
Qed.

Lemma pg_record_failure now c :
  linear (record_failure now c) (λ v, ((v c).1 + 1, record_spec now c v)%Z).
Proof.
  apply execute_linear. intros l. unfold circuit_does, view, record_spec. simpl. split.
  - by destruct (l !! c) as [[]|].
  - intros c'. destruct (decide (c' = c)) as [->|Hne]; [|by rewrite lookup_insert_ne].
    rewrite lookup_insert_eq. by destruct (l !! c) as [[]|].
Qed.

Lemma pg_reset c : linear (reset c) (λ v, (tt, reset_spec c v)).
Proof.
  apply execute_linear. intros l. unfold circuit_does, view, reset_spec. simpl. split; [done|].
  intros c'. destruct (decide (c' = c)) as [->|Hne]; [by rewrite lookup_delete_eq|by rewrite lookup_delete_ne].
Qed.
End circuits.

(** A database of one's own is a lawful store. *)
Section circuit_laws.
Import PostgresCircuitBreakerStore.

Lemma linear_circuit {A} (m : M t A) spec :
  linear nobody (λ _, True) (circuit_does spec) (λ _ _, False) m →
  circuit_step (λ p, others_do nobody p ∧ never_lost p) (λ p, view (pg_rows p)) m spec.
Proof.
  intros Hm p [Ho Hl]. specialize (Hm p Ho I). unfold wp in Hm.
  assert (∀ p', pg_ahead p' `suffix_of` pg_ahead p → others_do nobody p' ∧ never_lost p') as Hok
    by (intros p' Hs; split; by eapply Forall_suffix).
  destruct (m p) as [[a|e] p'].
  - destruct Hm as [Hs [Ha Hv]%did_nobody]. split; [by apply Hok|done].
  - destruct Hm as (_ & Hs & Hd & _). split; [by apply Hok|].
    by destruct Hd as [->%drift_nobody|[Hn _]].
Qed.

#[export] Program Instance pg_circuit_laws : CircuitBreakerLaws t :=
  {| cb_ok := λ p, others_do nobody p ∧ never_lost p; cb_view := λ p, view (pg_rows p) |}.
Next Obligation. intros c. apply linear_circuit, pg_get_state. Qed.
Next Obligation. intros now c. apply linear_circuit, pg_record_failure. Qed.
Next Obligation. intros c. apply linear_circuit, pg_reset. Qed.
Next Obligation.
  intros m [= <-] p [Ho Hl]. pose proof (linear_execute (K := string) nobody (λ _, True) (λ _ _ _ _, I)
    (λ l a l', a = merge_sort String.le (map fst (map_to_list l)) ∧ l' = l) (λ _ _, False)
    (λ l : rows, Ok (merge_sort String.le (map fst (map_to_list l)), l)) (λ _ _, conj eq_refl eq_refl) p Ho I) as H.
  unfold list_effect_classes, execute. unfold wp in H. destruct (pg_execute _ p) as [[a|e] p']; simpl.
  - destruct H as [Hs [_ ->]%did_nobody]. split; [|done]. split; by eapply Forall_suffix.
  - destruct H as (_ & Hs & Hd & _). split; [split; by eapply Forall_suffix|].
    by destruct Hd as [->%drift_nobody|[Hn _]].
Qed.
End circuit_laws.

(** ** Recovery outcomes: a write is one row, a read the latest one *)
Section outcomes.
Import PostgresRecoveryOutcomeStore.
Context (F : (rows → rows) → Prop).

Lemma pg_write_outcome o :
  linear F (λ _, True) (λ table (_ : unit) table', table' = insert_row o table) (λ _ _, False)
    (write_outcome o).
Proof. by apply linear_execute. Qed.

Lemma pg_latest_outcome run :
  linear F (λ _, True) (λ table found table', table' = table ∧
    match found with
    | None => ∀ row, row ∈ it_rows table → ro_run_id (snd row) ≠ run
    | Some o => ro_run_id o = run ∧ (∃ id, (id, o) ∈ it_rows table) ∧
        ∀ row, row ∈ it_rows table → ro_run_id (snd row) = run →
               String.le (ro_written_at (snd row)) (ro_written_at o)
    end) (λ _ _, False) (latest_for_run run).
Proof.
  apply linear_execute; [done|]. intros table _. split; [done|].
  pose proof (latest_row_max ro_written_at (filter (λ row, ro_run_id (snd row) = run) (it_rows table))) as Hl.
  destruct (latest _ _) as [[n o]|]; simpl in *.
  - destruct Hl as [[Hr Hin]%list_elem_of_filter Hmax]. split_and!; [done|by exists n|].
    intros row Hrow Hrun. apply (Hmax row). by apply list_elem_of_filter.
  - intros row Hrow Hrun. assert (row ∈ ([] : list (Z * RecoveryOutcome))) as Hx
      by (rewrite <- Hl; by apply list_elem_of_filter). by apply not_elem_of_nil in Hx.
Qed.
End outcomes.
