(* ===== verification/RecoveryGate.v ===== *)
(** * The recovery gate ([kernel/recovery/gate.py, reflection_builder.py])

    [PlannedRecoveryGateService.decide]: failure counting, the circuit
    breaker, the plan and its mode, compensation, reflection and backoff.
    Observability hooks (called under [suppress(Exception)]) are left out. *)
From S2P Require Import Cognition.
From S2P Require Export RecoveryPlanner CompensationRegistry CircuitBreaker.
From Stdlib Require Import Ascii.

(** ** Reflection contexts *)
Record ScriptFailureEvidence := {
  sf_script_id : string;
  sf_failure_kind : string;
  sf_budget_consumed_ratio : spec_float;
  sf_output_produced : bool;
  sf_suspected_cause : option string;
  sf_partial_output : option string;
  sf_original_script : string;
  sf_stderr_tail : option string
}.

Record BranchResult := {
  br_action_id : string;
  br_output_json : option pydict;
  br_acknowledged : bool
}.

Definition empty_context : ContextWindow := {|
  cw_system_instructions := ""; cw_tool_definitions := []; cw_skill_definitions := [];
  cw_history := []; cw_current_state := []; cw_memory_ref := None;
  cw_recovery_context := None; cw_inference_config := None |}.

Definition recovery_context_of (evidence : ScriptFailureEvidence)
    (successful_branches : list BranchResult) (reflection_round : Z) : pydict :=
  [ ("failure_kind", PStr (sf_failure_kind evidence));
    ("suspected_cause", opt_str (sf_suspected_cause evidence));
    ("budget_consumed_ratio", PFloat (sf_budget_consumed_ratio evidence));
    ("original_script", PStr (sf_original_script evidence));
    ("partial_output", opt_str (sf_partial_output evidence));
    ("stderr_tail", opt_str (sf_stderr_tail evidence));
    ("successful_branch_ids", PList (map (PStr ∘ br_action_id) successful_branches));
    ("reflection_round", PInt reflection_round);
    ("instruction", PStr "Analyse the failure and produce a corrected script") ].

(** [ReflectionContextBuilder.build]. *)
Definition build_reflection_context (evidence : ScriptFailureEvidence)
    (successful_branches : list BranchResult) (base_context : ContextWindow)
    (reflection_round : Z) : ContextWindow := {|
  cw_system_instructions := cw_system_instructions base_context;
  cw_tool_definitions := cw_tool_definitions base_context;
  cw_skill_definitions := cw_skill_definitions base_context;
  cw_history := cw_history base_context;
  cw_current_state := cw_current_state base_context;
  cw_memory_ref := cw_memory_ref base_context;
  cw_recovery_context :=
    Some (recovery_context_of evidence successful_branches reflection_round);
  cw_inference_config := cw_inference_config base_context |}.

Definition known_failure_kinds : list string :=
  ["heartbeat_timeout"; "runtime_error"; "permission_denied"; "resource_exhausted";
   "output_validation_failed"].

Definition _build_evidence_from_input (i : RecoveryInput) : ScriptFailureEvidence :=
  let reason := ri_reason_code i in
  {| sf_script_id := default "unknown" (str_or (ri_failed_action_id i) (Some "unknown"));
     sf_failure_kind := if decide (reason ∈ known_failure_kinds) then reason else "runtime_error";
     sf_budget_consumed_ratio := SpecFloat.S754_zero false;
     sf_output_produced := false;
     sf_suspected_cause := Some reason;
     sf_partial_output := None;
     sf_original_script := "";
     sf_stderr_tail := None |}.

Record ReflectionPolicy := {
  max_rounds : Z;
  reflection_timeout_ms : Z;
  reflectable_failure_kinds : list string;
  non_reflectable_failure_kinds : list string;
  escalate_on_exhaustion : bool
}.

Definition default_reflection_policy : ReflectionPolicy := {|
  max_rounds := 3; reflection_timeout_ms := 60000;
  reflectable_failure_kinds := ["heartbeat_timeout"; "runtime_error"; "output_validation_failed"];
  non_reflectable_failure_kinds := ["resource_exhausted"; "permission_denied"];
  escalate_on_exhaustion := true |}.

Definition is_reflectable (policy : ReflectionPolicy) (failure_kind : string) : bool :=
  if decide (failure_kind ∈ non_reflectable_failure_kinds policy) then false
  else bool_decide (failure_kind ∈ reflectable_failure_kinds policy).

(** ** Backoff *)
Definition _RETRYABLE_MODES : list string := ["static_compensation"; "reflect_and_retry"].
Definition _BACKOFF_BASE_MS : Z := 500.
Definition _BACKOFF_MAX_MS : Z := 30000.

(** [int(base * math.pow(2, exponent))], exact for the exponents up to 16: a
    negative exponent divides. *)
Definition _compute_retry_after_ms (mode : string) (failure_count : Z) : option Z :=
  if decide (mode ∉ _RETRYABLE_MODES) then None
  else
    let exponent := Z.min (failure_count - 1) 16 in
    let delay := Z.shiftl _BACKOFF_BASE_MS exponent in
    Some (Z.min delay _BACKOFF_MAX_MS).

Definition _attach_backoff (decision : RecoveryDecision) (failure_count : Z)
    : RecoveryDecision := {|
  rd_run_id := rd_run_id decision;
  rd_mode := rd_mode decision;
  rd_reason := rd_reason decision;
  rd_compensation_action_id := rd_compensation_action_id decision;
  rd_escalation_channel_ref := rd_escalation_channel_ref decision;
  rd_corrected_action := rd_corrected_action decision;
  rd_retry_after_ms := _compute_retry_after_ms (rd_mode decision) failure_count;
  rd_failure_count := failure_count |}.

(** [reason_code] as [effect_class:reason]. *)
Definition _extract_effect_class (i : RecoveryInput) : option string :=
  let reason := py_lower (ri_reason_code i) in
  if py_contains_char ":"%char reason then Some (py_before_char ":"%char reason) else None.

(** ** The gate *)

(** The keyword arguments of [reasoning_loop.run_once] ([history] is empty). *)
Record reflection_request := {
  rfq_run_id : string;
  rfq_snapshot : CapabilitySnapshot;
  rfq_model_ref : string;
  rfq_context : ContextWindow;
  rfq_idempotency_key : string
}.

(** The collaborators of [__init__].  The last three are present or not: the
    store of the breaker and the dedupe store are in the state. *)
Record gate_config (E : Type) := {
  g_planner_policy : PlannerHeuristicPolicy;
  g_modes : RecoveryModeRegistry.t;
  g_compensation_registry : option (CompensationRegistry.t E);
  g_runtime : comp_runtime E;
  g_reflection_policy : option ReflectionPolicy;
  g_reasoning_loop : option (reflection_request → M E (list Action));
  g_default_inference_config : option string;
  g_circuit_breaker_policy : option CircuitBreakerPolicy;
  g_reflection_builder : bool;
  g_circuit_breaker_store : bool;
  g_dedupe_store : bool
}.
Arguments g_planner_policy {E}.
Arguments g_modes {E}.
Arguments g_compensation_registry {E}.
Arguments g_runtime {E}.
Arguments g_reflection_policy {E}.
Arguments g_reasoning_loop {E}.
Arguments g_default_inference_config {E}.
Arguments g_circuit_breaker_policy {E}.
Arguments g_reflection_builder {E}.
Arguments g_circuit_breaker_store {E}.
Arguments g_dedupe_store {E}.

Record gate_state := {
  _failure_counts : gmap string Z;
  _circuit_failures : gmap string Z;
  _circuit_last_failure_mono : gmap string Z
}.

(** The gate's own dictionaries, the breaker's store, and the dedupe store
    with the collaborators' environment. *)
Record gate_world (S C E : Type) := GateWorld {
  gw_gate : gate_state;
  gw_breaker : C;
  gw_comp : comp_world S E
}.
Arguments GateWorld {S C E}.
Arguments gw_gate {S C E}.
Arguments gw_breaker {S C E}.
Arguments gw_comp {S C E}.

(** The clock, in nanoseconds, when the circuit is checked and when a failure
    is recorded, and [created_at] of a snapshot built in between. *)
Record gate_clock := { gk_check : Z; gk_record : Z; gk_iso : string }.

Section gate.
Context {S C E : Type} `{DedupeStorePort S} `{CircuitBreakerStore C}.
Context (g : gate_config E).
Abbreviation W := (gate_world S C E).

Definition on_gate {A} (m : M gate_state A) : M W A :=
  zoom gw_gate (λ s w, GateWorld s (gw_breaker w) (gw_comp w)) m.
Definition on_store {A} (m : M C A) : M W A :=
  zoom gw_breaker (λ c w, GateWorld (gw_gate w) c (gw_comp w)) m.
Definition on_comp {A} (m : M (comp_world S E) A) : M W A :=
  zoom gw_comp (λ c w, GateWorld (gw_gate w) (gw_breaker w) c) m.

Definition count_failure (run_id : string) : M gate_state Z := λ s,
  let failure_count := (default 0 (_failure_counts s !! run_id) + 1)%Z in
  (Ok failure_count,
   {| _failure_counts := <[run_id := failure_count]> (_failure_counts s);
      _circuit_failures := _circuit_failures s;
      _circuit_last_failure_mono := _circuit_last_failure_mono s |}).

Definition _is_circuit_open (now : Z) (effect_class : option string) : M W bool :=
  match g_circuit_breaker_policy g, effect_class with
  | Some policy, Some effect_class =>
      state ←
        (if g_circuit_breaker_store g then on_store (cb_get_state effect_class)
         else gets (λ w,
           (default 0 (_circuit_failures (gw_gate w) !! effect_class),
            default 0 (_circuit_last_failure_mono (gw_gate w) !! effect_class))%Z));
      mret (circuit_open policy now state)
  | _, _ => mret false
  end.

Definition _record_circuit_failure (now : Z) (effect_class : option string) : M W unit :=
  match g_circuit_breaker_policy g, effect_class with
  | Some _, Some effect_class =>
      if g_circuit_breaker_store g then
        on_store (cb_record_failure now effect_class);; mret tt
      else
        on_gate (modify (λ s,
          {| _failure_counts := _failure_counts s;
             _circuit_failures :=
               <[effect_class := (default 0 (_circuit_failures s !! effect_class) + 1)%Z]>
                 (_circuit_failures s);
             _circuit_last_failure_mono :=
               <[effect_class := now]> (_circuit_last_failure_mono s) |}))
  | _, _ => mret tt
  end.

Definition on_action_success (effect_class : string) : M W unit :=
  if g_circuit_breaker_store g then on_store (cb_reset effect_class)
  else on_gate (modify (λ s,
    {| _failure_counts := _failure_counts s;
       _circuit_failures := delete effect_class (_circuit_failures s);
       _circuit_last_failure_mono := delete effect_class (_circuit_last_failure_mono s) |})).

Definition _should_reflect (i : RecoveryInput) (mode : string) : bool :=
  match g_reflection_policy g, g_reasoning_loop g with
  | Some policy, Some _ =>
      g_reflection_builder g &&
      bool_decide (mode ∈ ["static_compensation"; "abort"]) &&
      is_reflectable policy (ri_reason_code i) &&
      (ri_reflection_round i <? max_rounds policy)%Z
  | _, _ => false
  end.

Definition plain_decision (run_id mode reason : string) : RecoveryDecision := {|
  rd_run_id := run_id; rd_mode := mode; rd_reason := reason;
  rd_compensation_action_id := None; rd_escalation_channel_ref := None;
  rd_corrected_action := None; rd_retry_after_ms := None; rd_failure_count := 0 |}.

Definition _fallback_decision (policy : ReflectionPolicy) (i : RecoveryInput)
    (base_reason : string) : RecoveryDecision :=
  if escalate_on_exhaustion policy
  then plain_decision (ri_run_id i) "human_escalation"
         (base_reason +:+ ":reflect_exhausted:escalated")
  else plain_decision (ri_run_id i) "abort" (base_reason +:+ ":reflect_exhausted:aborted").

Definition gate_snapshot_input (i : RecoveryInput) : CapabilitySnapshotInput := {|
  si_run_id := ri_run_id i;
  si_based_on_offset := pj_projected_offset (ri_projection i);
  si_tenant_policy_ref := "policy:default";
  si_permission_mode := "strict";
  si_tool_bindings := []; si_mcp_bindings := []; si_skill_bindings := []; si_feature_flags := [];
  si_context_binding_ref := None; si_context_content_hash := None;
  si_budget_ref := None; si_quota_ref := None; si_session_mode := None;
  si_approval_state := None; si_declarative_bundle_digest := None; si_peer_run_bindings := [] |}.

Definition reflection_key (i : RecoveryInput) : string :=
  ri_run_id i +:+ ":" +:+ pretty (pj_projected_offset (ri_projection i)) +:+ ":reflection:" +:+
  pretty (ri_reflection_round i + 1)%Z.

Definition _decide_reflect_and_retry (iso : string) (i : RecoveryInput) (base_reason : string)
    : M W RecoveryDecision :=
  policy ← assert_some (g_reflection_policy g);
  run_once ← assert_some (g_reasoning_loop g);
  let reflection_round := (ri_reflection_round i + 1)%Z in
  let enriched_context :=
    build_reflection_context (_build_evidence_from_input i) [] empty_context reflection_round in
  snapshot ← match ri_capability_snapshot i with
             | Some snapshot => mret snapshot
             | None => lift (CapabilitySnapshot.build iso (gate_snapshot_input i))
             end;
  actions ← try_except
    (actions ← on_comp (CompensationRegistry.on_env (run_once {|
       rfq_run_id := ri_run_id i; rfq_snapshot := snapshot;
       rfq_model_ref := default "gpt-4o-mini" (g_default_inference_config g);
       rfq_context := enriched_context; rfq_idempotency_key := reflection_key i |}));
     mret (Some actions))
    is_Exception (λ _, mret None);
  match actions with
  | Some (corrected_action :: _) =>
      mret {| rd_run_id := ri_run_id i; rd_mode := "reflect_and_retry";
              rd_reason := base_reason +:+ ":reflect_and_retry:round=" +:+ pretty reflection_round;
              rd_compensation_action_id := None; rd_escalation_channel_ref := None;
              rd_corrected_action := Some corrected_action;
              rd_retry_after_ms := None; rd_failure_count := 0 |}
  | _ => mret (_fallback_decision policy i base_reason)
  end.

(** The effective mode, reason, compensation id and escalation channel. *)
Definition effective : Type := string * string * option string * option string.

(** [failing_action] is what [getattr(recovery_input, "failing_action", None)]
    finds. *)
Definition compensation_step (failing_action : option Action) (i : RecoveryInput)
    (plan : RecoveryPlan) (mode : string) : M W effective :=
  let planned : effective :=
    (mode, rp_reason plan, rp_compensation_action_id plan, rp_escalation_channel_ref plan) in
  match g_compensation_registry g, _extract_effect_class i with
  | Some registry, Some comp_effect_class =>
      if decide (mode = "static_compensation") then
        if negb (CompensationRegistry.has_handler comp_effect_class registry) then
          mret ("abort", rp_reason plan +:+ ":no_compensation_handler", None, None)
        else
          match failing_action with
          | None => mret planned
          | Some action =>
              try_except
                (on_comp (CompensationRegistry.execute (g_runtime g) registry (g_dedupe_store g)
                            action true);;
                 mret planned)
                is_Exception
                (λ _, mret ("human_escalation", rp_reason plan +:+ ":compensation_exhausted", None,
                            rp_escalation_channel_ref plan))
          end
      else mret planned
  | _, _ => mret planned
  end.

Definition decide_with (failing_action : option Action) (clk : gate_clock) (i : RecoveryInput)
    : M W RecoveryDecision :=
  failure_count ← on_gate (count_failure (ri_run_id i));
  is_open ← _is_circuit_open (gk_check clk) (ri_failed_effect_class i);
  if is_open : bool then
    mret {| rd_run_id := ri_run_id i; rd_mode := "abort";
            rd_reason := ri_reason_code i +:+ ":circuit_open";
            rd_compensation_action_id := None; rd_escalation_channel_ref := None;
            rd_corrected_action := None; rd_retry_after_ms := None;
            rd_failure_count := failure_count |}
  else
    plan ← lift (build_plan_from_input (g_planner_policy g) i);
    match RecoveryModeRegistry.get (rp_action plan) (g_modes g) with
    | None =>
        raise (Exn ValueError ("unsupported recovery plan action: " +:+ rp_action plan))
    | Some mode =>
        '(mode, reason, compensation_id, escalation_ref) ←
          compensation_step failing_action i plan mode;
        if _should_reflect i mode then
          decision ← _decide_reflect_and_retry (gk_iso clk) i reason;
          mret (_attach_backoff decision failure_count)
        else
          let decision := {|
            rd_run_id := rp_run_id plan; rd_mode := mode; rd_reason := reason;
            rd_compensation_action_id := compensation_id;
            rd_escalation_channel_ref := escalation_ref;
            rd_corrected_action := None;
            rd_retry_after_ms := _compute_retry_after_ms mode failure_count;
            rd_failure_count := failure_count |} in
          _record_circuit_failure (gk_record clk) (ri_failed_effect_class i);;
          mret decision
    end.

(** [RecoveryInput] has no [failing_action] attribute. *)
Definition gate_decide : gate_clock → RecoveryInput → M W RecoveryDecision := decide_with None.
End gate.

(** ** What the parts of [decide] touch *)
Section gate_spec.
Context {S C E : Type} `{DedupeStorePort S} `{CircuitBreakerLaws C}.
Context (g : gate_config E).
Abbreviation W := (gate_world S C E).

(** The circuits the gate sees, in its store or in its dictionaries. *)
Definition gate_circuits (w : W) : circuits := λ c,
  if g_circuit_breaker_store g then cb_view (gw_breaker w) c
  else (default 0 (_circuit_failures (gw_gate w) !! c),
        default 0 (_circuit_last_failure_mono (gw_gate w) !! c))%Z.

Definition failures (w : W) (run_id : string) : Z :=
  default 0%Z (_failure_counts (gw_gate w) !! run_id).

(** Nothing but the dedupe store and the collaborators changed. *)
Definition frame (w w' : W) : Prop :=
  gw_gate w' = gw_gate w ∧ gw_breaker w' = gw_breaker w.

Lemma frame_circuits w w' c : frame w w' → gate_circuits w' c = gate_circuits w c.
Proof. intros [Hg Hb]. unfold gate_circuits. by rewrite Hg, Hb. Qed.

Lemma wp_on_comp {A} (m : M (comp_world S E) A) (Q : A → W → Prop) Ex w :
  (∀ a w', frame w w' → Q a w') → (∀ e w', frame w w' → (m (gw_comp w)).1 = Raise e → Ex e w') →
  wp (on_comp m) Q Ex w.
Proof.
  intros HQ HE. apply wp_zoom. unfold wp. destruct (m (gw_comp w)) as [[a|e] c]; [by apply HQ|by apply HE].
Qed.

(** No handler ran and the dedupe store is as it was. *)
Definition quiet (w w' : W) : Prop :=
  cw_store (gw_comp w') = cw_store (gw_comp w) ∧ cw_calls (gw_comp w') = cw_calls (gw_comp w).

Lemma wp_gate_env {A} (m : M E A) (Q : A → W → Prop) Ex w :
  (∀ a w', frame w w' → quiet w w' → Q a w') →
  (∀ e w' env, frame w w' → quiet w w' → (m env).1 = Raise e → Ex e w') →
  wp (on_comp (CompensationRegistry.on_env m)) Q Ex w.
Proof.
  intros HQ HE. apply wp_zoom, wp_zoom. unfold wp.
  match goal with |- context [m ?x] => destruct (m x) as [[a|e] env] eqn:Hm end; [by apply HQ|].
  eapply HE; [done..|by rewrite Hm].
Qed.

(** The possible effects of the compensation step on a plan. *)
Definition eff_ok (plan : RecoveryPlan) (mode : string) (eff : effective) : Prop :=
  eff = (mode, rp_reason plan, rp_compensation_action_id plan, rp_escalation_channel_ref plan) ∨
  mode = "static_compensation" ∧
  (eff = ("abort", rp_reason plan +:+ ":no_compensation_handler", None, None) ∨
   eff = ("human_escalation", rp_reason plan +:+ ":compensation_exhausted", None,
          rp_escalation_channel_ref plan)).

(** The handler of the failing action raises [e]. *)
Definition handler_raises (fa : option Action) (w : W) (e : exn) : Prop :=
  ∃ action registry, fa = Some action ∧ g_compensation_registry g = Some registry ∧
    (CompensationRegistry.execute (g_runtime g) registry (g_dedupe_store g) action true
       (gw_comp w)).1 = Raise e.

Lemma compensation_step_spec fa i plan mode (Q : effective → W → Prop) Ex w :
  (∀ eff w', frame w w' → eff_ok plan mode eff → (fa = None → gw_comp w' = gw_comp w) → Q eff w') →
  (∀ e w', frame w w' → is_Exception e = false → handler_raises fa w e → Ex e w') →
  wp (compensation_step g fa i plan mode) Q Ex w.
Proof.
  intros HQ HE. unfold compensation_step.
  assert (wp (mret (M:=M W) (mode, rp_reason plan, rp_compensation_action_id plan,
    rp_escalation_channel_ref plan)) Q Ex w) as Hplanned by (apply wp_ret, HQ; [done|by left|done]).
  destruct (g_compensation_registry g) as [registry|] eqn:Hreg; [|done].
  destruct (_extract_effect_class i) as [ec|]; [|done].
  case_decide as Hm; [|done]. destruct (negb _).
  { apply wp_ret, HQ; [done|right; split; [done|by left]|done]. }
  destruct fa as [action|]; [|done].
  apply wp_try_except, wp_bind, wp_on_comp.
  - intros _ w' Hw'. apply wp_ret, HQ; [done|by left|done].
  - intros e w' Hw' Hrun. destruct (is_Exception e) eqn:He; [|by apply HE; [..|exists action, registry]].
    apply wp_ret, HQ; [done|right; split; [done|by right]|done].
Qed.

(** What reflection can answer. *)
Inductive reflected (policy : ReflectionPolicy) (i : RecoveryInput) (reason : string)
    : RecoveryDecision → Prop :=
  | reflected_corrected a :
      reflected policy i reason
        {| rd_run_id := ri_run_id i; rd_mode := "reflect_and_retry";
           rd_reason := reason +:+ ":reflect_and_retry:round=" +:+
                          pretty (ri_reflection_round i + 1)%Z;
           rd_compensation_action_id := None; rd_escalation_channel_ref := None;
           rd_corrected_action := Some a; rd_retry_after_ms := None; rd_failure_count := 0 |}
  | reflected_fallback : reflected policy i reason (_fallback_decision policy i reason).

Lemma should_reflect_spec i mode :
  _should_reflect g i mode = true →
  ∃ policy run_once,
    g_reflection_policy g = Some policy ∧ g_reasoning_loop g = Some run_once ∧
    mode ∈ ["static_compensation"; "abort"] ∧ is_reflectable policy (ri_reason_code i) = true ∧
    (ri_reflection_round i < max_rounds policy)%Z.
Proof.
  unfold _should_reflect. destruct (g_reflection_policy g) as [policy|]; [|done].
  destruct (g_reasoning_loop g) as [run_once|]; [|done].
  intros (((_ & Hm%bool_decide_eq_true)%andb_prop & Hr)%andb_prop & Hl%Z.ltb_lt)%andb_prop.
  by exists policy, run_once.
Qed.

Definition snapshot_fails (i : RecoveryInput) : Prop :=
  ri_capability_snapshot i = None ∧
  (ri_run_id i = "" ∨ (pj_projected_offset (ri_projection i) < 0)%Z).

(** The snapshot for the model cannot be built, the model raises [e]. *)
Definition snapshot_raises (iso : string) (i : RecoveryInput) (e : exn) : Prop :=
  ri_capability_snapshot i = None ∧ CapabilitySnapshot.build iso (gate_snapshot_input i) = Raise e.

Definition model_raises (e : exn) : Prop :=
  ∃ run_once request env, g_reasoning_loop g = Some run_once ∧ (run_once request env).1 = Raise e.

Lemma gate_snapshot_raise iso i e :
  CapabilitySnapshot.build iso (gate_snapshot_input i) = Raise e →
  ri_run_id i = "" ∨ (pj_projected_offset (ri_projection i) < 0)%Z.
Proof.
  unfold CapabilitySnapshot.build. destruct (_validate_input (gate_snapshot_input i)) as [[]|] eqn:Hv; [done|].
  intros _. unfold _validate_input, is_empty_str in Hv. simpl in Hv.
  case_bool_decide; [by left|]. destruct (Z.ltb_spec (pj_projected_offset (ri_projection i)) 0); [by right|].
  done.
Qed.

Lemma reflect_spec policy run_once iso i reason (Q : RecoveryDecision → W → Prop) Ex w :
  g_reflection_policy g = Some policy → g_reasoning_loop g = Some run_once →
  (∀ d w', frame w w' → quiet w w' → reflected policy i reason d → Q d w') →
  (∀ e w', frame w w' → quiet w w' →
     snapshot_raises iso i e ∨ is_Exception e = false ∧ model_raises e → Ex e w') →
  wp (_decide_reflect_and_retry g iso i reason) Q Ex w.
Proof.
  intros Hp Hl HQ HE. unfold _decide_reflect_and_retry. rewrite Hp, Hl. simpl.
  apply wp_bind, wp_ret, wp_bind, wp_ret, wp_bind.
  assert (∀ snapshot, wp
    (actions ← try_except
       (actions ← on_comp (CompensationRegistry.on_env (run_once {|
          rfq_run_id := ri_run_id i; rfq_snapshot := snapshot;
          rfq_model_ref := default "gpt-4o-mini" (g_default_inference_config g);
          rfq_context := build_reflection_context (_build_evidence_from_input i) [] empty_context
                           (ri_reflection_round i + 1);
          rfq_idempotency_key := reflection_key i |}));
        mret (Some actions))
       is_Exception (λ _, mret None);
     match actions with
     | Some (corrected_action :: _) =>
         mret {| rd_run_id := ri_run_id i; rd_mode := "reflect_and_retry";
                 rd_reason := reason +:+ ":reflect_and_retry:round=" +:+
                                pretty (ri_reflection_round i + 1)%Z;
                 rd_compensation_action_id := None; rd_escalation_channel_ref := None;
                 rd_corrected_action := Some corrected_action;
                 rd_retry_after_ms := None; rd_failure_count := 0 |}
     | _ => mret (_fallback_decision policy i reason)
     end) Q Ex w) as Hrest.
  { intros snapshot. apply wp_bind, wp_try_except, wp_bind, wp_gate_env.
    - intros actions w' Hw' Hq. apply wp_ret.
      destruct actions as [|a actions]; apply wp_ret, HQ; first [exact Hw'|exact Hq|constructor].
    - intros e w' env Hw' Hq Hrun. destruct (is_Exception e) eqn:He.
      2: { apply HE; [done..|right]. split; [done|]. by eexists run_once, _, env. }
      apply wp_ret, wp_ret, HQ; first [exact Hw'|exact Hq|constructor]. }
  destruct (ri_capability_snapshot i) as [snapshot|] eqn:Hs; [by apply wp_ret, Hrest|].
  apply wp_lift; [intros snapshot _; apply Hrest|].
  intros e He. apply HE; [done..|by left].
Qed.

(** The circuit of the failing action rejects the request. *)
Definition rejects (w : W) (now : Z) (effect_class : option string) : bool :=
  match g_circuit_breaker_policy g, effect_class with
  | Some policy, Some c => circuit_open policy now (gate_circuits w c)
  | _, _ => false
  end.

(** The circuits after a recorded failure. *)
Definition recorded (w : W) (now : Z) (effect_class : option string) : circuits :=
  match g_circuit_breaker_policy g, effect_class with
  | Some _, Some c => record_spec now c (gate_circuits w)
  | _, _ => gate_circuits w
  end.

Definition same_counts (w w' : W) : Prop := ∀ r, failures w' r = failures w r.

(** An operation of the breaker on the gate: the store's or its own. *)
Definition has_circuits (v : circuits) (w : W) : Prop :=
  cb_ok (gw_breaker w) ∧ ∀ c, gate_circuits w c = v c.

Lemma wp_breaker_store {A} (m : M C A) spec (Q : A → W → Prop) Ex w :
  g_circuit_breaker_store g = true → circuit_step cb_ok cb_view m spec → cb_ok (gw_breaker w) →
  (∀ w', has_circuits (spec (gate_circuits w)).2 w' → same_counts w w' → gw_comp w' = gw_comp w →
     gw_breaker w' = (m (gw_breaker w)).2 → Q (spec (gate_circuits w)).1 w') →
  (∀ e w', has_circuits (gate_circuits w) w' → same_counts w w' → gw_comp w' = gw_comp w →
     (m (gw_breaker w)).1 = Raise e → Ex e w') →
  (∀ v v', (∀ c, v c = v' c) → (spec v).1 = (spec v').1 ∧ ∀ c, (spec v).2 c = (spec v').2 c) →
  wp (on_store m) Q Ex w.
Proof.
  intros Hst Hm Hok HQ HE Hext. apply wp_zoom. unfold wp. specialize (Hm _ Hok).
  destruct (Hext (gate_circuits w) (cb_view (gw_breaker w))) as [He1 He2].
  { intros c. unfold gate_circuits. by rewrite Hst. }
  destruct (m (gw_breaker w)) as [[a|e] s].
  - destruct Hm as (Hs & -> & Hv). rewrite <- He1. apply HQ; [|done..].
    split; [done|]. intros c. rewrite He2. unfold gate_circuits. rewrite Hst. simpl. apply Hv.
  - destruct Hm as [Hs Hv]. apply HE; [|done..]. split; [done|].
    intros c. unfold gate_circuits. rewrite Hst. simpl. apply Hv.
Qed.

(** The store in use raises [e] on the class of the failing action, in the
    operation [m]. *)
Definition store_raises {A} (m : string → M C A) (effect_class : option string) (b : C) (e : exn)
    : Prop :=
  g_circuit_breaker_store g = true ∧
  ∃ policy c, g_circuit_breaker_policy g = Some policy ∧ effect_class = Some c ∧
    (m c b).1 = Raise e.

(** The store after the check of the circuit. *)
Definition checked (effect_class : option string) (b : C) : C :=
  match g_circuit_breaker_policy g, effect_class with
  | Some _, Some c => if g_circuit_breaker_store g then (cb_get_state c b).2 else b
  | _, _ => b
  end.

Lemma is_open_spec now effect_class (Q : bool → W → Prop) Ex w :
  cb_ok (gw_breaker w) →
  (∀ w', has_circuits (gate_circuits w) w' → same_counts w w' → gw_comp w' = gw_comp w →
     gw_breaker w' = checked effect_class (gw_breaker w) → Q (rejects w now effect_class) w') →
  (∀ e w', has_circuits (gate_circuits w) w' → same_counts w w' → gw_comp w' = gw_comp w →
     store_raises cb_get_state effect_class (gw_breaker w) e → Ex e w') →
  wp (_is_circuit_open g now effect_class) Q Ex w.
Proof.
  intros Hok HQ HE. unfold _is_circuit_open, rejects, checked in *.
  destruct (g_circuit_breaker_policy g) as [policy|] eqn:Hpol; [|by apply wp_ret, HQ].
  destruct effect_class as [c|]; [|by apply wp_ret, HQ].
  apply wp_bind. destruct (g_circuit_breaker_store g) eqn:Hst.
  - eapply wp_breaker_store; [done|apply (law_get_state c)|done| | |].
    + intros w' Hv Hc Hw' Hb. simpl in *. by apply wp_ret, HQ.
    + intros e w' Hv Hc Hw' Hr. apply HE; [done..|]. split; [done|]. by exists policy, c.
    + intros v v' Hv. simpl. by rewrite Hv.
  - apply wp_gets, wp_ret.
    assert (gate_circuits w c = (default 0 (_circuit_failures (gw_gate w) !! c),
      default 0 (_circuit_last_failure_mono (gw_gate w) !! c))%Z) as <-
      by (unfold gate_circuits; by rewrite Hst).
    by apply HQ.
Qed.

Lemma record_failure_spec now effect_class (Q : unit → W → Prop) Ex w :
  cb_ok (gw_breaker w) →
  (∀ w', has_circuits (recorded w now effect_class) w' → same_counts w w' →
     gw_comp w' = gw_comp w → Q tt w') →
  (∀ e w', has_circuits (gate_circuits w) w' → same_counts w w' → gw_comp w' = gw_comp w →
     store_raises (cb_record_failure now) effect_class (gw_breaker w) e → Ex e w') →
  wp (_record_circuit_failure g now effect_class) Q Ex w.
Proof.
  intros Hok HQ HE. unfold _record_circuit_failure, recorded in *.
  destruct (g_circuit_breaker_policy g) as [policy|] eqn:Hpol; [|by apply wp_ret, HQ].
  destruct effect_class as [c|]; [|by apply wp_ret, HQ].
  destruct (g_circuit_breaker_store g) eqn:Hst.
  - apply wp_bind. eapply wp_breaker_store; [done|apply (law_record_failure now c)|done| | |].
    + intros w' Hv Hc Hw' _. by apply wp_ret, HQ.
    + intros e w' Hv Hc Hw' Hr. apply HE; [done..|]. split; [done|]. by exists policy, c.
    + intros v v' Hv. simpl. rewrite Hv. split; [done|]. intros d. unfold record_spec.
      by rewrite Hv.
  - apply wp_zoom, wp_modify, HQ; [|done|done]. split; [done|]. intros d.
    unfold gate_circuits, record_spec. rewrite Hst. simpl. case_decide as Hd.
    + subst d. by rewrite !lookup_insert_eq.
    + by rewrite !lookup_insert_ne.
Qed.

(** The ways [decide] answers, from a state [w], with [n] the failure count. *)
Inductive decided (fa : option Action) (clk : gate_clock) (i : RecoveryInput) (w : W) (n : Z)
    : RecoveryDecision → W → Prop :=
  | decided_rejected w' :
      rejects w (gk_check clk) (ri_failed_effect_class i) = true →
      has_circuits (gate_circuits w) w' → gw_comp w' = gw_comp w →
      decided fa clk i w n
        {| rd_run_id := ri_run_id i; rd_mode := "abort";
           rd_reason := ri_reason_code i +:+ ":circuit_open";
           rd_compensation_action_id := None; rd_escalation_channel_ref := None;
           rd_corrected_action := None; rd_retry_after_ms := None; rd_failure_count := n |} w'
  | decided_reflected plan base mode reason comp esc policy d w' :
      rejects w (gk_check clk) (ri_failed_effect_class i) = false →
      build_plan_from_input (g_planner_policy g) i = Ok plan →
      RecoveryModeRegistry.get (rp_action plan) (g_modes g) = Some base →
      eff_ok plan base (mode, reason, comp, esc) →
      _should_reflect g i mode = true → g_reflection_policy g = Some policy →
      reflected policy i reason d → has_circuits (gate_circuits w) w' →
      (fa = None → quiet w w') →
      decided fa clk i w n (_attach_backoff d n) w'
  | decided_planned plan base mode reason comp esc w' :
      rejects w (gk_check clk) (ri_failed_effect_class i) = false →
      build_plan_from_input (g_planner_policy g) i = Ok plan →
      RecoveryModeRegistry.get (rp_action plan) (g_modes g) = Some base →
      eff_ok plan base (mode, reason, comp, esc) →
      _should_reflect g i mode = false →
      has_circuits (recorded w (gk_record clk) (ri_failed_effect_class i)) w' →
      (fa = None → quiet w w') →
      decided fa clk i w n
        {| rd_run_id := rp_run_id plan; rd_mode := mode; rd_reason := reason;
           rd_compensation_action_id := comp; rd_escalation_channel_ref := esc;
           rd_corrected_action := None; rd_retry_after_ms := _compute_retry_after_ms mode n;
           rd_failure_count := n |} w'.

(** Why [decide] raises: in the check of the circuit, or after it let the
    request through. *)
Inductive decide_raises (fa : option Action) (clk : gate_clock) (i : RecoveryInput) (w : W) (e : exn)
    : Prop :=
  | raises_check :
      store_raises cb_get_state (ri_failed_effect_class i) (gw_breaker w) e →
      decide_raises fa clk i w e
  | raises_later :
      rejects w (gk_check clk) (ri_failed_effect_class i) = false →
      build_plan_from_input (g_planner_policy g) i = Raise e ∨
      (∃ plan, build_plan_from_input (g_planner_policy g) i = Ok plan ∧
         RecoveryModeRegistry.get (rp_action plan) (g_modes g) = None ∧ exn_cls e = ValueError) ∨
      is_Exception e = false ∧ handler_raises fa w e ∨
      (∃ mode, _should_reflect g i mode = true) ∧
        (snapshot_raises (gk_iso clk) i e ∨ is_Exception e = false ∧ model_raises e) ∨
      store_raises (cb_record_failure (gk_record clk)) (ri_failed_effect_class i)
        (checked (ri_failed_effect_class i) (gw_breaker w)) e →
      decide_raises fa clk i w e.

Definition counted (w : W) (run_id : string) (w' : W) : Prop :=
  ∀ r, failures w' r = if decide (r = run_id) then (failures w r + 1)%Z else failures w r.

Lemma rejects_ext w w' now ec :
  (∀ c, gate_circuits w' c = gate_circuits w c) → rejects w' now ec = rejects w now ec.
Proof. intros Hv. unfold rejects. by repeat case_match; rewrite ?Hv. Qed.

Lemma recorded_ext w w' now ec c :
  (∀ c, gate_circuits w' c = gate_circuits w c) → recorded w' now ec c = recorded w now ec c.
Proof. intros Hv. unfold recorded, record_spec. repeat case_match; by rewrite ?Hv. Qed.

Lemma has_circuits_ext v v' w : (∀ c, v c = v' c) → has_circuits v w → has_circuits v' w.
Proof. intros Hv [? Hw]. split; [done|]. intros c. by rewrite Hw. Qed.

Lemma frame_step v w1 w2 w3 :
  frame w2 w3 → has_circuits v w2 → same_counts w1 w2 → has_circuits v w3 ∧ same_counts w1 w3.
Proof.
  intros Hf [Hok Hv] Hs. split; [split|].
  - by destruct Hf as [_ ->].
  - intros c. by rewrite (frame_circuits w2 w3).
  - intros r. rewrite <- Hs. unfold failures. by destruct Hf as [-> _].
Qed.

(** The whole of [decide]: it counts the failure, then either answers as
    [decided] says or raises for one of the reasons, with the circuits as they
    were. *)
Lemma decide_with_spec fa clk i w :
  cb_ok (gw_breaker w) →
  wp (decide_with g fa clk i)
    (λ d w', counted w (ri_run_id i) w' ∧
       decided fa clk i w (failures w (ri_run_id i) + 1) d w')
    (λ e w', counted w (ri_run_id i) w' ∧ has_circuits (gate_circuits w) w' ∧
       decide_raises fa clk i w e ∧ (fa = None → quiet w w') ∧
       (rejects w (gk_check clk) (ri_failed_effect_class i) = true →
        g_circuit_breaker_store g = true) ∧
       (rejects w (gk_check clk) (ri_failed_effect_class i) = true →
        gw_comp w' = gw_comp w)) w.
Proof.
  intros Hok. set (n := (failures w (ri_run_id i) + 1)%Z). unfold decide_with.
  apply wp_bind, wp_zoom. unfold count_failure, wp at 1. simpl.
  fold (failures w (ri_run_id i)). fold n. set (w1 := GateWorld _ (gw_breaker w) (gw_comp w)).
  assert (counted w (ri_run_id i) w1) as Hcount.
  { intros r. unfold failures at 1. simpl. case_decide as Hr.
    - subst r. by rewrite lookup_insert_eq.
    - by rewrite lookup_insert_ne. }
  assert (∀ c, gate_circuits w1 c = gate_circuits w c) as Hv1 by done.
  assert (∀ w', same_counts w1 w' → counted w (ri_run_id i) w') as Hcounted.
  { intros w' Hs r. by rewrite Hs. }
  apply wp_bind, (is_open_spec _ _ _ _ w1 Hok).
  2: { intros e w2 Hc2 Hs2 Hw2 Hst.
    split_and!; [by apply Hcounted|by eapply has_circuits_ext|by apply raises_check| |intros _; apply Hst|done].
    intros _. split; by rewrite Hw2. }
  intros w2 Hc2 Hs2 Hw2 Hb2. assert (quiet w w2) as Hq2 by by (split; rewrite Hw2).
  apply (has_circuits_ext _ _ _ Hv1) in Hc2.
  rewrite (rejects_ext w w1) by done.
  destruct (rejects w _ _) eqn:Hrej; [apply wp_ret; split; [by apply Hcounted|by apply decided_rejected]|].
  apply wp_bind, wp_lift.
  2: { intros e He. split_and!; [by apply Hcounted|done|apply raises_later; auto|done|congruence..]. }
  intros plan Hplan. destruct (RecoveryModeRegistry.get _ _) as [base|] eqn:Hbase.
  2: { apply wp_raise. split_and!; [by apply Hcounted|done| |done|congruence..].
    apply raises_later; [done|]. right. left. by exists plan. }
  apply wp_bind, compensation_step_spec.
  2: { intros e w3 Hf He Hfa. destruct (frame_step _ w1 w2 w3 Hf Hc2 Hs2).
    split_and!; [by apply Hcounted|done| |by destruct Hfa as (?&?&->&_)|congruence..].
    apply raises_later; [done|]. do 2 right. left. split; [done|].
    unfold handler_raises in *. by rewrite Hw2 in Hfa. }
  intros [[[mode reason] comp] esc] w3 Hf3 Heff Hw3.
  destruct (frame_step _ w1 w2 w3 Hf3 Hc2 Hs2) as [Hc3 Hs3].
  assert (fa = None → quiet w w3) as Hq3 by by (intros Hfa; unfold quiet; rewrite (Hw3 Hfa)).
  destruct (_should_reflect g i mode) eqn:Href.
  - pose proof (should_reflect_spec i mode Href) as (policy & run_once & Hp & Hl & _).
    apply wp_bind, (reflect_spec policy run_once); [done..| |].
    + intros d w4 Hf4 [Hq4 Hq4'] Hd. destruct (frame_step _ w1 w3 w4 Hf4 Hc3 Hs3). apply wp_ret.
      split; [by apply Hcounted|]. eapply decided_reflected; try done.
      intros Hfa. unfold quiet. rewrite Hq4, Hq4'. by apply Hq3.
    + intros e w4 Hf4 [Hq4 Hq4'] He. destruct (frame_step _ w1 w3 w4 Hf4 Hc3 Hs3).
      split_and!; [by apply Hcounted|done|apply raises_later; eauto 7| |congruence..].
      intros Hfa. unfold quiet. rewrite Hq4, Hq4'. by apply Hq3.
  - apply wp_bind, record_failure_spec; [apply Hc3|..].
    + intros w4 Hc4 Hs4 Hw4. apply wp_ret. split.
      { apply Hcounted. intros r. by rewrite Hs4. }
      eapply decided_planned; try done.
      * eapply has_circuits_ext; [|exact Hc4]. intros c. apply recorded_ext. apply Hc3.
      * unfold quiet. by rewrite Hw4.
    + intros e w4 Hc4 Hs4 Hw4 Hst. split_and!.
      * apply Hcounted. intros r. by rewrite Hs4.
      * eapply has_circuits_ext; [|exact Hc4]. apply Hc3.
      * apply raises_later; [done|]. do 4 right. destruct Hf3 as [_ Hb3]. by rewrite Hb3, Hb2 in Hst.
      * unfold quiet. by rewrite Hw4.
      * congruence.
      * congruence.
Qed.
End gate_spec.

(** ** Properties *)

(** What every decision of the gate satisfies. *)
Record decision_ok {E} (g : gate_config E) (i : RecoveryInput) (n : Z) (d : RecoveryDecision)
    : Prop := {
  do_run : rd_run_id d = ri_run_id i;
  do_count : rd_failure_count d = n;
  do_mode : rd_mode d ∈
    ["static_compensation"; "human_escalation"; "abort"; "reflect_and_retry"];
  do_retry : rd_retry_after_ms d = _compute_retry_after_ms (rd_mode d) n;
  do_compensation : is_Some (rd_compensation_action_id d) → rd_mode d = "static_compensation";
  do_channel : is_Some (rd_escalation_channel_ref d) → rd_mode d = "human_escalation";
  do_corrected : is_Some (rd_corrected_action d) ↔ rd_mode d = "reflect_and_retry";
  do_reflection : rd_mode d = "reflect_and_retry" →
    ∃ policy, g_reflection_policy g = Some policy ∧
      is_reflectable policy (ri_reason_code i) = true ∧
      (ri_reflection_round i < max_rounds policy)%Z
}.

Lemma planned_ok {E} (g : gate_config E) custom i plan base mode reason comp esc n :
  literal_policy (g_planner_policy g) → KERNEL_RECOVERY_MODE_REGISTRY custom = Ok (g_modes g) →
  build_plan_from_input (g_planner_policy g) i = Ok plan →
  RecoveryModeRegistry.get (rp_action plan) (g_modes g) = Some base →
  eff_ok plan base (mode, reason, comp, esc) →
  decision_ok g i n
    {| rd_run_id := rp_run_id plan; rd_mode := mode; rd_reason := reason;
       rd_compensation_action_id := comp; rd_escalation_channel_ref := esc;
       rd_corrected_action := None; rd_retry_after_ms := _compute_retry_after_ms mode n;
       rd_failure_count := n |}.
Proof.
  intros Hlit Hreg Hplan Hbase Heff. revert Hplan. unfold build_plan_from_input. case_decide; [done|].
  pose proof (plan_choice_literal _ i Hlit) as Hl. pose proof (plan_choice_ok (g_planner_policy g) i) as [Hch Hco].
  destruct (plan_choice _ i) as [[a pc] pe]. intros [= <-]. simpl in *.
  apply list_elem_of_fmap in Hl as ([a' m] & -> & Hin). simpl in *.
  rewrite (builtin_mode custom _ _ _ Hreg Hin) in Hbase. injection Hbase as ->.
  destruct Heff as [Heff|[-> [Heff|Heff]]]; injection Heff as -> -> -> ->;
    repeat (apply elem_of_cons in Hin as [Hin|Hin]; [injection Hin as -> ?; subst|]);
    try (by apply elem_of_nil in Hin); simpl in *.
  all: split; simpl; try done; try set_solver.
  all: try (rewrite Hco by done; intros [? [=]]); try (subst pe; intros [? [=]]).
Qed.

Lemma rejected_ok {E} (g : gate_config E) i n reason :
  decision_ok g i n
    {| rd_run_id := ri_run_id i; rd_mode := "abort"; rd_reason := reason;
       rd_compensation_action_id := None; rd_escalation_channel_ref := None;
       rd_corrected_action := None; rd_retry_after_ms := None; rd_failure_count := n |}.
Proof. split; simpl; try done; try set_solver; by intros [? [=]]. Qed.

Lemma reflected_ok {E} (g : gate_config E) policy i mode reason d n :
  _should_reflect g i mode = true → g_reflection_policy g = Some policy →
  reflected policy i reason d → decision_ok g i n (_attach_backoff d n).
Proof.
  intros Href Hp Hd. apply should_reflect_spec in Href as (policy' & _ & Hp' & _ & _ & Hr & Hl).
  assert (policy' = policy) as -> by congruence.
  destruct Hd; [|unfold _fallback_decision; destruct (escalate_on_exhaustion policy)].
  all: split; simpl; try done; try set_solver; try (by intros [? [=]]).
Qed.

Lemma plan_raises policy i e :
  build_plan_from_input policy i = Raise e →
  ri_run_id i ≠ pj_run_id (ri_projection i) ∧ exn_cls e = ValueError.
Proof.
  unfold build_plan_from_input. case_decide; [by intros [= <-]|]. by destruct (plan_choice _ i) as [[??]?].
Qed.

(** A literal plan action has a built-in mode. *)
Lemma builtin_plan_mode {E} (g : gate_config E) custom i (e : exn) :
  literal_policy (g_planner_policy g) → KERNEL_RECOVERY_MODE_REGISTRY custom = Ok (g_modes g) →
  (∃ plan, build_plan_from_input (g_planner_policy g) i = Ok plan ∧
     RecoveryModeRegistry.get (rp_action plan) (g_modes g) = None ∧ exn_cls e = ValueError) → False.
Proof.
  intros Hlit Hreg (plan & Hplan & Hnone & _).
  pose proof (plan_choice_literal _ i Hlit) as Hl. revert Hplan. unfold build_plan_from_input.
  case_decide; [done|]. destruct (plan_choice _ i) as [[a pc] pe]. intros [= <-]. simpl in *.
  apply list_elem_of_fmap in Hl as ([a' m] & -> & Hin). simpl in *.
  by rewrite (builtin_mode custom _ _ _ Hreg Hin) in Hnone.
Qed.

(** C35: what the gate decides.  With the built-in modes and the literal plan
    actions, every call counts one failure of the run, and only of it; every
    decision is for that run with that count, has one of the four modes,
    carries the backoff of its mode and count, names a compensation action
    only when compensating, a channel only when escalating and a corrected
    action exactly when reflecting, and reflects only on reflectable reasons
    within the round limit.  It raises only what the breaker's store raised when
    it was asked for the circuit of the failing action; or, once the circuit let
    the request through, a ValueError where the envelope and the projection are
    of different runs, what the handler of the failing action or the reflecting
    model raised where that is not an Exception (the task is cancelled), the
    error of the snapshot that reflection cannot build, or what the store raised
    when the failure was recorded. *)
Theorem gate_decision {S C E} `{DedupeStorePort S} `{CircuitBreakerLaws C} (g : gate_config E)
    custom fa clk i (w : gate_world S C E) :
  literal_policy (g_planner_policy g) → KERNEL_RECOVERY_MODE_REGISTRY custom = Ok (g_modes g) →
  cb_ok (gw_breaker w) →
  let '(o, w') := decide_with g fa clk i w in
  counted w (ri_run_id i) w' ∧
  match o with
  | Ok d => decision_ok g i (failures w' (ri_run_id i)) d
  | Raise e =>
      store_raises g cb_get_state (ri_failed_effect_class i) (gw_breaker w) e ∨
      rejects g w (gk_check clk) (ri_failed_effect_class i) = false ∧
      (ri_run_id i ≠ pj_run_id (ri_projection i) ∧ exn_cls e = ValueError ∨
       is_Exception e = false ∧ handler_raises g fa w e ∨
       (∃ mode, _should_reflect g i mode = true) ∧
         (snapshot_raises (gk_iso clk) i e ∧ snapshot_fails i ∨
          is_Exception e = false ∧ model_raises g e) ∨
       store_raises g (cb_record_failure (gk_record clk)) (ri_failed_effect_class i)
         (checked g (ri_failed_effect_class i) (gw_breaker w)) e)
  end.
Proof.
  intros Hlit Hreg Hok. pose proof (decide_with_spec g fa clk i w Hok) as Hwp. unfold wp in Hwp.
  destruct (decide_with g fa clk i w) as [[d|e] w'].
  - destruct Hwp as [Hc Hd]. split; [done|].
    assert (failures w' (ri_run_id i) = failures w (ri_run_id i) + 1)%Z as ->.
    { rewrite (Hc (ri_run_id i)). by rewrite decide_True. }
    destruct Hd; [by apply rejected_ok|by eapply reflected_ok|by eapply planned_ok].
  - destruct Hwp as (Hc & _ & He & _). split; [done|].
    destruct He as [He|Hrej [He|[He|[He|[[Hr He]|He]]]]]; [by left|right; split; [done|]..].
    + left. by apply (plan_raises (g_planner_policy g)).
    + exfalso. by eapply builtin_plan_mode.
    + right. by left.
    + do 2 right. left. split; [done|]. destruct He as [He|He]; [left|by right]. split; [done|].
      destruct He as [Hnone Hb]. split; [done|]. by eapply gate_snapshot_raise.
    + by do 3 right.
Qed.

Lemma success_spec {S C E} `{DedupeStorePort S} `{CircuitBreakerLaws C} (g : gate_config E) c
    (w : gate_world S C E) :
  cb_ok (gw_breaker w) →
  let '(o, w') := on_action_success g c w in
  o = Ok tt → ∀ k, gate_circuits g w' k = reset_spec c (gate_circuits g w) k.
Proof.
  intros Hok. unfold on_action_success. destruct (g_circuit_breaker_store g) eqn:Hst.
  - unfold on_store, zoom. pose proof (law_reset c _ Hok) as Hl.
    destruct (cb_reset c (gw_breaker w)) as [[[]|e] s]; [|done]. destruct Hl as (_ & _ & Hv).
    intros _ k. unfold gate_circuits, reset_spec. rewrite Hst. apply Hv.
  - intros _ k. unfold gate_circuits, reset_spec. rewrite Hst. simpl. case_decide as Hk.
    + subst k. by rewrite !lookup_delete_eq.
    + by rewrite !lookup_delete_ne.
Qed.

(** C7: the circuit breaker, one failure at a time.  An open circuit (the
    threshold reached, the cooldown not over) rejects: the answer is abort with
    reason circuit_open, no handler or model is called, and the circuit is
    left exactly as it was, so that rejected requests cannot prolong the
    cooldown.  A request that is let through records one failure, with the
    time at which it was recorded, on its own circuit and on no other, unless
    it was answered by reflection or raised, which record nothing.  A success
    resets its own circuit only. *)
Theorem circuit_breaker_step {S C E} `{DedupeStorePort S} `{CircuitBreakerLaws C}
    (g : gate_config E) policy fa clk i c (w : gate_world S C E) :
  g_circuit_breaker_policy g = Some policy → ri_failed_effect_class i = Some c →
  cb_ok (gw_breaker w) →
  let '(o, w') := decide_with g fa clk i w in
  cb_ok (gw_breaker w') ∧
  (if circuit_open policy (gk_check clk) (gate_circuits g w c) then
     (∀ k, gate_circuits g w' k = gate_circuits g w k) ∧
     match o with
     | Ok d => rd_mode d = "abort" ∧ rd_reason d = ri_reason_code i +:+ ":circuit_open" ∧
               gw_comp w' = gw_comp w
     | Raise _ => g_circuit_breaker_store g = true
     end
   else
     match o with
     | Ok d =>
         (∀ k, gate_circuits g w' k = record_spec (gk_record clk) c (gate_circuits g w) k) ∨
         ((∀ k, gate_circuits g w' k = gate_circuits g w k) ∧
          ∃ mode, _should_reflect g i mode = true)
     | Raise _ => ∀ k, gate_circuits g w' k = gate_circuits g w k
     end) ∧
  let '(o, w') := on_action_success g c w in
  o = Ok tt → ∀ k, gate_circuits g w' k = reset_spec c (gate_circuits g w) k.
Proof.
  intros Hp Hc Hok. pose proof (decide_with_spec g fa clk i w Hok) as Hwp. unfold wp in Hwp.
  assert (rejects g w (gk_check clk) (ri_failed_effect_class i) =
    circuit_open policy (gk_check clk) (gate_circuits g w c)) as Hrej.
  { unfold rejects. by rewrite Hp, Hc. }
  assert (∀ t k, recorded g w t (ri_failed_effect_class i) k = record_spec t c (gate_circuits g w) k) as Hrec.
  { intros t k. unfold recorded. by rewrite Hp, Hc. }
  destruct (decide_with g fa clk i w) as [[d|e] w'].
  - destruct Hwp as [_ Hd]. split; [|split; [|by apply success_spec]].
    + destruct Hd; match goal with Hv : has_circuits _ _ _ |- _ => apply Hv end.
    + destruct Hd as [w' Hr [_ Hv] Hw|plan base mode reason comp esc policy' d w' Hr _ _ _ Href _ _ [_ Hv] _
        |plan base mode reason comp esc w' Hr _ _ _ _ [_ Hv] _]; rewrite Hrej in Hr; rewrite Hr.
      * done.
      * right. split; [done|by exists mode].
      * left. intros k. by rewrite Hv.
  - destruct Hwp as (_ & [Hok' Hv] & _ & _ & Hst & _). split; [done|]. split; [|by apply success_spec].
    rewrite Hrej in Hst. destruct (circuit_open _ _ _); [|done]. split; [done|by apply Hst].
Qed.

(** Failures of one action class after one another, with their outcomes. *)
Fixpoint decide_all {S C E} `{DedupeStorePort S} `{CircuitBreakerStore C} (g : gate_config E)
    (requests : list (gate_clock * RecoveryInput)) (w : gate_world S C E)
    : list (outcome RecoveryDecision) * gate_world S C E :=
  match requests with
  | [] => ([], w)
  | (clk, i) :: requests =>
      let '(o, w1) := gate_decide g clk i w in
      let '(os, w2) := decide_all g requests w1 in
      (o :: os, w2)
  end.

Lemma rejected_step {S C E} `{DedupeStorePort S} `{CircuitBreakerLaws C} (g : gate_config E)
    policy clk i c (w : gate_world S C E) o w' :
  g_circuit_breaker_policy g = Some policy → ri_failed_effect_class i = Some c →
  cb_ok (gw_breaker w) → circuit_open policy (gk_check clk) (gate_circuits g w c) = true →
  gate_decide g clk i w = (o, w') →
  cb_ok (gw_breaker w') ∧ gate_circuits g w' c = gate_circuits g w c ∧ gw_comp w' = gw_comp w ∧
  match o with
  | Ok d => rd_mode d = "abort" ∧ rd_retry_after_ms d = None
  | Raise _ => g_circuit_breaker_store g = true
  end.
Proof.
  intros Hp Hc Hok Hopen Hd. pose proof (decide_with_spec g None clk i w Hok) as Hwp.
  unfold wp in Hwp. fold (gate_decide g clk i) in Hwp. rewrite Hd in Hwp.
  assert (rejects g w (gk_check clk) (ri_failed_effect_class i) = true) as Hr.
  { unfold rejects. by rewrite Hp, Hc. }
  destruct o as [d|e].
  - destruct Hwp as [_ Hdec]. destruct Hdec as [w' _ [? Hv] Hw| |]; [|congruence..].
    split_and!; [done|apply Hv|done|done|done].
  - destruct Hwp as (_ & [? Hv] & _ & _ & Hst & Hw). rewrite Hr in Hst, Hw.
    split_and!; [done|apply Hv|by apply Hw|by apply Hst].
Qed.

(** Sustained load cannot keep a circuit open.  However many failures of
    an open circuit arrive during its cooldown, each is rejected without
    calling anything, and once the cooldown has passed since the failure that
    opened it, the circuit lets the next request through. *)
Theorem circuit_cooldown {S C E} `{DedupeStorePort S} `{CircuitBreakerLaws C}
    (g : gate_config E) policy c requests (w : gate_world S C E) T :
  g_circuit_breaker_policy g = Some policy → cb_ok (gw_breaker w) →
  Forall (λ ki, ri_failed_effect_class ki.2 = Some c ∧
    circuit_open policy (gk_check ki.1) (gate_circuits g w c) = true) requests →
  let '(os, w') := decide_all g requests w in
  gw_comp w' = gw_comp w ∧
  Forall (λ o, match o with
               | Ok d => rd_mode d = "abort" ∧ rd_retry_after_ms d = None
               | Raise _ => g_circuit_breaker_store g = true
               end) os ∧
  gate_circuits g w' c = gate_circuits g w c ∧
  ((gate_circuits g w c).2 + half_open_after_ms policy * 1000000 ≤ T →
   circuit_open policy T (gate_circuits g w' c) = false)%Z.
Proof.
  intros Hp. revert w. induction requests as [|[clk i] requests IH]; intros w Hok Hall; simpl.
  { split_and!; [done|constructor|done|]. unfold circuit_open.
    intros HT. apply andb_false_intro2. lia. }
  apply Forall_cons in Hall as [[Hc Hopen] Hall]. simpl in Hc, Hopen.
  destruct (gate_decide g clk i w) as [o w1] eqn:Hd.
  destruct (rejected_step g policy clk i c w o w1 Hp Hc Hok Hopen Hd) as (Hok1 & Hv & Hw & Ho).
  specialize (IH w1 Hok1). rewrite Hv in IH. specialize (IH Hall).
  destruct (decide_all g requests w1) as [os w2]. destruct IH as (Hw2 & Hos & Hv2 & HT).
  split_and!; [by rewrite Hw2|by constructor|done|done].
Qed.

(** Kernel failures never run a compensation.  A [RecoveryInput] carries
    no failing action, so [decide] leaves the dedupe store alone and calls no
    handler, whatever the registry holds.  And a reason code without a colon (every one the run
    actor builds) does not even consult the registry of handlers: the decision
    is the one made without it. *)
Theorem gate_never_compensates {S C E} `{DedupeStorePort S} `{CircuitBreakerLaws C}
    (g : gate_config E) clk i (w : gate_world S C E) :
  cb_ok (gw_breaker w) →
  cw_store (gw_comp (gate_decide g clk i w).2) = cw_store (gw_comp w) ∧
  cw_calls (gw_comp (gate_decide g clk i w).2) = cw_calls (gw_comp w) ∧
  (_extract_effect_class i = None →
   gate_decide g clk i w =
   gate_decide {| g_planner_policy := g_planner_policy g; g_modes := g_modes g;
                  g_compensation_registry := None; g_runtime := g_runtime g;
                  g_reflection_policy := g_reflection_policy g;
                  g_reasoning_loop := g_reasoning_loop g;
                  g_default_inference_config := g_default_inference_config g;
                  g_circuit_breaker_policy := g_circuit_breaker_policy g;
                  g_reflection_builder := g_reflection_builder g;
                  g_circuit_breaker_store := g_circuit_breaker_store g;
                  g_dedupe_store := g_dedupe_store g |} clk i w).
Proof.
  intros Hok. pose proof (decide_with_spec g None clk i w Hok) as Hwp. unfold wp in Hwp.
  fold (gate_decide g clk i) in Hwp.
  assert (quiet w (gate_decide g clk i w).2) as [Hs Hc].
  { destruct (gate_decide g clk i w) as [[d|e] w'].
    - destruct Hwp as [_ Hd]. destruct Hd as [w' _ _ Hw|w' | w']; [split; simpl; by rewrite Hw|auto..].
    - destruct Hwp as (_ & _ & _ & Hq & _). by apply Hq. }
  split_and!; [done..|]. intros Hnone. unfold gate_decide, decide_with, compensation_step. rewrite Hnone.
  destruct (g_compensation_registry g); done.
Qed.

Lemma compute_retry_retryable mode n :
  mode ∈ _RETRYABLE_MODES → (1 ≤ n)%Z →
  _compute_retry_after_ms mode n =
    Some (if decide (n ≤ 6)%Z then 500 * 2 ^ (n - 1) else 30000)%Z.
Proof.
  intros Hm Hn. unfold _compute_retry_after_ms, _BACKOFF_BASE_MS, _BACKOFF_MAX_MS.
  rewrite decide_False by naive_solver. f_equal. rewrite Z.shiftl_mul_pow2 by lia.
  case_decide as H6.
  - replace (Z.min (n - 1) 16) with (n - 1)%Z by lia. pose proof (Z.pow_le_mono_r 2 (n - 1) 5) as Hle.
    change (2 ^ 5)%Z with 32%Z in Hle. specialize (Hle ltac:(lia) ltac:(lia)). rewrite Z.min_l; lia.
  - pose proof (Z.pow_le_mono_r 2 6 (Z.min (n - 1) 16)) as Hle. change (2 ^ 6)%Z with 64%Z in Hle.
    specialize (Hle ltac:(lia) ltac:(lia)). rewrite Z.min_r; lia.
Qed.

(** The backoff of a retryable mode doubles from 500 ms with each failure
    of the run and stays at 30 s from the seventh on: it never decreases and
    never exceeds the cap; terminal modes have none. *)
Theorem backoff_schedule mode n :
  (1 ≤ n)%Z →
  _compute_retry_after_ms mode n =
    (if decide (mode ∈ _RETRYABLE_MODES)
     then Some (if decide (n ≤ 6)%Z then 500 * 2 ^ (n - 1) else 30000)%Z else None) ∧
  (∀ a b, _compute_retry_after_ms mode n = Some a →
     _compute_retry_after_ms mode (n + 1) = Some b → (500 ≤ a ≤ b ∧ b ≤ 30000)%Z).
Proof.
  intros Hn. destruct (decide (mode ∈ _RETRYABLE_MODES)) as [Hm|Hm].
  - rewrite !(compute_retry_retryable mode) by (done || lia). split; [done|].
    intros a b [= <-] [= <-]. repeat case_decide; try lia.
    + pose proof (Z.pow_le_mono_r 2 0 (n - 1)) as Hlo. pose proof (Z.pow_le_mono_r 2 (n - 1) (n + 1 - 1)).
      pose proof (Z.pow_le_mono_r 2 (n + 1 - 1) 5) as Hhi.
      change (2 ^ 0)%Z with 1%Z in Hlo. change (2 ^ 5)%Z with 32%Z in Hhi. lia.
    + assert (n = 6)%Z as -> by lia. simpl. lia.
  - unfold _compute_retry_after_ms. by rewrite !decide_True.
Qed.

(** ** Instances *)
Definition example_modes : RecoveryModeRegistry.t :=
  match KERNEL_RECOVERY_MODE_REGISTRY [] with Ok r => r | Raise _ => [] end.

(** A gate with the in-memory breaker, a registry and a reflecting model. *)
Definition example_gate : gate_config nat := {|
  g_planner_policy := default_planner_policy;
  g_modes := example_modes;
  g_compensation_registry := Some example_registry;
  g_runtime := example_runtime;
  g_reflection_policy := Some default_reflection_policy;
  g_reasoning_loop := Some (λ rq n, (Ok [example_comp_action "fixed"], n));
  g_default_inference_config := None;
  g_circuit_breaker_policy := Some {| threshold := 2; half_open_after_ms := 30000 |};
  g_reflection_builder := true;
  g_circuit_breaker_store := false;
  g_dedupe_store := true |}.

Definition example_gate_world
    : gate_world InMemoryDedupeStore.t SQLiteCircuitBreakerStore.t nat :=
  GateWorld
    {| _failure_counts := ∅;
       _circuit_failures := {["compensatable_write" := 2%Z]};
       _circuit_last_failure_mono := {["compensatable_write" := 1000000000%Z]} |}
    ∅ (example_comp_world 0).

Definition clock_at (ms : Z) : gate_clock :=
  {| gk_check := ms * 1000000; gk_record := ms * 1000000; gk_iso := "" |}.

Lemma example_literal : literal_policy default_planner_policy.
Proof. unfold literal_policy, plan_actions. repeat constructor; simpl; set_solver. Qed.

(** The decision's mode, for comparing runs. *)
Definition mode_of (o : outcome RecoveryDecision) : option string :=
  match o with Ok d => Some (rd_mode d) | Raise _ => None end.

(** After the cooldown a reflectable failure is answered by the model. *)
Lemma gate_decision_witness :
  ∃ d, (decide_with example_gate None (clock_at 40000) (example_input "runtime_error")
          example_gate_world).1 = Ok d ∧
    rd_mode d = "reflect_and_retry" ∧ decision_ok example_gate (example_input "runtime_error") 1 d.
Proof.
  pose proof (gate_decision example_gate [] None (clock_at 40000) (example_input "runtime_error")
    example_gate_world example_literal eq_refl) as H. specialize (H I).
  assert (mode_of (decide_with example_gate None (clock_at 40000) (example_input "runtime_error")
    example_gate_world).1 = Some "reflect_and_retry") as Hmode by (vm_compute; reflexivity).
  destruct (decide_with _ _ _ _ _) as [[d|e] w'] eqn:Hd; [|discriminate Hmode].
  destruct H as [Hcount Hok]. exists d. split; [done|].
  replace 1%Z with (failures w' (ri_run_id (example_input "runtime_error")))
    by (rewrite Hcount; reflexivity).
  split; [by injection Hmode|exact Hok].
Defined.

Lemma circuit_breaker_step_witness :
  gate_circuits example_gate
    (decide_with example_gate None (clock_at 20000) (example_input "io:x") example_gate_world).2
    "compensatable_write" = (2, 1000000000)%Z.
Proof.
  pose proof (circuit_breaker_step example_gate _ None (clock_at 20000) (example_input "io:x")
    "compensatable_write" example_gate_world eq_refl eq_refl) as H. specialize (H I).
  destruct (decide_with _ _ _ _ _) as [o w']. destruct H as (_ & H & _).
  assert (circuit_open {| threshold := 2; half_open_after_ms := 30000 |} (gk_check (clock_at 20000))
    (gate_circuits example_gate example_gate_world "compensatable_write") = true) as Ho
    by (vm_compute; reflexivity).
  rewrite Ho in H. apply H.
Defined.

Lemma circuit_cooldown_witness :
  let requests := [(clock_at 5000, example_input "e1"); (clock_at 30999, example_input "e2")] in
  circuit_open {| threshold := 2; half_open_after_ms := 30000 |} 31000000000
    (gate_circuits example_gate (decide_all example_gate requests example_gate_world).2
       "compensatable_write") = false.
Proof.
  intros requests.
  pose proof (circuit_cooldown example_gate _ "compensatable_write" requests example_gate_world
    31000000000 eq_refl) as H. specialize (H I).
  destruct (decide_all _ _ _) as [os w']. apply H; [|vm_compute; discriminate].
  repeat constructor; vm_compute; reflexivity.
Defined.

Lemma gate_never_compensates_witness :
  cw_calls (gw_comp (gate_decide example_gate (clock_at 40000)
    (example_input "compensatable_write:timeout") example_gate_world).2) = [].
Proof.
  apply (gate_never_compensates example_gate (clock_at 40000)
    (example_input "compensatable_write:timeout") example_gate_world). exact I.
Defined.

Lemma backoff_schedule_witness :
  _compute_retry_after_ms "reflect_and_retry" 6 = Some 16000%Z ∧
  _compute_retry_after_ms "reflect_and_retry" 7 = Some 30000%Z.
Proof.
  split; [apply (backoff_schedule "reflect_and_retry" 6)|
          apply (backoff_schedule "reflect_and_retry" 7)]; lia.
Defined.
