(* ===== verification/BranchHealth.v ===== *)
(** * The branch monitor ([kernel/branch_monitor.py])

    Heartbeats of the parallel branches of a group.  The clock is an argument,
    in microseconds since 1970; a stamp is kept as that number in place of the
    text that [isoformat] prints and [fromisoformat] reads back. *)
From S2P Require Export RecoveryGate.

(** ** Time in doubles *)

(** [timestamp() * 1000.0]: the number of seconds is the quotient of the
    microseconds, correctly rounded. *)
Definition epoch_ms (us : Z) : spec_float :=
  SFmul prec64 emax64 (float_of_decimal (us <? 0)%Z (Z.abs us) (-6)) (float_of_decimal false 1000 0).

(** A comparison of a double with an int is exact. *)
Definition float_gt_Z (f : spec_float) (z : Z) : bool :=
  match f with
  | S754_zero _ => (z <? 0)%Z
  | S754_infinity s => negb s
  | S754_nan => false
  | S754_finite s m e =>
      let v := if s then Zneg m else Zpos m in
      if (0 <=? e)%Z then (z <? v * 2 ^ e)%Z else (z * 2 ^ (- e) <? v)%Z
  end.

Module BranchMonitor.
Record BranchState := {
  bs_action_id : string;
  bs_expected_interval_ms : Z;
  bs_last_heartbeat_us : Z;
  bs_budget_consumed_ratio : spec_float;
  bs_completed : bool;
  bs_output_produced : bool
}.

Record t := { _branches : odict BranchState }.

Definition float_zero : spec_float := S754_zero false.
Definition _DEAD_LOOP_RATIO_THRESHOLD : spec_float := float_of_decimal false 9 (-1).

Definition already_registered (action_id : string) : exn :=
  Exn ValueError ("Branch already registered: " +:+ str_repr action_id).

(** [self._branches[action_id]]. *)
Definition branch (action_id : string) : M t BranchState :=
  m ← gets id;
  match od_get action_id (_branches m) with
  | Some state => mret state
  | None => raise (Exn KeyError action_id)
  end.

Definition put (action_id : string) (state : BranchState) : M t unit :=
  modify (λ m, {| _branches := od_set action_id state (_branches m) |}).

Definition register_branch (action_id : string) (expected_interval_ms now : Z) : M t unit :=
  m ← gets id;
  match od_get action_id (_branches m) with
  | Some _ => raise (already_registered action_id)
  | None =>
      put action_id
        {| bs_action_id := action_id; bs_expected_interval_ms := expected_interval_ms;
           bs_last_heartbeat_us := now; bs_budget_consumed_ratio := float_zero;
           bs_completed := false; bs_output_produced := false |}
  end.

Definition record_heartbeat (action_id : string) (ratio : spec_float) (output_produced : bool)
    (now : Z) : M t unit :=
  state ← branch action_id;
  put action_id
    {| bs_action_id := bs_action_id state;
       bs_expected_interval_ms := bs_expected_interval_ms state;
       bs_last_heartbeat_us := now; bs_budget_consumed_ratio := ratio;
       bs_completed := bs_completed state;
       bs_output_produced := if output_produced then true else bs_output_produced state |}.

Definition complete_branch (action_id : string) : M t unit :=
  state ← branch action_id;
  put action_id
    {| bs_action_id := bs_action_id state;
       bs_expected_interval_ms := bs_expected_interval_ms state;
       bs_last_heartbeat_us := bs_last_heartbeat_us state;
       bs_budget_consumed_ratio := bs_budget_consumed_ratio state;
       bs_completed := true; bs_output_produced := bs_output_produced state |}.

Definition overdue (now : Z) (state : BranchState) : bool :=
  let elapsed_ms := SFsub prec64 emax64 (epoch_ms now) (epoch_ms (bs_last_heartbeat_us state)) in
  let grace_period_ms := (bs_expected_interval_ms state * 2)%Z in
  float_gt_Z elapsed_ms grace_period_ms.

Definition get_stalled_branches (now : Z) (m : t) : list string :=
  map bs_action_id
    (filter (λ state, negb (bs_completed state) && overdue now state = true)
       (map snd (_branches m))).

Definition dead_loop (state : BranchState) : bool :=
  SFleb _DEAD_LOOP_RATIO_THRESHOLD (bs_budget_consumed_ratio state)
  && negb (bs_output_produced state).

Definition is_suspected_dead_loop (action_id : string) : M t bool :=
  state ← branch action_id;
  mret (dead_loop state).

Definition build_script_failure_evidence (action_id script_id original_script : string)
    (partial_output stderr_tail : option string) : M t ScriptFailureEvidence :=
  state ← branch action_id;
  mret {| sf_script_id := script_id; sf_failure_kind := "heartbeat_timeout";
          sf_budget_consumed_ratio := bs_budget_consumed_ratio state;
          sf_output_produced :=
            match partial_output with
            | Some (String _ _) => true
            | _ => bs_output_produced state
            end;
          sf_suspected_cause :=
            if dead_loop state then Some "possible_infinite_loop" else None;
          sf_partial_output := partial_output; sf_original_script := original_script;
          sf_stderr_tail := stderr_tail |}.
End BranchMonitor.

(** ** Verdicts over a history *)
Import BranchMonitor.

Inductive monitor_op :=
  | Register (action_id : string) (expected_interval_ms now : Z)
  | Beat (action_id : string) (ratio : spec_float) (output_produced : bool) (now : Z)
  | Complete (action_id : string).

Definition run_monitor_op (op : monitor_op) : M BranchMonitor.t unit :=
  match op with
  | Register a i now => register_branch a i now
  | Beat a r o now => record_heartbeat a r o now
  | Complete a => complete_branch a
  end.

(** The caller handles the exceptions. *)
Definition run_monitor (ops : list monitor_op) (m : BranchMonitor.t) : BranchMonitor.t :=
  foldl (λ m op, (run_monitor_op op m).2) m ops.

(** The table is keyed by the action ids, each once. *)
Definition monitor_wf (m : BranchMonitor.t) : Prop :=
  NoDup (map fst (_branches m)) ∧
  ∀ a state, od_get a (_branches m) = Some state → bs_action_id state = a.

(** What no operation takes back. *)
Definition settled (state state' : BranchState) : Prop :=
  (bs_completed state = true → bs_completed state' = true) ∧
  (bs_output_produced state = true → bs_output_produced state' = true) ∧
  bs_expected_interval_ms state' = bs_expected_interval_ms state.

Lemma put_wf a state m :
  monitor_wf m → bs_action_id state = a → monitor_wf (put a state m).2.
Proof.
  intros [Hnd Hid] Ha. split; simpl.
  - rewrite od_set_keys. case_decide; [done|]. apply NoDup_app. split; [done|].
    split; [|apply NoDup_singleton]. by intros x Hx ->%list_elem_of_singleton.
  - intros a' state'. rewrite od_get_set. case_decide as Heq; [|apply Hid].
    intros [= <-]. by rewrite Heq.
Qed.

Lemma monitor_op_wf op m : monitor_wf m → monitor_wf (run_monitor_op op m).2.
Proof.
  intros Hwf. pose proof Hwf as [_ Hid].
  destruct op as [a i now|a r o now|a]; simpl;
    unfold register_branch, record_heartbeat, complete_branch, branch, gets, id, mbind, M_bind;
    destruct (od_get a (_branches m)) as [state|] eqn:Hg; try done; apply put_wf; try done;
    simpl; by apply Hid.
Qed.

Lemma monitor_op_settled op m a state :
  od_get a (_branches m) = Some state →
  ∃ state', od_get a (_branches (run_monitor_op op m).2) = Some state' ∧ settled state state'.
Proof.
  intros Ha. destruct op as [b i now|b r o now|b]; simpl;
    unfold register_branch, record_heartbeat, complete_branch, branch, gets, id, mbind, M_bind;
    destruct (od_get b (_branches m)) as [sb|] eqn:Hb; try (by exists state);
    simpl; rewrite od_get_set; case_decide as Hab; try (by exists state); simplify_eq.
  - eexists. split; [done|]. split_and!; [done| |done]. simpl. by intros ->; destruct o.
  - eexists. split; [done|]. by split_and!.
Qed.

Lemma run_monitor_settled ops m a state :
  monitor_wf m → od_get a (_branches m) = Some state →
  monitor_wf (run_monitor ops m) ∧
  ∃ state', od_get a (_branches (run_monitor ops m)) = Some state' ∧ settled state state'.
Proof.
  revert m state. induction ops as [|op ops IH]; intros m state Hwf Ha; simpl.
  { split; [done|]. by exists state. }
  destruct (monitor_op_settled op m a state Ha) as (state1 & Ha1 & Hc1 & Ho1 & Hi1).
  destruct (IH _ _ (monitor_op_wf op m Hwf) Ha1) as [Hwf2 (state2 & Ha2 & Hc2 & Ho2 & Hi2)].
  split; [done|]. exists state2. split; [done|]. split_and!; [tauto|tauto|by rewrite Hi2].
Qed.

Lemma stalled_iff m now a :
  monitor_wf m →
  a ∈ get_stalled_branches now m ↔
  ∃ state, od_get a (_branches m) = Some state ∧ bs_completed state = false ∧
           overdue now state = true.
Proof.
  intros [Hnd Hid]. unfold get_stalled_branches. rewrite list_elem_of_fmap. split.
  - intros (state & -> & [Hs Hin]%list_elem_of_filter). apply andb_true_iff in Hs as [Hc Ho].
    apply list_elem_of_fmap in Hin as ([k state'] & -> & Hin). simpl in *.
    apply od_get_elem_iff in Hin; [|done]. rewrite (Hid _ _ Hin). exists state'.
    split_and!; [done|by apply negb_true_iff|done].
  - intros (state & Hg & Hc & Ho). exists state. rewrite (Hid _ _ Hg). split; [done|].
    apply list_elem_of_filter. split; [by rewrite Hc, Ho|].
    apply list_elem_of_fmap. exists (a, state). split; [done|]. by apply od_get_elem.
Qed.

(** The difference of a double with itself is zero, or NaN. *)
Lemma SFsub_diag prec emax f z : (0 ≤ z)%Z → float_gt_Z (SFsub prec emax f f) z = false.
Proof.
  intros Hz. destruct f as [s|s| |s m e]; simpl.
  - destruct s; simpl; lia.
  - destruct s; simpl; done.
  - done.
  - rewrite Z.sub_diag. simpl. lia.
Qed.

(** A completed branch is never reported again, one that has produced output is
    never suspected of a dead loop again, and one that just beat is not
    reported, whatever happens to the monitor in between. *)
Theorem branch_verdicts_final ops m a state now :
  monitor_wf m → od_get a (_branches m) = Some state →
  (bs_completed state = true → a ∉ get_stalled_branches now (run_monitor ops m)) ∧
  (bs_output_produced state = true →
   (is_suspected_dead_loop a (run_monitor ops m)).1 = Ok false) ∧
  (∀ ratio output, (0 ≤ bs_expected_interval_ms state)%Z →
   a ∉ get_stalled_branches now (run_monitor (ops ++ [Beat a ratio output now]) m)).
Proof.
  intros Hwf Ha. destruct (run_monitor_settled ops m a state Hwf Ha)
    as [Hwf' (state' & Ha' & Hc & Ho & Hi)]. split_and!.
  - intros Hdone. rewrite stalled_iff by done. intros (state2 & Hg & Hc2 & _). rewrite Ha' in Hg. injection Hg as <-.
    by rewrite (Hc Hdone) in Hc2.
  - intros Hout. unfold is_suspected_dead_loop, branch, gets, id, mbind, M_bind. rewrite Ha'.
    simpl. unfold dead_loop. by rewrite (Ho Hout), andb_false_r.
  - intros ratio output Hint. unfold run_monitor. rewrite foldl_app.
    change (foldl _ m ops) with (run_monitor ops m).
    cbn [foldl]. rewrite stalled_iff by (by apply (monitor_op_wf (Beat a ratio output now))).
    intros (state2 & Hg & _ & Hov). simpl in Hg.
    unfold record_heartbeat, branch, gets, id, mbind, M_bind in Hg. rewrite Ha' in Hg.
    simpl in Hg. rewrite od_get_set, decide_True in Hg by done. injection Hg as <-.
    unfold overdue in Hov. simpl in Hov. rewrite SFsub_diag in Hov; [done|]. lia.
Qed.

(** In doubles a branch can be reported at exactly twice its interval. *)
Example two_intervals_reported :
  let m := run_monitor [Register "b" 1001 1700000037037014] {| _branches := [] |} in
  get_stalled_branches (1700000037037014 + 2 * 1001 * 1000) m = ["b"].
Proof. vm_compute. reflexivity. Qed.
