(* ===== verification/KernelRuntime.v ===== *)
(** * The runtime on the local substrate ([runtime/kernel_runtime.py])

    How the services, the run actor's turn engine, the gateway and the facade
    are put together, and what the whole promises: nothing that an action does
    not declare is executed, and a run that was cancelled stays aborted. *)
From S2P Require Export LocalSafety FacadeSafety CapabilityResolver Admission RecoveryPlanner TurnLinks.
Import ActionPayloadCapabilitySnapshotInputResolver.

(** ** Services ([kernel/minimal_runtime.py], [_build_services]) *)
Module StaticRecoveryGateService.
Record StaticRecoveryPolicy := { mode : string; reason_prefix : string }.

Definition default_policy : StaticRecoveryPolicy := {| mode := "abort"; reason_prefix := "recovery" |}.

Definition decide (policy : StaticRecoveryPolicy) (i : RecoveryInput) : RecoveryDecision :=
  {| rd_run_id := ri_run_id i; rd_mode := mode policy;
     rd_reason := reason_prefix policy +:+ ":" +:+ ri_reason_code i;
     rd_compensation_action_id := None; rd_escalation_channel_ref := None;
     rd_corrected_action := None; rd_retry_after_ms := None; rd_failure_count := 0 |}.
End StaticRecoveryGateService.

(** What the executor of the engine makes of an executor service's result. *)
Definition executor_ack (result : pyval) : pydict :=
  match result with
  | PDict d => d
  | v => [("acknowledged", PBool (py_truthy v))]
  end.

Section wiring.
Context {L S E : Type} `{EventLogPort L} `{DedupeStorePort S}.
Context (utc_now : E → string * E) (now : E → string).
Context (handler : option (Action → option string → M E pydict)).
Context (strict : bool).

(** [_TurnEngineExecutorAdapter.execute] over [AsyncExecutorService]. *)
Definition adapter_execute (action : Action) (_ : CapabilitySnapshot) (_ : IdempotencyEnvelope)
    (_ : option ExecutionContext) : M E pydict :=
  result ← AsyncExecutorService_execute handler action None;
  mret (executor_ack (PDict result)).

Definition build_snapshot (input : CapabilitySnapshotInput) : M E CapabilitySnapshot :=
  λ e, let '(t, e') := utc_now e in (build t input, e').

Definition admit_static (action : Action) (snapshot : CapabilitySnapshot) : M E admission_value :=
  lift (r ← StaticDispatchAdmissionService.admit_action action snapshot; Ok (admission_of_result r)).

(** The engine that [RunActorWorkflow.__init__] makes, without cognitive
    services. *)
Definition actor_engine : TurnEngine E :=
  {| te_now := now; te_build := build_snapshot; te_admit := admit_static;
     te_execute := adapter_execute; te_executor_takes_context := true;
     te_snapshot_input_resolver := Some (resolve (new_resolver strict));
     te_require_declared_snapshot_inputs := strict; te_reasoning_loop := None;
     te_phase_timeout := false; te_defaults := None |}.

(** The bundle of [KernelRuntime.start]; outside Temporal. *)
Definition runtime_deps (workflow_id_prefix : string)
    : RunActorDependencyBundle L InMemoryDecisionDeduper.t S E :=
  {| dp_projection := {| _reject_derived_diagnostic_authority_input := true;
                         _event_schema_migrator := None; _target_event_schema_version := None |};
     dp_turn_engine := actor_engine;
     dp_recovery_decide i :=
       mret (StaticRecoveryGateService.decide StaticRecoveryGateService.default_policy i);
     dp_on_action_success := None; dp_recovery_outcomes := None; dp_turn_intent_log := None;
     dp_utc_now := utc_now; dp_history_event_threshold := 10000;
     dp_workflow_id_prefix := workflow_id_prefix; dp_temporal := None |}.
End wiring.

(** ** Starting and stopping

    The runtime's facade is given the gateway, the health probe and the drain
    coordinator; no event log, dedupe store, adapter or task registry. *)
Module KernelRuntime.
Section runtime.
Context {L S E : Type} `{EventLogPort L} `{DedupeStorePort S}.
Context (deps : RunActorDependencyBundle L InMemoryDecisionDeduper.t S E).
Abbreviation G := (LocalWorkflowGateway.t L InMemoryDecisionDeduper.t S E).

Record t := Runtime {
  kr_world : facade_world L S G;
  _stopped : bool
}.

(** The services share one event log and one dedupe store.  With an export sink
    [event_log] is the exporting log ([EventExport]), whose loads are the inner
    log's, which the projection reads. *)
Definition _build_services (event_log : L) (dedupe_store : S) (env : E) : services L S E :=
  Services (Build_projection_service event_log ∅) (World dedupe_store env []).

Definition start (event_log : L) (dedupe_store : S) (env : E) : t :=
  Runtime
    (FacadeWorld new_facade None None None None (Some DrainCoordinator.__init__) None
       (LocalWorkflowGateway.new_gateway (_build_services event_log dedupe_store env)
          InMemoryDecisionDeduper.__init__))
    false.

Definition on_world {A} (m : M (facade_world L S G) A) : M t A :=
  zoom kr_world (λ w r, Runtime w (_stopped r)) m.

(** [stop] up to its wait for the operations in flight: whether it goes on.
    It goes on when they are done ([_drained]) or the time is over. *)
Definition begin_stop : M t bool :=
  r ← gets id;
  if _stopped r then mret false
  else on_world (on_facade (modify (set_draining true)));; mret true.

(** The rest, without background tasks and closing of resources. *)
Definition finish_stop : M t unit :=
  on_world (on_gw (LocalWorkflowGateway.shutdown deps));;
  modify (λ r, Runtime (kr_world r) true).
End runtime.
Arguments t : clear implicits.
End KernelRuntime.

(** C21: in the engine that the run actor is given, the executor is entered at
    most once per turn, and only for the action of the turn, with a snapshot
    that the builder made of what the action declares, after the admission
    service admitted it for that snapshot and the dispatch policy let it pass.
    In strict mode the action declares its capabilities and a complete
    declarative bundle, which the snapshot carries. *)
Theorem executes_only_declared {S E : Type} `{DedupeStorePort S} (utc_now : E → string * E)
    (now : E → string) (handler : option (Action → option string → M E pydict)) (strict : bool)
    (i : TurnInput) (a : Action) (w w' : world S E) (o : outcome TurnResult)
    (Hturn : run_turn (actor_engine utc_now now handler strict) i (Some a) w = (o, w')) :
  w_calls w' = w_calls w ∨
  ∃ x input t r, w_calls w' = w_calls w ++ [x] ∧ xc_action x = a ∧
    resolve (new_resolver strict) i a = Ok input ∧ build t input = Ok (xc_snapshot x) ∧
    StaticDispatchAdmissionService.admit_action a (xc_snapshot x) = Ok r ∧ ar_admitted r = true ∧
    dp_should_block (_resolve_dispatch_policy a) = false ∧
    (strict = true →
     (∃ payload, py_get "capability_snapshot_input" (default [] (act_input_json a)) = PDict payload) ∧
     ∃ b, cs_declarative_bundle_digest (xc_snapshot x) = Some b ∧ complete_bundle b).
Proof.
  assert (calls_linked (actor_engine utc_now now handler strict) i a w w') as [Hs|Hx].
  { pose proof (turn_linked (actor_engine utc_now now handler strict) i a w) as Hw. unfold wp in Hw.
    rewrite Hturn in Hw. by destruct o. }
  1: by left.
  right. destruct Hx as (x & Hcalls & [[[_ (input & s & e & e' & Hin & Hb & Hs)] Hadm] Hpol] & Ha & Hxs).
  destruct Hadm as (s' & v & e1 & e2 & Hs' & Hv & Hyes).
  rewrite Hxs in Hs, Hs'. injection Hs as <-. injection Hs' as <-.
  simpl in Hin, Hb, Hv. unfold build_snapshot in Hb. destruct (utc_now e) as [t e3].
  injection Hb as Hb _. unfold admit_static, lift in Hv.
  destruct (StaticDispatchAdmissionService.admit_action a (xc_snapshot x)) as [r|y] eqn:Hr; simpl in Hv; [|done].
  injection Hv as <- _. exists x, input, t, r. simpl in Hyes. injection Hyes as Hyes.
  split_and!; try done. intros Hst. subst strict.
  pose proof (resolve_resolved (new_resolver true) i a) as Hres. rewrite Hin in Hres.
  destruct Hres as [_ Hdecl Hbundle Hcomplete _ _ _ _]. split; [by apply Hdecl|].
  destruct (Hbundle eq_refl) as [b Hbb]. exists b. split; [|by apply Hcomplete].
  unfold build in Hb. destruct (_validate_input input); [|done]. cbn [mbind outcome_bind] in Hb.
  revert Hb. generalize (_build_stable_sha256 (canonical_payload input)). by intros h [= <-].
Qed.

(** ** Cancelling a run through the facade *)
Import LocalWorkflowGateway.

Section cancel.
Context {L D S E : Type} `{EventLogLaws L} `{DecisionDeduperPort D} `{DedupeStorePort S}.
Context (deps : RunActorDependencyBundle L D S E) (runs : gset string) `{!RetainingLog L runs}.
Context (workflow_id_prefix : string) (max_cache_size : Z).
Context (handler : Action → M (LocalWorkflowGateway.t L D S E) pyval) (next_uuid : E → string * E).
Context (Hmig : _event_schema_migrator (dp_projection deps) = None) (Htemporal : dp_temporal deps = None).
Abbreviation G := (LocalWorkflowGateway.t L D S E).
Abbreviation gw := (as_workflow_gateway deps workflow_id_prefix max_cache_size
  handler next_uuid).
Abbreviation cfg := (dp_projection deps).
Implicit Types g : G.

(** No start-up task of the run waits. *)
Definition started_up (run : string) g : Prop :=
  ∀ ref s, lg_started g !! ref = Some s → rn_run_id (sd_input s) = run →
    sd_task s = task_done.

Definition cached g (run : string) : option RunProjection :=
  _projection_by_run (sv_projection (lg_services g)) !! run.

(** From an aborted projection in the cache on, with no object of the run that
    anything calls. *)
Lemma gateway_inv_aborted run g :
  gateway_inv deps runs anything g → (∃ p, cached g run = Some p ∧ pj_lifecycle_state p = aborted) →
  _workflows g !! run = None → started_up run g →
  gateway_inv deps runs (aborted_run run) g.
Proof.
  intros [[Hlog Hsv _] Hst Hwf Ht] Hp Hw Hup. split; [|intros ref s Hs Hlive|done|done].
  - split; [done|done|]. intros r ->. exact Hp.
  - destruct (Hst ref s Hs Hlive) as [Ho Hpv Hps [Hr Hl]]. split; [done..|]. split; [done|].
    intros p Hlp. destruct (Hl p Hlp) as [Hk _]. split; [done|]. intros Hrun. exfalso.
    destruct Hlive as [Hl'|Hl']; [by apply Hl', (Hup ref)|]. rewrite Hrun in Hl'. congruence.
Qed.

(** A query returns what is good of a projection. *)
Lemma query_good good (Hgood : absorbing good) run g p g' :
  gateway_inv deps runs good g → query_projection deps run g = (Ok p, g') →
  good run (Some p).
Proof.
  intros Hg. pose proof (project_frame deps runs good Hgood (none_keeps_offset deps Hmig) run None _ (gi_services _ _ _ g Hg)) as Hw.
  assert (∀ p g', lg_on_services (sv_on_projection (get cfg run)) g = (Ok p, g') →
    good run (Some p)) as Hcur.
  { intros q g1. unfold lg_on_services, sv_on_projection, get, zoom.
    unfold wp, sv_on_projection, zoom in Hw. destruct (project _ _ _ _) as [[x|e] ps]; [|done].
    intros [= <- <-]. apply Hw. }
  unfold query_projection, gets, mbind, M_bind. change (@id G g) with g.
  destruct (_workflows g !! run) as [ref|] eqn:Href; [|by apply Hcur].
  destruct (gi_workflows _ _ _ g Hg run ref Href) as (s & Hs & Ho).
  destruct (gi_started _ _ _ g Hg ref s Hs) as [_ _ _ [_ Hl]]; [right; by rewrite Ho|].
  unfold locals_of. rewrite Hs. simpl. unfold query.
  destruct (identity (sd_locals s)) as [run'|]; simpl; [|by apply Hcur].
  destruct (_last_projection (sd_locals s)) as [q|] eqn:Hq; simpl; [|by apply Hcur].
  intros [= <- _]. destruct (Hl q eq_refl) as [_ Hgq]. by rewrite Ho in Hgq.
Qed.

Definition cancel_signal (q : CancelRunRequest) : SignalRunRequest :=
  facade_signal (cn_run_id q) "cancel_requested"
    (Some (("reason", PStr (cn_reason q))
           :: _build_signal_observability "cancel" (cn_run_id q) (cn_caused_by q)))
    (cn_caused_by q).

(** A cancel request that is taken aborts any run that is not completed. *)
Lemma cancel_aborts run h sequence t1 t2 q p p0 :
  replay cfg run h = Ok p0 → pj_lifecycle_state p0 ≠ completed →
  replay cfg run (h ++ signal_events (L := L) run (actor_signal_of_request (cancel_signal q)) h sequence t1 t2)
    = Ok p →
  pj_lifecycle_state p = aborted.
Proof.
  intros H0' Hp0. unfold replay in *. rewrite replay_loop_app, H0'. cbn [mbind outcome_bind].
  unfold signal_events, signal_commit. simpl.
  assert (∀ e, _maybe_migrate_event cfg e = Ok e) as Hm by (intros e; unfold _maybe_migrate_event; by rewrite Hmig).
  set (e := el_normal _). assert (ev_event_type e = "run.cancel_requested") as He.
  { unfold e. rewrite (rt_type (runs := runs)). reflexivity. }
  assert (ev_event_authority e = authoritative_fact) as Hau.
  { unfold e. rewrite (rt_authority (runs := runs)). reflexivity. }
  rewrite Hm. cbn [mbind outcome_bind].
  unfold _validate_projection_authority_input. simpl. rewrite Hau. simpl.
  rewrite andb_false_r. simpl. intros [= <-].
  unfold _apply_projection_event, _resolve_projection_transition,
    _is_lower_priority_operational_conflict. simpl. rewrite He.
  rewrite (bool_decide_false (pj_lifecycle_state p0 = completed)) by done.
  rewrite (bool_decide_false (_ ∧ _)) by naive_solver. simpl.
  destruct (_projection_operational_priority p0) as [[]|]; done.
Qed.

(** [cancel_workflow] of a run whose start-up is over. *)
Lemma cancel_registered run reason g :
  od_get run (_run_tasks g) = _workflows g !! run →
  started_up run g → (∀ ref, _workflows g !! run = Some ref →
    ∃ s, lg_started g !! ref = Some s ∧ rn_run_id (sd_input s) = run) →
  cancel_workflow deps run reason g =
    end_cancel run g.
Proof.
  intros Ht Hup Hwf. unfold cancel_workflow, begin_cancel,
    cancel_task, gets, mbind, M_bind. change (@id G g) with g. rewrite Ht.
  destruct (_workflows g !! run) as [ref|] eqn:Href; [|done].
  destruct (Hwf ref eq_refl) as (s & Hs & Ho). change (@id G g) with g. rewrite Hs.
  by rewrite decide_True by by apply (Hup ref).
Qed.
(** The gateway when [cancel_run] returns. *)
Lemma cancel_run_gateway {L' S' : Type} (w w' : facade_world L' S' G) q :
  cancel_run gw q w = (Ok tt, w') →
  ∃ g1, signal_workflow deps (cn_run_id q) (cancel_signal q) (fw_env w) = (Ok tt, g1) ∧
    (cancel_workflow deps (cn_run_id q) (cn_reason q) g1).2 = fw_env w'.
Proof.
  unfold cancel_run, send, on_gw, FacadeAdapters.signal_workflow, mbind, M_bind, zoom. simpl.
  unfold mbind, M_bind. fold (cancel_signal q).
  destruct (signal_workflow deps _ _ (fw_env w)) as [[[]|e] g1]; [|done]. simpl.
  unfold try_except. cbn [fw_env]. destruct (cancel_workflow deps (cn_run_id q) (cn_reason q) g1) as [[[]|e] g2] eqn:Hc; simpl.
  - intros [= <-]. exists g1. by rewrite Hc.
  - destruct (is_Exception e); [|done]. case_match; [|done].
    intros [= <-]. exists g1. by rewrite Hc.
Qed.

(** What [query_run] makes of the gateway's answer. *)
Lemma query_run_state {L' S' : Type} (w : facade_world L' S' G) run :
  match (query_run gw run w).1 with
  | Ok r => ∃ p g', query_projection deps run (fw_env w) = (Ok p, g') ∧
      qr_lifecycle_state r = pj_lifecycle_state p
  | Raise e => (query_projection deps run (fw_env w)).1 = Raise e
  end.
Proof.
  unfold query_run, on_gw, mbind, M_bind, zoom. simpl.
  destruct (query_projection deps run (fw_env w)) as [[p|e] g']; simpl; [|done].
  unfold on_checkpoint, zoom, when_some. simpl. destruct (fw_checkpoint_adapter w); simpl; eauto.
Qed.

Lemma query_raises run g e g' :
  query_projection deps run g = (Raise e, g') →
  (get cfg run (sv_projection (lg_services g))).1 = Raise e.
Proof.
  assert (∀ g1, lg_on_services (sv_on_projection (get cfg run)) g = (Raise e, g1) →
    (get cfg run (sv_projection (lg_services g))).1 = Raise e) as Hcur.
  { intros g1. unfold lg_on_services, sv_on_projection, zoom.
    destruct (get cfg run _) as [[x|y] ps]; [done|]. by intros [= <- _]. }
  unfold query_projection, gets, mbind, M_bind. change (@id G g) with g.
  destruct (_workflows g !! run) as [ref|]; [|by apply Hcur].
  unfold query. destruct (identity _); simpl; [|by apply Hcur].
  destruct (_last_projection _); simpl; [done|by apply Hcur].
Qed.
End cancel.

(** C20: a run that was cancelled through the facade is reported aborted from
    then on, whatever happens after: restarts of the run under its name,
    signals, other writers of its log.  Where [cancel_run] returns, for a run
    that is started and not completed, it has appended exactly one cancel event
    to that run's history, left every other run's history alone and removed
    the registration; a query through the facade then returns aborted, or
    raises what the projection service raises. *)
Theorem cancelled_run_stays_aborted {L D S E L' S' : Type} `{EventLogLaws L}
    `{DecisionDeduperPort D} `{DedupeStorePort S} (deps : RunActorDependencyBundle L D S E)
    (runs : gset string) `{!RetainingLog L runs} (workflow_id_prefix : string) (max_cache_size : Z)
    (handler : Action → M (LocalWorkflowGateway.t L D S E) pyval) (next_uuid : E → string * E)
    (sv : services L S E) (d : D) (q : CancelRunRequest) (ref : nat) (p0 : RunProjection)
    (w w' w'' : facade_world L' S' (LocalWorkflowGateway.t L D S E))
    (Hmig : _event_schema_migrator (dp_projection deps) = None) (Htemporal : dp_temporal deps = None)
    (Hlog : rt_ok (runs := runs) (log_of sv)) (Hnew : _projection_by_run (sv_projection sv) = ∅)
    (Hreach : rtc (gateway_step deps runs max_cache_size) (new_gateway sv d) (fw_env w))
    (Href : _workflows (fw_env w) !! cn_run_id q = Some ref)
    (Hid : identity (locals_of ref (fw_env w)) = Some (cn_run_id q))
    (Hup : started_up (cn_run_id q) (fw_env w))
    (Hseen : already_seen (locals_of ref (fw_env w)) (actor_signal_of_request (cancel_signal q)) = false)
    (Hp0 : replay (dp_projection deps) (cn_run_id q) (LocalSafety.run_history (fw_env w) (cn_run_id q)) = Ok p0)
    (Hoff : pj_projected_offset p0 = Z.of_nat (length (LocalSafety.run_history (fw_env w) (cn_run_id q))))
    (Hopen : pj_lifecycle_state p0 ≠ completed)
    (Hcancel : cancel_run (as_workflow_gateway deps workflow_id_prefix max_cache_size handler next_uuid) q w
               = (Ok tt, w'))
    (Hlater : rtc (gateway_step deps runs max_cache_size) (fw_env w') (fw_env w'')) :
  let run := cn_run_id q in
  _workflows (fw_env w') !! run = None ∧
  (∀ r, r ≠ run → LocalSafety.run_history (fw_env w') r = LocalSafety.run_history (fw_env w) r) ∧
  (∃ e, LocalSafety.run_history (fw_env w') run = LocalSafety.run_history (fw_env w) run ++ [e] ∧
     ev_event_type e = "run.cancel_requested") ∧
  match (query_run (as_workflow_gateway deps workflow_id_prefix max_cache_size handler next_uuid) run w'').1 with
  | Ok r => qr_lifecycle_state r = aborted
  | Raise e => (get (dp_projection deps) run (sv_projection (lg_services (fw_env w'')))).1 = Raise e
  end.
Proof.
  cbv zeta. pose proof (none_keeps_offset deps Hmig) as Hkeep.
  pose proof (new_gateway_inv deps runs anything sv d (λ _, I) Hlog Hnew) as Hinv.
  destruct (gateway_reachable deps runs anything absorbing_anything Hkeep Htemporal max_cache_size _ _ Hinv Hreach) as [Hg _].
  destruct (cancel_run_gateway deps workflow_id_prefix max_cache_size handler next_uuid w w' q Hcancel)
    as (g1 & Hsig & Hg').
  assert (gateway_inv deps runs anything g1) as Hg1.
  { eapply (gateway_step_kept deps runs anything absorbing_anything Hkeep Htemporal max_cache_size); [exact Hg|].
    by eapply gs_signal. }
  destruct (signal_taken deps runs Hmig Htemporal (fw_env w) g1 (cn_run_id q) ref (cancel_signal q) Hg Href Hid
    Hseen (ex_intro _ p0 (conj Hp0 Hoff)) Hsig) as (sequence & t1 & t2 & p & sv' & d' & l' & Ha & Hg1eq).
  assert (pj_lifecycle_state p = aborted) as Hp.
  { pose proof (ho_replay _ _ _ _ _ _ _ Ha) as Hr. cbv beta in Hr. rewrite decide_True in Hr by done.
    exact (cancel_aborts deps runs Hmig _ _ _ _ _ _ _ _ Hp0 Hopen Hr). }
  assert (started_up (cn_run_id q) g1) as Hup1.
  { intros ref' s. subst g1. simpl. rewrite list_lookup_alter. case_decide as Hd; [subst ref'|apply Hup].
    destruct (lg_started (fw_env w) !! ref) as [s0|] eqn:Hs0; simpl; intros [= <-] Ho. by apply (Hup ref s0). }
  rewrite (cancel_registered deps) in Hg' by
    (apply (gi_tables _ _ _ g1 Hg1) || done || intros ref'; apply (gi_workflows _ _ _ g1 Hg1)).
  assert (gateway_inv deps runs (aborted_run (cn_run_id q)) (fw_env w')) as Hg2.
  { assert (gateway_inv deps runs anything (fw_env w')) as Hany.
    { eapply (gateway_step_kept deps runs anything absorbing_anything Hkeep Htemporal max_cache_size); [exact Hg1|].
      eapply (gs_end_cancel _ _ _ (cn_run_id q)). rewrite <- Hg'. apply surjective_pairing. }
    apply gateway_inv_aborted; [exact Hany| | |]; rewrite <- Hg'; unfold end_cancel, modify; simpl.
    - exists p. split; [|done]. unfold cached. simpl. rewrite Hg1eq. exact (ho_cached _ _ _ _ _ _ _ Ha).
    - apply lookup_delete_eq.
    - exact Hup1. }
  rewrite <- Hg'. split; [apply lookup_delete_eq|].
  pose proof (ho_histories _ _ _ _ _ _ _ Ha) as Hh. unfold history_of, actor_log in Hh. simpl in Hh.
  unfold LocalSafety.run_history, end_cancel, modify. simpl. rewrite Hg1eq. simpl. split; [|split].
  - intros r Hr. rewrite Hh. by rewrite decide_False.
  - eexists. rewrite Hh, decide_True by done. split; [reflexivity|].
    simpl. apply (rt_type (runs := runs)).
  - destruct (gateway_reachable deps runs _ (absorbing_aborted (cn_run_id q)) Hkeep Htemporal max_cache_size _ _
      Hg2 Hlater) as [Hg3 _].
    pose proof (query_run_state deps workflow_id_prefix max_cache_size handler next_uuid w'' (cn_run_id q)) as Hq.
    destruct (query_run _ _ w'').1 as [r|e].
    + destruct Hq as (p1 & g' & Hq & ->).
      destruct (query_good deps runs Hmig _ (absorbing_aborted _) _ _ _ _ Hg3 Hq eq_refl) as (p2 & [= <-] & ?).
      done.
    + destruct (query_projection _ _ _) as [[x|y] g'] eqn:Hqp; [done|]. injection Hq as ->.
      by eapply query_raises.
Qed.

(** ** Stopping *)
Section stopping.
Context {L S E : Type} `{EventLogPort L} `{DedupeStorePort S}.
Context (deps : RunActorDependencyBundle L InMemoryDecisionDeduper.t S E).
Abbreviation G := (LocalWorkflowGateway.t L InMemoryDecisionDeduper.t S E).

Lemma step_task_returns ref (g : G) : is_ok (step_task deps ref g).1 = true.
Proof.
  unfold step_task, gets, mbind, M_bind. change (@id G g) with g.
  destruct (lg_started g !! ref) as [s|]; [|done]. destruct (sd_task s); [|done|done].
  unfold reify. by destruct (on_workflow _ _ g) as [[o|e] g1].
Qed.

Lemma run_tasks_returns refs (g : G) : is_ok (run_tasks deps refs g).1 = true.
Proof.
  revert g. induction refs as [|ref refs IH]; intros g; [done|]. simpl. unfold mbind, M_bind.
  pose proof (step_task_returns ref g). destruct (step_task deps ref g) as [[o|e] g1]; [apply IH|done].
Qed.

Lemma shutdown_clears (g : G) :
  let '(o, g') := shutdown deps g in o = Ok tt ∧ _workflows g' = ∅ ∧ _run_tasks g' = [].
Proof.
  assert (∀ refs (g : G), is_ok (shutdown_tasks deps refs g).1 = true) as Hok.
  { induction refs as [|ref refs IH]; intros g0; [done|]. simpl.
    unfold cancel_task, gets, mbind, M_bind. change (@id G g0) with g0.
    destruct (lg_started g0 !! ref) as [s|]; [case_decide|]; [apply IH| |apply IH].
    simpl. unfold suspend, gets, mbind, M_bind.
    match goal with |- context [run_tasks deps ?l ?g1] => pose proof (run_tasks_returns l g1);
      destruct (run_tasks deps l g1) as [[o|e] g2] end; [apply IH|done]. }
  unfold shutdown, gets, mbind, M_bind. change (@id G g) with g.
  specialize (Hok (map snd (_run_tasks g)) g).
  destruct (shutdown_tasks deps _ g) as [[o|e] g1]; [done|done].
Qed.

(** A runtime that was stopped has no run, and stopping it again does nothing. *)
Lemma stop_stops (r : KernelRuntime.t L S E) :
  let '(o, r') := KernelRuntime.finish_stop deps r in
  o = Ok tt ∧ _workflows (fw_env (KernelRuntime.kr_world r')) = ∅ ∧
  KernelRuntime.begin_stop r' = (Ok false, r').
Proof.
  unfold KernelRuntime.finish_stop, KernelRuntime.on_world, on_gw, zoom, mbind, M_bind.
  pose proof (shutdown_clears (fw_env (KernelRuntime.kr_world r))) as Hs.
  destruct (shutdown deps _) as [o g]. destruct Hs as (-> & Hw & _). by split_and!.
Qed.
End stopping.

(** ** A concrete runtime: everything in memory *)
Definition example_clock (e : unit) : string * unit := ("2026-01-01T00:00:00Z", e).
Definition example_now (e : unit) : string := "2026-01-01T00:00:00Z".

Definition shipped_engine (strict : bool) : TurnEngine unit :=
  actor_engine example_clock example_now None strict.

Definition shipped_deps : RunActorDependencyBundle InMemoryKernelRuntimeEventLog.t
    InMemoryDecisionDeduper.t InMemoryDedupeStore.t unit :=
  runtime_deps example_clock example_now None true "run".

Lemma executes_only_declared_witness :
  match run_turn (shipped_engine true) resolver_turn (Some merged_action) example_world with
  | (Ok r, w') => ∃ x b, w_calls w' = [x] ∧ cs_declarative_bundle_digest (xc_snapshot x) = Some b ∧
      complete_bundle b
  | (Raise _, _) => False
  end.
Proof.
  pose proof (executes_only_declared example_clock example_now None true resolver_turn merged_action
    example_world) as H.
  change (actor_engine example_clock example_now None true) with (shipped_engine true) in H.
  assert (Hc : match run_turn (shipped_engine true) resolver_turn (Some merged_action) example_world with
    | (Ok _, w') => Nat.eqb (length (w_calls w')) 1 | _ => false end = true) by (vm_compute; reflexivity).
  destruct (run_turn (shipped_engine true) resolver_turn (Some merged_action) example_world) as [[r|e] w'];
    [|discriminate Hc].
  destruct (H w' (Ok r) eq_refl) as [Hs|(x & input & t & ar & Hx & _ & _ & _ & _ & _ & _ & Hb)].
  - rewrite Hs in Hc. discriminate Hc.
  - destruct (Hb eq_refl) as (_ & b & Hb1 & Hb2). exists x, b. split; [exact Hx|]. by split.
Defined.

(** The same action without its declaration is not executed. *)
Lemma undeclared_not_executed :
  w_calls (run_turn (shipped_engine true) resolver_turn (Some example_action) example_world).2 = [].
Proof. vm_compute. reflexivity. Qed.

Abbreviation shipped_gateway :=
  (as_workflow_gateway shipped_deps "run" 100 (λ _, mret PNone) (λ e, ("uuid", e))).

Definition shipped_world g : facade_world InMemoryKernelRuntimeEventLog.t InMemoryDedupeStore.t
    example_gateway :=
  FacadeWorld new_facade None None None None None None g.

Definition run_started : example_gateway :=
  (step_task shipped_deps 0 (begin_start (start_request "run-1" None) example_new).2).2.

Definition cancel_example : CancelRunRequest :=
  {| cn_run_id := "run-1"; cn_reason := "user"; cn_caused_by := None |}.

Definition run_cancelled := (cancel_run shipped_gateway cancel_example (shipped_world run_started)).2.
Definition run_restarted : example_gateway :=
  (step_task shipped_deps 1 (begin_start (start_request "run-1" None) (fw_env run_cancelled)).2).2.

(** A run that is cancelled, and started again under the same name. *)
Lemma cancelled_run_stays_aborted_witness :
  _workflows run_restarted !! "run-1" = Some 1 ∧
  match (query_run shipped_gateway "run-1" (shipped_world run_restarted)).1 with
  | Ok r => qr_lifecycle_state r = aborted
  | Raise _ => False
  end.
Proof.
  split; [vm_compute; reflexivity|].
  assert (Hreach : rtc (gateway_step shipped_deps example_runs 100) example_new run_started).
  { eapply rtc_l; [eapply (gs_start shipped_deps example_runs 100 (start_request "run-1" None)
      _ _ (begin_start (start_request "run-1" None) example_new).2)|].
    - apply (bool_decide_unpack _). vm_compute. exact I.
    - apply surjective_pairing.
    - eapply rtc_l; [eapply (gs_task shipped_deps example_runs 100 0), surjective_pairing|apply rtc_refl]. }
  assert (Hlater : rtc (gateway_step shipped_deps example_runs 100) (fw_env run_cancelled) run_restarted).
  { eapply rtc_l; [eapply (gs_start shipped_deps example_runs 100 (start_request "run-1" None)
      _ _ (begin_start (start_request "run-1" None) (fw_env run_cancelled)).2)|].
    - apply (bool_decide_unpack _). vm_compute. exact I.
    - apply surjective_pairing.
    - eapply rtc_l; [eapply (gs_task shipped_deps example_runs 100 1), surjective_pairing|apply rtc_refl]. }
  assert (Hid : identity (locals_of 0 run_started) = Some "run-1") by (vm_compute; reflexivity).
  assert (Href : _workflows run_started !! "run-1" = Some 0) by (vm_compute; reflexivity).
  assert (Hseen : already_seen (locals_of 0 run_started)
    (actor_signal_of_request (cancel_signal cancel_example)) = false) by (vm_compute; reflexivity).
  assert (Hrep : replay (dp_projection shipped_deps) "run-1" (LocalSafety.run_history run_started "run-1")
    = Ok (_default_projection "run-1")) by (vm_compute; reflexivity).
  assert (Hup : started_up "run-1" run_started).
  { assert (Hd : forallb (λ s, bool_decide (sd_task s = task_done)) (lg_started run_started) = true)
      by (vm_compute; reflexivity).
    intros ref s Hs _. apply list_elem_of_lookup_2, list_elem_of_In in Hs.
    by apply (proj1 (forallb_forall _ _) Hd), bool_decide_eq_true in Hs. }
  assert (Hc : (cancel_run shipped_gateway cancel_example (shipped_world run_started)).1 = Ok tt)
    by (vm_compute; reflexivity).
  assert (Hok : is_ok (query_run shipped_gateway "run-1" (shipped_world run_restarted)).1 = true)
    by (vm_compute; reflexivity).
  destruct (cancelled_run_stays_aborted (RetainingLog0 := example_retaining) shipped_deps example_runs
    "run" 100 (λ _, mret PNone) (λ e, ("uuid", e)) example_sv InMemoryDecisionDeduper.__init__
    cancel_example 0 (_default_projection "run-1") (shipped_world run_started) run_cancelled
    (shipped_world run_restarted)) as (_ & _ & _ & Hq).
  - reflexivity.
  - reflexivity.
  - exact example_log_ok.
  - reflexivity.
  - exact Hreach.
  - exact Href.
  - exact Hid.
  - exact Hup.
  - exact Hseen.
  - exact Hrep.
  - vm_compute. reflexivity.
  - discriminate.
  - unfold run_cancelled. rewrite <- Hc. apply surjective_pairing.
  - exact Hlater.
  - change (cn_run_id cancel_example) with "run-1" in Hq.
    destruct (query_run shipped_gateway "run-1" (shipped_world run_restarted)).1 as [r|e]; [exact Hq|discriminate Hok].
Defined.
